(* ===== verification/_CoqProject ===== *)
-Q . S2P
Prelude.v
Strs.v
Find.v
Float64.v
JobState.v
Llm.v
Json.v
JobMemory.v
ContextManager.v
CircuitBreaker.v
Failover.v
ResponseCache.v
Session.v
Submission.v
Undo.v
Compaction.v
CostGuard.v
RateLimiter.v
Chunker.v
Search.v
HttpPolicy.v
Secrets.v
Pairing.v
Hooks.v
SessionManager.v
LeakDetector.v
Skills.v
Safety.v
Dispatcher.v
Reasoning.v
Worker.v
SelfRepair.v
ThreadOps.v
Scheduler.v
Tool.v
WasmHost.v
Workspace.v
Files.v
Shell.v
Registry.v
Extensions.v
Containers.v
OrchestratorApi.v
Router.v
Channels.v
HttpChannel.v
Heartbeat.v
Shadow.v
Kernel.v
JobTools.v
Commands.v
MemoryTools.v
Routines.v
AgentLoop.v
Conversations.v
Gateway.v
GatewayChat.v
SandboxStore.v
GatewayJobs.v
Settings.v
WasmChannelHost.v
WasmChannels.v
OpenAiCompat.v
RigAdapter.v
McpAuth.v
McpClient.v
ContainerWorker.v
