(* ===== verification/Prelude.v ===== *)
(** * TitanClaw (IronClaw): a verification library

    TitanClaw is an AI agent runtime in Rust.  A user's message arrives on a
    channel, is parsed into a submission, and runs as a turn of a thread of
    the user's session.  The dispatcher calls a language model (through a
    circuit breaker, a failover list and a response cache, within a cost
    guard) and executes the tools the model asks for, behind approvals, hooks
    and the safety layer; tool output and skills enter the prompt escaped.
    Larger work runs as jobs, in the process under the scheduler or in
    containers under the orchestrator, whose workers talk back over an
    authenticated API.  Routines start work on a schedule or on messages.
    Extensions add tools to the registry.  This library models the parts that
    carry state and decisions and leaves out the parts that only move data
    (see the end of this comment).

    ** The files, in the order of their dependencies

    Foundations
    - [Prelude]: Rust's [Result] and its [?] ([let?]), machine integers, time,
      the [DecimalOps]/[DecimalLaws] interface of decimal amounts, the tactics
      and the hint database [claw], lemmas on lists and on counting the values
      of a map.
    - [Strs] and [Find]: the string functions of the standard library the code
      uses, with specifications.  [Float64]: IEEE doubles by the Standard
      Library's [SpecFloat].  [Json]: the values of [serde_json].
    - [Llm] ([src/llm/provider.rs]): messages, requests, errors, and the
      provider trait as the class [LlmProvider]; a method takes the provider's
      state and the time and returns the answer, the new state and the later
      time.

    Jobs
    - [JobState] ([src/context/state.rs]), [JobMemory]
      ([src/context/memory.rs]), [ContextManager] ([src/context/manager.rs]):
      the state machine, the memory and the lock-protected maps of jobs.
    - [Worker] ([src/agent/worker.rs]): the life of a job; [SelfRepair]
      ([src/agent/self_repair.rs]); [Scheduler] ([src/agent/scheduler.rs],
      [src/agent/task.rs]): parallel jobs and subtasks.
    - [Routines] ([src/agent/routine.rs], [src/agent/routine_engine.rs],
      [src/db/libsql/routines.rs], [src/tools/builtin/routine.rs]).

    Model calls
    - [CircuitBreaker], [Failover] (with [src/llm/retry.rs]) and
      [ResponseCache] of [src/llm]: wrappers of a provider, each proved against
      the class of the provider it wraps.
    - [CostGuard] ([src/agent/cost_guard.rs], [src/llm/costs.rs]), [Reasoning]
      ([src/llm/reasoning.rs]): prompts, requests and the reading of answers,
      [RigAdapter] ([src/llm/rig_adapter.rs]): models behind the rig-core crate.

    Conversations
    - [Session] ([src/agent/session.rs]), [Submission]
      ([src/agent/submission.rs]), [Undo] ([src/agent/undo.rs] and the thread
      commands), [Compaction] ([src/agent/compaction.rs],
      [src/agent/context_monitor.rs]), [SessionManager]
      ([src/agent/session_manager.rs]).
    - [Dispatcher] ([src/agent/dispatcher.rs]): the agentic loop.  The model,
      the tools and the clock are the record [Deps]; what the loop does is
      logged as [Event]s.
    - [ThreadOps] ([src/agent/thread_ops.rs], [src/agent/agent_loop.rs]): user
      input, approvals, interrupts, authentication, the handling of a message.
    - [Router], [Commands], [Heartbeat] (with [src/workspace/hygiene.rs]),
      [Shadow] ([src/agent/shadow_engine.rs]), [Kernel]
      ([src/agent/kernel_orchestrator.rs] and its monitor), [AgentLoop]
      ([src/agent/agent_loop.rs]): the rest of the agent.

    Channels
    - [Channels] ([src/channels/channel.rs], [src/channels/manager.rs],
      [src/agent/job_monitor.rs]), [HttpChannel] ([src/channels/http.rs]).
    - [Gateway] ([src/channels/web]: tokens, routes, limits, events, WebSocket),
      [GatewayChat] (its threads and history), [GatewayJobs] (its jobs and
      files), over [Conversations] ([src/db/libsql/conversations.rs]) and
      [SandboxStore] ([src/db/libsql/sandbox.rs]); [OpenAiCompat]
      ([src/channels/web/openai_compat.rs]), its endpoint for other clients.
    - [WasmChannelHost], [WasmChannels] ([src/channels/wasm]: host.rs,
      capabilities.rs, router.rs, wrapper.rs): channels that are WASM guests.

    What protects them
    - [Hooks] ([src/hooks]), [LeakDetector], [Safety] ([src/safety]), [Skills]
      ([src/skills] and the prompt block of the dispatcher), [Pairing]
      ([src/pairing/store.rs]).
    - [RateLimiter] ([src/tools/wasm/rate_limiter.rs]) and [HttpPolicy]
      ([src/tools/wasm/allowlist.rs], [src/sandbox/proxy]), [Secrets]
      ([src/secrets], [src/tools/wasm/credential_injector.rs]).

    Tools and containers
    - [Tool] ([src/tools/tool.rs], [src/util.rs]), [Files]
      ([src/tools/builtin/file.rs]) over a file system with symbolic links,
      [Shell] ([src/tools/builtin/shell.rs]), [JobTools]
      ([src/tools/builtin/job.rs]), [WasmHost] ([src/tools/wasm]: what the host
      does for a WASM tool).
    - [Registry] ([src/tools/registry.rs]) with the interleavings of its two
      critical sections, [Extensions] ([src/tools/mcp/config.rs],
      [src/extensions/manager.rs]), [McpAuth] ([src/tools/mcp/auth.rs] and the
      callback of [src/cli/oauth_defaults.rs]), [McpClient]
      ([src/tools/mcp/client.rs], protocol.rs, session.rs).
    - [Containers] ([src/orchestrator/auth.rs],
      [src/orchestrator/job_manager.rs]) and [OrchestratorApi]
      ([src/orchestrator/api.rs]), [ContainerWorker] ([src/worker]: api.rs,
      proxy_llm.rs, runtime.rs): the other end of that API.
    - [Chunker], [Search], [Workspace] ([src/workspace]) and [MemoryTools]
      ([src/tools/builtin/memory.rs]): documents, their chunks, their search.
    - [Settings] ([src/settings.rs]): the settings of the user.

    A Rust struct is a [Record], an enum an [Inductive] with its constructors,
    a method a function from the state to its result and the new state, under
    the name it has in the source.

    ** What is shown

    The agent (C1-C6, C19, C31, C33): the loop ends within its bound on model
    calls and stops when interrupted; no tool that needs approval runs without
    one; an approval executes exactly the pending call; a turn ends recorded,
    answered and persisted; every call of a batch is answered in order; a job's
    worker ends and leaves the job in a final or stuck state; authentication
    tokens stay out of the conversation; asking for help strands a job; only
    approved patches are deployed.

    Tools (C7-C10, C32): a shell command that is blocked or looks injected
    never starts, and the streaming path on which it does; the file tools
    change nothing outside their base directory unless a dangling link leads
    there; what a WASM tool sends has been checked after the credentials were
    put in; a stored secret reads back; built-in tools keep their names under
    every interleaving of registrations.

    Services (C11-C17): every request to the internal API carries the valid
    token of the job it acts on and touches that job only; a job gets exactly
    the secrets granted to it; without the token the web gateway runs only its
    public handlers; the jobs and files of others are refused; tokens, grants
    and handles of containers agree in every reachable state; containers are
    confined and mount at most one directory below the projects directory.

    State kept (C18, C20-C30): documents and their chunks; the invariants of
    threads and of the session manager; restoring a thread from its messages,
    and the history the gateway shows of it; undo and redo; the types of the
    settings, and that a setting reads back; jobs in the database; the history
    of a job is a path of the transition table; the numbers of active and of
    scheduled jobs stay within their limits.

    Routines, model calls and prompts (C34-C40): the counter of running
    routines counts them; failover refines a search over an ordered list of
    candidates; the breaker recovers; the hourly limit of the cost guard; tool
    output and skills cannot close the block they are in; the pairing store's
    bounds.

    Theorems without a number say more of the same components, and where the
    code does not do what it means to: [Files.broken_link_escapes],
    [Containers.failed_start_leaks_container],
    [Registry.builtins_protected_except],
    [Extensions.removing_a_server_removes_builtins],
    [Routines.event_cooldown_not_enforced],
    [LeakDetector.anthropic_keys_pass], [Conversations.page_repeats],
    [GatewayChat.foreign_history_loaded], [GatewayJobs.restart_forgets_mode],
    [Settings.reset_does_not_clear] and others.

    ** Conventions

    State is passed explicitly.  The clock, random draws, fresh identifiers
    and the answers of other services are arguments, so the theorems hold for
    all of them.  A critical section under a lock is one function; where a
    method takes two locks one after the other, a step relation or a sequence
    of operations interleaves the halves.  Tasks that nobody waits for are
    lists that later steps work off.  Loops are structural recursion on a list
    or on fuel: the fuel of the agentic loop is its own bound, that of a loop
    up a path is the length of the path, that of [chunk_loop] is an argument
    and the theorem gives a bound with which it always suffices.  Unsigned
    integers are [Z] with their wrap-around or saturation written out where
    the code can reach it; doubles are computed exactly.  HashMaps are stdpp's
    [gmap]; where the code depends on the iteration order, the order of
    [gmap] stands for it.  Third-party code (regular expressions, URL parsing,
    hashing, cron, Docker, UUID and JSON text) is a parameter of the
    definitions that use it; what is relied on is a class of laws with an
    instance in the witnesses.  Case mapping and white space are those of
    ASCII.  Logging and status messages to a channel are left out.

    ** What is not modelled

    Network clients and servers, terminal dialogue, the PostgreSQL back end
    (SQL of the same operations as the libSQL tables modelled here),
    encryption, the swarm, embeddings, the WASM runtime, logging and the
    reading of the environment: what they do lies in the services and crates
    they call.  The bridges that run inside a container
    ([src/worker/claude_bridge.rs], [src/worker/opencode_bridge.rs]) drive
    other programs; the setup wizard and the command line ask and print; the
    handlers of the gateway for routines, skills, memory and extensions hand
    over to components modelled here.  A failing database is modelled only
    where the code reacts to it. *)

From stdpp Require Export base list gmap strings option sorting pretty.
From Stdlib Require Export ZArith Lia.

(** Names that both the Standard Library and stdpp export are taken from stdpp. *)
#[global] Open Scope Z_scope.

(** ** Fallible code

    Rust's [Result<T, E>]. *)
Inductive Result (A E : Type) : Type :=
| Ok (a : A)
| Err (e : E).
Arguments Ok {A E} _.
Arguments Err {A E} _.

Declare Scope claw_scope.
Delimit Scope claw_scope with claw.

(** Rust's [?] operator: the error is returned unchanged. *)
Notation "'let?' x ':=' c 'in' k" :=
  (match c with Ok x => k | Err e => Err e end)
  (at level 10, x pattern, c at level 100, k at level 200) : claw_scope.

Definition is_ok {A E} (r : Result A E) : bool :=
  match r with Ok _ => true | Err _ => false end.

Lemma Ok_inj {A E} (a b : A) : @Ok A E a = Ok b -> a = b.
Proof. by intros [= ->]. Qed.

(** [Option::ok_or]. *)
Definition ok_or {A E} (o : option A) (e : E) : Result A E :=
  match o with Some a => Ok a | None => Err e end.

(** ** Machine integers

    A [uN] is a [Z] in [[0, 2^N)].  Release builds of the crate (its only
    profile is [dist], which inherits [release]) wrap on overflow. *)
Definition U32_MAX : Z := 2 ^ 32 - 1.
Definition U64_MAX : Z := 2 ^ 64 - 1.
Definition wrap (w a : Z) : Z := a mod 2 ^ w.
Definition wrapping_add (w a b : Z) : Z := wrap w (a + b).
Definition saturating_sub (a b : Z) : Z := Z.max 0 (a - b).
Definition saturating_add (mx a b : Z) : Z := Z.min mx (a + b).
Definition saturating_mul (mx a b : Z) : Z := Z.min mx (a * b).
Definition in_u (w a : Z) : Prop := 0 <= a < 2 ^ w.

(** The two's complement reading of a 64-bit pattern, Rust's [as i64]. *)
Definition as_i64 (a : Z) : Z :=
  let r := wrap 64 a in if 2 ^ 63 <=? r then r - 2 ^ 64 else r.

(** ** Third-party data types

    A [Uuid] is a 128-bit value the code only compares; an [Instant] or a
    [DateTime<Utc>] is a point on a line, here its distance in nanoseconds
    from an arbitrary origin; a [Duration] is a length on that line. *)
Abbreviation Uuid := N (only parsing).
Abbreviation Instant := Z (only parsing).
Abbreviation DateTime := Z (only parsing).
Abbreviation Duration := Z (only parsing).

Definition from_secs (s : Z) : Duration := s * 1000000000.
Definition from_millis (ms : Z) : Duration := ms * 1000000.

(** [rust_decimal::Decimal] as the code uses it: a zero, an addition and a
    strict comparison. *)
Class DecimalOps (D : Type) := {
  d_zero : D;
  d_add : D -> D -> D;
  d_mul : D -> D -> D;
  d_of_Z : Z -> D;
  d_ltb : D -> D -> bool;
}.

(** What the developments below rely on. *)
Class DecimalLaws (D : Type) `{!DecimalOps D} := {
  d_add_0_l : forall x, d_add d_zero x = x;
  d_add_assoc : forall x y z, d_add x (d_add y z) = d_add (d_add x y) z;
  d_add_comm : forall x y, d_add x y = d_add y x;
  d_ltb_irrefl : forall x, d_ltb x x = false;
  d_ltb_trans : forall x y z, d_ltb x y = true -> d_ltb y z = true -> d_ltb x z = true;
  d_add_lt_mono : forall x y z, d_ltb x y = d_ltb (d_add x z) (d_add y z);
}.

(** Amounts counted in a fixed smallest unit are one such type. *)
#[export] Instance Z_DecimalOps : DecimalOps Z :=
  {| d_zero := 0; d_add := Z.add; d_mul := Z.mul; d_of_Z := fun z => z; d_ltb := Z.ltb |}.
#[export] Instance Z_DecimalLaws : DecimalLaws Z.
Proof.
  split; simpl; intros; lia.
Qed.

(** ** Tactics *)
(** Case analysis on the innermost discriminee of a [match] or an [if]. *)
Ltac case_on t :=
  lazymatch t with
  | context [match ?x with _ => _ end] => case_on x
  | _ => destruct t eqn:?
  end.
Ltac break_match :=
  match goal with
  | |- context [match ?x with _ => _ end] => case_on x
  end.
Ltac break_match_in H :=
  match type of H with
  | context [match ?x with _ => _ end] => case_on x
  end.

(** Boolean comparisons become propositions. *)
Ltac bool_to_prop :=
  repeat match goal with
  | H : (_ <? _) = true |- _ => apply Z.ltb_lt in H
  | H : (_ <? _) = false |- _ => apply Z.ltb_ge in H
  | H : (_ <=? _) = true |- _ => apply Z.leb_le in H
  | H : (_ <=? _) = false |- _ => apply Z.leb_gt in H
  | H : (_ =? _) = true |- _ => apply Z.eqb_eq in H
  | H : (_ =? _) = false |- _ => apply Z.eqb_neq in H
  | H : _ && _ = true |- _ => apply andb_true_iff in H; destruct H
  | H : _ || _ = false |- _ => apply orb_false_iff in H; destruct H
  | H : negb _ = true |- _ => apply negb_true_iff in H
  | H : negb _ = false |- _ => apply negb_false_iff in H
  end.

Create HintDb claw.
#[export] Hint Extern 5 (_ <= _)%Z => lia : claw.
#[export] Hint Extern 5 (_ < _)%Z => lia : claw.
#[export] Hint Extern 5 (_ <= _)%nat => lia : claw.
#[export] Hint Extern 5 (_ < _)%nat => lia : claw.

(** ** Integers *)
Lemma wrap_small w a : in_u w a -> wrap w a = a.
Proof. unfold in_u, wrap. intros. by rewrite Z.mod_small. Qed.

Lemma wrap_range w a : 0 <= w -> in_u w (wrap w a).
Proof. intros. unfold in_u, wrap. apply Z.mod_pos_bound. lia. Qed.
#[export] Hint Resolve wrap_range : claw.

(** ** Lists *)
Section Lists.
  Context {A : Type}.
  Implicit Types l : list A.

(** [Vec::drain(..k)] of what exceeds [n]: the newest [n] elements stay. *)
Definition keep_last (n : nat) l : list A := drop (length l - n) l.

Lemma keep_last_length n l : length (keep_last n l) = Nat.min n (length l).
Proof. unfold keep_last. rewrite length_drop. lia. Qed.

Lemma keep_last_all n l : (length l <= n)%nat -> keep_last n l = l.
Proof. intros. unfold keep_last. by replace (length l - n)%nat with 0%nat by lia. Qed.

Lemma keep_last_suffix n l : keep_last n l `suffix_of` l.
Proof. unfold keep_last. exists (take (length l - n) l). by rewrite take_drop. Qed.

Lemma last_keep_last n l : (0 < n)%nat -> last (keep_last n l) = last l.
Proof.
  intros Hn. unfold keep_last. rewrite !last_lookup, lookup_drop, length_drop.
  destruct l as [|x l']; [done|]. f_equal. simpl. lia.
Qed.

(** Induction on the length, for loops that consume several elements. *)
Lemma list_length_ind (Q : list A -> Prop) :
  (forall l, (forall l', (length l' < length l)%nat -> Q l') -> Q l) -> forall l, Q l.
Proof.
  intros H l. remember (length l) as n eqn:Hn. revert l Hn.
  induction n as [n IH] using lt_wf_ind. intros l ->. apply H. intros l' Hl'. by eapply IH.
Qed.
End Lists.

(** ** Counting the entries of a map

    [HashMap::values().filter(p).count()]. *)
Section Counting.
  Context {K V : Type} `{Countable K}.
  Implicit Types (m : gmap K V) (p : V -> bool).

Definition count_values p m : nat := size (filter (fun kv : K * V => p kv.2 = true) m).

Lemma count_values_insert p m k v :
  m !! k = None ->
  count_values p (<[k:=v]> m) = ((if p v then 1 else 0) + count_values p m)%nat.
Proof.
  intros Hk. unfold count_values. destruct (p v) eqn:E.
  - rewrite map_filter_insert_True by done. apply map_size_insert_None.
    apply map_lookup_filter_None. by left.
  - rewrite map_filter_insert_False by (simpl; congruence).
    by rewrite delete_id.
Qed.

Lemma count_values_delete p m k v :
  m !! k = Some v ->
  count_values p m = ((if p v then 1 else 0) + count_values p (delete k m))%nat.
Proof.
  intros Hk. rewrite <- (insert_delete_id m k v Hk) at 1.
  apply count_values_insert, lookup_delete_eq.
Qed.

Lemma count_values_update p m k v v' :
  m !! k = Some v ->
  (count_values p (<[k:=v']> m) + (if p v then 1 else 0)
   = count_values p m + (if p v' then 1 else 0))%nat.
Proof.
  intros Hk. rewrite <- insert_delete_eq.
  rewrite count_values_insert by apply lookup_delete_eq.
  rewrite (count_values_delete p m k v Hk). lia.
Qed.

Lemma count_values_ext p q m :
  (forall k v, m !! k = Some v -> p v = q v) -> count_values p m = count_values q m.
Proof.
  intros Hpq. unfold count_values. f_equal. apply map_filter_ext.
  intros k v Hv. simpl. by rewrite (Hpq k v Hv).
Qed.

Lemma count_values_true m : count_values (fun _ => true) m = size m.
Proof. unfold count_values. f_equal. apply map_filter_id. done. Qed.

Lemma count_values_empty p : count_values p (∅ : gmap K V) = 0%nat.
Proof. unfold count_values. by rewrite map_filter_empty, map_size_empty. Qed.
End Counting.

(** ** Strings

    Rust strings are UTF-8 byte sequences, here [string]s of bytes. *)
Definition starts_with (s pre : string) : bool := String.prefix pre s.
Definition str_contains (s sub : string) : bool :=
  match String.index 0 sub s with Some _ => true | None => false end.

(** An ASCII character by its code. *)
Definition chr (n : nat) : Ascii.ascii := Ascii.ascii_of_nat n.

(** [str::rsplit_once] at an ASCII character: what follows its last occurrence. *)
Fixpoint after_last (c : Ascii.ascii) (s : string) : option string :=
  match s with
  | EmptyString => None
  | String d s' =>
      match after_last c s' with
      | Some r => Some r
      | None => if Ascii.eqb c d then Some s' else None
      end
  end.
