(* ===== verification/Strs.v ===== *)
(** The string operations of Rust's standard library that the network
    components use, on byte strings, with their specifications. *)

From S2P Require Import Prelude.

Notation "a ++s b" := (String.append a b) (at level 60, right associativity) : claw_scope.
#[local] Open Scope claw_scope.

(** Lower and upper case.  The standard library's functions follow Unicode;
    these change the ASCII letters and are exact on ASCII strings, which is
    what hosts (in their Punycode form), schemes and methods are. *)
Definition ascii_between (lo hi : nat) (c : Ascii.ascii) : bool :=
  ((lo <=? Ascii.nat_of_ascii c)%nat && (Ascii.nat_of_ascii c <=? hi)%nat).
Definition lower_char (c : Ascii.ascii) : Ascii.ascii :=
  if ascii_between 65 90 c then chr (Ascii.nat_of_ascii c + 32)%nat else c.
Definition upper_char (c : Ascii.ascii) : Ascii.ascii :=
  if ascii_between 97 122 c then chr (Ascii.nat_of_ascii c - 32)%nat else c.
Fixpoint to_lowercase (s : string) : string :=
  match s with EmptyString => EmptyString | String c s => String (lower_char c) (to_lowercase s) end.
(** [str::eq_ignore_ascii_case]. *)
Definition eq_ignore_ascii_case (a b : string) : bool := String.eqb (to_lowercase a) (to_lowercase b).
Fixpoint to_uppercase (s : string) : string :=
  match s with EmptyString => EmptyString | String c s => String (upper_char c) (to_uppercase s) end.

Definition is_empty (s : string) : bool := match s with EmptyString => true | _ => false end.

Fixpoint ends_with (s suf : string) : bool :=
  String.eqb s suf || match s with EmptyString => false | String _ s' => ends_with s' suf end.

Fixpoint strip_prefix (s pre : string) {struct pre} : option string :=
  match pre, s with
  | EmptyString, _ => Some s
  | String c pre', String d s' => if Ascii.eqb c d then strip_prefix s' pre' else None
  | String _ _, EmptyString => None
  end.

(** The part before the suffix. *)
Fixpoint strip_suffix (s suf : string) : option string :=
  if String.eqb s suf then Some EmptyString
  else match s with
       | EmptyString => None
       | String c s' => String c <$> strip_suffix s' suf
       end.

Fixpoint contains_char (s : string) (c : Ascii.ascii) : bool :=
  match s with EmptyString => false | String d s' => Ascii.eqb c d || contains_char s' c end.

(** [str::split] at a character: never the empty list. *)
Fixpoint split_on (c : Ascii.ascii) (s : string) : list string :=
  match s with
  | EmptyString => [EmptyString]
  | String d s' =>
      if Ascii.eqb c d then EmptyString :: split_on c s'
      else match split_on c s' with
           | h :: t => String d h :: t
           | [] => [String d EmptyString]
           end
  end.

(** ** Specifications *)
Lemma append_nil_r_str s : s ++s EmptyString = s.
Proof. induction s as [|c s IH]; [done|]. exact (f_equal (String c) IH). Qed.

Lemma append_assoc_str (a b c : string) : (a ++s b) ++s c = a ++s b ++s c.
Proof. induction a as [|x a IH]; [done|]. exact (f_equal (String x) IH). Qed.

Lemma append_cons_str c a b : String c a ++s b = String c (a ++s b).
Proof. done. Qed.

Lemma strip_prefix_spec s pre r : strip_prefix s pre = Some r <-> s = pre ++s r.
Proof.
  revert s. induction pre as [|c pre IH]; intros s; simpl.
  - split; [by intros [= ->]|]. by intros ->.
  - destruct s as [|d s]; [done|]. rewrite append_cons_str. destruct (Ascii.eqb_spec c d) as [->|Hne].
    + rewrite IH. split; [by intros ->|by intros [= ->]].
    + split; [done|]. intros [= ??]. congruence.
Qed.

Lemma starts_with_spec s pre : starts_with s pre = true <-> exists r, s = pre ++s r.
Proof.
  unfold starts_with. revert s. induction pre as [|c pre IH]; intros s.
  - split; [|by destruct s]. intros _. by exists s.
  - destruct s as [|d s]; [split; [done|by intros [r [=]]]|]. simpl.
    destruct (Ascii.ascii_dec c d) as [->|Hne].
    + rewrite IH. split; intros [r Hr]; exists r; [by rewrite Hr|by injection Hr].
    + split; [done|]. intros [r Hr]. injection Hr. congruence.
Qed.

Lemma str_contains_spec s sub : str_contains s sub = true <-> exists a b, s = a ++s sub ++s b.
Proof.
  unfold str_contains. induction s as [|c s IH].
  - destruct sub; cbn; [split; [by exists EmptyString, EmptyString|done]|]. split; [done|]. by intros ([] & b & [=]).
  - assert (String.index 0 sub (String c s)
            = if starts_with (String c s) sub then Some 0%nat else match String.index 0 sub s with Some n => Some (S n) | None => None end) as -> by done.
    destruct (starts_with (String c s) sub) eqn:E.
    + split; [|done]. intros _. apply starts_with_spec in E as [r Hr]. by exists EmptyString, r.
    + assert (match match String.index 0 sub s with Some n => Some (S n) | None => None end with Some _ => true | None => false end
              = match String.index 0 sub s with Some _ => true | None => false end) as -> by by destruct (String.index 0 sub s).
      rewrite IH. split.
      * intros (a & b & ->). by exists (String c a), b.
      * intros (a & b & Heq). destruct a as [|d a]; cbn in Heq.
        -- assert (starts_with (String c s) sub = true) by (apply starts_with_spec; by exists b). congruence.
        -- injection Heq as -> ->. by exists a, b.
Qed.

Lemma append_length_str (a b : string) : String.length (a ++s b) = (String.length a + String.length b)%nat.
Proof. induction a as [|c a IH]; [done|]. simpl. by rewrite IH. Qed.

Lemma append_self_str p s : s = p ++s s -> p = EmptyString.
Proof.
  intros H. apply (f_equal String.length) in H. rewrite append_length_str in H.
  destruct p; [done|]. simpl in H. lia.
Qed.

Lemma strip_suffix_self suf : strip_suffix suf suf = Some EmptyString.
Proof. destruct suf; cbn [strip_suffix]; by rewrite String.eqb_refl. Qed.

Lemma strip_suffix_spec s suf p : strip_suffix s suf = Some p <-> s = p ++s suf.
Proof.
  split.
  - revert p. induction s as [|c s IH]; intros p; cbn [strip_suffix].
    + destruct (String.eqb_spec EmptyString suf) as [<-|]; [|done]. by intros [= <-].
    + destruct (String.eqb_spec (String c s) suf) as [<-|_]; [by intros [= <-]|].
      destruct (strip_suffix s suf) as [q|]; [|done]. intros [= <-]. by rewrite (IH q).
  - intros ->. induction p as [|c p IH]; [apply strip_suffix_self|].
    rewrite append_cons_str. cbn [strip_suffix]. destruct (String.eqb_spec (String c (p ++s suf)) suf) as [H|_].
    + symmetry in H. by apply (append_self_str (String c p)) in H.
    + by rewrite IH.
Qed.

Lemma ends_with_strip s suf : ends_with s suf = true <-> is_Some (strip_suffix s suf).
Proof.
  induction s as [|c s IH]; cbn [ends_with strip_suffix]; destruct (String.eqb _ suf) eqn:E; simpl.
  - split; [by eexists|done].
  - split; [done|by intros [? ?]].
  - split; [by eexists|done].
  - rewrite IH. by rewrite fmap_is_Some.
Qed.

Lemma ends_with_spec s suf : ends_with s suf = true <-> exists p, s = p ++s suf.
Proof.
  rewrite ends_with_strip. split; [intros [p Hp]|intros [p Hp]]; exists p; by apply strip_suffix_spec.
Qed.

Lemma split_on_not_nil c s : split_on c s <> [].
Proof. destruct s; simpl; [done|]. repeat case_match; done. Qed.

Lemma split_on_clean c s : contains_char s c = false -> split_on c s = [s].
Proof.
  induction s as [|d s IH]; simpl; [done|]. intros H. apply orb_false_iff in H as [H1 H2].
  rewrite H1. by rewrite IH.
Qed.

(** Splitting undoes joining. *)
Lemma split_on_cons c a s :
  contains_char a c = false -> split_on c (a ++s String c s) = a :: split_on c s.
Proof.
  induction a as [|d a IH]; simpl.
  - intros _. rewrite Ascii.eqb_refl. done.
  - intros H. apply orb_false_iff in H as [H1 H2]. by rewrite H1, IH.
Qed.

Lemma split_on_elems c s : Forall (fun x => contains_char x c = false) (split_on c s).
Proof.
  induction s as [|d s IH]; simpl; [by repeat constructor|].
  destruct (Ascii.eqb c d) eqn:E; [by constructor|].
  destruct (split_on c s) as [|h t]; [repeat constructor; simpl; by rewrite E|].
  inv IH. constructor; [simpl; by rewrite E|done].
Qed.

Lemma to_lowercase_app a b : to_lowercase (a ++s b) = to_lowercase a ++s to_lowercase b.
Proof. induction a as [|c a IH]; [done|]. exact (f_equal (String (lower_char c)) IH). Qed.

Lemma lower_char_idemp c : lower_char (lower_char c) = lower_char c.
Proof. by destruct c as [[] [] [] [] [] [] [] []]. Qed.

Lemma to_lowercase_idemp s : to_lowercase (to_lowercase s) = to_lowercase s.
Proof. induction s as [|c s IH]; simpl; [done|]. by rewrite lower_char_idemp, IH. Qed.

(** ** White space

    [str::trim] and [str::split_whitespace] on ASCII white space. *)
Definition is_whitespace (c : Ascii.ascii) : bool := ascii_between 9 13 c || Ascii.eqb c (chr 32).
Fixpoint trim_start (s : string) : string :=
  match s with
  | EmptyString => EmptyString
  | String c s' => if is_whitespace c then trim_start s' else s
  end.
Fixpoint trim_end (s : string) : string :=
  match s with
  | EmptyString => EmptyString
  | String c s' =>
      match trim_end s' with
      | EmptyString => if is_whitespace c then EmptyString else String c EmptyString
      | t => String c t
      end
  end.
Definition trim (s : string) : string := trim_end (trim_start s).

Fixpoint split_ws (word : string) (s : string) : list string :=
  match s with
  | EmptyString => if is_empty word then [] else [word]
  | String c s' =>
      if is_whitespace c then (if is_empty word then [] else [word]) ++ split_ws EmptyString s'
      else split_ws (word ++s String c EmptyString) s'
  end.
Definition split_whitespace (s : string) : list string := split_ws EmptyString s.

Lemma trim_start_idemp s : trim_start (trim_start s) = trim_start s.
Proof.
  induction s as [|c s IH]; [done|]. simpl. destruct (is_whitespace c) eqn:E; [done|]. simpl. by rewrite E.
Qed.

Lemma trim_end_cons c s : is_whitespace c = false -> trim_end (String c s) = String c (trim_end s).
Proof. intros H. simpl. destruct (trim_end s); by rewrite ?H. Qed.

Lemma trim_end_idemp s : trim_end (trim_end s) = trim_end s.
Proof.
  induction s as [|c s IH]; [done|]. simpl. destruct (trim_end s) as [|d t] eqn:E.
  - destruct (is_whitespace c) eqn:Ec; [done|]. simpl. by rewrite Ec.
  - cbn [trim_end] in *. rewrite IH. done.
Qed.

Lemma trim_start_end s : trim_start s = s -> trim_start (trim_end s) = trim_end s.
Proof.
  destruct s as [|c s]; [done|]. cbn [trim_start]. destruct (is_whitespace c) eqn:E.
  - intros H. exfalso. assert (String.length (trim_start s) <= String.length s)%nat as Hl.
    { clear H. induction s as [|d s IH]; simpl; [lia|]. destruct (is_whitespace d); simpl; lia. }
    rewrite H in Hl. simpl in Hl. lia.
  - intros _. rewrite trim_end_cons by done. simpl. by rewrite E.
Qed.

Lemma trim_idemp s : trim (trim s) = trim s.
Proof.
  unfold trim. rewrite trim_start_end by apply trim_start_idemp. apply trim_end_idemp.
Qed.

(** Leading and trailing white space does not matter. *)
Definition all_ws (s : string) : Prop := trim_start s = EmptyString.

Lemma trim_start_pad a s : all_ws a -> trim_start (a ++s s) = trim_start s.
Proof.
  unfold all_ws. induction a as [|c a IH]; [done|]. rewrite append_cons_str. cbn [trim_start].
  destruct (is_whitespace c); [exact IH|done].
Qed.

Lemma trim_end_pad b : all_ws b -> forall s, trim_end (s ++s b) = trim_end s.
Proof.
  unfold all_ws. intros Hb s. induction s as [|c s IH].
  - change (EmptyString ++s b) with b. cbn [trim_end]. induction b as [|d b IH]; [done|].
    cbn [trim_start] in Hb. destruct (is_whitespace d) eqn:E; [|done].
    cbn [trim_end]. rewrite (IH Hb). by rewrite E.
  - rewrite append_cons_str. cbn [trim_end]. by rewrite IH.
Qed.

Lemma trim_start_pad_end b s :
  all_ws b -> trim_start (s ++s b) = trim_start s ++s b \/ (all_ws s /\ trim_start (s ++s b) = EmptyString).
Proof.
  intros Hb. induction s as [|c s IH].
  - right. split; [done|exact Hb].
  - rewrite append_cons_str. cbn [trim_start]. unfold all_ws. cbn [trim_start].
    destruct (is_whitespace c); [exact IH|by left].
Qed.

Lemma trim_pad a s b : all_ws a -> all_ws b -> trim (a ++s s ++s b) = trim s.
Proof.
  intros Ha Hb. unfold trim. rewrite trim_start_pad by done.
  destruct (trim_start_pad_end b s Hb) as [->|[Hs ->]]; [by apply trim_end_pad|].
  unfold all_ws in Hs. by rewrite Hs.
Qed.

(** ** Substrings *)
Lemma substring_length n m s : (String.length (String.substring n m s) <= String.length s - n)%nat.
Proof.
  revert n m. induction s as [|c s IH]; intros [|n] [|m]; cbn; try lia.
  - specialize (IH 0%nat m). lia.
  - specialize (IH n 0%nat). lia.
  - specialize (IH n (S m)). lia.
Qed.
Lemma substring_length_le n m s : (String.length (String.substring n m s) <= m)%nat.
Proof. revert n m. induction s as [|c s IH]; intros [|n] [|m]; cbn; try lia; [specialize (IH 0%nat m)|specialize (IH n 0%nat)|specialize (IH n (S m))]; lia. Qed.
