(* ===== verification/Find.v ===== *)
(** Searching in strings: [str::find] and [str::rfind] of Rust's standard
    library, with the lemmas by which a search is carried past a part of a
    string that the pattern cannot start in. *)

From Stdlib Require Import Ascii.
From S2P Require Import Prelude Strs.
#[local] Open Scope claw_scope.

(** The text before the first occurrence and the text after it. *)
Fixpoint find_str (pat s : string) : option (string * string) :=
  match strip_prefix s pat with
  | Some rest => Some (EmptyString, rest)
  | None =>
      match s with
      | EmptyString => None
      | String c s' => match find_str pat s' with Some (a, b) => Some (String c a, b) | None => None end
      end
  end.

(** The text up to and with the last occurrence of a character, and the text
    after it. *)
Fixpoint rfind_char (c : ascii) (s : string) : option (string * string) :=
  match s with
  | EmptyString => None
  | String d s' =>
      match rfind_char c s' with
      | Some (a, b) => Some (String d a, b)
      | None => if Ascii.eqb c d then Some (String d EmptyString, s') else None
      end
  end.

(** ** What a search returns *)
Lemma find_str_eq pat s : find_str pat s =
  match strip_prefix s pat with
  | Some rest => Some (EmptyString, rest)
  | None => match s with
            | EmptyString => None
            | String c s' => match find_str pat s' with Some (a, b) => Some (String c a, b) | None => None end
            end
  end.
Proof. by destruct s. Qed.

Lemma find_str_sound pat s a b : find_str pat s = Some (a, b) -> s = a ++s pat ++s b.
Proof.
  revert a b. induction s as [|c s IH]; intros a b; rewrite find_str_eq.
  - destruct (strip_prefix _ _) eqn:E; [|done]. intros [= <- <-]. exact (proj1 (strip_prefix_spec _ _ _) E).
  - destruct (strip_prefix _ _) eqn:E; [intros [= <- <-]; exact (proj1 (strip_prefix_spec _ _ _) E)|].
    destruct (find_str pat s) as [[a' b']|]; [|done]. intros [= <- <-]. cbn. by rewrite (IH a' b').
Qed.

Lemma find_str_found pat s a b : s = a ++s pat ++s b -> is_Some (find_str pat s).
Proof.
  revert s. induction a as [|c a IH]; intros s ->.
  - rewrite find_str_eq. assert (strip_prefix (EmptyString ++s pat ++s b) pat = Some b) as -> by by apply strip_prefix_spec. by eexists.
  - change (String c a ++s pat ++s b) with (String c (a ++s pat ++s b)). rewrite find_str_eq.
    destruct (strip_prefix _ _); [by eexists|]. destruct (IH _ eq_refl) as [[x y] ->]. by eexists.
Qed.

Lemma find_str_none pat s : find_str pat s = None <-> str_contains s pat = false.
Proof.
  destruct (str_contains s pat) eqn:E.
  - apply str_contains_spec in E as (a & b & ->).
    destruct (find_str_found pat (a ++s pat ++s b) a b eq_refl) as [x ->]. split; congruence.
  - destruct (find_str pat s) as [[a b]|] eqn:F; [|done]. apply find_str_sound in F.
    assert (str_contains s pat = true) as H by (apply str_contains_spec; eauto). congruence.
Qed.

Lemma find_str_shorter pat s a b : find_str pat s = Some (a, b) -> pat <> EmptyString ->
  (String.length b < String.length s)%nat.
Proof.
  intros ->%find_str_sound Hp. rewrite !append_length_str. destruct pat; [done|]. cbn. lia.
Qed.

Lemma append_nil_l_str s : EmptyString ++s s = s.
Proof. done. Qed.

(** A result found behind a text. *)
Definition ahead (p : string) (r : option (string * string)) : option (string * string) :=
  match r with Some (a, b) => Some (p ++s a, b) | None => None end.
Lemma ahead_app a b r : ahead a (ahead b r) = ahead (a ++s b) r.
Proof. destruct r as [[x y]|]; [|done]. cbn. by rewrite append_assoc_str. Qed.
Lemma ahead_none p r : ahead p r = None <-> r = None.
Proof. by destruct r as [[]|]. Qed.

(** ** Patterns that start with a character found nowhere else in them *)
Definition char_absent (c : ascii) (s : string) : Prop := contains_char s c = false.
Definition marked (m : ascii) (pat : string) : Prop := exists q, pat = String m q /\ char_absent m q.

Lemma char_absent_cons c d s : char_absent c (String d s) <-> c <> d /\ char_absent c s.
Proof.
  unfold char_absent. cbn. rewrite orb_false_iff. split; intros [H1 H2]; (split; [|done]).
  - intros ->. by rewrite Ascii.eqb_refl in H1.
  - by apply Ascii.eqb_neq.
Qed.
Lemma char_absent_app c a b : char_absent c (a ++s b) <-> char_absent c a /\ char_absent c b.
Proof.
  induction a as [|d a IH]; [cbn; split; [done|by intros []]|].
  change (String d a ++s b) with (String d (a ++s b)). rewrite !char_absent_cons, IH. tauto.
Qed.

(** A match of a marked pattern cannot begin in [p] and end behind a mark. *)
Lemma strip_prefix_stop m q p s : char_absent m q ->
  is_Some (strip_prefix (p ++s String m s) q) -> is_Some (strip_prefix p q).
Proof.
  revert p. induction q as [|c q IH]; intros p Hq [r Hr]; [by destruct p; eexists|].
  apply char_absent_cons in Hq as [Hc Hq]. destruct p as [|d p].
  - change (EmptyString ++s String m s) with (String m s) in Hr. cbn in Hr. revert Hr.
    destruct (Ascii.eqb_spec c m); intros; congruence.
  - rewrite append_cons_str in Hr. cbn in Hr |- *. destruct (Ascii.eqb c d); [|done]. apply (IH p Hq). by eexists.
Qed.

(** Searching past a part the pattern does not occur in, up to a mark. *)
Lemma find_str_past m pat p s : marked m pat -> str_contains p pat = false ->
  find_str pat (p ++s String m s) =
  ahead p (find_str pat (String m s)).
Proof.
  intros (q & -> & Hq). rewrite <- find_str_none. induction p as [|c p IH].
  { intros _. change (EmptyString ++s String m s) with (String m s). by destruct (find_str _ _) as [[a b]|]. }
  intros Hn. rewrite find_str_eq in Hn. destruct (strip_prefix (String c p) (String m q)) eqn:E; [done|].
  destruct (find_str (String m q) p) as [[a b]|] eqn:F; [done|]. specialize (IH eq_refl).
  change (String c p ++s String m s) with (String c (p ++s String m s)). rewrite find_str_eq.
  assert (strip_prefix (String c (p ++s String m s)) (String m q) = None) as ->.
  { cbn in E |- *. destruct (Ascii.eqb m c); [|done].
    destruct (strip_prefix (p ++s String m s) q) eqn:G; [|done].
    destruct (strip_prefix_stop m q p s Hq) as [x Hx]; [by rewrite G|]. congruence. }
  rewrite IH. by destruct (find_str _ (String m s)) as [[a b]|].
Qed.

(** Searching past a part without the mark. *)
Lemma find_str_absent m pat p s : marked m pat -> char_absent m p ->
  find_str pat (p ++s s) = ahead p (find_str pat s).
Proof.
  intros (q & -> & Hq). induction p as [|c p IH]; intros Hp.
  - change (EmptyString ++s s) with s. by destruct (find_str _ s) as [[a b]|].
  - apply char_absent_cons in Hp as [Hc Hp].
    change (String c p ++s s) with (String c (p ++s s)). rewrite find_str_eq. cbn [strip_prefix].
    destruct (Ascii.eqb_spec m c) as [|_]; [done|]. rewrite IH by done.
    by destruct (find_str _ s) as [[a b]|].
Qed.

(** Searching past a mark at which the pattern does not match. *)
Lemma find_str_skip m pat p s : marked m pat -> strip_prefix (String m (p ++s s)) pat = None -> char_absent m p ->
  find_str pat (String m (p ++s s)) =
  ahead (String m p) (find_str pat s).
Proof.
  intros Hm Hn Hp. rewrite find_str_eq, Hn, (find_str_absent m) by done.
  by destruct (find_str _ s) as [[a b]|].
Qed.

Lemma find_str_here pat s : find_str pat (pat ++s s) = Some (EmptyString, s).
Proof. rewrite find_str_eq. by assert (strip_prefix (pat ++s s) pat = Some s) as -> by by apply strip_prefix_spec. Qed.

Lemma rfind_char_sound c s a b : rfind_char c s = Some (a, b) ->
  s = a ++s b /\ (exists a', a = a' ++s String c EmptyString) /\ char_absent c b.
Proof.
  revert a b. induction s as [|d s IH]; intros a b; cbn; [done|].
  destruct (rfind_char c s) as [[x y]|] eqn:E.
  - intros [= <- <-]. destruct (IH _ _ eq_refl) as (-> & (a' & ->) & Hb). split; [done|]. split; [|done]. by exists (String d a').
  - destruct (Ascii.eqb_spec c d) as [->|]; [|done]. intros [= <- <-]. split; [done|]. split; [by exists EmptyString|].
    clear IH. induction s as [|e s IH]; [done|]. cbn in E. destruct (rfind_char d s) as [[]|]; [done|].
    destruct (Ascii.eqb_spec d e); [done|]. apply char_absent_cons. auto.
Qed.
