(* ===== verification/Float64.v ===== *)
(** The [f64] and [f32] arithmetic of the agent: IEEE 754 binary64 and binary32
    with rounding to the nearest even, through the functional specification of the Standard
    Library, and Rust's [as] conversions. *)

From Stdlib Require Import SpecFloat.
From S2P Require Import Prelude.

Abbreviation f64 := spec_float.

(** [n as f64] for an integer [n]. *)
Definition f64_of (n : Z) : f64 := binary_normalize 53 1024 n 0 false.
Definition f64_add (a b : f64) : f64 := SFadd 53 1024 a b.
Definition f64_mul (a b : f64) : f64 := SFmul 53 1024 a b.
Definition f64_div (a b : f64) : f64 := SFdiv 53 1024 a b.
Definition f64_ltb (a b : f64) : bool := SFltb a b.

(** The literal [n / d]: a decimal literal is the nearest [f64], which is what
    the correctly rounded quotient of two exact integers is. *)
Definition f64_lit (n d : Z) : f64 := f64_div (f64_of n) (f64_of d).

(** [x as usize]: towards zero, saturating, [NaN] to 0. *)
Definition f64_to_usize (x : f64) : Z :=
  match x with
  | S754_zero _ | S754_nan => 0
  | S754_infinity s => if s then 0 else U64_MAX
  | S754_finite true _ _ => 0
  | S754_finite false m e => Z.min U64_MAX (Z.shiftl (Z.pos m) e)
  end.

(** [Duration::as_secs_f64], of a length in nanoseconds. *)
Definition as_secs_f64 (d : Duration) : f64 := f64_add (f64_of (d / 1000000000)) (f64_div (f64_of (d mod 1000000000)) (f64_of 1000000000)).
Definition f64_clamp (x lo hi : f64) : f64 :=
  let x := if f64_ltb x lo then lo else x in if f64_ltb hi x then hi else x.

(** ** Single precision *)
Abbreviation f32 := spec_float.
Definition f32_of (n : Z) : f32 := binary_normalize 24 128 n 0 false.
Definition f32_add (a b : f32) : f32 := SFadd 24 128 a b.
Definition f32_mul (a b : f32) : f32 := SFmul 24 128 a b.
Definition f32_div (a b : f32) : f32 := SFdiv 24 128 a b.
Definition f32_lit (n d : Z) : f32 := f32_div (f32_of n) (f32_of d).
Definition f32_ltb (a b : f32) : bool := SFltb a b.
Definition f32_leb (a b : f32) : bool := SFleb a b.
(** [f32::max]: a number wins over [NaN]. *)
Definition f32_max (a b : f32) : f32 := match a with S754_nan => b | _ => if f32_ltb a b then b else a end.
Definition f32_clamp (x lo hi : f32) : f32 :=
  let x := if f32_ltb x lo then lo else x in if f32_ltb hi x then hi else x.
Lemma f32_ltb_asym a b : f32_ltb a b = true -> f32_ltb b a = false.
Proof.
  unfold f32_ltb, SFltb. destruct a as [sa|sa| |sa ma ea], b as [sb|sb| |sb mb eb]; cbn [SFcompare]; try done;
    try (destruct sa; done); try (destruct sb; done); try (destruct sa, sb; done).
  destruct sa, sb; try done; rewrite (Z.compare_antisym ea eb); destruct (ea ?= eb); cbn [CompOpp]; try done;
    change (Pos.compare_cont Eq mb ma) with (mb ?= ma)%positive; change (Pos.compare_cont Eq ma mb) with (ma ?= mb)%positive;
    rewrite (Pos.compare_antisym ma mb); by destruct (ma ?= mb)%positive.
Qed.

Lemma f64_to_usize_range x : 0 <= f64_to_usize x <= U64_MAX.
Proof.
  unfold f64_to_usize, U64_MAX. destruct x as [|[]| |[] m e]; try lia.
  pose proof (proj2 (Z.shiftl_nonneg (Z.pos m) e) ltac:(lia)). lia.
Qed.

(** The literals of the sources are the doubles a compiler gives them. *)
Example f64_literals :
  f64_lit 13 10 = S754_finite false 5854679515581645 (-52)
  /\ f64_lit 8 10 = S754_finite false 7205759403792794 (-53)
  /\ f64_to_usize (f64_mul (f64_of 100000) (f64_lit 8 10)) = 80000
  /\ f64_to_usize (f64_mul (f64_of 11) (f64_lit 13 10)) = 14.
Proof. vm_compute. repeat split. Qed.
