(* ===== verification/JobState.v ===== *)
(** The job state machine: [src/context/state.rs].

    [JobState] is the enum, [JobContext] the record a job carries, and every
    method of [impl JobContext] is a function on it.  Methods that call
    [Utc::now()] take the readings as arguments, in the order of the calls. *)

From S2P Require Import Prelude.

(** ** The enum and its transition table *)
Inductive JobState :=
| Pending | InProgress | Completed | Submitted | Accepted | Failed | Stuck | Cancelled.

#[export] Instance JobState_eq_dec : EqDecision JobState.
Proof. solve_decision. Defined.

Definition can_transition_to (self target : JobState) : bool :=
  match self, target with
  | Pending, InProgress | Pending, Cancelled
  | InProgress, Completed | InProgress, Failed | InProgress, Stuck | InProgress, Cancelled
  | Completed, Submitted | Completed, Failed
  | Submitted, Accepted | Submitted, Failed
  | Stuck, InProgress | Stuck, Failed | Stuck, Cancelled => true
  | _, _ => false
  end.

Definition is_terminal (s : JobState) : bool :=
  match s with Accepted | Failed | Cancelled => true | _ => false end.

Definition is_active (s : JobState) : bool := negb (is_terminal s).

(** [impl Display for JobState]. *)
Definition job_state_name (s : JobState) : string :=
  match s with
  | Pending => "pending"
  | InProgress => "in_progress"
  | Completed => "completed"
  | Submitted => "submitted"
  | Accepted => "accepted"
  | Failed => "failed"
  | Stuck => "stuck"
  | Cancelled => "cancelled"
  end.

Record StateTransition := mkTransition {
  tr_from : JobState;
  tr_to : JobState;
  tr_timestamp : DateTime;
  tr_reason : option string;
}.

(** ** The job context *)
Record JobContext {Decimal Value : Type} := mkJobContext {
  job_id : Uuid;
  state : JobState;
  user_id : string;
  conversation_id : option Uuid;
  title : string;
  description : string;
  category : option string;
  budget : option Decimal;
  budget_token : option string;
  bid_amount : option Decimal;
  estimated_cost : option Decimal;
  estimated_duration : option Duration;
  actual_cost : Decimal;
  total_tokens_used : Z;
  max_tokens : Z;
  created_at : DateTime;
  started_at : option DateTime;
  completed_at : option DateTime;
  repair_attempts : Z;
  transitions : list StateTransition;
  metadata : Value;
  extra_env : gmap string string;
}.
Arguments JobContext : clear implicits.
Arguments mkJobContext {Decimal Value}.

Definition MAX_TRANSITIONS : nat := 200.

Section Context.
  Context {Decimal Value : Type} `{!DecimalOps Decimal}.
  Abbreviation Ctx := (JobContext Decimal Value).
  Implicit Types c : Ctx.

(** [JobContext::with_user]; [id] is the fresh [Uuid::new_v4()] and [null] the
    JSON null of [serde_json]. *)
Definition with_user (id : Uuid) (now : DateTime) (null : Value)
    (user t d : string) : Ctx :=
  {| job_id := id; state := Pending; user_id := user; conversation_id := None;
     title := t; description := d; category := None; budget := None;
     budget_token := None; bid_amount := None; estimated_cost := None;
     estimated_duration := None; actual_cost := d_zero; total_tokens_used := 0;
     max_tokens := 0; created_at := now; started_at := None; completed_at := None;
     repair_attempts := 0; transitions := []; metadata := null; extra_env := ∅ |}.

(** [JobContext::new] and [Default::default]. *)
Definition new_context (id : Uuid) (now : DateTime) (null : Value) (t d : string) : Ctx :=
  with_user id now null "default" t d.
Definition default_context (id : Uuid) (now : DateTime) (null : Value) : Ctx :=
  with_user id now null "default" "Untitled" "No description".

(** Field updates, for [self.field = v]. *)
Definition set_progress c (s : JobState) (st cp : option DateTime)
    (trs : list StateTransition) : Ctx :=
  {| job_id := job_id c; state := s; user_id := user_id c;
     conversation_id := conversation_id c; title := title c;
     description := description c; category := category c; budget := budget c;
     budget_token := budget_token c; bid_amount := bid_amount c;
     estimated_cost := estimated_cost c; estimated_duration := estimated_duration c;
     actual_cost := actual_cost c; total_tokens_used := total_tokens_used c;
     max_tokens := max_tokens c; created_at := created_at c; started_at := st;
     completed_at := cp; repair_attempts := repair_attempts c; transitions := trs;
     metadata := metadata c; extra_env := extra_env c |}.
Definition set_accounting c (cost : Decimal) (tokens repairs : Z) : Ctx :=
  {| job_id := job_id c; state := state c; user_id := user_id c;
     conversation_id := conversation_id c; title := title c;
     description := description c; category := category c; budget := budget c;
     budget_token := budget_token c; bid_amount := bid_amount c;
     estimated_cost := estimated_cost c; estimated_duration := estimated_duration c;
     actual_cost := cost; total_tokens_used := tokens;
     max_tokens := max_tokens c; created_at := created_at c; started_at := started_at c;
     completed_at := completed_at c; repair_attempts := repairs;
     transitions := transitions c; metadata := metadata c; extra_env := extra_env c |}.

(** [JobContext::transition_to]; [now1] stamps the history entry, [now2] is
    the reading of the timestamp update that follows. *)
Definition transition_to c (new_state : JobState) (reason : option string)
    (now1 now2 : DateTime) : Result unit string * Ctx :=
  if negb (can_transition_to (state c) new_state)
  then (Err ("Cannot transition from " +:+ job_state_name (state c)
             +:+ " to " +:+ job_state_name new_state)%string, c)
  else
    let t := mkTransition (state c) new_state now1 reason in
    let trs := transitions c ++ [t] in
    let trs := if (MAX_TRANSITIONS <? length trs)%nat
               then drop (length trs - MAX_TRANSITIONS) trs else trs in
    let st := match new_state with
              | InProgress =>
                  match started_at c with None => Some now2 | Some s => Some s end
              | _ => started_at c
              end in
    let cp := match new_state with
              | Completed | Accepted | Failed | Cancelled => Some now2
              | _ => completed_at c
              end in
    (Ok tt, set_progress c new_state st cp trs).

Definition add_cost c (cost : Decimal) : Ctx :=
  set_accounting c (d_add (actual_cost c) cost) (total_tokens_used c) (repair_attempts c).

(** [JobContext::add_tokens]; the error message's numbers are kept as data. *)
Definition add_tokens c (tokens : Z) : Result unit (Z * Z) * Ctx :=
  let used := wrapping_add 64 (total_tokens_used c) tokens in
  let c' := set_accounting c (actual_cost c) used (repair_attempts c) in
  if (0 <? max_tokens c) && (max_tokens c <? used)
  then (Err (used, max_tokens c), c')
  else (Ok tt, c').

Definition budget_exceeded c : bool :=
  match budget c with
  | Some b => d_ltb b (actual_cost c)
  | None => false
  end.

(** [JobContext::elapsed], in whole seconds. *)
Definition elapsed c (now : DateTime) : option Z :=
  match started_at c with
  | None => None
  | Some start =>
      let fin := match completed_at c with Some e => e | None => now end in
      Some (Z.max (Z.quot (fin - start) 1000000000) 0)
  end.

Definition mark_stuck c (reason : string) (now1 now2 : DateTime) : Result unit string * Ctx :=
  transition_to c Stuck (Some reason) now1 now2.

Definition attempt_recovery c (now1 now2 : DateTime) : Result unit string * Ctx :=
  if decide (state c <> Stuck) then (Err "Job is not stuck"%string, c)
  else
    let c' := set_accounting c (actual_cost c) (total_tokens_used c)
                (wrapping_add 32 (repair_attempts c) 1) in
    transition_to c' InProgress (Some "Recovery attempt"%string) now1 now2.

(** ** Runs of a job: any interleaving of the mutating methods *)
Inductive job_step : Ctx -> Ctx -> Prop :=
| step_transition c s r t1 t2 : job_step c (snd (transition_to c s r t1 t2))
| step_cost c x : job_step c (add_cost c x)
| step_tokens c n : job_step c (snd (add_tokens c n))
| step_stuck c r t1 t2 : job_step c (snd (mark_stuck c r t1 t2))
| step_recover c t1 t2 : job_step c (snd (attempt_recovery c t1 t2)).

(** ** The invariant of a job *)

(** Work has started in every state but [Pending] and [Cancelled] (a pending
    job can be cancelled), and it has ended exactly in these five. *)
Definition has_started (s : JobState) : bool :=
  match s with Pending | Cancelled => false | _ => true end.
Definition has_ended (s : JobState) : bool :=
  match s with Completed | Submitted | Accepted | Failed | Cancelled => true | _ => false end.

(** Entering one of these overwrites [completed_at]. *)
Definition stamps_end (s : JobState) : bool :=
  match s with Completed | Accepted | Failed | Cancelled => true | _ => false end.

Definition linked (l : list StateTransition) : Prop :=
  forall i a b, l !! i = Some a -> l !! S i = Some b -> tr_to a = tr_from b.

Record job_inv c : Prop := {
  inv_bounded : (length (transitions c) <= MAX_TRANSITIONS)%nat;
  inv_edges : Forall (fun t => can_transition_to (tr_from t) (tr_to t) = true) (transitions c);
  inv_linked : linked (transitions c);
  inv_last : match last (transitions c) with
             | Some t => tr_to t = state c
             | None => state c = Pending
             end;
  inv_started : has_started (state c) = true -> is_Some (started_at c);
  inv_ended : is_Some (completed_at c) <-> has_ended (state c) = true;
}.

(** ** Lemmas *)
Lemma is_terminal_no_exit s s' : is_terminal s = true -> can_transition_to s s' = false.
Proof. destruct s, s'; done. Qed.

Lemma can_transition_not_pending s s' : can_transition_to s s' = true -> s' <> Pending.
Proof. by destruct s, s'. Qed.

Lemma linked_drop n l : linked l -> linked (drop n l).
Proof.
  intros H i a b. rewrite !lookup_drop. intros Ha Hb.
  eapply H; [exact Ha|]. by replace (S (n + i)) with (n + S i)%nat by lia.
Qed.

Lemma linked_snoc l t :
  linked l -> (forall x, last l = Some x -> tr_to x = tr_from t) -> linked (l ++ [t]).
Proof.
  intros Hl Ht i a b Ha Hb.
  destruct (decide (S i < length l)%nat) as [Hlt|Hge].
  - rewrite lookup_app_l in Ha, Hb by lia. by eapply Hl.
  - pose proof (lookup_lt_Some _ _ _ Hb) as Hlen. rewrite length_app in Hlen. simpl in Hlen.
    rewrite lookup_app_r in Hb by lia. replace (S i - length l)%nat with 0%nat in Hb by lia.
    simplify_eq/=. rewrite lookup_app_l in Ha by lia. apply Ht. rewrite last_lookup.
    by replace (Nat.pred (length l)) with i by lia.
Qed.

Lemma capped_keep_last (l : list StateTransition) :
  (if (MAX_TRANSITIONS <? length l)%nat then drop (length l - MAX_TRANSITIONS) l else l)
  = keep_last MAX_TRANSITIONS l.
Proof.
  unfold keep_last. destruct (Nat.ltb_spec MAX_TRANSITIONS (length l)); [done|].
  by replace (length l - MAX_TRANSITIONS)%nat with 0%nat by lia.
Qed.

(** Both outcomes of [transition_to], in one equation each. *)
Lemma transition_to_err c s r t1 t2 :
  can_transition_to (state c) s = false ->
  exists msg, transition_to c s r t1 t2 = (Err msg, c).
Proof. intros H. unfold transition_to. rewrite H. simpl. eauto. Qed.

Lemma transition_to_ok c s r t1 t2 :
  can_transition_to (state c) s = true ->
  transition_to c s r t1 t2 =
    (Ok tt,
     set_progress c s
       (if decide (s = InProgress /\ started_at c = None) then Some t2 else started_at c)
       (if stamps_end s then Some t2 else completed_at c)
       (keep_last MAX_TRANSITIONS (transitions c ++ [mkTransition (state c) s t1 r]))).
Proof.
  intros H. unfold transition_to. rewrite H, capped_keep_last. cbn [negb].
  f_equal. f_equal.
  - destruct s, (started_at c); case_decide as Hd; try done;
      solve [by destruct Hd | by exfalso; apply Hd].
  - by destruct s.
Qed.

Lemma set_accounting_inv c x n r : job_inv c -> job_inv (set_accounting c x n r).
Proof. intros []. by split. Qed.

Lemma transition_to_inv c s r t1 t2 : job_inv c -> job_inv (snd (transition_to c s r t1 t2)).
Proof.
  intros HI. destruct (can_transition_to (state c) s) eqn:E.
  2: { destruct (transition_to_err c s r t1 t2 E) as [msg ->]. done. }
  rewrite transition_to_ok by done. cbn [snd]. destruct HI as [Hb He Hl Hla Hs Hc].
  set (t := mkTransition (state c) s t1 r).
  assert (linked (transitions c ++ [t])) as Hlk.
  { apply linked_snoc; [done|]. intros x Hx. rewrite Hx in Hla. by rewrite Hla. }
  split; cbn [set_progress transitions state started_at completed_at].
  - rewrite keep_last_length. lia.
  - apply Forall_drop, Forall_app; auto.
  - by apply linked_drop.
  - rewrite last_keep_last by (unfold MAX_TRANSITIONS; lia). by rewrite last_snoc.
  - intros Hst. case_decide as Hd; [eauto|]. destruct (started_at c) as [x|]; [eauto|].
    destruct (state c), s; simpl in *; try done; first [by apply Hs | by exfalso; apply Hd].
  - destruct (state c), s; simpl in *; try done; split; eauto.
Qed.

Lemma attempt_recovery_inv c t1 t2 : job_inv c -> job_inv (snd (attempt_recovery c t1 t2)).
Proof.
  intros HI. unfold attempt_recovery. case_decide; [done|].
  by apply transition_to_inv, set_accounting_inv.
Qed.

Lemma job_step_inv c c' : job_step c c' -> job_inv c -> job_inv c'.
Proof.
  intros [] HI.
  - by apply transition_to_inv.
  - by apply set_accounting_inv.
  - unfold add_tokens. break_match; by apply set_accounting_inv.
  - by apply transition_to_inv.
  - by apply attempt_recovery_inv.
Qed.

Lemma with_user_inv id now null u t d : job_inv (with_user id now null u t d).
Proof.
  split; simpl; try done; try (unfold MAX_TRANSITIONS; lia); try constructor.
Qed.

Lemma job_run_inv c c' : rtc job_step c c' -> job_inv c -> job_inv c'.
Proof. induction 1; eauto using job_step_inv. Qed.

(** A step out of a terminal state changes neither the state nor the history. *)
Lemma job_step_terminal c c' :
  job_step c c' -> is_terminal (state c) = true ->
  state c' = state c /\ transitions c' = transitions c /\ completed_at c' = completed_at c.
Proof.
  intros [? s ? ? ?| | |? r ? ?|? ? ?] Ht; simpl; try done.
  - destruct (transition_to_err _ s r t1 t2 (is_terminal_no_exit _ s Ht)) as [? ->]. done.
  - unfold add_tokens. by break_match.
  - unfold mark_stuck.
    destruct (transition_to_err _ Stuck (Some r) t1 t2 (is_terminal_no_exit _ _ Ht)) as [? ->].
    done.
  - unfold attempt_recovery. case_decide as Hs; [done|].
    destruct (state c0); try done; exfalso; by apply Hs.
Qed.

Lemma job_run_terminal c c' :
  rtc job_step c c' -> is_terminal (state c) = true ->
  state c' = state c /\ transitions c' = transitions c /\ completed_at c' = completed_at c.
Proof.
  induction 1 as [|x y z Hxy _ IH]; intros Ht; [done|].
  destruct (job_step_terminal _ _ Hxy Ht) as (E1 & E2 & E3).
  destruct IH as (-> & -> & ->); [by rewrite E1|done].
Qed.

Lemma job_run_inactive c c' :
  rtc job_step c c' -> is_active (state c) = false -> is_active (state c') = false.
Proof.
  unfold is_active. rewrite !negb_false_iff. intros H Ht.
  by destruct (job_run_terminal _ _ H Ht) as (-> & _).
Qed.

(** Token accounting over a list of LLM calls. *)
Fixpoint add_all_tokens c (ns : list Z) : Ctx :=
  match ns with
  | [] => c
  | n :: ns => add_all_tokens (snd (add_tokens c n)) ns
  end.

Lemma add_tokens_snd c n :
  snd (add_tokens c n) =
  set_accounting c (actual_cost c) (wrapping_add 64 (total_tokens_used c) n) (repair_attempts c).
Proof. unfold add_tokens. by break_match. Qed.

Lemma add_all_tokens_total c ns :
  Forall (fun n => 0 <= n) ns -> 0 <= total_tokens_used c ->
  total_tokens_used c + foldr Z.add 0 ns < 2 ^ 64 ->
  total_tokens_used (add_all_tokens c ns) = total_tokens_used c + foldr Z.add 0 ns
  /\ max_tokens (add_all_tokens c ns) = max_tokens c.
Proof.
  intros Hns. revert c. induction Hns as [|n ns Hn Hns IH]; intros c H0 Hlt; simpl in *.
  { split; [lia|done]. }
  assert (0 <= foldr Z.add 0 ns) by (clear -Hns; induction Hns; simpl; lia).
  assert (total_tokens_used (snd (add_tokens c n)) = total_tokens_used c + n) as Ht.
  { rewrite add_tokens_snd. simpl. apply wrap_small. unfold in_u. lia. }
  destruct (IH (snd (add_tokens c n))) as [-> ->]; rewrite Ht; [lia..|].
  split; [lia|]. by rewrite add_tokens_snd.
Qed.

(** ** Properties *)

(** C28. Every job reachable from [JobContext::with_user] by any sequence of
    its mutating methods satisfies [job_inv]: the history holds at most 200
    entries, each an edge of the transition table, consecutive entries chain,
    the newest one ends in the current state, [started_at] is set in every
    state that follows the start of work, and [completed_at] is set exactly
    in the states that follow its end. *)
Theorem job_history_invariant id now null u t d c :
  rtc job_step (with_user id now null u t d) c -> job_inv c.
Proof. intros H. eapply job_run_inv; [exact H|]. apply with_user_inv. Qed.

(** Terminal states are final: from an accepted, failed or cancelled job no
    sequence of method calls changes the state, the history or the completion
    time, and every [transition_to] is refused. *)
Theorem terminal_is_final c c' :
  is_terminal (state c) = true -> rtc job_step c c' ->
  state c' = state c /\ transitions c' = transitions c /\ completed_at c' = completed_at c
  /\ forall s r t1 t2, exists msg, transition_to c' s r t1 t2 = (Err msg, c').
Proof.
  intros Ht H. destruct (job_run_terminal _ _ H Ht) as (Hs & Htr & Hc).
  repeat split; try done. intros. apply transition_to_err. rewrite Hs.
  by apply is_terminal_no_exit.
Qed.

(** The token budget of a job is sticky: with no 64-bit overflow, the total
    after a sequence of calls is the exact sum, the next call is refused
    exactly when a budget is set and the new total exceeds it, the refused
    tokens are still counted, and once a call is refused all later ones are. *)
Theorem token_budget_sticky c ns n :
  Forall (fun k => 0 <= k) ns -> 0 <= n -> 0 <= total_tokens_used c ->
  total_tokens_used c + foldr Z.add 0 ns + n < 2 ^ 64 ->
  let c' := add_all_tokens c ns in
  let total := total_tokens_used c + foldr Z.add 0 ns + n in
  fst (add_tokens c' n) =
    (if (0 <? max_tokens c) && (max_tokens c <? total) then Err (total, max_tokens c) else Ok tt)
  /\ total_tokens_used (snd (add_tokens c' n)) = total
  /\ (is_ok (fst (add_tokens c 0)) = false -> is_ok (fst (add_tokens c' n)) = false).
Proof.
  intros Hns Hn H0 Hlt c' total.
  assert (0 <= foldr Z.add 0 ns) by (clear -Hns; induction Hns; simpl; lia).
  destruct (add_all_tokens_total c ns Hns H0) as [Ht Hm]; [lia|].
  assert (wrapping_add 64 (total_tokens_used c') n = total) as Hw.
  { unfold c'. rewrite Ht. apply wrap_small. unfold in_u. lia. }
  assert (wrapping_add 64 (total_tokens_used c) 0 = total_tokens_used c) as Hw0.
  { unfold wrapping_add. rewrite Z.add_0_r. apply wrap_small. unfold in_u. lia. }
  unfold add_tokens. rewrite Hw, Hw0, (Hm : max_tokens c' = _).
  repeat split; [by break_match..|].
  destruct ((0 <? max_tokens c) && (max_tokens c <? total_tokens_used c)) eqn:E; [|done].
  bool_to_prop. intros _. by rewrite (proj2 (Z.ltb_lt _ _)), (proj2 (Z.ltb_lt _ _)) by lia.
Qed.
End Context.

(** ** Witnesses *)
Definition sample_job : JobContext Z unit := with_user 7%N 1000 tt "alice" "t" "d".
Definition sample_started : JobContext Z unit :=
  snd (transition_to sample_job InProgress None 1001 1002).
Definition sample_failed : JobContext Z unit :=
  snd (transition_to sample_started Failed (Some "x"%string) 1003 1004).

Lemma sample_run : rtc job_step sample_job sample_failed.
Proof.
  eapply rtc_l; [apply (step_transition sample_job InProgress None 1001 1002)|].
  eapply rtc_l; [apply (step_transition sample_started Failed (Some "x"%string) 1003 1004)|].
  apply rtc_refl.
Qed.

Lemma job_history_invariant_witness :
  job_inv sample_failed /\ state sample_failed = Failed
  /\ length (transitions sample_failed) = 2%nat.
Proof.
  split; [|split; reflexivity].
  apply (job_history_invariant 7%N 1000 tt "alice" "t" "d" sample_failed). exact sample_run.
Defined.

Lemma terminal_is_final_witness :
  exists msg, transition_to sample_failed InProgress None 5 6 = (Err msg, sample_failed).
Proof.
  destruct (terminal_is_final sample_failed sample_failed) as (_ & _ & _ & H).
  - reflexivity.
  - apply rtc_refl.
  - apply H.
Defined.

Definition sample_limited : JobContext Z unit :=
  mkJobContext 7%N InProgress "u" None "t" "d" None None None None None None 0 90 100 0
    (Some 1) None 0 [] tt ∅.

Lemma token_budget_sticky_witness :
  fst (add_tokens (add_all_tokens sample_limited [5; 3]) 4) = Err (102, 100).
Proof.
  destruct (token_budget_sticky sample_limited [5; 3] 4) as [H _].
  - repeat constructor; lia.
  - lia.
  - simpl; lia.
  - simpl; lia.
  - exact H.
Defined.
