(* ===== verification/Llm.v ===== *)
(** LLM messages, errors and the provider trait: [src/llm/provider.rs] and the
    [LlmError] enum of [src/error.rs].

    The trait is the type class [LlmProvider P] over the type [P] of a
    provider's interior state.  A call that may suspend takes the time at
    which it starts and returns the time at which it ends, so that wrappers
    that read the clock before and after a call see the readings they would
    see at run time.  The default methods of the trait are the [default_*]
    definitions. *)

From S2P Require Import Prelude.

Inductive Role := System | User | Assistant | Tool.

#[export] Instance Role_eq_dec : EqDecision Role.
Proof. solve_decision. Defined.

Record ToolCall {Value : Type} := mkToolCall {
  tc_id : string;
  tc_name : string;
  tc_arguments : Value;
}.
Arguments ToolCall : clear implicits.

Record ChatMessage {Value : Type} := mkMessage {
  role : Role;
  content : string;
  tool_call_id : option string;
  msg_name : option string;
  tool_calls : option (list (ToolCall Value));
}.
Arguments ChatMessage : clear implicits.

Section Messages.
  Context {Value : Type}.
  Abbreviation Msg := (ChatMessage Value).

Definition msg_system (c : string) : Msg := mkMessage _ System c None None None.
Definition msg_user (c : string) : Msg := mkMessage _ User c None None None.
Definition msg_assistant (c : string) : Msg := mkMessage _ Assistant c None None None.
Definition msg_assistant_with_tool_calls (c : option string) (tcs : list (ToolCall Value)) : Msg :=
  mkMessage _ Assistant (default ""%string c) None None
    (match tcs with [] => None | _ => Some tcs end).
Definition msg_tool_result (id name c : string) : Msg :=
  mkMessage _ Tool c (Some id) (Some name) None.
End Messages.

(** ** Errors *)
Inductive LlmError :=
| RequestFailed (provider reason : string)
| RateLimited (provider : string) (retry_after : option Duration)
| InvalidResponse (provider reason : string)
| ContextLengthExceeded (used limit : Z)
| ModelNotAvailable (provider model : string)
| AuthFailed (provider : string)
| SessionExpired (provider : string)
| SessionRenewalFailed (provider reason : string)
| HttpError (msg : string)
| JsonError (msg : string)
| IoError (msg : string).

(** ** Requests and responses.  An [f32] is its 32-bit pattern. *)
Record CompletionRequest {Value : Type} := mkRequest {
  req_messages : list (ChatMessage Value);
  req_max_tokens : option Z;
  req_temperature : option Z;
  req_stop_sequences : option (list string);
  req_metadata : gmap string string;
}.
Arguments CompletionRequest : clear implicits.

Inductive FinishReason := Stop | Length | ToolUse | ContentFilter | UnknownReason.

Record CompletionResponse := mkResponse {
  resp_content : string;
  resp_input_tokens : Z;
  resp_output_tokens : Z;
  resp_finish_reason : FinishReason;
  resp_response_id : option string;
}.

Record ToolDefinition {Value : Type} := mkToolDef {
  td_name : string;
  td_description : string;
  td_parameters : Value;
}.
Arguments ToolDefinition : clear implicits.

Record ToolCompletionRequest {Value : Type} := mkToolRequest {
  treq_messages : list (ChatMessage Value);
  treq_tools : list (ToolDefinition Value);
  treq_max_tokens : option Z;
  treq_temperature : option Z;
  treq_tool_choice : option string;
  treq_metadata : gmap string string;
}.
Arguments ToolCompletionRequest : clear implicits.

Record ToolCompletionResponse {Value : Type} := mkToolResponse {
  tresp_content : option string;
  tresp_tool_calls : list (ToolCall Value);
  tresp_input_tokens : Z;
  tresp_output_tokens : Z;
  tresp_finish_reason : FinishReason;
  tresp_response_id : option string;
}.
Arguments ToolCompletionResponse : clear implicits.

Record ModelMetadata := mkMetadata { md_id : string; md_context_length : option Z }.

Section Builders.
  Context {Value : Type}.

Definition new_request (ms : list (ChatMessage Value)) : CompletionRequest Value :=
  mkRequest _ ms None None None ∅.
Definition with_max_tokens (r : CompletionRequest Value) (n : Z) : CompletionRequest Value :=
  mkRequest _ (req_messages r) (Some n) (req_temperature r) (req_stop_sequences r) (req_metadata r).
Definition with_temperature (r : CompletionRequest Value) (t : Z) : CompletionRequest Value :=
  mkRequest _ (req_messages r) (req_max_tokens r) (Some t) (req_stop_sequences r) (req_metadata r).
Definition new_tool_request (ms : list (ChatMessage Value)) (ts : list (ToolDefinition Value)) :
    ToolCompletionRequest Value :=
  mkToolRequest _ ms ts None None None ∅.
End Builders.

(** ** The trait *)

(** The outcome of a suspended call: its result, the provider's new state and
    the time at which it ends. *)
Abbreviation Outcome R P := (Result R LlmError * P * Instant)%type.

Class LlmProvider (Value Decimal P : Type) := {
  model_name : P -> string;
  cost_per_token : P -> Decimal * Decimal;
  complete : CompletionRequest Value -> P -> Instant -> Outcome CompletionResponse P;
  complete_with_tools :
    ToolCompletionRequest Value -> P -> Instant -> Outcome (ToolCompletionResponse Value) P;
  list_models : P -> Instant -> Outcome (list string) P;
  model_metadata : P -> Instant -> Outcome ModelMetadata P;
  active_model_name : P -> string;
  set_model : string -> P -> Result unit LlmError * P;
  seed_response_chain : string -> string -> P -> P;
  get_response_chain_id : string -> P -> option string;
  calculate_cost : Z -> Z -> P -> Decimal;
}.

(** No call ends before it starts. *)
Class LlmProviderLaws (Value Decimal P : Type) `{!LlmProvider Value Decimal P} := {
  complete_time : forall r p t, t <= snd (complete r p t);
  complete_with_tools_time : forall r p t, t <= snd (complete_with_tools r p t);
}.

(** ** The default methods *)
Section Defaults.
  Context {Value Decimal P : Type} `{!DecimalOps Decimal}.

Definition default_list_models (p : P) (t : Instant) : Outcome (list string) P := (Ok [], p, t).
Definition default_model_metadata (name : P -> string) (p : P) (t : Instant) :
    Outcome ModelMetadata P :=
  (Ok (mkMetadata (name p) None), p, t).
Definition default_set_model (_ : string) (p : P) : Result unit LlmError * P :=
  (Err (RequestFailed "unknown" "Runtime model switching not supported by this provider"), p).
Definition default_seed_response_chain (_ _ : string) (p : P) : P := p.
Definition default_get_response_chain_id (_ : string) (_ : P) : option string := None.
Definition default_calculate_cost (cpt : P -> Decimal * Decimal) (input output : Z) (p : P) :
    Decimal :=
  let '(ic, oc) := cpt p in
  d_add (d_mul ic (d_of_Z input)) (d_mul oc (d_of_Z output)).

  Context `{!LlmProvider Value Decimal P}.

(** [complete_streaming]: the chunks passed to [on_chunk], in order, with the
    outcome of the call. *)
Definition default_complete_streaming (r : CompletionRequest Value) (p : P) (t : Instant) :
    Outcome CompletionResponse P * list string :=
  let '(res, p', t') := complete r p t in
  match res with
  | Ok resp => ((Ok resp, p', t'),
                if decide (resp_content resp = ""%string) then [] else [resp_content resp])
  | Err e => ((Err e, p', t'), [])
  end.

Definition default_complete_with_tools_streaming
    (r : ToolCompletionRequest Value) (p : P) (t : Instant) :
    Outcome (ToolCompletionResponse Value) P * list string :=
  let '(res, p', t') := complete_with_tools r p t in
  match res with
  | Ok resp => ((Ok resp, p', t'),
                match tresp_content resp with
                | Some c => if decide (c = ""%string) then [] else [c]
                | None => []
                end)
  | Err e => ((Err e, p', t'), [])
  end.
End Defaults.

(** A provider with the trait's default methods, a name, a price and a
    [complete]: the shape of a minimal implementation, used to instantiate
    theorems about the wrappers. *)
Definition fixed_provider {Value Decimal P : Type} `{!DecimalOps Decimal} (name : string)
    (price : Decimal)
    (call : CompletionRequest Value -> P -> Instant -> Outcome CompletionResponse P) :
    LlmProvider Value Decimal P := {|
  model_name := fun _ => name;
  cost_per_token := fun _ => (price, price);
  complete := call;
  complete_with_tools := fun _ p t => (Err (ModelNotAvailable name name), p, t);
  list_models := default_list_models;
  model_metadata := default_model_metadata (fun _ => name);
  active_model_name := fun _ => name;
  set_model := default_set_model;
  seed_response_chain := default_seed_response_chain;
  get_response_chain_id := default_get_response_chain_id;
  calculate_cost := default_calculate_cost (fun _ => (price, price));
|}.
