(* ===== verification/Json.v ===== *)
(** The values of [serde_json]: the public enum [Value] and the accessors the
    agent uses.  A number is kept as its text.  Parsing and printing belong to
    the crate and are parameters where they are needed. *)

From S2P Require Import Prelude.

Inductive Json :=
| JNull
| JBool (b : bool)
| JNumber (text : string)
| JString (s : string)
| JArray (l : list Json)
| JObject (fields : list (string * Json)).

(** [Value::get] with a string index. *)
Fixpoint assoc_get (k : string) (l : list (string * Json)) : option Json :=
  match l with [] => None | (k', v) :: l => if String.eqb k k' then Some v else assoc_get k l end.
Definition json_get (k : string) (v : Json) : option Json :=
  match v with JObject l => assoc_get k l | _ => None end.
Definition as_str (v : Json) : option string := match v with JString s => Some s | _ => None end.
Definition is_true (v : option Json) : bool := match v with Some (JBool true) => true | _ => false end.
Definition get_str (k : string) (v : Json) : option string := json_get k v ≫= as_str.

(** [Map::insert]: the value of a key, in its place or at the end. *)
Fixpoint put (k : string) (v : Json) (l : list (string * Json)) : list (string * Json) :=
  match l with [] => [(k, v)] | (k', v') :: l => if String.eqb k k' then (k, v) :: l else (k', v') :: put k v l end.

(** All the strings inside a value, in document order. *)
Fixpoint json_strings (v : Json) : list string :=
  match v with
  | JString s => [s]
  | JArray l => flat_map json_strings l
  | JObject l => flat_map (fun kv => json_strings kv.2) l
  | _ => []
  end.

(** Induction with hypotheses for the elements. *)
Section JsonInd.
  Context (R : Json -> Prop).
  Context (Hnull : R JNull) (Hbool : forall b, R (JBool b)) (Hnum : forall t, R (JNumber t))
    (Hstr : forall s, R (JString s)) (Harr : forall l, Forall R l -> R (JArray l))
    (Hobj : forall l, Forall (fun kv => R kv.2) l -> R (JObject l)).
Fixpoint json_ind' (v : Json) : R v :=
  match v with
  | JNull => Hnull
  | JBool b => Hbool b
  | JNumber t => Hnum t
  | JString s => Hstr s
  | JArray l =>
      Harr l ((fix go l : Forall R l :=
        match l with [] => Forall_nil_2 _ | x :: l => Forall_cons_2 _ x l (json_ind' x) (go l) end) l)
  | JObject l =>
      Hobj l ((fix go l : Forall (fun kv => R kv.2) l :=
        match l with [] => Forall_nil_2 _ | kv :: l => Forall_cons_2 _ kv l (json_ind' kv.2) (go l) end) l)
  end.
End JsonInd.

(** ** Lemmas *)
Lemma assoc_get_put k v l : assoc_get k (put k v l) = Some v.
Proof. induction l as [|[k' w] l IH]; cbn; [by rewrite String.eqb_refl|]. destruct (String.eqb_spec k k') as [->|n]; cbn; [by rewrite String.eqb_refl|]. by rewrite (proj2 (String.eqb_neq _ _)). Qed.
Lemma assoc_get_put_ne k k' v l : k' <> k -> assoc_get k' (put k v l) = assoc_get k' l.
Proof.
  intros H. induction l as [|[j w] l IH]; cbn; [by rewrite (proj2 (String.eqb_neq _ _))|].
  destruct (String.eqb_spec k j) as [->|n]; cbn; [by rewrite (proj2 (String.eqb_neq _ _))|]. by rewrite IH.
Qed.
