(* ===== verification/JobMemory.v ===== *)
(** The memory of a job: [src/context/memory.rs].

    [ConversationMemory] is the bounded message history (its trimming loop is
    [trim], with the number of messages as fuel), [Memory] joins it with the
    action log. *)

From S2P Require Import Prelude Llm.

Record ActionRecord {Decimal Value : Type} := mkAction {
  act_id : Uuid;
  sequence : Z;
  tool_name : string;
  input : Value;
  output_raw : option string;
  output_sanitized : option Value;
  sanitization_warnings : list string;
  cost : option Decimal;
  duration : Duration;
  success : bool;
  error : option string;
  executed_at : DateTime;
}.
Arguments ActionRecord : clear implicits.

Record ConversationMemory {Value : Type} := mkConversation {
  messages : list (ChatMessage Value);
  max_messages : nat;
}.
Arguments ConversationMemory : clear implicits.

Record Memory {Decimal Value : Type} := mkMemory {
  mem_job_id : Uuid;
  conversation : ConversationMemory Value;
  actions : list (ActionRecord Decimal Value);
  next_sequence : Z;
}.
Arguments Memory : clear implicits.

Section Actions.
  Context {Decimal Value : Type} `{!DecimalOps Decimal}.
  Abbreviation Action := (ActionRecord Decimal Value).

Definition new_action (id : Uuid) (now : DateTime) (seq : Z) (name : string) (v : Value) : Action :=
  mkAction _ _ id seq name v None None [] None 0 false None now.
Definition succeed (a : Action) (raw : option string) (sanitized : Value) (d : Duration) : Action :=
  mkAction _ _ (act_id a) (sequence a) (tool_name a) (input a) raw (Some sanitized)
    (sanitization_warnings a) (cost a) d true (error a) (executed_at a).
Definition fail_action (a : Action) (e : string) (d : Duration) : Action :=
  mkAction _ _ (act_id a) (sequence a) (tool_name a) (input a) (output_raw a)
    (output_sanitized a) (sanitization_warnings a) (cost a) d false (Some e) (executed_at a).
Definition with_warnings (a : Action) (ws : list string) : Action :=
  mkAction _ _ (act_id a) (sequence a) (tool_name a) (input a) (output_raw a)
    (output_sanitized a) ws (cost a) (duration a) (success a) (error a) (executed_at a).
Definition with_cost (a : Action) (c : Decimal) : Action :=
  mkAction _ _ (act_id a) (sequence a) (tool_name a) (input a) (output_raw a)
    (output_sanitized a) (sanitization_warnings a) (Some c) (duration a) (success a)
    (error a) (executed_at a).
End Actions.

Section Conversation.
  Context {Value : Type}.
  Implicit Types ms : list (ChatMessage Value).

Definition new_conversation (n : nat) : ConversationMemory Value := mkConversation _ [] n.

(** The [while] loop of [ConversationMemory::add]: each round removes the
    first message, or the second when the first is a system message, and a
    lone system message stops it. *)
Fixpoint trim (fuel : nat) (mx : nat) ms : list (ChatMessage Value) :=
  match fuel with
  | O => ms
  | S fuel =>
      if (mx <? length ms)%nat then
        match ms with
        | m :: rest =>
            if decide (role m = System)
            then match rest with
                 | _ :: rest' => trim fuel mx (m :: rest')
                 | [] => ms
                 end
            else trim fuel mx rest
        | [] => ms
        end
      else ms
  end.

Definition conv_add (c : ConversationMemory Value) (m : ChatMessage Value) :
    ConversationMemory Value :=
  let ms := messages c ++ [m] in
  mkConversation _ (trim (length ms) (max_messages c) ms) (max_messages c).

Definition last_n (c : ConversationMemory Value) (n : nat) : list (ChatMessage Value) :=
  drop (length (messages c) - n) (messages c).
Definition conv_clear (c : ConversationMemory Value) : ConversationMemory Value :=
  mkConversation _ [] (max_messages c).
Definition conv_len (c : ConversationMemory Value) : nat := length (messages c).
Definition conv_is_empty (c : ConversationMemory Value) : bool :=
  match messages c with [] => true | _ => false end.

(** *** What the loop computes *)
Lemma trim_fits fuel mx ms : (length ms <= mx)%nat -> trim fuel mx ms = ms.
Proof.
  intros H. destruct fuel; [done|]. simpl.
  by rewrite (proj2 (Nat.ltb_ge _ _)) by lia.
Qed.

(** A leading system message is pinned; of the others the newest stay. *)
Lemma trim_system fuel mx m rest :
  role m = System -> (length rest <= fuel)%nat ->
  trim fuel mx (m :: rest) = if (mx <=? length rest)%nat
                             then m :: keep_last (mx - 1) rest else m :: rest.
Proof.
  intros Hm. revert rest. induction fuel as [|fuel IH]; intros rest Hf.
  { destruct rest; [|simpl in Hf; lia]. by destruct mx. }
  simpl. rewrite decide_True by done. destruct rest as [|x rest].
  { by destruct mx. }
  simpl in Hf. destruct (Nat.leb_spec mx (length (x :: rest))) as [Hle|Hgt].
  - rewrite (proj2 (Nat.ltb_lt _ _)) by (simpl in *; lia).
    rewrite IH by lia. unfold keep_last. simpl in Hle.
    destruct (Nat.leb_spec mx (length rest)) as [Hle'|Hgt'].
    + replace (length (x :: rest) - (mx - 1))%nat
        with (S (length rest - (mx - 1)))%nat by (simpl; lia). done.
    + replace (length (x :: rest) - (mx - 1))%nat with 1%nat by (simpl; lia). done.
  - by rewrite (proj2 (Nat.ltb_ge _ _)) by (simpl in *; lia).
Qed.

Lemma trim_no_system fuel mx ms :
  Forall (fun m => role m <> System) ms -> (length ms <= fuel)%nat ->
  trim fuel mx ms = keep_last mx ms.
Proof.
  intros HF. revert ms HF. induction fuel as [|fuel IH]; intros ms HF Hf.
  { destruct ms; [done|simpl in Hf; lia]. }
  simpl. destruct (Nat.ltb_spec mx (length ms)) as [Hlt|Hge]; [|by rewrite keep_last_all].
  destruct ms as [|m rest]; [done|]. inv HF. rewrite decide_False by done.
  simpl in *. rewrite IH by (done || lia). unfold keep_last.
  replace (length (m :: rest) - mx)%nat with (S (length rest - mx))%nat by (simpl; lia). done.
Qed.

Lemma trim_bound fuel mx ms :
  (length ms <= fuel)%nat -> (length (trim fuel mx ms) <= Nat.max 1 mx)%nat.
Proof.
  revert ms. induction fuel as [|fuel IH]; intros ms Hf; simpl; [lia|].
  destruct (Nat.ltb_spec mx (length ms)); [|lia].
  destruct ms as [|m rest]; simpl in *; [lia|].
  case_decide; [destruct rest as [|x rest]; simpl in *; [lia|]|]; apply IH; simpl; lia.
Qed.

Lemma trim_sublist fuel mx ms : trim fuel mx ms `sublist_of` ms.
Proof.
  revert ms. induction fuel as [|fuel IH]; intros ms; simpl; [done|].
  destruct (Nat.ltb_spec mx (length ms)); [|done].
  destruct ms as [|m rest]; [done|].
  case_decide; [destruct rest as [|x rest]; [done|]|].
  - etrans; [apply IH|]. by apply sublist_skip, sublist_cons.
  - etrans; [apply IH|]. by apply sublist_cons.
Qed.

Lemma trim_last fuel mx ms :
  (2 <= mx)%nat -> last (trim fuel mx ms) = last ms.
Proof.
  intros Hmx. revert ms. induction fuel as [|fuel IH]; intros ms; simpl; [done|].
  destruct (Nat.ltb_spec mx (length ms)); [|done].
  destruct ms as [|m rest]; [done|]. simpl in *.
  case_decide; destruct rest as [|x [|y rest]]; simpl in *; try lia; by rewrite IH.
Qed.

Definition conv_wf (c : ConversationMemory Value) : Prop :=
  (length (messages c) <= Nat.max 1 (max_messages c))%nat.

(** Adding a message to a conversation: the history never exceeds the cap
    (a lone system message excepted when the cap is 0), nothing is reordered
    or invented, a leading system message survives together with the newest
    [max_messages - 1] others, without system messages exactly the newest
    [max_messages] remain, and with a cap of at least two the message just
    added is the last one. *)
Theorem conversation_add_spec (c : ConversationMemory Value) (m : ChatMessage Value) :
  let ms := messages c ++ [m] in
  let c' := conv_add c m in
  conv_wf c' /\ messages c' `sublist_of` ms
  /\ (forall sys rest, ms = sys :: rest -> role sys = System ->
        messages c' = if (max_messages c <=? length rest)%nat
                      then sys :: keep_last (max_messages c - 1) rest else ms)
  /\ (Forall (fun x => role x <> System) ms -> messages c' = keep_last (max_messages c) ms)
  /\ ((2 <= max_messages c)%nat -> last (messages c') = Some m).
Proof.
  intros ms c'. unfold conv_wf, c', conv_add. fold ms. cbn [messages max_messages].
  split; [by apply trim_bound|]. split; [apply trim_sublist|]. split.
  { intros sys rest Hms Hs. rewrite Hms. rewrite trim_system by (done || simpl; lia). done. }
  split; [intros HF; by apply trim_no_system|].
  intros Hm. rewrite trim_last by done. unfold ms. by rewrite last_snoc.
Qed.
End Conversation.

Section Mem.
  Context {Decimal Value : Type} `{!DecimalOps Decimal}.
  Abbreviation Mem := (Memory Decimal Value).
  Implicit Types m : Mem.

Definition new_memory (id : Uuid) : Mem := mkMemory _ _ id (new_conversation 100) [] 0.
Definition add_message m (msg : ChatMessage Value) : Mem :=
  mkMemory _ _ (mem_job_id m) (conv_add (conversation m) msg) (actions m) (next_sequence m).
Definition create_action m (id : Uuid) (now : DateTime) (name : string) (v : Value) :
    ActionRecord Decimal Value * Mem :=
  let seq := next_sequence m in
  (new_action id now seq name v,
   mkMemory _ _ (mem_job_id m) (conversation m) (actions m) (wrapping_add 32 seq 1)).
Definition record_action m (a : ActionRecord Decimal Value) : Mem :=
  mkMemory _ _ (mem_job_id m) (conversation m) (actions m ++ [a]) (next_sequence m).
Definition total_cost m : Decimal :=
  fold_left d_add (omap cost (actions m)) d_zero.
Definition total_duration m : Duration :=
  fold_left Z.add (map duration (actions m)) 0.
Definition successful_actions m : nat := length (filter (fun a => success a = true) (actions m)).
Definition failed_actions m : nat := length (filter (fun a => success a = false) (actions m)).
Definition last_action m : option (ActionRecord Decimal Value) := last (actions m).
Definition actions_by_tool m (name : string) : list (ActionRecord Decimal Value) :=
  filter (fun a => tool_name a = name) (actions m).

(** *** Accounting *)
Definition cost_of (a : ActionRecord Decimal Value) : Decimal := default d_zero (cost a).

Fixpoint record_all m (l : list (ActionRecord Decimal Value)) : Mem :=
  match l with [] => m | a :: l => record_all (record_action m a) l end.

(** [n] actions created one after the other. *)
Fixpoint create_many m (l : list (Uuid * DateTime * string * Value)) :
    list (ActionRecord Decimal Value) * Mem :=
  match l with
  | [] => ([], m)
  | (id, now, name, v) :: l =>
      let '(a, m) := create_action m id now name v in
      let '(as_, m) := create_many m l in (a :: as_, m)
  end.

Lemma record_all_actions m l : actions (record_all m l) = actions m ++ l.
Proof.
  revert m. induction l as [|a l IH]; intros m; simpl; [by rewrite app_nil_r|].
  rewrite IH. simpl. by rewrite <- app_assoc.
Qed.

Lemma success_partition (l : list (ActionRecord Decimal Value)) :
  (length (filter (fun a => success a = true) l)
   + length (filter (fun a => success a = false) l) = length l)%nat.
Proof.
  induction l as [|a l IH]; [done|]. rewrite !filter_cons.
  destruct (success a) eqn:E; simpl; rewrite ?decide_True, ?decide_False by congruence;
    simpl; lia.
Qed.

Lemma total_cost_app `{!DecimalLaws Decimal} m l :
  total_cost (record_all m l) = fold_left d_add (map cost_of l) (total_cost m).
Proof.
  unfold total_cost. rewrite record_all_actions, omap_app, fold_left_app.
  generalize (fold_left d_add (omap cost (actions m)) d_zero) as acc.
  induction l as [|a l IH]; intros acc; [done|].
  simpl. rewrite <- IH. unfold cost_of. destruct (cost a); [done|].
  simpl. by rewrite d_add_comm, d_add_0_l.
Qed.

Lemma create_many_sequence m l :
  in_u 32 (next_sequence m) -> next_sequence m + Z.of_nat (length l) < 2 ^ 32 ->
  map sequence (fst (create_many m l))
    = map (fun i => next_sequence m + Z.of_nat i) (seq 0 (length l))
  /\ next_sequence (snd (create_many m l)) = next_sequence m + Z.of_nat (length l).
Proof.
  revert m. induction l as [|[[[id now] name] v] l IH]; intros m Hu Hlt; simpl.
  { split; [done|lia]. }
  set (m1 := mkMemory _ _ _ _ _ _). assert (next_sequence m1 = next_sequence m + 1) as Hn.
  { simpl. apply wrap_small. unfold in_u in *. simpl in Hlt. lia. }
  destruct (create_many m1 l) as [as_ m2] eqn:E. simpl.
  specialize (IH m1). rewrite E, Hn in IH. simpl in IH, Hlt.
  destruct IH as [IH1 IH2]; [unfold in_u in *; lia..|].
  split; [|lia]. rewrite Z.add_0_r. f_equal. rewrite IH1, <- seq_shift, map_map.
  apply map_ext. intros. lia.
Qed.

(** The action log of a job: actions created one after the other carry
    consecutive sequence numbers while the 32-bit counter does not overflow,
    and after any list of actions has been recorded the log is the old one
    followed by it, every action is counted exactly once as successful or
    failed, and the total cost is the old one plus the recorded costs. *)
Theorem action_log_accounting `{!DecimalLaws Decimal} m reqs l :
  in_u 32 (next_sequence m) -> next_sequence m + Z.of_nat (length reqs) < 2 ^ 32 ->
  map sequence (fst (create_many m reqs))
    = map (fun i => next_sequence m + Z.of_nat i) (seq 0 (length reqs))
  /\ actions (record_all m l) = actions m ++ l
  /\ (successful_actions (record_all m l) + failed_actions (record_all m l)
       = length (actions m) + length l)%nat
  /\ total_cost (record_all m l) = fold_left d_add (map cost_of l) (total_cost m).
Proof.
  intros Hu Hlt. split; [by apply create_many_sequence|].
  split; [apply record_all_actions|]. split; [|apply total_cost_app].
  unfold successful_actions, failed_actions. rewrite success_partition.
  by rewrite record_all_actions, length_app.
Qed.
End Mem.

(** ** Witnesses *)
Definition sample_action (n : Z) (ok : bool) (c : option Z) : ActionRecord Z unit :=
  mkAction _ _ 1%N n "shell" tt None None [] c 5 ok None 0.

Lemma action_log_accounting_witness :
  total_cost (record_all (new_memory 9%N)
    [sample_action 0 true (Some 3); sample_action 1 false None; sample_action 2 true (Some 4)]) = 7
  /\ map sequence (fst (create_many (new_memory 9%N : Memory Z unit)
       [(1%N, 0, "a"%string, tt); (2%N, 1, "b"%string, tt)])) = [0; 1].
Proof.
  destruct (action_log_accounting (new_memory 9%N : Memory Z unit)
     [(1%N, 0, "a"%string, tt); (2%N, 1, "b"%string, tt)]
     [sample_action 0 true (Some 3); sample_action 1 false None; sample_action 2 true (Some 4)])
    as (H1 & _ & _ & H2).
  - unfold in_u. simpl. lia.
  - simpl. lia.
  - split; [rewrite H2; reflexivity | rewrite H1; reflexivity].
Defined.
