(* ===== verification/ContextManager.v ===== *)
(** The context manager: [src/context/manager.rs].

    Two maps, each behind a lock of its own.  An operation that takes both
    locks one after the other is split at the point where the first lock is
    dropped ([create_contexts] then [create_memories], [remove_contexts] then
    [remove_memories]); the method is their composition, and [sys_step]
    interleaves the halves of concurrent calls. *)

From S2P Require Import Prelude Llm JobState JobMemory.

Inductive JobError :=
| MaxJobsExceeded (max : nat)
| NotFound (id : Uuid).

Record ContextManager {Decimal Value : Type} := mkManager {
  contexts : gmap Uuid (JobContext Decimal Value);
  memories : gmap Uuid (Memory Decimal Value);
  max_jobs : nat;
}.
Arguments ContextManager : clear implicits.

Record ContextSummary := mkSummary {
  sm_total : nat; sm_pending : nat; sm_in_progress : nat; sm_completed : nat;
  sm_submitted : nat; sm_accepted : nat; sm_failed : nat; sm_stuck : nat; sm_cancelled : nat;
}.

Section Manager.
  Context {Decimal Value : Type} `{!DecimalOps Decimal}.
  Abbreviation Ctx := (JobContext Decimal Value).
  Abbreviation Mem := (Memory Decimal Value).
  Abbreviation Mgr := (ContextManager Decimal Value).
  Implicit Types m : Mgr.

Definition new_manager (n : nat) : Mgr := mkManager _ _ ∅ ∅ n.
Definition default_manager : Mgr := new_manager 10.

Definition active (c : Ctx) : bool := is_active (state c).
Definition active_count m : nat := count_values active (contexts m).

(** [create_job_for_user] up to [drop(contexts)]; [id] is the fresh uuid of
    [JobContext::with_user]. *)
Definition create_contexts m (id : Uuid) (now : DateTime) (null : Value) (user t d : string) :
    Result Uuid JobError * Mgr :=
  if (max_jobs m <=? count_values active (contexts m))%nat
  then (Err (MaxJobsExceeded (max_jobs m)), m)
  else
    let c := with_user id now null user t d in
    (Ok (job_id c), mkManager _ _ (<[job_id c := c]> (contexts m)) (memories m) (max_jobs m)).

(** The rest of it, under the lock of [memories]. *)
Definition create_memories m (id : Uuid) : Mgr :=
  mkManager _ _ (contexts m) (<[id := new_memory id]> (memories m)) (max_jobs m).

Definition create_job_for_user m (id : Uuid) (now : DateTime) (null : Value) (user t d : string) :
    Result Uuid JobError * Mgr :=
  let '(r, m') := create_contexts m id now null user t d in
  match r with
  | Ok jid => (Ok jid, create_memories m' jid)
  | Err e => (Err e, m')
  end.
Definition create_job m (id : Uuid) (now : DateTime) (null : Value) (t d : string) :
    Result Uuid JobError * Mgr :=
  create_job_for_user m id now null "default" t d.

Definition get_context m (id : Uuid) : Result Ctx JobError := ok_or (contexts m !! id) (NotFound id).
Definition get_memory m (id : Uuid) : Result Mem JobError := ok_or (memories m !! id) (NotFound id).

Definition update_context {R} m (id : Uuid) (f : Ctx -> R * Ctx) : Result R JobError * Mgr :=
  match contexts m !! id with
  | None => (Err (NotFound id), m)
  | Some c => let '(r, c') := f c in
              (Ok r, mkManager _ _ (<[id := c']> (contexts m)) (memories m) (max_jobs m))
  end.
Definition update_memory {R} m (id : Uuid) (f : Mem -> R * Mem) : Result R JobError * Mgr :=
  match memories m !! id with
  | None => (Err (NotFound id), m)
  | Some x => let '(r, x') := f x in
              (Ok r, mkManager _ _ (contexts m) (<[id := x']> (memories m)) (max_jobs m))
  end.

(** The listings; the order of a [HashMap]'s iteration is not specified. *)
Definition select_jobs (p : Ctx -> bool) m : list Uuid :=
  map fst (map_to_list (filter (fun kv : Uuid * Ctx => p kv.2 = true) (contexts m))).
Definition active_jobs m : list Uuid := select_jobs active m.
Definition all_jobs m : list Uuid := map fst (map_to_list (contexts m)).
Definition active_jobs_for m (user : string) : list Uuid :=
  select_jobs (fun c => bool_decide (user_id c = user) && active c) m.
Definition all_jobs_for m (user : string) : list Uuid :=
  select_jobs (fun c => bool_decide (user_id c = user)) m.
Definition find_stuck_jobs m : list Uuid :=
  select_jobs (fun c => bool_decide (state c = Stuck)) m.

(** [remove_job], again at its two locks. *)
Definition remove_contexts m (id : Uuid) : Result Ctx JobError * Mgr :=
  match contexts m !! id with
  | None => (Err (NotFound id), m)
  | Some c => (Ok c, mkManager _ _ (delete id (contexts m)) (memories m) (max_jobs m))
  end.
Definition remove_memories m (id : Uuid) : Result Mem JobError * Mgr :=
  match memories m !! id with
  | None => (Err (NotFound id), m)
  | Some x => (Ok x, mkManager _ _ (contexts m) (delete id (memories m)) (max_jobs m))
  end.
Definition remove_job m (id : Uuid) : Result (Ctx * Mem) JobError * Mgr :=
  let '(r, m1) := remove_contexts m id in
  match r with
  | Err e => (Err e, m1)
  | Ok c =>
      let '(r2, m2) := remove_memories m1 id in
      match r2 with
      | Err e => (Err e, m2)
      | Ok x => (Ok (c, x), m2)
      end
  end.

(** The loop of [summary]: one counter per state. *)
Definition bump (s : ContextSummary) (c : Ctx) : ContextSummary :=
  let '(mkSummary t p i co su a f st ca) := s in
  match state c with
  | Pending => mkSummary t (S p) i co su a f st ca
  | InProgress => mkSummary t p (S i) co su a f st ca
  | Completed => mkSummary t p i (S co) su a f st ca
  | Submitted => mkSummary t p i co (S su) a f st ca
  | Accepted => mkSummary t p i co su (S a) f st ca
  | Failed => mkSummary t p i co su a (S f) st ca
  | Stuck => mkSummary t p i co su a f (S st) ca
  | Cancelled => mkSummary t p i co su a f st (S ca)
  end.
Definition empty_summary : ContextSummary := mkSummary 0 0 0 0 0 0 0 0 0.
Definition set_total (s : ContextSummary) (n : nat) : ContextSummary :=
  let '(mkSummary _ p i co su a f st ca) := s in mkSummary n p i co su a f st ca.
Definition field_sum (s : ContextSummary) : nat :=
  sm_pending s + sm_in_progress s + sm_completed s + sm_submitted s + sm_accepted s
  + sm_failed s + sm_stuck s + sm_cancelled s.
Definition values_where (p : Ctx -> bool) m : list Ctx :=
  map snd (map_to_list (filter (fun kv : Uuid * Ctx => p kv.2 = true) (contexts m))).
Definition summary m : ContextSummary :=
  set_total (fold_left bump (map snd (map_to_list (contexts m))) empty_summary)
    (size (contexts m)).
Definition summary_for m (user : string) : ContextSummary :=
  let s := fold_left bump (values_where (fun c => bool_decide (user_id c = user)) m)
             empty_summary in
  set_total s (field_sum s).

(** ** Concurrent calls

    A system state is the manager with the calls that hold no lock between
    their two critical sections. *)
Inductive Task :=
| TCreate (id : Uuid)              (* create_job: contexts done, memories to do *)
| TRemove (id : Uuid).             (* remove_job: contexts done, memories to do *)

Inductive sys_step : Mgr * list Task -> Mgr * list Task -> Prop :=
| sys_create_start m ts id now null u t d m' :
    contexts m !! id = None ->
    create_contexts m id now null u t d = (Ok id, m') ->
    sys_step (m, ts) (m', TCreate id :: ts)
| sys_create_refused m ts id now null u t d e m' :
    create_contexts m id now null u t d = (Err e, m') ->
    sys_step (m, ts) (m', ts)
| sys_create_finish m ts1 id ts2 :
    sys_step (m, ts1 ++ TCreate id :: ts2) (create_memories m id, ts1 ++ ts2)
| sys_update m ts id c c' :
    contexts m !! id = Some c -> rtc job_step c c' ->
    sys_step (m, ts)
      (mkManager _ _ (<[id := c']> (contexts m)) (memories m) (max_jobs m), ts)
| sys_update_memory m ts id (f : Mem -> unit * Mem) :
    sys_step (m, ts) (snd (update_memory m id f), ts)
| sys_remove_start m ts id c m' :
    remove_contexts m id = (Ok c, m') ->
    sys_step (m, ts) (m', TRemove id :: ts)
| sys_remove_finish m ts1 id ts2 :
    sys_step (m, ts1 ++ TRemove id :: ts2) (snd (remove_memories m id), ts1 ++ ts2).

(** ** The cap on active jobs *)
Definition capped (n : nat) m : Prop := max_jobs m = n /\ (active_count m <= n)%nat.

Lemma update_memory_contexts {R} m id (f : Mem -> R * Mem) :
  contexts (snd (update_memory m id f)) = contexts m
  /\ max_jobs (snd (update_memory m id f)) = max_jobs m.
Proof. unfold update_memory. repeat break_match; done. Qed.

Lemma remove_memories_contexts m id :
  contexts (snd (remove_memories m id)) = contexts m
  /\ max_jobs (snd (remove_memories m id)) = max_jobs m.
Proof. unfold remove_memories. repeat break_match; done. Qed.

Lemma create_contexts_capped n m id now null u t d :
  contexts m !! id = None -> capped n m -> capped n (snd (create_contexts m id now null u t d)).
Proof.
  unfold create_contexts, capped, active_count. intros Hf [Hn Hc].
  destruct (Nat.leb_spec (max_jobs m) (count_values active (contexts m))); [done|].
  simpl. rewrite count_values_insert by done. simpl. lia.
Qed.

Lemma update_capped n m id c c' :
  contexts m !! id = Some c -> (is_active (state c) = false -> is_active (state c') = false) ->
  capped n m ->
  capped n (mkManager _ _ (<[id := c']> (contexts m)) (memories m) (max_jobs m)).
Proof.
  unfold capped, active_count. simpl. intros Hc Hact [Hn Hle]. split; [done|].
  pose proof (count_values_update active (contexts m) id c c' Hc) as Hu.
  unfold active in Hu at 2 4. destruct (is_active (state c)), (is_active (state c'));
    try (specialize (Hact eq_refl); done); lia.
Qed.

Lemma remove_contexts_capped n m id c m' :
  remove_contexts m id = (Ok c, m') -> capped n m -> capped n m'.
Proof.
  unfold remove_contexts, capped, active_count. destruct (contexts m !! id) eqn:E; [|done].
  intros [= <- <-]. simpl. intros [Hn Hle].
  rewrite (count_values_delete _ _ _ _ E) in Hle. split; [done|lia].
Qed.

Lemma sys_step_capped n s s' : sys_step s s' -> capped n (fst s) -> capped n (fst s').
Proof.
  intros H Hc. destruct H as [m ts id now null u t d m' Hf E|m ts id now null u t d e m' E|
    |m ts id c c' Hl Hr|m ts id f|m ts id c m' E|m ts1 id ts2]; simpl in *.
  - pose proof (create_contexts_capped n m id now null u t d Hf Hc) as Hc'. by rewrite E in Hc'.
  - unfold create_contexts in E. break_match_in E; by simplify_eq.
  - done.
  - eapply update_capped; eauto using job_run_inactive.
  - unfold capped, active_count. by destruct (update_memory_contexts m id f) as [-> ->].
  - by eapply remove_contexts_capped.
  - unfold capped, active_count. by destruct (remove_memories_contexts m id) as [-> ->].
Qed.

(** ** Agreement of the two maps *)
Definition stores_agree m : Prop := dom (contexts m) = dom (memories m).

Lemma stores_agree_create m id now null u t d :
  stores_agree m -> stores_agree (snd (create_job_for_user m id now null u t d)).
Proof.
  unfold stores_agree, create_job_for_user, create_contexts, create_memories.
  intros H. break_match; [done|]. simpl. rewrite !dom_insert_L. by rewrite H.
Qed.

Lemma stores_agree_update_context {R} m id (f : Ctx -> R * Ctx) :
  stores_agree m -> stores_agree (snd (update_context m id f)).
Proof.
  unfold stores_agree, update_context. intros H. destruct (contexts m !! id) eqn:E; [|done].
  destruct (f j). simpl. rewrite dom_insert_L, <- H.
  apply elem_of_dom_2 in E. set_solver.
Qed.

Lemma stores_agree_update_memory {R} m id (f : Mem -> R * Mem) :
  stores_agree m -> stores_agree (snd (update_memory m id f)).
Proof.
  unfold stores_agree, update_memory. intros H. destruct (memories m !! id) eqn:E; [|done].
  destruct (f m0). simpl. rewrite dom_insert_L, <- H.
  apply elem_of_dom_2 in E. set_solver.
Qed.

Lemma remove_job_spec m id :
  stores_agree m ->
  match contexts m !! id, memories m !! id with
  | Some c, Some x =>
      remove_job m id = (Ok (c, x), mkManager _ _ (delete id (contexts m))
                                     (delete id (memories m)) (max_jobs m))
  | None, None => remove_job m id = (Err (NotFound id), m)
  | _, _ => False
  end.
Proof.
  unfold stores_agree, remove_job, remove_contexts, remove_memories. intros H.
  assert (id ∈ dom (contexts m) <-> id ∈ dom (memories m)) as Hd by by rewrite H.
  rewrite !elem_of_dom in Hd.
  destruct (contexts m !! id) eqn:E, (memories m !! id) eqn:E2; simpl; rewrite ?E2; try done.
  - destruct Hd as [Hd _]. destruct Hd; eauto. done.
  - destruct Hd as [_ Hd]. destruct Hd; eauto. done.
Qed.

Lemma stores_agree_remove m id : stores_agree m -> stores_agree (snd (remove_job m id)).
Proof.
  intros H. pose proof (remove_job_spec m id H) as Hr. unfold stores_agree in *.
  repeat break_match_in Hr; try done; rewrite Hr; simpl; [|done].
  by rewrite !dom_delete_L, H.
Qed.

(** ** Summaries *)
Definition in_state (s : JobState) (c : Ctx) : bool := bool_decide (state c = s).

Definition field (s : JobState) (x : ContextSummary) : nat :=
  match s with
  | Pending => sm_pending x | InProgress => sm_in_progress x | Completed => sm_completed x
  | Submitted => sm_submitted x | Accepted => sm_accepted x | Failed => sm_failed x
  | Stuck => sm_stuck x | Cancelled => sm_cancelled x
  end.

Lemma bump_field s x c : field s (bump x c) = (field s x + (if in_state s c then 1 else 0))%nat.
Proof. destruct x. unfold bump, in_state. destruct (state c), s; simpl; lia. Qed.

Lemma fold_bump_field s l x :
  field s (fold_left bump l x) = (field s x + length (filter (fun c => in_state s c = true) l))%nat.
Proof.
  revert x. induction l as [|c l IH]; intros x; simpl; [lia|].
  rewrite IH, bump_field, filter_cons. destruct (in_state s c) eqn:E.
  - rewrite decide_True by done. simpl. lia.
  - rewrite decide_False by done. simpl. lia.
Qed.

Lemma count_values_list p m :
  count_values p (contexts m)
  = length (filter (fun c => p c = true) (map snd (map_to_list (contexts m)))).
Proof.
  generalize (contexts m) as mp. apply map_ind.
  { by rewrite count_values_empty, map_to_list_empty. }
  intros k v mp Hk IH. rewrite count_values_insert, IH by done.
  rewrite map_to_list_insert by done. simpl. rewrite filter_cons.
  destruct (p v) eqn:E; [rewrite decide_True by done|rewrite decide_False by done]; done.
Qed.

Lemma summary_field s m : field s (summary m) = count_values (in_state s) (contexts m).
Proof.
  rewrite count_values_list. unfold summary.
  pose proof (fold_bump_field s (map snd (map_to_list (contexts m))) empty_summary) as H.
  destruct (fold_left bump _ _). destruct s; simpl in *; lia.
Qed.

Lemma field_sum_fold l :
  field_sum (fold_left bump l empty_summary) = length l.
Proof.
  enough (forall x, field_sum (fold_left bump l x) = (field_sum x + length l)%nat) as H
    by apply H.
  induction l as [|c l IH]; intros x; simpl; [lia|]. rewrite IH.
  enough (field_sum (bump x c) = S (field_sum x)) by lia.
  destruct x. unfold bump, field_sum. destruct (state c); simpl; lia.
Qed.

(** ** Properties *)

(** However concurrent calls of [create_job], [update_context] (running job
    methods), [update_memory] and [remove_job] interleave at their lock
    boundaries, the number of active jobs never exceeds [max_jobs]: the check
    and the insertion happen under one write lock. *)
Theorem active_jobs_never_exceed_max n s :
  rtc sys_step (new_manager n, []) s ->
  max_jobs (fst s) = n /\ (active_count (fst s) <= n)%nat.
Proof.
  intros H. enough (capped n (fst s)) by done.
  assert (capped n (new_manager n)) as H0.
  { split; [done|]. unfold active_count. simpl. rewrite count_values_empty. lia. }
  change (capped n (fst (new_manager n, @nil Task))) in H0.
  induction H; eauto using sys_step_capped.
Qed.

(** Calls that do not overlap keep the two maps in step: every job has a
    context exactly when it has a memory.  [create_job_for_user],
    [update_context], [update_memory] and [remove_job] preserve this, and
    under it [remove_job] either returns both parts and deletes both, or
    reports [NotFound] and changes nothing. *)
Theorem job_and_memory_agree m :
  stores_agree m ->
  (forall id now null u t d, stores_agree (snd (create_job_for_user m id now null u t d)))
  /\ (forall id (f : Ctx -> unit * Ctx), stores_agree (snd (update_context m id f)))
  /\ (forall id (f : Mem -> unit * Mem), stores_agree (snd (update_memory m id f)))
  /\ (forall id, stores_agree (snd (remove_job m id))
       /\ match contexts m !! id, memories m !! id with
          | Some c, Some x =>
              fst (remove_job m id) = Ok (c, x)
              /\ contexts (snd (remove_job m id)) !! id = None
              /\ memories (snd (remove_job m id)) !! id = None
          | None, None => remove_job m id = (Err (NotFound id), m)
          | _, _ => False
          end).
Proof.
  intros H. split; [intros; by apply stores_agree_create|].
  split; [intros; by apply stores_agree_update_context|].
  split; [intros; by apply stores_agree_update_memory|].
  intros id. split; [by apply stores_agree_remove|].
  pose proof (remove_job_spec m id H) as Hr.
  repeat break_match_in Hr; try done. rewrite Hr. simpl. by rewrite !lookup_delete_eq.
Qed.

(** Overlapping calls do not keep them in step.  When [remove_job] runs
    between the two critical sections of [create_job] for the same job, it
    takes the context away, fails with [NotFound], and the creation then
    stores a memory that belongs to no job and that [remove_job] will never
    delete. *)
Theorem create_remove_race_leaks_memory (id : Uuid) (now : DateTime) (null : Value)
    (u t d : string) :
  exists m, rtc sys_step (new_manager 1, []) (m, [])
    /\ contexts m = ∅ /\ memories m !! id = Some (new_memory id)
    /\ remove_job m id = (Err (NotFound id), m).
Proof.
  set (c := with_user id now null u t d : Ctx).
  set (m1 := mkManager _ _ {[id := c]} ∅ 1 : Mgr). set (m2 := mkManager _ _ ∅ ∅ 1 : Mgr).
  exists (create_memories m2 id). split.
  - eapply rtc_l; [by apply (sys_create_start (new_manager 1) [] id now null u t d m1)|].
    eapply rtc_l.
    { eapply (sys_remove_start m1 [TCreate id] id c m2).
      unfold remove_contexts, m1, m2. simpl. rewrite lookup_singleton_eq.
      by rewrite delete_singleton_eq. }
    eapply rtc_l; [by apply (sys_remove_finish m2 [] id [TCreate id])|].
    eapply rtc_l; [by apply (sys_create_finish m2 [] id [])|]. apply rtc_refl.
  - split; [done|]. split; [apply lookup_insert_eq|done].
Qed.

(** The summaries add up: each counter of [summary] is the number of jobs
    in that state, the counters sum to the reported total, active jobs are
    the total less the accepted, failed and cancelled ones, and the total of
    [summary_for] is the number of the user's jobs. *)
Theorem summary_counts m user :
  (forall s, field s (summary m) = count_values (in_state s) (contexts m))
  /\ field_sum (summary m) = sm_total (summary m)
  /\ (active_count m + field Accepted (summary m) + field Failed (summary m)
       + field Cancelled (summary m) = sm_total (summary m))%nat
  /\ sm_total (summary_for m user)
     = count_values (fun c => bool_decide (user_id c = user)) (contexts m).
Proof.
  split; [intros; apply summary_field|].
  assert (sm_total (summary m) = size (contexts m)) as Ht.
  { unfold summary. by destruct (fold_left bump _ _). }
  split; [|split].
  - rewrite Ht. unfold summary.
    pose proof (field_sum_fold (map snd (map_to_list (contexts m)))) as Hf.
    destruct (fold_left bump _ _). unfold set_total, field_sum in *. simpl in *.
    rewrite Hf, length_map. apply length_map_to_list.
  - rewrite Ht, !summary_field, <- count_values_true. unfold active_count.
    rewrite !count_values_list. induction (map snd _) as [|c l IH]; [done|].
    rewrite !filter_cons. unfold active, in_state in *.
    destruct (state c); simpl in *; lia.
  - unfold summary_for. set (p := fun c : Ctx => bool_decide (user_id c = user)).
    pose proof (field_sum_fold (values_where p m)) as Hf. fold p.
    destruct (fold_left bump _ _). cbn [set_total sm_total]. rewrite Hf.
    unfold values_where. rewrite length_map. apply length_map_to_list.
Qed.
End Manager.

(** ** Witnesses *)
Definition sample_manager : ContextManager Z unit :=
  snd (create_job_for_user (new_manager 2) 5%N 10 tt "bob" "t" "d").

Lemma active_jobs_never_exceed_max_witness :
  (active_count (fst (snd (create_contexts (new_manager 2 : ContextManager Z unit)
      5%N 10 tt "bob" "t" "d"), [TCreate 5%N])) <= 2)%nat.
Proof.
  apply (active_jobs_never_exceed_max 2
    (snd (create_contexts (new_manager 2 : ContextManager Z unit) 5%N 10 tt "bob" "t" "d"),
     [TCreate 5%N])).
  eapply rtc_l; [|apply rtc_refl].
  eapply (sys_create_start (new_manager 2) [] 5%N 10 tt "bob" "t" "d"); reflexivity.
Defined.

Lemma job_and_memory_agree_witness :
  is_ok (fst (remove_job sample_manager 5%N)) = true.
Proof.
  destruct (job_and_memory_agree sample_manager) as (_ & _ & _ & H).
  - unfold stores_agree. reflexivity.
  - specialize (H 5%N) as [_ H]. destruct H as [H _]. rewrite H. reflexivity.
Defined.
