(* ===== verification/CircuitBreaker.v ===== *)
(** The circuit breaker: [src/llm/circuit_breaker.rs].

    [CircuitBreakerProvider P] wraps a provider of type [P] and is itself an
    instance of [LlmProvider].  The three critical sections under its mutex
    ([check_allowed], [record_success], [record_failure]) read the clock once
    each; the time passes in the calls to the inner provider. *)

From S2P Require Import Prelude Llm.

Record CircuitBreakerConfig := mkConfig {
  failure_threshold : Z;
  recovery_timeout : Duration;
  half_open_successes_needed : Z;
}.
Definition default_breaker_config : CircuitBreakerConfig := mkConfig 5 (from_secs 30) 2.

Inductive CircuitState := Closed | Open | HalfOpen.

#[export] Instance CircuitState_eq_dec : EqDecision CircuitState.
Proof. solve_decision. Defined.

Record BreakerState := mkBreaker {
  state : CircuitState;
  consecutive_failures : Z;
  opened_at : option Instant;
  half_open_successes : Z;
}.
Definition new_breaker : BreakerState := mkBreaker Closed 0 None 0.

Record CircuitBreakerProvider {P : Type} := mkProvider {
  inner : P;
  bstate : BreakerState;
  config : CircuitBreakerConfig;
}.
Arguments CircuitBreakerProvider : clear implicits.

Definition is_transient (e : LlmError) : bool :=
  match e with
  | RequestFailed _ _ | RateLimited _ _ | InvalidResponse _ _ | SessionExpired _
  | SessionRenewalFailed _ _ | HttpError _ | JsonError _ | IoError _ => true
  | ContextLengthExceeded _ _ | ModelNotAvailable _ _ | AuthFailed _ => false
  end.

(** [{:.0}] of a duration in seconds: rounded half to even. *)
Definition round_secs (d : Duration) : Z :=
  let q := d / 1000000000 in
  let r := d mod 1000000000 in
  if r <? 500000000 then q
  else if 500000000 <? r then q + 1
  else if Z.even q then q else q + 1.

(** ** The critical sections *)
Section Sections.
  Context (cfg : CircuitBreakerConfig) (name : string).
  Implicit Types b : BreakerState.

Definition check_allowed (now : Instant) b : Result unit LlmError * BreakerState :=
  match state b with
  | Closed | HalfOpen => (Ok tt, b)
  | Open =>
      match opened_at b with
      | Some t =>
          if recovery_timeout cfg <=? now - t
          then (Ok tt, mkBreaker HalfOpen (consecutive_failures b) (opened_at b) 0)
          else
            (Err (RequestFailed name
               ("Circuit breaker open (" +:+ pretty (consecutive_failures b)
                +:+ " consecutive failures, recovery in "
                +:+ pretty (round_secs (recovery_timeout cfg - (now - t))) +:+ "s)")%string), b)
      | None => (Ok tt, mkBreaker Closed (consecutive_failures b) (opened_at b)
                          (half_open_successes b))
      end
  end.

Definition record_success b : BreakerState :=
  match state b with
  | Closed => mkBreaker Closed 0 (opened_at b) (half_open_successes b)
  | HalfOpen =>
      let n := wrapping_add 32 (half_open_successes b) 1 in
      if half_open_successes_needed cfg <=? n
      then mkBreaker Closed 0 None n
      else mkBreaker HalfOpen (consecutive_failures b) (opened_at b) n
  | Open => mkBreaker Closed 0 None (half_open_successes b)
  end.

Definition record_failure (e : LlmError) (now : Instant) b : BreakerState :=
  if negb (is_transient e) then b
  else match state b with
  | Closed =>
      let n := wrapping_add 32 (consecutive_failures b) 1 in
      if failure_threshold cfg <=? n
      then mkBreaker Open n (Some now) (half_open_successes b)
      else mkBreaker Closed n (opened_at b) (half_open_successes b)
  | HalfOpen => mkBreaker Open (consecutive_failures b) (Some now) 0
  | Open => b
  end.
End Sections.

(** ** The provider *)
Section Provider.
  Context {Value Decimal P : Type} `{!LlmProvider Value Decimal P}.
  Abbreviation CB := (CircuitBreakerProvider P).
  Implicit Types cb : CB.

Definition new_provider (p : P) (cfg : CircuitBreakerConfig) : CB := mkProvider _ p new_breaker cfg.
Definition circuit_state cb : CircuitState := state (bstate cb).
Definition failures cb : Z := consecutive_failures (bstate cb).

(** The body shared by [complete] and [complete_with_tools]. *)
Definition guarded {Req Resp} (call : Req -> P -> Instant -> Outcome Resp P)
    (r : Req) cb (t : Instant) : Outcome Resp CB :=
  let '(allowed, b) := check_allowed (config cb) (model_name (inner cb)) t (bstate cb) in
  match allowed with
  | Err e => (Err e, mkProvider _ (inner cb) b (config cb), t)
  | Ok _ =>
      let '(res, p', t') := call r (inner cb) t in
      match res with
      | Ok resp => (Ok resp, mkProvider _ p' (record_success (config cb) b) (config cb), t')
      | Err e => (Err e, mkProvider _ p' (record_failure (config cb) e t' b) (config cb), t')
      end
  end.

(** Methods that go straight to the inner provider. *)
Definition forwarded {Resp} (call : P -> Instant -> Outcome Resp P) cb (t : Instant) :
    Outcome Resp CB :=
  let '(res, p', t') := call (inner cb) t in (res, mkProvider _ p' (bstate cb) (config cb), t').

#[export] Instance breaker_provider : LlmProvider Value Decimal CB := {|
  model_name := fun cb => model_name (inner cb);
  cost_per_token := fun cb => cost_per_token (inner cb);
  complete := guarded complete;
  complete_with_tools := guarded complete_with_tools;
  list_models := forwarded list_models;
  model_metadata := forwarded model_metadata;
  active_model_name := fun cb => active_model_name (inner cb);
  set_model := fun m cb =>
    let '(r, p') := set_model m (inner cb) in (r, mkProvider _ p' (bstate cb) (config cb));
  seed_response_chain := fun th rid cb =>
    mkProvider _ (seed_response_chain th rid (inner cb)) (bstate cb) (config cb);
  get_response_chain_id := fun th cb => get_response_chain_id th (inner cb);
  calculate_cost := fun i o cb => calculate_cost i o (inner cb);
|}.

#[export] Instance breaker_laws `{!LlmProviderLaws Value Decimal P} :
  LlmProviderLaws Value Decimal CB.
Proof.
  assert (forall Req Resp (call : Req -> P -> Instant -> Outcome Resp P),
    (forall r p t, t <= snd (call r p t)) -> forall r cb t, t <= snd (guarded call r cb t)) as H.
  { intros Req Resp call Hcall r cb t. unfold guarded.
    destruct (check_allowed _ _ t _) as [[]]; [|simpl; lia].
    specialize (Hcall r (inner cb) t). destruct (call r (inner cb) t) as [[[] ?] ?]; done. }
  split; simpl; apply H; [apply complete_time|apply complete_with_tools_time].
Qed.
End Provider.

(** ** The invariant *)
Record breaker_inv (cfg : CircuitBreakerConfig) (b : BreakerState) : Prop := {
  open_stamped : state b <> Closed -> is_Some (opened_at b);
  closed_below : state b = Closed ->
    0 <= consecutive_failures b < Z.max 1 (failure_threshold cfg);
  probes_below : state b = HalfOpen ->
    0 <= half_open_successes b < Z.max 1 (half_open_successes_needed cfg);
}.

(** The configuration's counters are [u32]. *)
Definition config_ok (cfg : CircuitBreakerConfig) : Prop :=
  in_u 32 (failure_threshold cfg) /\ in_u 32 (half_open_successes_needed cfg).

(** ** Concurrent callers

    Calls overlap: each runs its check, then its inner call without the lock,
    then records the outcome.  [n] counts the calls between the two. *)
Inductive cb_step (cfg : CircuitBreakerConfig) (name : string) :
    BreakerState * nat -> BreakerState * nat -> Prop :=
| cb_start b n now b' :
    check_allowed cfg name now b = (Ok tt, b') -> cb_step cfg name (b, n) (b', S n)
| cb_refused b n now e b' :
    check_allowed cfg name now b = (Err e, b') -> cb_step cfg name (b, n) (b', n)
| cb_success b n : cb_step cfg name (b, S n) (record_success cfg b, n)
| cb_failure b n e now : cb_step cfg name (b, S n) (record_failure cfg e now b, n).

Section Inv.
  Context (cfg : CircuitBreakerConfig) (Hcfg : config_ok cfg).
  Implicit Types b : BreakerState.

Lemma new_breaker_inv : breaker_inv cfg new_breaker.
Proof. split; simpl; intros; try done; lia. Qed.

Lemma check_allowed_inv name now b :
  breaker_inv cfg b -> breaker_inv cfg (snd (check_allowed cfg name now b)).
Proof.
  intros [H1 H2 H3]. unfold check_allowed. destruct (state b) eqn:E; [by split; simpl; rewrite ?E| |by split; simpl; rewrite ?E].
  destruct (H1 ltac:(done)) as [t Ht]. rewrite Ht.
  destruct (_ <=? _); simpl; split; simpl; rewrite ?E; intros; eauto; try done; lia.
Qed.

Lemma record_success_inv b : breaker_inv cfg b -> breaker_inv cfg (record_success cfg b).
Proof.
  destruct Hcfg as [Hu1 Hu2]. unfold in_u in *. intros [H1 H2 H3]. unfold record_success.
  destruct (state b) eqn:E.
  - split; simpl; intros; try done; lia.
  - split; simpl; intros; try done; lia.
  - assert (wrapping_add 32 (half_open_successes b) 1 = half_open_successes b + 1) as ->.
    { apply wrap_small. unfold in_u. specialize (H3 eq_refl). lia. }
    destruct (Z.leb_spec (half_open_successes_needed cfg) (half_open_successes b + 1));
      split; simpl; intros; try done; try (apply H1; done); specialize (H3 eq_refl); lia.
Qed.

Lemma record_failure_inv e now b : breaker_inv cfg b -> breaker_inv cfg (record_failure cfg e now b).
Proof.
  destruct Hcfg as [Hu1 Hu2]. unfold in_u in *. intros [H1 H2 H3]. unfold record_failure.
  destruct (is_transient e); simpl; [|by split].
  destruct (state b) eqn:E; [| by split; rewrite ?E | by split; simpl; eauto ].
  assert (wrapping_add 32 (consecutive_failures b) 1 = consecutive_failures b + 1) as ->.
  { apply wrap_small. unfold in_u. specialize (H2 eq_refl). lia. }
  destruct (Z.leb_spec (failure_threshold cfg) (consecutive_failures b + 1));
    split; simpl; intros; try done; eauto; specialize (H2 eq_refl); lia.
Qed.

Lemma cb_step_inv name s s' :
  cb_step cfg name s s' -> breaker_inv cfg (fst s) -> breaker_inv cfg (fst s').
Proof.
  intros [b n now b' E|b n now e b' E| |] HI; simpl in *.
  - pose proof (check_allowed_inv name now b HI) as H. by rewrite E in H.
  - pose proof (check_allowed_inv name now b HI) as H. by rewrite E in H.
  - by apply record_success_inv.
  - by apply record_failure_inv.
Qed.

Lemma cb_run_inv name s s' :
  rtc (cb_step cfg name) s s' -> breaker_inv cfg (fst s) -> breaker_inv cfg (fst s').
Proof. induction 1; eauto using cb_step_inv. Qed.
End Inv.

(** ** A provider that keeps failing *)
Section Failing.
  Context {Value Decimal P : Type} `{!LlmProvider Value Decimal P}.
  Abbreviation CB := (CircuitBreakerProvider P).

(** Calls made one after the other, each started when the previous one ended. *)
Fixpoint call_all (rs : list (CompletionRequest Value)) (cb : CB) (t : Instant) : CB * Instant :=
  match rs with
  | [] => (cb, t)
  | r :: rs => let '(_, cb', t') := complete r cb t in call_all rs cb' t'
  end.

Definition always_fails : Prop := forall r (p : P) t,
  exists e p' t', complete r p t = (Err e, p', t') /\ is_transient e = true.

Lemma call_all_app rs1 rs2 cb t :
  call_all (rs1 ++ rs2) cb t = let '(cb', t') := call_all rs1 cb t in call_all rs2 cb' t'.
Proof.
  revert cb t. induction rs1 as [|r rs1 IH]; intros cb t; [done|].
  cbn [app call_all]. destruct (complete r cb t) as [[? ?] ?]. apply IH.
Qed.

(** One failing call on a closed circuit. *)
Lemma failing_call r cb t :
  always_fails -> circuit_state cb = Closed -> in_u 32 (failures cb + 1) ->
  exists e cb' t', complete r cb t = (Err e, cb', t')
    /\ config cb' = config cb /\ failures cb' = failures cb + 1
    /\ if failure_threshold (config cb) <=? failures cb + 1
       then circuit_state cb' = Open /\ opened_at (bstate cb') = Some t'
       else circuit_state cb' = Closed.
Proof.
  unfold circuit_state, failures. intros Hf Hs Hu.
  destruct (Hf r (inner cb) t) as (e & p' & t' & E & Ht).
  exists e, (mkProvider _ p' (record_failure (config cb) e t' (bstate cb)) (config cb)), t'.
  simpl. unfold guarded, check_allowed. rewrite Hs. simpl. rewrite E. split; [done|].
  split; [done|]. unfold record_failure. rewrite Ht, Hs. simpl.
  unfold wrapping_add. rewrite wrap_small by done.
  destruct (_ <=? _); done.
Qed.

Lemma failing_calls rs p cfg t :
  always_fails -> config_ok cfg ->
  (Z.of_nat (length rs) < failure_threshold cfg) ->
  let cb := fst (call_all rs (new_provider p cfg) t) in
  circuit_state cb = Closed /\ failures cb = Z.of_nat (length rs) /\ config cb = cfg.
Proof.
  intros Hf [Hu _]. induction rs as [|r rs IH] using rev_ind; intros Hlt; [done|].
  rewrite length_app in *. simpl length in *.
  destruct IH as (IH1 & IH2 & IH3); [lia|].
  rewrite call_all_app. destruct (call_all rs (new_provider p cfg) t) as [cb t1]. simpl in *.
  destruct (failing_call r cb t1 Hf IH1) as (e & cb' & t' & E & Hc & Hn & Hif).
  { rewrite IH2. unfold in_u in *. lia. }
  cbn [complete breaker_provider] in E. rewrite E. simpl. rewrite IH3 in *.
  rewrite (proj2 (Z.leb_gt _ _)) in Hif by lia. repeat split; try done. lia.
Qed.
End Failing.

(** ** A provider that has recovered *)
Section Recovering.
  Context {Value Decimal P : Type} `{!LlmProvider Value Decimal P}.
  Abbreviation CB := (CircuitBreakerProvider P).

Definition always_succeeds : Prop := forall r (p : P) t,
  exists resp p' t', complete r p t = (Ok resp, p', t') /\ t <= t'.

(** The state in which probing starts, or goes on after [k] successes. *)
Definition probing (cfg : CircuitBreakerConfig) (k : Z) (cb : CB) (t : Instant) : Prop :=
  config cb = cfg /\
  ((k = 0 /\ circuit_state cb = Open
    /\ exists t0, opened_at (bstate cb) = Some t0 /\ recovery_timeout cfg <= t - t0)
   \/ (0 < k /\ circuit_state cb = HalfOpen /\ half_open_successes (bstate cb) = k)).

Lemma probe_step cfg k r cb t :
  always_succeeds -> probing cfg k cb t -> in_u 32 (k + 1) ->
  exists resp cb' t', complete r cb t = (Ok resp, cb', t')
    /\ if half_open_successes_needed cfg <=? k + 1
       then circuit_state cb' = Closed /\ failures cb' = 0
       else probing cfg (k + 1) cb' t'.
Proof.
  intros Hok [Hc Hp] Hu. destruct (Hok r (inner cb) t) as (resp & p' & t' & E & Htt).
  exists resp. simpl. unfold guarded, check_allowed, circuit_state in *. rewrite Hc.
  assert (0 <= k) by (destruct Hp as [[-> _]|[? _]]; lia).
  destruct Hp as [(-> & Hs & t0 & Ht0 & Hle)|(Hk & Hs & Hn)]; rewrite Hs.
  - rewrite Ht0, (proj2 (Z.leb_le _ _)) by done. rewrite E. do 2 eexists. split; [done|].
    unfold record_success. simpl. unfold wrapping_add. rewrite wrap_small by done.
    destruct (Z.leb_spec (half_open_successes_needed cfg) (0 + 1)); [done|].
    split; [done|]. right. simpl. split; [lia|done].
  - rewrite E. do 2 eexists. split; [done|].
    unfold record_success. rewrite Hs, Hn. unfold wrapping_add. rewrite wrap_small by done.
    destruct (Z.leb_spec (half_open_successes_needed cfg) (k + 1)); [done|].
    split; [done|]. right. simpl. split; [lia|done].
Qed.

Lemma probe_steps cfg rs k cb t :
  always_succeeds -> config_ok cfg -> probing cfg k cb t ->
  k + Z.of_nat (length rs) < Z.max 1 (half_open_successes_needed cfg) ->
  probing cfg (k + Z.of_nat (length rs)) (fst (call_all rs cb t)) (snd (call_all rs cb t)).
Proof.
  intros Hok [_ Hu]. revert k cb t. induction rs as [|r rs IH]; intros k cb t Hp Hlt.
  { by rewrite Z.add_0_r. }
  assert (0 <= k) by (destruct Hp as [_ [[-> _]|[? _]]]; lia).
  simpl length in *. destruct (probe_step cfg k r cb t Hok Hp) as (resp & cb' & t' & E & Hif).
  { unfold in_u in *. lia. }
  cbn [call_all]. rewrite E. rewrite (proj2 (Z.leb_gt _ _)) in Hif by lia.
  replace (k + Z.of_nat (S (length rs))) with (k + 1 + Z.of_nat (length rs)) by lia.
  apply IH; [done|lia].
Qed.
End Recovering.

(** ** Properties *)

(** However concurrent callers interleave their checks and recordings, the
    breaker keeps its invariant: it is stamped with an opening time whenever
    it is not closed (so the recovery branch for a missing stamp is never
    taken), a closed circuit has counted fewer failures than the threshold,
    and a half-open one fewer probes than it needs. *)
Theorem breaker_invariant cfg name s :
  config_ok cfg -> rtc (cb_step cfg name) (new_breaker, 0%nat) s -> breaker_inv cfg (fst s).
Proof. intros Hc H. eapply cb_run_inv; [done|exact H|apply new_breaker_inv]. Qed.

Section Claims.
  Context {Value Decimal P : Type} `{!LlmProvider Value Decimal P}.
  Abbreviation CB := (CircuitBreakerProvider P).

(** An open circuit: until the recovery timeout has passed every call is
    answered with an error at once, the inner provider is not called and
    nothing changes; afterwards the call reaches the inner provider, a
    transient failure reopens the circuit at the time the call ends, a
    success closes it or is counted as one of several needed probes, and an
    error of the caller's own leaves it half-open. *)
Theorem open_circuit_behaviour (r : CompletionRequest Value) (cb : CB) (t0 now : Instant) :
  circuit_state cb = Open -> opened_at (bstate cb) = Some t0 ->
  (now - t0 < recovery_timeout (config cb) ->
     exists reason, complete r cb now = (Err (RequestFailed (model_name (inner cb)) reason), cb, now))
  /\ (recovery_timeout (config cb) <= now - t0 ->
     let '(res, p', t') := complete r (inner cb) now in
     exists b', complete r cb now = (res, mkProvider _ p' b' (config cb), t')
     /\ match res with
        | Ok _ => if half_open_successes_needed (config cb) <=? 1
                  then state b' = Closed /\ consecutive_failures b' = 0
                  else state b' = HalfOpen /\ half_open_successes b' = 1
        | Err e => if is_transient e
                   then state b' = Open /\ opened_at b' = Some t'
                   else state b' = HalfOpen
        end).
Proof.
  unfold circuit_state. intros Hs Ho. split; intros Ht.
  - simpl. unfold guarded, check_allowed. rewrite Hs, Ho, (proj2 (Z.leb_gt _ _)) by lia.
    eexists. by destruct cb.
  - destruct (complete r (inner cb) now) as [[res p'] t'] eqn:E.
    simpl. unfold guarded, check_allowed. rewrite Hs, Ho, (proj2 (Z.leb_le _ _)) by lia.
    rewrite E. destruct res as [resp|e]; eexists; (split; [done|]).
    + unfold record_success. simpl. change (wrapping_add 32 0 1) with 1.
      by destruct (_ <=? 1).
    + unfold record_failure. by destruct (is_transient e).
Qed.

(** The circuit trips exactly at the threshold: with a provider that keeps
    failing transiently, after fewer calls the circuit is still closed and
    has counted them all, the call that reaches the threshold opens it at the
    moment that call ends, and a further call within the recovery timeout
    does not reach the provider. *)
Theorem trips_at_threshold rs r r' (p : P) cfg t :
  always_fails -> config_ok cfg -> Z.of_nat (length rs) + 1 = failure_threshold cfg ->
  (forall k, circuit_state (fst (call_all (take k rs) (new_provider p cfg) t)) = Closed
        /\ failures (fst (call_all (take k rs) (new_provider p cfg) t))
           = Z.of_nat (Nat.min k (length rs)))
  /\ let '(cb, t1) := call_all (rs ++ [r]) (new_provider p cfg) t in
     circuit_state cb = Open /\ opened_at (bstate cb) = Some t1
     /\ forall now, now - t1 < recovery_timeout cfg ->
          exists e, complete r' cb now = (Err e, cb, now).
Proof.
  intros Hf Hc Hlen. split.
  { intros k. destruct (failing_calls (take k rs) p cfg t Hf Hc) as (H1 & H2 & _).
    - rewrite length_take. lia.
    - by rewrite H2, length_take. }
  destruct (failing_calls rs p cfg t Hf Hc) as (H1 & H2 & H3); [lia|].
  rewrite call_all_app. destruct (call_all rs (new_provider p cfg) t) as [cb t1].
  cbn [fst] in *. destruct (failing_call r cb t1 Hf H1) as (e & cb' & t' & E & Hcf & Hn & Hif).
  { rewrite H2, Hlen. by destruct Hc. }
  cbn [call_all]. rewrite E. rewrite H2, H3, Hlen, Z.leb_refl in Hif. destruct Hif as [Hs Ho].
  split; [done|]. split; [done|]. intros now Hnow.
  unfold circuit_state in Hs. simpl. unfold guarded, check_allowed.
  rewrite Hs, Ho, Hcf, H3, (proj2 (Z.leb_gt _ _)) by lia.
  eexists. f_equal. f_equal. rewrite <- H3, <- Hcf. by destruct cb'.
Qed.

(** C36. Recovery: once the timeout of an open circuit has passed and the
    provider answers again, the circuit is half-open until the configured
    number of probes (at least one) has succeeded, and that probe closes it
    with the failure count reset. *)
Theorem recovers_after_probes rs r (cb : CB) cfg t0 t :
  always_succeeds -> config_ok cfg -> config cb = cfg ->
  circuit_state cb = Open -> opened_at (bstate cb) = Some t0 ->
  recovery_timeout cfg <= t - t0 ->
  Z.of_nat (length rs) + 1 = Z.max 1 (half_open_successes_needed cfg) ->
  (forall k, (0 < k <= length rs)%nat ->
     circuit_state (fst (call_all (take k rs) cb t)) = HalfOpen)
  /\ circuit_state (fst (call_all (rs ++ [r]) cb t)) = Closed
  /\ failures (fst (call_all (rs ++ [r]) cb t)) = 0.
Proof.
  intros Hok Hc Hcb Hs Ho Ht Hlen.
  assert (probing cfg 0 cb t) as Hp by (split; [done|]; left; eauto).
  split.
  { intros k Hk. pose proof (probe_steps cfg (take k rs) 0 cb t Hok Hc Hp) as [_ H].
    { rewrite length_take. lia. }
    rewrite length_take in H. destruct H as [(? & _)|(_ & H & _)]; [lia|done]. }
  pose proof (probe_steps cfg rs 0 cb t Hok Hc Hp ltac:(lia)) as Hp'.
  rewrite call_all_app. destruct (call_all rs cb t) as [cb1 t1]. cbn [fst snd] in *.
  destruct (probe_step cfg _ r cb1 t1 Hok Hp') as (resp & cb' & t' & E & Hif).
  { destruct Hc. unfold in_u in *. lia. }
  cbn [call_all]. rewrite E. by rewrite (proj2 (Z.leb_le _ _)) in Hif by lia.
Qed.
End Claims.

(** The breaker's remark that a success cannot be recorded while it is open
    does not hold for overlapping calls: of two calls admitted by a closed
    circuit one may trip it and the other then succeed, which closes the
    circuit at once, without waiting for the recovery timeout. *)
Theorem late_success_reopens cfg name e now :
  failure_threshold cfg = 1 -> is_transient e = true ->
  exists b, rtc (cb_step cfg name) (new_breaker, 0%nat) (b, 1%nat)
    /\ state b = Open /\ opened_at b = Some now
    /\ cb_step cfg name (b, 1%nat) (mkBreaker Closed 0 None 0, 0%nat).
Proof.
  intros Hth He. exists (mkBreaker Open 1 (Some now) 0). split.
  - eapply rtc_l; [by apply (cb_start cfg name new_breaker 0 now)|].
    eapply rtc_l; [by apply (cb_start cfg name new_breaker 1 now)|].
    eapply rtc_l; [|apply rtc_refl].
    replace (mkBreaker Open 1 (Some now) 0) with (record_failure cfg e now new_breaker);
      [apply cb_failure|].
    unfold record_failure. rewrite He. simpl. change (wrapping_add 32 0 1) with 1.
    by rewrite Hth.
  - repeat split. apply (cb_success cfg name (mkBreaker Open 1 (Some now) 0) 0).
Qed.

(** ** Witnesses *)

(** A provider that always fails after 5 ns, and one that always answers. *)
Record Down := mkDown { down_calls : nat }.
#[export] Instance down_provider : LlmProvider unit Z Down :=
  fixed_provider "down" 0 (fun _ p t => (Err (HttpError "503"), mkDown (S (down_calls p)), t + 5)).

Record Up := mkUp { up_calls : nat }.
#[export] Instance up_provider : LlmProvider unit Z Up :=
  fixed_provider "up" 0 (fun _ p t =>
    (Ok (mkResponse "ok" 1 1 Stop None), mkUp (S (up_calls p)), t + 5)).

Definition ping : CompletionRequest unit := new_request [msg_user "ping"].
Definition sample_config : CircuitBreakerConfig := mkConfig 3 100 2.
Definition tripped : CircuitBreakerProvider Up :=
  mkProvider _ (mkUp 0) (mkBreaker Open 3 (Some 10) 0) sample_config.

Lemma breaker_invariant_witness :
  breaker_inv sample_config (mkBreaker Closed 0 None 0).
Proof.
  apply (breaker_invariant sample_config "m" (mkBreaker Closed 0 None 0, 0%nat)).
  - unfold config_ok, in_u. simpl. lia.
  - apply rtc_refl.
Defined.

Lemma open_circuit_behaviour_witness :
  exists reason, complete ping tripped 50 = (Err (RequestFailed "up" reason), tripped, 50).
Proof.
  destruct (open_circuit_behaviour ping tripped 10 50) as [H _].
  - reflexivity.
  - reflexivity.
  - apply H. simpl. lia.
Defined.

Lemma trips_at_threshold_witness :
  circuit_state (fst (call_all [ping; ping; ping] (new_provider (mkDown 0) sample_config) 0)) = Open.
Proof.
  destruct (trips_at_threshold [ping; ping] ping ping (mkDown 0) sample_config 0) as [_ H].
  - intros r p t. do 3 eexists. split; reflexivity.
  - unfold config_ok, in_u. simpl. lia.
  - reflexivity.
  - destruct H as [H _]. exact H.
Defined.

Lemma recovers_after_probes_witness :
  circuit_state (fst (call_all [ping; ping]
    tripped 200)) = Closed.
Proof.
  destruct (recovers_after_probes [ping] ping tripped sample_config 10 200)
    as (_ & H & _).
  - intros r p t. do 3 eexists. split; [reflexivity|lia].
  - unfold config_ok, in_u. simpl. lia.
  - reflexivity.
  - reflexivity.
  - reflexivity.
  - simpl. lia.
  - reflexivity.
  - exact H.
Defined.

Lemma late_success_reopens_witness :
  exists b, state b = Open
    /\ cb_step (mkConfig 1 100 2) "m" (b, 1%nat) (mkBreaker Closed 0 None 0, 0%nat).
Proof.
  destruct (late_success_reopens (mkConfig 1 100 2) "m" (HttpError "503") 7) as (b & _ & H1 & _ & H2).
  - reflexivity.
  - reflexivity.
  - exists b. split; [exact H1|exact H2].
Defined.
