(* ===== verification/Failover.v ===== *)
(** Retry delays and provider failover: [src/llm/retry.rs] and
    [src/llm/failover.rs].

    The providers of a failover group share one type [P] (the code's
    [Arc<dyn LlmProvider>]); their interior states, the cooldown atomics and
    [last_used] are the state.  An index out of range, a panic in the code, is
    the value [None] of [try_providers], and C16 shows it does not occur. *)

From S2P Require Import Prelude Llm.

(** ** [retry.rs] *)
Definition is_retryable_status (status : Z) : bool :=
  bool_decide (status ∈ [429; 500; 502; 503; 504]).

(** [base_ms], saturating at [u64::MAX]. *)
Definition backoff_base (attempt : Z) : Z :=
  saturating_mul U64_MAX 1000 (Z.min U64_MAX (2 ^ attempt)).

(** [retry_backoff_delay] in milliseconds; [offset] is the value drawn by
    [gen_range(0..=jitter_range * 2)].  Additions of [i64] wrap. *)
Definition retry_backoff_delay (attempt offset : Z) : Z :=
  let base_ms := backoff_base attempt in
  let jitter_range := base_ms / 4 in
  let jitter := if 0 <? jitter_range
                then as_i64 (as_i64 offset - as_i64 jitter_range) else 0 in
  Z.max (as_i64 (as_i64 base_ms + jitter)) 100.

Lemma as_i64_small a : 0 <= a < 2 ^ 63 -> as_i64 a = a.
Proof.
  intros H. unfold as_i64. rewrite wrap_small by (unfold in_u; lia).
  by rewrite (proj2 (Z.leb_gt _ _)) by lia.
Qed.

Lemma as_i64_neg a : - 2 ^ 63 <= a < 0 -> as_i64 a = a.
Proof.
  intros H. unfold as_i64, wrap. rewrite <- (Z.mod_add _ 1) by lia. rewrite Z.mod_small by lia.
  rewrite (proj2 (Z.leb_le _ _)) by lia. lia.
Qed.

Lemma as_i64_id a : - 2 ^ 63 <= a < 2 ^ 63 -> as_i64 a = a.
Proof. intros. destruct (Z.ltb_spec a 0); [apply as_i64_neg|apply as_i64_small]; lia. Qed.

Lemma backoff_base_exact attempt : 0 <= attempt <= 52 -> backoff_base attempt = 1000 * 2 ^ attempt
  /\ 1000 <= backoff_base attempt <= 1000 * 2 ^ 52.
Proof.
  intros H. assert (2 ^ 0 <= 2 ^ attempt <= 2 ^ 52).
  { split; apply Z.pow_le_mono_r; lia. }
  unfold backoff_base, saturating_mul, U64_MAX. split; lia.
Qed.

(** The retry delay: for every attempt up to 52 and every value the random
    generator may draw, the delay is the exact base 1000 * 2^attempt ms moved
    by the drawn offset, so it stays within a quarter of the base on either
    side, and it never falls below the 100 ms floor.  From attempt 53 on the signed 64-bit sum
    overflows: there are draws that collapse the delay to the floor. *)
Theorem backoff_delay_bounds :
  (forall attempt offset, 0 <= attempt <= 52 ->
     0 <= offset <= 2 * (backoff_base attempt / 4) ->
     let base := 1000 * 2 ^ attempt in
     retry_backoff_delay attempt offset = base - base / 4 + offset
     /\ 4 * retry_backoff_delay attempt offset >= 3 * base
     /\ 4 * retry_backoff_delay attempt offset <= 5 * base)
  /\ (forall attempt offset, 100 <= retry_backoff_delay attempt offset)
  /\ retry_backoff_delay 53 (2 * (backoff_base 53 / 4)) = 100
  /\ retry_backoff_delay 54 0 = 100.
Proof.
  split; [|split; [intros; unfold retry_backoff_delay; lia|split; vm_compute; reflexivity]].
  intros attempt offset Ha Ho base. destruct (backoff_base_exact attempt Ha) as [Hb Hr].
  unfold retry_backoff_delay. rewrite Hb in *. fold base in Ho, Hr |- *.
  pose proof (Z.div_mod base 4 ltac:(lia)). pose proof (Z.mod_pos_bound base 4 ltac:(lia)).
  assert (0 < base / 4) by lia. rewrite (proj2 (Z.ltb_lt _ _)) by lia.
  rewrite (as_i64_small base), (as_i64_small offset), (as_i64_small (base / 4)) by lia.
  rewrite (as_i64_id (offset - base / 4)) by lia.
  rewrite (as_i64_id (base + _)) by lia. lia.
Qed.

(** ** [failover.rs] *)
Definition is_retryable (e : LlmError) : bool :=
  match e with
  | RequestFailed _ _ | RateLimited _ _ | InvalidResponse _ _ | SessionRenewalFailed _ _
  | ModelNotAvailable _ _ | HttpError _ | IoError _ => true
  | ContextLengthExceeded _ _ | AuthFailed _ | SessionExpired _ | JsonError _ => false
  end.

Record CooldownConfig := mkCooldownConfig {
  cooldown_duration : Duration;
  failure_threshold : Z;
}.
Definition default_cooldown : CooldownConfig := mkCooldownConfig (from_secs 300) 3.

Record ProviderCooldown := mkCooldown {
  failure_count : Z;
  cooldown_activated_nanos : Z;
}.
Definition new_cooldown : ProviderCooldown := mkCooldown 0 0.

Definition is_in_cooldown (c : ProviderCooldown) (now_nanos cooldown_nanos : Z) : bool :=
  negb (cooldown_activated_nanos c =? 0)
  && (saturating_sub now_nanos (cooldown_activated_nanos c) <? cooldown_nanos).
Definition record_failure (c : ProviderCooldown) (threshold : Z) : bool * ProviderCooldown :=
  let prev := failure_count c in
  (threshold <=? wrapping_add 32 prev 1,
   mkCooldown (wrapping_add 32 prev 1) (cooldown_activated_nanos c)).
Definition activate_cooldown (c : ProviderCooldown) (now_nanos : Z) : ProviderCooldown :=
  mkCooldown (failure_count c) (Z.max now_nanos 1).
Definition reset (c : ProviderCooldown) : ProviderCooldown := mkCooldown 0 0.

Record FailoverProvider {P : Type} := mkFailover {
  providers : list P;
  last_used : nat;
  cooldowns : list ProviderCooldown;
  epoch : Instant;
  cooldown_config : CooldownConfig;
}.
Arguments FailoverProvider : clear implicits.

(** [Iterator::min_by_key]: the first of the minimal elements. *)
Fixpoint min_by_key {A} (key : A -> Z) (l : list A) : option A :=
  match l with
  | [] => None
  | x :: l => match min_by_key key l with
              | None => Some x
              | Some y => if key x <=? key y then Some x else Some y
              end
  end.

Section Failover.
  Context {P : Type}.
  Abbreviation FP := (FailoverProvider P).
  Implicit Types fp : FP.

Definition with_cooldown (ps : list P) (cfg : CooldownConfig) (now : Instant) : Result FP LlmError :=
  match ps with
  | [] => Err (RequestFailed "failover" "FailoverProvider requires at least one provider")
  | _ => Ok (mkFailover _ ps 0 (replicate (length ps) new_cooldown) now cfg)
  end.
Definition new_failover (ps : list P) (now : Instant) : Result FP LlmError :=
  with_cooldown ps default_cooldown now.

Definition now_nanos fp (t : Instant) : Z := wrap 64 (t - epoch fp).
Definition cooldown_nanos fp : Z := wrap 64 (cooldown_duration (cooldown_config fp)).

(** The partition of the indices, [cooldowns[i]] read as [None] out of range. *)
Definition cooled fp (now : Z) (i : nat) : bool :=
  match cooldowns fp !! i with
  | Some c => is_in_cooldown c now (cooldown_nanos fp)
  | None => false
  end.
Definition activation fp (i : nat) : Z :=
  match cooldowns fp !! i with Some c => cooldown_activated_nanos c | None => 0 end.
Definition indices fp : list nat := seq 0 (length (providers fp)).
Definition available fp (t : Instant) : list nat :=
  let now := now_nanos fp t in
  match filter (fun i => cooled fp now i = false) (indices fp) with
  | [] => option_list (min_by_key (activation fp) (indices fp))
  | l => l
  end.

(** One attempt at index [i] in the state [fp], its bookkeeping included; the
    flag says whether the loop returns. *)
Definition set_provider fp (i : nat) (p : P) (c : ProviderCooldown) (lu : nat) : FP :=
  mkFailover _ (<[i:=p]> (providers fp)) lu (<[i:=c]> (cooldowns fp)) (epoch fp)
    (cooldown_config fp).

Definition failed_cooldown fp (c : ProviderCooldown) (t : Instant) : ProviderCooldown :=
  let '(hit, c') := record_failure c (failure_threshold (cooldown_config fp)) in
  if hit then activate_cooldown c' (now_nanos fp t) else c'.

Definition exhausted : LlmError :=
  RequestFailed "failover" "Invariant violated in FailoverProvider: providers were exhausted but no last_error was recorded (this branch should be unreachable; possible causes: no provider attempts were made or `available` was unexpectedly empty).".

Fixpoint try_loop {T} (call : P -> Instant -> Outcome T P) (avail : list nat)
    (last_error : option LlmError) fp (t : Instant) : option (Outcome T FP) :=
  match avail with
  | [] => Some (Err (default exhausted last_error), fp, t)
  | i :: rest =>
      match providers fp !! i, cooldowns fp !! i with
      | Some p, Some c =>
          let '(res, p', t') := call p t in
          match res with
          | Ok resp => Some (Ok resp, set_provider fp i p' (reset c) i, t')
          | Err e =>
              if negb (is_retryable e)
              then Some (Err e, set_provider fp i p' c (last_used fp), t')
              else try_loop call rest (Some e)
                     (set_provider fp i p' (failed_cooldown fp c t') (last_used fp)) t'
          end
      | _, _ => None
      end
  end.

(** With no provider at all the code returns an error; the constructor rules
    that out. *)
Definition try_providers {T} (call : P -> Instant -> Outcome T P) fp (t : Instant) :
    option (Outcome T FP) :=
  match available fp t with
  | [] => Some (Err (RequestFailed "failover" "FailoverProvider requires at least one provider"),
                fp, t)
  | avail => try_loop call avail None fp t
  end.
End Failover.

(** The trait methods of [FailoverProvider] that do more than read
    [providers[last_used]]. *)
Section Methods.
  Context {Value Decimal P : Type} `{!LlmProvider Value Decimal P}.
  Abbreviation FP := (FailoverProvider P).

Definition current (fp : FP) : option P := providers fp !! last_used fp.
Definition fo_model_name (fp : FP) : option string := model_name <$> current fp.
Definition fo_cost_per_token (fp : FP) : option (Decimal * Decimal) := cost_per_token <$> current fp.
Definition fo_active_model_name (fp : FP) : option string := active_model_name <$> current fp.
Definition fo_complete (r : CompletionRequest Value) (fp : FP) (t : Instant) :
    option (Outcome CompletionResponse FP) :=
  try_providers (complete r) fp t.
Definition fo_complete_with_tools (r : ToolCompletionRequest Value) (fp : FP) (t : Instant) :
    option (Outcome (ToolCompletionResponse Value) FP) :=
  try_providers (complete_with_tools r) fp t.

(** [set_model] stops at the first provider that refuses; the ones before it
    keep the new model. *)
Fixpoint set_model_all (m : string) (ps : list P) : Result unit LlmError * list P :=
  match ps with
  | [] => (Ok tt, [])
  | p :: ps =>
      let '(r, p') := set_model m p in
      match r with
      | Err e => (Err e, p' :: ps)
      | Ok _ => let '(r', ps') := set_model_all m ps in (r', p' :: ps')
      end
  end.
Definition fo_set_model (m : string) (fp : FP) : Result unit LlmError * FP :=
  let '(r, ps) := set_model_all m (providers fp) in
  (r, mkFailover _ ps (last_used fp) (cooldowns fp) (epoch fp) (cooldown_config fp)).
End Methods.

(** ** Specification: what the group answers, from what its members answer *)
Section Spec.
  Context {P T : Type} (call : P -> Instant -> Outcome T P).
  Abbreviation FP := (FailoverProvider P).
  Implicit Types fp : FP.

(** The answers of the members in the order given, each asked when the
    previous one has answered. *)
Fixpoint outcomes (ps : list P) (avail : list nat) (t : Instant) : list (Result T LlmError) :=
  match avail with
  | [] => []
  | i :: rest =>
      match ps !! i with
      | Some p => let '(res, _, t') := call p t in res :: outcomes ps rest t'
      | None => []
      end
  end.

(** The first success or non-retryable error decides; failing that, the last
    error. *)
Fixpoint decision (rs : list (Result T LlmError)) (last_error : option LlmError) :
    Result T LlmError :=
  match rs with
  | [] => Err (default exhausted last_error)
  | Ok r :: _ => Ok r
  | Err e :: rs => if is_retryable e then decision rs (Some e) else Err e
  end.

Definition failover_wf fp : Prop :=
  providers fp <> [] /\ length (cooldowns fp) = length (providers fp)
  /\ (last_used fp < length (providers fp))%nat.

Definition in_range fp (avail : list nat) : Prop :=
  Forall (fun i => (i < length (providers fp))%nat) avail.

(** *** The candidates *)
Lemma min_by_key_spec {A} (key : A -> Z) l :
  match min_by_key key l with
  | None => l = []
  | Some x => x ∈ l /\ forall y, y ∈ l -> key x <= key y
  end.
Proof.
  induction l as [|x l IH]; simpl; [done|].
  destruct (min_by_key key l) as [y|].
  - destruct IH as [Hin Hmin]. destruct (Z.leb_spec (key x) (key y)).
    + split; [left|]. intros z [->|Hz]%elem_of_cons; [lia|]. specialize (Hmin z Hz). lia.
    + split; [by right|]. intros z [->|Hz]%elem_of_cons; [lia|]. by apply Hmin.
  - subst. split; [left|]. intros z [->|Hz]%elem_of_cons; [lia|]. by apply elem_of_nil in Hz.
Qed.

Lemma available_cases fp t :
  failover_wf fp ->
  let ready := filter (fun i => cooled fp (now_nanos fp t) i = false) (indices fp) in
  (ready <> [] /\ available fp t = ready)
  \/ (ready = [] /\ exists i, available fp t = [i] /\ i ∈ indices fp
        /\ forall j, j ∈ indices fp -> activation fp i <= activation fp j).
Proof.
  intros (Hne & _) ready. unfold available. fold ready.
  destruct ready as [|i l] eqn:E; [right|left; done]. split; [done|].
  pose proof (min_by_key_spec (activation fp) (indices fp)) as H.
  destruct (min_by_key _ _) as [i|].
  - exists i. by destruct H.
  - unfold indices in H. destruct (providers fp); done.
Qed.

Lemma available_ok fp t :
  failover_wf fp -> available fp t <> [] /\ NoDup (available fp t) /\ in_range fp (available fp t).
Proof.
  intros H. assert (Forall (fun i => (i < length (providers fp))%nat) (indices fp)) as Hr.
  { apply Forall_forall. intros i Hi. apply elem_of_seq in Hi. lia. }
  destruct (available_cases fp t H) as [[Hne ->]|(_ & i & -> & Hi & _)].
  - split; [done|]. split; [apply NoDup_filter, NoDup_seq|].
    unfold in_range. apply Forall_forall. intros i Hi. apply list_elem_of_filter in Hi as [_ Hi].
    by eapply Forall_forall in Hr.
  - split; [done|]. split; [apply NoDup_singleton|]. apply Forall_singleton.
    by eapply Forall_forall in Hr.
Qed.

(** *** The loop *)
Lemma outcomes_insert ps i p avail t :
  i ∉ avail -> outcomes (<[i:=p]> ps) avail t = outcomes ps avail t.
Proof.
  revert t. induction avail as [|j avail IH]; intros t Hi; [done|].
  apply not_elem_of_cons in Hi as [Hij Hi]. simpl.
  rewrite list_lookup_insert_ne by done. destruct (ps !! j) as [q|]; [|done].
  destruct (call q t) as [[? ?] ?]. by rewrite IH.
Qed.

(** What an attempt may have done to the cooldown of a provider. *)
Definition counted fp (c c' : ProviderCooldown) : Prop :=
  failure_count c' = wrapping_add 32 (failure_count c) 1
  /\ (if failure_threshold (cooldown_config fp) <=? wrapping_add 32 (failure_count c) 1
      then 1 <= cooldown_activated_nanos c'
      else cooldown_activated_nanos c' = cooldown_activated_nanos c).

Lemma failed_cooldown_counted fp c t : counted fp c (failed_cooldown fp c t).
Proof.
  unfold counted, failed_cooldown, record_failure, activate_cooldown.
  destruct (_ <=? _); simpl; lia.
Qed.

(** The final state [fp'] against the initial one. *)
Record loop_effect (avail : list nat) (res : Result T LlmError) fp fp' : Prop := {
  eff_length : length (providers fp') = length (providers fp)
               /\ length (cooldowns fp') = length (cooldowns fp);
  eff_config : cooldown_config fp' = cooldown_config fp /\ epoch fp' = epoch fp;
  eff_others : forall j, j ∉ avail ->
    providers fp' !! j = providers fp !! j /\ cooldowns fp' !! j = cooldowns fp !! j;
  eff_ok : forall r, res = Ok r ->
    last_used fp' ∈ avail /\ cooldowns fp' !! last_used fp' = Some new_cooldown;
  eff_err : forall e, res = Err e -> last_used fp' = last_used fp;
  eff_exhausted : forall e, res = Err e -> is_retryable e = true ->
    forall j c, j ∈ avail -> cooldowns fp !! j = Some c ->
      exists c', cooldowns fp' !! j = Some c' /\ counted fp c c';
}.

Lemma loop_effect_stop i p c lu res rest fp :
  (i < length (cooldowns fp))%nat ->
  (exists r, res = Ok r /\ lu = i /\ c = new_cooldown)
  \/ (exists e, res = Err e /\ is_retryable e = false /\ lu = last_used fp) ->
  loop_effect (i :: rest) res fp (set_provider fp i p c lu).
Proof.
  intros Hi Hres. split; simpl; rewrite ?length_insert; try done.
  - intros j [Hj _]%not_elem_of_cons. by rewrite !list_lookup_insert_ne.
  - intros r ->. destruct Hres as [(? & ? & -> & ->)|(? & ? & _)]; [|done].
    rewrite list_lookup_insert_eq by done. split; [left|done].
  - intros e ->. by destruct Hres as [(? & ? & _)|(? & ? & ? & ->)].
  - intros e -> He. by destruct Hres as [(? & ? & _)|(? & [= ->] & ? & _)]; congruence.
Qed.

Lemma loop_effect_next i p c t res rest fp fp' :
  cooldowns fp !! i = Some c -> i ∉ rest ->
  loop_effect rest res (set_provider fp i p (failed_cooldown fp c t) (last_used fp)) fp' ->
  loop_effect (i :: rest) res fp fp'.
Proof.
  intros Hc Hi [[L1 L2] [C1 C2] HO Hok Herr Hex]. simpl in *.
  rewrite length_insert in L1. rewrite length_insert in L2. pose proof (lookup_lt_Some _ _ _ Hc) as Hlen.
  split; simpl; try done.
  - intros j [Hj Hr]%not_elem_of_cons. rewrite !(proj1 (HO j Hr)), (proj2 (HO j Hr)).
    by rewrite !list_lookup_insert_ne.
  - intros r Hr. destruct (Hok r Hr) as [H1 H2]. split; [by right|done].
  - intros e He Hre j cj Hj Hcj. destruct (decide (j = i)) as [->|Hne].
    + destruct (HO i Hi) as [_ HOi]. rewrite list_lookup_insert_eq in HOi by done.
      exists (failed_cooldown fp c t). split; [done|]. simplify_eq.
      apply failed_cooldown_counted.
    + apply elem_of_cons in Hj as [->|Hj]; [done|].
      destruct (Hex e He Hre j cj Hj) as (c' & H1 & H2);
        [by rewrite list_lookup_insert_ne|]. eauto.
Qed.

Lemma try_loop_spec avail : forall last_error fp t,
  length (cooldowns fp) = length (providers fp) -> NoDup avail -> in_range fp avail ->
  (forall e, last_error = Some e -> is_retryable e = true) ->
  let res := decision (outcomes (providers fp) avail t) last_error in
  exists fp' t', try_loop call avail last_error fp t = Some (res, fp', t')
    /\ (avail <> [] \/ last_error <> None -> loop_effect avail res fp fp').
Proof.
  induction avail as [|i rest IH]; intros le fp t Hlen Hnd Hin Hle; simpl.
  { exists fp, t. split; [done|]. intros _. split; try done.
    intros e _ _ j c Hj. by apply elem_of_nil in Hj. }
  inv Hin. match goal with H : (i < _)%nat |- _ => rename H into Hi end.
  apply NoDup_cons in Hnd as [Hir Hnd].
  destruct (lookup_lt_is_Some_2 (providers fp) i Hi) as [p Hp].
  destruct (lookup_lt_is_Some_2 (cooldowns fp) i ltac:(lia)) as [c Hc].
  rewrite Hp, Hc. destruct (call p t) as [[[r|e] p'] t'] eqn:E; simpl.
  - do 2 eexists. split; [done|]. intros _. apply loop_effect_stop; [lia|]. left. eauto.
  - destruct (is_retryable e) eqn:Hre; simpl.
    + set (fp1 := set_provider fp i p' (failed_cooldown fp c t') (last_used fp)).
      destruct (IH (Some e) fp1 t') as (fp' & t2 & Ht & Heff).
      * simpl. by rewrite !length_insert.
      * done.
      * unfold in_range in *. simpl. by rewrite length_insert.
      * intros ? [= <-]. done.
      * exists fp', t2. simpl in Ht, Heff. rewrite outcomes_insert in Ht, Heff by done.
        split; [done|]. intros _. eapply loop_effect_next; [done|done|].
        apply Heff. by right.
    + do 2 eexists. split; [done|]. intros _. apply loop_effect_stop; [lia|]. right. eauto.
Qed.

Lemma try_providers_spec fp t :
  failover_wf fp ->
  let avail := available fp t in
  let res := decision (outcomes (providers fp) avail t) None in
  exists fp' t', try_providers call fp t = Some (res, fp', t')
    /\ loop_effect avail res fp fp' /\ failover_wf fp'.
Proof.
  intros Hwf avail res. destruct (available_ok fp t Hwf) as (Hne & Hnd & Hin).
  fold avail in Hne, Hnd, Hin. destruct Hwf as (Hp & Hlen & Hlu).
  destruct (try_loop_spec avail None fp t Hlen Hnd Hin ltac:(done)) as (fp' & t' & E & Heff).
  exists fp', t'. specialize (Heff (or_introl Hne)). split.
  { unfold try_providers. fold avail. destruct avail; [done|exact E]. }
  split; [done|]. destruct Heff as [[L1 L2] _ _ Hok Herr _]. unfold failover_wf.
  rewrite L1, L2. split; [by destruct (providers fp'), (providers fp)|]. split; [done|].
  fold res in Hok, Herr. destruct res as [r|e].
  - destruct (Hok r eq_refl) as [Hin' _]. unfold in_range in Hin.
    by eapply Forall_forall in Hin.
  - by rewrite (Herr e eq_refl).
Qed.

(** ** Properties *)

(** C35. The failover loop implements its specification: for a well-formed
    group it never indexes out of range, its answer is that of the first
    available provider to succeed or to fail with a non-retryable error, or
    else the last error, and the group stays well-formed (so [last_used]
    always names a provider). *)
Theorem failover_refines_spec fp t :
  failover_wf fp ->
  exists fp' t', try_providers call fp t
    = Some (decision (outcomes (providers fp) (available fp t) t) None, fp', t')
    /\ failover_wf fp'.
Proof.
  intros H. destruct (try_providers_spec fp t H) as (fp' & t' & E & _ & Hwf). eauto.
Qed.

(** Cooldown: a request is always tried somewhere; when some provider is
    not cooling down, exactly those are candidates and a provider in cooldown
    is neither called nor changed; when all are cooling down, the single
    candidate is one whose cooldown started earliest. *)
Theorem cooldown_skips fp t fp' t' res :
  failover_wf fp -> try_providers call fp t = Some (res, fp', t') ->
  available fp t <> []
  /\ (forall i, (i < length (providers fp))%nat -> cooled fp (now_nanos fp t) i = false ->
        forall j, (j ∈ available fp t <->
                   (j < length (providers fp))%nat /\ cooled fp (now_nanos fp t) j = false))
  /\ ((forall i, (i < length (providers fp))%nat -> cooled fp (now_nanos fp t) i = true) ->
        exists i, available fp t = [i]
          /\ forall j, (j < length (providers fp))%nat -> activation fp i <= activation fp j)
  /\ (forall j, j ∉ available fp t ->
        providers fp' !! j = providers fp !! j /\ cooldowns fp' !! j = cooldowns fp !! j).
Proof.
  intros Hwf E. destruct (available_ok fp t Hwf) as (Hne & _ & _). split; [done|].
  assert (forall i, i ∈ indices fp <-> (i < length (providers fp))%nat) as Hidx.
  { intros i. unfold indices. rewrite elem_of_seq. lia. }
  split; [|split].
  - intros i Hi Hci j. destruct (available_cases fp t Hwf) as [[_ ->]|(Hnil & _)].
    + rewrite list_elem_of_filter, Hidx. tauto.
    + assert (i ∈ filter (fun i => cooled fp (now_nanos fp t) i = false) (indices fp)) as Hin.
      { apply list_elem_of_filter. by rewrite Hidx. }
      rewrite Hnil in Hin. by apply elem_of_nil in Hin.
  - intros Hall. destruct (available_cases fp t Hwf) as [[Hready _]|(_ & i & Ei & _ & Hmin)].
    + destruct (filter _ (indices fp)) as [|i l] eqn:Ef; [done|].
      assert (i ∈ i :: l) as Hin by left. rewrite <- Ef in Hin.
      apply list_elem_of_filter in Hin as [Hc Hi]. apply Hidx in Hi.
      rewrite Hall in Hc by done. done.
    + exists i. split; [done|]. intros j Hj. apply Hmin. by apply Hidx.
  - destruct (try_providers_spec fp t Hwf) as (fp2 & t2 & E2 & Heff & _).
    rewrite E in E2. simplify_eq. apply Heff.
Qed.

(** Bookkeeping: a success is recorded in [last_used] and clears the
    cooldown of the provider that answered; an error leaves [last_used]
    alone; and when the group is exhausted with a retryable error, every
    candidate's failure has been counted, and its cooldown is active exactly
    from the threshold on. *)
Theorem failover_bookkeeping fp t fp' t' res :
  failover_wf fp -> try_providers call fp t = Some (res, fp', t') ->
  (forall r, res = Ok r ->
     last_used fp' ∈ available fp t /\ cooldowns fp' !! last_used fp' = Some new_cooldown)
  /\ (forall e, res = Err e -> last_used fp' = last_used fp)
  /\ (forall e, res = Err e -> is_retryable e = true ->
       forall j c, j ∈ available fp t -> cooldowns fp !! j = Some c ->
         exists c', cooldowns fp' !! j = Some c'
           /\ failure_count c' = wrapping_add 32 (failure_count c) 1
           /\ if failure_threshold (cooldown_config fp) <=? failure_count c'
              then 1 <= cooldown_activated_nanos c'
              else cooldown_activated_nanos c' = cooldown_activated_nanos c).
Proof.
  intros Hwf E. destruct (try_providers_spec fp t Hwf) as (fp2 & t2 & E2 & Heff & _).
  rewrite E in E2. simplify_eq. destruct Heff as [_ _ _ Hok Herr Hex].
  split; [done|]. split; [done|]. intros e He Hre j c Hj Hc.
  destruct (Hex e He Hre j c Hj Hc) as (c' & H1 & H2 & H3). exists c'. rewrite H2. done.
Qed.
End Spec.

(** ** Witnesses *)

(** Members that take 5 ns; [true] answers, [false] fails with a 503. *)
Definition sample_call (up : bool) (t : Instant) : Outcome nat bool :=
  (if up then Ok 1%nat else Err (HttpError "503"), up, t + 5).
Definition sample_group : FailoverProvider bool :=
  mkFailover _ [false; true] 0 [mkCooldown 2 0; mkCooldown 1 0] 0 default_cooldown.
Definition cooled_group : FailoverProvider bool :=
  mkFailover _ [false; true] 0 [mkCooldown 3 90; mkCooldown 3 50] 0 default_cooldown.

Lemma sample_group_wf : failover_wf sample_group.
Proof. unfold failover_wf. simpl. repeat split; [done|lia]. Qed.
Lemma cooled_group_wf : failover_wf cooled_group.
Proof. unfold failover_wf. simpl. repeat split; [done|lia]. Qed.

Lemma failover_refines_spec_witness :
  exists fp' t', try_providers sample_call sample_group 100 = Some (Ok 1%nat, fp', t').
Proof.
  destruct (failover_refines_spec sample_call sample_group 100 sample_group_wf)
    as (fp' & t' & E & _).
  exists fp', t'. exact E.
Defined.

Lemma cooldown_skips_witness :
  available cooled_group 100 = [1%nat].
Proof.
  destruct (cooldown_skips sample_call cooled_group 100
    (mkFailover _ [false; true] 1 [mkCooldown 3 90; mkCooldown 0 0] 0 default_cooldown) 105
    (Ok 1%nat) cooled_group_wf) as (_ & _ & H & _).
  - vm_compute. reflexivity.
  - destruct H as (i & Hi & _).
    + intros [|[|i]] Hi; [reflexivity|reflexivity|simpl in Hi; lia].
    + rewrite Hi. vm_compute in Hi. congruence.
Defined.

Lemma failover_bookkeeping_witness :
  exists fp' t', try_providers sample_call sample_group 100 = Some (Ok 1%nat, fp', t')
    /\ cooldowns fp' !! last_used fp' = Some new_cooldown.
Proof.
  eexists _, _. split; [vm_compute; reflexivity|].
  eapply (failover_bookkeeping sample_call sample_group 100 _ _ (Ok 1%nat) sample_group_wf).
  - vm_compute. reflexivity.
  - reflexivity.
Defined.
