(* ===== verification/ResponseCache.v ===== *)
(** The response cache: [src/llm/response_cache.rs].

    [CachedProvider P] wraps a provider.  SHA-256 and the JSON printer are
    parameters ([sha256_hex], [to_json]); a [complete] is the composition of
    its two critical sections, [lookup_entry] and [store], around the inner
    call, and [cache_step] interleaves the sections of concurrent calls.
    Which of several least recently used entries a [HashMap] iteration meets
    first is not specified; here it is the order of [map_to_list]. *)

From S2P Require Import Prelude Llm Failover.

Record ResponseCacheConfig := mkCacheConfig { ttl : Duration; max_entries : nat }.
Definition default_cache_config : ResponseCacheConfig := mkCacheConfig (from_secs 3600) 1000.

Record CacheEntry := mkEntry {
  response : CompletionResponse;
  created_at : Instant;
  last_accessed : Instant;
  hit_count : Z;
}.

Record CachedProvider {P : Type} := mkCached {
  inner : P;
  cache : gmap string CacheEntry;
  config : ResponseCacheConfig;
}.
Arguments CachedProvider : clear implicits.

(** [Instant::duration_since] saturates at zero. *)
Definition duration_since (now earlier : Instant) : Duration := Z.max 0 (now - earlier).
Definition fresh (cfg : ResponseCacheConfig) (now : Instant) (e : CacheEntry) : bool :=
  duration_since now (created_at e) <? ttl cfg.

(** ** The key *)
Definition byte_char (b : Z) : Ascii.ascii := Ascii.ascii_of_N (Z.to_N b).
Definition NUL : Ascii.ascii := Ascii.Ascii false false false false false false false false.
Definition nul_string : string := String NUL EmptyString.

(** [u32::to_le_bytes] and, through its bit pattern, [f32::to_le_bytes]. *)
Definition to_le_bytes (n : Z) : string :=
  String (byte_char (n mod 256)) (String (byte_char (n / 256 mod 256))
    (String (byte_char (n / 65536 mod 256)) (String (byte_char (n / 16777216 mod 256)) "")))%string.

Fixpoint stop_bytes (stops : list string) : string :=
  match stops with
  | [] => ""%string
  | s :: stops => (s +:+ nul_string +:+ stop_bytes stops)%string
  end.

Section Key.
  Context {Value : Type} (to_json : list (ChatMessage Value) -> option string).

(** The bytes fed to the hasher. *)
Definition key_preimage (model : string) (r : CompletionRequest Value) : string :=
  (model +:+ "|"
   +:+ default "" (to_json (req_messages r)) +:+ "|"
   +:+ (match req_max_tokens r with Some n => to_le_bytes n | None => "" end) +:+ "|"
   +:+ (match req_temperature r with Some n => to_le_bytes n | None => "" end) +:+ "|"
   +:+ (match req_stop_sequences r with Some l => stop_bytes l | None => "" end))%string.
End Key.

(** ** The critical sections *)
Section Sections.
  Context (cfg : ResponseCacheConfig).
  Implicit Types c : gmap string CacheEntry.

(** The lookup: a fresh entry is returned and marked, a stale one removed. *)
Definition lookup_entry c (key : string) (now : Instant) :
    option CompletionResponse * gmap string CacheEntry :=
  match c !! key with
  | Some e =>
      if fresh cfg now e
      then (Some (response e),
            <[key := mkEntry (response e) (created_at e) now
                       (wrapping_add 64 (hit_count e) 1)]> c)
      else (None, delete key c)
  | None => (None, c)
  end.

Definition oldest_key c : option string :=
  fst <$> min_by_key (fun kv : string * CacheEntry => last_accessed kv.2) (map_to_list c).

(** The [while] loop; its fuel is the number of entries. *)
Fixpoint evict (fuel : nat) c : gmap string CacheEntry :=
  match fuel with
  | O => c
  | S fuel =>
      if (max_entries cfg <=? size c)%nat then
        match oldest_key c with
        | Some k => evict fuel (delete k c)
        | None => c
        end
      else c
  end.

Definition store c (key : string) (now : Instant) (resp : CompletionResponse) :
    gmap string CacheEntry :=
  let c := filter (fun kv : string * CacheEntry => fresh cfg now kv.2 = true) c in
  let c := evict (size c) c in
  <[key := mkEntry resp now now 0]> c.
End Sections.

(** ** The provider *)
Section Provider.
  Context {Value Decimal P : Type} `{!LlmProvider Value Decimal P}.
  Context (to_json : list (ChatMessage Value) -> option string) (sha256_hex : string -> string).
  Abbreviation CP := (CachedProvider P).
  Implicit Types cp : CP.

Definition new_cached (p : P) (cfg : ResponseCacheConfig) : CP := mkCached _ p ∅ cfg.
Definition cache_len cp : nat := size (cache cp).
Definition cache_is_empty cp : bool := bool_decide (cache cp = ∅).
Definition total_hits cp : Z := map_fold (fun _ e acc => hit_count e + acc) 0 (cache cp).
Definition cache_clear cp : CP := mkCached _ (inner cp) ∅ (config cp).

Definition cache_key (model : string) (r : CompletionRequest Value) : string :=
  sha256_hex (key_preimage to_json model r).

Definition cached_complete (r : CompletionRequest Value) cp (t : Instant) :
    Outcome CompletionResponse CP :=
  let key := cache_key (model_name (inner cp)) r in
  let '(hit, c) := lookup_entry (config cp) (cache cp) key t in
  match hit with
  | Some resp => (Ok resp, mkCached _ (inner cp) c (config cp), t)
  | None =>
      let '(res, p', t') := complete r (inner cp) t in
      match res with
      | Err e => (Err e, mkCached _ p' c (config cp), t')
      | Ok resp => (Ok resp, mkCached _ p' (store (config cp) c key t resp) (config cp), t')
      end
  end.

Definition cached_forwarded {Resp} (call : P -> Instant -> Outcome Resp P) cp (t : Instant) :
    Outcome Resp CP :=
  let '(res, p', t') := call (inner cp) t in (res, mkCached _ p' (cache cp) (config cp), t').
End Provider.

(** ** Lemmas *)
Section Lemmas.
  Context (cfg : ResponseCacheConfig).
  Implicit Types c : gmap string CacheEntry.

Lemma oldest_key_spec c :
  match oldest_key c with
  | None => c = ∅
  | Some k => exists e, c !! k = Some e
                /\ forall k' e', c !! k' = Some e' -> last_accessed e <= last_accessed e'
  end.
Proof.
  unfold oldest_key.
  pose proof (min_by_key_spec (fun kv : string * CacheEntry => last_accessed kv.2) (map_to_list c))
    as H.
  destruct (min_by_key _ _) as [[k e]|]; simpl.
  - destruct H as [Hin Hmin]. exists e. split; [by apply elem_of_map_to_list|].
    intros k' e' He'. apply (Hmin (k', e')). by apply elem_of_map_to_list.
  - by apply map_to_list_empty_iff.
Qed.

Lemma evict_subseteq fuel c : evict cfg fuel c ⊆ c.
Proof.
  revert c. induction fuel as [|fuel IH]; intros c; simpl; [done|].
  destruct (_ <=? _)%nat; [|done]. destruct (oldest_key c); [|done].
  etrans; [apply IH|]. apply delete_subseteq.
Qed.

(** The loop reaches its exit condition, unless the cache is empty. *)
Lemma evict_size fuel c :
  (size c <= fuel)%nat -> (size (evict cfg fuel c) < Nat.max 1 (max_entries cfg))%nat.
Proof.
  revert c. induction fuel as [|fuel IH]; intros c Hf; simpl; [lia|].
  destruct (Nat.leb_spec (max_entries cfg) (size c)); [|lia].
  pose proof (oldest_key_spec c) as Hk. destruct (oldest_key c) as [k|].
  - destruct Hk as (e & He & _). apply IH. rewrite map_size_delete_Some by eauto. lia.
  - subst. rewrite map_size_empty. lia.
Qed.

Lemma size_insert_le c k e : (size (<[k:=e]> c) <= S (size c))%nat.
Proof. rewrite map_size_insert. destruct (c !! k); simpl; lia. Qed.

Lemma store_size c k now resp :
  (size (store cfg c k now resp) <= Nat.max 1 (max_entries cfg))%nat.
Proof.
  unfold store. set (c' := filter _ c). pose proof (evict_size (size c') c' ltac:(lia)).
  pose proof (size_insert_le (evict cfg (size c') c') k (mkEntry resp now now 0)). lia.
Qed.

(** What eviction removes was used no later than anything it keeps. *)
Lemma evict_lru fuel c k e k' e' :
  c !! k = Some e -> evict cfg fuel c !! k = None -> evict cfg fuel c !! k' = Some e' ->
  last_accessed e <= last_accessed e'.
Proof.
  revert c. induction fuel as [|fuel IH]; intros c Hk Hev Hk'; simpl in *; [congruence|].
  destruct (_ <=? _)%nat; [|congruence].
  pose proof (oldest_key_spec c) as Hold. destruct (oldest_key c) as [v|]; [|congruence].
  destruct Hold as (ev & Hv & Hmin). destruct (decide (v = k)) as [->|Hne].
  - simplify_eq. eapply Hmin.
    eapply lookup_weaken; [eapply lookup_weaken; [exact Hk'|apply evict_subseteq]|].
    apply delete_subseteq.
  - eapply IH; [|exact Hev|exact Hk']. by rewrite lookup_delete_ne.
Qed.

Lemma lookup_entry_size c k now : (size (snd (lookup_entry cfg c k now)) <= size c)%nat.
Proof.
  unfold lookup_entry. destruct (c !! k) as [e|] eqn:E; [|simpl; lia].
  destruct (fresh cfg now e); simpl.
  - rewrite map_size_insert_Some by eauto. lia.
  - rewrite map_size_delete_Some by eauto. lia.
Qed.
End Lemmas.

(** ** Concurrent calls

    The log holds every answer of the inner provider with its key and the time
    its request started. *)
Abbreviation CacheLog := (list (string * CompletionResponse * Instant)).

Inductive cache_step (cfg : ResponseCacheConfig) :
    gmap string CacheEntry * CacheLog -> gmap string CacheEntry * CacheLog -> Prop :=
| step_lookup c log key now :
    cache_step cfg (c, log) (snd (lookup_entry cfg c key now), log)
| step_store c log key now resp :
    cache_step cfg (c, log) (store cfg c key now resp, (key, resp, now) :: log)
| step_clear c log : cache_step cfg (c, log) (∅, log).

Section Sound.
  Context (cfg : ResponseCacheConfig).

(** Every entry is an answer of the inner provider to a request with its key. *)
Definition cache_sound (s : gmap string CacheEntry * CacheLog) : Prop :=
  (size s.1 <= Nat.max 1 (max_entries cfg))%nat
  /\ forall k e, s.1 !! k = Some e -> (k, response e, created_at e) ∈ s.2.

Lemma cache_step_sound s s' : cache_step cfg s s' -> cache_sound s -> cache_sound s'.
Proof.
  intros [c log key now|c log key now resp|c log] [Hsz Hs]; simpl in *; split; simpl.
  - pose proof (lookup_entry_size cfg c key now). lia.
  - intros k e. unfold lookup_entry. destruct (c !! key) as [e0|] eqn:E; [|apply Hs].
    destruct (fresh cfg now e0); simpl.
    + intros Hk. destruct (decide (key = k)) as [->|Hne].
      * rewrite lookup_insert_eq in Hk. simplify_eq. simpl. by apply (Hs k).
      * rewrite lookup_insert_ne in Hk by done. by apply Hs.
    + intros [_ Hk]%lookup_delete_Some. by apply Hs.
  - apply store_size.
  - intros k e. unfold store. set (c' := filter _ c). intros Hk.
    destruct (decide (key = k)) as [->|Hne].
    + rewrite lookup_insert_eq in Hk. simplify_eq. left.
    + rewrite lookup_insert_ne in Hk by done. right. apply Hs.
      eapply lookup_weaken in Hk; [|apply evict_subseteq].
      by apply map_lookup_filter_Some in Hk as [Hk _].
  - rewrite map_size_empty. lia.
  - intros k e Hk. by rewrite lookup_empty in Hk.
Qed.

(** However concurrent calls interleave, the cache holds at most
    [max_entries] entries (one, when that is zero), every answer it gives was
    given by the inner provider to a request with the same key that started
    less than [ttl] earlier, and eviction, whose loop always reaches its exit
    condition, drops least recently used entries first. *)
Theorem cache_bounded_and_sound s key now resp :
  rtc (cache_step cfg) (∅, []) s ->
  (size s.1 <= Nat.max 1 (max_entries cfg))%nat
  /\ (fst (lookup_entry cfg s.1 key now) = Some resp ->
        exists t, (key, resp, t) ∈ s.2 /\ duration_since now t < ttl cfg)
  /\ (size (evict cfg (size s.1) s.1) < Nat.max 1 (max_entries cfg))%nat
  /\ (forall k e k' e', s.1 !! k = Some e -> evict cfg (size s.1) s.1 !! k = None ->
        evict cfg (size s.1) s.1 !! k' = Some e' -> last_accessed e <= last_accessed e').
Proof.
  intros H. assert (cache_sound s) as [Hsz Hs].
  { assert (cache_sound (∅, [])) as H0.
    { split; simpl; [rewrite map_size_empty; lia|]. intros k e Hk. by rewrite lookup_empty in Hk. }
    induction H; eauto using cache_step_sound. }
  split; [done|]. split; [|split; [by apply evict_size|intros; by eapply evict_lru]].
  unfold lookup_entry. destruct (s.1 !! key) as [e|] eqn:E; [|done].
  destruct (fresh cfg now e) eqn:F; [|done]. intros [= <-]. exists (created_at e).
  split; [by apply Hs|]. unfold fresh in F. by bool_to_prop.
Qed.
End Sound.

(** ** The wrapper as a provider *)
Section Transparency.
  Context {Value Decimal P : Type} `{!LlmProvider Value Decimal P}.
  Context (to_json : list (ChatMessage Value) -> option string) (sha256_hex : string -> string).
  Abbreviation CP := (CachedProvider P).

Lemma store_hit cfg c key t resp now :
  t <= now -> now - t < ttl cfg ->
  fst (lookup_entry cfg (store cfg c key t resp) key now) = Some resp.
Proof.
  intros Ht Hn. unfold lookup_entry, store. rewrite lookup_insert_eq. unfold fresh, duration_since.
  simpl. by rewrite (proj2 (Z.ltb_lt _ _)) by lia.
Qed.

(** Caching is transparent: a first call answers what the inner provider
    answers; if that is a response, repeating the request before [ttl] has
    passed since the first one started gives the same response at once
    without calling the provider again (whose model name must not have
    changed); an error is never cached, so the repeated request reaches the
    provider; and a response older than [ttl] is not served. *)
Theorem cached_complete_transparent (r : CompletionRequest Value) (cp : CP) (t now : Instant) :
  cache cp = ∅ -> t <= now ->
  let '(res, p', t') := complete r (inner cp) t in
  model_name p' = model_name (inner cp) ->
  exists cp', cached_complete to_json sha256_hex r cp t = (res, cp', t') /\ inner cp' = p'
  /\ match res with
     | Ok resp =>
         if now - t <? ttl (config cp)
         then exists cp'', cached_complete to_json sha256_hex r cp' now = (Ok resp, cp'', now) /\ inner cp'' = p'
         else exists cp'', fst (cached_complete to_json sha256_hex r cp' now) = (fst (fst (complete r p' now)), cp'')
                /\ inner cp'' = snd (fst (complete r p' now))
     | Err _ => cache cp' = ∅
     end.
Proof.
  intros Hc Htn. destruct (complete r (inner cp) t) as [[res p'] t'] eqn:E. intros Hm.
  unfold cached_complete at 1. set (key := cache_key _ _ _ _).
  unfold lookup_entry at 1. rewrite Hc, lookup_empty, E. destruct res as [resp|e].
  2: { eexists. split; [done|]. done. }
  eexists. split; [done|]. split; [done|].
  unfold cached_complete. cbn [inner cache config]. rewrite Hm. fold key.
  unfold lookup_entry, store. rewrite lookup_insert_eq. unfold fresh, duration_since. simpl.
  replace (Z.max 0 (now - t)) with (now - t) by lia.
  destruct (now - t <? ttl (config cp)) eqn:F; [by eexists|].
  destruct (complete r p' now) as [[[resp2|e2] p2] t2]; simpl; by eexists.
Qed.
End Transparency.

(** ** The key distinguishes stop sequences *)
Lemma nul_split s1 s2 r1 r2 :
  NUL ∉ String.list_ascii_of_string s1 -> NUL ∉ String.list_ascii_of_string s2 ->
  (s1 +:+ String NUL r1)%string = (s2 +:+ String NUL r2)%string -> s1 = s2 /\ r1 = r2.
Proof.
  revert s2. induction s1 as [|a s1 IH]; intros [|b s2]; simpl; intros H1 H2 H.
  - by simplify_eq.
  - simplify_eq. exfalso. apply H2. left.
  - simplify_eq. exfalso. apply H1. left.
  - apply not_elem_of_cons in H1 as [_ H1]. apply not_elem_of_cons in H2 as [_ H2].
    injection H as -> H. by destruct (IH s2 H1 H2 H) as [-> ->].
Qed.

Lemma stop_bytes_inj l1 l2 :
  Forall (fun s => NUL ∉ String.list_ascii_of_string s) l1 ->
  Forall (fun s => NUL ∉ String.list_ascii_of_string s) l2 ->
  stop_bytes l1 = stop_bytes l2 -> l1 = l2.
Proof.
  intros H1. revert l2. induction H1 as [|s l1 Hs H1 IH]; intros [|s' l2] H2 E; simpl in *.
  - done.
  - by destruct s'.
  - by destruct s.
  - inv H2. destruct (nul_split s s' (stop_bytes l1) (stop_bytes l2)) as [-> E']; try done.
    f_equal. by apply IH.
Qed.

Lemma string_app_inv_l (a b c : string) : (a +:+ b)%string = (a +:+ c)%string -> b = c.
Proof. induction a; simpl; intros; simplify_eq; auto. Qed.

Section KeyClaim.
  Context {Value : Type} (to_json : list (ChatMessage Value) -> option string).

(** Requests that differ only in their stop sequences are hashed from
    different bytes as long as no stop sequence contains a NUL byte; with one,
    two different lists may be hashed from the same bytes and so share a
    cached response. *)
Theorem key_separates_stops model ms mt temp md l1 l2 :
  let req l := mkRequest _ ms mt temp (Some l) md in
  (Forall (fun s => NUL ∉ String.list_ascii_of_string s) l1 ->
   Forall (fun s => NUL ∉ String.list_ascii_of_string s) l2 -> l1 <> l2 ->
   key_preimage to_json model (req l1) <> key_preimage to_json model (req l2))
  /\ key_preimage to_json model (req [("a" +:+ nul_string +:+ "b")%string])
     = key_preimage to_json model (req ["a"; "b"]%string).
Proof.
  intros req. split.
  - intros H1 H2 Hne E. apply Hne, stop_bytes_inj; [done|done|].
    unfold key_preimage in E. simpl in E. by do 8 apply string_app_inv_l in E.
  - reflexivity.
Qed.
End KeyClaim.

(** ** Witnesses *)
Record Echo := mkEcho { echo_calls : nat }.
#[export] Instance echo_provider : LlmProvider unit Z Echo :=
  fixed_provider "echo" 0 (fun _ p t =>
    (Ok (mkResponse "hi" 1 1 Stop None), mkEcho (S (echo_calls p)), t + 3)).
Definition sample_req : CompletionRequest unit := new_request [msg_user "hello"].
Definition no_json (_ : list (ChatMessage unit)) : option string := Some "[]"%string.

Lemma cache_bounded_and_sound_witness :
  (size (store (mkCacheConfig 10 2) ∅ "k" 5 (mkResponse "hi" 1 1 Stop None)) <= 2)%nat.
Proof.
  apply (cache_bounded_and_sound (mkCacheConfig 10 2)
    (store (mkCacheConfig 10 2) ∅ "k" 5 (mkResponse "hi" 1 1 Stop None),
     [("k"%string, mkResponse "hi" 1 1 Stop None, 5)]) "k" 6 (mkResponse "hi" 1 1 Stop None)).
  eapply rtc_l; [apply step_store|apply rtc_refl].
Defined.

Lemma cached_complete_transparent_witness :
  exists cp', cached_complete no_json id sample_req (new_cached (mkEcho 0) (mkCacheConfig 10 2)) 5
    = (Ok (mkResponse "hi" 1 1 Stop None), cp', 8) /\ inner cp' = mkEcho 1.
Proof.
  pose proof (cached_complete_transparent no_json id sample_req
    (new_cached (mkEcho 0) (mkCacheConfig 10 2)) 5 9 eq_refl) as H.
  destruct H as (cp' & H1 & H2 & _).
  - lia.
  - reflexivity.
  - exists cp'. split; [exact H1|exact H2].
Defined.
