(* ===== verification/Session.v ===== *)
(** Sessions, threads and turns: [src/agent/session.rs], and the part of the
    gateway's thread deletion that changes a session
    ([src/channels/web/server.rs]).

    A method that returns a reference to something it has just created is
    modelled by its effect; [expect] on a missing value, a panic in the code,
    is [None]. *)

From S2P Require Import Prelude Llm.

Inductive TurnState := TProcessing | TCompleted | TFailed | TInterrupted.
Inductive ThreadState := Idle | Processing | AwaitingApproval | ThreadCompleted | Interrupted.

#[export] Instance TurnState_eq_dec : EqDecision TurnState.
Proof. solve_decision. Defined.
#[export] Instance ThreadState_eq_dec : EqDecision ThreadState.
Proof. solve_decision. Defined.

Record TurnToolCall {Value : Type} := mkTurnToolCall {
  ttc_name : string;
  ttc_parameters : Value;
  ttc_result : option Value;
  ttc_error : option string;
}.
Arguments TurnToolCall : clear implicits.

Record Turn {Value : Type} := mkTurn {
  turn_number : nat;
  user_input : string;
  response : option string;
  turn_tool_calls : list (TurnToolCall Value);
  turn_state : TurnState;
  turn_started_at : DateTime;
  turn_completed_at : option DateTime;
  turn_error : option string;
}.
Arguments Turn : clear implicits.

Record PendingAuth := mkPendingAuth { extension_name : string }.

Record PendingApproval {Value : Type} := mkPendingApproval {
  request_id : Uuid;
  pa_tool_name : string;
  pa_parameters : Value;
  pa_description : string;
  pa_tool_call_id : string;
  context_messages : list (ChatMessage Value);
}.
Arguments PendingApproval : clear implicits.

Record Thread {Value : Type} := mkThread {
  thread_id : Uuid;
  session_id : Uuid;
  th_state : ThreadState;
  turns : list (Turn Value);
  th_created_at : DateTime;
  updated_at : DateTime;
  th_metadata : Value;
  pending_approval : option (PendingApproval Value);
  pending_auth : option PendingAuth;
  last_response_id : option string;
}.
Arguments Thread : clear implicits.

Record Session {Value : Type} := mkSession {
  sess_id : Uuid;
  sess_user_id : string;
  active_thread_id : option Uuid;
  threads : gmap Uuid (Thread Value);
  sess_created_at : DateTime;
  last_active_at : DateTime;
  sess_metadata : Value;
  auto_approved_tools : gset string;
}.
Arguments Session : clear implicits.

(** [last_mut] followed by a change of what it points to. *)
Fixpoint alter_last {A} (f : A -> A) (l : list A) : list A :=
  match l with
  | [] => []
  | [x] => [f x]
  | x :: l => x :: alter_last f l
  end.

(** ** Turns *)
Section Turns.
  Context {Value : Type}.
  Implicit Types t : Turn Value.

Definition new_turn (n : nat) (inp : string) (now : DateTime) : Turn Value :=
  mkTurn _ n inp None [] TProcessing now None None.
Definition turn_complete (resp : string) (now : DateTime) t : Turn Value :=
  mkTurn _ (turn_number t) (user_input t) (Some resp) (turn_tool_calls t) TCompleted
    (turn_started_at t) (Some now) (turn_error t).
Definition turn_fail (err : string) (now : DateTime) t : Turn Value :=
  mkTurn _ (turn_number t) (user_input t) (response t) (turn_tool_calls t) TFailed
    (turn_started_at t) (Some now) (Some err).
Definition turn_interrupt (now : DateTime) t : Turn Value :=
  mkTurn _ (turn_number t) (user_input t) (response t) (turn_tool_calls t) TInterrupted
    (turn_started_at t) (Some now) (turn_error t).
Definition set_tool_calls t (l : list (TurnToolCall Value)) : Turn Value :=
  mkTurn _ (turn_number t) (user_input t) (response t) l (turn_state t)
    (turn_started_at t) (turn_completed_at t) (turn_error t).
Definition record_tool_call t (name : string) (params : Value) : Turn Value :=
  set_tool_calls t (turn_tool_calls t ++ [mkTurnToolCall _ name params None None]).
Definition record_tool_result t (r : Value) : Turn Value :=
  set_tool_calls t (alter_last (fun c => mkTurnToolCall _ (ttc_name c) (ttc_parameters c)
    (Some r) (ttc_error c)) (turn_tool_calls t)).
Definition record_tool_error t (e : string) : Turn Value :=
  set_tool_calls t (alter_last (fun c => mkTurnToolCall _ (ttc_name c) (ttc_parameters c)
    (ttc_result c) (Some e)) (turn_tool_calls t)).
Definition set_number (n : nat) t : Turn Value :=
  mkTurn _ n (user_input t) (response t) (turn_tool_calls t) (turn_state t)
    (turn_started_at t) (turn_completed_at t) (turn_error t).
End Turns.

(** ** Threads *)
Section Threads.
  Context {Value : Type}.
  Implicit Types th : Thread Value.

Definition thread_with_id (id sid : Uuid) (now : DateTime) (null : Value) : Thread Value :=
  mkThread _ id sid Idle [] now now null None None None.
Definition new_thread (fresh sid : Uuid) (now : DateTime) (null : Value) : Thread Value :=
  mkThread _ fresh sid Idle [] now now null None None None.
Definition thread_turn_number th : nat := length (turns th) + 1.
Definition last_turn th : option (Turn Value) := last (turns th).

(** [self.state = s; self.turns = l; self.updated_at = u; self.pending_approval = p]. *)
Definition set_thread th (s : ThreadState) (l : list (Turn Value)) (u : DateTime)
    (p : option (PendingApproval Value)) : Thread Value :=
  mkThread _ (thread_id th) (session_id th) s l (th_created_at th) u (th_metadata th) p
    (pending_auth th) (last_response_id th).
Definition set_auth th (a : option PendingAuth) (u : DateTime) : Thread Value :=
  mkThread _ (thread_id th) (session_id th) (th_state th) (turns th) (th_created_at th) u
    (th_metadata th) (pending_approval th) a (last_response_id th).

Definition start_turn (inp : string) (now : DateTime) th : Thread Value :=
  set_thread th Processing (turns th ++ [new_turn (length (turns th)) inp now]) now
    (pending_approval th).
Definition complete_turn (resp : string) (now : DateTime) th : Thread Value :=
  set_thread th Idle (alter_last (turn_complete resp now) (turns th)) now (pending_approval th).
Definition fail_turn (err : string) (now : DateTime) th : Thread Value :=
  set_thread th Idle (alter_last (turn_fail err now) (turns th)) now (pending_approval th).
Definition await_approval (p : PendingApproval Value) (now : DateTime) th : Thread Value :=
  set_thread th AwaitingApproval (turns th) now (Some p).
Definition take_pending_approval th : option (PendingApproval Value) * Thread Value :=
  (pending_approval th, set_thread th (th_state th) (turns th) (updated_at th) None).
Definition clear_pending_approval (now : DateTime) th : Thread Value :=
  set_thread th Idle (turns th) now None.
Definition enter_auth_mode (ext : string) (now : DateTime) th : Thread Value :=
  set_auth th (Some (mkPendingAuth ext)) now.
Definition take_pending_auth th : option PendingAuth * Thread Value :=
  (pending_auth th, set_auth th None (updated_at th)).
Definition interrupt (now : DateTime) th : Thread Value :=
  set_thread th Interrupted (alter_last (turn_interrupt now) (turns th)) now
    (pending_approval th).
Definition resume (now : DateTime) th : Thread Value :=
  if decide (th_state th = Interrupted)
  then set_thread th Idle (turns th) now (pending_approval th) else th.

(** [Thread::messages]. *)
Definition turn_messages (t : Turn Value) : list (ChatMessage Value) :=
  msg_user (user_input t) :: match response t with Some r => [msg_assistant r] | None => [] end.
Definition messages th : list (ChatMessage Value) := turns th ≫= turn_messages.

(** [Thread::truncate_turns]: the oldest turns go, the rest are renumbered. *)
Fixpoint renumber (n : nat) (l : list (Turn Value)) : list (Turn Value) :=
  match l with [] => [] | t :: l => set_number n t :: renumber (S n) l end.
Definition truncate_turns (keep : nat) th : Thread Value :=
  if (keep <? length (turns th))%nat
  then set_thread th (th_state th)
         (renumber 0 (drop (length (turns th) - keep) (turns th))) (updated_at th)
         (pending_approval th)
  else th.

(** The loop of [Thread::restore_from_messages]. *)
Fixpoint restore_turns (n : nat) (now : DateTime) (ms : list (ChatMessage Value)) :
    list (Turn Value) :=
  match ms with
  | [] => []
  | m :: rest =>
      if decide (role m = User) then
        match rest with
        | a :: rest' =>
            if decide (role a = Assistant)
            then turn_complete (content a) now (new_turn n (content m) now)
                   :: restore_turns (S n) now rest'
            else new_turn n (content m) now :: restore_turns (S n) now rest
        | [] => [new_turn n (content m) now]
        end
      else restore_turns n now rest
  end.
Definition restore_from_messages (ms : list (ChatMessage Value)) (now : DateTime) th :
    Thread Value :=
  set_thread th Idle (restore_turns 0 now ms) now (pending_approval th).
End Threads.

(** ** Sessions *)
Section Sessions.
  Context {Value : Type}.
  Abbreviation Sess := (Session Value).
  Implicit Types s : Sess.

Definition new_session (id : Uuid) (now : DateTime) (null : Value) (user : string) : Sess :=
  mkSession _ id user None ∅ now now null ∅.
Definition is_tool_auto_approved s (tool : string) : bool :=
  bool_decide (tool ∈ auto_approved_tools s).
Definition auto_approve_tool (tool : string) s : Sess :=
  mkSession _ (sess_id s) (sess_user_id s) (active_thread_id s) (threads s) (sess_created_at s)
    (last_active_at s) (sess_metadata s) ({[tool]} ∪ auto_approved_tools s).
Definition set_threads s (act : option Uuid) (l : gmap Uuid (Thread Value)) (now : DateTime) : Sess :=
  mkSession _ (sess_id s) (sess_user_id s) act l (sess_created_at s) now (sess_metadata s)
    (auto_approved_tools s).

Definition create_thread (fresh : Uuid) (now : DateTime) (null : Value) s : Thread Value * Sess :=
  let th := new_thread fresh (sess_id s) now null in
  (th, set_threads s (Some (thread_id th)) (<[thread_id th := th]> (threads s)) now).
Definition active_thread s : option (Thread Value) := active_thread_id s ≫= fun id => threads s !! id.
Definition get_or_create_thread (fresh : Uuid) (now : DateTime) (null : Value) s :
    option (Thread Value) * Sess :=
  let s := match active_thread_id s with
           | None => snd (create_thread fresh now null s)
           | Some _ => s
           end in
  (active_thread s, s).
Definition switch_thread (id : Uuid) (now : DateTime) s : bool * Sess :=
  match threads s !! id with
  | Some _ => (true, set_threads s (Some id) (threads s) now)
  | None => (false, s)
  end.

(** A change of one thread through [threads.get_mut]. *)
Definition update_thread (id : Uuid) (f : Thread Value -> Thread Value) s : Sess :=
  set_threads s (active_thread_id s) (alter f id (threads s)) (last_active_at s).

(** The gateway's [chat_delete_thread_handler] and [chat_clear_threads_handler]
    on the session: [assistant] is what the store returned for the user's
    assistant conversation, [None] without a store (or on an error). *)
Definition delete_thread (id : Uuid) (has_store : bool) (assistant : option Uuid) s : Sess :=
  let l := delete id (threads s) in
  let act := if decide (active_thread_id s = Some id)
             then if has_store then assistant else fst <$> head (map_to_list l)
             else active_thread_id s in
  set_threads s act l (last_active_at s).
Definition clear_threads (has_store : bool) (assistant : option Uuid) s : Sess :=
  set_threads s (if has_store then assistant else None) ∅ (last_active_at s).
End Sessions.

(** ** Lemmas *)
Lemma alter_last_snoc {A} (f : A -> A) l x : alter_last f (l ++ [x]) = l ++ [f x].
Proof.
  induction l as [|y l IH]; [done|]. simpl. rewrite IH.
  destruct l; done.
Qed.

Lemma alter_last_length {A} (f : A -> A) l : length (alter_last f l) = length l.
Proof.
  destruct l as [|x l] using rev_ind; [done|]. by rewrite alter_last_snoc, !length_app.
Qed.

Lemma alter_last_map {A B} (g : A -> B) (f : A -> A) l :
  (forall x, g (f x) = g x) -> map g (alter_last f l) = map g l.
Proof.
  intros Hg. destruct l as [|x l] using rev_ind; [done|].
  rewrite alter_last_snoc, !map_app. simpl. by rewrite Hg.
Qed.

Section ThreadFacts.
  Context {Value : Type}.
  Implicit Types th : Thread Value.

(** Turns are numbered from 0 in order. *)
Definition numbered (l : list (Turn Value)) : Prop := map turn_number l = seq 0 (length l).

Lemma numbered_alter_last f l :
  (forall t, turn_number (f t) = turn_number t) -> numbered l -> numbered (alter_last f l).
Proof. unfold numbered. intros Hf H. by rewrite alter_last_map, alter_last_length. Qed.

Lemma renumber_spec n l :
  map turn_number (renumber n l) = seq n (length l)
  /\ length (renumber n l) = length l
  /\ (renumber n l ≫= turn_messages) = ((l : list (Turn Value)) ≫= turn_messages).
Proof.
  revert n. induction l as [|t l IH]; intros n; [done|].
  cbn [renumber map length seq]. rewrite !bind_cons.
  by destruct (IH (S n)) as (-> & -> & ->).
Qed.

Lemma restore_turns_cons n now (m : ChatMessage Value) rest :
  restore_turns n now (m :: rest) =
  if decide (role m = User) then
    match rest with
    | a :: rest' =>
        if decide (role a = Assistant)
        then turn_complete (content a) now (new_turn n (content m) now)
               :: restore_turns (S n) now rest'
        else new_turn n (content m) now :: restore_turns (S n) now rest
    | [] => [new_turn n (content m) now]
    end
  else restore_turns n now rest.
Proof. reflexivity. Qed.

Lemma restore_turns_number n now (ms : list (ChatMessage Value)) :
  map turn_number (restore_turns n now ms) = seq n (length (restore_turns n now ms)).
Proof.
  revert n. induction ms as [[|m rest] IH] using list_length_ind; intros n; [done|].
  rewrite restore_turns_cons. destruct (decide (role m = User)); [|apply IH; simpl; lia].
  destruct rest as [|a rest']; [done|].
  destruct (decide (role a = Assistant)); cbn [map length seq]; f_equal; apply IH; simpl; lia.
Qed.

(** The conversation of a list of turns: inputs with their responses. *)
Definition exchange (t : Turn Value) : string * option string := (user_input t, response t).

Lemma restore_turns_messages n now (l : list (Turn Value)) :
  map exchange (restore_turns n now (l ≫= turn_messages)) = map exchange l.
Proof.
  revert n. induction l as [|t l IH]; intros n; [done|].
  rewrite bind_cons. cbn [map]. rewrite <- (IH (S n)).
  destruct t as [k inp [r|] ? ? ? ? ?]; unfold turn_messages at 1; cbn [user_input response app];
    rewrite restore_turns_cons; [done|].
  destruct l as [|t' l]; done.
Qed.

Lemma exchange_messages (l l' : list (Turn Value)) :
  map exchange l = map exchange l' -> (l ≫= turn_messages) = (l' ≫= turn_messages).
Proof.
  revert l'. induction l as [|t l IH]; intros [|t' l'] H; try done.
  cbn [map] in H. injection H as Hi Hr H. rewrite !bind_cons, (IH l') by done.
  unfold turn_messages at 1 3. by rewrite Hi, Hr.
Qed.

Lemma restored_messages th th' now :
  messages (restore_from_messages (messages th) now th') = messages th.
Proof. apply exchange_messages, restore_turns_messages. Qed.

(** The operations a thread goes through. *)
Inductive thread_step : Thread Value -> Thread Value -> Prop :=
| ts_start i now th : thread_step th (start_turn i now th)
| ts_complete r now th : thread_step th (complete_turn r now th)
| ts_fail e now th : thread_step th (fail_turn e now th)
| ts_await p now th : thread_step th (await_approval p now th)
| ts_take th : thread_step th (snd (take_pending_approval th))
| ts_clear now th : thread_step th (clear_pending_approval now th)
| ts_auth e now th : thread_step th (enter_auth_mode e now th)
| ts_take_auth th : thread_step th (snd (take_pending_auth th))
| ts_interrupt now th : thread_step th (interrupt now th)
| ts_resume now th : thread_step th (resume now th)
| ts_truncate k th : thread_step th (truncate_turns k th)
| ts_restore ms now th : thread_step th (restore_from_messages ms now th).

(** A finished turn is stamped, a completed one has its response, a failed one
    its error. *)
Definition turn_wf (t : Turn Value) : Prop :=
  (turn_completed_at t = None <-> turn_state t = TProcessing)
  /\ (turn_state t = TCompleted -> is_Some (response t))
  /\ (turn_state t = TFailed -> is_Some (turn_error t)).

Definition thread_wf th : Prop :=
  numbered (turns th) /\ Forall turn_wf (turns th) /\ th_state th <> ThreadCompleted.

Lemma Forall_alter_last f (l : list (Turn Value)) :
  (forall t, turn_wf (f t)) -> Forall turn_wf l -> Forall turn_wf (alter_last f l).
Proof.
  intros Hf H. destruct l as [|x l] using rev_ind; [done|].
  rewrite alter_last_snoc. apply Forall_app in H as [H _]. apply Forall_app; auto.
Qed.

Lemma turn_complete_wf r now t : turn_wf (turn_complete r now t).
Proof. repeat split; simpl; naive_solver. Qed.
Lemma turn_fail_wf e now t : turn_wf (turn_fail e now t).
Proof. repeat split; simpl; naive_solver. Qed.
Lemma turn_interrupt_wf now t : turn_wf (turn_interrupt now t).
Proof. repeat split; simpl; naive_solver. Qed.
Lemma new_turn_wf n i now : turn_wf (new_turn n i now).
Proof. repeat split; simpl; naive_solver. Qed.
Hint Resolve turn_complete_wf turn_fail_wf turn_interrupt_wf new_turn_wf : claw.

Lemma restore_turns_wf n now (ms : list (ChatMessage Value)) :
  Forall turn_wf (restore_turns n now ms).
Proof.
  revert n. induction ms as [[|m rest] IH] using list_length_ind; intros n; [constructor|].
  rewrite restore_turns_cons. destruct (decide (role m = User)); [|apply IH; simpl; lia].
  destruct rest as [|a rest']; [auto with claw|].
  destruct (decide (role a = Assistant)); constructor; auto with claw; apply IH; simpl; lia.
Qed.

Lemma renumber_wf n (l : list (Turn Value)) : Forall turn_wf l -> Forall turn_wf (renumber n l).
Proof. intros H. revert n. induction H; intros n; simpl; constructor; auto. Qed.

Lemma numbered_snoc (l : list (Turn Value)) i now :
  numbered l -> numbered (l ++ [new_turn (length l) i now]).
Proof.
  unfold numbered. intros H. rewrite map_app, length_app, H. simpl. by rewrite seq_app.
Qed.

Lemma thread_step_wf th th' : thread_step th th' -> thread_wf th -> thread_wf th'.
Proof.
  intros Hstep (Hn & Hw & Hc).
  destruct Hstep as [i now th|r now th|e now th| | | | | |now th|now th|k th|ms now th];
    unfold thread_wf; simpl; try (repeat split; done).
  - repeat split; try done; [by apply numbered_snoc|apply Forall_app; auto with claw].
  - repeat split; try done; [by apply numbered_alter_last|].
    apply Forall_alter_last; auto with claw.
  - repeat split; try done; [by apply numbered_alter_last|].
    apply Forall_alter_last; auto with claw.
  - repeat split; try done; [by apply numbered_alter_last|].
    apply Forall_alter_last; auto with claw.
  - unfold resume. case_decide; simpl; repeat split; done.
  - unfold truncate_turns. destruct (Nat.ltb_spec k (length (turns th))); [|done]. simpl.
    set (l := drop _ _). destruct (renumber_spec 0 l) as (H1 & H2 & _).
    repeat split; try done.
    + unfold numbered. by rewrite H1, H2.
    + by apply renumber_wf, Forall_drop.
  - repeat split; try done; [apply restore_turns_number|apply restore_turns_wf].
Qed.
End ThreadFacts.

(** ** Session pointers *)
Section SessionFacts.
  Context {Value : Type}.
  Implicit Types s : Session Value.

Definition session_wf s : Prop :=
  (forall id, active_thread_id s = Some id -> is_Some (threads s !! id))
  /\ (forall id th, threads s !! id = Some th -> thread_id th = id /\ session_id th = sess_id s).

Lemma create_thread_wf fresh now null s : session_wf s -> session_wf (snd (create_thread fresh now null s)).
Proof.
  intros [H1 H2]. split; simpl.
  - intros id [= <-]. rewrite lookup_insert_eq. eauto.
  - intros id th. destruct (decide (fresh = id)) as [->|Hne].
    + rewrite lookup_insert_eq. by intros [= <-].
    + rewrite lookup_insert_ne by done. apply H2.
Qed.

Lemma switch_thread_wf id now s : session_wf s -> session_wf (snd (switch_thread id now s)).
Proof.
  intros [H1 H2]. unfold switch_thread. destruct (threads s !! id) eqn:E; simpl; [|done].
  split; simpl; [|done]. intros id' [= <-]. eauto.
Qed.

Lemma lookup_update_thread id f s :
  threads (update_thread id f s) !! id = f <$> threads s !! id.
Proof. simpl. by rewrite lookup_alter, decide_True. Qed.

Lemma update_thread_wf id f s :
  (forall th, thread_id (f th) = thread_id th /\ session_id (f th) = session_id th) ->
  session_wf s -> session_wf (update_thread id f s).
Proof.
  intros Hf [H1 H2]. split; simpl.
  - intros id' Hid. rewrite lookup_alter. case_decide; [|by apply H1].
    subst. by apply fmap_is_Some, H1.
  - intros id' th'. rewrite lookup_alter. case_decide; [subst|apply H2].
    rewrite fmap_Some. intros (th & Hth & ->). rewrite !(proj1 (Hf th)), !(proj2 (Hf th)).
    by apply H2.
Qed.

Lemma delete_thread_wf id s : session_wf s -> session_wf (delete_thread id false None s).
Proof.
  intros [H1 H2]. split; simpl.
  - intros id'. case_decide as Hd.
    + destruct (map_to_list (delete id (threads s))) as [|[k th] l] eqn:E; [done|].
      simpl. intros [= <-]. exists th. apply elem_of_map_to_list. rewrite E. left.
    + intros Hid. rewrite lookup_delete_ne by congruence. by apply H1.
  - intros id' th [_ H]%lookup_delete_Some. by apply H2.
Qed.

Lemma clear_threads_wf s : session_wf (clear_threads false None s).
Proof. split; simpl; [done|]. intros id th H. by rewrite lookup_empty in H. Qed.
End SessionFacts.

(** ** Properties *)
Section Claims.
  Context {Value : Type}.
  Implicit Types th : Thread Value.
  Implicit Types s : Session Value.

(** C20. Every thread reachable from a new one by the methods of [Thread], in
    any order, numbers its turns 0, 1, 2, ... without gaps (also after
    truncation and after a restore), stamps exactly its finished turns, keeps
    the response of completed and the error of failed ones, and never enters
    the state [Completed], which no method sets. *)
Theorem thread_invariant id sid now null th :
  rtc thread_step (thread_with_id id sid now null) th -> thread_wf th.
Proof.
  intros H. assert (thread_wf (thread_with_id id sid now null)) as H0.
  { by repeat split. }
  induction H; eauto using thread_step_wf.
Qed.

(** C21. Restoring a thread from the messages it produced gives back its
    conversation: the same inputs with the same responses, in order, hence
    the same messages; and truncation keeps exactly the newest exchanges. *)
Theorem restore_messages_roundtrip th now keep :
  map exchange (turns (restore_from_messages (messages th) now th)) = map exchange (turns th)
  /\ messages (restore_from_messages (messages th) now th) = messages th
  /\ map exchange (turns (truncate_turns keep th)) = keep_last keep (map exchange (turns th)).
Proof.
  split; [apply restore_turns_messages|].
  split; [apply restored_messages|].
  unfold truncate_turns, keep_last. rewrite length_map.
  destruct (Nat.ltb_spec keep (length (turns th))); simpl.
  - rewrite skipn_map. generalize (drop (length (turns th) - keep) (turns th)) as l.
    generalize 0%nat as n. intros n l. revert n. induction l as [|t l IH]; intros n; [done|].
    simpl. by rewrite IH.
  - by replace (length (turns th) - keep)%nat with 0%nat by lia.
Qed.

(** The active-thread pointer: creating, switching and updating threads,
    and deleting them in the gateway without a store, keep it valid and keep
    every thread filed under its own id; under this invariant
    [get_or_create_thread] never panics, returns the active thread and keeps
    the invariant. *)
Theorem session_pointer_valid s :
  session_wf s ->
  (forall f now null, session_wf (snd (create_thread f now null s)))
  /\ (forall id now, session_wf (snd (switch_thread id now s))
        /\ fst (switch_thread id now s) = bool_decide (is_Some (threads s !! id)))
  /\ (forall id f, (forall th, thread_id (f th) = thread_id th /\ session_id (f th) = session_id th) ->
        session_wf (update_thread id f s))
  /\ (forall id, session_wf (delete_thread id false None s)) /\ session_wf (clear_threads false None s)
  /\ (forall f now null, exists th s', get_or_create_thread f now null s = (Some th, s')
        /\ active_thread_id s' = Some (thread_id th) /\ session_wf s').
Proof.
  intros Hwf. split; [intros; by apply create_thread_wf|].
  split. { intros. split; [by apply switch_thread_wf|]. unfold switch_thread.
           by destruct (threads s !! id). }
  split; [intros; by apply update_thread_wf|].
  split; [intros; by apply delete_thread_wf|]. split; [apply clear_threads_wf|].
  intros f now null. unfold get_or_create_thread, active_thread.
  destruct (active_thread_id s) as [id|] eqn:E.
  - destruct (proj1 Hwf id E) as [th Hth]. rewrite E. simpl. rewrite Hth.
    exists th, s. destruct (proj2 Hwf id th Hth) as [-> _]. done.
  - simpl. rewrite lookup_insert_eq. do 2 eexists. split; [done|]. split; [done|].
    by apply create_thread_wf.
Qed.

(** With a store the gateway's deletion handlers break that pointer: after
    all threads are cleared, and after the active thread is deleted while the
    assistant conversation is not loaded, the active thread is an id that is
    not among the threads, so there is no active thread to return and
    [get_or_create_thread] panics. *)
Theorem gateway_delete_dangles s id a f now null :
  active_thread_id s = Some id -> threads s !! a = None ->
  (active_thread_id (clear_threads true (Some a) s) = Some a
   /\ fst (get_or_create_thread f now null (clear_threads true (Some a) s)) = None)
  /\ (active_thread_id (delete_thread id true (Some a) s) = Some a
      /\ fst (get_or_create_thread f now null (delete_thread id true (Some a) s)) = None).
Proof.
  intros Hact Ha. unfold get_or_create_thread, active_thread, clear_threads, delete_thread. simpl.
  rewrite decide_True by done. simpl. rewrite lookup_empty. repeat split; try done.
  apply lookup_delete_None. by right.
Qed.
End Claims.

(** ** Witnesses *)
Definition sample_thread : Thread unit :=
  complete_turn "hi" 3 (start_turn "hello" 2 (thread_with_id 4%N 1%N 0 tt)).
Definition sample_session : Session unit :=
  snd (create_thread 4%N 2 tt (new_session 1%N 0 tt "alice")).

Lemma thread_invariant_witness : thread_wf sample_thread.
Proof.
  apply (thread_invariant 4%N 1%N 0 tt sample_thread).
  eapply rtc_l; [apply ts_start|]. eapply rtc_l; [apply ts_complete|]. apply rtc_refl.
Defined.

Lemma session_pointer_valid_witness :
  exists th s', get_or_create_thread 9%N 5 tt sample_session = (Some th, s').
Proof.
  destruct (session_pointer_valid sample_session) as (_ & _ & _ & _ & _ & H).
  - split; simpl.
    + intros id [= <-]. vm_compute. eauto.
    + intros id th Hl. apply lookup_insert_Some in Hl as [[<- <-]|[_ Hl]]; [done|].
      by rewrite lookup_empty in Hl.
  - destruct (H 9%N 5 tt) as (th & s' & E & _). exists th, s'. exact E.
Defined.

Lemma gateway_delete_dangles_witness :
  fst (get_or_create_thread 9%N 5 tt (clear_threads true (Some 8%N) sample_session)) = None.
Proof.
  apply (gateway_delete_dangles sample_session 4%N 8%N 9%N 5 tt).
  - reflexivity.
  - reflexivity.
Defined.
