(* ===== verification/Submission.v ===== *)
(** Submissions, their results and the parser of user input:
    [src/agent/submission.rs].

    [Uuid::parse_str] and [serde_json::from_str] are parameters. *)

From S2P Require Import Prelude Strs.
#[local] Open Scope claw_scope.

Inductive Submission :=
| UserInput (content : string)
| ExecApproval (request_id : Uuid) (approved always : bool)
| ApprovalResponse (approved always : bool)
| SubInterrupt
| Compact
| SubUndo
| SubRedo
| SubResume (checkpoint_id : Uuid)
| Clear
| SwitchThread (thread_id : Uuid)
| NewThread
| Heartbeat
| Summarize
| Suggest
| Quit
| SystemCommand (command : string) (args : list string).

Definition starts_turn (s : Submission) : bool :=
  match s with UserInput _ => true | _ => false end.
Definition is_control (s : Submission) : bool :=
  match s with
  | SubInterrupt | Compact | SubUndo | SubRedo | Clear | NewThread | Heartbeat | Summarize
  | Suggest | SystemCommand _ _ => true
  | _ => false
  end.

Inductive SubmissionResult {Value : Type} :=
| SResponse (content : string)
| SNeedApproval (request_id : Uuid) (tool_name description : string) (parameters : Value)
| SOk (message : option string)
| SError (message : string)
| SInterrupted.
Arguments SubmissionResult : clear implicits.

(** ** The parser *)
Section Parser.
  Context (uuid_parse : string -> option Uuid) (from_json : string -> option Submission).

Definition str_in (s : string) (l : list string) : bool := existsb (String.eqb s) l.
Definition args_of (trimmed : string) : list string := drop 1 (split_whitespace trimmed).

(** The commands without arguments. *)
Definition simple_command (lower : string) : option Submission :=
  if String.eqb lower "/undo" then Some SubUndo
  else if String.eqb lower "/redo" then Some SubRedo
  else if str_in lower ["/interrupt"; "/stop"]%string then Some SubInterrupt
  else if String.eqb lower "/compact" then Some Compact
  else if String.eqb lower "/clear" then Some Clear
  else if String.eqb lower "/heartbeat" then Some Heartbeat
  else if str_in lower ["/summarize"; "/summary"]%string then Some Summarize
  else if String.eqb lower "/suggest" then Some Suggest
  else if str_in lower ["/thread new"; "/new"]%string then Some NewThread
  else if str_in lower ["/help"; "/?"]%string then Some (SystemCommand "help" [])
  else if String.eqb lower "/version" then Some (SystemCommand "version" [])
  else if String.eqb lower "/tools" then Some (SystemCommand "tools" [])
  else if String.eqb lower "/ping" then Some (SystemCommand "ping" [])
  else if String.eqb lower "/debug" then Some (SystemCommand "debug" [])
  else None.

Definition thread_command (lower : string) : option Submission :=
  match strip_prefix lower "/thread " with
  | Some rest =>
      let rest := trim rest in
      if String.eqb rest "new" then None else SwitchThread <$> uuid_parse rest
  | None => None
  end.
Definition resume_command (lower : string) : option Submission :=
  match strip_prefix lower "/resume " with
  | Some rest => SubResume <$> uuid_parse (trim rest)
  | None => None
  end.
Definition json_approval (trimmed : string) : option Submission :=
  if starts_with trimmed "{" then
    match from_json trimmed with
    | Some (ExecApproval r a w) => Some (ExecApproval r a w)
    | _ => None
    end
  else None.
Definition approval_word (lower : string) : option Submission :=
  if str_in lower ["yes"; "y"; "approve"; "ok"]%string then Some (ApprovalResponse true false)
  else if str_in lower ["always"; "yes always"; "approve always"]%string then Some (ApprovalResponse true true)
  else if str_in lower ["no"; "n"; "deny"; "reject"; "cancel"]%string then Some (ApprovalResponse false false)
  else None.

(** The tests in the order of the code; the first that answers wins. *)
Definition parse (content : string) : Submission :=
  let trimmed := trim content in
  let lower := to_lowercase trimmed in
  match simple_command lower with
  | Some s => s
  | None =>
  if starts_with lower "/model" then SystemCommand "model" (args_of trimmed)
  else if starts_with lower "/kernel" then SystemCommand "kernel" (args_of trimmed)
  else if str_in lower ["/quit"; "/exit"; "/shutdown"]%string then Quit
  else match thread_command lower with
  | Some s => s
  | None =>
  match resume_command lower with
  | Some s => s
  | None =>
  match json_approval trimmed with
  | Some s => s
  | None =>
  match approval_word lower with
  | Some s => s
  | None => UserInput content
  end end end end end.

(** ** Lemmas *)
(** What a text that does not start with a slash cannot be. *)
Lemma lower_no_slash s : starts_with s "/" = false -> starts_with (to_lowercase s) "/" = false.
Proof.
  destruct s as [|c s]; [done|]. unfold starts_with.
  destruct s; by destruct c as [[] [] [] [] [] [] [] []].
Qed.

Lemma no_slash_neq s t : starts_with s "/" = false -> starts_with t "/" = true -> String.eqb s t = false.
Proof. intros Hs Ht. apply String.eqb_neq. intros ->. congruence. Qed.

Lemma no_slash_prefix s pre : starts_with s "/" = false -> starts_with pre "/" = true -> strip_prefix s pre = None.
Proof.
  intros Hs Hp. destruct (strip_prefix s pre) as [r|] eqn:E; [|done]. apply strip_prefix_spec in E as ->.
  apply starts_with_spec in Hp as [r' ->]. apply not_true_iff_false in Hs. destruct Hs.
  apply starts_with_spec. exists (r' ++s r). by rewrite append_assoc_str.
Qed.

Lemma no_slash_starts s pre : starts_with s "/" = false -> starts_with pre "/" = true -> starts_with s pre = false.
Proof.
  intros Hs Hp. apply not_true_iff_false. intros H. apply starts_with_spec in H as [r Hr].
  apply strip_prefix_spec in Hr. by rewrite no_slash_prefix in Hr.
Qed.

Lemma no_slash_not_in s l : starts_with s "/" = false -> Forall (fun t => starts_with t "/" = true) l -> str_in s l = false.
Proof. intros Hs. induction 1 as [|t l Ht _ IH]; simpl; [done|]. by rewrite no_slash_neq, IH. Qed.

Lemma simple_command_no_slash lower : starts_with lower "/" = false -> simple_command lower = None.
Proof.
  intros H. unfold simple_command.
  repeat first [rewrite no_slash_neq by done | rewrite no_slash_not_in by (done || by repeat constructor)]. done.
Qed.

Lemma simple_command_shape lower s : simple_command lower = Some s ->
  is_control s = true /\ starts_with lower "/" = true.
Proof.
  intros H. split.
  - unfold simple_command in H. repeat (destruct (String.eqb _ _) || destruct (str_in _ _)); by simplify_eq.
  - destruct (starts_with lower "/") eqn:E; [done|]. by rewrite simple_command_no_slash in H.
Qed.

Lemma fmap_ctor {A B} (f : A -> B) (o : option A) s : f <$> o = Some s -> exists a, s = f a.
Proof. destruct o; simpl; [intros [= <-]; by eexists|done]. Qed.

Lemma thread_command_shape lower s : thread_command lower = Some s -> exists id, s = SwitchThread id.
Proof. unfold thread_command. repeat case_match; try done. apply fmap_ctor. Qed.
Lemma resume_command_shape lower s : resume_command lower = Some s -> exists id, s = SubResume id.
Proof. unfold resume_command. repeat case_match; try done. apply fmap_ctor. Qed.
Lemma json_approval_shape t s : json_approval t = Some s ->
  starts_with t "{" = true /\ from_json t = Some s /\ exists r a w, s = ExecApproval r a w.
Proof. unfold json_approval. repeat case_match; try done. intros [= <-]. eauto 6. Qed.
Lemma approval_word_shape lower s : approval_word lower = Some s -> exists a w, s = ApprovalResponse a w.
Proof. unfold approval_word. repeat case_match; try done; intros [= <-]; by eexists _, _. Qed.

(** ** Properties *)

(** The parser is total and keeps user text as it is.  Text that does
    not begin (after white space) with a slash or a brace and is none of the
    twelve approval words becomes [UserInput] with exactly the bytes that
    were typed; whatever becomes [UserInput] is the original content; the
    only submission that JSON can produce is an [ExecApproval]; and white
    space around a message, and the case of a command, change nothing but
    the text of a [UserInput]. *)
Theorem parse_spec content :
  (starts_with (trim content) "/" = false -> starts_with (trim content) "{" = false ->
     parse content = match approval_word (to_lowercase (trim content)) with
                     | Some s => s
                     | None => UserInput content
                     end)
  /\ (forall x, parse content = UserInput x -> x = content)
  /\ (forall r a w, parse content = ExecApproval r a w ->
        starts_with (trim content) "{" = true /\ from_json (trim content) = Some (ExecApproval r a w))
  /\ (forall before after, all_ws before -> all_ws after ->
        parse (before ++s content ++s after) = parse content
        \/ (parse content = UserInput content
            /\ parse (before ++s content ++s after) = UserInput (before ++s content ++s after)))
  /\ (forall s other, simple_command (to_lowercase (trim content)) = Some s ->
        to_lowercase (trim other) = to_lowercase (trim content) -> parse other = s).
Proof.
  split_and!.
  - intros Hs Hb. apply lower_no_slash in Hs. unfold parse.
    rewrite simple_command_no_slash by done. rewrite !no_slash_starts by done.
    rewrite no_slash_not_in by (done || by repeat constructor).
    unfold thread_command, resume_command, json_approval. by rewrite !no_slash_prefix, Hb by done.
  - intros x. unfold parse. destruct (simple_command _) eqn:E1.
    { apply simple_command_shape in E1 as [H _]. by intros ->. }
    repeat (case_match; try done; try (by intros [= <-])); intros ->;
      repeat match goal with
      | H : thread_command _ = Some _ |- _ => by apply thread_command_shape in H as [? ?]
      | H : resume_command _ = Some _ |- _ => by apply resume_command_shape in H as [? ?]
      | H : json_approval _ = Some _ |- _ => by apply json_approval_shape in H as (_ & _ & ? & ? & ? & ?)
      | H : approval_word _ = Some _ |- _ => by apply approval_word_shape in H as (? & ? & ?)
      end.
  - intros r a w. unfold parse. destruct (simple_command _) eqn:E1.
    { apply simple_command_shape in E1 as [H _]. by intros ->. }
    repeat (case_match; try done); intros ->;
      match goal with
      | H : thread_command _ = Some _ |- _ => by apply thread_command_shape in H as [? ?]
      | H : resume_command _ = Some _ |- _ => by apply resume_command_shape in H as [? ?]
      | H : json_approval _ = Some _ |- _ => by apply json_approval_shape in H as (? & ? & _)
      | H : approval_word _ = Some _ |- _ => by apply approval_word_shape in H as (? & ? & ?)
      end.
  - intros before after Hb Ha. unfold parse. rewrite trim_pad by done.
    repeat (case_match; try by left). by right.
  - intros s other H1 H2. unfold parse. by rewrite H2, H1.
Qed.
End Parser.

Example parse_demo :
  let p := parse (fun _ => None) (fun _ => None) in
  p "  /UNDO " = SubUndo /\ p "/model gpt-4o" = SystemCommand "model" ["gpt-4o"]
  /\ p " Yes" = ApprovalResponse true false /\ p " hello " = UserInput " hello "
  /\ p "/unknown" = UserInput "/unknown".
Proof. vm_compute. split_and!; reflexivity. Qed.
