(* ===== verification/Undo.v ===== *)
(** Undo and redo: [src/agent/undo.rs] and the commands of
    [src/agent/thread_ops.rs] that use it.

    The undo deque is a list with its oldest checkpoint first; a checkpoint's
    fresh id is an argument.  A command works on the session and on the
    thread's undo manager, which the session manager hands out. *)

From S2P Require Import Prelude Llm Session Submission.

Definition DEFAULT_MAX_CHECKPOINTS : nat := 20.

Record Checkpoint {Value : Type} := mkCheckpoint {
  cp_id : Uuid;
  cp_turn_number : nat;
  cp_messages : list (ChatMessage Value);
  cp_description : string;
}.
Arguments Checkpoint : clear implicits.

Record UndoManager {Value : Type} := mkUndo {
  undo_stack : list (Checkpoint Value);
  redo_stack : list (Checkpoint Value);
  max_checkpoints : nat;
}.
Arguments UndoManager : clear implicits.

Section Undo.
  Context {Value : Type}.
  Abbreviation Ck := (Checkpoint Value).
  Abbreviation Um := (UndoManager Value).
  Implicit Types u : Um.

Definition new_checkpoint (id : Uuid) (n : nat) (ms : list (ChatMessage Value)) (d : string) : Ck :=
  mkCheckpoint _ id n ms d.
Definition new_undo : Um := mkUndo _ [] [] DEFAULT_MAX_CHECKPOINTS.
Definition with_max_checkpoints (n : nat) u : Um := mkUndo _ (undo_stack u) (redo_stack u) n.

(** [VecDeque::pop_back] and [Vec::pop]. *)
Definition pop_last {A} (l : list A) : option A * list A :=
  (last l, take (length l - 1) l).

(** The loop of [push_undo], with the length as fuel. *)
Fixpoint pop_front_while (fuel mx : nat) (l : list Ck) : list Ck :=
  match fuel with
  | O => l
  | S fuel => if (mx <? length l)%nat then pop_front_while fuel mx (tail l) else l
  end.
Definition push_undo (c : Ck) u : Um :=
  let l := undo_stack u ++ [c] in
  mkUndo _ (pop_front_while (length l) (max_checkpoints u) l) (redo_stack u) (max_checkpoints u).

Definition checkpoint (id : Uuid) (n : nat) (ms : list (ChatMessage Value)) (d : string) u : Um :=
  push_undo (new_checkpoint id n ms d) (mkUndo _ (undo_stack u) [] (max_checkpoints u)).

(** The description of a saved current state: [format!("Turn {}", n)]. *)
Definition turn_label (n : nat) : string := ("Turn " +:+ pretty n)%string.

Definition undo (id : Uuid) (cur : nat) (ms : list (ChatMessage Value)) u : option Ck * Um :=
  match undo_stack u with
  | [] => (None, u)
  | _ =>
      let redo := redo_stack u ++ [new_checkpoint id cur ms (turn_label cur)] in
      let '(c, l) := pop_last (undo_stack u) in
      (c, mkUndo _ l redo (max_checkpoints u))
  end.
Definition pop_undo u : option Ck * Um :=
  let '(c, l) := pop_last (undo_stack u) in (c, mkUndo _ l (redo_stack u) (max_checkpoints u)).
Definition redo (id : Uuid) (cur : nat) (ms : list (ChatMessage Value)) u : option Ck * Um :=
  match redo_stack u with
  | [] => (None, u)
  | _ =>
      let u := push_undo (new_checkpoint id cur ms (turn_label cur)) u in
      let '(c, l) := pop_last (redo_stack u) in
      (c, mkUndo _ (undo_stack u) l (max_checkpoints u))
  end.
Definition can_undo u : bool := match undo_stack u with [] => false | _ => true end.
Definition can_redo u : bool := match redo_stack u with [] => false | _ => true end.
Definition undo_count u : nat := length (undo_stack u).
Definition redo_count u : nat := length (redo_stack u).
Definition get_checkpoint (id : Uuid) u : option Ck :=
  match list_find (fun c => cp_id c = id) (undo_stack u) with
  | Some (_, c) => Some c
  | None => snd <$> list_find (fun c => cp_id c = id) (redo_stack u)
  end.
Definition list_checkpoints u : list Ck := undo_stack u.
Definition clear_undo u : Um := mkUndo _ [] [] (max_checkpoints u).

(** [UndoManager::restore]; its loop pops until the target is last. *)
Fixpoint pop_back_while (fuel n : nat) (l : list Ck) : list Ck :=
  match fuel with
  | O => l
  | S fuel => if (n <? length l)%nat then pop_back_while fuel n (snd (pop_last l)) else l
  end.
Definition restore (id : Uuid) u : option Ck * Um :=
  match list_find (fun c => cp_id c = id) (undo_stack u) with
  | None => (None, u)
  | Some (pos, _) =>
      let l := pop_back_while (length (undo_stack u)) (pos + 1) (undo_stack u) in
      let '(c, l) := pop_last l in
      (c, mkUndo _ l [] (max_checkpoints u))
  end.

(** ** Lemmas *)
Lemma pop_front_while_spec fuel mx l :
  (length l <= fuel)%nat -> pop_front_while fuel mx l = keep_last mx l.
Proof.
  revert l. induction fuel as [|fuel IH]; intros l Hf; simpl.
  { destruct l; [done|simpl in Hf; lia]. }
  destruct (Nat.ltb_spec mx (length l)); [|by rewrite keep_last_all].
  destruct l as [|x l]; simpl in *; [lia|]. rewrite IH by lia. unfold keep_last.
  by replace (length (x :: l) - mx)%nat with (S (length l - mx))%nat by (simpl; lia).
Qed.

Lemma pop_back_while_spec fuel n l :
  (length l <= fuel)%nat -> pop_back_while fuel n l = take n l.
Proof.
  revert l. induction fuel as [|fuel IH]; intros l Hf; simpl.
  { destruct l; [by rewrite take_nil|simpl in Hf; lia]. }
  destruct (Nat.ltb_spec n (length l)); [|by rewrite take_ge].
  rewrite IH by (rewrite length_take; lia). rewrite take_take. f_equal. lia.
Qed.

Lemma pop_last_snoc {A} (l : list A) x : pop_last (l ++ [x]) = (Some x, l).
Proof.
  unfold pop_last. rewrite last_snoc, length_app. simpl.
  replace (length l + 1 - 1)%nat with (length l) by lia. by rewrite take_app_length.
Qed.

(** The invariant: together the stacks hold at most the cap. *)
Definition undo_inv u : Prop := (undo_count u + redo_count u <= max_checkpoints u)%nat.

Lemma push_undo_stack c u :
  undo_stack (push_undo c u) = keep_last (max_checkpoints u) (undo_stack u ++ [c]).
Proof. unfold push_undo. simpl. by apply pop_front_while_spec. Qed.

Lemma checkpoint_inv id n ms d u : undo_inv (checkpoint id n ms d u).
Proof.
  unfold undo_inv, undo_count, redo_count, checkpoint. rewrite push_undo_stack. simpl.
  rewrite keep_last_length. lia.
Qed.

Lemma undo_cases id cur ms u :
  (undo_stack u = [] /\ undo id cur ms u = (None, u))
  \/ (exists l c, undo_stack u = l ++ [c]
      /\ undo id cur ms u = (Some c, mkUndo _ l
           (redo_stack u ++ [new_checkpoint id cur ms (turn_label cur)]) (max_checkpoints u))).
Proof.
  unfold undo. destruct (undo_stack u) as [|c l _] using rev_ind; [by left|right].
  exists l, c. split; [done|]. rewrite pop_last_snoc. by destruct l.
Qed.

Lemma redo_cases id cur ms u :
  undo_inv u ->
  (redo_stack u = [] /\ redo id cur ms u = (None, u))
  \/ (exists l c, redo_stack u = l ++ [c]
      /\ redo id cur ms u = (Some c, mkUndo _
           (undo_stack u ++ [new_checkpoint id cur ms (turn_label cur)]) l (max_checkpoints u))).
Proof.
  intros Hinv. unfold redo. destruct (redo_stack u) as [|c l _] eqn:E using rev_ind; [by left|right].
  exists l, c. split; [done|]. cbn [redo_stack push_undo]. rewrite E, pop_last_snoc, push_undo_stack.
  unfold undo_inv, undo_count, redo_count in Hinv. rewrite E, length_app in Hinv. simpl in Hinv.
  rewrite keep_last_all by (rewrite length_app; simpl; lia). by destruct l.
Qed.

Lemma restore_cases id u :
  match list_find (fun c => cp_id c = id) (undo_stack u) with
  | None => restore id u = (None, u)
  | Some (pos, c) => restore id u = (Some c, mkUndo _ (take pos (undo_stack u)) [] (max_checkpoints u))
  end.
Proof.
  unfold restore. destruct (list_find _ _) as [[pos c]|] eqn:E; [|done].
  apply list_find_Some in E as (Hl & _ & _). rewrite pop_back_while_spec by done.
  rewrite Nat.add_1_r, (take_S_r _ _ c) by done. by rewrite pop_last_snoc.
Qed.

Inductive undo_step : Um -> Um -> Prop :=
| us_checkpoint id n ms d u : undo_step u (checkpoint id n ms d u)
| us_undo id n ms u : undo_step u (snd (undo id n ms u))
| us_pop u : undo_step u (snd (pop_undo u))
| us_redo id n ms u : undo_step u (snd (redo id n ms u))
| us_restore id u : undo_step u (snd (restore id u))
| us_clear u : undo_step u (clear_undo u).

Lemma undo_step_inv u u' :
  undo_step u u' -> undo_inv u -> undo_inv u' /\ max_checkpoints u' = max_checkpoints u.
Proof.
  intros [id n ms d v|id n ms v|v|id n ms v|id v|v] Hinv.
  - split; [apply checkpoint_inv|done].
  - destruct (undo_cases id n ms v) as [[_ ->]|(l & c & E & ->)]; [done|].
    unfold undo_inv, undo_count, redo_count in *. rewrite E, length_app in Hinv. simpl in *.
    rewrite length_app. simpl. split; [lia|done].
  - unfold undo_inv, undo_count, redo_count, pop_undo in *. simpl. rewrite length_take. split; [lia|done].
  - destruct (redo_cases id n ms v Hinv) as [[_ ->]|(l & c & E & ->)]; [done|].
    unfold undo_inv, undo_count, redo_count in *. rewrite E, length_app in Hinv. simpl in *.
    rewrite length_app. simpl. split; [lia|done].
  - pose proof (restore_cases id v) as H. destruct (list_find _ _) as [[pos c]|]; rewrite H; [|done].
    unfold undo_inv, undo_count, redo_count in *. simpl. rewrite length_take. split; [lia|done].
  - unfold undo_inv, undo_count, redo_count. simpl. split; [lia|done].
Qed.
End Undo.

(** ** The commands *)
Section Commands.
  Context {Value : Type}.
  Abbreviation Um := (UndoManager Value).
  Abbreviation Sess := (Session Value).
  Abbreviation Answer := (Result (SubmissionResult Value) Uuid).

(** [JobError::NotFound] carries the thread id. *)
Definition process_undo (tid fresh : Uuid) (now : DateTime) (u : Um) (s : Sess) :
    Answer * Um * Sess :=
  if negb (can_undo u) then (Ok (SOk (Some "Nothing to undo."%string)), u, s)
  else match threads s !! tid with
  | None => (Err tid, u, s)
  | Some th =>
      let '(c, u') := undo fresh (thread_turn_number th) (messages th) u in
      match c with
      | Some c =>
          (Ok (SOk (Some ("Undone to turn " +:+ pretty (cp_turn_number c) +:+ ". "
                          +:+ pretty (undo_count u') +:+ " undo(s) remaining.")%string)),
           u', update_thread tid (restore_from_messages (cp_messages c) now) s)
      | None => (Ok (SError "Undo failed."), u', s)
      end
  end.

Definition process_redo (tid fresh : Uuid) (now : DateTime) (u : Um) (s : Sess) :
    Answer * Um * Sess :=
  if negb (can_redo u) then (Ok (SOk (Some "Nothing to redo."%string)), u, s)
  else match threads s !! tid with
  | None => (Err tid, u, s)
  | Some th =>
      let '(c, u') := redo fresh (thread_turn_number th) (messages th) u in
      match c with
      | Some c =>
          (Ok (SOk (Some ("Redone to turn " +:+ pretty (cp_turn_number c) +:+ ".")%string)),
           u', update_thread tid (restore_from_messages (cp_messages c) now) s)
      | None => (Ok (SError "Redo failed."), u', s)
      end
  end.

Definition process_clear (tid : Uuid) (u : Um) (s : Sess) : Answer * Um * Sess :=
  match threads s !! tid with
  | None => (Err tid, u, s)
  | Some _ =>
      (Ok (SOk (Some "Thread cleared."%string)), clear_undo u,
       update_thread tid (fun th => set_thread th Idle [] (updated_at th) (pending_approval th)) s)
  end.

Definition process_new_thread (fresh : Uuid) (now : DateTime) (null : Value)
    (show : Uuid -> string) (s : Sess) : Answer * Sess :=
  let '(th, s') := create_thread fresh now null s in
  (Ok (SOk (Some ("New thread: " +:+ show (thread_id th))%string)), s').

Definition process_switch_thread (target : Uuid) (now : DateTime) (show : Uuid -> string)
    (s : Sess) : Answer * Sess :=
  let '(ok, s') := switch_thread target now s in
  (Ok (if ok then SOk (Some ("Switched to thread " +:+ show target)%string)
       else SError "Thread not found."), s').

(** The undo manager has already dropped the checkpoint when the thread turns
    out to be missing. *)
Definition process_resume (tid cid : Uuid) (now : DateTime) (u : Um) (s : Sess) :
    Answer * Um * Sess :=
  let '(c, u') := restore cid u in
  match c with
  | None => (Ok (SError "Checkpoint not found."), u', s)
  | Some c =>
      match threads s !! tid with
      | None => (Err tid, u', s)
      | Some _ =>
          (Ok (SOk (Some ("Resumed from checkpoint: " +:+ cp_description c)%string)), u',
           update_thread tid (restore_from_messages (cp_messages c) now) s)
      end
  end.

(** The checkpoint [process_user_input] takes before a turn, and the turn. *)
Definition checkpoint_and_start (fresh : Uuid) (inp : string) (now : DateTime) (u : Um)
    (th : Thread Value) : Um * Thread Value :=
  (checkpoint fresh (thread_turn_number th) (messages th)
     ("Before turn " +:+ pretty (thread_turn_number th))%string u,
   start_turn inp now th).

(** *** What they do *)
Lemma process_undo_some tid fresh now (u : Um) (s : Sess) th l c :
  threads s !! tid = Some th -> undo_stack u = l ++ [c] ->
  exists msg, process_undo tid fresh now u s =
    (Ok (SOk (Some msg)),
     mkUndo _ l (redo_stack u ++ [new_checkpoint fresh (thread_turn_number th) (messages th)
                                    (turn_label (thread_turn_number th))]) (max_checkpoints u),
     update_thread tid (restore_from_messages (cp_messages c) now) s).
Proof.
  intros Hth Hl. unfold process_undo, can_undo. rewrite Hth.
  destruct (undo_cases fresh (thread_turn_number th) (messages th) u) as [[E _]|(l' & c' & E & ->)].
  { rewrite Hl in E. by destruct l. }
  rewrite Hl in E. apply app_inj_tail in E as [<- <-]. rewrite Hl.
  destruct (l ++ [c]) eqn:Ex; [by destruct l|]. by eexists.
Qed.

Lemma process_redo_some tid fresh now (u : Um) (s : Sess) th l c :
  undo_inv u -> threads s !! tid = Some th -> redo_stack u = l ++ [c] ->
  exists msg, process_redo tid fresh now u s =
    (Ok (SOk (Some msg)),
     mkUndo _ (undo_stack u ++ [new_checkpoint fresh (thread_turn_number th) (messages th)
                                  (turn_label (thread_turn_number th))]) l (max_checkpoints u),
     update_thread tid (restore_from_messages (cp_messages c) now) s).
Proof.
  intros Hinv Hth Hl. unfold process_redo, can_redo. rewrite Hth.
  destruct (redo_cases fresh (thread_turn_number th) (messages th) u Hinv)
    as [[E _]|(l' & c' & E & ->)].
  { rewrite Hl in E. by destruct l. }
  rewrite Hl in E. apply app_inj_tail in E as [<- <-]. rewrite Hl.
  destruct (l ++ [c]) eqn:Ex; [by destruct l|]. by eexists.
Qed.

Lemma checkpoint_stack id n ms d (u : Um) :
  (0 < max_checkpoints u)%nat ->
  exists l, undo_stack (checkpoint id n ms d u) = l ++ [new_checkpoint id n ms d].
Proof.
  intros H. unfold checkpoint. rewrite push_undo_stack. unfold keep_last. simpl.
  rewrite drop_app_le by (rewrite length_app; simpl; lia). by eexists.
Qed.

(** ** Properties *)

(** The undo manager: from any state within the cap, no sequence of
    operations lets the two stacks together hold more than [max_checkpoints]
    checkpoints; an undo or redo that returns a checkpoint moves exactly one
    from one stack to the other, so their total stays constant; and undoing
    and then redoing from the state that was restored returns the state one
    started from and puts the same messages back on the undo stack. *)
Theorem undo_redo_conserve (u v : Um) id id' n ms c :
  undo_inv u -> rtc undo_step u v ->
  undo_inv v /\ max_checkpoints v = max_checkpoints u
  /\ (fst (undo id n ms v) = Some c ->
       let v' := snd (undo id n ms v) in
       undo_count v' = (undo_count v - 1)%nat
       /\ (undo_count v' + redo_count v' = undo_count v + redo_count v)%nat
       /\ let '(c', v'') := redo id' (cp_turn_number c) (cp_messages c) v' in
          c' = Some (new_checkpoint id n ms (turn_label n))
          /\ map cp_messages (undo_stack v'') = map cp_messages (undo_stack v)
          /\ redo_stack v'' = redo_stack v)
  /\ (fst (redo id n ms v) = Some c ->
       let v' := snd (redo id n ms v) in
       redo_count v' = (redo_count v - 1)%nat
       /\ (undo_count v' + redo_count v' = undo_count v + redo_count v)%nat).
Proof.
  intros Hu Hrun. assert (undo_inv v /\ max_checkpoints v = max_checkpoints u) as [Hv Hm].
  { induction Hrun as [|x y z Hxy _ IH]; [done|].
    destruct (undo_step_inv x y Hxy Hu) as [Hy Hmy]. destruct (IH Hy) as [Hz Hmz].
    by rewrite Hmz. }
  split; [done|]. split; [done|]. split.
  - destruct (undo_cases id n ms v) as [[_ ->]|(l & c0 & E & ->)]; [done|].
    simpl. intros [= ->]. unfold undo_count, redo_count. simpl. rewrite E, !length_app. simpl.
    split; [lia|]. split; [lia|].
    set (v' := mkUndo _ l _ _). assert (undo_inv v') as Hv'.
    { unfold undo_inv, undo_count, redo_count in *. simpl. rewrite E, length_app in Hv.
      rewrite length_app. simpl in *. lia. }
    destruct (redo_cases id' (cp_turn_number c) (cp_messages c) v' Hv')
      as [[Hnil _]|(l2 & c2 & E2 & ->)].
    { simpl in Hnil. by destruct (redo_stack v). }
    simpl in E2. apply app_inj_tail in E2 as [<- <-]. simpl. by rewrite !map_app.
  - destruct (redo_cases id n ms v Hv) as [[_ ->]|(l & c0 & E & ->)]; [done|].
    simpl. intros _. unfold undo_count, redo_count. simpl. rewrite E, !length_app. simpl. lia.
Qed.

(** Resuming from a checkpoint by id: when the id is on the undo stack the
    earliest checkpoint with it is returned, exactly the checkpoints older
    than it stay and the redo stack is emptied; otherwise nothing changes. *)
Theorem restore_checkpoint_spec (u : Um) id :
  match fst (restore id u) with
  | Some c => cp_id c = id
      /\ (exists newer, undo_stack u = undo_stack (snd (restore id u)) ++ c :: newer)
      /\ Forall (fun c' => cp_id c' <> id) (undo_stack (snd (restore id u)))
      /\ redo_stack (snd (restore id u)) = []
  | None => snd (restore id u) = u /\ Forall (fun c' => cp_id c' <> id) (undo_stack u)
  end.
Proof.
  pose proof (restore_cases id u) as H.
  destruct (list_find _ _) as [[pos c]|] eqn:E; rewrite H; simpl.
  - apply list_find_Some in E as (Hl & Hid & Hmin). split; [done|]. split.
    { exists (drop (S pos) (undo_stack u)). by rewrite (take_drop_middle _ _ _ Hl). }
    split; [|done]. apply Forall_forall. intros x Hx. apply list_elem_of_lookup in Hx as [i Hi].
    apply lookup_take_Some in Hi as [Hi Hlt]. by eapply Hmin.
  - split; [done|]. apply list_find_None in E. done.
Qed.

(** C24. The undo and redo commands on a thread: after a checkpointed turn has
    been started, [/undo] gives the thread back the messages it had before the
    turn, and [/redo] then those it had during it, with the two stacks
    holding as many checkpoints as before the undo. *)
Theorem undo_redo_commands (tid f1 f2 f3 : Uuid) inp now (u : Um) (s : Sess) th :
  threads s !! tid = Some th -> (0 < max_checkpoints u)%nat ->
  let '(u1, th1) := checkpoint_and_start f1 inp now u th in
  let s1 := update_thread tid (fun _ => th1) s in
  let '(r2, u2, s2) := process_undo tid f2 now u1 s1 in
  let '(r3, u3, s3) := process_redo tid f3 now u2 s2 in
  is_ok r2 = true /\ is_ok r3 = true
  /\ messages <$> threads s2 !! tid = Some (messages th)
  /\ messages <$> threads s3 !! tid = Some (messages th1)
  /\ th_state <$> threads s3 !! tid = Some Idle
  /\ undo_count u3 = undo_count u1 /\ redo_count u3 = 0%nat.
Proof.
  intros Hth Hmax. unfold checkpoint_and_start.
  set (d := ("Before turn " +:+ pretty (thread_turn_number th))%string).
  set (u1 := checkpoint f1 _ _ d u). set (th1 := start_turn inp now th).
  set (s1 := update_thread tid _ s).
  destruct (checkpoint_stack f1 (thread_turn_number th) (messages th) d u Hmax) as [l Hl].
  pose proof (checkpoint_inv f1 (thread_turn_number th) (messages th) d u) as Hinv.
  fold u1 in Hl, Hinv.
  assert (threads s1 !! tid = Some th1) as Hs1.
  { unfold s1. by rewrite lookup_update_thread, Hth. }
  destruct (process_undo_some tid f2 now u1 s1 th1 l _ Hs1 Hl) as [msg2 ->].
  set (u2 := mkUndo _ l _ _). set (s2 := update_thread tid _ s1).
  assert (threads s2 !! tid = Some (restore_from_messages (messages th) now th1)) as Hs2.
  { unfold s2. by rewrite lookup_update_thread, Hs1. }
  assert (undo_inv u2) as Hinv2.
  { unfold undo_inv, undo_count, redo_count in *. rewrite Hl, length_app in Hinv.
    unfold u2. simpl in *. lia. }
  destruct (process_redo_some tid f3 now u2 s2 _ [] _ Hinv2 Hs2 eq_refl) as [msg3 ->].
  rewrite lookup_update_thread, Hs2. simpl fmap. rewrite restored_messages.
  unfold undo_count, redo_count. rewrite Hl. simpl. rewrite !length_app.
  repeat split. f_equal. apply (restored_messages th1).
Qed.
End Commands.

(** ** Witnesses *)
Definition sample_undo : UndoManager unit :=
  checkpoint 11%N 1 [] "Before turn 1" (with_max_checkpoints 2 new_undo).

Lemma undo_redo_conserve_witness :
  redo_count (snd (undo 12%N 2 [msg_user "x"] sample_undo)) = 1%nat.
Proof.
  destruct (undo_redo_conserve (with_max_checkpoints 2 new_undo) sample_undo 12%N 13%N 2
    [msg_user "x"] (new_checkpoint 11%N 1 [] "Before turn 1")) as (_ & _ & H & _).
  - vm_compute. lia.
  - eapply rtc_l; [apply us_checkpoint|apply rtc_refl].
  - destruct H as (H1 & H2 & _); [reflexivity|]. vm_compute in H1, H2 |- *. lia.
Defined.

Lemma undo_redo_commands_witness :
  let '(u1, th1) := checkpoint_and_start 21%N "next" 5 new_undo sample_thread in
  let s1 := update_thread 4%N (fun _ => th1)
              (update_thread 4%N (fun _ => sample_thread) sample_session) in
  let '(r2, u2, s2) := process_undo 4%N 22%N 5 u1 s1 in
  messages <$> threads s2 !! 4%N = Some [msg_user "hello"; msg_assistant "hi"].
Proof.
  pose proof (undo_redo_commands 4%N 21%N 22%N 23%N "next" 5 new_undo
    (update_thread 4%N (fun _ => sample_thread) sample_session) sample_thread) as H.
  assert (threads (update_thread 4%N (fun _ => sample_thread) sample_session) !! 4%N
          = Some sample_thread) as Hs by reflexivity.
  specialize (H Hs ltac:(simpl; unfold DEFAULT_MAX_CHECKPOINTS; lia)).
  destruct (checkpoint_and_start 21%N "next" 5 new_undo sample_thread) as [u1 th1].
  cbv zeta in *. destruct (process_undo _ _ _ u1 _) as [[r2 u2] s2].
  destruct (process_redo _ _ _ u2 s2) as [[r3 u3] s3]. destruct H as (_ & _ & H & _). exact H.
Defined.
