(* ===== verification/Compaction.v ===== *)
(** The context window: [src/agent/context_monitor.rs] (token estimates and the
    choice of a strategy) and [src/agent/compaction.rs] (the compactor).

    Estimates are computed in [f64] as the code does.  The workspace is what
    [Workspace::append] does to it; the two time formats of chrono are
    parameters. *)

From Stdlib Require Import SpecFloat.
From S2P Require Import Prelude Strs Float64 Llm Session.

Definition DEFAULT_CONTEXT_LIMIT : Z := 100000.
Definition COMPACTION_THRESHOLD : f64 := f64_lit 8 10.
Definition TOKENS_PER_WORD : f64 := f64_lit 13 10.

Inductive CompactionStrategy :=
| Summarize (keep_recent : nat)
| Truncate (keep_recent : nat)
| MoveToWorkspace.
Definition default_strategy : CompactionStrategy := Summarize 5.

(** ** The monitor *)
Record ContextMonitor := mkMonitor { context_limit : Z; threshold_ratio : f64 }.
Definition new_monitor : ContextMonitor := mkMonitor DEFAULT_CONTEXT_LIMIT COMPACTION_THRESHOLD.
Definition with_limit (limit : Z) (m : ContextMonitor) : ContextMonitor := mkMonitor limit (threshold_ratio m).
Definition with_threshold (ratio : f64) (m : ContextMonitor) : ContextMonitor :=
  mkMonitor (context_limit m) (f64_clamp ratio (f64_lit 1 2) (f64_lit 95 100)).

Section Monitor.
  Context {Value : Type}.
  Abbreviation Msg := (ChatMessage Value).

Definition estimate_text_tokens (text : string) : Z :=
  f64_to_usize (f64_mul (f64_of (Z.of_nat (length (split_whitespace text)))) TOKENS_PER_WORD).
Definition estimate_message_tokens (m : Msg) : Z :=
  f64_to_usize (f64_mul (f64_of (Z.of_nat (length (split_whitespace (content m))))) TOKENS_PER_WORD) + 4.
Definition estimate_tokens (ms : list Msg) : Z := foldr Z.add 0 (map estimate_message_tokens ms).

Definition threshold (m : ContextMonitor) : Z :=
  f64_to_usize (f64_mul (f64_of (context_limit m)) (threshold_ratio m)).
Definition needs_compaction (m : ContextMonitor) (ms : list Msg) : bool := threshold m <=? estimate_tokens ms.
Definition usage_percent (m : ContextMonitor) (ms : list Msg) : f64 :=
  f64_mul (f64_div (f64_of (estimate_tokens ms)) (f64_of (context_limit m))) (f64_of 100).

Definition suggest_compaction (m : ContextMonitor) (ms : list Msg) : option CompactionStrategy :=
  if negb (needs_compaction m ms) then None
  else
    let overage := f64_div (f64_of (estimate_tokens ms)) (f64_of (context_limit m)) in
    Some (if f64_ltb (f64_lit 95 100) overage then Truncate 3
          else if f64_ltb (f64_lit 85 100) overage then Summarize 5
          else MoveToWorkspace).

(** [ContextBreakdown]. *)
Record ContextBreakdown := mkBreakdown {
  total_tokens : Z; system_tokens : Z; user_tokens : Z; assistant_tokens : Z; tool_tokens : Z;
  message_count : nat;
}.
Definition add_message (b : ContextBreakdown) (m : Msg) : ContextBreakdown :=
  let t := estimate_message_tokens m in
  mkBreakdown (total_tokens b + t)
    (system_tokens b + if decide (role m = System) then t else 0)
    (user_tokens b + if decide (role m = User) then t else 0)
    (assistant_tokens b + if decide (role m = Assistant) then t else 0)
    (tool_tokens b + if decide (role m = Tool) then t else 0)
    (message_count b).
Definition analyze (ms : list Msg) : ContextBreakdown :=
  foldl add_message (mkBreakdown 0 0 0 0 0 (length ms)) ms.
End Monitor.

(** ** The compactor *)
Section Compactor.
  Context {Value Decimal P Ws : Type} `{!LlmProvider Value Decimal P}.
  Context (append : string -> string -> Ws -> bool * Ws) (fmt_date fmt_time : DateTime -> string).
  Abbreviation Th := (Thread Value).

Record CompactionPartial := mkPartial { p_removed : nat; p_written : bool; p_summary : option string }.
Definition empty_partial : CompactionPartial := mkPartial 0 false None.
Record CompactionResult := mkCompaction {
  turns_removed : nat; tokens_before : Z; tokens_after : Z; summary_written : bool; summary : option string;
}.

Definition SUMMARY_PROMPT : string :=
"Summarize the following conversation concisely. Focus on:
- Key decisions made
- Important information exchanged
- Actions taken
- Outcomes achieved

Be brief but capture all important details. Use bullet points.".
Definition newline : string := String (chr 10) EmptyString.

Definition format_message (m : ChatMessage Value) : string :=
  (match role m with
   | User => "User" | Assistant => "Assistant" | System => "System"
   | Tool => "Tool " +:+ default "unknown" (msg_name m)
   end +:+ ": " +:+ content m)%string.
Definition summary_request (ms : list (ChatMessage Value)) : CompletionRequest Value :=
  with_temperature (with_max_tokens
    (new_request [msg_system SUMMARY_PROMPT;
       msg_user ("Please summarize this conversation:" +:+ newline +:+ newline
                 +:+ String.concat (newline +:+ newline) (map format_message ms))%string]) 1024) 1050253722.
Definition generate_summary (ms : list (ChatMessage Value)) (p : P) (t : Instant) : Outcome string P :=
  let '(r, p, t) := complete (summary_request ms) p t in
  (match r with Ok resp => Ok (resp_content resp) | Err e => Err e end, p, t).

Definition write_entry (title body : string) (now : DateTime) (ws : Ws) : bool * Ws :=
  append ("daily/" +:+ fmt_date now +:+ ".md")%string
    (newline +:+ "## " +:+ title +:+ " (" +:+ fmt_time now +:+ ")" +:+ newline +:+ newline
       +:+ body +:+ newline)%string ws.

Definition format_turn (t : Turn Value) : string :=
  ("**Turn " +:+ pretty (S (turn_number t)) +:+ "**" +:+ newline
     +:+ "User: " +:+ user_input t +:+ newline
     +:+ match response t with Some r => "Agent: " +:+ r +:+ newline | None => "" end
     +:+ match turn_tool_calls t with
         | [] => ""
         | cs => "Tools: " +:+ String.concat ", " (map ttc_name cs) +:+ newline
         end)%string.
Definition format_turns_for_storage (ts : list (Turn Value)) : string :=
  String.concat newline (map format_turn ts).

Definition compact_truncate (keep : nat) (th : Th) : CompactionPartial * Th :=
  let th' := truncate_turns keep th in
  (mkPartial (length (turns th) - length (turns th')) false None, th').

(** The turns that go when [keep] stay, and the messages summarised for them. *)
Definition old_turns (keep : nat) (th : Th) : list (Turn Value) := take (length (turns th) - keep) (turns th).

Definition compact_with_summary (keep : nat) (now : DateTime) (th : Th) (ws : option Ws) (p : P) (t : Instant)
  : Outcome CompactionPartial P * Th * option Ws :=
  if (length (turns th) <=? keep)%nat then ((Ok empty_partial, p, t), th, ws)
  else
    let '(r, p, t) := generate_summary (old_turns keep th ≫= turn_messages) p t in
    match r with
    | Err e => ((Err e, p, t), th, ws)
    | Ok s =>
        let '(written, ws) := match ws with
                              | None => (false, None)
                              | Some w => let '(b, w') := write_entry "Context Summary" s now w in (b, Some w')
                              end in
        ((Ok (mkPartial (length (turns th) - keep) written (Some s)), p, t), truncate_turns keep th, ws)
    end.

Definition compact_to_workspace (now : DateTime) (th : Th) (ws : option Ws) : CompactionPartial * Th * option Ws :=
  match ws with
  | None => let '(r, th') := compact_truncate 5 th in (r, th', None)
  | Some w =>
      if (length (turns th) <=? 10)%nat then (empty_partial, th, ws)
      else
        let '(written, w') := write_entry "Archived Context" (format_turns_for_storage (old_turns 10 th)) now w in
        (mkPartial (length (turns th) - 10) written None, truncate_turns 10 th, Some w')
  end.

Definition compact (strategy : CompactionStrategy) (now : DateTime) (th : Th) (ws : option Ws) (p : P) (t : Instant)
  : Outcome CompactionResult P * Th * option Ws :=
  let before := total_tokens (analyze (messages th)) in
  let '((r, p, t), th', ws') :=
    match strategy with
    | Summarize keep => compact_with_summary keep now th ws p t
    | Truncate keep => let '(r, th') := compact_truncate keep th in ((Ok r, p, t), th', ws)
    | MoveToWorkspace => let '(r, th', ws') := compact_to_workspace now th ws in ((Ok r, p, t), th', ws')
    end in
  (match r with
   | Err e => Err e
   | Ok c => Ok (mkCompaction (p_removed c) before (total_tokens (analyze (messages th')))
                   (p_written c) (p_summary c))
   end, p, t, th', ws').

(** How many turns a strategy keeps. *)
Definition kept (strategy : CompactionStrategy) (ws : option Ws) : nat :=
  match strategy with
  | Summarize k | Truncate k => k
  | MoveToWorkspace => match ws with None => 5 | Some _ => 10 end
  end.
End Compactor.

(** ** Lemmas *)
Section Facts.
  Context {Value : Type}.
  Implicit Types (m : ChatMessage Value) (ms : list (ChatMessage Value)) (th : Thread Value).

Lemma message_tokens_pos m : 4 <= estimate_message_tokens m.
Proof. unfold estimate_message_tokens. pose proof (f64_to_usize_range (f64_mul (f64_of (Z.of_nat (length (split_whitespace (content m))))) TOKENS_PER_WORD)). lia. Qed.

Lemma estimate_tokens_app ms ms' : estimate_tokens (ms ++ ms') = estimate_tokens ms + estimate_tokens ms'.
Proof. unfold estimate_tokens. induction ms as [|m ms IH]; simpl; lia. Qed.

Lemma estimate_tokens_nonneg ms : 0 <= estimate_tokens ms.
Proof. unfold estimate_tokens. induction ms as [|m ms IH]; simpl; [lia|]. pose proof (message_tokens_pos m). lia. Qed.

Lemma analyze_acc ms (b : ContextBreakdown) :
  total_tokens (foldl add_message b ms) = total_tokens b + estimate_tokens ms
  /\ message_count (foldl add_message b ms) = message_count b.
Proof.
  revert b. induction ms as [|m ms IH]; intros b; [by rewrite Z.add_0_r|].
  simpl. destruct (IH (add_message b m)) as [-> ->]. simpl. unfold estimate_tokens. simpl. split; [lia|done].
Qed.

Lemma analyze_total ms : total_tokens (analyze ms) = estimate_tokens ms.
Proof. unfold analyze. by rewrite (proj1 (analyze_acc _ _)). Qed.

Lemma analyze_parts ms (b : ContextBreakdown) :
  let parts b := system_tokens b + user_tokens b + assistant_tokens b + tool_tokens b in
  total_tokens b = parts b -> total_tokens (foldl add_message b ms) = parts (foldl add_message b ms).
Proof.
  intros parts. revert b. induction ms as [|m ms IH]; intros b H; [done|]. apply IH.
  unfold parts in *. simpl. destruct (role m); simpl; lia.
Qed.

Lemma truncate_messages keep th :
  (turns (truncate_turns keep th) ≫= turn_messages) = (keep_last keep (turns th) ≫= turn_messages).
Proof.
  unfold truncate_turns, keep_last. destruct (Nat.ltb_spec keep (length (turns th))); simpl.
  - apply (renumber_spec 0).
  - by replace (length (turns th) - keep)%nat with 0%nat by lia.
Qed.

Lemma truncate_length keep th : length (turns (truncate_turns keep th)) = Nat.min keep (length (turns th)).
Proof.
  unfold truncate_turns. destruct (Nat.ltb_spec keep (length (turns th))); simpl; [|lia].
  rewrite (proj1 (proj2 (renumber_spec 0 _))), length_drop. lia.
Qed.

Lemma truncate_small keep th : (length (turns th) <= keep)%nat -> truncate_turns keep th = th.
Proof. intros H. unfold truncate_turns. by rewrite (proj2 (Nat.ltb_ge _ _) H). Qed.

(** Every turn costs at least the overhead of its user message. *)
Lemma turns_tokens (l : list (Turn Value)) : 4 * Z.of_nat (length l) <= estimate_tokens (l ≫= turn_messages).
Proof.
  induction l as [|x l IH]; [done|]. rewrite bind_cons, estimate_tokens_app. unfold turn_messages at 1.
  pose proof (message_tokens_pos (msg_user (user_input x))) as Hu.
  pose proof (estimate_tokens_nonneg (match response x with Some r => [msg_assistant r] | None => [] end)) as Hr.
  unfold estimate_tokens in *. cbn [map foldr length] in *. lia.
Qed.

Lemma old_then_kept keep th :
  messages th = (old_turns keep th ≫= turn_messages) ++ messages (truncate_turns keep th).
Proof.
  unfold messages. rewrite truncate_messages, <- bind_app. unfold old_turns, keep_last. by rewrite take_drop.
Qed.
End Facts.

Section Claims.
  Context {Value Decimal P Ws : Type} `{!LlmProvider Value Decimal P}.
  Context (append : string -> string -> Ws -> bool * Ws) (fmt_date fmt_time : DateTime -> string).
  Implicit Types th : Thread Value.

(** Every strategy is a truncation or an error that changes nothing. *)
Lemma compact_cases strategy now th ws (p : P) t :
  let '(r, p', t', th', ws') := compact append fmt_date fmt_time strategy now th ws p t in
  (is_ok r = false /\ th' = th /\ ws' = ws)
  \/ (exists c, r = Ok c /\ th' = truncate_turns (kept strategy ws) th
        /\ turns_removed c = (length (turns th) - kept strategy ws)%nat
        /\ tokens_before c = estimate_tokens (messages th)
        /\ tokens_after c = estimate_tokens (messages th')).
Proof.
  unfold compact, compact_with_summary, compact_to_workspace, compact_truncate, kept.
  destruct strategy as [k|k|].
  - destruct (Nat.leb_spec (length (turns th)) k).
    + right. eexists. split; [done|]. rewrite !analyze_total, truncate_small by lia. simpl. repeat split; lia.
    + destruct (generate_summary _ p t) as [[[s|e] p'] t']; [|by left].
      destruct ws as [w|]; [destruct (write_entry _ _ _ _ _ _ w) as [b w']|]; right; eexists;
        (split; [done|]); by rewrite !analyze_total.
  - right. eexists. split; [done|]. rewrite !analyze_total. simpl. rewrite truncate_length. repeat split. lia.
  - destruct ws as [w|].
    + destruct (Nat.leb_spec (length (turns th)) 10).
      * right. eexists. split; [done|]. rewrite !analyze_total, truncate_small by lia. simpl. repeat split; lia.
      * destruct (write_entry _ _ _ _ _ _ w) as [b w']. right. eexists. split; [done|]. by rewrite !analyze_total.
    + right. eexists. split; [done|]. rewrite !analyze_total. simpl. rewrite truncate_length. repeat split. lia.
Qed.

(** The compactor, for every strategy: a failed summary leaves the thread and
    the workspace as they were; otherwise the oldest turns go, as many as are
    reported, at most [keep] stay with their messages unchanged, the reported
    token counts are the monitor's estimates before and after, and the second
    is smaller by at least four tokens for every turn removed. *)
Theorem compact_spec strategy now th ws (p : P) t :
  let '(r, p', t', th', ws') := compact append fmt_date fmt_time strategy now th ws p t in
  match r with
  | Err _ => th' = th /\ ws' = ws
  | Ok c =>
      messages th = (old_turns (kept strategy ws) th ≫= turn_messages) ++ messages th'
      /\ (length (turns th') <= kept strategy ws)%nat
      /\ (length (turns th) = turns_removed c + length (turns th'))%nat
      /\ (numbered (turns th) -> numbered (turns th'))
      /\ tokens_before c = estimate_tokens (messages th) /\ tokens_after c = estimate_tokens (messages th')
      /\ tokens_after c + 4 * Z.of_nat (turns_removed c) <= tokens_before c
  end.
Proof.
  pose proof (compact_cases strategy now th ws p t) as H.
  destruct (compact _ _ _ strategy now th ws p t) as [[[[r p'] t'] th'] ws'].
  destruct H as [(Hr & -> & ->)|(c & -> & -> & Hrem & Hb & Ha)]; [by destruct r|].
  set (k := kept strategy ws) in *. pose proof (old_then_kept k th) as Hm. rewrite truncate_length.
  split; [done|]. split; [lia|]. split; [lia|]. split.
  { intros Hn. unfold truncate_turns. destruct (_ <? _)%nat; [|done]. simpl. unfold numbered.
    destruct (renumber_spec 0 (drop (length (turns th) - k) (turns th))) as (-> & -> & _). done. }
  split; [done|]. split; [done|]. rewrite Ha, Hb, Hm, estimate_tokens_app, Hrem.
  assert (length (old_turns k th) = (length (turns th) - k)%nat) as <- by (unfold old_turns; rewrite length_take; lia).
  enough (4 * Z.of_nat (length (old_turns k th)) <= estimate_tokens (old_turns k th ≫= turn_messages)) by lia.
  apply turns_tokens.
Qed.

(** When the archive cannot be written the turns are dropped all the same: the
    compaction succeeds, the workspace has not changed, and the conversation
    loses its oldest turns for good. *)
Theorem failed_archive_drops_turns now th ws w (p : P) t :
  (10 < length (turns th))%nat -> ws = Some w ->
  (forall path entry, append path entry w = (false, w)) ->
  exists c, compact append fmt_date fmt_time MoveToWorkspace now th ws p t
    = (Ok c, p, t, truncate_turns 10 th, ws)
  /\ summary_written c = false /\ summary c = None /\ turns_removed c = (length (turns th) - 10)%nat
  /\ (length (messages (truncate_turns 10 th)) < length (messages th))%nat.
Proof.
  intros Hlen -> Happ. unfold compact, compact_to_workspace, write_entry.
  rewrite (proj2 (Nat.leb_gt _ _) Hlen), Happ. eexists. split; [done|]. repeat split.
  rewrite (old_then_kept 10 th), length_app.
  assert (0 < length (old_turns 10 th))%nat by (unfold old_turns; rewrite length_take; lia).
  destruct (old_turns 10 th) as [|x l]; [simpl in *; lia|]. rewrite bind_cons, length_app. simpl. lia.
Qed.
End Claims.

(** The bands of the monitor on a message estimated at 84 tokens (62 words),
    for shrinking limits: nothing below 80 percent, then the workspace, a
    summary above 85 and a truncation above 95 percent. *)
Definition words (n : nat) : ChatMessage unit := msg_user (String.concat " " (repeat "w"%string n)).
Example suggest_bands :
  estimate_tokens [words 62] = 84
  /\ map (fun k => suggest_compaction (with_limit k new_monitor) [words 62]) [107; 106; 99; 98; 89; 88]
  = [None; Some MoveToWorkspace; Some MoveToWorkspace; Some (Summarize 5); Some (Summarize 5); Some (Truncate 3)].
Proof. vm_compute. split; reflexivity. Qed.

(** A thread of eleven turns. *)
Definition eleven_turns : Thread unit :=
  Nat.iter 11 (fun th => complete_turn "ok" 1 (start_turn "go" 1 th)) (thread_with_id 1%N 1%N 0 tt).
#[local] Instance mute_llm : LlmProvider unit Z unit :=
  fixed_provider "mute" 0 (fun _ p t => (Err (AuthFailed "mute"), p, t)).

Lemma failed_archive_drops_turns_witness :
  exists c, compact (P := unit) (fun _ _ w => (false, w)) (fun _ => "d") (fun _ => "t") MoveToWorkspace 5
      eleven_turns (Some tt) tt 0 = (Ok c, tt, 0, truncate_turns 10 eleven_turns, Some tt)
    /\ turns_removed c = 1%nat.
Proof.
  destruct (failed_archive_drops_turns (P := unit) (fun _ _ w => (false, w)) (fun _ => "d"%string)
    (fun _ => "t"%string) 5 eleven_turns (Some tt) tt tt 0) as (c & E & _ & _ & Hr & _).
  - vm_compute. lia.
  - reflexivity.
  - reflexivity.
  - exists c. split; [exact E|exact Hr].
Defined.
