(* ===== verification/CostGuard.v ===== *)
(** Cost guardrails: [src/agent/cost_guard.rs] and the price table of
    [src/llm/costs.rs].

    Every price of the table is a multiple of 10^-8 USD and amounts are only
    added and multiplied by token counts, so a [Decimal] amount is an integer
    number of 10^-8 USD.  A [NaiveDate] is a day number. *)

From S2P Require Import Prelude Strs.

(** ** [costs.rs] *)
Definition is_local_model (id : string) : bool :=
  let lower := to_lowercase id in
  existsb (starts_with lower)
    ["llama"; "mistral"; "mixtral"; "phi"; "gemma"; "qwen"; "codellama"; "deepseek";
     "starcoder"; "vicuna"; "yi"]%string
  || str_contains lower ":latest" || str_contains lower ":instruct".

Definition one_of (id : string) (l : list string) : bool := bool_decide (id ∈ l).

(** Input and output price per token, in 10^-8 USD. *)
Definition model_cost (model_id : string) : option (Z * Z) :=
  let id := default model_id (after_last (chr 47) model_id) in
  if one_of id ["gpt-4o"; "gpt-4o-2024-11-20"; "gpt-4o-2024-08-06"]%string then Some (250, 1000)
  else if one_of id ["gpt-4o-mini"; "gpt-4o-mini-2024-07-18"]%string then Some (15, 60)
  else if one_of id ["gpt-4-turbo"; "gpt-4-turbo-2024-04-09"]%string then Some (1000, 3000)
  else if one_of id ["gpt-4"; "gpt-4-0613"]%string then Some (3000, 6000)
  else if one_of id ["gpt-3.5-turbo"; "gpt-3.5-turbo-0125"]%string then Some (50, 150)
  else if one_of id ["o1"; "o1-2024-12-17"]%string then Some (1500, 6000)
  else if one_of id ["o1-mini"; "o1-mini-2024-09-12"]%string then Some (300, 1200)
  else if one_of id ["o3-mini"; "o3-mini-2025-01-31"]%string then Some (110, 440)
  else if one_of id ["claude-3-5-sonnet-20241022"; "claude-3-5-sonnet-latest";
                     "claude-sonnet-4-20250514"]%string then Some (300, 1500)
  else if one_of id ["claude-3-5-haiku-20241022"; "claude-3-5-haiku-latest"]%string then Some (80, 400)
  else if one_of id ["claude-3-opus-20240229"; "claude-3-opus-latest";
                     "claude-opus-4-20250514"]%string then Some (1500, 7500)
  else if one_of id ["claude-3-haiku-20240307"]%string then Some (25, 125)
  else if is_local_model id then Some (0, 0)
  else None.
Definition default_cost : Z * Z := (250, 1000).

(** ** [cost_guard.rs] *)
Record CostGuardConfig := mkGuardConfig {
  max_cost_per_day_cents : option Z;
  max_actions_per_hour : option Z;
}.

Inductive CostLimitExceeded :=
| DailyBudget (spent_cents limit_cents : Z)
| HourlyRate (actions limit : Z).

Record CostGuard := mkGuard {
  config : CostGuardConfig;
  total : Z;
  reset_date : Z;
  action_window : list Instant;
  budget_exceeded : bool;
}.

Definition new_guard (cfg : CostGuardConfig) (today : Z) : CostGuard := mkGuard cfg 0 today [] false.

(** [to_cents]: whole cents, 0 when they do not parse as a [u64]. *)
Definition to_cents (usd : Z) : Z :=
  let cents := Z.quot usd 1000000 in
  if (0 <=? cents) && (cents <? 2 ^ 64) then cents else 0.

Definition HOUR : Duration := from_secs 3600.

(** The loops that drop expired timestamps from the front. *)
Fixpoint drain (cutoff : Instant) (w : list Instant) : list Instant :=
  match w with
  | t :: w' => if t <? cutoff then drain cutoff w' else w
  | [] => []
  end.

Definition set_window (g : CostGuard) (w : list Instant) : CostGuard :=
  mkGuard (config g) (total g) (reset_date g) w (budget_exceeded g).
Definition set_exceeded (g : CostGuard) (b : bool) : CostGuard :=
  mkGuard (config g) (total g) (reset_date g) (action_window g) b.

(** The hourly part of [check_allowed]. *)
Definition check_hourly (g : CostGuard) (now : Instant) : Result unit CostLimitExceeded * CostGuard :=
  match max_actions_per_hour (config g) with
  | None => (Ok tt, g)
  | Some limit =>
      let w := drain (now - HOUR) (action_window g) in
      let count := Z.of_nat (length w) in
      (if limit <=? count then Err (HourlyRate count limit) else Ok tt, set_window g w)
  end.

Definition check_allowed (g : CostGuard) (now : Instant) : Result unit CostLimitExceeded * CostGuard :=
  if budget_exceeded g then
    (Err (DailyBudget (to_cents (total g)) (default 0 (max_cost_per_day_cents (config g)))), g)
  else match max_cost_per_day_cents (config g) with
  | Some limit =>
      let spent := to_cents (total g) in
      if limit <=? spent then (Err (DailyBudget spent limit), set_exceeded g true)
      else check_hourly g now
  | None => check_hourly g now
  end.

Definition call_cost (model : string) (input output : Z) : Z :=
  let '(ir, or_) := default default_cost (model_cost model) in ir * input + or_ * output.

Definition record_llm_call (g : CostGuard) (model : string) (input output : Z)
    (today : Z) (now : Instant) : Z * CostGuard :=
  let cost := call_cost model input output in
  let new_day := negb (today =? reset_date g) in
  let tot := (if new_day then 0 else total g) + cost in
  let flag := if new_day then false else budget_exceeded g in
  let flag := match max_cost_per_day_cents (config g) with
              | Some limit => if limit <=? to_cents tot then true else flag
              | None => flag
              end in
  (cost, mkGuard (config g) tot (if new_day then today else reset_date g)
           (action_window g ++ [now]) flag).

Definition daily_spend (g : CostGuard) (today : Z) : Z :=
  if negb (today =? reset_date g) then 0 else total g.
Definition actions_this_hour (g : CostGuard) (now : Instant) : Z * CostGuard :=
  let w := drain (now - HOUR) (action_window g) in (Z.of_nat (length w), set_window g w).

(** ** The agent's protocol

    The dispatcher checks before a call and records after it; a refused call
    is neither made nor recorded.  The clock moves forward.  [hist] is the
    list of all recorded calls, which the guard itself does not keep. *)
Record World := mkWorld { guard : CostGuard; clock : Instant; hist : list Instant }.

Inductive agent_step : World -> World -> Prop :=
| as_refused g t h now e g' :
    t <= now -> check_allowed g now = (Err e, g') ->
    agent_step (mkWorld g t h) (mkWorld g' now h)
| as_call g t h now now' g' model i o today :
    t <= now -> now <= now' -> 0 <= i -> 0 <= o -> check_allowed g now = (Ok tt, g') ->
    agent_step (mkWorld g t h)
      (mkWorld (snd (record_llm_call g' model i o today now')) now' (h ++ [now'])).

Definition init_world (cfg : CostGuardConfig) (today : Z) (t : Instant) : World :=
  mkWorld (new_guard cfg today) t [].

(** ** Lemmas *)
Lemma check_hourly_keeps g now :
  let g' := snd (check_hourly g now) in
  config g' = config g /\ total g' = total g /\ reset_date g' = reset_date g
  /\ budget_exceeded g' = budget_exceeded g.
Proof. unfold check_hourly. by destruct (max_actions_per_hour (config g)). Qed.

Lemma check_allowed_keeps g now :
  config (snd (check_allowed g now)) = config g /\ total (snd (check_allowed g now)) = total g.
Proof.
  unfold check_allowed. destruct (budget_exceeded g); [done|].
  destruct (max_cost_per_day_cents (config g)); [destruct (_ <=? _); [done|]|];
    split; apply check_hourly_keeps.
Qed.

(** *** The sliding window *)
Definition ascending (w : list Instant) : Prop := StronglySorted Z.le w.
Definition since (c : Instant) (w : list Instant) : list Instant := filter (fun t => c <= t) w.

Lemma since_all c w : Forall (fun t => c <= t) w -> since c w = w.
Proof.
  unfold since. induction 1 as [|t w Ht Hw IH]; [done|].
  rewrite filter_cons, decide_True by done. by rewrite IH.
Qed.

Lemma drain_filter cutoff w : ascending w -> drain cutoff w = since cutoff w.
Proof.
  unfold since. induction 1 as [|t w Hs IH Hall]; [done|]. simpl. rewrite filter_cons.
  destruct (Z.ltb_spec t cutoff).
  - rewrite decide_False by lia. done.
  - rewrite decide_True by lia. f_equal. symmetry. apply since_all.
    eapply Forall_impl; [exact Hall|]. simpl. lia.
Qed.

Lemma ascending_snoc w t : ascending w -> Forall (fun x => x <= t) w -> ascending (w ++ [t]).
Proof.
  intros Hs Hall. induction Hs as [|x w Hs IH Hx]; simpl; [by repeat constructor|].
  inv Hall. constructor; [by apply IH|]. apply Forall_app. auto.
Qed.

Lemma ascending_since c w : ascending w -> ascending (since c w).
Proof.
  unfold since. induction 1 as [|t w Hs IH Hall]; [constructor|]. rewrite filter_cons.
  case_decide; [|done]. constructor; [done|].
  apply Forall_forall. intros x Hx. apply list_elem_of_filter in Hx as [_ Hx].
  by eapply Forall_forall in Hall.
Qed.

Lemma since_since c c' w : c <= c' -> since c' (since c w) = since c' w.
Proof.
  intros Hc. unfold since. rewrite list_filter_filter. apply list_filter_iff. intros t. lia.
Qed.

Lemma since_app c w v : since c (w ++ v) = since c w ++ since c v.
Proof. apply filter_app. Qed.

(** The window a check leaves: the old one, or its part of the last hour. *)
Lemma check_allowed_window g now :
  ascending (action_window g) ->
  action_window (snd (check_allowed g now)) = action_window g
  \/ action_window (snd (check_allowed g now)) = since (now - HOUR) (action_window g).
Proof.
  intros Hasc. unfold check_allowed, check_hourly.
  destruct (budget_exceeded g); [by left|].
  destruct (max_cost_per_day_cents (config g)); [destruct (_ <=? _); [by left|]|];
    (destruct (max_actions_per_hour (config g)); [right|by left]);
    simpl; by apply drain_filter.
Qed.

(** When [check_allowed] lets a call through. *)
Definition allowed (g : CostGuard) (now : Instant) : Prop :=
  budget_exceeded g = false
  /\ (forall l, max_cost_per_day_cents (config g) = Some l -> to_cents (total g) < l)
  /\ (forall l, max_actions_per_hour (config g) = Some l ->
        Z.of_nat (length (since (now - HOUR) (action_window g))) < l).

Lemma check_hourly_ok g now :
  ascending (action_window g) ->
  fst (check_hourly g now) = Ok tt <->
  (forall l, max_actions_per_hour (config g) = Some l ->
     Z.of_nat (length (since (now - HOUR) (action_window g))) < l).
Proof.
  intros Hasc. unfold check_hourly. destruct (max_actions_per_hour (config g)) as [l|]; simpl.
  - rewrite drain_filter by done. destruct (Z.leb_spec l (Z.of_nat (length (since (now - HOUR) (action_window g))))).
    + split; [done|]. intros Hl. specialize (Hl l eq_refl). lia.
    + split; [|done]. intros _ l' [= <-]. done.
  - done.
Qed.

Lemma check_allowed_ok g now :
  ascending (action_window g) -> fst (check_allowed g now) = Ok tt <-> allowed g now.
Proof.
  intros Hasc. unfold check_allowed, allowed. destruct (budget_exceeded g); [by split; [|intros [? _]]|].
  destruct (max_cost_per_day_cents (config g)) as [l|]; simpl.
  - destruct (Z.leb_spec l (to_cents (total g))) as [Hl|Hl].
    + split; [done|]. intros (_ & Hd & _). specialize (Hd l eq_refl). lia.
    + rewrite check_hourly_ok by done. split; [|by intros (_ & _ & ?)].
      intros Hh. split_and!; [done| |done]. intros l' [= <-]. done.
  - rewrite check_hourly_ok by done. split; [|by intros (_ & _ & ?)].
    intros Hh. by split_and!.
Qed.

(** *** The reachable worlds *)
Record world_ok (w : World) : Prop := {
  wo_asc : ascending (action_window (guard w));
  wo_past : Forall (fun x => x <= clock w) (action_window (guard w));
  wo_sub : forall c, clock w - HOUR <= c ->
    since c (action_window (guard w)) = since c (hist w);
  wo_total : 0 <= total (guard w);
}.

Lemma since_Forall (P : Z -> Prop) c w : Forall P w -> Forall P (since c w).
Proof.
  intros Hw. apply Forall_forall. intros x Hx. apply list_elem_of_filter in Hx as [_ Hx].
  by eapply Forall_forall in Hw.
Qed.

Lemma model_cost_nonneg model : 0 <= fst (default default_cost (model_cost model))
  /\ 0 <= snd (default default_cost (model_cost model)).
Proof. unfold model_cost. repeat case_match; simpl; lia. Qed.

Lemma call_cost_nonneg model i o : 0 <= i -> 0 <= o -> 0 <= call_cost model i o.
Proof.
  intros Hi Ho. unfold call_cost. pose proof (model_cost_nonneg model) as [Ha Hb].
  destruct (default default_cost (model_cost model)); simpl in *. nia.
Qed.

Lemma world_ok_check g t h now :
  t <= now -> world_ok (mkWorld g t h) -> world_ok (mkWorld (snd (check_allowed g now)) now h).
Proof.
  intros Ht [Hasc Hpast Hsub Htot]. simpl in *.
  destruct (check_allowed_keeps g now) as [_ Hk].
  destruct (check_allowed_window g now Hasc) as [Hw|Hw]; split; simpl; rewrite ?Hw, ?Hk; try done.
  - eapply Forall_impl; [exact Hpast|]. simpl. lia.
  - intros c Hc. apply Hsub. lia.
  - by apply ascending_since.
  - apply since_Forall. eapply Forall_impl; [exact Hpast|]. simpl. lia.
  - intros c Hc. rewrite since_since by lia. apply Hsub. lia.
Qed.

Lemma world_ok_step w w' : agent_step w w' -> world_ok w -> world_ok w'.
Proof.
  intros Hs Hw. destruct Hs as [g t h now e g' Ht Hc|g t h now now' g' model i o today Ht Hn Hi Ho Hc];
    pose proof (world_ok_check g t h now Ht Hw) as Hw'; rewrite Hc in Hw'; simpl in Hw'; [done|].
  destruct Hw' as [Hasc Hpast Hsub Htot]; simpl in *.
  assert (Forall (fun x => x <= now') (action_window g')) as Hpast'.
  { eapply Forall_impl; [exact Hpast|]. simpl. lia. }
  split; cbn [guard clock hist action_window total].
  - by apply ascending_snoc.
  - apply Forall_app. split; [done|]. constructor; [lia|constructor].
  - intros c Hcc. rewrite !since_app, Hsub by lia. done.
  - pose proof (call_cost_nonneg model i o Hi Ho). destruct (negb _); lia.
Qed.

Lemma world_ok_init cfg today t : world_ok (init_world cfg today t).
Proof. split; simpl; [constructor|constructor|done|lia]. Qed.

Lemma world_ok_reachable cfg today t w : rtc agent_step (init_world cfg today t) w -> world_ok w.
Proof.
  intros Hr. pattern w. eapply rtc_ind_r; [apply world_ok_init| |exact Hr].
  intros. by eapply world_ok_step.
Qed.

Lemma config_step w w' : agent_step w w' -> config (guard w') = config (guard w).
Proof.
  destruct 1 as [g t h now e g' ? Hc|g t h now now' g' model i o today ???? Hc];
    pose proof (check_allowed_keeps g now) as [Hk _]; rewrite Hc in Hk; by simpl in *.
Qed.

Lemma config_reachable w w' : rtc agent_step w w' -> config (guard w') = config (guard w).
Proof. induction 1 as [|w w1 w' Hs _ IH]; [done|]. by rewrite IH, (config_step _ _ Hs). Qed.

(** Calls recorded in the hour that starts at [a]. *)
Definition in_hour (a : Instant) (h : list Instant) : list Instant :=
  filter (fun t => a <= t <= a + HOUR) h.

Lemma in_hour_since a b h : b <= a -> (length (in_hour a h) <= length (since b h))%nat.
Proof.
  intros Hb. unfold in_hour, since.
  replace (filter (fun t => a <= t <= a + HOUR) h)
    with (filter (fun t => a <= t <= a + HOUR) (filter (fun t => b <= t) h)).
  - apply length_filter.
  - rewrite list_filter_filter. apply list_filter_iff. intros t. lia.
Qed.

Lemma hourly_step w w' l :
  agent_step w w' -> world_ok w -> max_actions_per_hour (config (guard w)) = Some l ->
  (forall a, Z.of_nat (length (in_hour a (hist w))) <= l) ->
  forall a, Z.of_nat (length (in_hour a (hist w'))) <= l.
Proof.
  intros Hs Hw Hl Hall a.
  destruct Hs as [g t h now e g' Ht Hc|g t h now now' g' model i o today Ht Hn Hi Ho Hc]; simpl in *; [done|].
  unfold in_hour. rewrite filter_app, length_app. fold (in_hour a h).
  rewrite filter_cons, filter_nil. case_decide as Hd; simpl; [|specialize (Hall a); lia].
  destruct Hw as [Hasc Hpast Hsub Htot]; simpl in *.
  assert (fst (check_allowed g now) = Ok tt) as Hok by by rewrite Hc.
  apply check_allowed_ok in Hok as (_ & _ & Hh); [|done]. specialize (Hh l Hl).
  rewrite Hsub in Hh by lia.
  pose proof (in_hour_since a (now - HOUR) h ltac:(lia)). lia.
Qed.

(** ** Properties *)

(** The budget flag is set by [check_allowed] and [record_llm_call] and
    cleared only by [record_llm_call] on a new day; but a refused agent never
    records, so once the flag is set no later call is ever allowed: on every
    execution of the check-then-record protocol the guard stays as it is and
    refuses at every time, also on the following days, on which [daily_spend]
    reports that nothing has been spent. *)
Theorem budget_lockout_is_permanent w w' :
  rtc agent_step w w' -> budget_exceeded (guard w) = true ->
  guard w' = guard w /\ hist w' = hist w
  /\ (forall now, check_allowed (guard w') now =
        (Err (DailyBudget (to_cents (total (guard w)))
                (default 0 (max_cost_per_day_cents (config (guard w))))), guard w'))
  /\ (forall today, today <> reset_date (guard w) -> daily_spend (guard w') today = 0).
Proof.
  intros Hr Hf. assert (guard w' = guard w /\ hist w' = hist w) as [-> ->].
  { induction Hr as [|w w1 w' Hs _ IH]; [done|].
    destruct Hs as [g t h now e g' Ht Hc|g t h now now' g' model i o today Ht Hn Hi Ho Hc];
      simpl in *; unfold check_allowed in Hc; rewrite Hf in Hc; simplify_eq. by apply IH. }
  split_and!; [done|done| |].
  - intros now. unfold check_allowed. by rewrite Hf.
  - intros today Hd. unfold daily_spend. destruct (Z.eqb_spec today (reset_date (guard w))); [done|done].
Qed.

(** On every state the protocol reaches, a call is let through exactly
    when the budget flag is clear, the cents spent are below the daily limit
    and fewer than the hourly limit of calls have been recorded in the last
    hour; a refusal for the budget sets the flag; and a call let through
    takes the day's spending to less than the limit plus that call's own
    cost. *)
Theorem check_allowed_spec cfg today0 t0 w now :
  rtc agent_step (init_world cfg today0 t0) w -> clock w <= now ->
  let g := guard w in
  (fst (check_allowed g now) = Ok tt <->
     budget_exceeded g = false
     /\ (forall l, max_cost_per_day_cents cfg = Some l -> to_cents (total g) < l)
     /\ (forall l, max_actions_per_hour cfg = Some l ->
           Z.of_nat (length (since (now - HOUR) (hist w))) < l))
  /\ (forall s l, fst (check_allowed g now) = Err (DailyBudget s l) ->
        budget_exceeded (snd (check_allowed g now)) = true)
  /\ (forall l model i o today now', 0 <= i -> 0 <= o ->
        max_cost_per_day_cents cfg = Some l -> total g < 2 ^ 64 * 1000000 ->
        fst (check_allowed g now) = Ok tt ->
        let r := record_llm_call (snd (check_allowed g now)) model i o today now' in
        total (snd r) < l * 1000000 + fst r).
Proof.
  intros Hr Hn g. pose proof (world_ok_reachable _ _ _ _ Hr) as [Hasc _ Hsub Htot].
  pose proof (config_reachable _ _ Hr) as Hcfg. simpl in Hcfg. fold g in Hasc, Hsub, Htot, Hcfg.
  assert (fst (check_allowed g now) = Ok tt <-> allowed g now) as Hok by by apply check_allowed_ok.
  unfold allowed in Hok. rewrite Hcfg, Hsub in Hok by lia.
  split_and!; [exact Hok| |].
  - intros s l. unfold check_allowed, check_hourly. destruct (budget_exceeded g) eqn:Hb; [done|].
    repeat case_match; done.
  - intros l model i o today now' Hi Ho Hl Hbig Hal r.
    apply Hok in Hal as (Hflag & Hd & _). specialize (Hd l Hl).
    destruct (check_allowed_keeps g now) as [_ Hk].
    pose proof (call_cost_nonneg model i o Hi Ho).
    assert (total g < l * 1000000 /\ 0 < l) as [Ht Hl0].
    { unfold to_cents in Hd. pose proof (Z.quot_div_nonneg (total g) 1000000 Htot ltac:(lia)) as Hq.
      rewrite Hq in Hd.
      assert (0 <= total g `div` 1000000 < 2 ^ 64) as Hin.
      { split; [apply Z.div_pos; lia|]. apply Z.div_lt_upper_bound; lia. }
      rewrite (proj2 (Z.leb_le 0 _)), (proj2 (Z.ltb_lt _ (2 ^ 64))) in Hd by lia. simpl in Hd.
      pose proof (Z.mul_div_le (total g) 1000000). pose proof (Z.mod_pos_bound (total g) 1000000).
      pose proof (Z.div_mod (total g) 1000000). lia. }
    subst r. simpl. rewrite Hk. destruct (negb _); lia.
Qed.

(** C37. With an hourly limit [l], however the agent's calls and refusals
    are spread over time, at most [l] calls are recorded in any interval of
    one hour, of the whole history and not only of the guard's window; and
    [actions_this_hour] reports exactly the recorded calls of the last hour. *)
Theorem hourly_limit_holds cfg today t0 w l :
  max_actions_per_hour cfg = Some l -> 0 <= l ->
  rtc agent_step (init_world cfg today t0) w ->
  (forall a, Z.of_nat (length (in_hour a (hist w))) <= l)
  /\ (forall now, clock w <= now ->
        fst (actions_this_hour (guard w) now) = Z.of_nat (length (since (now - HOUR) (hist w)))).
Proof.
  intros Hl Hl0 Hr. split.
  - assert (world_ok w /\ config (guard w) = cfg
            /\ forall a, Z.of_nat (length (in_hour a (hist w))) <= l) as (_ & _ & H); [|exact H].
    pattern w. eapply rtc_ind_r; [| |exact Hr].
    + split_and!; [apply world_ok_init|done|]. intros a. simpl. lia.
    + intros w1 w2 _ Hs (Hw & Hc & Hall). split_and!; [by eapply world_ok_step| |].
      * by rewrite (config_step _ _ Hs).
      * eapply hourly_step; [done|done|by rewrite Hc|done].
  - intros now Hn. pose proof (world_ok_reachable _ _ _ _ Hr) as [Hasc _ Hsub _].
    unfold actions_this_hour. simpl. rewrite drain_filter by done. rewrite Hsub by lia. done.
Qed.

(** The unit test [test_local_model_free] expects this model to be free; the
    table does not know it, so it is priced by [default_cost]. *)
Example schematron_not_local : model_cost "richardyoung/schematron-3b:Q4_K_M" = None.
Proof. vm_compute. reflexivity. Qed.

(** ** Witnesses

    A budget of one cent and at most two calls an hour; a first call to
    [gpt-4o] costs twelve and a half cents. *)
Definition demo_cfg : CostGuardConfig := mkGuardConfig (Some 1) (Some 2).
Definition demo_world : World :=
  mkWorld (snd (record_llm_call (new_guard demo_cfg 10) "gpt-4o" 10000 10000 10 5)) 5 [5].

Lemma demo_reachable : rtc agent_step (init_world demo_cfg 10 0) demo_world.
Proof.
  apply rtc_once. apply (as_call (new_guard demo_cfg 10) 0 [] 3 5 (new_guard demo_cfg 10)); try lia.
  reflexivity.
Qed.

Lemma budget_lockout_is_permanent_witness :
  budget_exceeded (guard demo_world) = true
  /\ fst (check_allowed (guard demo_world) (from_secs 1000000)) = Err (DailyBudget 12 1).
Proof.
  split; [vm_compute; reflexivity|].
  destruct (budget_lockout_is_permanent demo_world demo_world) as (_ & _ & H & _);
    [apply rtc_refl|vm_compute; reflexivity|].
  rewrite H. vm_compute. reflexivity.
Defined.

Lemma check_allowed_spec_witness :
  fst (check_allowed (guard (init_world demo_cfg 10 0)) 3) = Ok tt.
Proof.
  apply (proj1 (check_allowed_spec demo_cfg 10 0 (init_world demo_cfg 10 0) 3
    (rtc_refl _ _) ltac:(simpl; lia))).
  split_and!; [reflexivity| |]; intros l [= <-]; vm_compute; reflexivity.
Defined.

Lemma hourly_limit_holds_witness :
  Z.of_nat (length (in_hour 5 (hist demo_world))) <= 2
  /\ fst (actions_this_hour (guard demo_world) 7) = 1.
Proof.
  destruct (hourly_limit_holds demo_cfg 10 0 demo_world 2) as [H1 H2];
    [reflexivity|lia|exact demo_reachable|].
  split; [apply H1|]. rewrite H2; [vm_compute; reflexivity|simpl; lia].
Defined.
