(* ===== verification/RateLimiter.v ===== *)
(** The per-tool rate limiter of [src/tools/wasm/rate_limiter.rs].

    The state is the map from (user, tool) to the two windows of the tool.
    Each operation runs under the write lock, so an operation is one function
    on the state; it takes the clock as an argument and the clock is read once
    per operation. *)

From S2P Require Import Prelude.

Record RateLimitConfig := mkRate { requests_per_minute : Z; requests_per_hour : Z }.
Definition default_rate : RateLimitConfig := mkRate 60 1000.

Inductive LimitType := PerMinute | PerHour.
Inductive RateLimitResult :=
| Allowed (remaining_minute remaining_hour : Z)
| Limited (retry_after : Duration) (limit_type : LimitType).
Definition is_allowed (r : RateLimitResult) : bool :=
  match r with Allowed _ _ => true | Limited _ _ => false end.

(** The [From] conversion to [Result<(), RateLimitError>]. *)
Record RateLimitError := mkRateLimitError { err_retry_after : Duration; err_limit_type : LimitType }.
Definition into_result (r : RateLimitResult) : Result unit RateLimitError :=
  match r with
  | Allowed _ _ => Ok tt
  | Limited retry ty => Err (mkRateLimitError retry ty)
  end.

Record WindowState := mkWindow { window_start : Instant; count : Z }.
Definition new_window (now : Instant) : WindowState := mkWindow now 0.
(** [Instant::elapsed] saturates at zero. *)
Definition elapsed (start now : Instant) : Duration := Z.max 0 (now - start).
Definition maybe_reset (w : WindowState) (d : Duration) (now : Instant) : WindowState :=
  if d <=? elapsed (window_start w) now then mkWindow now 0 else w.
Definition time_until_reset (w : WindowState) (d : Duration) (now : Instant) : Duration :=
  let e := elapsed (window_start w) now in if d <=? e then 0 else d - e.
(** [count += 1] on a [u32]. *)
Definition bump (w : WindowState) : WindowState :=
  mkWindow (window_start w) (wrapping_add 32 (count w) 1).

Record ToolRateLimitState := mkTool { minute_window : WindowState; hour_window : WindowState }.
Definition new_tool (now : Instant) : ToolRateLimitState := mkTool (new_window now) (new_window now).

Definition MINUTE : Duration := from_secs 60.
Definition HOUR : Duration := from_secs 3600.

Abbreviation Key := (string * string)%type (only parsing).
Abbreviation RateLimiter := (gmap (string * string) ToolRateLimitState) (only parsing).
Definition new_limiter : RateLimiter := ∅.

(** The common head of [check] and [check_and_record]: the entry of the tool
    with its expired windows reset. *)
Definition entry_reset (s : RateLimiter) (k : Key) (now : Instant) : ToolRateLimitState :=
  let t := default (new_tool now) (s !! k) in
  mkTool (maybe_reset (minute_window t) MINUTE now) (maybe_reset (hour_window t) HOUR now).

Definition check_and_record (s : RateLimiter) (k : Key) (cfg : RateLimitConfig) (now : Instant)
  : RateLimitResult * RateLimiter :=
  let t := entry_reset s k now in
  if requests_per_minute cfg <=? count (minute_window t) then
    (Limited (time_until_reset (minute_window t) MINUTE now) PerMinute, <[k := t]> s)
  else if requests_per_hour cfg <=? count (hour_window t) then
    (Limited (time_until_reset (hour_window t) HOUR now) PerHour, <[k := t]> s)
  else
    let t := mkTool (bump (minute_window t)) (bump (hour_window t)) in
    (Allowed (wrap 32 (requests_per_minute cfg - count (minute_window t)))
             (wrap 32 (requests_per_hour cfg - count (hour_window t))), <[k := t]> s).

Definition check (s : RateLimiter) (k : Key) (cfg : RateLimitConfig) (now : Instant)
  : RateLimitResult * RateLimiter :=
  let t := entry_reset s k now in
  if requests_per_minute cfg <=? count (minute_window t) then
    (Limited (time_until_reset (minute_window t) MINUTE now) PerMinute, <[k := t]> s)
  else if requests_per_hour cfg <=? count (hour_window t) then
    (Limited (time_until_reset (hour_window t) HOUR now) PerHour, <[k := t]> s)
  else
    (Allowed (wrap 32 (requests_per_minute cfg - count (minute_window t)))
             (wrap 32 (requests_per_hour cfg - count (hour_window t))), <[k := t]> s).

Definition get_usage (s : RateLimiter) (k : Key) : option (Z * Z) :=
  (fun t => (count (minute_window t), count (hour_window t))) <$> s !! k.
Definition clear (s : RateLimiter) (k : Key) : RateLimiter := delete k s.
Definition clear_all (s : RateLimiter) : RateLimiter := ∅.

(** ** Histories

    A sequence of operations with their times, with [k]'s granted requests
    logged beside the limiter. *)
Inductive Event :=
| Record_ (k : Key) (cfg : RateLimitConfig)
| Preview (k : Key) (cfg : RateLimitConfig).

Definition exec (k : Key) (w : RateLimiter * list Instant) (e : Instant * Event)
  : RateLimiter * list Instant :=
  match e with
  | (now, Record_ k' cfg) =>
      let '(r, s') := check_and_record (fst w) k' cfg now in
      (s', if is_allowed r && bool_decide (k' = k) then snd w ++ [now] else snd w)
  | (now, Preview k' cfg) => (snd (check (fst w) k' cfg now), snd w)
  end.

(** [k] is always asked about with the same configuration. *)
Definition uses (k : Key) (cfg : RateLimitConfig) (e : Instant * Event) : Prop :=
  match snd e with
  | Record_ k' c | Preview k' c => k' = k -> c = cfg
  end.

(** ** Lemmas *)
Lemma MINUTE_pos : 0 < MINUTE.
Proof. reflexivity. Qed.
Lemma HOUR_pos : 0 < HOUR.
Proof. reflexivity. Qed.

Definition u32_config (cfg : RateLimitConfig) : Prop :=
  in_u 32 (requests_per_minute cfg) /\ in_u 32 (requests_per_hour cfg).

Lemma bump_small w m : 0 <= count w < m -> in_u 32 m -> bump w = mkWindow (window_start w) (count w + 1).
Proof. intros H Hm. unfold bump, wrapping_add. unfold in_u in *. by rewrite wrap_small by (unfold in_u; lia). Qed.

Lemma insert_other (s : RateLimiter) k k' t : k' <> k -> <[k := t]> s !! k' = s !! k'.
Proof. intros. by rewrite lookup_insert_ne. Qed.

Lemma other_keys s k cfg now k' :
  k' <> k ->
  snd (check_and_record s k cfg now) !! k' = s !! k' /\ snd (check s k cfg now) !! k' = s !! k'.
Proof.
  intros Hne. unfold check_and_record, check.
  split; repeat case_match; simpl; by apply insert_other.
Qed.

Definition counts_nonneg (s : RateLimiter) : Prop :=
  forall k t, s !! k = Some t -> 0 <= count (minute_window t) /\ 0 <= count (hour_window t).

Lemma entry_reset_nonneg s k now :
  counts_nonneg s ->
  0 <= count (minute_window (entry_reset s k now)) /\ 0 <= count (hour_window (entry_reset s k now)).
Proof.
  intros Hs. unfold entry_reset, maybe_reset. destruct (s !! k) as [t|] eqn:Hk; simpl.
  - apply Hs in Hk. repeat case_match; simpl; lia.
  - repeat case_match; simpl; lia.
Qed.

(** *** One window against a log *)
Definition from (a : Instant) (h : list Instant) : list Instant := filter (fun t => a <= t) h.
Definition span (a : Instant) (d : Duration) (h : list Instant) : list Instant :=
  filter (fun t => a <= t < a + d) h.

Record tracks (L : Z) (d : Duration) (w : WindowState) (now : Instant) (h : list Instant) : Prop := {
  tr_start : window_start w <= now;
  tr_count : 0 <= count w <= L;
  tr_end : Forall (fun t => t < window_start w + d) h;
  tr_cur : forall a, window_start w <= a -> Z.of_nat (length (from a h)) <= count w;
  tr_prev : forall a, window_start w - d <= a -> Z.of_nat (length (from a h)) <= L + count w;
  tr_all : forall a, Z.of_nat (length (span a d h)) <= 2 * L;
}.

Lemma from_past a h : Forall (fun t => t < a) h -> from a h = [].
Proof.
  unfold from. induction 1 as [|t h Ht Hh IH]; [done|].
  rewrite filter_cons, decide_False by lia. done.
Qed.

Lemma span_from a d h : (length (span a d h) <= length (from a h))%nat.
Proof.
  unfold span, from.
  replace (filter (fun t => a <= t < a + d) h)
    with (filter (fun t => t < a + d) (filter (fun t => a <= t) h)).
  - apply length_filter.
  - rewrite list_filter_filter. apply list_filter_iff. intros t. lia.
Qed.

Lemma length_from_snoc a h t :
  Z.of_nat (length (from a (h ++ [t]))) <= Z.of_nat (length (from a h)) + 1.
Proof. unfold from. rewrite filter_app, length_app. pose proof (length_filter (fun t => a <= t) [t]). simpl in *. lia. Qed.

Lemma tracks_later L d w now now' h : now <= now' -> tracks L d w now h -> tracks L d w now' h.
Proof. intros Hn [? ? ? ? ? ?]. split; try done. lia. Qed.

Lemma tracks_new L d now : 0 < d -> 0 <= L -> tracks L d (new_window now) now [].
Proof. intros Hd HL. split; simpl; try lia; try done. Qed.

Lemma tracks_reset L d w now h :
  0 < d -> tracks L d w now h ->
  tracks L d (maybe_reset w d now) now h /\ now < window_start (maybe_reset w d now) + d.
Proof.
  intros Hd [Hs Hc He Hcur Hprev Hall]. unfold maybe_reset, elapsed.
  destruct (Z.leb_spec d (Z.max 0 (now - window_start w))) as [Hr|Hr]; [|split; [done|lia]].
  split; [|simpl; lia]. split; simpl; try lia; try done.
  - eapply Forall_impl; [exact He|]. simpl. lia.
  - intros a Ha. rewrite from_past; [done|]. eapply Forall_impl; [exact He|]. simpl. lia.
  - intros a Ha. specialize (Hcur a ltac:(lia)). lia.
Qed.

Lemma tracks_grant L d w now h :
  in_u 32 L -> tracks L d w now h -> now < window_start w + d -> count w < L ->
  tracks L d (bump w) now (h ++ [now]).
Proof.
  intros HL [Hs Hc He Hcur Hprev Hall] Hn Hlt. rewrite (bump_small w L) by lia || done.
  split; simpl; try lia.
  - apply Forall_app. split; [done|]. by constructor.
  - intros a Ha. pose proof (length_from_snoc a h now). specialize (Hcur a Ha). lia.
  - intros a Ha. pose proof (length_from_snoc a h now). specialize (Hprev a Ha). lia.
  - intros a. unfold span. rewrite filter_app, length_app. fold (span a d h).
    rewrite filter_cons, filter_nil. case_decide as Ha; simpl; [|specialize (Hall a); lia].
    pose proof (span_from a d h). specialize (Hprev a ltac:(lia)). lia.
Qed.

(** *** A tool against its log *)
Definition tool_tracks (cfg : RateLimitConfig) (t : ToolRateLimitState) (now : Instant)
    (h : list Instant) : Prop :=
  tracks (requests_per_minute cfg) MINUTE (minute_window t) now h
  /\ tracks (requests_per_hour cfg) HOUR (hour_window t) now h.

Definition world_tracks (k : Key) (cfg : RateLimitConfig) (now : Instant)
    (w : RateLimiter * list Instant) : Prop :=
  match fst w !! k with
  | Some t => tool_tracks cfg t now (snd w)
  | None => snd w = []
  end.

Lemma entry_tracks k cfg now now' s h :
  u32_config cfg -> now <= now' -> world_tracks k cfg now (s, h) ->
  tool_tracks cfg (entry_reset s k now') now' h
  /\ now' < window_start (minute_window (entry_reset s k now')) + MINUTE
  /\ now' < window_start (hour_window (entry_reset s k now')) + HOUR.
Proof.
  intros [Hm Hh] Hn Hw. unfold world_tracks in Hw. simpl in Hw.
  assert (tool_tracks cfg (default (new_tool now') (s !! k)) now' h) as [Ht1 Ht2].
  { destruct (s !! k) as [t|]; simpl.
    - destruct Hw. split; by eapply tracks_later.
    - subst h. unfold in_u in *. split; apply tracks_new; (apply MINUTE_pos || apply HOUR_pos || lia). }
  destruct (tracks_reset _ _ _ _ _ MINUTE_pos Ht1).
  destruct (tracks_reset _ _ _ _ _ HOUR_pos Ht2).
  by split_and!.
Qed.

Lemma exec_tracks k cfg now w e :
  u32_config cfg -> now <= fst e -> uses k cfg e ->
  world_tracks k cfg now w -> world_tracks k cfg (fst e) (exec k w e).
Proof.
  intros Hcfg Hn Hu Hw. destruct w as [s h]. destruct e as [now' [k' c|k' c]]; simpl in *;
    (destruct (decide (k' = k)) as [->|Hne]; [rewrite (Hu eq_refl)|]).
  - destruct (entry_tracks k cfg now now' s h Hcfg Hn Hw) as ([H1 H2] & Hm & Hh).
    destruct Hcfg as [Hcm Hch]. unfold check_and_record.
    destruct (requests_per_minute cfg <=? count (minute_window (entry_reset s k now'))) eqn:E1;
      [|destruct (requests_per_hour cfg <=? count (hour_window (entry_reset s k now'))) eqn:E2];
      unfold world_tracks; simpl; rewrite lookup_insert_eq;
      [by split|by split|].
    rewrite bool_decide_eq_true_2 by done. apply Z.leb_gt in E1, E2.
    split; simpl; by apply tracks_grant.
  - pose proof (proj1 (other_keys s k' c now' k ltac:(congruence))) as Ho.
    destruct (check_and_record s k' c now') as [r s'] eqn:E. simpl in Ho.
    rewrite bool_decide_eq_false_2, andb_false_r by done. unfold world_tracks in *. simpl in *.
    rewrite Ho. destruct (s !! k); [|done]. destruct Hw. split; by eapply tracks_later.
  - destruct (entry_tracks k cfg now now' s h Hcfg Hn Hw) as (H1 & _).
    unfold check. repeat case_match; unfold world_tracks; simpl; rewrite lookup_insert_eq; done.
  - pose proof (proj2 (other_keys s k' c now' k ltac:(congruence))) as Ho.
    unfold world_tracks in *. simpl in *. rewrite Ho.
    destruct (s !! k); [|done]. destruct Hw. split; by eapply tracks_later.
Qed.

Lemma run_tracks k cfg evs : forall now w,
  u32_config cfg -> StronglySorted Z.le (now :: map fst evs) -> Forall (uses k cfg) evs ->
  world_tracks k cfg now w ->
  exists now', world_tracks k cfg now' (foldl (exec k) w evs).
Proof.
  induction evs as [|e evs IH]; intros now w Hcfg Hs Hu Hw; simpl; [by exists now|].
  inv Hu. inversion Hs as [|? ? Hs' Hall]; subst. simpl in *. inv Hall.
  apply (IH (fst e)); [done|done|done|]. by eapply exec_tracks.
Qed.

(** ** Properties *)

(** [check_and_record] grants exactly when, after expired windows are
    reset, both counters of the tool are below their limits; a grant adds one
    to both counters and reports what is left of the limits, with no wrap of
    the [u32] arithmetic; a refusal names the limit and the time to the end
    of its window, at most the window; [check] gives the same answer but for
    the request itself and counts nothing; and no other (user, tool) pair is
    touched. *)
Theorem check_and_record_spec s k cfg now :
  u32_config cfg -> counts_nonneg s ->
  let t := entry_reset s k now in
  let m := count (minute_window t) in
  let h := count (hour_window t) in
  let r := check_and_record s k cfg now in
  (is_allowed (fst r) = true <-> m < requests_per_minute cfg /\ h < requests_per_hour cfg)
  /\ is_allowed (fst (check s k cfg now)) = is_allowed (fst r)
  /\ get_usage (snd (check s k cfg now)) k = Some (m, h)
  /\ (forall rm rh, fst r = Allowed rm rh ->
        rm = requests_per_minute cfg - (m + 1) /\ rh = requests_per_hour cfg - (h + 1)
        /\ 0 <= rm /\ 0 <= rh /\ get_usage (snd r) k = Some (m + 1, h + 1))
  /\ (forall d ty, fst r = Limited d ty ->
        get_usage (snd r) k = Some (m, h)
        /\ 0 <= d <= match ty with PerMinute => MINUTE | PerHour => HOUR end)
  /\ (forall k', k' <> k ->
        snd r !! k' = s !! k' /\ snd (check s k cfg now) !! k' = s !! k').
Proof.
  intros [Hm Hh] Hs t m h r. destruct (entry_reset_nonneg s k now Hs) as [Hm0 Hh0].
  pose proof (other_keys s k cfg now) as Hother. unfold in_u in *. subst r m h.
  unfold check_and_record, check, get_usage, bump, wrapping_add in *. fold t in Hm0, Hh0, Hother |- *.
  clearbody t. destruct t as [[ms m] [hs h]]. cbn [minute_window hour_window count window_start] in *.
  destruct (Z.leb_spec (requests_per_minute cfg) m) as [E1|E1];
    [|destruct (Z.leb_spec (requests_per_hour cfg) h) as [E2|E2]]; cbn [fst snd is_allowed] in *;
    rewrite ?lookup_insert_eq; cbn [fmap option_fmap option_map minute_window hour_window count].
  1,2: split_and!; [split; [done|lia]|done|done|done| |exact Hother];
    intros d ty [= <- <-]; unfold time_until_reset, elapsed, MINUTE, HOUR, from_secs;
    case_match; bool_to_prop; split; [done|lia|done|lia].
  rewrite (wrap_small 32 (m + 1)), (wrap_small 32 (h + 1)), !wrap_small by (unfold in_u; lia).
  split_and!; [done|done|done| |done|].
  - intros rm rh [= <- <-]. split_and!; [done|done|lia|lia|done].
  - intros k' Hne. destruct (Hother k' Hne) as [Ho1 Ho2]. split; by rewrite insert_other.
Qed.

(** Whatever the sequence of checks and requests of all users and
    tools, with a clock that does not go back, a tool is granted at most
    twice its per-minute limit in any minute and at most twice its per-hour
    limit in any hour.  (Twice, because the windows are fixed and not
    sliding: the witness shows the bound reached.) *)
Theorem granted_requests_bounded k cfg t0 evs :
  u32_config cfg -> StronglySorted Z.le (t0 :: map fst evs) -> Forall (uses k cfg) evs ->
  let granted := snd (foldl (exec k) (new_limiter, []) evs) in
  forall a,
    Z.of_nat (length (span a MINUTE granted)) <= 2 * requests_per_minute cfg
    /\ Z.of_nat (length (span a HOUR granted)) <= 2 * requests_per_hour cfg.
Proof.
  intros Hcfg Hs Hu granted a.
  destruct (run_tracks k cfg evs t0 (new_limiter, []) Hcfg Hs Hu) as [now' Hw]; [done|].
  unfold world_tracks in Hw. fold granted in Hw.
  destruct (fst _ !! k) as [t|].
  - destruct Hw as [[] []]. auto.
  - rewrite Hw. destruct Hcfg. unfold in_u in *. simpl. lia.
Qed.

(** ** Witnesses *)
Definition demo_key : Key := ("alice", "web")%string.
Definition demo_rate : RateLimitConfig := mkRate 2 100.

Lemma check_and_record_spec_witness :
  fst (check_and_record new_limiter demo_key demo_rate 7) = Allowed 1 99
  /\ get_usage (snd (check_and_record new_limiter demo_key demo_rate 7)) demo_key = Some (1, 1).
Proof.
  destruct (check_and_record_spec new_limiter demo_key demo_rate 7) as (_ & _ & _ & H & _ & _).
  - split; split; simpl; lia.
  - intros k t Hk. unfold new_limiter in Hk. by rewrite lookup_empty in Hk.
  - split; [vm_compute; reflexivity|]. apply (H 1 99). vm_compute. reflexivity.
Defined.

(** Two requests at the end of a window and two at the start of the next:
    four within two seconds, with a limit of two a minute. *)
Definition demo_events : list (Instant * Event) :=
  map (fun s => (from_secs s, Record_ demo_key demo_rate)) [59; 59; 60; 60].

Definition demo_events_start : list (Instant * Event) :=
  (from_secs 0, Preview demo_key demo_rate) :: demo_events.

Lemma granted_requests_bounded_witness :
  length (span (from_secs 59) MINUTE (snd (foldl (exec demo_key) (new_limiter, []) demo_events_start))) = 4%nat
  /\ Z.of_nat (length (span (from_secs 59) MINUTE
        (snd (foldl (exec demo_key) (new_limiter, []) demo_events_start)))) <= 2 * requests_per_minute demo_rate.
Proof.
  split; [vm_compute; reflexivity|].
  refine (proj1 (granted_requests_bounded demo_key demo_rate 0 demo_events_start _ _ _ (from_secs 59))).
  - split; split; simpl; lia.
  - cbn [map fst demo_events_start demo_events].
    repeat (apply SSorted_cons; [|repeat (apply Forall_cons; split; [unfold from_secs; lia|]); apply Forall_nil; exact I]).
    apply SSorted_nil.
  - repeat (apply Forall_cons; split; [unfold uses; simpl; auto|]). apply Forall_nil. exact I.
Defined.
