(* ===== verification/Chunker.v ===== *)
(** Document chunking for the search index: [src/workspace/chunker.rs].

    The [f32] product that gives the overlap is the parameter [scale].
    Lengths are [nat]s: every index stays below the number of words. *)

From S2P Require Import Prelude Strs.
#[local] Open Scope nat_scope.

Section Chunker.
  Context {F32 : Type} (scale : nat -> F32 -> nat).

Record ChunkConfig := mkChunk {
  chunk_size : nat;
  overlap_percent : F32;
  min_chunk_size : nat;
}.
Definition default_chunk (default_overlap : F32) : ChunkConfig := mkChunk 800 default_overlap 50.
Definition with_chunk_size (c : ChunkConfig) (size : nat) : ChunkConfig :=
  mkChunk size (overlap_percent c) (min_chunk_size c).
(** [clamp_0_half] is [f32::clamp(0.0, 0.5)]. *)
Definition with_overlap (clamp_0_half : F32 -> F32) (c : ChunkConfig) (percent : F32) : ChunkConfig :=
  mkChunk (chunk_size c) (clamp_0_half percent) (min_chunk_size c).
Definition overlap_size (c : ChunkConfig) : nat := scale (chunk_size c) (overlap_percent c).
(** [saturating_sub]. *)
Definition step_size (c : ChunkConfig) : nat := chunk_size c - overlap_size c.

Definition join (ws : list string) : string := String.concat " " ws.
(** [&words[a..b]]. *)
Definition slice (words : list string) (a b : nat) : list string := take (b - a) (drop a words).

Definition is_nil {A} (l : list A) : bool := match l with [] => true | _ => false end.

(** The [while] loop; [None] when the fuel runs out. *)
Fixpoint chunk_loop (fuel : nat) (words : list string) (c : ChunkConfig) (start : nat)
    (chunks : list string) : option (list string) :=
  match fuel with
  | O => None
  | S fuel =>
      if start <? length words then
        let end_ := Nat.min (start + chunk_size c) (length words) in
        let chunk_words := slice words start end_ in
        if (length chunk_words <? min_chunk_size c) && negb (is_nil chunks) then
          let last := default EmptyString (last chunks) in
          Some (removelast chunks ++ [String.append last (String.append " " (join chunk_words))])
        else
          let chunks := chunks ++ [join chunk_words] in
          let start := start + step_size c in
          if (length words <=? start + min_chunk_size c) && (end_ =? length words) then Some chunks
          else chunk_loop fuel words c start chunks
      else Some chunks
  end.

Definition chunk_document (fuel : nat) (content : string) (c : ChunkConfig) : option (list string) :=
  if bool_decide (content = EmptyString) then Some []
  else
    let words := split_whitespace content in
    if is_nil words then Some []
    else if length words <=? chunk_size c then Some [content]
    else chunk_loop fuel words c 0 [].

(** ** What a list of chunks covers

    A chunk is the join of one or more intervals of the word list.  [chain e
    ivs n]: the intervals, read left to right, cover the words from [e] to
    [n] with no word skipped. *)
Fixpoint chain (e : nat) (ivs : list (nat * nat)) (n : nat) : Prop :=
  match ivs with
  | [] => e = n
  | (a, b) :: r => a <= e <= b /\ chain b r n
  end.

Definition text_of (words : list string) (part : list (nat * nat)) : string :=
  join (flat_map (fun iv => slice words (fst iv) (snd iv)) part).
Definition size_of (words : list string) (part : list (nat * nat)) : nat :=
  length (flat_map (fun iv => slice words (fst iv) (snd iv)) part).

(** ** Lemmas *)
Lemma chain_app e l1 l2 n m : chain e l1 m -> chain m l2 n -> chain e (l1 ++ l2) n.
Proof.
  revert e. induction l1 as [|[a b] l1 IH]; simpl; intros e H1 H2; [by subst|].
  destruct H1. auto.
Qed.

(** Every index of a chain's range lies in one of its intervals. *)
Lemma chain_covers e ivs n i :
  chain e ivs n -> e <= i < n -> exists iv, iv ∈ ivs /\ fst iv <= i < snd iv.
Proof.
  revert e. induction ivs as [|[a b] r IH]; simpl; intros e Hc Hi; [lia|].
  destruct Hc as [Hab Hc]. destruct (decide (i < b)).
  - exists (a, b). simpl. split; [set_solver|lia].
  - destruct (IH b Hc ltac:(lia)) as (iv & Hin & Hiv). exists iv. split; [set_solver|done].
Qed.

Lemma length_slice words a b : b <= length words -> length (slice words a b) = b - a.
Proof. intros H. unfold slice. rewrite length_take, length_drop. lia. Qed.

Lemma slice_lookup words a b i : a <= i < b -> words !! i = slice words a b !! (i - a).
Proof.
  intros H. unfold slice. rewrite lookup_take_lt, lookup_drop by lia. f_equal. lia.
Qed.

Lemma join_app l1 l2 :
  l1 <> [] -> l2 <> [] -> join (l1 ++ l2) = String.append (join l1) (String.append " " (join l2)).
Proof.
  intros H1 H2. unfold join. induction l1 as [|w l1 IH]; [done|]. destruct l1 as [|w' l1].
  - simpl. by destruct l2.
  - change ((w :: w' :: l1) ++ l2) with (w :: ((w' :: l1) ++ l2)).
    assert (forall x (l : list string), l <> [] -> String.concat " " (x :: l)
      = String.append x (String.append " " (String.concat " " l))) as Hcons by (intros x []; done).
    rewrite !Hcons by (by destruct l1). rewrite IH by done.
    by rewrite !append_assoc_str.
Qed.

Lemma slice_not_nil words a b : a < b -> b <= length words -> slice words a b <> [].
Proof. intros Hab Hb H. pose proof (length_slice words a b Hb) as Hl. rewrite H in Hl. simpl in Hl. lia. Qed.

Definition part_ok (words : list string) (part : list (nat * nat)) : Prop :=
  flat_map (fun iv => slice words (fst iv) (snd iv)) part <> [].

Lemma text_of_snoc words part a b :
  part_ok words part -> a < b -> b <= length words ->
  text_of words (part ++ [(a, b)])
  = String.append (text_of words part) (String.append " " (join (slice words a b))).
Proof.
  intros Hp Hab Hb. unfold text_of. rewrite flat_map_app. simpl. rewrite app_nil_r.
  apply join_app; [done|]. by apply slice_not_nil.
Qed.

Lemma is_nil_map {A B} (f : A -> B) l : is_nil (map f l) = is_nil l.
Proof. by destruct l. Qed.

(** The state of the loop: the words up to [e] are covered by [parts]. *)
Record loop_inv (words : list string) (c : ChunkConfig) (start : nat) (parts : list (list (nat * nat)))
    (e : nat) : Prop := {
  li_start : start <= e \/ e = length words;
  li_reach : e <= start + chunk_size c;
  li_len : e <= length words;
  li_chain : chain 0 (concat parts) e;
  li_parts : Forall (part_ok words) parts;
  li_sizes : Forall (fun p => size_of words p <= chunk_size c) parts;
}.

Lemma loop_inv_push words c start parts e :
  1 <= step_size c -> start < length words -> loop_inv words c start parts e ->
  let end_ := Nat.min (start + chunk_size c) (length words) in
  loop_inv words c (start + step_size c) (parts ++ [[(start, end_)]]) end_.
Proof.
  intros Hstep Hs [Hse Hec Hen Hch Hok Hsz] end_.
  assert (step_size c <= chunk_size c) as Hsc by (unfold step_size; lia).
  assert (start < end_ <= length words) as He by lia.
  split; try lia.
  - rewrite concat_app. simpl. apply (chain_app _ _ _ _ e); [done|]. simpl. lia.
  - apply Forall_app. split; [done|]. constructor; [|done]. unfold part_ok. simpl. rewrite app_nil_r.
    apply slice_not_nil; lia.
  - apply Forall_app. split; [done|]. constructor; [|done]. unfold size_of. simpl.
    rewrite app_nil_r, length_slice by lia. lia.
Qed.

Lemma map_removelast_last words parts p :
  removelast (map (text_of words) (parts ++ [p])) = map (text_of words) parts
  /\ default EmptyString (last (map (text_of words) (parts ++ [p]))) = text_of words p.
Proof. rewrite map_app. simpl. split; [by rewrite removelast_last|by rewrite last_snoc]. Qed.

Lemma chunk_loop_covers words c :
  1 <= step_size c -> min_chunk_size c <= chunk_size c ->
  forall fuel start parts e,
  length words - start < fuel -> loop_inv words c start parts e ->
  exists parts', chunk_loop fuel words c start (map (text_of words) parts) = Some (map (text_of words) parts')
    /\ chain 0 (concat parts') (length words)
    /\ Forall (fun p => size_of words p <= chunk_size c + min_chunk_size c) parts'.
Proof.
  intros Hstep Hmin. induction fuel as [|fuel IH]; intros start parts e Hf Hinv; [lia|].
  simpl chunk_loop. destruct (Nat.ltb_spec start (length words)) as [Hs|Hs]; cycle 1.
  { exists parts. destruct Hinv as [Hse Hec Hen Hch Hok Hsz].
    split_and!; [done|replace (length words) with e by lia; done|].
    eapply Forall_impl; [exact Hsz|]. simpl. lia. }
  pose proof (loop_inv_push words c start parts e Hstep Hs Hinv) as Hpush.
  set (end_ := Nat.min (start + chunk_size c) (length words)) in *.
  rewrite is_nil_map, length_slice by lia.
  destruct ((end_ - start <? min_chunk_size c) && negb (is_nil parts)) eqn:Hm.
  - apply andb_true_iff in Hm as [Hlt Hnil]. apply Nat.ltb_lt in Hlt.
    destruct parts as [|p parts0 _] using rev_ind; [done|].
    destruct (map_removelast_last words parts0 p) as [-> ->].
    destruct Hinv as [Hse Hec Hen Hch Hok Hsz].
    apply Forall_app in Hok as [_ Hokp]. inv Hokp.
    apply Forall_app in Hsz as [Hsz0 Hszp]. inv Hszp.
    exists (parts0 ++ [p ++ [(start, end_)]]). split_and!.
    + rewrite map_app. simpl. by rewrite text_of_snoc by lia || done.
    + rewrite !concat_app in *. simpl in *. rewrite app_nil_r in *. rewrite app_assoc.
      apply (chain_app _ _ _ _ e); [done|]. simpl. lia.
    + apply Forall_app. split; [eapply Forall_impl; [exact Hsz0|]; simpl; lia|].
      constructor; [|done]. unfold size_of in *. rewrite flat_map_app, length_app. simpl.
      rewrite app_nil_r, length_slice by lia. lia.
  - assert (map (text_of words) parts ++ [join (slice words start end_)]
            = map (text_of words) (parts ++ [[(start, end_)]])) as ->.
    { rewrite map_app. unfold text_of at 3. simpl. by rewrite app_nil_r. }
    destruct ((length words <=? start + step_size c + min_chunk_size c) && (end_ =? length words)) eqn:Hb.
    + apply andb_true_iff in Hb as [_ Hb]. apply Nat.eqb_eq in Hb.
      destruct Hpush as [? ? ? Hch ? Hsz]. exists (parts ++ [[(start, end_)]]).
      split_and!; [done|by rewrite <- Hb|]. eapply Forall_impl; [exact Hsz|]. simpl. lia.
    + eapply IH; [lia|exact Hpush].
Qed.

Lemma part_elem words part i w iv :
  iv ∈ part -> fst iv <= i < snd iv -> words !! i = Some w ->
  w ∈ flat_map (fun iv => slice words (fst iv) (snd iv)) part.
Proof.
  intros Hiv Hi Hw. apply list_elem_of_In, in_flat_map. exists iv.
  split; [by apply list_elem_of_In|]. apply list_elem_of_In.
  rewrite (slice_lookup words (fst iv) (snd iv) i Hi) in Hw. by eapply list_elem_of_lookup_2.
Qed.

(** ** Properties *)

(** For a configuration whose overlap is smaller than the chunk and
    whose minimum is at most the chunk size, [chunk_document] returns (the
    loop ends within one turn per word), and when the document is longer
    than a chunk the chunks are joins of intervals of its words that, read
    left to right, go from the first word to the last and skip none; so each
    word is in some chunk; no chunk is longer than [chunk_size +
    min_chunk_size] words. *)
Theorem chunk_document_covers fuel content c :
  overlap_size c < chunk_size c -> min_chunk_size c <= chunk_size c ->
  let words := split_whitespace content in
  length words < fuel ->
  exists chunks, chunk_document fuel content c = Some chunks
    /\ (content <> EmptyString -> words <> [] -> length words <= chunk_size c -> chunks = [content])
    /\ (content <> EmptyString -> chunk_size c < length words ->
        exists parts, chunks = map (text_of words) parts
          /\ chain 0 (concat parts) (length words)
          /\ (forall i w, words !! i = Some w -> exists p, p ∈ parts
                /\ w ∈ flat_map (fun iv => slice words (fst iv) (snd iv)) p)
          /\ Forall (fun p => size_of words p <= chunk_size c + min_chunk_size c) parts).
Proof.
  intros Hov Hmin words Hf. unfold chunk_document. fold words. case_bool_decide as Hc; [by eexists|].
  destruct (is_nil words) eqn:Hnil.
  { destruct words; [|done]. eexists. split_and!; [done|done|]. simpl. lia. }
  destruct (Nat.leb_spec (length words) (chunk_size c)) as [Hl|Hl].
  { eexists. split_and!; [done|done|lia]. }
  destruct (chunk_loop_covers words c) with (fuel := fuel) (start := 0) (parts := @nil (list (nat * nat))) (e := 0)
    as (parts & Hr & Hch & Hsz); [unfold step_size; lia|done|lia|by split; simpl; auto with lia|].
  exists (map (text_of words) parts). split_and!; [exact Hr|lia|]. intros _ _. exists parts.
  split_and!; [done|done| |done]. intros i w Hw.
  destruct (chain_covers _ _ _ i Hch) as (iv & Hin & Hiv); [apply lookup_lt_Some in Hw; lia|].
  apply list_elem_of_In, in_concat in Hin as (p & Hp & Hivp). exists p.
  split; [by apply list_elem_of_In|]. eapply part_elem; [by apply list_elem_of_In|done|done].
Qed.

(** Outside these bounds the function fails.  With a minimum above the
    chunk size, as [with_chunk_size] makes of the default configuration for
    sizes below 50, a document longer than a chunk comes back as a single
    chunk of its first two intervals and every word after them is left out
    of the index.  With an overlap of a whole chunk the loop never ends,
    whatever the fuel. *)
Theorem chunk_config_limits fuel content c :
  let words := split_whitespace content in
  content <> EmptyString -> chunk_size c < length words ->
  (1 <= step_size c -> chunk_size c < min_chunk_size c ->
     chunk_document (S (S fuel)) content c =
       Some [text_of words [(0, chunk_size c);
                            (step_size c, Nat.min (step_size c + chunk_size c) (length words))]])
  /\ (step_size c = 0 -> min_chunk_size c <= chunk_size c -> chunk_document fuel content c = None).
Proof.
  intros words Hc Hl. unfold chunk_document. fold words. rewrite bool_decide_eq_false_2 by done.
  replace (is_nil words) with false by (destruct words; simpl in *; [lia|done]).
  destruct (Nat.leb_spec (length words) (chunk_size c)); [lia|]. split.
  - intros Hstep Hmin. assert (step_size c <= chunk_size c) as Hsc by (unfold step_size; lia).
    simpl chunk_loop. rewrite (proj2 (Nat.ltb_lt 0 (length words))) by lia.
    rewrite andb_false_r. simpl. rewrite (proj2 (Nat.eqb_neq (Nat.min _ _) _)) by lia. rewrite andb_false_r.
    rewrite (proj2 (Nat.ltb_lt (step_size c) (length words))) by lia.
    rewrite length_slice by lia.
    rewrite (proj2 (Nat.ltb_lt (Nat.min (step_size c + chunk_size c) (length words) - step_size c) _)) by lia.
    simpl. rewrite Nat.min_l by lia. do 2 f_equal.
    change [(0, chunk_size c); (step_size c, Nat.min (step_size c + chunk_size c) (length words))]
      with ([(0, chunk_size c)] ++ [(step_size c, Nat.min (step_size c + chunk_size c) (length words))]).
    rewrite text_of_snoc by (lia || (unfold part_ok; simpl; rewrite app_nil_r; apply slice_not_nil; lia)).
    unfold text_of. simpl. by rewrite app_nil_r.
  - intros Hstep Hmin. generalize (@nil string) as chunks.
    induction fuel as [|fuel IH]; intros chunks; [done|]. simpl chunk_loop.
    rewrite (proj2 (Nat.ltb_lt 0 (length words))) by lia. simpl (0 + _).
    rewrite length_slice by lia.
    rewrite (proj2 (Nat.ltb_ge _ (min_chunk_size c))) by lia. simpl andb.
    rewrite (proj2 (Nat.eqb_neq (Nat.min _ _) _)) by lia. rewrite andb_false_r, Hstep. apply IH.
Qed.
End Chunker.

(** ** Witnesses

    The overlap is given in words. *)
Definition words_overlap (size overlap : nat) : nat := overlap.
Definition seven : string := "a b c d e f g".

Lemma chunk_document_covers_witness :
  chunk_document words_overlap 20 seven (mkChunk 3 1 2)
    = Some ["a b c"; "c d e"; "e f g"]%string
  /\ exists chunks, chunk_document words_overlap 20 seven (mkChunk 3 1 2) = Some chunks.
Proof.
  split; [vm_compute; reflexivity|].
  destruct (chunk_document_covers words_overlap 20 seven (mkChunk 3 1 2))
    as (chunks & H & _); [vm_compute; lia|vm_compute; lia|vm_compute; lia|].
  exists chunks. exact H.
Defined.

Lemma chunk_config_limits_witness :
  chunk_document words_overlap 20 seven (mkChunk 2 0 50)
    = Some ["a b c d"%string].
Proof.
  destruct (chunk_config_limits words_overlap 18 seven (mkChunk 2 0 50)) as [H _];
    [discriminate|vm_compute; lia|].
  rewrite H; [vm_compute; reflexivity|vm_compute; lia|vm_compute; lia].
Defined.
