(* ===== verification/Search.v ===== *)
(** Hybrid search: [src/workspace/search.rs], the reciprocal rank fusion of
    full-text and vector results.  Scores are [f32] as the program computes
    them; the order in which a [HashMap] gives its entries, which decides
    between equal scores, is that of [map_to_list]. *)

From S2P Require Import Prelude Float64.

Record SearchConfig := mkSearch {
  limit : nat; rrf_k : Z; use_fts : bool; use_vector : bool; min_score : f32; pre_fusion_limit : nat }.
Definition default_search : SearchConfig := mkSearch 10 60 true true (f32_of 0) 50.
Definition with_limit (n : nat) (c : SearchConfig) : SearchConfig :=
  mkSearch n (rrf_k c) (use_fts c) (use_vector c) (min_score c) (pre_fusion_limit c).
Definition with_rrf_k (k : Z) (c : SearchConfig) : SearchConfig :=
  mkSearch (limit c) k (use_fts c) (use_vector c) (min_score c) (pre_fusion_limit c).
Definition vector_only (c : SearchConfig) : SearchConfig :=
  mkSearch (limit c) (rrf_k c) false true (min_score c) (pre_fusion_limit c).
Definition fts_only (c : SearchConfig) : SearchConfig :=
  mkSearch (limit c) (rrf_k c) true false (min_score c) (pre_fusion_limit c).
Definition with_min_score (x : f32) (c : SearchConfig) : SearchConfig :=
  mkSearch (limit c) (rrf_k c) (use_fts c) (use_vector c) (f32_clamp x (f32_of 0) (f32_of 1)) (pre_fusion_limit c).

Record SearchResult := mkResult {
  sr_document_id : Uuid; sr_chunk_id : Uuid; sr_content : string; score : f32; fts_rank : option Z; vector_rank : option Z }.
Definition from_fts (r : SearchResult) : bool := match fts_rank r with Some _ => true | None => false end.
Definition from_vector (r : SearchResult) : bool := match vector_rank r with Some _ => true | None => false end.
Definition is_hybrid (r : SearchResult) : bool := from_fts r && from_vector r.
Record RankedResult := mkRanked { rr_chunk_id : Uuid; rr_document_id : Uuid; rr_content : string; rank : Z }.

Record ChunkInfo := mkInfo {
  ci_document_id : Uuid; ci_content : string; ci_score : f32; ci_fts_rank : option Z; ci_vector_rank : option Z }.
Definition rrf_score (k : f32) (rank : Z) : f32 := f32_div (f32_of 1) (f32_add k (f32_of rank)).
(** One result of the full-text ([true]) or the vector search. *)
Definition add_result (fts : bool) (k : f32) (m : gmap Uuid ChunkInfo) (r : RankedResult) : gmap Uuid ChunkInfo :=
  let s := rrf_score k (rank r) in
  <[rr_chunk_id r :=
      match m !! rr_chunk_id r with
      | Some i => mkInfo (ci_document_id i) (ci_content i) (f32_add (ci_score i) s)
                    (if fts then Some (rank r) else ci_fts_rank i) (if fts then ci_vector_rank i else Some (rank r))
      | None => mkInfo (rr_document_id r) (rr_content r) s (if fts then Some (rank r) else None) (if fts then None else Some (rank r))
      end]> m.
Definition fused (fts vec : list RankedResult) (k : f32) : gmap Uuid ChunkInfo :=
  foldl (add_result false k) (foldl (add_result true k) ∅ fts) vec.
Definition result_of (e : Uuid * ChunkInfo) : SearchResult :=
  mkResult (ci_document_id e.2) e.1 (ci_content e.2) (ci_score e.2) (ci_fts_rank e.2) (ci_vector_rank e.2).
Definition set_score (f : f32 -> f32) (r : SearchResult) : SearchResult :=
  mkResult (sr_document_id r) (sr_chunk_id r) (sr_content r) (f (score r)) (fts_rank r) (vector_rank r).
Definition max_score (l : list SearchResult) : option f32 :=
  match l with [] => None | r :: l => Some (foldl (fun m r => f32_max m (score r)) (score r) l) end.
Definition normalize (l : list SearchResult) : list SearchResult :=
  match max_score l with
  | Some m => if f32_ltb (f32_of 0) m then set_score (fun s => f32_div s m) <$> l else l
  | None => l
  end.
Definition above_min (c : SearchConfig) (l : list SearchResult) : list SearchResult :=
  if f32_ltb (f32_of 0) (min_score c) then List.filter (fun r => f32_leb (min_score c) (score r)) l else l.
(** The stable sort by descending score; scores that do not compare count as equal. *)
Fixpoint insert_result (x : SearchResult) (l : list SearchResult) : list SearchResult :=
  match l with
  | [] => [x]
  | y :: l' => if f32_ltb (score y) (score x) then x :: l else y :: insert_result x l'
  end.
Definition sort_results (l : list SearchResult) : list SearchResult := foldl (fun acc x => insert_result x acc) [] l.
Definition reciprocal_rank_fusion (fts vec : list RankedResult) (c : SearchConfig) : list SearchResult :=
  take (limit c) (sort_results (above_min c (normalize (result_of <$> map_to_list (fused fts vec (f32_of (rrf_k c))))))).

(** ** Proofs *)
Lemma insert_result_perm x l : insert_result x l ≡ₚ x :: l.
Proof.
  induction l as [|y l IH]; cbn [insert_result]; [done|]. destruct (f32_ltb _ _); [done|]. rewrite IH. apply perm_swap.
Qed.
Lemma sort_results_perm l : sort_results l ≡ₚ l.
Proof.
  unfold sort_results. enough (forall acc, foldl (fun acc x => insert_result x acc) acc l ≡ₚ acc ++ l) as -> by done.
  induction l as [|x l IH]; intros acc; cbn; [by rewrite app_nil_r|]. rewrite IH, insert_result_perm. apply Permutation_middle.
Qed.
(** No result has a smaller score than the one after it. *)
Definition descending : list SearchResult -> Prop := Sorted (fun a b => f32_ltb (score a) (score b) = false).
Lemma insert_result_sorted x l : descending l -> descending (insert_result x l).
Proof.
  induction 1 as [|y l Hs IH Hh]; cbn [insert_result]; [by repeat constructor|].
  destruct (f32_ltb (score y) (score x)) eqn:E.
  - constructor; [by constructor|]. constructor. by apply f32_ltb_asym.
  - constructor; [done|]. destruct l as [|z l]; cbn [insert_result]; [by constructor|].
    destruct (f32_ltb (score z) (score x)); constructor; [done|]. by inversion Hh.
Qed.
Lemma sort_results_sorted l : descending (sort_results l).
Proof.
  unfold sort_results. enough (forall acc, descending acc -> descending (foldl (fun acc x => insert_result x acc) acc l)) by (apply H; constructor).
  induction l as [|x l IH]; intros acc H; cbn; [done|]. by apply IH, insert_result_sorted.
Qed.
Lemma descending_take n l : descending l -> descending (take n l).
Proof.
  revert n. induction l as [|x l IH]; intros [|n] H; cbn; try constructor; inversion H; subst; [by apply IH|].
  destruct l, n; constructor; by inversion H3.
Qed.

(** What one list contributes: its first hit on a chunk, when chunks do not repeat. *)
Definition rank_in (l : list RankedResult) (c : Uuid) : option Z := rank <$> List.find (fun r => bool_decide (rr_chunk_id r = c)) l.
Lemma rank_in_cons r l c : rank_in (r :: l) c = if bool_decide (rr_chunk_id r = c) then Some (rank r) else rank_in l c.
Proof. unfold rank_in. cbn [List.find]. by case_bool_decide. Qed.
Lemma rank_in_none l c : rank_in l c = None <-> c ∉ rr_chunk_id <$> l.
Proof.
  induction l as [|r l IH]; [split; [intros _; apply not_elem_of_nil|done]|]. rewrite rank_in_cons, fmap_cons, not_elem_of_cons, <-IH.
  case_bool_decide; naive_solver.
Qed.
Lemma foldl_add_lookup fts k l m c :
  NoDup (rr_chunk_id <$> l) ->
  foldl (add_result fts k) m l !! c
  = match List.find (fun r => bool_decide (rr_chunk_id r = c)) l with
    | Some r => add_result fts k m r !! c
    | None => m !! c
    end.
Proof.
  revert m. induction l as [|r l IH]; intros m; cbn [foldl List.find fmap list_fmap]; [done|]. intros [Hn Hd]%NoDup_cons. rewrite IH by done.
  case_bool_decide as Hr.
  - subst c. destruct (List.find _ l) as [r'|] eqn:E; [|done]. exfalso. apply find_some in E as [Hin Heq%bool_decide_eq_true].
    apply Hn. rewrite <-Heq. apply list_elem_of_fmap_2. by apply list_elem_of_In.
  - destruct (List.find _ l) as [r'|] eqn:E.
    + apply find_some in E as [_ Heq%bool_decide_eq_true]. unfold add_result at 1 3. rewrite Heq, !lookup_insert_eq.
      unfold add_result. by rewrite lookup_insert_ne.
    + unfold add_result. by rewrite lookup_insert_ne.
Qed.
(** The entry of a chunk: the ranks of both searches and the sum of its scores. *)
Definition fused_score (k : f32) (a b : option Z) : f32 :=
  match a, b with
  | Some a, Some b => f32_add (rrf_score k a) (rrf_score k b)
  | Some a, None | None, Some a => rrf_score k a
  | None, None => f32_of 0
  end.
Lemma fused_lookup fts vec k c :
  NoDup (rr_chunk_id <$> fts) -> NoDup (rr_chunk_id <$> vec) ->
  match fused fts vec k !! c with
  | Some i => ci_fts_rank i = rank_in fts c /\ ci_vector_rank i = rank_in vec c /\ (is_Some (rank_in fts c) \/ is_Some (rank_in vec c))
              /\ ci_score i = fused_score k (rank_in fts c) (rank_in vec c)
  | None => rank_in fts c = None /\ rank_in vec c = None
  end.
Proof.
  intros Hf Hv. unfold fused. rewrite foldl_add_lookup by done. unfold rank_in.
  assert (Hm : foldl (add_result true k) ∅ fts !! c
    = match List.find (fun r => bool_decide (rr_chunk_id r = c)) fts with Some r => add_result true k ∅ r !! c | None => None end)
    by (rewrite foldl_add_lookup by done; destruct (List.find _ fts); by rewrite ?lookup_empty).
  destruct (List.find _ vec) as [rv|] eqn:Ev.
  - apply find_some in Ev as [_ Ev%bool_decide_eq_true]. unfold add_result at 1. rewrite Ev, lookup_insert_eq, Hm.
    destruct (List.find _ fts) as [rf|] eqn:Ef; cbn; [|by eauto 8].
    apply find_some in Ef as [_ Ef%bool_decide_eq_true]. unfold add_result. rewrite Ef, lookup_insert_eq, lookup_empty. cbn. by eauto 8.
  - rewrite Hm. destruct (List.find _ fts) as [rf|] eqn:Ef; cbn; [|done].
    apply find_some in Ef as [_ Ef%bool_decide_eq_true]. unfold add_result. rewrite Ef, lookup_insert_eq, lookup_empty. cbn. by eauto 8.
Qed.
Lemma normalize_ids l : sr_chunk_id <$> normalize l = sr_chunk_id <$> l.
Proof.
  unfold normalize. destruct (max_score l); [|done]. destruct (f32_ltb _ _); [|done]. by rewrite <-list_fmap_compose.
Qed.
Lemma normalize_elem l r : r ∈ normalize l -> exists r0 f, r0 ∈ l /\ r = set_score f r0.
Proof.
  assert (Hid : forall r0, r0 = set_score (fun s => s) r0) by (by intros []).
  unfold normalize. destruct (max_score l) as [m|]; [|intros H; exists r, (fun s => s); eauto].
  destruct (f32_ltb _ _); [|intros H; exists r, (fun s => s); eauto]. intros (r0 & -> & H)%list_elem_of_fmap. eauto.
Qed.
(** Every result shows the text and the document of a chunk that one of the
    searches found. *)
Lemma foldl_add_from fts k (Q : Uuid -> Uuid -> string -> Prop) l m :
  (forall c i, m !! c = Some i -> Q c (ci_document_id i) (ci_content i)) ->
  (forall r, r ∈ l -> Q (rr_chunk_id r) (rr_document_id r) (rr_content r)) ->
  forall c i, foldl (add_result fts k) m l !! c = Some i -> Q c (ci_document_id i) (ci_content i).
Proof.
  revert m. induction l as [|r l IH]; intros m Hm Hl; cbn [foldl]; [done|]. apply IH; [|intros x Hx; apply Hl; by right].
  intros c i. unfold add_result. destruct (decide (rr_chunk_id r = c)) as [<-|Hne]; [|rewrite lookup_insert_ne by done; apply Hm].
  rewrite lookup_insert_eq. intros [= <-]. destruct (m !! rr_chunk_id r) as [j|] eqn:E; cbn; [by apply Hm|apply Hl; by left].
Qed.
Lemma fusion_from (Q : Uuid -> Uuid -> string -> Prop) fts vec c r :
  (forall x, x ∈ fts ++ vec -> Q (rr_chunk_id x) (rr_document_id x) (rr_content x)) ->
  r ∈ reciprocal_rank_fusion fts vec c -> Q (sr_chunk_id r) (sr_document_id r) (sr_content r).
Proof.
  intros HQ Hr. unfold reciprocal_rank_fusion in Hr. apply elem_of_take in Hr as (i & Hi & _). apply list_elem_of_lookup_2 in Hi.
  rewrite sort_results_perm in Hi. assert (Hn : r ∈ normalize (result_of <$> map_to_list (fused fts vec (f32_of (rrf_k c))))).
  { unfold above_min in Hi. destruct (f32_ltb _ _); [|done]. apply list_elem_of_In, filter_In in Hi as [Hi _]. by apply list_elem_of_In. }
  apply normalize_elem in Hn as (r0 & f & Hr0 & ->). apply list_elem_of_fmap in Hr0 as ([id e] & -> & Hin). apply elem_of_map_to_list in Hin.
  cbn. revert Hin. unfold fused. apply foldl_add_from; [|intros x Hx; apply HQ, elem_of_app; by right].
  apply foldl_add_from; [by intros ? ?; rewrite lookup_empty|]. intros x Hx. apply HQ, elem_of_app. by left.
Qed.
(** Fusion gives at most [limit] results in descending order of their scores,
    each chunk once, and each with the ranks it has in the two lists; and it
    drops nothing when no minimum is set and the limit leaves room. *)
Theorem reciprocal_rank_fusion_spec (fts vec : list RankedResult) (c : SearchConfig) :
  NoDup (rr_chunk_id <$> fts) -> NoDup (rr_chunk_id <$> vec) ->
  let rs := reciprocal_rank_fusion fts vec c in
  (length rs <= limit c)%nat /\ descending rs /\ NoDup (sr_chunk_id <$> rs)
  /\ (forall r, r ∈ rs -> fts_rank r = rank_in fts (sr_chunk_id r) /\ vector_rank r = rank_in vec (sr_chunk_id r)
        /\ (from_fts r = true \/ from_vector r = true))
  /\ (f32_ltb (f32_of 0) (min_score c) = false -> (length fts + length vec <= limit c)%nat ->
      forall id, id ∈ sr_chunk_id <$> rs <-> id ∈ (rr_chunk_id <$> fts) ++ (rr_chunk_id <$> vec)).
Proof.
  intros Hf Hv rs. set (k := f32_of (rrf_k c)). set (es := map_to_list (fused fts vec k)).
  set (all := normalize (result_of <$> es)).
  assert (Hids : sr_chunk_id <$> all = es.*1) by (unfold all; rewrite normalize_ids, <-list_fmap_compose; done).
  assert (Hnd : NoDup (sr_chunk_id <$> all)) by (rewrite Hids; apply NoDup_fst_map_to_list).
  assert (Hsub : forall r, r ∈ rs -> r ∈ all).
  { intros r Hr. unfold rs, reciprocal_rank_fusion in Hr. apply elem_of_take in Hr as (i & Hi & _). apply list_elem_of_lookup_2 in Hi.
    rewrite sort_results_perm in Hi. unfold above_min in Hi. destruct (f32_ltb _ _); [|done].
    apply list_elem_of_In, filter_In in Hi as [Hi _]. by apply list_elem_of_In. }
  split_and!.
  - unfold rs, reciprocal_rank_fusion. rewrite length_take. lia.
  - apply descending_take, sort_results_sorted.
  - unfold rs, reciprocal_rank_fusion. rewrite fmap_take. eapply sublist_NoDup; [|apply sublist_take]. rewrite sort_results_perm.
    unfold above_min. destruct (f32_ltb _ _); [|done]. clear -Hnd. fold k es all.
    induction all as [|r l IH]; cbn; [constructor|]. apply NoDup_cons in Hnd as [Hn Hd].
    destruct (f32_leb _ _); cbn; [|by apply IH]. constructor; [|by apply IH]. intros Hin. apply Hn.
    apply list_elem_of_fmap in Hin as (x & -> & Hx). apply list_elem_of_fmap_2. apply list_elem_of_In, filter_In in Hx as [Hx _]. by apply list_elem_of_In.
  - intros r Hr. apply Hsub, normalize_elem in Hr as (r0 & f & Hr0 & ->). apply list_elem_of_fmap in Hr0 as ([id i] & -> & Hin).
    apply elem_of_map_to_list in Hin. pose proof (fused_lookup fts vec k id Hf Hv) as H. rewrite Hin in H. destruct H as (H1 & H2 & H3 & _).
    cbn. unfold from_fts, from_vector. cbn. rewrite H1, H2. split_and!; [done..|]. destruct H3 as [[x ->]|[x ->]]; auto.
  - intros Hmin Hlim id.
    assert (Hmem : id ∈ es.*1 <-> id ∈ (rr_chunk_id <$> fts) ++ (rr_chunk_id <$> vec)).
    { pose proof (fused_lookup fts vec k id Hf Hv) as H. rewrite elem_of_app. split.
      - intros ([j i] & -> & Hin)%list_elem_of_fmap. apply elem_of_map_to_list in Hin. cbn in *. rewrite Hin in H. destruct H as (_ & _ & [[x Hx]|[x Hx]] & _).
        + left. apply dec_stable. intros Hn. apply rank_in_none in Hn. congruence.
        + right. apply dec_stable. intros Hn. apply rank_in_none in Hn. congruence.
      - intros Hin. destruct (fused fts vec k !! id) as [i|] eqn:E; [apply list_elem_of_fmap; exists (id, i); split; [done|by apply elem_of_map_to_list]|].
        destruct H as [H1%rank_in_none H2%rank_in_none]. naive_solver. }
    rewrite <-Hmem, <-Hids. unfold rs, reciprocal_rank_fusion. unfold above_min. rewrite Hmin. fold k es all. rewrite take_ge.
    + by rewrite sort_results_perm.
    + rewrite sort_results_perm. assert (length all = length es.*1) as -> by (by rewrite <-Hids, length_fmap).
      assert (es.*1 ⊆+ (rr_chunk_id <$> fts) ++ (rr_chunk_id <$> vec)) as Hs.
      { apply NoDup_submseteq; [apply NoDup_fst_map_to_list|]. intros x Hx. clear Hmem.
        pose proof (fused_lookup fts vec k x Hf Hv) as H. apply list_elem_of_fmap in Hx as ([j i] & -> & Hin). apply elem_of_map_to_list in Hin. cbn in *.
        rewrite Hin in H. destruct H as (_ & _ & [[y Hy]|[y Hy]] & _); apply elem_of_app; [left|right]; apply dec_stable; intros Hn; apply rank_in_none in Hn; congruence. }
      apply submseteq_length in Hs. rewrite length_app, !length_fmap in Hs. rewrite length_fmap. lia.
Qed.

(** ** Witness *)
Definition demo_fts : list RankedResult := [mkRanked 1%N 9%N "a" 1; mkRanked 2%N 9%N "b" 2].
Definition demo_vec : list RankedResult := [mkRanked 2%N 9%N "b" 1].
Lemma reciprocal_rank_fusion_spec_witness :
  sr_chunk_id <$> reciprocal_rank_fusion demo_fts demo_vec default_search = [2%N; 1%N]
  /\ descending (reciprocal_rank_fusion demo_fts demo_vec default_search).
Proof.
  split; [by vm_compute|].
  destruct (reciprocal_rank_fusion_spec demo_fts demo_vec default_search ltac:(vm_compute; repeat constructor; set_solver) ltac:(vm_compute; repeat constructor; set_solver)) as (_ & H & _).
  exact H.
Defined.
(** The best result has score one. *)
Example demo_scores : score <$> reciprocal_rank_fusion demo_fts demo_vec default_search
  = [f32_of 1; f32_div (f32_div (f32_of 1) (f32_of 61)) (f32_add (f32_div (f32_of 1) (f32_of 62)) (f32_div (f32_of 1) (f32_of 61)))].
Proof. vm_compute. done. Qed.
