(* ===== verification/HttpPolicy.v ===== *)
(** Which hosts and paths a tool may reach: the WASM tools' endpoint allowlist
    ([src/tools/wasm/allowlist.rs], [EndpointPattern] and [SecretsCapability]
    of [src/tools/wasm/capabilities.rs]) and the sandbox proxy's policy
    ([src/sandbox/proxy/allowlist.rs] and [policy.rs]).

    [Url::parse] of the [url] crate and [urlencoding::decode] are parameters. *)

From S2P Require Import Prelude Strs.
#[local] Open Scope claw_scope.

(** ** [capabilities.rs] *)
Record EndpointPattern := mkPattern {
  ep_host : string;
  ep_path_prefix : option string;
  ep_methods : list string;
}.
Definition pattern_host (h : string) : EndpointPattern := mkPattern h None [].
Definition with_path_prefix (p : EndpointPattern) (pre : string) : EndpointPattern :=
  mkPattern (ep_host p) (Some pre) (ep_methods p).
Definition with_methods (p : EndpointPattern) (ms : list string) : EndpointPattern :=
  mkPattern (ep_host p) (ep_path_prefix p) ms.

(** A host against [*.suffix]: the part before the suffix must be there and
    end with a dot. *)
Definition wildcard_matches (url_host suffix : string) : bool :=
  match strip_suffix url_host suffix with
  | Some prefix =>
      if (String.length suffix <? String.length url_host)%nat then
        ends_with prefix "." || is_empty prefix
      else false
  | None => false
  end.

Definition host_matches (p : EndpointPattern) (url_host : string) : bool :=
  if String.eqb (ep_host p) url_host then true
  else match strip_prefix (ep_host p) "*." with
       | Some suffix => wildcard_matches url_host suffix
       | None => false
       end.

Definition pattern_matches (p : EndpointPattern) (url_host url_path method : string) : bool :=
  if negb (host_matches p url_host) then false
  else if match ep_path_prefix p with Some pre => negb (starts_with url_path pre) | None => false end then false
  else if negb (bool_decide (ep_methods p = []))
          && negb (existsb (fun m => String.eqb (to_uppercase m) (to_uppercase method)) (ep_methods p))
  then false
  else true.

(** [SecretsCapability::is_allowed]. *)
Definition secret_allowed (allowed_names : list string) (name : string) : bool :=
  existsb (fun pattern =>
    String.eqb pattern name
    || match strip_suffix pattern "*" with Some pre => starts_with name pre | None => false end) allowed_names.

(** ** [tools/wasm/allowlist.rs] *)
Inductive DenyReason :=
| InvalidUrl (e : string)
| HostNotAllowed (host : string)
| PathNotAllowed (host path : string)
| MethodNotAllowed (method host : string)
| EmptyAllowlist
| InsecureScheme (scheme : string).
Inductive AllowlistResult := Allowed | Denied (r : DenyReason).

Record AllowlistValidator := mkValidator { patterns : list EndpointPattern; require_https : bool }.
Definition new_validator (ps : list EndpointPattern) : AllowlistValidator := mkValidator ps true.
Definition allow_http (v : AllowlistValidator) : AllowlistValidator := mkValidator (patterns v) false.
Definition host_allowed (v : AllowlistValidator) (host : string) : bool :=
  existsb (fun p => host_matches p host) (patterns v).
Definition allowed_hosts (v : AllowlistValidator) : list string := map ep_host (patterns v).

(** What the code reads of a parsed [url::Url]. *)
Record Url := mkUrl {
  u_scheme : string;
  u_username : string;
  u_password : option string;
  u_host_str : option string;
  u_path : string;
}.

Record ParsedUrl := mkParsed { scheme : string; host : string; path : string }.

Definition is_ascii_hexdigit (c : Ascii.ascii) : bool :=
  ascii_between 48 57 c || ascii_between 65 70 c || ascii_between 97 102 c.

Fixpoint has_valid_percent_encoding (s : string) : bool :=
  match s with
  | EmptyString => true
  | String c s' =>
      if Ascii.eqb c (chr 37) then
        match s' with
        | String a (String b s'') =>
            if is_ascii_hexdigit a && is_ascii_hexdigit b then has_valid_percent_encoding s'' else false
        | _ => false
        end
      else has_valid_percent_encoding s'
  end.

(** [host_str] of an IPv6 literal comes in brackets. *)
Definition unbracket (h : string) : string :=
  default h (strip_prefix h "[" ≫= fun h' => strip_suffix h' "]").

Definition slash : Ascii.ascii := chr 47.
Definition backslash : Ascii.ascii := chr 92.

(** The [match] that resolves one decoded segment on the stack of segments. *)
Definition push_segment (segments : list string) (segment : string) : list string :=
  if String.eqb segment EmptyString || String.eqb segment "." then segments
  else if String.eqb segment ".." then removelast segments
  else segments ++ [segment].

Section Urls.
  Context (url_parse : string -> Result Url string) (decode : string -> option string).

Definition bad_encoding (raw : string) : string :=
  "Invalid percent-encoding in path segment: " ++s raw.

(** The loop of [normalize_path]. *)
Fixpoint normalize_segments (raws segments : list string) : Result (list string) string :=
  match raws with
  | [] => Ok segments
  | raw :: raws =>
      if negb (has_valid_percent_encoding raw) then Err (bad_encoding raw)
      else match decode raw with
           | None => Err (bad_encoding raw)
           | Some segment =>
               if contains_char segment slash || contains_char segment backslash then
                 Err "Path segment contains encoded path separator"%string
               else normalize_segments raws (push_segment segments segment)
           end
  end.

Definition normalize_path (p : string) : Result string string :=
  let? segments := normalize_segments (split_on slash p) [] in
  let result := "/" ++s String.concat "/" segments in
  Ok (if (1 <? String.length p)%nat && ends_with p "/" && negb (ends_with result "/")
      then result ++s "/" else result).

Definition parse_url (url : string) : Result ParsedUrl string :=
  match url_parse url with
  | Err e => Err ("URL parse failed: " ++s e)
  | Ok parsed =>
      let sch := to_lowercase (u_scheme parsed) in
      if negb (String.eqb sch "http") && negb (String.eqb sch "https") then
        Err ("Unsupported scheme: " ++s sch)
      else if negb (is_empty (u_username parsed)) || match u_password parsed with Some _ => true | None => false end then
        Err "URL contains userinfo (@) which is not allowed"%string
      else match u_host_str parsed with
           | None => Err "Empty host"%string
           | Some h =>
               let? normalized_path := normalize_path (u_path parsed) in
               Ok (mkParsed sch (to_lowercase (unbracket h)) normalized_path)
           end
  end.

Definition path_allowed (parsed : ParsedUrl) (p : EndpointPattern) : bool :=
  match ep_path_prefix p with None => true | Some pre => starts_with (path parsed) pre end.

Definition validate (v : AllowlistValidator) (url method : string) : AllowlistResult :=
  if bool_decide (patterns v = []) then Denied EmptyAllowlist
  else match parse_url url with
  | Err e => Denied (InvalidUrl e)
  | Ok parsed =>
      if require_https v && negb (String.eqb (scheme parsed) "https") then Denied (InsecureScheme (scheme parsed))
      else if existsb (fun p => pattern_matches p (host parsed) (path parsed) method) (patterns v) then Allowed
      else
        let hm := List.filter (fun p => host_matches p (host parsed)) (patterns v) in
        if bool_decide (hm = []) then Denied (HostNotAllowed (host parsed))
        else
          let pm := List.filter (path_allowed parsed) hm in
          if bool_decide (pm = []) then Denied (PathNotAllowed (host parsed) (path parsed))
          else Denied (MethodNotAllowed method (host parsed))
  end.

(** ** [sandbox/proxy/allowlist.rs] *)
Definition extract_host (url : string) : option string :=
  match url_parse url with
  | Err _ => None
  | Ok parsed =>
      if negb (String.eqb (u_scheme parsed) "http" || String.eqb (u_scheme parsed) "https") then None
      else (fun h => to_lowercase (unbracket h)) <$> u_host_str parsed
  end.

(** ** [sandbox/proxy/policy.rs] *)
Record NetworkRequest := mkRequest { rq_method : string; rq_url : string; rq_host : string; rq_path : string }.

Definition from_url (method url : string) : option NetworkRequest :=
  match url_parse url with
  | Err _ => None
  | Ok parsed =>
      if negb (String.eqb (u_scheme parsed) "http" || String.eqb (u_scheme parsed) "https") then None
      else match u_host_str parsed with
           | None => None
           | Some h => Some (mkRequest (to_uppercase method) url (to_lowercase (unbracket h)) (u_path parsed))
           end
  end.
End Urls.

Record DomainPattern := mkDomain { dp_pattern : string; is_wildcard : bool; base_domain : string }.
(** [pattern[2..]] of a pattern that starts with ["*."] is what follows it. *)
Definition new_domain (pattern : string) : DomainPattern :=
  match strip_prefix pattern "*." with
  | Some rest => mkDomain pattern true (to_lowercase rest)
  | None => mkDomain pattern false (to_lowercase pattern)
  end.
Definition domain_matches (p : DomainPattern) (h : string) : bool :=
  let host_lower := to_lowercase h in
  if is_wildcard p then
    String.eqb host_lower (base_domain p) || ends_with host_lower ("." ++s base_domain p)
  else String.eqb host_lower (base_domain p).

Inductive DomainValidationResult := DomainAllowed | DomainDenied (reason : string).
Definition DomainAllowlist : Type := list DomainPattern.
Definition new_allowlist (domains : list string) : DomainAllowlist := map new_domain domains.
Definition empty_allowlist : DomainAllowlist := [].
Definition add_domain (a : DomainAllowlist) (pattern : string) : DomainAllowlist := a ++ [new_domain pattern].
Definition domain_allowed (a : DomainAllowlist) (h : string) : DomainValidationResult :=
  if bool_decide (a = []) then DomainDenied "empty allowlist"
  else if existsb (fun p => domain_matches p h) a then DomainAllowed
  else DomainDenied ("host '" ++s h ++s "' not in allowlist: ["
                     ++s String.concat ", " (map dp_pattern a) ++s "]").

Section Policy.
  Context {CredentialLocation : Type}.

Record CredentialMapping := mkMapping {
  secret_name : string;
  location : CredentialLocation;
  host_patterns : list string;
}.
Inductive NetworkDecision :=
| Allow
| AllowWithCredentials (secret : string) (loc : CredentialLocation)
| Deny (reason : string).

Definition host_matches_pattern (h pattern : string) : bool :=
  let pattern_lower := to_lowercase pattern in
  if String.eqb pattern_lower h then true
  else match strip_prefix pattern_lower "*." with
       | Some suffix => wildcard_matches h suffix
       | None => false
       end.

Record DefaultPolicyDecider := mkDecider {
  allowlist : DomainAllowlist;
  credential_mappings : list CredentialMapping;
}.

Definition find_credential (d : DefaultPolicyDecider) (h : string) : option CredentialMapping :=
  let host_lower := to_lowercase h in
  List.find (fun m => existsb (host_matches_pattern host_lower) (host_patterns m)) (credential_mappings d).

Definition decide_request (d : DefaultPolicyDecider) (request : NetworkRequest) : NetworkDecision :=
  match domain_allowed (allowlist d) (rq_host request) with
  | DomainDenied reason => Deny reason
  | DomainAllowed =>
      match find_credential d (rq_host request) with
      | Some mapping => AllowWithCredentials (secret_name mapping) (location mapping)
      | None => Allow
      end
  end.
Definition allow_all (request : NetworkRequest) : NetworkDecision := Allow.
Definition deny_all (reason : string) (request : NetworkRequest) : NetworkDecision := Deny reason.
End Policy.

(** ** Lemmas *)
(** [h] is a proper subdomain of [suffix]. *)
Definition under (suffix h : string) : Prop := exists sub, h = sub ++s "." ++s suffix.

Lemma wildcard_matches_spec h suffix : wildcard_matches h suffix = true <-> under suffix h.
Proof.
  unfold wildcard_matches, under. split.
  - destruct (strip_suffix h suffix) as [pre|] eqn:E; [|done]. apply strip_suffix_spec in E as ->.
    rewrite append_length_str. destruct (Nat.ltb_spec (String.length suffix) (String.length pre + String.length suffix)); [|done].
    intros H'. apply orb_true_iff in H' as [He|He].
    + apply ends_with_spec in He as [sub ->]. exists sub. apply append_assoc_str.
    + destruct pre; [simpl in *; lia|done].
  - intros [sub ->]. rewrite (proj2 (strip_suffix_spec _ suffix (sub ++s "."))) by by rewrite append_assoc_str.
    rewrite !append_length_str. rewrite (proj2 (Nat.ltb_lt _ _)) by (simpl; lia).
    apply orb_true_iff. left. apply ends_with_spec. by exists sub.
Qed.

(** The hosts an endpoint pattern stands for. *)
Definition pattern_covers (pat h : string) : Prop :=
  pat = h \/ exists suffix, pat = "*." ++s suffix /\ under suffix h.

Lemma strip_wildcard pat (f : string -> bool) (P : string -> Prop) :
  (forall suffix, f suffix = true <-> P suffix) ->
  match strip_prefix pat "*." with Some suffix => f suffix | None => false end = true
  <-> exists suffix, pat = "*." ++s suffix /\ P suffix.
Proof.
  intros Hf. destruct (strip_prefix pat "*.") as [suffix|] eqn:E.
  - rewrite Hf. apply strip_prefix_spec in E as ->. split; [by eexists|].
    intros (suffix' & Heq & HP). apply strip_prefix_spec in Heq.
    rewrite (proj2 (strip_prefix_spec _ _ suffix) eq_refl) in Heq. by simplify_eq.
  - split; [done|]. intros (suffix & -> & _). by rewrite (proj2 (strip_prefix_spec _ "*." suffix)) in E.
Qed.

Lemma host_matches_spec p h : host_matches p h = true <-> pattern_covers (ep_host p) h.
Proof.
  unfold host_matches, pattern_covers. destruct (String.eqb_spec (ep_host p) h) as [->|Hne]; [tauto|].
  rewrite strip_wildcard by (intros; apply wildcard_matches_spec). tauto.
Qed.

(** *** Normal paths *)
Definition normal_segment (s : string) : Prop :=
  s <> EmptyString /\ s <> "."%string /\ s <> ".."%string
  /\ contains_char s slash = false /\ contains_char s backslash = false.

Lemma push_segment_normal segs s :
  Forall normal_segment segs -> contains_char s slash = false -> contains_char s backslash = false ->
  Forall normal_segment (push_segment segs s).
Proof.
  intros Hs H1 H2. unfold push_segment.
  destruct (String.eqb_spec s EmptyString); [done|]. destruct (String.eqb_spec s "."); [done|]. simpl.
  destruct (String.eqb_spec s "..") as [|].
  - destruct segs as [|x segs _] using rev_ind; [done|]. rewrite removelast_last. by apply Forall_app in Hs as [? _].
  - apply Forall_app. split; [done|]. by repeat constructor.
Qed.

Lemma push_segment_keep segs s : normal_segment s -> push_segment segs s = segs ++ [s].
Proof.
  intros (H1 & H2 & H3 & _). unfold push_segment.
  by rewrite (proj2 (String.eqb_neq s _) H1), (proj2 (String.eqb_neq s _) H2), (proj2 (String.eqb_neq s _) H3).
Qed.

Lemma normalize_segments_normal decode raws : forall segs out,
  Forall normal_segment segs -> normalize_segments decode raws segs = Ok out -> Forall normal_segment out.
Proof.
  induction raws as [|raw raws IH]; simpl; intros segs out Hs; [by intros [= <-]|].
  destruct (negb _); [done|]. destruct (decode raw) as [seg|]; [|done].
  destruct (contains_char seg slash || _) eqn:E; [done|]. apply orb_false_iff in E as [E1 E2].
  apply IH. by apply push_segment_normal.
Qed.

(** Segments a decoder leaves alone. *)
Definition plain (decode : string -> option string) (s : string) : Prop :=
  has_valid_percent_encoding s = true /\ decode s = Some s.

Lemma normalize_segments_plain decode raws : forall segs,
  Forall (fun s => s = EmptyString \/ normal_segment s) raws -> Forall (plain decode) raws ->
  normalize_segments decode raws segs = Ok (segs ++ List.filter (fun s => negb (is_empty s)) raws).
Proof.
  induction raws as [|raw raws IH]; simpl; intros segs Hn Hp; [by rewrite app_nil_r|].
  inversion Hn as [|? ? Hr Hn']; subst. inversion Hp as [|? ? [Hv Hd] Hp']; subst.
  rewrite Hv, Hd. destruct Hr as [->|Hr]; [by apply IH|].
  pose proof Hr as (Hne & _ & _ & H1 & H2). rewrite H1, H2. simpl.
  rewrite push_segment_keep, IH by done. destruct raw; [done|]. simpl. by rewrite <- app_assoc.
Qed.

Lemma ends_with_app a s : s <> EmptyString -> ends_with (a ++s s) "/" = ends_with s "/".
Proof.
  intros Hs. induction a as [|c a IH]; [done|]. rewrite append_cons_str. cbn [ends_with].
  destruct (String.eqb_spec (String c (a ++s s)) "/") as [H|_]; [|exact IH].
  injection H as _ H. destruct a, s; simpl in *; try done.
Qed.

Lemma contains_char_app a b c : contains_char (a ++s b) c = contains_char a c || contains_char b c.
Proof.
  induction a as [|d a IH]; [done|]. rewrite append_cons_str. cbn [contains_char]. by rewrite IH, orb_assoc.
Qed.

Lemma no_slash_no_end s : contains_char s slash = false -> ends_with s "/" = false.
Proof.
  intros H. apply not_true_iff_false. intros He. apply ends_with_spec in He as [p ->].
  rewrite contains_char_app in H. apply orb_false_iff in H as [_ H]. done.
Qed.

Lemma concat_cons2 x y (l : list string) :
  String.concat "/" (x :: y :: l) = x ++s "/" ++s String.concat "/" (y :: l).
Proof. done. Qed.

(** A joined non-empty list of normal segments ends as its last one does. *)
Lemma joined_no_end segs a :
  segs <> [] -> Forall normal_segment segs -> ends_with (a ++s String.concat "/" segs) "/" = false.
Proof.
  intros Hne Hs. revert a. induction Hs as [|x segs Hx Hs IH]; [done|]. intros a.
  destruct segs as [|y segs].
  - destruct Hx as (Hxe & _ & _ & Hc & _). simpl. rewrite ends_with_app by done. by apply no_slash_no_end.
  - rewrite concat_cons2, <- !append_assoc_str. by apply IH.
Qed.

Lemma split_concat segs :
  segs <> [] -> Forall normal_segment segs ->
  split_on slash (String.concat "/" segs) = segs
  /\ split_on slash (String.concat "/" segs ++s "/") = segs ++ [EmptyString].
Proof.
  intros Hne Hs. induction Hs as [|x segs Hx Hs IH]; [done|].
  destruct Hx as (_ & _ & _ & Hc & _). destruct segs as [|y segs].
  - simpl. split; [by apply split_on_clean|]. by rewrite split_on_cons.
  - destruct IH as [IH1 IH2]; [done|]. rewrite concat_cons2. split.
    + change ("/" ++s String.concat "/" (y :: segs)) with (String slash (String.concat "/" (y :: segs))).
      by rewrite split_on_cons, IH1.
    + rewrite append_assoc_str.
      change (("/" ++s String.concat "/" (y :: segs)) ++s "/")
        with (String slash (String.concat "/" (y :: segs) ++s "/")).
      by rewrite split_on_cons, IH2.
Qed.

Definition normal_path (segs : list string) (tail : bool) : string :=
  "/" ++s String.concat "/" segs ++s (if tail then "/" else EmptyString).

Lemma filter_normal segs : Forall normal_segment segs -> List.filter (fun s => negb (is_empty s)) segs = segs.
Proof. induction 1 as [|x segs [Hx _] _ IH]; simpl; [done|]. destruct x; [done|]. simpl. by rewrite IH. Qed.

Lemma normalize_path_fixed decode segs tail :
  plain decode EmptyString -> Forall normal_segment segs -> Forall (plain decode) segs ->
  (segs = [] -> tail = false) ->
  normalize_path decode (normal_path segs tail) = Ok (normal_path segs tail).
Proof.
  intros He Hn Hp Ht. destruct (decide (segs = [])) as [->|Hne].
  { rewrite Ht by done. unfold normalize_path, normal_path. simpl. destruct He as [_ ->]. done. }
  destruct (split_concat segs Hne Hn) as [S1 S2].
  assert (Forall (fun s => s = EmptyString \/ normal_segment s) segs) as Hn'.
  { eapply Forall_impl; [exact Hn|]. simpl. auto. }
  assert (normalize_segments decode (split_on slash (normal_path segs tail)) [] = Ok segs) as Hsegs.
  { unfold normal_path.
    change (split_on slash ("/" ++s ?x)) with (EmptyString :: split_on slash x).
    destruct tail; [rewrite S2|rewrite append_nil_r_str, S1].
    - rewrite normalize_segments_plain; [simpl; by rewrite List.filter_app, filter_normal, app_nil_r| |].
      + constructor; [by left|]. apply Forall_app. split; [done|]. constructor; [by left|done].
      + constructor; [done|]. apply Forall_app. split; [done|]. by constructor.
    - rewrite normalize_segments_plain; [simpl; by rewrite filter_normal| |]; constructor; auto. }
  unfold normalize_path. rewrite Hsegs. rewrite (joined_no_end segs "/" Hne Hn).
  unfold normal_path. destruct tail.
  - rewrite <- append_assoc_str, ends_with_app by done. rewrite !append_length_str.
    destruct (Nat.ltb_spec 1 (String.length "/" + String.length (String.concat "/" segs) + String.length "/")) as [|Hl];
      [done|]. exfalso. destruct segs as [|x segs]; [done|]. inversion Hn as [|? ? [Hx _] _]; subst.
    destruct x; [done|]. destruct segs; simpl in Hl; lia.
  - rewrite append_nil_r_str, (joined_no_end segs "/" Hne Hn). by rewrite andb_false_r.
Qed.

Lemma validate_path_ok p parsed : path_allowed parsed p = true <->
  match ep_path_prefix p with None => True | Some pre => exists rest, path parsed = pre ++s rest end.
Proof. unfold path_allowed. destruct (ep_path_prefix p); [apply starts_with_spec|done]. Qed.

(** The methods a pattern lets through. *)
Definition method_allowed (p : EndpointPattern) (method : string) : Prop :=
  ep_methods p = [] \/ exists m, m ∈ ep_methods p /\ to_uppercase m = to_uppercase method.

Lemma existsb_elem {A} (f : A -> bool) l : existsb f l = true <-> exists x, x ∈ l /\ f x = true.
Proof. rewrite existsb_exists. by setoid_rewrite list_elem_of_In. Qed.

Lemma pattern_matches_spec p h q method parsed :
  h = host parsed -> q = path parsed ->
  pattern_matches p h q method = true <->
  host_matches p h = true /\ path_allowed parsed p = true /\ method_allowed p method.
Proof.
  intros -> ->. unfold pattern_matches, path_allowed, method_allowed.
  destruct (host_matches p (host parsed)); simpl; [|by split; [|intros (? & _)]].
  destruct (match ep_path_prefix p with Some pre => negb (starts_with (path parsed) pre) | None => false end) eqn:Hp.
  - split; [done|]. intros (_ & Hp' & _). destruct (ep_path_prefix p); [|done]. by rewrite Hp' in Hp.
  - assert (match ep_path_prefix p with None => true | Some pre => starts_with (path parsed) pre end = true) as ->.
    { destruct (ep_path_prefix p); [by apply negb_false_iff in Hp|done]. }
    case_bool_decide as Hm; simpl; [by split; [auto|]|].
    destruct (existsb _ (ep_methods p)) eqn:He; simpl.
    + split; [|done]. intros _. split_and!; [done|done|]. right. apply existsb_elem in He as (m & Hin & Heq).
      exists m. split; [done|by apply String.eqb_eq].
    + split; [done|]. intros (_ & _ & [Hnil|(m & Hin & Heq)]); [done|].
      apply not_true_iff_false in He. destruct He. apply existsb_elem. exists m. split; [done|by apply String.eqb_eq].
Qed.

Lemma normalize_segments_foldl decode raws : forall segs out,
  normalize_segments decode raws segs = Ok out ->
  exists decoded, Forall2 (fun raw d => decode raw = Some d) raws decoded
    /\ out = foldl push_segment segs decoded.
Proof.
  induction raws as [|raw raws IH]; simpl; intros segs out; [intros [= <-]; exists []; by repeat constructor|].
  destruct (negb _); [done|]. destruct (decode raw) as [seg|] eqn:Hd; [|done].
  destruct (_ || _); [done|]. intros Ho. destruct (IH _ _ Ho) as (ds & Hds & ->).
  exists (seg :: ds). split; [by constructor|done].
Qed.

Lemma existsb_ext_filter {A} (f g : A -> bool) l :
  existsb g (List.filter f l) = existsb (fun x => f x && g x) l.
Proof. induction l as [|x l IH]; simpl; [done|]. destruct (f x); simpl; by rewrite IH. Qed.

Lemma filter_nil_iff {A} (f : A -> bool) l : List.filter f l = [] <-> existsb f l = false.
Proof. induction l as [|x l IH]; simpl; [done|]. destruct (f x); simpl; [done|exact IH]. Qed.

Lemma existsb_false_elem {A} (f : A -> bool) l : existsb f l = false <-> forall x, x ∈ l -> f x = false.
Proof.
  rewrite <- not_true_iff_false, existsb_elem. split.
  - intros H x Hx. apply not_true_iff_false. intros Hf. apply H. by exists x.
  - intros H (x & Hx & Hf). by rewrite (H x Hx) in Hf.
Qed.

Lemma parse_url_safe url_parse decode url parsed :
  parse_url url_parse decode url = Ok parsed ->
  (scheme parsed = "http" \/ scheme parsed = "https")%string
  /\ exists u, url_parse url = Ok u /\ u_username u = EmptyString /\ u_password u = None
     /\ normalize_path decode (u_path u) = Ok (path parsed).
Proof.
  unfold parse_url. destruct (url_parse url) as [u|]; [|done].
  destruct (negb (String.eqb (to_lowercase (u_scheme u)) "http") && _) eqn:Hs; [done|].
  destruct (u_username u) eqn:Hu, (u_password u) eqn:Hp; try done. simpl.
  destruct (u_host_str u); [|done]. destruct (normalize_path decode (u_path u)) eqn:Hn; [|done].
  intros [= <-]. simpl. split; [|by exists u].
  apply andb_false_iff in Hs as [Hs|Hs]; apply negb_false_iff, String.eqb_eq in Hs; auto.
Qed.

(** *** The proxy's patterns *)
(** The hosts a proxy domain stands for: a wildcard also covers the bare
    domain. *)
Definition domain_covers (pat h : string) : Prop :=
  match strip_prefix pat "*." with
  | Some rest => to_lowercase h = to_lowercase rest \/ under (to_lowercase rest) (to_lowercase h)
  | None => to_lowercase h = to_lowercase pat
  end.

Lemma domain_matches_spec pat h : domain_matches (new_domain pat) h = true <-> domain_covers pat h.
Proof.
  unfold new_domain, domain_covers, under. destruct (strip_prefix pat "*.") as [rest|]; unfold domain_matches; cbn [is_wildcard base_domain].
  - rewrite orb_true_iff, String.eqb_eq, ends_with_spec. done.
  - apply String.eqb_eq.
Qed.

Lemma domain_allowed_spec domains h :
  domain_allowed (new_allowlist domains) h = DomainAllowed <-> exists d, d ∈ domains /\ domain_covers d h.
Proof.
  assert (existsb (fun p => domain_matches p h) (new_allowlist domains) = true
          <-> exists d, d ∈ domains /\ domain_covers d h) as Hex.
  { unfold new_allowlist. rewrite existsb_elem. split.
    - intros (p & Hp & Hm). apply list_elem_of_fmap in Hp as (d & -> & Hd). exists d.
      split; [done|by apply domain_matches_spec].
    - intros (d & Hd & Hc). exists (new_domain d). split; [by apply list_elem_of_fmap_2|by apply domain_matches_spec]. }
  unfold domain_allowed. case_bool_decide as Hnil.
  - split; [done|]. intros He. apply Hex in He. by rewrite Hnil in He.
  - rewrite <- Hex. by destruct (existsb _ _).
Qed.

Lemma host_matches_pattern_spec h pat :
  host_matches_pattern h pat = true <-> pattern_covers (to_lowercase pat) h.
Proof. exact (host_matches_spec (pattern_host (to_lowercase pat)) h). Qed.

(** ** Properties *)

(** A path that [normalize_path] accepts comes out as a slash, segments
    joined by slashes and at most one trailing slash, where no segment is
    empty, ["."] or [".."] or contains a slash or a backslash (in whatever
    encoding it was written); the segments are those of the decoded path
    after resolving ["."] and [".."] on a stack that never leaves the root;
    and normalising again changes nothing, for segments that decode to
    themselves. *)
Theorem normalize_path_normal decode p r :
  normalize_path decode p = Ok r ->
  exists segs tail, r = normal_path segs tail /\ Forall normal_segment segs
    /\ (exists decoded, Forall2 (fun raw d => decode raw = Some d) (split_on slash p) decoded
          /\ segs = foldl push_segment [] decoded)
    /\ (plain decode EmptyString -> Forall (plain decode) segs -> normalize_path decode r = Ok r).
Proof.
  unfold normalize_path at 1.
  destruct (normalize_segments decode (split_on slash p) []) as [segs|] eqn:Hs; [|done].
  assert (Forall normal_segment segs) as Hn by by eapply normalize_segments_normal, Hs.
  apply normalize_segments_foldl in Hs.
  set (b := (1 <? String.length p)%nat && _). intros <-%Ok_inj.
  destruct (decide (segs = [])) as [->|Hne].
  { exists [], false. split_and!; [|done|done|].
    - subst b. simpl. rewrite andb_false_r. done.
    - intros He Hp. subst b. rewrite andb_false_r. by apply (normalize_path_fixed decode [] false). }
  exists segs, (b && negb (ends_with ("/" ++s String.concat "/" segs) "/")).
  rewrite (joined_no_end segs "/" Hne Hn). cbn [negb]. rewrite !andb_true_r.
  assert ((if b then ("/" ++s String.concat "/" segs) ++s "/" else "/" ++s String.concat "/" segs)
          = normal_path segs b) as ->.
  { unfold normal_path. destruct b; [by rewrite append_assoc_str|by rewrite append_nil_r_str]. }
  split_and!; [done|done|done|]. intros He Hp. by apply normalize_path_fixed.
Qed.

(** A WASM tool's request is allowed exactly when the URL parses, its
    scheme is https (unless http was allowed) and some endpoint pattern
    covers the host (equal, or a proper subdomain for [*.domain]), the
    normalised path starts with its prefix and its methods include the
    method; an allowed URL has no user information and its path is normal;
    and a refusal says which of the three failed. *)
Theorem validate_spec url_parse decode v url method :
  (validate url_parse decode v url method = Allowed <->
     exists parsed, parse_url url_parse decode url = Ok parsed
       /\ (require_https v = true -> scheme parsed = "https"%string)
       /\ exists p, p ∈ patterns v /\ pattern_covers (ep_host p) (host parsed)
            /\ path_allowed parsed p = true /\ method_allowed p method)
  /\ (validate url_parse decode v url method = Allowed ->
        exists u parsed, url_parse url = Ok u /\ u_username u = EmptyString /\ u_password u = None
          /\ parse_url url_parse decode url = Ok parsed
          /\ normalize_path decode (u_path u) = Ok (path parsed))
  /\ (forall h, validate url_parse decode v url method = Denied (HostNotAllowed h) ->
        host_allowed v h = false)
  /\ (forall m h, validate url_parse decode v url method = Denied (MethodNotAllowed m h) ->
        m = method /\ exists p, p ∈ patterns v /\ pattern_covers (ep_host p) h /\ ~ method_allowed p method).
Proof.
  assert (validate url_parse decode v url method = Allowed ->
     exists parsed, parse_url url_parse decode url = Ok parsed
       /\ (require_https v = true -> scheme parsed = "https"%string)
       /\ exists p, p ∈ patterns v /\ pattern_covers (ep_host p) (host parsed)
            /\ path_allowed parsed p = true /\ method_allowed p method) as Hfwd.
  { unfold validate. case_bool_decide; [done|]. destruct (parse_url _ _ url) as [parsed|]; [|done].
    destruct (require_https v && _) eqn:Hh; [done|].
    destruct (existsb _ (patterns v)) eqn:He; [|by repeat case_bool_decide].
    intros _. exists parsed. split_and!; [done| |].
    - intros Hr. rewrite Hr in Hh. by apply negb_false_iff, String.eqb_eq in Hh.
    - apply existsb_elem in He as (p & Hin & Hm). apply pattern_matches_spec with (parsed := parsed) in Hm as (?&?&?); [|done|done].
      exists p. split_and!; [done|by apply host_matches_spec|done|done]. }
  split_and!.
  - split; [exact Hfwd|]. intros (parsed & Hp & Hr & p & Hin & Hc & Hpa & Hm). unfold validate.
    rewrite bool_decide_eq_false_2 by (intros Hnil; rewrite Hnil in Hin; set_solver). rewrite Hp.
    destruct (require_https v); simpl; [rewrite Hr by done; simpl|];
    (destruct (existsb _ (patterns v)) eqn:He; [done|]; rewrite existsb_false_elem in He;
     specialize (He p Hin); apply not_true_iff_false in He; destruct He;
     apply pattern_matches_spec with (parsed := parsed); [done|done|];
     split_and!; [by apply host_matches_spec|done|done]).
  - intros Ha. destruct (Hfwd Ha) as (parsed & Hp & _).
    destruct (parse_url_safe _ _ _ _ Hp) as (_ & u & ? & ? & ? & ?). by exists u, parsed.
  - intros h. unfold validate. case_bool_decide; [done|]. destruct (parse_url _ _ url); [|done].
    destruct (_ && _); [done|]. destruct (existsb _ _); [done|].
    case_bool_decide as Hf; [|by case_bool_decide]. intros [= <-]. by apply filter_nil_iff.
  - intros m h. unfold validate. case_bool_decide; [done|]. destruct (parse_url _ _ url) as [parsed|]; [|done].
    destruct (_ && _); [done|]. destruct (existsb _ (patterns v)) eqn:He; [done|].
    case_bool_decide; [done|]. case_bool_decide as Hf; [done|]. intros [= <- <-]. split; [done|].
    rewrite filter_nil_iff, existsb_ext_filter, not_false_iff_true, existsb_elem in Hf.
    destruct Hf as (p & Hin & Hf). apply andb_true_iff in Hf as [Hh Hpa].
    exists p. split_and!; [done|by apply host_matches_spec|]. intros Hm.
    rewrite existsb_false_elem in He. specialize (He p Hin). apply not_true_iff_false in He. apply He.
    by apply pattern_matches_spec with (parsed := parsed).
Qed.

(** The proxy's decision.  A request is refused exactly when no domain
    of the allowlist covers its host; credentials are injected only into
    requests to covered hosts, and are those of a mapping one of whose
    patterns covers the host, every earlier mapping covering it in no
    pattern; a plain [Allow] means that no mapping covers it.  A wildcard
    [*.domain] of the allowlist covers the bare domain too, one of a mapping
    does not. *)
Theorem decide_request_spec {L : Type} domains (maps : list (@CredentialMapping L)) rq :
  let d := mkDecider (new_allowlist domains) maps in
  let h := rq_host rq in
  let uses m := exists pat, pat ∈ host_patterns m /\ pattern_covers (to_lowercase pat) (to_lowercase h) in
  ((exists reason, decide_request d rq = Deny reason) <-> ~ exists dom, dom ∈ domains /\ domain_covers dom h)
  /\ (forall s l, decide_request d rq = AllowWithCredentials s l ->
        (exists dom, dom ∈ domains /\ domain_covers dom h)
        /\ exists before m after, maps = before ++ m :: after /\ secret_name m = s /\ location m = l
             /\ uses m /\ Forall (fun m' => ~ uses m') before)
  /\ (decide_request d rq = Allow -> Forall (fun m => ~ uses m) maps).
Proof.
  intros d h uses.
  assert (forall m, existsb (host_matches_pattern (to_lowercase h)) (host_patterns m) = true <-> uses m) as Huses.
  { intros m. rewrite existsb_elem. unfold uses. by setoid_rewrite host_matches_pattern_spec. }
  assert (forall m, existsb (host_matches_pattern (to_lowercase h)) (host_patterns m) = false -> ~ uses m) as Hnot.
  { intros m Hm Hu. apply Huses in Hu. congruence. }
  pose proof (domain_allowed_spec domains h) as Hdom. unfold decide_request, find_credential. simpl. fold h.
  destruct (domain_allowed (new_allowlist domains) h) as [|reason]; cycle 1.
  { split_and!; [|done|done]. split; [|by eexists]. intros _ He. by apply Hdom in He. }
  assert (exists dom, dom ∈ domains /\ domain_covers dom h) as Hcov by by apply Hdom.
  clear Hdom. induction maps as [|m maps IH]; simpl.
  { split_and!; [split; [by intros [? ?]|by intros []]|done|by constructor]. }
  destruct (existsb (host_matches_pattern (to_lowercase h)) (host_patterns m)) eqn:Hm.
  - split_and!; [split; [by intros [? ?]|by intros []]| |done]. intros s l [= <- <-]. split; [done|].
    exists [], m, maps. split_and!; [done|done|done|by apply Huses|constructor].
  - destruct IH as (IH1 & IH2 & IH3). split_and!; [exact IH1| |].
    + intros s l Hd. destruct (IH2 s l Hd) as (_ & before & m' & after & -> & ? & ? & ? & ?).
      split; [done|]. exists (m :: before), m', after. split_and!; [done|done|done|done|].
      constructor; [by apply Hnot|done].
    + intros Ha. constructor; [by apply Hnot|by apply IH3].
Qed.

(** ** Witnesses *)

(** The dot segments and the doubled slash go, the trailing slash stays. *)
Lemma normalize_path_normal_witness :
  normalize_path Some "/v1/../a//./b/" = Ok "/a/b/"%string
  /\ normalize_path Some "/a/b/" = Ok "/a/b/"%string.
Proof.
  split; [vm_compute; reflexivity|].
  destruct (normalize_path_normal Some "/v1/../a//./b/" "/a/b/") as (segs & tail & _ & _ & (ds & Hds & ->) & H);
    [vm_compute; reflexivity|].
  apply H; [by split|]. clear H.
  assert (ds = ["";"v1";"..";"a";"";".";"b";""]%string) as ->.
  { vm_compute in Hds. repeat match goal with H : Forall2 _ _ _ |- _ => inversion H; clear H; subst end.
    by simplify_eq. }
  vm_compute. repeat constructor.
Defined.

(** A tool limited to [api.x.com/v1/]: encoded traversal is refused. *)
Definition demo_parse (url : string) : Result Url string :=
  Ok (mkUrl "https" EmptyString None (Some "API.x.com"%string) url).

Example demo_validate :
  let v := new_validator [with_path_prefix (pattern_host "*.x.com") "/v1/"] in
  validate demo_parse Some v "/v1/chat" "GET" = Allowed
  /\ validate demo_parse Some v "/v1/../admin" "GET" = Denied (PathNotAllowed "api.x.com" "/admin").
Proof. vm_compute. split; reflexivity. Qed.
