(* ===== verification/Secrets.v ===== *)
(** The secrets store: [src/secrets/crypto.rs] (encryption with a key per
    secret), [src/secrets/types.rs] and [src/secrets/store.rs] (the table of
    secrets), and the injection of credentials into requests,
    [src/tools/wasm/credential_injector.rs].

    AES-GCM and HKDF are parameters.  The table has one row for each user and
    name; what the two databases keep of a time or a provider differs and is
    the record [Columns].  A database that cannot be reached is not modelled. *)

From Stdlib Require Import Ascii.
From S2P Require Import Prelude Strs HttpPolicy.
#[local] Open Scope claw_scope.

Inductive SecretError :=
| SecretNotFound (name : string) | SecretExpired | DecryptionFailed (msg : string) | EncryptionFailed (msg : string)
| InvalidMasterKey | InvalidUtf8 | SecretDatabase (msg : string) | SecretAccessDenied | KeychainError (msg : string).
Definition secret_error_display (e : SecretError) : string :=
  match e with
  | SecretNotFound n => "Secret not found: " ++s n
  | SecretExpired => "Secret has expired"
  | DecryptionFailed m => "Decryption failed: " ++s m
  | EncryptionFailed m => "Encryption failed: " ++s m
  | InvalidMasterKey => "Invalid master key"
  | InvalidUtf8 => "Secret value is not valid UTF-8"
  | SecretDatabase m => "Database error: " ++s m
  | SecretAccessDenied => "Secret access denied for tool"
  | KeychainError m => "Keychain error: " ++s m
  end.

(** ** UTF-8
    [String::from_utf8] of the standard library: the well-formed byte sequences. *)
Definition cont (c : ascii) : bool := ascii_between 128 191 c.
Fixpoint utf8_valid (s : string) : bool :=
  match s with
  | EmptyString => true
  | String a s1 =>
      if ascii_between 0 127 a then utf8_valid s1
      else match s1 with
      | EmptyString => false
      | String b s2 =>
          if ascii_between 194 223 a then cont b && utf8_valid s2
          else match s2 with
          | EmptyString => false
          | String c s3 =>
              if ascii_between 224 239 a
              then ascii_between (if Ascii.eqb a (chr 224) then 160 else 128) (if Ascii.eqb a (chr 237) then 159 else 191) b
                   && cont c && utf8_valid s3
              else match s3 with
              | EmptyString => false
              | String d s4 =>
                  ascii_between 240 244 a
                  && ascii_between (if Ascii.eqb a (chr 240) then 144 else 128) (if Ascii.eqb a (chr 244) then 143 else 191) b
                  && cont c && cont d && utf8_valid s4
              end
          end
      end
  end.
Definition decrypted_from_bytes (bytes : string) : Result string SecretError :=
  if utf8_valid bytes then Ok bytes else Err InvalidUtf8.

(** ** Encryption *)
Definition KEY_SIZE : nat := 32.
Definition NONCE_SIZE : nat := 12.
Definition SALT_SIZE : nat := 32.
Definition TAG_SIZE : nat := 16.
(** The functions of the crates: HKDF-SHA256 with the fixed info string, and
    AES-256-GCM under a key and a nonce; the ciphertext ends with the tag. *)
Record Ciphers := mkCiphers {
  hkdf : string -> string -> Result string SecretError;
  seal : string -> string -> string -> Result string string;
  open_ : string -> string -> string -> Result string string }.
Fixpoint take_str (n : nat) (s : string) : string :=
  match n, s with S n, String c s => String c (take_str n s) | _, _ => EmptyString end.
Fixpoint drop_str (n : nat) (s : string) : string :=
  match n, s with S n, String _ s => drop_str n s | _, _ => s end.
Definition new_crypto (master_key : string) : Result string SecretError :=
  if (String.length master_key <? KEY_SIZE)%nat then Err InvalidMasterKey else Ok master_key.
(** [salt] and [nonce] are the random bytes of the call. *)
Definition encrypt (cs : Ciphers) (master salt nonce plaintext : string) : Result (string * string) SecretError :=
  match hkdf cs master salt with
  | Err e => Err e
  | Ok key =>
      match seal cs key nonce plaintext with
      | Err e => Err (EncryptionFailed ("Encryption failed: " ++s e))
      | Ok ciphertext => Ok (nonce ++s ciphertext, salt)
      end
  end.
Definition decrypt (cs : Ciphers) (master encrypted_value salt : string) : Result string SecretError :=
  if (String.length encrypted_value <? NONCE_SIZE + TAG_SIZE)%nat then Err (DecryptionFailed "Encrypted value too short")
  else match hkdf cs master salt with
       | Err e => Err e
       | Ok key =>
           match open_ cs key (take_str NONCE_SIZE encrypted_value) (drop_str NONCE_SIZE encrypted_value) with
           | Err e => Err (DecryptionFailed ("Decryption failed: " ++s e))
           | Ok plaintext => decrypted_from_bytes plaintext
           end
       end.

(** ** The table *)
Record Secret := mkSecret {
  s_id : Uuid; s_user_id : string; s_name : string; encrypted_value : string; key_salt : string; s_provider : option string;
  expires_at : option DateTime; last_used_at : option DateTime; usage_count : Z; s_created_at : DateTime; s_updated_at : DateTime }.
Record SecretRef := mkRef { ref_name : string; ref_provider : option string }.
Record CreateSecretParams := mkParams {
  p_name : string; p_value : string; p_provider : option string; p_expires_at : option DateTime }.
Definition new_params (name value : string) : CreateSecretParams := mkParams name value None None.
Definition params_with_provider (p : CreateSecretParams) (provider : string) : CreateSecretParams :=
  mkParams (p_name p) (p_value p) (Some provider) (p_expires_at p).
Definition params_with_expiry (p : CreateSecretParams) (at_ : DateTime) : CreateSecretParams :=
  mkParams (p_name p) (p_value p) (p_provider p) (Some at_).

Record Columns := mkColumns { keep_time : DateTime -> DateTime; keep_provider : option string -> option string }.
Definition to_unit (n t : Z) : Z := t - t mod n.
(** PostgreSQL keeps microseconds; the libSQL text keeps milliseconds and an
    empty provider is read back as none. *)
Definition postgres_columns : Columns := mkColumns (to_unit 1000) (fun p => p).
Definition libsql_columns : Columns :=
  mkColumns (to_unit 1000000) (fun p => match p with Some EmptyString => None | p => p end).
Abbreviation Table := (gmap (string * string) Secret).

Definition secret_row (c : Columns) (user : string) (p : CreateSecretParams) (id : Uuid) (now : DateTime) (enc salt : string)
    (old : option Secret) : Secret :=
  let now := keep_time c now in
  let row id used n created :=
    mkSecret id user (p_name p) enc salt (keep_provider c (p_provider p)) (keep_time c <$> p_expires_at p) used n created now in
  match old with
  | None => row id None 0 now
  | Some r => row (s_id r) (last_used_at r) (usage_count r) (s_created_at r)
  end.
Definition create_secret (c : Columns) (cs : Ciphers) (master salt nonce : string) (id : Uuid) (now : DateTime)
    (user : string) (p : CreateSecretParams) (t : Table) : Result Secret SecretError * Table :=
  match encrypt cs master salt nonce (p_value p) with
  | Err e => (Err e, t)
  | Ok (enc, salt) =>
      let r := secret_row c user p id now enc salt (t !! (user, p_name p)) in
      (Ok r, <[(user, p_name p) := r]> t)
  end.
Definition get_secret (now : DateTime) (user name : string) (t : Table) : Result Secret SecretError :=
  match t !! (user, name) with
  | None => Err (SecretNotFound name)
  | Some r => match expires_at r with
              | Some e => if e <? now then Err SecretExpired else Ok r
              | None => Ok r
              end
  end.
Definition get_decrypted (cs : Ciphers) (master : string) (now : DateTime) (user name : string) (t : Table) : Result string SecretError :=
  let? r := get_secret now user name t in decrypt cs master (encrypted_value r) (key_salt r).
Definition secret_exists (user name : string) (t : Table) : bool :=
  match t !! (user, name) with Some _ => true | None => false end.
Fixpoint insert_ref (x : SecretRef) (l : list SecretRef) : list SecretRef :=
  match l with
  | [] => [x]
  | y :: l' => if String.leb (ref_name x) (ref_name y) then x :: l else y :: insert_ref x l'
  end.
Definition list_secrets (user : string) (t : Table) : list SecretRef :=
  foldr insert_ref [] ((fun r : Secret => mkRef (s_name r) (s_provider r))
    <$> (map_to_list (filter (fun kv : (string * string) * Secret => kv.1.1 = user) t)).*2).
Definition delete_secret (user name : string) (t : Table) : bool * Table := (secret_exists user name t, delete (user, name) t).
Definition used_row (c : Columns) (now : DateTime) (r : Secret) : Secret :=
  mkSecret (s_id r) (s_user_id r) (s_name r) (encrypted_value r) (key_salt r) (s_provider r) (expires_at r)
    (Some (keep_time c now)) (usage_count r + 1) (s_created_at r) (s_updated_at r).
Definition record_usage (c : Columns) (now : DateTime) (id : Uuid) (t : Table) : Table :=
  (fun r => if bool_decide (s_id r = id) then used_row c now r else r) <$> t.
(** The two databases. *)
Definition postgres_create := create_secret postgres_columns.
Definition postgres_record_usage := record_usage postgres_columns.
Definition libsql_create := create_secret libsql_columns.
Definition libsql_record_usage := record_usage libsql_columns.
Definition is_accessible (user name : string) (allowed : list string) (t : Table) : bool :=
  secret_exists user name t && secret_allowed allowed name.

(** ** Base64 *)
Definition ALPHABET : string := "ABCDEFGHIJKLMNOPQRSTUVWXYZabcdefghijklmnopqrstuvwxyz0123456789+/".
Definition b64_char (n : Z) : ascii := default "="%char (String.get (Z.to_nat n) ALPHABET).
Definition byte_of (c : ascii) : Z := Z.of_nat (nat_of_ascii c).
Definition sextet1 (b0 : Z) : Z := Z.shiftr b0 2.
Definition sextet2 (b0 b1 : Z) : Z := Z.lor (Z.shiftl (Z.land b0 3) 4) (Z.shiftr b1 4).
Definition sextet3 (b1 b2 : Z) : Z := Z.lor (Z.shiftl (Z.land b1 15) 2) (Z.shiftr b2 6).
Definition sextet4 (b2 : Z) : Z := Z.land b2 63.
Definition b64_chunk (b0 b1 b2 : Z) (two three : bool) (rest : string) : string :=
  String (b64_char (sextet1 b0)) (String (b64_char (sextet2 b0 b1))
    (String (if two then b64_char (sextet3 b1 b2) else "="%char) (String (if three then b64_char (sextet4 b2) else "="%char) rest))).
Fixpoint base64_encode (s : string) : string :=
  match s with
  | EmptyString => EmptyString
  | String a EmptyString => b64_chunk (byte_of a) 0 0 false false EmptyString
  | String a (String b EmptyString) => b64_chunk (byte_of a) (byte_of b) 0 true false EmptyString
  | String a (String b (String c s)) => b64_chunk (byte_of a) (byte_of b) (byte_of c) true true (base64_encode s)
  end.

(** ** Injection *)
Inductive CredentialLocation :=
| AuthorizationBearer
| AuthorizationBasic (username : string)
| Header (name : string) (prefix : option string)
| QueryParam (name : string)
| UrlPath (placeholder : string).
Abbreviation Mapping := (CredentialMapping (CredentialLocation:=CredentialLocation)).
Definition bearer (secret host_pattern : string) : Mapping := mkMapping secret AuthorizationBearer [host_pattern].
Definition header_mapping (secret name host_pattern : string) : Mapping := mkMapping secret (Header name None) [host_pattern].

Inductive InjectionError :=
| InjNotFound (name : string) | InjAccessDenied (name : string) | InjExpired (name : string) | InjDecryptionFailed (msg : string)
| InjNoMatching (host : string).
Definition injection_error (e : SecretError) : InjectionError :=
  match e with
  | SecretNotFound n => InjNotFound n
  | SecretExpired => InjExpired "unknown"
  | SecretAccessDenied => InjAccessDenied "unknown"
  | DecryptionFailed m => InjDecryptionFailed m
  | e => InjDecryptionFailed (secret_error_display e)
  end.
Record InjectedCredentials := mkInjected { headers : gmap string string; query_params : gmap string string }.
Definition no_credentials : InjectedCredentials := mkInjected ∅ ∅.
Definition injected_is_empty (i : InjectedCredentials) : bool := bool_decide (headers i = ∅) && bool_decide (query_params i = ∅).
Definition inject_credential (i : InjectedCredentials) (l : CredentialLocation) (secret : string) : InjectedCredentials :=
  let add k v := mkInjected (<[k := v]> (headers i)) (query_params i) in
  match l with
  | AuthorizationBearer => add "Authorization"%string ("Bearer " ++s secret)
  | AuthorizationBasic u => add "Authorization"%string ("Basic " ++s base64_encode (u ++s ":" ++s secret))
  | Header n p => add n (match p with Some p => p ++s secret | None => secret end)
  | QueryParam n => mkInjected (headers i) (<[n := secret]> (query_params i))
  | UrlPath _ => i
  end.
Definition injector_matches (host pattern : string) : bool :=
  if String.eqb pattern host then true
  else match strip_prefix pattern "*." with Some suffix => wildcard_matches host suffix | None => false end.

(** The values of the map of mappings, in some order, and the allowed names. *)
Record CredentialInjector := mkInjector { mappings : list Mapping; allowed_secrets : list string }.
Definition find_credentials_for_host (i : CredentialInjector) (host : string) : list Mapping :=
  List.filter (fun m => existsb (injector_matches host) (host_patterns m)) (mappings i).
Definition inject_error (name : string) (e : SecretError) : InjectionError :=
  match e with
  | SecretNotFound n => InjNotFound n
  | SecretExpired => InjExpired name
  | e => InjDecryptionFailed (secret_error_display e)
  end.
Fixpoint inject_loop (i : CredentialInjector) (reveal : string -> Result string SecretError) (ms : list Mapping)
    (result : InjectedCredentials) : Result InjectedCredentials InjectionError :=
  match ms with
  | [] => Ok result
  | m :: ms =>
      if negb (secret_allowed (allowed_secrets i) (secret_name m)) then Err (InjAccessDenied (secret_name m))
      else match reveal (secret_name m) with
           | Err e => Err (inject_error (secret_name m) e)
           | Ok secret => inject_loop i reveal ms (inject_credential result (location m) secret)
           end
  end.
(** [reveal] is [store.get_decrypted] for the user of the request. *)
Definition inject (i : CredentialInjector) (host : string) (reveal : string -> Result string SecretError)
  : Result InjectedCredentials InjectionError :=
  match find_credentials_for_host i host with
  | [] => Ok no_credentials
  | ms => inject_loop i reveal ms no_credentials
  end.

(** ** Proofs: encryption *)
Lemma take_drop_str (a b : string) : take_str (String.length a) (a ++s b) = a /\ drop_str (String.length a) (a ++s b) = b.
Proof.
  induction a as [|c a [IH1 IH2]]; [by destruct b|]. rewrite append_cons_str. cbn [String.length take_str drop_str].
  by rewrite IH1, IH2.
Qed.
Section Crypto.
Context (cs : Ciphers).
(** What the crates promise: opening what was sealed under the same key and
    nonce gives the plaintext, and a ciphertext is longer by the tag. *)
Definition opens_sealed : Prop := forall key nonce p c,
  seal cs key nonce p = Ok c -> open_ cs key nonce c = Ok p /\ String.length c = (String.length p + TAG_SIZE)%nat.
Context (Haead : opens_sealed).

Lemma decrypt_encrypted (master salt nonce p enc salt' : string) :
  String.length nonce = NONCE_SIZE -> encrypt cs master salt nonce p = Ok (enc, salt') ->
  decrypt cs master enc salt' = decrypted_from_bytes p.
Proof.
  intros Hn He. unfold encrypt in He. unfold decrypt. destruct (hkdf cs master salt) as [key|] eqn:Ek; [|done].
  destruct (seal cs key nonce p) as [c|] eqn:Es; [|done]. injection He as <- <-. destruct (Haead _ _ _ _ Es) as [Ho Hl].
  rewrite append_length_str, Hn, Hl. destruct (Nat.ltb_spec (NONCE_SIZE + (String.length p + TAG_SIZE)) (NONCE_SIZE + TAG_SIZE)); [lia|].
  rewrite Ek, <-Hn. destruct (take_drop_str nonce c) as [-> ->]. by rewrite Ho.
Qed.

(** ** The table *)
(** Each row stands under its own user and name, and ids are not shared. *)
Record table_ok (t : Table) : Prop := {
  to_key : forall k r, t !! k = Some r -> k = (s_user_id r, s_name r);
  to_id : forall k k' r r', t !! k = Some r -> t !! k' = Some r' -> s_id r = s_id r' -> k = k' }.
Lemma table_ok_empty : table_ok ∅.
Proof. split; intros *; by rewrite ?lookup_empty. Qed.
Lemma secret_row_key c user p id now enc salt old :
  s_user_id (secret_row c user p id now enc salt old) = user /\ s_name (secret_row c user p id now enc salt old) = p_name p
  /\ s_id (secret_row c user p id now enc salt old) = match old with Some r => s_id r | None => id end.
Proof. unfold secret_row. by destruct old. Qed.
Lemma table_ok_insert c user p id now enc salt t :
  (forall k r, t !! k = Some r -> s_id r <> id) -> table_ok t ->
  table_ok (<[(user, p_name p) := secret_row c user p id now enc salt (t !! (user, p_name p))]> t).
Proof.
  intros Hf [Hk Hi]. destruct (secret_row_key c user p id now enc salt (t !! (user, p_name p))) as (E1 & E2 & E3).
  assert (Hid : forall k r, t !! k = Some r -> s_id r = s_id (secret_row c user p id now enc salt (t !! (user, p_name p))) -> k = (user, p_name p)).
  { intros k r Hr. rewrite E3. destruct (t !! (user, p_name p)) as [o|] eqn:Eo; [intros; by apply (Hi k _ r o)|].
    intros H. by destruct (Hf k r Hr). }
  split.
  - intros k r. rewrite lookup_insert_Some. intros [[<- <-]|[_ H]]; [by rewrite E1, E2|by apply Hk].
  - intros k k' r r'. rewrite !lookup_insert_Some. intros [[<- <-]|[Hn H]] [[<- <-]|[Hn' H']] Hs; try done.
    + symmetry. by apply (Hid _ r').
    + by apply (Hid _ r).
    + by apply (Hi _ _ _ _ H H').
Qed.
Lemma table_ok_delete user name t : table_ok t -> table_ok (delete_secret user name t).2.
Proof.
  intros [Hk Hi]. cbn. split; [intros k r [_ H]%lookup_delete_Some; by apply Hk|].
  intros k k' r r' [_ H]%lookup_delete_Some [_ H']%lookup_delete_Some. by apply (Hi _ _ _ _ H H').
Qed.
Lemma table_ok_usage c now id t : table_ok t -> table_ok (record_usage c now id t).
Proof.
  intros [Hk Hi]. unfold record_usage. split.
  - intros k r. rewrite lookup_fmap. destruct (t !! k) as [r0|] eqn:E; [|done]. cbn. intros [= <-].
    rewrite (Hk _ _ E). by case_bool_decide.
  - intros k k' r r'. rewrite !lookup_fmap. destruct (t !! k) as [x|] eqn:E; [|done]. destruct (t !! k') as [y|] eqn:E'; [|done].
    cbn. intros [= <-] [= <-] H. apply (Hi _ _ _ _ E E'). by repeat case_bool_decide.
Qed.

(** C10. Secrets come back.  A secret that was stored is read back by the same user
    under the same name with its value until the stored expiry has passed, and
    reported as expired afterwards; no other entry changes.  Storing it again
    keeps its id, its use count and its creation time. *)
Theorem stored_secret_reads_back (c : Columns) (master salt nonce : string) (id : Uuid) (now later : DateTime) (user : string)
    (p : CreateSecretParams) (t t' : Table) (r : Secret) :
  String.length nonce = NONCE_SIZE -> utf8_valid (p_value p) = true ->
  create_secret c cs master salt nonce id now user p t = (Ok r, t') ->
  get_decrypted cs master later user (p_name p) t'
    = match p_expires_at p with
      | Some e => if keep_time c e <? later then Err SecretExpired else Ok (p_value p)
      | None => Ok (p_value p)
      end
  /\ secret_exists user (p_name p) t' = true
  /\ (forall k, k <> (user, p_name p) -> t' !! k = t !! k)
  /\ (forall o, t !! (user, p_name p) = Some o ->
        s_id r = s_id o /\ usage_count r = usage_count o /\ s_created_at r = s_created_at o /\ last_used_at r = last_used_at o).
Proof.
  intros Hn Hu Hc. unfold create_secret in Hc. destruct (encrypt _ _ _ _ _) as [[enc salt']|] eqn:He; [|done].
  injection Hc as <- <-. pose proof (decrypt_encrypted _ _ _ _ _ _ Hn He) as Hd.
  unfold decrypted_from_bytes in Hd. rewrite Hu in Hd. unfold get_decrypted, get_secret, secret_exists. rewrite lookup_insert_eq.
  assert (Hr : forall o, expires_at (secret_row c user p id now enc salt' o) = keep_time c <$> p_expires_at p
      /\ encrypted_value (secret_row c user p id now enc salt' o) = enc /\ key_salt (secret_row c user p id now enc salt' o) = salt')
    by (intros [o|]; done).
  destruct (Hr (t !! (user, p_name p))) as (-> & E1 & E2). split_and!.
  - destruct (p_expires_at p) as [e|]; cbn [fmap option_fmap option_map]; [destruct (_ <? _); [done|]|]; by rewrite E1, E2.
  - done.
  - intros k Hk. by rewrite lookup_insert_ne.
  - intros o Ho. by rewrite Ho.
Qed.
End Crypto.

(** Using a secret is counted on that secret alone. *)
Theorem record_usage_spec (c : Columns) (now : DateTime) (k : string * string) (r : Secret) (t : Table) :
  table_ok t -> t !! k = Some r ->
  record_usage c now (s_id r) t !! k = Some (used_row c now r)
  /\ (forall k', k' <> k -> record_usage c now (s_id r) t !! k' = t !! k')
  /\ table_ok (record_usage c now (s_id r) t).
Proof.
  intros Ht Hk. split_and!; [| |by apply table_ok_usage].
  - unfold record_usage. rewrite lookup_fmap, Hk. cbn. by rewrite bool_decide_eq_true_2.
  - intros k' Hne. unfold record_usage. rewrite lookup_fmap. destruct (t !! k') as [r'|] eqn:E; [|done]. cbn.
    rewrite bool_decide_eq_false_2; [done|]. intros Heq. apply Hne. by apply (to_id t Ht _ _ _ _ E Hk).
Qed.

(** ** Listing *)
Definition ref_le (a b : SecretRef) : Prop := String.leb (ref_name a) (ref_name b) = true.
Lemma insert_ref_sorted x l : Sorted ref_le l -> Sorted ref_le (insert_ref x l).
Proof.
  induction 1 as [|y l Hs IH Hh]; cbn [insert_ref]; [by repeat constructor|].
  destruct (String.leb (ref_name x) (ref_name y)) eqn:E; [by repeat constructor|]. constructor; [done|].
  assert (ref_le y x) by (unfold ref_le; destruct (String.leb_total (ref_name x) (ref_name y)); congruence).
  destruct l as [|z l]; cbn [insert_ref]; [by constructor|]. destruct (String.leb (ref_name x) (ref_name z)); constructor; [done|]. by inversion Hh.
Qed.
Lemma insert_ref_perm x l : insert_ref x l ≡ₚ x :: l.
Proof.
  induction l as [|y l IH]; cbn [insert_ref]; [done|]. destruct (String.leb _ _); [done|]. rewrite IH. apply perm_swap.
Qed.
(** The list of a user's secrets has one entry for each of them, in the order
    of the names, and nothing of anyone else. *)
Theorem list_secrets_spec (user : string) (t : Table) :
  Sorted ref_le (list_secrets user t)
  /\ list_secrets user t ≡ₚ (fun r => mkRef (s_name r) (s_provider r)) <$> (map_to_list (filter (fun kv => kv.1.1 = user) t)).*2
  /\ (table_ok t -> forall x, x ∈ list_secrets user t <-> exists r, t !! (user, ref_name x) = Some r /\ ref_provider x = s_provider r).
Proof.
  unfold list_secrets. set (l := _ <$> _). assert (Hp : foldr insert_ref [] l ≡ₚ l).
  { induction l as [|x l' IH]; [done|]. cbn. by rewrite insert_ref_perm, IH. }
  split_and!; [|done|].
  - induction l as [|x l' IH]; cbn; [constructor|]. apply insert_ref_sorted. apply IH.
    clear. induction l' as [|y l' IH]; [done|]. cbn. by rewrite insert_ref_perm, IH.
  - intros Ht x. rewrite Hp. unfold l. rewrite list_elem_of_fmap. split.
    + intros (r & -> & (([u n] & r') & -> & Hin)%list_elem_of_fmap). apply elem_of_map_to_list, map_lookup_filter_Some in Hin as [Hl Hu].
      cbn in *. subst u. exists r'. pose proof (to_key t Ht _ _ Hl) as [= -> ->]. done.
    + intros (r & Hl & Hpr). exists r. pose proof (to_key t Ht _ _ Hl) as [= Eu En]. split; [destruct x; cbn in *; by subst|].
      apply list_elem_of_fmap. exists ((user, ref_name x), r). split; [done|].
      apply elem_of_map_to_list, map_lookup_filter_Some. done.
Qed.

(** ** Base64 *)
(** A reference decoder: sextets back to bytes, with padding at the end only. *)
Fixpoint index_of (c : ascii) (i : Z) (s : string) : option Z :=
  match s with EmptyString => None | String d s => if Ascii.eqb c d then Some i else index_of c (i + 1) s end.
Definition sextet_of (c : ascii) : option Z := index_of c 0 ALPHABET.
Definition to_byte (n : Z) : ascii := chr (Z.to_nat (n mod 256)).
Fixpoint base64_decode (s : string) : option string :=
  match s with
  | EmptyString => Some EmptyString
  | String p (String q (String r (String t s))) =>
      x ← sextet_of p; y ← sextet_of q;
      let a := to_byte (x * 4 + y / 16) in
      match sextet_of r, sextet_of t with
      | Some z, Some w => rest ← base64_decode s; Some (String a (String (to_byte (y * 16 + z / 4)) (String (to_byte (z * 64 + w)) rest)))
      | Some z, None => Some (String a (String (to_byte (y * 16 + z / 4)) EmptyString))
      | None, _ => Some (String a EmptyString)
      end
  | _ => None
  end.
Lemma sextet_of_char n : 0 <= n < 64 -> sextet_of (b64_char n) = Some n.
Proof.
  intros H. assert (Hall : forallb (fun k => bool_decide (sextet_of (b64_char (Z.of_nat k)) = Some (Z.of_nat k))) (seq 0 64) = true)
    by (vm_compute; reflexivity).
  rewrite forallb_forall in Hall. specialize (Hall (Z.to_nat n) ltac:(apply in_seq; lia)).
  apply bool_decide_eq_true in Hall. by rewrite Z2Nat.id in Hall by lia.
Qed.
Lemma pad_no_sextet : sextet_of "="%char = None.
Proof. reflexivity. Qed.
Lemma byte_range a : 0 <= byte_of a < 256.
Proof. unfold byte_of. pose proof (nat_ascii_bounded a). lia. Qed.
Lemma to_byte_of a n : n mod 256 = byte_of a -> to_byte n = a.
Proof. unfold to_byte, byte_of, chr. intros ->. rewrite Nat2Z.id. apply ascii_nat_embedding. Qed.
Lemma sextets b0 b1 b2 : 0 <= b0 < 256 -> 0 <= b1 < 256 -> 0 <= b2 < 256 ->
  sextet1 b0 = b0 / 4 /\ sextet2 b0 b1 = b0 mod 4 * 16 + b1 / 16 /\ sextet3 b1 b2 = b1 mod 16 * 4 + b2 / 64 /\ sextet4 b2 = b2 mod 64.
Proof.
  intros H0 H1 H2. unfold sextet1, sextet2, sextet3, sextet4.
  rewrite !Z.shiftr_div_pow2, !Z.shiftl_mul_pow2 by lia.
  change 3 with (Z.ones 2). change 15 with (Z.ones 4). change 63 with (Z.ones 6). rewrite !Z.land_ones by lia.
  change (2 ^ 2) with 4. change (2 ^ 4) with 16. change (2 ^ 6) with 64. split_and!; try done.
  - assert (Hall : forallb (fun x => forallb (fun y => Z.lor (Z.of_nat x * 16) (Z.of_nat y) =? Z.of_nat x * 16 + Z.of_nat y) (seq 0 16)) (seq 0 4) = true) by (vm_compute; reflexivity).
    rewrite forallb_forall in Hall. specialize (Hall (Z.to_nat (b0 mod 4)) ltac:(apply in_seq; Z.to_euclidean_division_equations; lia)).
    rewrite forallb_forall in Hall. specialize (Hall (Z.to_nat (b1 / 16)) ltac:(apply in_seq; Z.to_euclidean_division_equations; lia)).
    rewrite !Z2Nat.id in Hall by (Z.to_euclidean_division_equations; lia). by apply Z.eqb_eq in Hall.
  - assert (Hall : forallb (fun x => forallb (fun y => Z.lor (Z.of_nat x * 4) (Z.of_nat y) =? Z.of_nat x * 4 + Z.of_nat y) (seq 0 4)) (seq 0 16) = true) by (vm_compute; reflexivity).
    rewrite forallb_forall in Hall. specialize (Hall (Z.to_nat (b1 mod 16)) ltac:(apply in_seq; Z.to_euclidean_division_equations; lia)).
    rewrite forallb_forall in Hall. specialize (Hall (Z.to_nat (b2 / 64)) ltac:(apply in_seq; Z.to_euclidean_division_equations; lia)).
    rewrite !Z2Nat.id in Hall by (Z.to_euclidean_division_equations; lia). by apply Z.eqb_eq in Hall.
Qed.

Lemma to_byte_mod a b k : a = b + k * 256 -> to_byte a = to_byte b.
Proof. intros ->. unfold to_byte. by rewrite Z.mod_add. Qed.
Lemma b64_step b0 b1 b2 two three rest : 0 <= b0 < 256 -> 0 <= b1 < 256 -> 0 <= b2 < 256 ->
  base64_decode (b64_chunk b0 b1 b2 two three rest)
  = (if two then if three then r ← base64_decode rest; Some (String (to_byte b0) (String (to_byte b1) (String (to_byte b2) r)))
                 else Some (String (to_byte b0) (String (to_byte b1) EmptyString))
     else Some (String (to_byte b0) EmptyString)).
Proof.
  intros H0 H1 H2. destruct (sextets b0 b1 b2 H0 H1 H2) as (E1 & E2 & E3 & E4). unfold b64_chunk. cbn [base64_decode].
  rewrite E1, E2, E3, E4. rewrite !sextet_of_char by (Z.to_euclidean_division_equations; lia). cbn [mbind option_bind].
  assert (F1 : to_byte (b0 / 4 * 4 + (b0 mod 4 * 16 + b1 / 16) / 16) = to_byte b0) by (apply to_byte_mod with 0; Z.to_euclidean_division_equations; lia).
  assert (F2 : to_byte ((b0 mod 4 * 16 + b1 / 16) * 16 + (b1 mod 16 * 4 + b2 / 64) / 4) = to_byte b1)
    by (apply to_byte_mod with (b0 mod 4); Z.to_euclidean_division_equations; lia).
  assert (F3 : to_byte ((b1 mod 16 * 4 + b2 / 64) * 64 + b2 mod 64) = to_byte b2)
    by (apply to_byte_mod with (b1 mod 16); Z.to_euclidean_division_equations; lia).
  destruct two, three; cbn [mbind option_bind]; rewrite ?pad_no_sextet, ?sextet_of_char by (Z.to_euclidean_division_equations; lia); rewrite ?F1, ?F2, ?F3; done.
Qed.
Lemma to_byte_byte a : to_byte (byte_of a) = a.
Proof. apply to_byte_of. apply Z.mod_small, byte_range. Qed.
(** Decoding what was encoded gives the bytes back. *)
Theorem base64_roundtrip (s : string) : base64_decode (base64_encode s) = Some s.
Proof.
  revert s. fix IH 1. intros [|a [|b [|c s]]]; [done| | |]; cbn [base64_encode]; rewrite b64_step by (try apply byte_range; lia).
  - by rewrite to_byte_byte.
  - by rewrite !to_byte_byte.
  - rewrite IH. cbn [mbind option_bind]. by rewrite !to_byte_byte.
Qed.

(** ** Injection *)
(** [v] is what the mapping puts under [k]: in the headers ([true]) or in the query. *)
Definition puts (m : Mapping) (secret : string) (in_headers : bool) (k v : string) : Prop :=
  let i := inject_credential no_credentials (location m) secret in
  (if in_headers then headers i else query_params i) !! k = Some v.
Definition part (in_headers : bool) (i : InjectedCredentials) : gmap string string := if in_headers then headers i else query_params i.
Lemma inject_credential_part b i l secret k :
  part b (inject_credential i l secret) !! k
  = match part b (inject_credential no_credentials l secret) !! k with Some v => Some v | None => part b i !! k end.
Proof.
  destruct b, l as [|u|n p|n|]; cbn [part inject_credential headers query_params no_credentials]; rewrite ?lookup_empty; try done.
  - destruct (decide (k = "Authorization"%string)) as [->|]; [by rewrite !lookup_insert_eq|]. by rewrite !lookup_insert_ne by done.
  - destruct (decide (k = "Authorization"%string)) as [->|]; [by rewrite !lookup_insert_eq|]. by rewrite !lookup_insert_ne by done.
  - destruct (decide (k = n)) as [->|]; [by rewrite !lookup_insert_eq|]. by rewrite !lookup_insert_ne by done.
  - destruct (decide (k = n)) as [->|]; [by rewrite !lookup_insert_eq|]. by rewrite !lookup_insert_ne by done.
Qed.
Lemma inject_loop_spec i reveal ms r res :
  inject_loop i reveal ms r = Ok res ->
  Forall (fun m => secret_allowed (allowed_secrets i) (secret_name m) = true /\ exists s, reveal (secret_name m) = Ok s) ms
  /\ forall b k v, part b res !! k = Some v ->
       part b r !! k = Some v \/ exists m s, m ∈ ms /\ reveal (secret_name m) = Ok s /\ puts m s b k v.
Proof.
  revert r. induction ms as [|m ms IH]; intros r; cbn [inject_loop].
  { intros [= <-]. split; [constructor|auto]. }
  destruct (secret_allowed _ _) eqn:Ea; cbn [negb]; [|done]. destruct (reveal (secret_name m)) as [s|] eqn:Er; [|done].
  intros H. destruct (IH _ H) as [IH1 IH2]. split; [constructor; eauto|]. intros b k v Hv.
  destruct (IH2 b k v Hv) as [Hp|(m' & s' & Hin & Hs & Hp)].
  - rewrite inject_credential_part in Hp. destruct (part b (inject_credential no_credentials (location m) s) !! k) as [v'|] eqn:E.
    + right. exists m, s. split_and!; [by left|done|]. unfold puts. unfold part in E. rewrite E. congruence.
    + by left.
  - right. exists m', s'. split_and!; [by right|done..].
Qed.
(** Injection gives a request only credentials that are mapped to its host and
    allowed to the tool: every header and query parameter comes from such a
    mapping and the secret it names; when a mapping for the host is not
    allowed, or its secret cannot be read, there is no request, and a host
    without mapping gets nothing. *)
Theorem inject_spec (i : CredentialInjector) (host : string) (reveal : string -> Result string SecretError) :
  match inject i host reveal with
  | Ok res =>
      (forall b k v, part b res !! k = Some v ->
         exists m s, m ∈ mappings i /\ existsb (injector_matches host) (host_patterns m) = true
           /\ secret_allowed (allowed_secrets i) (secret_name m) = true /\ reveal (secret_name m) = Ok s /\ puts m s b k v)
      /\ Forall (fun m => existsb (injector_matches host) (host_patterns m) = true ->
           secret_allowed (allowed_secrets i) (secret_name m) = true /\ is_ok (reveal (secret_name m)) = true) (mappings i)
  | Err _ => exists m, m ∈ mappings i /\ existsb (injector_matches host) (host_patterns m) = true
      /\ (secret_allowed (allowed_secrets i) (secret_name m) = false \/ is_ok (reveal (secret_name m)) = false)
  end.
Proof.
  assert (Hin : forall m, m ∈ find_credentials_for_host i host <-> m ∈ mappings i /\ existsb (injector_matches host) (host_patterns m) = true).
  { intros m. unfold find_credentials_for_host. by rewrite list_elem_of_In, filter_In, <-list_elem_of_In. }
  assert (Hi : inject i host reveal = inject_loop i reveal (find_credentials_for_host i host) no_credentials)
    by (unfold inject; by destruct (find_credentials_for_host i host)).
  rewrite Hi. clear Hi. destruct (inject_loop _ _ _ _) as [res|e] eqn:E.
  - apply inject_loop_spec in E as [H1 H2]. rewrite Forall_forall in H1. split.
    + intros b k v Hv. destruct (H2 b k v Hv) as [Hn|(m & s & Hm & Hs & Hp)]; [destruct b; cbn [part no_credentials headers query_params] in Hn; by rewrite lookup_empty in Hn|].
      exists m, s. destruct (H1 m Hm) as [Ha _]. apply Hin in Hm as [Hm1 Hm2]. by split_and!.
    + apply Forall_forall. intros m Hm Hh. destruct (H1 m) as [Ha [s Hs]]; [by apply Hin|]. by rewrite Hs.
  - enough (exists m, m ∈ find_credentials_for_host i host /\ (secret_allowed (allowed_secrets i) (secret_name m) = false \/ is_ok (reveal (secret_name m)) = false)) as (m & Hm & Hd)
      by (apply Hin in Hm as [? ?]; eauto).
    clear Hin. revert E. generalize no_credentials. induction (find_credentials_for_host i host) as [|m ms IH]; intros r; cbn [inject_loop]; [done|].
    destruct (secret_allowed _ _) eqn:Ea; cbn [negb]; [|intros _; exists m; split; [by left|by left]].
    destruct (reveal (secret_name m)) as [s|] eqn:Er; [|intros _; exists m; split; [by left|right; by rewrite Er]].
    intros H. destruct (IH _ H) as (m' & ? & ?). exists m'. split; [by right|done].
Qed.

(** ** Witnesses *)
Module Demo.
(** A toy cipher with a tag of sixteen bytes. *)
Definition tag : string := "0123456789abcdef".
Definition ciphers : Ciphers := mkCiphers (fun _ _ => Ok EmptyString) (fun _ _ p => Ok (p ++s tag))
  (fun _ _ c => match strip_suffix c tag with Some p => Ok p | None => Err "bad tag"%string end).
Definition nonce : string := "nonce-nonce-".
Definition token : CreateSecretParams := params_with_expiry (new_params "github" "ghp_x") 5000000.
Definition first : Result Secret SecretError * Table :=
  create_secret libsql_columns ciphers "m" "s" nonce 1%N 1000 "alice" token ∅.
End Demo.
Lemma toy_opens_sealed : opens_sealed Demo.ciphers.
Proof.
  intros key nonce p c. cbn. intros [= <-]. assert (strip_suffix (p ++s Demo.tag) Demo.tag = Some p) as -> by (by apply strip_suffix_spec).
  split; [done|]. by rewrite append_length_str.
Qed.
Lemma stored_secret_reads_back_witness :
  get_decrypted Demo.ciphers "m" 4000000 "alice" "github" Demo.first.2 = Ok "ghp_x"%string
  /\ get_decrypted Demo.ciphers "m" 5000001 "alice" "github" Demo.first.2 = Err SecretExpired.
Proof.
  destruct Demo.first as [[r|] t] eqn:E; [|discriminate].
  split; [destruct (stored_secret_reads_back Demo.ciphers toy_opens_sealed libsql_columns "m" "s" Demo.nonce 1%N 1000 4000000 "alice" Demo.token ∅ t r
            ltac:(reflexivity) ltac:(reflexivity) E) as [H _]; exact H|].
  destruct (stored_secret_reads_back Demo.ciphers toy_opens_sealed libsql_columns "m" "s" Demo.nonce 1%N 1000 5000001 "alice" Demo.token ∅ t r
            ltac:(reflexivity) ltac:(reflexivity) E) as [H _]; exact H.
Defined.
Lemma record_usage_spec_witness :
  forall r, Demo.first.2 !! ("alice"%string, "github"%string) = Some r ->
  record_usage libsql_columns 9000000 (s_id r) Demo.first.2 !! ("alice"%string, "github"%string) = Some (used_row libsql_columns 9000000 r).
Proof.
  intros r Hr. assert (Ht : table_ok Demo.first.2).
  { unfold Demo.first, create_secret. cbn. apply (table_ok_insert libsql_columns "alice" Demo.token 1%N 1000 _ _ ∅); [|apply table_ok_empty].
    intros k r' H. by rewrite lookup_empty in H. }
  destruct (record_usage_spec libsql_columns 9000000 ("alice"%string, "github"%string) r Demo.first.2 Ht Hr) as [H _]. exact H.
Defined.
Example expired_secret_exists :
  secret_exists "alice" "github" Demo.first.2 = true /\ get_secret 9000000 "alice" "github" Demo.first.2 = Err SecretExpired.
Proof. vm_compute. done. Qed.
Example basic_credentials : base64_encode "user:pass" = "dXNlcjpwYXNz"%string /\ base64_encode "ab" = "YWI="%string.
Proof. vm_compute. done. Qed.
