(* ===== verification/Pairing.v ===== *)
(** Sender pairing: [src/pairing/store.rs].

    The three JSON files of a channel are the state: a file is missing,
    blank (just created or truncated) or holds a value; only this code writes
    them, so a file that does not parse is a blank one.  Files are named by
    the channel's safe key.  The clock, the random codes and the fallback
    code are arguments; a timestamp is the number of seconds it denotes.
    Input/output errors are not modelled. *)

From S2P Require Import Prelude Strs.
#[local] Open Scope claw_scope.

Definition PAIRING_PENDING_TTL_SECS : Z := 15 * 60.
Definition PAIRING_PENDING_MAX : nat := 3.
Definition PAIRING_APPROVE_RATE_LIMIT : nat := 10.
Definition PAIRING_APPROVE_RATE_WINDOW_SECS : Z := 5 * 60.

Inductive PairingStoreError := InvalidChannel (what : string) | ApproveRateLimited.

(** ** Channel keys *)
Definition unsafe_chars : list Ascii.ascii := map chr [92; 47; 58; 42; 63; 34; 60; 62; 124]%nat.
Definition safe_char (c : Ascii.ascii) : Ascii.ascii :=
  if existsb (Ascii.eqb c) unsafe_chars then chr 95 else c.
Fixpoint map_string (f : Ascii.ascii -> Ascii.ascii) (s : string) : string :=
  match s with EmptyString => EmptyString | String c s => String (f c) (map_string f s) end.

Definition dot : Ascii.ascii := chr 46.
(** [replace("..", "_")]: left to right, without overlap. *)
Fixpoint replace_dots (s : string) : string :=
  match s with
  | EmptyString => EmptyString
  | String c s' =>
      match s' with
      | String d s'' =>
          if Ascii.eqb c dot && Ascii.eqb d dot then String (chr 95) (replace_dots s'')
          else String c (replace_dots s')
      | EmptyString => s
      end
  end.

Definition safe_channel_key (channel : string) : Result string PairingStoreError :=
  let raw := to_lowercase (trim channel) in
  if is_empty raw then Err (InvalidChannel "empty")
  else
    let safe := replace_dots (map_string safe_char raw) in
    if is_empty safe || String.eqb safe "_" then Err (InvalidChannel channel) else Ok safe.

(** ** Files *)
Inductive Content (A : Type) := Blank | Json (a : A).
Arguments Blank {A}.
Arguments Json {A} _.
(** What [from_str(..).unwrap_or(empty)] makes of a file. *)
Definition contents {A} (f : option (Content (list A))) : list A :=
  match f with Some (Json l) => l | _ => [] end.
(** Opening with [create(true)]. *)
Definition created {A} (f : option (Content A)) : option (Content A) := Some (default Blank f).

Section Pairing.
  Context {Value : Type}.

Record PairingRequest := mkRequest {
  id : string;
  code : string;
  created_at : Z;
  last_seen_at : Z;
  meta : option Value;
}.

Record ChannelFiles := mkFiles {
  pairing : option (Content (list PairingRequest));
  allow_from : option (Content (list string));
  attempts : option (Content (list Z));
}.
Definition no_files : ChannelFiles := mkFiles None None None.
Definition set_pairing (cf : ChannelFiles) f : ChannelFiles := mkFiles f (allow_from cf) (attempts cf).
Definition set_allow (cf : ChannelFiles) f : ChannelFiles := mkFiles (pairing cf) f (attempts cf).
Definition set_attempts (cf : ChannelFiles) f : ChannelFiles := mkFiles (pairing cf) (allow_from cf) f.

Definition is_expired (r : PairingRequest) (now : Z) : bool :=
  PAIRING_PENDING_TTL_SECS <? saturating_sub now (created_at r).
Definition live (now : Z) (l : list PairingRequest) : list PairingRequest :=
  List.filter (fun r => negb (is_expired r now)) l.

(** ** Codes: [draws i] is the [i]-th call of [random_code]. *)
Fixpoint unique_code (n i : nat) (existing : list string) (draws : nat -> string) (fallback : string) : string :=
  match n with
  | O => fallback
  | S n => if bool_decide (draws i ∈ existing) then unique_code n (S i) existing draws fallback else draws i
  end.
Definition generate_unique_code := unique_code 500 0.

(** ** Operations on the files of one channel *)
Definition created_le (a b : PairingRequest) : Prop := created_at a <= created_at b.
#[local] Instance created_le_dec : RelDecision created_le.
Proof. intros a b. unfold created_le. apply _. Defined.

Definition list_pending (now : Z) (cf : ChannelFiles) : list PairingRequest * ChannelFiles :=
  match pairing cf with
  | None => ([], cf)
  | Some _ =>
      let all := contents (pairing cf) in
      let requests := live now all in
      (merge_sort created_le requests,
       if (length requests =? length all)%nat then cf else set_pairing cf (Some (Json requests)))
  end.

Record UpsertResult := mkUpsert { up_code : string; up_created : bool }.

Definition upsert_files (raw_id : string) (m : option Value) (now : Z) (draws : nat -> string)
    (fallback : string) (cf : ChannelFiles) : Result UpsertResult PairingStoreError * ChannelFiles :=
  let opened := set_pairing cf (created (pairing cf)) in
  let i := trim raw_id in
  if is_empty i then (Err (InvalidChannel "empty id"), opened)
  else
    let requests := live now (contents (pairing cf)) in
    let existing := map (fun r => to_uppercase (code r)) requests in
    match list_find (fun r => id r = i) requests with
    | Some (idx, req) =>
        let c := if is_empty (code req) then generate_unique_code existing draws fallback else code req in
        let req' := mkRequest (id req) c (created_at req) now
                      (match m with Some x => Some x | None => meta req end) in
        (Ok (mkUpsert c false), set_pairing cf (Some (Json (<[idx := req']> requests))))
    | None =>
        if (PAIRING_PENDING_MAX <=? length requests)%nat then (Ok (mkUpsert EmptyString false), opened)
        else
          let c := generate_unique_code existing draws fallback in
          (Ok (mkUpsert c true), set_pairing cf (Some (Json (requests ++ [mkRequest i c now now m]))))
    end.

Definition is_approve_rate_limited (now : Z) (cf : ChannelFiles) : bool :=
  let cutoff := saturating_sub now PAIRING_APPROVE_RATE_WINDOW_SECS in
  (PAIRING_APPROVE_RATE_LIMIT <=? length (List.filter (fun t => (cutoff <=? t)%Z) (contents (attempts cf))))%nat.

Definition record_failed_approve (now : Z) (cf : ChannelFiles) : ChannelFiles :=
  let cutoff := saturating_sub now PAIRING_APPROVE_RATE_WINDOW_SECS in
  set_attempts cf (Some (Json (List.filter (fun t => cutoff <=? t) (contents (attempts cf) ++ [now])))).

(** The file is opened with [truncate(true)] and only then read. *)
Definition add_allow_from (raw : string) (cf : ChannelFiles) : ChannelFiles :=
  let entry := trim raw in
  if is_empty entry then cf
  else
    let truncated := Some Blank in
    let allow := contents truncated in
    if existsb (fun e => String.eqb (to_lowercase e) (to_lowercase entry)) allow then set_allow cf truncated
    else set_allow cf (Some (Json (allow ++ [entry]))).

Definition approve_files (c : string) (now : Z) (cf : ChannelFiles)
  : Result (option PairingRequest) PairingStoreError * ChannelFiles :=
  if is_approve_rate_limited now cf then (Err ApproveRateLimited, cf)
  else match pairing cf with
  | None => (Err (InvalidChannel "no pairing file"), cf)
  | Some _ =>
      let requests := live now (contents (pairing cf)) in
      match list_find (fun r => to_uppercase (code r) = c) requests with
      | Some (i, entry) =>
          (Ok (Some entry), add_allow_from (id entry) (set_pairing cf (Some (Json (delete i requests)))))
      | None => (Ok None, record_failed_approve now cf)
      end
  end.

Definition sender_allowed (allow : list string) (i : string) (username : option string) : bool :=
  existsb (fun e => String.eqb (trim e) (trim i)) allow
  || match username with
     | None => false
     | Some u =>
         let u := to_lowercase (trim u) in
         let u_norm := default u (strip_prefix u "@") in
         existsb (fun e => String.eqb (to_lowercase (trim e)) u
                           || String.eqb (to_lowercase (trim e)) ("@" ++s u_norm)) allow
     end.

(** ** The store *)
Abbreviation Store := (gmap string ChannelFiles).

Definition files (s : Store) (key : string) : ChannelFiles := default no_files (s !! key).

Definition pending (channel : string) (now : Z) (s : Store)
  : Result (list PairingRequest) PairingStoreError * Store :=
  match safe_channel_key channel with
  | Err e => (Err e, s)
  | Ok key => let '(l, cf) := list_pending now (files s key) in (Ok l, <[key := cf]> s)
  end.

Definition upsert_request (channel raw_id : string) (m : option Value) (now : Z) (draws : nat -> string)
    (fallback : string) (s : Store) : Result UpsertResult PairingStoreError * Store :=
  match safe_channel_key channel with
  | Err e => (Err e, s)
  | Ok key => let '(r, cf) := upsert_files raw_id m now draws fallback (files s key) in (r, <[key := cf]> s)
  end.

Definition approve (channel raw_code : string) (now : Z) (s : Store)
  : Result (option PairingRequest) PairingStoreError * Store :=
  let c := to_uppercase (trim raw_code) in
  if is_empty c then (Ok None, s)
  else match safe_channel_key channel with
  | Err e => (Err e, s)
  | Ok key => let '(r, cf) := approve_files c now (files s key) in (r, <[key := cf]> s)
  end.

Definition read_allow_from (channel : string) (s : Store) : Result (list string) PairingStoreError :=
  let? key := safe_channel_key channel in Ok (contents (allow_from (files s key))).

Definition is_sender_allowed (channel i : string) (username : option string) (s : Store)
  : Result bool PairingStoreError :=
  let? allow := read_allow_from channel s in Ok (sender_allowed allow i username).
End Pairing.
Arguments PairingRequest : clear implicits.
Arguments ChannelFiles : clear implicits.

(** ** Executions

    [last_approved] maps a channel key to the sender approved last. *)
Section Executions.
  Context {Value : Type}.
  Abbreviation Store := (gmap string (ChannelFiles Value)).
Record World := mkWorld { store : Store; last_approved : gmap string string }.

Inductive pairing_step : World -> World -> Prop :=
| ps_list s g channel now :
    pairing_step (mkWorld s g) (mkWorld (snd (pending channel now s)) g)
| ps_upsert s g channel raw_id m now draws fallback :
    pairing_step (mkWorld s g) (mkWorld (snd (upsert_request channel raw_id m now draws fallback s)) g)
| ps_refused s g channel raw_code now s' r :
    approve channel raw_code now s = (r, s') -> (forall req, r <> Ok (Some req)) ->
    pairing_step (mkWorld s g) (mkWorld s' g)
| ps_approved s g channel raw_code now s' req key :
    approve channel raw_code now s = (Ok (Some req), s') -> safe_channel_key channel = Ok key ->
    pairing_step (mkWorld s g) (mkWorld s' (<[key := id req]> g)).

(** ** Lemmas *)
(** *** Keys *)
Lemma string_ind2 (P : string -> Prop) :
  P EmptyString -> (forall c, P (String c EmptyString)) ->
  (forall c d s, P s -> P (String d s) -> P (String c (String d s))) -> forall s, P s.
Proof.
  intros H0 H1 H2 s. assert (P s /\ forall c, P (String c s)) as [H _]; [|exact H].
  induction s as [|d s [IHs IHc]]; auto.
Qed.

Fixpoint no_dotdot (s : string) : bool :=
  match s with
  | String c s' =>
      match s' with
      | String d _ => negb (Ascii.eqb c dot && Ascii.eqb d dot) && no_dotdot s'
      | EmptyString => true
      end
  | EmptyString => true
  end.
Definition head_is (c : Ascii.ascii) (s : string) : bool :=
  match s with String d _ => Ascii.eqb d c | EmptyString => false end.

Lemma no_dotdot_cons c s :
  no_dotdot s = true -> (Ascii.eqb c dot && head_is dot s) = false -> no_dotdot (String c s) = true.
Proof. destruct s as [|d s]; [done|]. cbn [no_dotdot head_is]. by intros -> ->. Qed.

Lemma replace_dots_clean s :
  no_dotdot (replace_dots s) = true /\ (head_is dot (replace_dots s) = true -> head_is dot s = true).
Proof.
  induction s as [|c|c d s IHs IHd] using string_ind2; [done|by split|].
  cbn [replace_dots]. destruct (Ascii.eqb c dot && Ascii.eqb d dot) eqn:E.
  - destruct IHs as [Hs _]. split; [|done]. apply no_dotdot_cons; done.
  - destruct IHd as [Hd Hh]. split; [|done]. apply no_dotdot_cons; [done|].
    destruct (Ascii.eqb c dot); [|done]. simpl in E |- *.
    destruct (head_is dot (replace_dots (String d s))) eqn:E'; [|done].
    specialize (Hh eq_refl). simpl in Hh. congruence.
Qed.

Lemma replace_dots_contains s x :
  Ascii.eqb x (chr 95) = false -> contains_char s x = false -> contains_char (replace_dots s) x = false.
Proof.
  intros Hx. induction s as [|c|c d s IHs IHd] using string_ind2; [done|done|].
  cbn [replace_dots contains_char]. intros H. apply orb_false_iff in H as [Hc H].
  apply orb_false_iff in H as [Hd Hs].
  destruct (_ && _); cbn [contains_char]; apply orb_false_iff; split; auto.
  apply IHd. cbn [contains_char]. by apply orb_false_iff.
Qed.

Lemma safe_char_contains s x :
  x ∈ unsafe_chars -> Ascii.eqb x (chr 95) = false -> contains_char (map_string safe_char s) x = false.
Proof.
  intros Hin Hx. induction s as [|c s IH]; [done|]. cbn [map_string contains_char]. rewrite IH, orb_false_r.
  unfold safe_char. destruct (existsb (Ascii.eqb c) unsafe_chars) eqn:E; [done|].
  destruct (Ascii.eqb_spec x c) as [->|]; [|done]. exfalso. apply not_true_iff_false in E. apply E.
  apply existsb_exists. exists c. split; [by apply list_elem_of_In|apply Ascii.eqb_refl].
Qed.

(** A key names a file inside the store's directory. *)
Definition safe_key (k : string) : Prop :=
  k <> EmptyString /\ contains_char k (chr 47) = false /\ contains_char k (chr 92) = false /\ no_dotdot k = true.

Lemma safe_channel_key_safe channel key : safe_channel_key channel = Ok key -> safe_key key.
Proof.
  unfold safe_channel_key. destruct (is_empty (to_lowercase _)); [done|].
  destruct (is_empty (replace_dots _) || _) eqn:E; [done|]. intros <-%Ok_inj.
  apply orb_false_iff in E as [E _]. unfold safe_key. split_and!.
  - by destruct (replace_dots _).
  - apply replace_dots_contains; [done|]. apply safe_char_contains; [|done]. right. left.
  - apply replace_dots_contains; [done|]. apply safe_char_contains; [|done]. left.
  - apply replace_dots_clean.
Qed.

(** *** Requests *)
Record requests_ok (l : list (PairingRequest Value)) : Prop := {
  ro_max : (length l <= PAIRING_PENDING_MAX)%nat;
  ro_ids : NoDup (map id l);
  ro_trim : Forall (fun r => trim (id r) = id r /\ id r <> EmptyString) l;
}.

Lemma requests_ok_nil : requests_ok [].
Proof. split; simpl; [unfold PAIRING_PENDING_MAX; lia|constructor|constructor]. Qed.

Lemma requests_ok_sublist l l' : l' `sublist_of` l -> requests_ok l -> requests_ok l'.
Proof.
  intros Hs [Hm Hi Ht]. split.
  - apply sublist_length in Hs. lia.
  - eapply sublist_NoDup; [exact Hi|]. by apply fmap_sublist.
  - apply Forall_forall. intros r Hr. eapply Forall_forall in Ht; [exact Ht|]. by eapply elem_of_sublist.
Qed.

Lemma live_sublist now (l : list (PairingRequest Value)) : live now l `sublist_of` l.
Proof. unfold live. induction l as [|r l IH]; simpl; [constructor|]. destruct (negb _); by constructor. Qed.

Lemma live_ok now l : requests_ok l -> requests_ok (live now l).
Proof. apply requests_ok_sublist, live_sublist. Qed.

Lemma requests_ok_update l i (r r' : PairingRequest Value) :
  l !! i = Some r -> id r' = id r -> requests_ok l -> requests_ok (<[i := r']> l).
Proof.
  intros Hi Hid [Hm Hn Ht]. split.
  - by rewrite length_insert.
  - change (map id (<[i := r']> l)) with (id <$> <[i := r']> l). rewrite list_fmap_insert, list_insert_id; [done|].
    rewrite list_lookup_fmap, Hi. simpl. by rewrite Hid.
  - apply Forall_insert; [done|]. rewrite Hid. by eapply Forall_lookup_1 in Ht.
Qed.

Lemma requests_ok_push l (r : PairingRequest Value) :
  (length l < PAIRING_PENDING_MAX)%nat -> Forall (fun x => id x <> id r) l ->
  trim (id r) = id r -> id r <> EmptyString -> requests_ok l -> requests_ok (l ++ [r]).
Proof.
  intros Hl Hne Ht Hid [Hm Hn Hts]. split.
  - rewrite length_app. simpl. lia.
  - rewrite map_app. apply NoDup_app. split_and!; [done| |apply NoDup_singleton].
    intros x Hx. simpl. rewrite list_elem_of_singleton. intros ->.
    apply list_elem_of_fmap in Hx as (y & Hy & Hin). rewrite Forall_forall in Hne. by apply (Hne y Hin).
  - apply Forall_app. by repeat constructor.
Qed.

(** *** Channels *)
Definition allow_of (last : option string) : list string :=
  match last with Some i => [i] | None => [] end.
Record chan_ok (cf : ChannelFiles Value) (last : option string) : Prop := {
  co_requests : requests_ok (contents (pairing cf));
  co_allow : contents (allow_from cf) = allow_of last;
}.

Lemma contents_created {A} (f : option (Content (list A))) : contents (created f) = contents f.
Proof. by destruct f as [[]|]. Qed.

Lemma list_pending_ok now (cf : ChannelFiles Value) last : chan_ok cf last -> chan_ok (snd (list_pending now cf)) last.
Proof.
  intros Hc. pose proof Hc as [Hr Ha]. unfold list_pending. destruct (pairing cf) eqn:Hp; [|exact Hc].
  destruct (Nat.eqb _ _); [exact Hc|]. split; [|exact Ha]. by apply live_ok.
Qed.

Lemma upsert_files_ok raw m now draws fb (cf : ChannelFiles Value) last :
  chan_ok cf last -> chan_ok (snd (upsert_files raw m now draws fb cf)) last.
Proof.
  intros [Hr Ha]. unfold upsert_files.
  assert (chan_ok (set_pairing cf (created (pairing cf))) last) as Hopen.
  { split; cbn [set_pairing pairing allow_from]; [by rewrite contents_created|done]. }
  destruct (is_empty (trim raw)) eqn:He; [done|].
  pose proof (live_ok now _ Hr) as Hl.
  destruct (list_find _ _) as [[idx req]|] eqn:Hf.
  - apply list_find_Some in Hf as (Hi & Hid & _). split; simpl; [|done]. by eapply requests_ok_update.
  - apply list_find_None in Hf. case_match eqn:Hlen; [done|]. apply Nat.leb_gt in Hlen.
    split; simpl; [|done]. apply requests_ok_push; simpl; [done|done|apply trim_idemp| |done].
    by destruct (trim raw).
Qed.

Lemma add_allow_from_one raw (cf : ChannelFiles Value) :
  trim raw = raw -> raw <> EmptyString -> add_allow_from raw cf = set_allow cf (Some (Json [raw])).
Proof. intros Ht Hne. unfold add_allow_from. rewrite Ht. by destruct raw. Qed.

Lemma approve_files_ok c now (cf : ChannelFiles Value) last :
  chan_ok cf last ->
  chan_ok (snd (approve_files c now cf))
    (match fst (approve_files c now cf) with Ok (Some req) => Some (id req) | _ => last end).
Proof.
  intros [Hr Ha]. unfold approve_files. destruct (is_approve_rate_limited now cf); [done|].
  destruct (pairing cf) as [f|] eqn:Hp; [|split; simpl; rewrite ?Hp; done]. rewrite <- Hp in Hr |- *.
  pose proof (live_ok now _ Hr) as Hl.
  destruct (list_find _ _) as [[i req]|] eqn:Hf; simpl.
  - apply list_find_Some in Hf as (Hi & _ & _).
    destruct (Forall_lookup_1 _ _ _ _ (ro_trim _ Hl) Hi) as [Ht Hne].
    rewrite add_allow_from_one by done. split; simpl; [|done].
    eapply requests_ok_sublist; [apply sublist_delete|done].
  - split; done.
Qed.

(** *** Stores *)
Definition pairing_ok (w : World) : Prop :=
  (forall key, chan_ok (files (store w) key) (last_approved w !! key))
  /\ (forall key, is_Some (store w !! key) -> safe_key key).

Lemma files_insert (s : gmap string (ChannelFiles Value)) k cf k' :
  files (<[k := cf]> s) k' = if decide (k = k') then cf else files s k'.
Proof. unfold files. case_decide; [subst; by rewrite lookup_insert_eq|by rewrite lookup_insert_ne]. Qed.

Lemma pairing_ok_insert s g key cf last :
  pairing_ok (mkWorld s g) -> safe_key key -> chan_ok cf last ->
  pairing_ok (mkWorld (<[key := cf]> s) (partial_alter (fun _ => last) key g)).
Proof.
  intros [Hc Hk] Hsafe Hcf. split; cbn [store last_approved] in *.
  - intros k. rewrite files_insert. case_decide as Hd.
    + subst. by rewrite lookup_partial_alter_eq.
    + by rewrite lookup_partial_alter_ne.
  - intros k. destruct (decide (key = k)) as [->|Hne]; [done|]. rewrite lookup_insert_ne by done. apply Hk.
Qed.

(** Writing back a channel whose approved sender is unchanged. *)
Lemma pairing_ok_update s g key cf :
  pairing_ok (mkWorld s g) -> safe_key key -> chan_ok cf (g !! key) -> pairing_ok (mkWorld (<[key := cf]> s) g).
Proof.
  intros Hw Hs Hc. pose proof (pairing_ok_insert s g key cf (g !! key) Hw Hs Hc) as H.
  replace (partial_alter (fun _ => g !! key) key g) with g in H; [done|].
  apply map_eq. intros k. destruct (decide (key = k)) as [->|Hne].
  - by rewrite lookup_partial_alter_eq.
  - by rewrite lookup_partial_alter_ne.
Qed.

Lemma pairing_ok_step w w' : pairing_step w w' -> pairing_ok w -> pairing_ok w'.
Proof.
  intros Hs Hw. destruct Hs as [s g channel now|s g channel raw m now draws fb
    |s g channel raw now s' r Ha Hr|s g channel raw now s' req key Ha Hkey].
  - unfold pending. destruct (safe_channel_key channel) as [key|] eqn:Hkey; [|done].
    pose proof (list_pending_ok now (files s key) (g !! key) (proj1 Hw key)) as H.
    destruct (list_pending now (files s key)). apply pairing_ok_update; [done|by eapply safe_channel_key_safe|done].
  - unfold upsert_request. destruct (safe_channel_key channel) as [key|] eqn:Hkey; [|done].
    pose proof (upsert_files_ok raw m now draws fb (files s key) (g !! key) (proj1 Hw key)) as H.
    destruct (upsert_files raw m now draws fb (files s key)).
    apply pairing_ok_update; [done|by eapply safe_channel_key_safe|done].
  - unfold approve in Ha. destruct (is_empty _); [by simplify_eq|].
    destruct (safe_channel_key channel) as [key|] eqn:Hkey; [|by simplify_eq].
    pose proof (approve_files_ok (to_uppercase (trim raw)) now (files s key) (g !! key) (proj1 Hw key)) as H.
    destruct (approve_files _ now (files s key)) as [r' cf]. simplify_eq. simpl in H.
    apply pairing_ok_update; [done|by eapply safe_channel_key_safe|].
    destruct r as [[req|]|]; [by destruct (Hr req)|done|done].
  - unfold approve in Ha. destruct (is_empty _); [by simplify_eq|]. rewrite Hkey in Ha.
    pose proof (approve_files_ok (to_uppercase (trim raw)) now (files s key) (g !! key) (proj1 Hw key)) as H.
    destruct (approve_files _ now (files s key)) as [r' cf]. simplify_eq. simpl in H.
    apply (pairing_ok_insert s g key cf (Some (id req))); [done|by eapply safe_channel_key_safe|done].
Qed.

Lemma pairing_ok_init : pairing_ok (mkWorld ∅ ∅).
Proof.
  split; [|intros key [x Hx]; cbn [store] in Hx; by rewrite lookup_empty in Hx].
  intros key. unfold files. simpl. rewrite !lookup_empty. split; [apply requests_ok_nil|done].
Qed.

Lemma pairing_ok_run w : rtc pairing_step (mkWorld ∅ ∅) w -> pairing_ok w.
Proof.
  intros Hr. pattern w. eapply rtc_ind_r; [exact pairing_ok_init| |exact Hr].
  intros. by eapply pairing_ok_step.
Qed.

(** ** Properties *)

(** In every execution of the pairing store from an empty directory,
    whatever the channels, senders, codes and times: each file it touches is
    named by a key without a path separator or [".."], each channel has at
    most three pending requests, of different senders; and the allow list of
    a channel holds exactly the sender approved last and no other, so that
    a sender is allowed by id only if it is that one.  (So each approval
    takes back the ones before it: the file is truncated before it is
    read.) *)
Theorem pairing_store_invariant w channel key :
  rtc pairing_step (mkWorld ∅ ∅) w -> safe_channel_key channel = Ok key ->
  (forall k, is_Some (store w !! k) -> safe_key k)
  /\ (length (contents (pairing (files (store w) key))) <= PAIRING_PENDING_MAX)%nat
  /\ NoDup (map id (contents (pairing (files (store w) key))))
  /\ read_allow_from channel (store w) = Ok (allow_of (last_approved w !! key))
  /\ (forall i, is_sender_allowed channel i None (store w) = Ok true <->
        exists a, last_approved w !! key = Some a /\ trim a = trim i).
Proof.
  intros Hr Hkey. destruct (pairing_ok_run w Hr) as [Hc Hk]. destruct (Hc key) as [[Hm Hn _] Ha].
  assert (read_allow_from channel (store w) = Ok (allow_of (last_approved w !! key))) as Hread.
  { unfold read_allow_from. by rewrite Hkey, Ha. }
  split_and!; [done|done|done|done|]. intros i. unfold is_sender_allowed, sender_allowed. rewrite Hread.
  destruct (last_approved w !! key) as [a|]; simpl; rewrite ?orb_false_r.
  - destruct (String.eqb_spec (trim a) (trim i)) as [E|E].
    + split; [by exists a|done].
    + split; [done|]. intros (a' & [= <-] & E'). done.
  - split; [done|]. by intros (a & ? & _).
Qed.
End Executions.

(** ** Witnesses

    Alice and Bob ask to be paired on the same channel and are approved one
    after the other: Alice is no longer allowed. *)
Definition code_a (i : nat) : string := "AAAAAAAA".
Definition code_b (i : nat) : string := "BBBBBBBB".
Definition ask (who : string) draws (s : gmap string (ChannelFiles unit)) :=
  snd (upsert_request "telegram" who None 1000 draws EmptyString s).
Definition yes_to (c : string) (s : gmap string (ChannelFiles unit)) := snd (approve "telegram" c 1001 s).

Definition both_asked : gmap string (ChannelFiles unit) := ask "bob" code_b (ask "alice" code_a ∅).
Definition both_approved : gmap string (ChannelFiles unit) := yes_to "bbbbbbbb" (yes_to "aaaaaaaa" both_asked).
Definition demo_world : @World unit := mkWorld both_approved {["telegram"%string := "bob"%string]}.

Lemma demo_run : rtc pairing_step (mkWorld ∅ ∅) demo_world.
Proof.
  eapply rtc_l; [apply (ps_upsert _ _ "telegram" "alice" None 1000 code_a EmptyString)|].
  eapply rtc_l; [apply (ps_upsert _ _ "telegram" "bob" None 1000 code_b EmptyString)|].
  eapply rtc_l; [eapply (ps_approved _ _ "telegram" "aaaaaaaa" 1001); vm_compute; reflexivity|].
  eapply rtc_l; [eapply (ps_approved _ _ "telegram" "bbbbbbbb" 1001); vm_compute; reflexivity|].
  apply rtc_refl.
Qed.

Lemma pairing_store_invariant_witness :
  read_allow_from "telegram" (store demo_world) = Ok ["bob"%string]
  /\ is_sender_allowed "telegram" "alice" None (store demo_world) = Ok false
  /\ is_sender_allowed "telegram" "bob" None (store demo_world) = Ok true.
Proof.
  destruct (pairing_store_invariant demo_world "telegram" "telegram") as (_ & _ & _ & H1 & H2);
    [exact demo_run|vm_compute; reflexivity|].
  split_and!; [exact H1|vm_compute; reflexivity|].
  apply H2. exists "bob"%string. split; vm_compute; reflexivity.
Defined.
