(* ===== verification/Hooks.v ===== *)
(** Lifecycle hooks: [src/hooks/hook.rs] and [src/hooks/registry.rs].

    A hook is a record of what the [Hook] trait asks for.  Its execution is a
    function of the event; [None] means that it did not answer within its
    timeout.  The JSON printer and parser of [serde_json] are parameters. *)

From S2P Require Import Prelude Strs.

Inductive HookPoint :=
| BeforeInbound | BeforeToolCall | BeforeOutbound | OnSessionStart | OnSessionEnd | TransformResponse.
#[export] Instance hook_point_eq_dec : EqDecision HookPoint.
Proof. solve_decision. Defined.

Section Hooks.
  Context {Value : Type} (from_str : string -> option Value) (to_string : Value -> string).

Inductive HookEvent :=
| Inbound (user_id channel content : string) (thread_id : option string)
| ToolCall (tool_name : string) (parameters : Value) (user_id context : string)
| Outbound (user_id channel content : string) (thread_id : option string)
| SessionStart (user_id session_id : string)
| SessionEnd (user_id session_id : string)
| ResponseTransform (user_id thread_id response : string).

Definition hook_point (e : HookEvent) : HookPoint :=
  match e with
  | Inbound _ _ _ _ => BeforeInbound
  | ToolCall _ _ _ _ => BeforeToolCall
  | Outbound _ _ _ _ => BeforeOutbound
  | SessionStart _ _ => OnSessionStart
  | SessionEnd _ _ => OnSessionEnd
  | ResponseTransform _ _ _ => TransformResponse
  end.

Definition apply_modification (m : string) (e : HookEvent) : HookEvent :=
  match e with
  | Inbound u c _ t => Inbound u c m t
  | Outbound u c _ t => Outbound u c m t
  | ToolCall n p u c => ToolCall n (default p (from_str m)) u c
  | ResponseTransform u t _ => ResponseTransform u t m
  | SessionStart _ _ | SessionEnd _ _ => e
  end.

Definition extract_content (e : HookEvent) : string :=
  match e with
  | Inbound _ _ c _ | Outbound _ _ c _ => c
  | ToolCall _ p _ _ => to_string p
  | ResponseTransform _ _ r => r
  | SessionStart _ s | SessionEnd _ s => s
  end.

Inductive HookOutcome := Continue (modified : option string) | Reject (reason : string).
Inductive HookFailureMode := FailOpen | FailClosed.
Inductive HookError :=
| ExecutionFailed (reason : string)
| Timeout (timeout : Duration)
| Rejected (reason : string).

(** The messages of the error enum; [{timeout:?}] is left abstract. *)
Definition hook_error_display (show : Duration -> string) (e : HookError) : string :=
  match e with
  | ExecutionFailed r => "Hook execution failed: " +:+ r
  | Timeout t => "Hook timed out after " +:+ show t
  | Rejected r => "Hook rejected: " +:+ r
  end.

Record Hook := mkHook {
  hook_name : string;
  hook_points : list HookPoint;
  failure_mode : HookFailureMode;
  hook_timeout : Duration;
  execute : HookEvent -> option (Result HookOutcome HookError);
}.
Definition default_failure_mode : HookFailureMode := FailOpen.
Definition default_timeout : Duration := from_secs 5.

Record HookEntry := mkEntry { entry_hook : Hook; priority : Z }.

(** ** The registry *)
(** [sort_by_key] is stable: an element goes after those with an equal key. *)
Fixpoint insert_by_key (e : HookEntry) (l : list HookEntry) : list HookEntry :=
  match l with
  | [] => [e]
  | x :: l' => if priority e <? priority x then e :: l else x :: insert_by_key e l'
  end.
Definition sort_by_key (l : list HookEntry) : list HookEntry := foldl (fun acc e => insert_by_key e acc) [] l.

Definition register_with_priority (h : Hook) (p : Z) (l : list HookEntry) : list HookEntry :=
  sort_by_key (l ++ [mkEntry h p]).
Definition register (h : Hook) (l : list HookEntry) : list HookEntry := register_with_priority h 100 l.
Definition unregister (name : string) (l : list HookEntry) : bool * list HookEntry :=
  let l' := List.filter (fun e => negb (String.eqb (hook_name (entry_hook e)) name)) l in
  ((length l' <? length l)%nat, l').
Definition list_hooks (l : list HookEntry) : list string := map (fun e => hook_name (entry_hook e)) l.

Definition matching (e : HookEvent) (l : list HookEntry) : list Hook :=
  map entry_hook (List.filter (fun x => bool_decide (hook_point e ∈ hook_points (entry_hook x))) l).

Context (show : Duration -> string).

(** The loop over the matching hooks: the final event, or the error. *)
Fixpoint run_loop (hs : list Hook) (cur : HookEvent) : Result HookEvent HookError :=
  match hs with
  | [] => Ok cur
  | h :: hs =>
      match execute h cur with
      | Some (Ok (Reject reason)) => Err (Rejected reason)
      | Some (Ok (Continue (Some value))) => run_loop hs (apply_modification value cur)
      | Some (Ok (Continue None)) => run_loop hs cur
      | Some (Err err) =>
          match failure_mode h with
          | FailOpen => run_loop hs cur
          | FailClosed =>
              Err (ExecutionFailed ("Hook '" +:+ hook_name h +:+ "' failed: " +:+ hook_error_display show err))
          end
      | None =>
          match failure_mode h with
          | FailOpen => run_loop hs cur
          | FailClosed => Err (Timeout (hook_timeout h))
          end
      end
  end.

Definition run (l : list HookEntry) (e : HookEvent) : Result HookOutcome HookError :=
  match matching e l with
  | [] => Ok (Continue None)
  | hs =>
      match run_loop hs e with
      | Err err => Err err
      | Ok cur =>
          let modified := extract_content cur in
          if String.eqb modified (extract_content e) then Ok (Continue None) else Ok (Continue (Some modified))
      end
  end.

(** ** Specification *)
(** What one hook does to the event in flight. *)
Definition step_hook (h : Hook) (cur : HookEvent) : Result HookEvent HookError := run_loop [h] cur.

Definition prioritised (l : list HookEntry) : Prop := StronglySorted (fun a b => priority a <= priority b) l.

(** The entries of priority at most [p], and the others. *)
Definition upto (p : Z) (l : list HookEntry) : list HookEntry := List.filter (fun e => priority e <=? p) l.
Definition above (p : Z) (l : list HookEntry) : list HookEntry := List.filter (fun e => p <? priority e) l.

(** ** Lemmas *)
Lemma above_all p l : Forall (fun x => p < priority x) l -> above p l = l /\ upto p l = [].
Proof.
  unfold above, upto. induction 1 as [|x l Hx _ [IH1 IH2]]; [done|]. simpl.
  rewrite (proj2 (Z.ltb_lt _ _)), (proj2 (Z.leb_gt _ _)) by lia. by rewrite IH1, IH2.
Qed.

Lemma insert_by_key_spec e l :
  prioritised l -> insert_by_key e l = upto (priority e) l ++ e :: above (priority e) l.
Proof.
  unfold prioritised. induction 1 as [|x l Hs IH Hall]; [done|]. simpl.
  destruct (Z.ltb_spec (priority e) (priority x)) as [Hlt|Hge].
  - rewrite (proj2 (Z.leb_gt _ _)) by lia.
    destruct (above_all (priority e) l) as [Ha Hu]; [eapply Forall_impl; [exact Hall|simpl; lia]|].
    by rewrite Hu, Ha.
  - rewrite (proj2 (Z.leb_le _ _)) by lia. simpl. by rewrite IH.
Qed.

Lemma Forall_filter_b {A} (P : A -> Prop) f l : Forall P l -> Forall P (List.filter f l).
Proof. induction 1; simpl; [constructor|]. case_match; [by constructor|done]. Qed.

Lemma prioritised_filter f l : prioritised l -> prioritised (List.filter f l).
Proof.
  unfold prioritised. induction 1 as [|x l Hs IH Hall]; simpl; [constructor|].
  case_match; [|done]. constructor; [done|]. by apply Forall_filter_b.
Qed.

Lemma insert_by_key_sorted e l : prioritised l -> prioritised (insert_by_key e l).
Proof.
  unfold prioritised. induction 1 as [|x l Hs IH Hall]; simpl; [by repeat constructor|].
  destruct (Z.ltb_spec (priority e) (priority x)).
  - constructor; [by constructor|]. constructor; [lia|]. eapply Forall_impl; [exact Hall|]. simpl. lia.
  - constructor; [done|]. clear IH Hs. induction l as [|y l IHl]; simpl; [by repeat constructor|].
    inversion Hall as [|? ? Hy Hall']; subst. case_match; [constructor; [lia|done]|].
    constructor; [done|by apply IHl].
Qed.

Lemma sort_by_key_snoc l e : sort_by_key (l ++ [e]) = insert_by_key e (sort_by_key l).
Proof. unfold sort_by_key. by rewrite foldl_app. Qed.

Lemma sort_by_key_sorted l : prioritised (sort_by_key l).
Proof.
  induction l as [|e l IH] using rev_ind; [constructor|]. rewrite sort_by_key_snoc.
  by apply insert_by_key_sorted.
Qed.

Lemma insert_at_end e l : Forall (fun x => priority x <= priority e) l -> insert_by_key e l = l ++ [e].
Proof.
  induction 1 as [|x l Hx _ IH]; simpl; [done|]. rewrite (proj2 (Z.ltb_ge _ _)) by lia. by rewrite IH.
Qed.

Lemma prioritised_snoc l e : prioritised (l ++ [e]) -> prioritised l /\ Forall (fun x => priority x <= priority e) l.
Proof.
  unfold prioritised. induction l as [|x l IH]; simpl; [repeat constructor|].
  inversion 1 as [|? ? Hs Hall]; subst. apply Forall_app in Hall as [Hl He]. inv He.
  destruct (IH Hs). split; [by constructor|by constructor].
Qed.

Lemma sort_by_key_id l : prioritised l -> sort_by_key l = l.
Proof.
  induction l as [|e l IH] using rev_ind; [done|]. intros Hs. apply prioritised_snoc in Hs as [Hl He].
  rewrite sort_by_key_snoc, IH by done. by apply insert_at_end.
Qed.

Lemma run_loop_app hs1 hs2 e :
  run_loop (hs1 ++ hs2) e = match run_loop hs1 e with Ok e' => run_loop hs2 e' | Err err => Err err end.
Proof.
  revert e. induction hs1 as [|h hs1 IH]; intros e; simpl; [done|].
  destruct (execute h e) as [[[[v|]|r]|err]|]; rewrite ?IH; try done; by destruct (failure_mode h).
Qed.

(** A hook whose failures are ignored and that fails on every event. *)
Definition broken_open (h : Hook) : Prop :=
  failure_mode h = FailOpen /\ forall e, match execute h e with Some (Ok _) => False | _ => True end.

Lemma broken_open_skip h hs e : broken_open h -> run_loop (h :: hs) e = run_loop hs e.
Proof.
  intros [Hm Hf]. specialize (Hf e). simpl. rewrite Hm.
  destruct (execute h e) as [[[]|]|]; done.
Qed.

Lemma hook_point_apply m e : hook_point (apply_modification m e) = hook_point e.
Proof. by destruct e. Qed.

Lemma run_loop_point hs : forall e e', run_loop hs e = Ok e' -> hook_point e' = hook_point e.
Proof.
  induction hs as [|h hs IH]; intros e e'; simpl; [by intros <-%Ok_inj|].
  destruct (execute h e) as [[[[v|]|r]|err]|]; try destruct (failure_mode h); try done;
    intros H; apply IH in H; by rewrite ?hook_point_apply in H.
Qed.

Lemma run_unfold l e : run l e =
  match run_loop (matching e l) e with
  | Err err => Err err
  | Ok cur => Ok (Continue (if String.eqb (extract_content cur) (extract_content e) then None
                            else Some (extract_content cur)))
  end.
Proof.
  unfold run. destruct (matching e l) as [|h hs]; [simpl; by rewrite String.eqb_refl|].
  destruct (run_loop (h :: hs) e); [by destruct (String.eqb _ _)|done].
Qed.

Lemma run_loop_cons h hs e :
  run_loop (h :: hs) e = match step_hook h e with Ok e' => run_loop hs e' | Err err => Err err end.
Proof. exact (run_loop_app [h] hs e). Qed.

(** The hook at which the chain stops. *)
Lemma run_loop_err hs : forall e err,
  run_loop hs e = Err err <->
  exists before h after e', hs = before ++ h :: after /\ run_loop before e = Ok e' /\ step_hook h e' = Err err.
Proof.
  intros e err. split.
  - revert e. induction hs as [|h hs IH]; intros e; [done|]. rewrite run_loop_cons.
    destruct (step_hook h e) as [e'|err'] eqn:Hs.
    + intros Hl. destruct (IH e' Hl) as (b & h' & a & e'' & -> & Hb & Hh). exists (h :: b), h', a, e''.
      by rewrite run_loop_cons, Hs.
    + intros [= ->]. by exists [], h, hs, e.
  - intros (b & h & a & e' & -> & Hb & Hh). by rewrite run_loop_app, Hb, run_loop_cons, Hh.
Qed.

Lemma matching_skip e l1 x l2 :
  hook_point e ∉ hook_points (entry_hook x) \/ broken_open (entry_hook x) ->
  run_loop (matching e (l1 ++ x :: l2)) e = run_loop (matching e (l1 ++ l2)) e.
Proof.
  intros Hx. unfold matching. rewrite !List.filter_app, !map_app, !run_loop_app. case_match; [|done].
  cbn [List.filter]. case_bool_decide as Hp; [|done]. destruct Hx as [?|Hx]; [done|]. by apply broken_open_skip.
Qed.

(** ** Properties *)

(** Registering a hook in a registry kept in priority order puts it after
    the hooks of the same or a smaller number and before the others, so
    hooks of equal priority run in the order of their registration, and the
    registry stays in order under registrations and removals; removal takes
    out exactly the hooks of that name and reports whether there was one. *)
Theorem registry_order l :
  prioritised l ->
  (forall h p, register_with_priority h p l = upto p l ++ mkEntry h p :: above p l
     /\ prioritised (register_with_priority h p l))
  /\ (forall n, prioritised (snd (unregister n l))
     /\ (fst (unregister n l) = true <-> n ∈ list_hooks l)
     /\ n ∉ list_hooks (snd (unregister n l))).
Proof.
  intros Hl. split.
  - intros h p. unfold register_with_priority. rewrite sort_by_key_snoc, sort_by_key_id by done. split.
    + by apply insert_by_key_spec.
    + by apply insert_by_key_sorted.
  - intros n. unfold unregister, list_hooks. simpl. split_and!; [by apply prioritised_filter| |].
    + rewrite Nat.ltb_lt. clear Hl. induction l as [|x l IH]; simpl; [split; [lia|set_solver]|].
      pose proof (filter_length_le (fun e => negb (String.eqb (hook_name (entry_hook e)) n)) l).
      destruct (String.eqb_spec (hook_name (entry_hook x)) n) as [<-|Hne]; simpl.
      * split; [intros _; set_solver|lia].
      * rewrite elem_of_cons, <- IH. split; [intros; right; lia|intros [->|?]; [done|lia]].
    + intros Hin. apply list_elem_of_fmap in Hin as (e & -> & He).
      apply list_elem_of_In, filter_In in He as [_ He]. by rewrite String.eqb_refl in He.
Qed.

(** The outcome of [run] is decided by the matching hooks in their order.
    The chain stops at the first hook that rejects, or that fails or times
    out while being fail-closed, and no later hook is consulted; if there is
    none, the event goes through all of them, each seeing the modifications
    of those before, and the result reports the final content exactly when
    it differs from the original; hooks for other points and broken
    fail-open hooks change nothing. *)
Theorem run_chain l e :
  (forall err, run l e = Err err <->
     exists before h after e', matching e l = before ++ h :: after
       /\ run_loop before e = Ok e' /\ step_hook h e' = Err err)
  /\ (forall o, run l e = Ok o ->
        exists e', run_loop (matching e l) e = Ok e'
          /\ o = Continue (if String.eqb (extract_content e') (extract_content e) then None
                           else Some (extract_content e')))
  /\ (forall l1 x l2, l = l1 ++ x :: l2 ->
        hook_point e ∉ hook_points (entry_hook x) \/ broken_open (entry_hook x) ->
        run l e = run (l1 ++ l2) e).
Proof.
  split_and!.
  - intros err. rewrite run_unfold, <- run_loop_err. destruct (run_loop (matching e l) e); [done|].
    split; by intros [= ->].
  - intros o. rewrite run_unfold. destruct (run_loop (matching e l) e) as [cur|]; [|done]. intros [= <-]. by exists cur.
  - intros l1 x l2 -> Hx. by rewrite !run_unfold, matching_skip.
Qed.
End Hooks.
Arguments HookEvent : clear implicits.
Arguments Hook : clear implicits.
Arguments HookEntry : clear implicits.

(** ** Witnesses *)
Definition suffix_hook (name suffix : string) : Hook unit :=
  mkHook name [BeforeInbound] FailOpen default_timeout
    (fun e => Some (Ok (Continue (Some (extract_content (fun _ => EmptyString) e +:+ suffix))))).
Definition refusing_hook : Hook unit :=
  mkHook "guard" [BeforeInbound] FailClosed default_timeout (fun _ => None).
Definition demo_registry : list (HookEntry unit) :=
  [mkEntry (suffix_hook "a" "1") 10; mkEntry (suffix_hook "b" "2") 100].

Lemma registry_order_witness :
  list_hooks (register_with_priority (suffix_hook "c" "3") 10 demo_registry) = ["a"; "c"; "b"]%string.
Proof.
  assert (prioritised demo_registry) as Hs by (repeat constructor; simpl; lia).
  destruct (proj1 (registry_order demo_registry Hs) (suffix_hook "c" "3") 10) as [-> _].
  vm_compute. reflexivity.
Defined.

Example run_demo :
  let ev := Inbound "u" "cli" "x" None in
  let go := run (fun _ => None) (fun _ => EmptyString) (fun _ => "5s"%string) in
  go demo_registry ev = Ok (Continue (Some "x12"%string))
  /\ go (demo_registry ++ [mkEntry refusing_hook 200]) ev = Err (Timeout default_timeout)
  /\ go [] ev = Ok (Continue None).
Proof. vm_compute. split_and!; reflexivity. Qed.
