(* ===== verification/SessionManager.v ===== *)
(** Sessions of all users: [src/agent/session_manager.rs], and the hydration
    of a stored conversation ([maybe_hydrate_thread] of
    [src/agent/thread_ops.rs]).

    An [Arc<Mutex<Session>>] is a reference into [heap], which keeps a session
    for those who hold its reference also after the manager has dropped it.
    The hooks fired on the side are not part of the state. *)

From S2P Require Import Prelude Llm Session Undo.

Section SessionManager.
  Context {Value : Type} (null : Value).
  Abbreviation Sess := (Session Value).
  Abbreviation Um := (UndoManager Value).
  (** [ThreadKey]: user, channel, external thread id. *)
  Abbreviation ThreadKey := (string * string * option string)%type.

Record SessionManager := mkSM {
  sessions : gmap string Uuid;
  heap : gmap Uuid Sess;
  thread_map : gmap (string * string * option string) Uuid;
  undo_managers : gmap Uuid Um;
}.
Definition new_sm : SessionManager := mkSM ∅ ∅ ∅ ∅.

(** Writing through a reference. *)
Definition write_session (r : Uuid) (s : Sess) (m : SessionManager) : SessionManager :=
  mkSM (sessions m) (<[r := s]> (heap m)) (thread_map m) (undo_managers m).

Definition get_or_create_session (user : string) (fresh : Uuid) (now : DateTime) (m : SessionManager)
  : Uuid * SessionManager :=
  match sessions m !! user with
  | Some r => (r, m)
  | None =>
      (fresh, mkSM (<[user := fresh]> (sessions m))
                (<[fresh := new_session fresh now null user]> (heap m)) (thread_map m) (undo_managers m))
  end.

(** The mapping of a key, if its thread still exists in the session. *)
Definition resolve_lookup (r : Uuid) (key : ThreadKey) (m : SessionManager) : option Uuid :=
  match thread_map m !! key, heap m !! r with
  | Some tid, Some s => match threads s !! tid with Some _ => Some tid | None => None end
  | _, _ => None
  end.
Definition resolve_create (r : Uuid) (key : ThreadKey) (fresh : Uuid) (now : DateTime) (m : SessionManager)
  : Uuid * SessionManager :=
  match heap m !! r with
  | None => (fresh, m)
  | Some s =>
      let '(th, s') := create_thread fresh now null s in
      (thread_id th,
       mkSM (sessions m) (<[r := s']> (heap m)) (<[key := thread_id th]> (thread_map m))
         (<[thread_id th := new_undo]> (undo_managers m)))
  end.

Definition resolve_thread (user channel : string) (ext : option string) (fresh_s fresh_t : Uuid)
    (now : DateTime) (m : SessionManager) : Uuid * Uuid * SessionManager :=
  let '(r, m) := get_or_create_session user fresh_s now m in
  let key := (user, channel, ext) in
  match resolve_lookup r key m with
  | Some tid => (r, tid, m)
  | None => let '(tid, m) := resolve_create r key fresh_t now m in (r, tid, m)
  end.

Definition register_thread (show : Uuid -> string) (user channel : string) (tid r : Uuid)
    (m : SessionManager) : SessionManager :=
  mkSM (match sessions m !! user with Some _ => sessions m | None => <[user := r]> (sessions m) end)
    (heap m)
    (<[(user, channel, Some (show tid)) := tid]> (thread_map m))
    (match undo_managers m !! tid with Some _ => undo_managers m | None => <[tid := new_undo]> (undo_managers m) end).

Definition get_undo_manager (tid : Uuid) (m : SessionManager) : Um * SessionManager :=
  match undo_managers m !! tid with
  | Some u => (u, m)
  | None => (new_undo, mkSM (sessions m) (heap m) (thread_map m) (<[tid := new_undo]> (undo_managers m)))
  end.

(** [locked1] and [locked2] are the users whose session lock is held when the
    two passes try it. *)
Definition is_stale (cutoff : DateTime) (locked1 : gset string) (m : SessionManager) (kv : string * Uuid) : bool :=
  negb (bool_decide (kv.1 ∈ locked1))
  && match heap m !! kv.2 with Some s => last_active_at s <? cutoff | None => false end.
Definition stale_users (cutoff : DateTime) (locked1 : gset string) (m : SessionManager) : gset string :=
  dom (filter (fun kv : string * Uuid => is_stale cutoff locked1 m kv = true) (sessions m)).
Definition threads_of (user : string) (m : SessionManager) : gset Uuid :=
  match sessions m !! user ≫= (fun r => heap m !! r) with Some s => dom (threads s) | None => ∅ end.
Definition stale_threads (users locked2 : gset string) (m : SessionManager) : gset Uuid :=
  set_fold (fun u acc => if decide (u ∈ locked2) then acc else threads_of u m ∪ acc) ∅ users.

Definition prune_stale_sessions (max_idle_secs : Z) (now : DateTime) (locked1 locked2 : gset string)
    (m : SessionManager) : nat * SessionManager :=
  let cutoff := now - from_secs (as_i64 max_idle_secs) in
  let users := stale_users cutoff locked1 m in
  if decide (users = ∅) then (0%nat, m)
  else
    let tids := stale_threads users locked2 m in
    let sessions' := filter (fun kv : string * Uuid => kv.1 ∉ users) (sessions m) in
    ((size (sessions m) - size sessions')%nat,
     mkSM sessions' (heap m)
       (filter (fun kv : (string * string * option string) * Uuid => kv.1.1.1 ∉ users) (thread_map m))
       (filter (fun kv : Uuid * Um => kv.1 ∉ tids) (undo_managers m))).

(** [maybe_hydrate_thread]: [db] is what the store lists for a conversation
    ([[]] without a store or on an error), as role and content; [chain] its
    stored response id. *)
Definition hydrated_messages (rows : list (string * string)) : list (ChatMessage Value) :=
  omap (fun row : string * string =>
    if String.eqb row.1 "user" then Some (msg_user row.2)
    else if String.eqb row.1 "assistant" then Some (msg_assistant row.2) else None) rows.
Definition set_last_response (rid : option string) (th : Thread Value) : Thread Value :=
  match rid with
  | None => th
  | Some _ => mkThread _ (thread_id th) (session_id th) (th_state th) (turns th) (th_created_at th)
                (updated_at th) (th_metadata th) (pending_approval th) (pending_auth th) rid
  end.
Definition maybe_hydrate_thread (uuid_parse : string -> option Uuid) (show : Uuid -> string)
    (db : Uuid -> list (string * string)) (chain : Uuid -> option string)
    (user channel ext : string) (fresh_s : Uuid) (now : DateTime) (m : SessionManager) : SessionManager :=
  match uuid_parse ext with
  | None => m
  | Some tid =>
      let '(r, m) := get_or_create_session user fresh_s now m in
      match heap m !! r with
      | None => m
      | Some s =>
          match threads s !! tid with
          | Some _ => m
          | None =>
              let msgs := hydrated_messages (db tid) in
              let th := thread_with_id tid (sess_id s) now null in
              let th := match msgs with [] => th | _ => restore_from_messages msgs now th end in
              let th := set_last_response (chain tid) th in
              register_thread show user channel tid r
                (write_session r (set_threads s (Some tid) (<[tid := th]> (threads s)) now) m)
          end
      end
  end.

(** ** Executions *)
Definition fresh_id (m : SessionManager) (id : Uuid) : Prop :=
  heap m !! id = None /\ forall r s, heap m !! r = Some s -> threads s !! id = None.

Inductive sm_step : SessionManager -> SessionManager -> Prop :=
| st_session m user fresh now :
    fresh_id m fresh -> sm_step m (snd (get_or_create_session user fresh now m))
| st_resolve m user channel ext fs ft now :
    fresh_id m fs -> fresh_id m ft -> fs <> ft ->
    sm_step m (snd (resolve_thread user channel ext fs ft now m))
| st_undo m tid : sm_step m (snd (get_undo_manager tid m))
| st_prune m idle now l1 l2 : sm_step m (snd (prune_stale_sessions idle now l1 l2 m))
| st_update m r s tid f :
    heap m !! r = Some s -> sm_step m (write_session r (update_thread tid f s) m)
| st_switch m r s tid now :
    heap m !! r = Some s -> sm_step m (write_session r (snd (switch_thread tid now s)) m)
| st_new_thread m r s fresh now :
    heap m !! r = Some s -> fresh_id m fresh ->
    sm_step m (write_session r (snd (create_thread fresh now null s)) m).

Record sm_ok (m : SessionManager) : Prop := {
  so_sess : forall u r, sessions m !! u = Some r -> exists s, heap m !! r = Some s /\ sess_user_id s = u;
  so_map : forall u c e tid, thread_map m !! (u, c, e) = Some tid ->
    exists r s, sessions m !! u = Some r /\ heap m !! r = Some s
      /\ is_Some (threads s !! tid) /\ is_Some (undo_managers m !! tid);
  so_inj : forall k1 k2 tid, thread_map m !! k1 = Some tid -> thread_map m !! k2 = Some tid -> k1 = k2;
  so_own : forall r1 r2 s1 s2 tid, heap m !! r1 = Some s1 -> heap m !! r2 = Some s2 ->
    is_Some (threads s1 !! tid) -> is_Some (threads s2 !! tid) -> r1 = r2;
}.

(** ** Lemmas *)
Lemma new_sm_ok : sm_ok new_sm.
Proof. split; cbn; intros *; rewrite ?lookup_empty; done. Qed.

Lemma get_session_spec user fresh now m :
  let '(r, m') := get_or_create_session user fresh now m in
  sessions m' !! user = Some r /\ thread_map m' = thread_map m /\ undo_managers m' = undo_managers m
  /\ (m' = m \/ (r = fresh /\ sessions m !! user = None
       /\ m' = mkSM (<[user := fresh]> (sessions m))
                 (<[fresh := new_session fresh now null user]> (heap m)) (thread_map m) (undo_managers m))).
Proof.
  unfold get_or_create_session. destruct (sessions m !! user) as [r|] eqn:E; [by auto|].
  split_and!; [apply lookup_insert_eq|done|done|by right].
Qed.

Lemma get_session_ok user fresh now m :
  fresh_id m fresh -> sm_ok m -> sm_ok (snd (get_or_create_session user fresh now m)).
Proof.
  intros [Hf Hft] Hm. unfold get_or_create_session. destruct (sessions m !! user) as [r|] eqn:E; [done|].
  destruct Hm as [H1 H2 H3 H4]. split; cbn.
  - intros u r. destruct (decide (user = u)) as [->|Hne].
    + rewrite lookup_insert_eq. intros [= <-]. rewrite lookup_insert_eq. by eexists.
    + rewrite lookup_insert_ne by done. intros Hu. destruct (H1 u r Hu) as (s & Hs & ?).
      exists s. rewrite lookup_insert_ne; [done|congruence].
  - intros u c e tid Ht. destruct (H2 _ _ _ _ Ht) as (r & s & Hu & Hs & ?). exists r, s.
    rewrite !lookup_insert_ne by congruence. done.
  - exact H3.
  - intros r1 r2 s1 s2 tid. rewrite !lookup_insert_Some.
    intros [[<- <-]|[_ G1]] [[<- <-]|[_ G2]] I1 I2; try done; cbn in *;
      try (rewrite lookup_empty in I1; by destruct I1); try (rewrite lookup_empty in I2; by destruct I2).
    by eapply H4.
Qed.

(** Replacing a session by one with the same user, no thread fewer and only
    fresh ids added. *)
Lemma write_session_ok r s s' m :
  heap m !! r = Some s -> sess_user_id s' = sess_user_id s ->
  (forall tid, is_Some (threads s !! tid) -> is_Some (threads s' !! tid)) ->
  (forall tid, is_Some (threads s' !! tid) -> is_Some (threads s !! tid) \/ fresh_id m tid) ->
  sm_ok m -> sm_ok (write_session r s' m).
Proof.
  intros Hr Hu Hsub Hnew [H1 H2 H3 H4]. split; cbn.
  - intros u r' Hs. destruct (H1 u r' Hs) as (s0 & Hs0 & Hu0). destruct (decide (r = r')) as [<-|Hne].
    + rewrite lookup_insert_eq. exists s'. split; [done|]. congruence.
    + rewrite lookup_insert_ne by done. by exists s0.
  - intros u c e tid Ht. destruct (H2 _ _ _ _ Ht) as (r' & s0 & Hs & Hh & Hi & Hun). exists r'.
    destruct (decide (r = r')) as [<-|Hne].
    + rewrite lookup_insert_eq. exists s'. split_and!; [done|done| |done]. apply Hsub. congruence.
    + rewrite lookup_insert_ne by done. by exists s0.
  - exact H3.
  - assert (forall r2 s2 tid, r <> r2 -> heap m !! r2 = Some s2 -> is_Some (threads s' !! tid) ->
      is_Some (threads s2 !! tid) -> False) as Hdis.
    { intros r2 s2 tid Hne G2 I1 I2. destruct (Hnew tid I1) as [I|[_ Hfr]].
      - apply Hne. by eapply H4.
      - rewrite (Hfr r2 s2 G2) in I2. by destruct I2. }
    intros r1 r2 s1 s2 tid. rewrite !lookup_insert_Some.
    intros [[<- <-]|[N1 G1]] [[<- <-]|[N2 G2]] I1 I2; try done;
      [exfalso; by eapply Hdis|exfalso; by eapply (Hdis r1 s1)|by eapply H4].
Qed.

Lemma update_thread_dom tid f (s : Sess) t : is_Some (threads (update_thread tid f s) !! t) <-> is_Some (threads s !! t).
Proof.
  unfold update_thread. cbn. rewrite lookup_alter. case_decide; [subst|done]. by rewrite fmap_is_Some.
Qed.

Lemma create_thread_dom fresh now (s : Sess) t :
  is_Some (threads (snd (create_thread fresh now null s)) !! t) <-> t = fresh \/ is_Some (threads s !! t).
Proof.
  unfold create_thread. cbn. destruct (decide (fresh = t)) as [->|Hne].
  - rewrite lookup_insert_eq. split; [by left|by eexists].
  - rewrite lookup_insert_ne by done. split; [by right|intros [->|?]; done].
Qed.

Lemma resolve_create_ok r u c e fresh now m :
  sm_ok m -> sessions m !! u = Some r -> fresh_id m fresh ->
  resolve_lookup r (u, c, e) m = None -> sm_ok (snd (resolve_create r (u, c, e) fresh now m)).
Proof.
  intros Hm Hu Hf Hl. destruct (so_sess m Hm u r Hu) as (s & Hs & Hus).
  assert (thread_map m !! (u, c, e) = None) as Hkey.
  { destruct (thread_map m !! (u, c, e)) as [tid|] eqn:Ht; [|done]. exfalso.
    destruct (so_map m Hm _ _ _ _ Ht) as (r' & s' & Hr' & Hs' & [x Hx] & _).
    assert (r' = r) as -> by congruence. unfold resolve_lookup in Hl. by rewrite Ht, Hs', Hx in Hl. }
  assert (sm_ok (write_session r (snd (create_thread fresh now null s)) m)) as [W1 W2 W3 W4].
  { apply (write_session_ok r s); [done|done| | |done].
    - intros t Ht. apply create_thread_dom. by right.
    - intros t Ht. apply create_thread_dom in Ht as [->|?]; [by right|by left]. }
  assert (forall k, thread_map m !! k <> Some fresh) as Hnf.
  { intros [[u' c'] e'] Ht. destruct (so_map m Hm _ _ _ _ Ht) as (r' & s' & _ & Hs' & [x Hx] & _).
    by rewrite (proj2 Hf r' s' Hs') in Hx. }
  unfold resolve_create. rewrite Hs. cbn in *. split; cbn; [exact W1| | |exact W4].
  - intros u' c' e' tid. rewrite lookup_insert_Some. intros [[[= <- <- <-] <-]|[_ Ht]].
    + exists r. rewrite !lookup_insert_eq. eexists. split_and!; [done|done| |by eexists].
      cbn. rewrite lookup_insert_eq. by eexists.
    + destruct (W2 _ _ _ _ Ht) as (r' & s' & ? & ? & ? & ?). exists r', s'. split_and!; try done.
      rewrite lookup_insert_is_Some. destruct (decide (fresh = tid)); auto.
  - intros k1 k2 tid. rewrite !lookup_insert_Some.
    intros [[<- <-]|[_ G1]] [[<- E]|[_ G2]]; subst; try done; [by apply Hnf in G2|by apply Hnf in G1|by eapply W3].
Qed.

Lemma fresh_after_session m user fs ft now :
  fresh_id m ft -> fs <> ft -> fresh_id (snd (get_or_create_session user fs now m)) ft.
Proof.
  intros [H1 H2] Hne. unfold get_or_create_session. destruct (sessions m !! user); [done|]. split; cbn.
  - by rewrite lookup_insert_ne.
  - intros r s. rewrite lookup_insert_Some. intros [[<- <-]|[_ ?]]; [apply lookup_empty|by eapply H2].
Qed.

Lemma resolve_thread_ok user channel ext fs ft now m :
  fresh_id m fs -> fresh_id m ft -> fs <> ft -> sm_ok m ->
  sm_ok (snd (resolve_thread user channel ext fs ft now m)).
Proof.
  intros Hfs Hft Hne Hm. unfold resolve_thread.
  pose proof (get_session_ok user fs now m Hfs Hm) as Hok.
  pose proof (get_session_spec user fs now m) as Hspec.
  pose proof (fresh_after_session m user fs ft now Hft Hne) as Hf'.
  destruct (get_or_create_session user fs now m) as [r m']. cbn in *.
  destruct (resolve_lookup r (user, channel, ext) m') eqn:Hl; [done|].
  pose proof (resolve_create_ok r user channel ext ft now m' Hok (proj1 Hspec) Hf' Hl) as H.
  by destruct (resolve_create r (user, channel, ext) ft now m').
Qed.

(** *** Pruning *)
Lemma elem_of_stale_users cutoff l m u :
  u ∈ stale_users cutoff l m <-> exists r, sessions m !! u = Some r /\ is_stale cutoff l m (u, r) = true.
Proof.
  unfold stale_users. rewrite elem_of_dom. split.
  - intros [r Hr]. apply map_lookup_filter_Some in Hr as [? ?]. by exists r.
  - intros (r & ? & ?). exists r. by apply map_lookup_filter_Some.
Qed.

Lemma elem_of_stale_threads users l2 m t :
  t ∈ stale_threads users l2 m <-> exists u, u ∈ users /\ (u ∉ l2) /\ t ∈ threads_of u m.
Proof.
  unfold stale_threads. revert t. apply (set_fold_ind_L (fun acc X =>
    forall t, t ∈ acc <-> exists u, u ∈ X /\ (u ∉ l2) /\ t ∈ threads_of u m)).
  - set_solver.
  - intros u X acc HuX IH t. case_decide.
    + rewrite IH. set_solver.
    + rewrite elem_of_union, IH. set_solver.
Qed.

Lemma prune_ok idle now l1 l2 m : sm_ok m -> sm_ok (snd (prune_stale_sessions idle now l1 l2 m)).
Proof.
  intros Hm. unfold prune_stale_sessions. case_decide; [done|]. cbn.
  set (users := stale_users _ l1 m). destruct Hm as [H1 H2 H3 H4]. split; cbn; [| | |exact H4].
  - intros u r Hu. apply map_lookup_filter_Some in Hu as [Hu _]. by apply H1.
  - intros u c e tid Ht. apply map_lookup_filter_Some in Ht as [Ht Hk]. cbn in Hk.
    destruct (H2 _ _ _ _ Ht) as (r & s & Hu & Hs & Hi & Hun). exists r, s.
    split_and!; [by apply map_lookup_filter_Some|done|done|].
    destruct Hun as [un Hun]. exists un. apply map_lookup_filter_Some. split; [done|]. cbn.
    rewrite elem_of_stale_threads. intros (u' & Hu' & _ & Htu). unfold threads_of in Htu.
    destruct (sessions m !! u') as [r'|] eqn:Hr'; [|set_solver]. cbn in Htu.
    destruct (heap m !! r') as [s'|] eqn:Hs'; [|set_solver]. apply elem_of_dom in Htu.
    assert (r = r') as <- by by eapply H4.
    destruct (H1 _ _ Hu) as (? & ? & E1). destruct (H1 _ _ Hr') as (? & ? & E2). by simplify_eq.
  - intros k1 k2 tid K1 K2. apply map_lookup_filter_Some in K1 as [K1 _]. apply map_lookup_filter_Some in K2 as [K2 _].
    by eapply H3.
Qed.

Lemma get_undo_manager_ok tid m : sm_ok m -> sm_ok (snd (get_undo_manager tid m)).
Proof.
  intros [H1 H2 H3 H4]. unfold get_undo_manager. destruct (undo_managers m !! tid); [done|].
  split; cbn; [done| |done|done]. intros u c e t Ht. destruct (H2 _ _ _ _ Ht) as (r & s & ? & ? & ? & ?).
  exists r, s. split_and!; try done. rewrite lookup_insert_is_Some. destruct (decide (tid = t)); auto.
Qed.

Lemma sm_step_ok m m' : sm_step m m' -> sm_ok m -> sm_ok m'.
Proof.
  destruct 1 as [m user fresh now Hf|m user channel ext fs ft now Hfs Hft Hne|m tid|m idle now l1 l2
    |m r s tid f Hr|m r s tid now Hr|m r s fresh now Hr Hf]; intros Hm.
  - by apply get_session_ok.
  - by apply resolve_thread_ok.
  - by apply get_undo_manager_ok.
  - by apply prune_ok.
  - apply (write_session_ok r s); [done|done| | |done]; intros t; rewrite update_thread_dom; auto.
  - apply (write_session_ok r s); [done| | | |done]; unfold switch_thread; destruct (threads s !! tid); cbn; auto.
  - apply (write_session_ok r s); [done|done| | |done]; intros t; rewrite create_thread_dom; [auto|].
    intros [->|?]; auto.
Qed.

Lemma sm_reachable_ok m : rtc sm_step new_sm m -> sm_ok m.
Proof.
  intros Hr. pattern m. eapply rtc_ind_r; [exact new_sm_ok| |exact Hr]. intros. by eapply sm_step_ok.
Qed.

(** A resolved key is found again. *)
Lemma resolve_again user channel ext fs ft now m fs' ft' now' :
  fresh_id m fs -> fresh_id m ft -> fs <> ft -> sm_ok m ->
  let '(r, tid, m') := resolve_thread user channel ext fs ft now m in
  resolve_thread user channel ext fs' ft' now' m' = (r, tid, m').
Proof.
  intros Hfs Hft Hne Hm.
  pose proof (get_session_ok user fs now m Hfs Hm) as Hok.
  pose proof (get_session_spec user fs now m) as Hspec. unfold resolve_thread.
  destruct (get_or_create_session user fs now m) as [r m1]. cbn in Hok. destruct Hspec as [Hu _].
  destruct (so_sess m1 Hok user r Hu) as (s & Hs & _).
  destruct (resolve_lookup r (user, channel, ext) m1) as [tid|] eqn:El.
  - unfold get_or_create_session. by rewrite Hu, El.
  - unfold resolve_create. rewrite Hs. cbn. unfold get_or_create_session. cbn. rewrite Hu.
    unfold resolve_lookup. cbn. by rewrite !lookup_insert_eq; cbn; rewrite lookup_insert_eq.
Qed.

(** ** Properties *)


(** Pruning goes by [last_active_at], which turns do not touch: however a
    thread of the session is changed in the meantime, a session created or
    switched longer ago than the limit is dropped (unless its lock is held),
    with all its mappings and, if the second pass gets the lock, the undo
    managers of all its threads; the sessions of other users keep theirs. *)
Theorem prune_ignores_activity m user r s (fs : list (Uuid * (Thread Value -> Thread Value))) idle now l1 l2 :
  sm_ok m -> sessions m !! user = Some r -> heap m !! r = Some s ->
  last_active_at s < now - from_secs (as_i64 idle) -> user ∉ l1 -> user ∉ l2 ->
  let s' := foldl (fun s f => update_thread (fst f) (snd f) s) s fs in
  let m' := snd (prune_stale_sessions idle now l1 l2 (write_session r s' m)) in
  sessions m' !! user = None
  /\ (forall c e, thread_map m' !! (user, c, e) = None)
  /\ (forall tid, is_Some (threads s !! tid) -> undo_managers m' !! tid = None)
  /\ heap m' !! r = Some s'.
Proof.
  intros Hm Hu Hs Hold Hl1 Hl2 s' m'.
  assert (last_active_at s' = last_active_at s /\ forall t, is_Some (threads s' !! t) <-> is_Some (threads s !! t)) as [Hla Hdom].
  { subst s' m'. clear Hold Hs. revert s. induction fs as [|f fs IH]; intros s; [done|]. cbn.
    destruct (IH (update_thread (fst f) (snd f) s)) as [-> Hd]. split; [done|].
    intros t. rewrite Hd. apply update_thread_dom. }
  set (m1 := write_session r s' m) in *.
  assert (heap m1 !! r = Some s') as Hs' by apply lookup_insert_eq.
  assert (user ∈ stale_users (now - from_secs (as_i64 idle)) l1 m1) as Hin.
  { apply elem_of_stale_users. exists r. split; [done|]. unfold is_stale. cbn [fst snd].
    rewrite bool_decide_eq_false_2 by done. rewrite Hs', Hla. simpl. by apply Z.ltb_lt. }
  subst m'. unfold prune_stale_sessions. rewrite decide_False by set_solver. cbn [snd sessions thread_map undo_managers heap].
  split_and!.
  - apply map_lookup_filter_None. right. intros x _. cbn. auto.
  - intros c e. apply map_lookup_filter_None. right. intros x _. cbn. auto.
  - intros tid Ht. apply map_lookup_filter_None. right. intros x _. cbn. intros Hn. apply Hn.
    apply elem_of_stale_threads. exists user. split_and!; [done|done|]. unfold threads_of.
    change (sessions m1) with (sessions m). rewrite Hu. cbn [mbind option_bind]. rewrite Hs'.
    apply elem_of_dom. by apply Hdom.
  - exact Hs'.
Qed.

(** Hydration does not ask whose conversation it loads: a user who names the
    identifier of any stored conversation that is not in that user's session
    gets a thread of that identifier, holding that conversation's messages,
    as the active thread; and if a thread of that identifier is open
    elsewhere, both share its undo manager. *)
Theorem hydration_ignores_owner uuid_parse show db chain user channel ext fresh now m r s tid :
  uuid_parse ext = Some tid -> sessions m !! user = Some r -> heap m !! r = Some s -> threads s !! tid = None ->
  hydrated_messages (db tid) <> [] ->
  let m' := maybe_hydrate_thread uuid_parse show db chain user channel ext fresh now m in
  exists s' th, heap m' !! r = Some s' /\ active_thread_id s' = Some tid /\ threads s' !! tid = Some th
    /\ turns th = turns (restore_from_messages (hydrated_messages (db tid)) now (thread_with_id tid (sess_id s) now null))
    /\ thread_map m' !! (user, channel, Some (show tid)) = Some tid
    /\ (forall u, undo_managers m !! tid = Some u -> undo_managers m' !! tid = Some u).
Proof.
  intros Hp Hu Hs Ht Hne m'. subst m'. unfold maybe_hydrate_thread. rewrite Hp.
  unfold get_or_create_session. rewrite Hu, Hs, Ht.
  destruct (hydrated_messages (db tid)) as [|msg msgs] eqn:Hmsgs; [done|].
  set (th := set_last_response (chain tid) _).
  eexists _, th. cbn [heap register_thread write_session]. rewrite lookup_insert_eq.
  split_and!; [done|done|apply lookup_insert_eq|by subst th; destruct (chain tid)| |].
  - cbn. apply lookup_insert_eq.
  - intros u Hun. cbn. by rewrite Hun.
Qed.
End SessionManager.
Arguments SessionManager : clear implicits.

(** ** Witnesses *)
Definition alice_resolved : SessionManager unit := snd (resolve_thread tt "alice" "web" None 1 2 0 new_sm).

Lemma alice_reachable : rtc (sm_step tt) new_sm alice_resolved.
Proof.
  apply rtc_once, st_resolve; [| |done]; split; try apply lookup_empty; intros r s H; cbn in H;
    by rewrite lookup_empty in H.
Qed.


(** Alice completes a turn at time 900; the session was created at time 0 and
    is pruned at time 1000 s with a limit of 500 s. *)
Definition alice_session : Session unit := snd (create_thread 2 0 tt (new_session 1 0 tt "alice")).
Lemma prune_ignores_activity_witness :
  sessions (snd (prune_stale_sessions 500 (from_secs 1000) ∅ ∅
    (write_session 1 (update_thread 2 (complete_turn "hi" (from_secs 900))
      (update_thread 2 (start_turn "hello" (from_secs 899)) alice_session)) alice_resolved)))
    !! "alice"%string = None.
Proof.
  refine (proj1 (prune_ignores_activity alice_resolved "alice" 1 alice_session
    [(2%N, start_turn "hello" (from_secs 899)); (2%N, complete_turn "hi" (from_secs 900))] 500 (from_secs 1000) ∅ ∅ _ _ _ _ _ _)).
  - exact (sm_reachable_ok tt _ alice_reachable).
  - vm_compute. reflexivity.
  - vm_compute. reflexivity.
  - vm_compute. reflexivity.
  - set_solver.
  - set_solver.
Defined.

(** Bob names Alice's conversation 9. *)
Definition alice_rows (id : Uuid) : list (string * string) :=
  if decide (id = 9%N) then [("user", "my secret"); ("assistant", "noted")]%string else [].
Definition bob_store : SessionManager unit := snd (get_or_create_session tt "bob" 3 0 alice_resolved).
Lemma hydration_ignores_owner_witness :
  exists s' th, heap (maybe_hydrate_thread tt (fun _ => Some 9%N) (fun _ => "9"%string) alice_rows (fun _ => None)
      "bob" "web" "9" 4 5 bob_store) !! 3%N = Some s' /\ threads s' !! 9%N = Some th
    /\ map user_input (turns th) = ["my secret"%string].
Proof.
  destruct (hydration_ignores_owner tt (fun _ => Some 9%N) (fun _ => "9"%string) alice_rows (fun _ => None)
    "bob" "web" "9" 4 5 bob_store 3 (new_session 3 0 tt "bob") 9) as (s' & th & H1 & _ & H2 & H3 & _);
    [reflexivity|vm_compute; reflexivity|vm_compute; reflexivity|vm_compute; reflexivity|vm_compute; discriminate|].
  exists s', th. split; [exact H1|]. split; [exact H2|]. rewrite H3. vm_compute. reflexivity.
Defined.
