(* ===== verification/LeakDetector.v ===== *)
(** The secret leak detector: [src/safety/leak_detector.rs].

    The regex engine and the Aho-Corasick automaton are crates: [find_iter p s]
    gives the ranges the regex [p] matches in [s], [ac_find_iter ps s] the
    matches of the automaton built (without a match kind, hence with standard
    semantics) for the words [ps]: the index of the word and its range.  What
    the crate documents about the latter is the class [StandardMatches].
    Positions are byte offsets. *)

From Stdlib Require Import Ascii.
From S2P Require Import Prelude Strs.
#[local] Open Scope claw_scope.

Inductive LeakAction := LBlock | LRedact | LWarn.
Inductive LeakSeverity := LLow | LMedium | LHigh | LCritical.
#[export] Instance LeakAction_eq_dec : EqDecision LeakAction.
Proof. solve_decision. Defined.
Definition severity_rank (s : LeakSeverity) : Z :=
  match s with LLow => 0 | LMedium => 1 | LHigh => 2 | LCritical => 3 end.

Record LeakPattern := mkPattern { lp_name : string; lp_regex : string; lp_severity : LeakSeverity; lp_action : LeakAction }.
Record LeakMatch := mkLeak {
  pattern_name : string; lm_severity : LeakSeverity; lm_action : LeakAction;
  loc_start : nat; loc_end : nat; masked_preview : string;
}.
Record LeakScanResult := mkScan { matches : list LeakMatch; should_block : bool; redacted_content : option string }.
Inductive LeakDetectionError := SecretLeakBlocked (pattern preview : string).
Definition leak_error_display (e : LeakDetectionError) : string :=
  match e with SecretLeakBlocked p v => "Secret leak blocked: pattern '" ++s p ++s "' matched '" ++s v ++s "'" end.

Definition is_clean (r : LeakScanResult) : bool := match matches r with [] => true | _ => false end.
Definition max_severity (r : LeakScanResult) : option LeakSeverity :=
  foldl (fun acc m => match acc with
                      | None => Some (lm_severity m)
                      | Some s => Some (if severity_rank s <=? severity_rank (lm_severity m) then lm_severity m else s)
                      end) None (matches r).

(** ** Prefixes *)
Definition META : string := "[(.*+?{|^$\".
Fixpoint literal_prefix (p : string) : string :=
  match p with
  | EmptyString => EmptyString
  | String c p => if contains_char META c then EmptyString else String c (literal_prefix p)
  end.
Definition extract_literal_prefix (p : string) : option string :=
  let pre := literal_prefix p in if (3 <=? String.length pre)%nat then Some pre else None.

Record LeakDetector := mkDetector { patterns : list LeakPattern; known_prefixes : list (string * nat); has_matcher : bool }.

Fixpoint prefixes_from (i : nat) (ps : list LeakPattern) : list (string * nat) :=
  match ps with
  | [] => []
  | p :: ps =>
      match extract_literal_prefix (lp_regex p) with
      | Some pre => if (3 <=? String.length pre)%nat then (pre, i) :: prefixes_from (S i) ps else prefixes_from (S i) ps
      | None => prefixes_from (S i) ps
      end
  end.
(** [build] says whether the automaton for these words could be built. *)
Definition with_patterns (build : list string -> bool) (ps : list LeakPattern) : LeakDetector :=
  let pre := prefixes_from 0 ps in
  mkDetector ps pre (match pre with [] => false | _ => build (map fst pre) end).
Definition add_pattern (p : LeakPattern) (d : LeakDetector) : LeakDetector :=
  mkDetector (patterns d ++ [p]) (known_prefixes d) (has_matcher d).
Definition pattern_count (d : LeakDetector) : nat := length (patterns d).

(** ** Strings by byte offsets *)
Definition slice (a b : nat) (s : string) : string := String.substring a (b - a) s.
Fixpoint stars (n : nat) : string := match n with O => EmptyString | S n => String "*"%char (stars n) end.
Definition mask_secret (s : string) : string :=
  let len := String.length s in
  if (len <=? 8)%nat then stars len
  else slice 0 4 s ++s stars (Nat.min (len - 8) 8) ++s slice (len - 4) len s.

(** [apply_redactions]: [last_end] is where the copying stands. *)
Definition REDACTED : string := "[REDACTED]".
Fixpoint redact_loop (content : string) (last_end : nat) (ranges : list (nat * nat)) : string :=
  match ranges with
  | [] => if (last_end <? String.length content)%nat then slice last_end (String.length content) content else EmptyString
  | (a, b) :: rs =>
      (if (last_end <? a)%nat then slice last_end a content else EmptyString)
      ++s REDACTED ++s redact_loop content b rs
  end.
Definition apply_redactions (content : string) (ranges : list (nat * nat)) : string :=
  match ranges with [] => content | _ => redact_loop content 0 ranges end.

(** ** Scanning *)
Section Scan.
  Context (find_iter : string -> string -> list (nat * nat)).
  Context (ac_find_iter : list string -> string -> list (nat * (nat * nat))).

(** [if !indices.contains(&i) { indices.push(i) }]. *)
Definition push_new (l : list nat) (i : nat) : list nat := if decide (i ∈ l) then l else l ++ [i].
Definition candidate_indices (d : LeakDetector) (content : string) : list nat :=
  if has_matcher d then
    let hit := omap (fun m : nat * (nat * nat) => snd <$> known_prefixes d !! m.1)
                 (ac_find_iter (map fst (known_prefixes d)) content) in
    let l := foldl push_new [] hit in
    foldl push_new l
      (List.filter (fun i => negb (existsb (fun pi : string * nat => Nat.eqb pi.2 i) (known_prefixes d)))
         (seq 0 (length (patterns d))))
  else seq 0 (length (patterns d)).

Definition leak_match (content : string) (p : LeakPattern) (r : nat * nat) : LeakMatch :=
  mkLeak (lp_name p) (lp_severity p) (lp_action p) r.1 r.2 (mask_secret (slice r.1 r.2 content)).

(** The stable sorts by start position. *)
Fixpoint insert_by {A} (key : A -> nat) (x : A) (l : list A) : list A :=
  match l with [] => [x] | y :: l' => if (key x <? key y)%nat then x :: l else y :: insert_by key x l' end.
Definition sort_by_start {A} (key : A -> nat) (l : list A) : list A := foldl (fun acc x => insert_by key x acc) [] l.

(** Candidate patterns with the ranges their regex matches. *)
Definition found (d : LeakDetector) (content : string) : list (LeakPattern * (nat * nat)) :=
  omap (fun i => patterns d !! i) (candidate_indices d content)
    ≫= fun p => map (fun r => (p, r)) (find_iter (lp_regex p) content).

Definition scan (d : LeakDetector) (content : string) : LeakScanResult :=
  let fs := found d content in
  let redact := map snd (List.filter (fun f => bool_decide (lp_action f.1 = LRedact)) fs) in
  let redact := sort_by_start fst redact in
  mkScan (sort_by_start loc_start (map (fun f => leak_match content f.1 f.2) fs))
    (existsb (fun f => bool_decide (lp_action f.1 = LBlock)) fs)
    (match redact with [] => None | _ => Some (apply_redactions content redact) end).

Definition scan_and_clean (d : LeakDetector) (content : string) : Result string LeakDetectionError :=
  let r := scan d content in
  if should_block r then
    let m := List.find (fun m => bool_decide (lm_action m = LBlock)) (matches r) in
    Err (SecretLeakBlocked (from_option pattern_name EmptyString m) (from_option masked_preview EmptyString m))
  else Ok (default content (redacted_content r)).

(** [lossy] is [String::from_utf8_lossy] of the body. *)
Fixpoint scan_headers (d : LeakDetector) (hs : list (string * string)) : Result unit LeakDetectionError :=
  match hs with
  | [] => Ok tt
  | (n, v) :: hs =>
      match scan_and_clean d v with
      | Ok _ => scan_headers d hs
      | Err e => Err (SecretLeakBlocked ("header:" ++s n) (leak_error_display e))
      end
  end.
Definition scan_http_request (d : LeakDetector) (url : string) (headers : list (string * string))
    (body : option string) : Result unit LeakDetectionError :=
  let? _ := scan_and_clean d url in
  let? _ := scan_headers d headers in
  match body with
  | Some lossy => let? _ := scan_and_clean d lossy in Ok tt
  | None => Ok tt
  end.
End Scan.

Definition default_patterns : list LeakPattern :=
  [ mkPattern "openai_api_key" "sk-(?:proj-)?[a-zA-Z0-9]{20,}(?:T3BlbkFJ[a-zA-Z0-9_-]*)?" LCritical LBlock;
    mkPattern "anthropic_api_key" "sk-ant-api[a-zA-Z0-9_-]{90,}" LCritical LBlock;
    mkPattern "aws_access_key" "AKIA[0-9A-Z]{16}" LCritical LBlock;
    mkPattern "github_token" "gh[pousr]_[A-Za-z0-9_]{36,}" LCritical LBlock;
    mkPattern "github_fine_grained_pat" "github_pat_[a-zA-Z0-9]{22}_[a-zA-Z0-9]{59}" LCritical LBlock;
    mkPattern "stripe_api_key" "sk_(?:live|test)_[a-zA-Z0-9]{24,}" LCritical LBlock;
    mkPattern "session_token" "sess_[a-zA-Z0-9]{32,}" LCritical LBlock;
    mkPattern "pem_private_key" "-----BEGIN\s+(?:RSA\s+)?PRIVATE\s+KEY-----" LCritical LBlock;
    mkPattern "ssh_private_key" "-----BEGIN\s+(?:OPENSSH|EC|DSA)\s+PRIVATE\s+KEY-----" LCritical LBlock;
    mkPattern "google_api_key" "AIza[0-9A-Za-z_-]{35}" LHigh LBlock;
    mkPattern "slack_token" "xox[baprs]-[0-9a-zA-Z-]{10,}" LHigh LBlock;
    mkPattern "twilio_api_key" "SK[a-fA-F0-9]{32}" LHigh LBlock;
    mkPattern "sendgrid_api_key" "SG\.[a-zA-Z0-9_-]{22}\.[a-zA-Z0-9_-]{43}" LHigh LBlock;
    mkPattern "bearer_token" "Bearer\s+[a-zA-Z0-9_-]{20,}" LHigh LRedact;
    mkPattern "auth_header" "(?i)authorization:\s*[a-zA-Z]+\s+[a-zA-Z0-9_-]{20,}" LHigh LRedact;
    mkPattern "high_entropy_hex" "\b[a-fA-F0-9]{64}\b" LMedium LWarn ].
Definition new_detector (build : list string -> bool) : LeakDetector := with_patterns build default_patterns.

(** ** The automaton *)

(** Word [i] stands in [s] at [a], up to [b]. *)
Definition occurs (ps : list string) (s : string) (i a b : nat) : Prop :=
  exists w, ps !! i = Some w /\ w <> EmptyString /\ b = (a + String.length w)%nat /\ slice a b s = w.
Definition end_of (l : list (nat * (nat * nat))) : nat := match last l with Some m => m.2.2 | None => 0 end.

(** [MatchKind::Standard] without overlaps: matches are reported as they are
    seen, each search starting where the last match ended. *)
Class StandardMatches (ac : list string -> string -> list (nat * (nat * nat))) : Prop := {
  ac_sound : forall ps s i a b, (i, (a, b)) ∈ ac ps s -> occurs ps s i a b;
  ac_earliest : forall ps s l i a b r, ac ps s = l ++ (i, (a, b)) :: r ->
    (end_of l <= a)%nat
    /\ forall i' a' b', occurs ps s i' a' b' -> (end_of l <= a')%nat -> (b <= b')%nat;
  ac_complete : forall ps s i a b, occurs ps s i a b -> (a < end_of (ac ps s))%nat;
}.

(** A reference automaton: the occurrences after [pos] by their end. *)
Definition ends_at (ps : list string) (s : string) (pos e : nat) : list (nat * (nat * nat)) :=
  omap (fun iw : nat * string =>
    let n := String.length iw.2 in
    if negb (is_empty iw.2) && (pos + n <=? e)%nat && String.eqb (slice (e - n) e s) iw.2
    then Some (iw.1, (e - n, e)%nat) else None) (imap (fun i w => (i, w)) ps).
Definition after_pos (ps : list string) (s : string) (pos : nat) : list (nat * (nat * nat)) :=
  seq pos (S (String.length s)) ≫= ends_at ps s pos.
Fixpoint ac_from (fuel : nat) (ps : list string) (s : string) (pos : nat) : list (nat * (nat * nat)) :=
  match fuel with
  | O => []
  | S n => match after_pos ps s pos with [] => [] | m :: _ => m :: ac_from n ps s m.2.2 end
  end.
Definition ac_ref (ps : list string) (s : string) : list (nat * (nat * nat)) := ac_from (S (String.length s)) ps s 0.

(** ** Lemmas *)
Lemma occurs_bound ps s i a b : occurs ps s i a b -> (a < b <= String.length s)%nat.
Proof.
  intros (w & _ & Hw & -> & Hs). unfold slice in Hs.
  pose proof (substring_length a (a + String.length w - a) s) as H. rewrite Hs in H.
  destruct w as [|c w]; [done|]. simpl in *. lia.
Qed.

Lemma ends_at_spec ps s pos e i a b :
  (i, (a, b)) ∈ ends_at ps s pos e <-> b = e /\ (pos <= a)%nat /\ occurs ps s i a b.
Proof.
  unfold ends_at. rewrite list_elem_of_omap. split.
  - intros ([j w] & Hj & H). apply elem_of_lookup_imap in Hj as (j' & w' & [= <- <-] & Hl). cbn [fst snd] in H.
    destruct (negb (is_empty w)) eqn:E1; [|done]. destruct (Nat.leb_spec (pos + String.length w) e); [|done].
    destruct (String.eqb_spec (slice (e - String.length w) e s) w) as [E2|]; [|done].
    cbn in H. injection H as <- <- <-. split; [done|]. split; [lia|]. exists w. split; [done|].
    split; [by intros ->|]. split; [lia|done].
  - intros (<- & Ha & w & Hl & Hne & Hb & Hs). exists (i, w). split.
    { apply elem_of_lookup_imap. eauto. }
    cbn [fst snd]. replace (b - String.length w)%nat with a by lia. rewrite Hs, String.eqb_refl.
    destruct (Nat.leb_spec (pos + String.length w) b); [|lia]. by destruct w.
Qed.

Lemma after_pos_spec ps s pos i a b : (i, (a, b)) ∈ after_pos ps s pos <-> (pos <= a)%nat /\ occurs ps s i a b.
Proof.
  unfold after_pos. rewrite list_elem_of_bind. setoid_rewrite ends_at_spec. split.
  - intros (e & (-> & ?) & _). done.
  - intros [Ha Ho]. exists b. split; [done|]. apply occurs_bound in Ho. apply elem_of_seq. lia.
Qed.

(** The first of them ends first. *)
Lemma after_pos_first ps s pos m l :
  after_pos ps s pos = m :: l -> forall i a b, occurs ps s i a b -> (pos <= a)%nat -> (m.2.2 <= b)%nat.
Proof.
  unfold after_pos. intros Hm i a b Ho Ha.
  assert ((i, (a, b)) ∈ ends_at ps s pos b) as Hin by by apply ends_at_spec.
  assert (b ∈ seq pos (S (String.length s))) as Hb by (apply occurs_bound in Ho; apply elem_of_seq; lia).
  revert pos Hm Ha Hin Hb. generalize (S (String.length s)) as n. intros n pos Hm Ha Hin Hb.
  enough (forall start, seq start n ≫= ends_at ps s pos = m :: l -> b ∈ seq start n -> (m.2.2 <= b)%nat) by eauto.
  clear Hm Hb. induction n as [|n IH]; intros start Hm Hb; [done|]. cbn [seq] in *. rewrite bind_cons in Hm.
  destruct (ends_at ps s pos start) as [|m' l'] eqn:E.
  - apply elem_of_cons in Hb as [->|Hb]; [by rewrite E in Hin; apply elem_of_nil in Hin|]. by eapply IH.
  - injection Hm as -> _. destruct m as [i' [a' b']].
    assert ((i', (a', b')) ∈ ends_at ps s pos start) as [-> _]%ends_at_spec by (rewrite E; left).
    apply elem_of_cons in Hb as [->|Hb%elem_of_seq]; simpl; lia.
Qed.

Definition end_from (pos : nat) (l : list (nat * (nat * nat))) : nat := match last l with Some m => m.2.2 | None => pos end.
Lemma end_from_cons pos m l : end_from pos (m :: l) = end_from m.2.2 l.
Proof. unfold end_from. destruct l as [|x l]; [done|]. rewrite last_cons_cons. by destruct (last (x :: l)) eqn:E; [|apply last_None in E]. Qed.

Lemma ac_from_step fuel ps s pos :
  ac_from (S fuel) ps s pos = [] /\ after_pos ps s pos = []
  \/ exists i a b, ac_from (S fuel) ps s pos = (i, (a, b)) :: ac_from fuel ps s b
       /\ (pos <= a)%nat /\ occurs ps s i a b
       /\ forall i' a' b', occurs ps s i' a' b' -> (pos <= a')%nat -> (b <= b')%nat.
Proof.
  cbn [ac_from]. destruct (after_pos ps s pos) as [|[i [a b]] l] eqn:E; [by left|]. right. exists i, a, b.
  assert ((i, (a, b)) ∈ after_pos ps s pos) as [Ha Ho]%after_pos_spec by (rewrite E; left).
  split; [done|]. split; [done|]. split; [done|]. exact (after_pos_first ps s pos _ _ E).
Qed.

Lemma ac_from_sound fuel ps s pos i a b : (i, (a, b)) ∈ ac_from fuel ps s pos -> occurs ps s i a b.
Proof.
  revert pos. induction fuel as [|n IH]; intros pos H; [by apply elem_of_nil in H|].
  destruct (ac_from_step n ps s pos) as [[E _]|(i' & a' & b' & E & _ & Ho & _)]; rewrite E in H.
  - by apply elem_of_nil in H.
  - apply elem_of_cons in H as [[= -> -> ->]|H]; [done|]. by eapply IH.
Qed.

Lemma ac_from_earliest fuel ps s pos l i a b r :
  ac_from fuel ps s pos = l ++ (i, (a, b)) :: r ->
  (end_from pos l <= a)%nat
  /\ forall i' a' b', occurs ps s i' a' b' -> (end_from pos l <= a')%nat -> (b <= b')%nat.
Proof.
  revert pos l. induction fuel as [|n IH]; intros pos l H; [by destruct l|].
  destruct (ac_from_step n ps s pos) as [[E _]|(i' & a' & b' & E & Ha & _ & Hf)]; rewrite E in H; [by destruct l|].
  destruct l as [|m l]; [injection H as -> -> -> _; done|]. injection H as <- H. rewrite end_from_cons. by apply IH.
Qed.

Lemma ac_from_end fuel ps s pos : (pos <= end_from pos (ac_from fuel ps s pos))%nat.
Proof.
  revert pos. induction fuel as [|n IH]; intros pos; [done|].
  destruct (ac_from_step n ps s pos) as [[E _]|(i & a & b & E & Ha & Ho & _)]; rewrite E; [done|].
  rewrite end_from_cons. cbn [snd]. specialize (IH b). apply occurs_bound in Ho. lia.
Qed.

Lemma ac_from_complete fuel ps s pos i a b :
  (String.length s - pos < fuel)%nat -> occurs ps s i a b -> (pos <= a)%nat ->
  (a < end_from pos (ac_from fuel ps s pos))%nat.
Proof.
  revert pos. induction fuel as [|n IH]; intros pos Hn Ho Ha; [lia|].
  destruct (ac_from_step n ps s pos) as [[E E']|(i' & a' & b' & E & Ha' & Ho' & Hf)]; rewrite E.
  - assert ((i, (a, b)) ∈ after_pos ps s pos) as H by (apply after_pos_spec; split; assumption).
    rewrite E' in H. by apply elem_of_nil in H.
  - rewrite end_from_cons. cbn [snd]. pose proof (occurs_bound _ _ _ _ _ Ho').
    destruct (decide (b' <= a)%nat); [apply IH; [lia|done|done]|].
    enough (b' <= end_from b' (ac_from n ps s b'))%nat by lia.
    apply ac_from_end.
Qed.

#[export] Instance ac_ref_standard : StandardMatches ac_ref.
Proof.
  split.
  - intros ps s i a b. apply ac_from_sound.
  - intros ps s l i a b r H. exact (ac_from_earliest _ _ _ _ _ _ _ _ _ H).
  - intros ps s i a b Ho. apply (ac_from_complete _ _ _ 0 i a b); [lia|done|lia].
Qed.

(** Slices. *)
Lemma substring_app n m k s : String.substring n (m + k) s = String.substring n m s ++s String.substring (n + m) k s.
Proof.
  revert n m. induction s as [|c s IH]; intros n m.
  - destruct n, m, k; try done; simpl; by destruct (_ + _)%nat.
  - destruct n as [|n]; [|exact (IH n m)]. destruct m as [|m]; [done|].
    change (String c (String.substring 0 (m + k) s) = String c (String.substring 0 m s) ++s String.substring m k s).
    rewrite append_cons_str. f_equal. apply (IH 0%nat m).
Qed.
Lemma slice_cut a b c s : (a <= b <= c)%nat -> slice a c s = slice a b s ++s slice b c s.
Proof.
  intros H. unfold slice. replace (c - a)%nat with ((b - a) + (c - b))%nat by lia.
  rewrite substring_app. by replace (a + (b - a))%nat with b by lia.
Qed.
Lemma slice_all s : slice 0 (String.length s) s = s.
Proof. unfold slice. rewrite Nat.sub_0_r. induction s as [|c s IH]; [done|]. simpl. by rewrite IH. Qed.
Lemma slice_nil a s : slice a a s = EmptyString.
Proof. unfold slice. rewrite Nat.sub_diag. revert a. induction s as [|c s IH]; intros [|a]; simpl; done. Qed.

(** Cutting the ranges out of the content. *)
Fixpoint interleave (gaps cuts : list string) : string :=
  match gaps, cuts with
  | g :: gaps, c :: cuts => g ++s c ++s interleave gaps cuts
  | g :: _, [] => g
  | [], _ => EmptyString
  end.
Fixpoint apart (pos len : nat) (ranges : list (nat * nat)) : Prop :=
  match ranges with
  | [] => (pos <= len)%nat
  | (a, b) :: rs => (pos <= a <= b)%nat /\ apart b len rs
  end.
Lemma apart_le pos len rs : apart pos len rs -> (pos <= len)%nat.
Proof. revert pos. induction rs as [|[a b] rs IH]; intros pos; [done|]. intros [H1 H2%IH]. lia. Qed.

Lemma redact_loop_spec content pos rs :
  apart pos (String.length content) rs ->
  exists gaps, length gaps = S (length rs)
    /\ slice pos (String.length content) content = interleave gaps (map (fun r => slice r.1 r.2 content) rs)
    /\ redact_loop content pos rs = interleave gaps (map (fun _ => REDACTED) rs).
Proof.
  revert pos. induction rs as [|[a b] rs IH]; intros pos H.
  - exists [slice pos (String.length content) content]. split; [done|]. split; [done|].
    cbn [redact_loop interleave map]. cbn in H. destruct (Nat.ltb_spec pos (String.length content)); [done|].
    by replace pos with (String.length content) by lia; rewrite slice_nil.
  - destruct H as [Ha Hr]. destruct (IH b Hr) as (gaps & Hl & Hs & He). pose proof (apart_le _ _ _ Hr).
    exists (slice pos a content :: gaps). split; [simpl; lia|]. cbn [map interleave fst snd redact_loop].
    rewrite <- Hs, <- He. split.
    + rewrite (slice_cut pos a), (slice_cut a b) by lia. done.
    + destruct (Nat.ltb_spec pos a); [done|]. by replace a with pos by lia; rewrite slice_nil.
Qed.

Lemma push_new_elem l i j : j ∈ push_new l i <-> j ∈ l \/ j = i.
Proof. unfold push_new. destruct (decide (i ∈ l)); [naive_solver|]. rewrite elem_of_app, list_elem_of_singleton. done. Qed.
Lemma foldl_push_new l l' j : j ∈ foldl push_new l l' <-> j ∈ l \/ j ∈ l'.
Proof.
  revert l. induction l' as [|i l' IH]; intros l; simpl; [rewrite elem_of_nil; tauto|].
  rewrite IH, push_new_elem, elem_of_cons. tauto.
Qed.

Lemma default_prefixes :
  known_prefixes (new_detector (fun _ => true)) =
  [("sk-", 0); ("sk-ant-api", 1); ("AKIA", 2); ("github_pat_", 4); ("sk_", 5); ("sess_", 6);
   ("-----BEGIN", 7); ("-----BEGIN", 8); ("AIza", 9); ("xox", 10); ("Bearer", 13)]%string%nat.
Proof. vm_compute. reflexivity. Qed.

(** A word that starts with another is never reported. *)
Lemma slice_prefix x u v s :
  slice x (x + String.length (u ++s v)) s = u ++s v -> slice x (x + String.length u) s = u.
Proof.
  rewrite append_length_str. intros H. rewrite (slice_cut x (x + String.length u)) in H by lia.
  pose proof (f_equal String.length H) as Hl. rewrite !append_length_str in Hl.
  assert (forall a b t, String.length (slice a b t) <= b - a)%nat as Hle by (intros; apply substring_length_le).
  pose proof (Hle x (x + String.length u)%nat s) as H1.
  pose proof (Hle (x + String.length u) (x + (String.length u + String.length v)) s)%nat as H2.
  assert (String.length (slice x (x + String.length u) s) = String.length u) as Hu by lia.
  revert Hu H. generalize (slice x (x + String.length u) s) as a. generalize (slice (x + String.length u) (x + (String.length u + String.length v)) s) as b.
  clear. intros b a. revert u. induction a as [|c a IH]; intros [|c' u] Hu H; simpl in Hu; try done.
  rewrite !append_cons_str in H. injection H as -> H. f_equal. eapply IH; [lia|exact H].
Qed.
Lemma prefix_shadows `{!StandardMatches ac} ps s i j x y u v :
  ps !! j = Some u -> ps !! i = Some (u ++s v) -> u <> EmptyString -> v <> EmptyString -> (i, (x, y)) ∉ ac ps s.
Proof.
  intros Hj Hi Hu Hv Hin. destruct (ac_sound ps s i x y Hin) as (w & Hw & _ & Hy & Hs).
  rewrite Hi in Hw. injection Hw as <-. apply list_elem_of_split in Hin as (l & r & Hl).
  destruct (ac_earliest ps s l i x y r Hl) as [Hx Hmin].
  assert (occurs ps s j x (x + String.length u)) as Ho.
  { exists u. split; [done|]. split; [done|]. split; [done|]. eapply slice_prefix. by rewrite <- Hy. }
  specialize (Hmin _ _ _ Ho Hx). rewrite append_length_str in Hy. destruct v; [done|]. simpl in Hy. lia.
Qed.

Lemma bind_all_nil {A B} (f : A -> list B) l : (forall x, x ∈ l -> f x = []) -> l ≫= f = [].
Proof.
  induction l as [|x l IH]; intros H; [done|]. rewrite bind_cons, H by left. apply IH. intros y Hy. apply H. by right.
Qed.

Lemma clean_passes find_iter ac d content :
  found find_iter ac d content = [] -> scan_and_clean find_iter ac d content = Ok content.
Proof. intros H. unfold scan_and_clean, scan. by rewrite H. Qed.

(** ** Properties *)
Section Claims.
  Context (find_iter : string -> string -> list (nat * nat)).
  Context (ac : list string -> string -> list (nat * (nat * nat))).

(** Scanning decides on what the candidate patterns match: the content is
    refused exactly when a candidate that blocks matches somewhere; otherwise
    content without a match to redact passes unchanged, and when the matches
    to redact do not overlap each of them is cut out, whole, and replaced by
    the marker, while everything between them stays. *)
Theorem scan_and_clean_spec (d : LeakDetector) (content : string) :
  let fs := found find_iter ac d content in
  let cuts := sort_by_start fst (map snd (List.filter (fun f => bool_decide (lp_action f.1 = LRedact)) fs)) in
  (is_ok (scan_and_clean find_iter ac d content) = false <-> exists f, f ∈ fs /\ lp_action f.1 = LBlock)
  /\ (forall out, scan_and_clean find_iter ac d content = Ok out -> cuts = [] -> out = content)
  /\ (forall out, scan_and_clean find_iter ac d content = Ok out -> cuts <> [] ->
        apart 0 (String.length content) cuts ->
        exists gaps, length gaps = S (length cuts)
          /\ content = interleave gaps (map (fun r => slice r.1 r.2 content) cuts)
          /\ out = interleave gaps (map (fun _ => REDACTED) cuts)).
Proof.
  cbv zeta. unfold scan_and_clean, scan. cbn [should_block redacted_content].
  set (fs := found _ _ _ _). set (cuts := sort_by_start fst _). split.
  - assert (existsb (fun f : LeakPattern * (nat * nat) => bool_decide (lp_action f.1 = LBlock)) fs = true
      <-> exists f, f ∈ fs /\ lp_action f.1 = LBlock) as <-.
    { rewrite existsb_exists. setoid_rewrite bool_decide_eq_true. setoid_rewrite list_elem_of_In. done. }
    by destruct (existsb _ _).
  - destruct (existsb _ _); [done|]. split; intros out H Hc; apply Ok_inj in H as <-.
    + by rewrite Hc.
    + intros Ha. destruct (redact_loop_spec content 0 cuts Ha) as (gaps & Hl & Hs & He).
      rewrite slice_all in Hs. exists gaps. split; [done|]. split; [done|].
      unfold apply_redactions. by destruct cuts.
Qed.

(** Nested matches leak: when a match to redact lies inside another, the
    copying resumes at the end of the inner one, and the rest of the outer
    secret is in the output. *)
Theorem nested_redaction_leaks (content : string) (a b c d : nat) :
  (a <= b <= c)%nat -> (c < d <= String.length content)%nat ->
  exists pre, apply_redactions content [(a, d); (b, c)]
    = pre ++s slice c d content ++s slice d (String.length content) content.
Proof.
  intros H1 H2. unfold apply_redactions. cbn [redact_loop].
  destruct (Nat.ltb_spec c (String.length content)); [|lia].
  destruct (Nat.ltb_spec d b); [lia|]. rewrite (slice_cut c d) by lia.
  set (g := if (0 <? a)%nat then _ else _). exists (g ++s REDACTED ++s EmptyString ++s REDACTED).
  by rewrite !append_assoc_str.
Qed.

(** The default detector never looks for Anthropic keys.  Its pre-filter asks
    one automaton for all literal prefixes; at [sk-ant-api] that automaton
    reports the prefix [sk-] of the OpenAI pattern, which ends earlier, and
    goes on behind it.  So the Anthropic pattern is never a candidate, and
    text in which only its regex matches passes unchanged. *)
Theorem anthropic_keys_pass `{!StandardMatches ac} (content : string) :
  (forall p, p ∈ default_patterns -> lp_name p <> "anthropic_api_key"%string -> find_iter (lp_regex p) content = []) ->
  (1%nat ∉ candidate_indices ac (new_detector (fun _ => true)) content)
  /\ scan_and_clean find_iter ac (new_detector (fun _ => true)) content = Ok content.
Proof.
  intros Hre. assert (1%nat ∉ candidate_indices ac (new_detector (fun _ => true)) content) as Hc.
  { unfold candidate_indices. rewrite default_prefixes. cbn [has_matcher new_detector with_patterns].
    destruct (prefixes_from 0 default_patterns) eqn:E; [done|]. clear E.
    rewrite !foldl_push_new, elem_of_nil. intros [[[]|H]|H].
    - apply list_elem_of_omap in H as ([i [x y]] & Hin & H). cbn [fst] in H.
      assert (i = 1%nat) as -> by (do 11 (destruct i as [|i]; [by simplify_eq/=|]); done).
      by apply (prefix_shadows _ content 1 0 x y "sk-" "ant-api") in Hin.
    - apply list_elem_of_In, filter_In in H as [_ H]. done. }
  split; [done|]. apply clean_passes. unfold found. apply bind_all_nil. intros p Hp.
  apply list_elem_of_omap in Hp as (i & Hi & Hp). cbn [patterns new_detector with_patterns] in Hp.
  rewrite Hre; [done|by eapply list_elem_of_lookup_2|]. intros Hn. apply Hc.
  enough (i = 1%nat) as -> by done. do 16 (destruct i as [|i]; [by simplify_eq/=|]). done.
Qed.
End Claims.

(** ** Witnesses *)
Lemma nested_redaction_leaks_witness :
  exists pre, apply_redactions "secret=abcdef;" [(0, 13); (2, 6)]%nat = pre ++s "=abcdef" ++s ";".
Proof. refine (nested_redaction_leaks "secret=abcdef;" 0 2 6 13 _ _); simpl; lia. Defined.

Definition sample_key : string := "key sk-ant-REDACTED".
Definition anthropic_only (re content : string) : list (nat * nat) :=
  if String.eqb re "sk-ant-api[a-zA-Z0-9_-]{90,}" then [(4, String.length content)]%nat else [].
Lemma anthropic_keys_pass_witness :
  scan_and_clean anthropic_only ac_ref (new_detector (fun _ => true)) sample_key = Ok sample_key
  /\ ac_ref ["sk-"; "sk-ant-api"]%string sample_key = [(0, (4, 7))]%nat.
Proof.
  split; [|vm_compute; reflexivity]. apply (anthropic_keys_pass anthropic_only ac_ref sample_key).
  intros p Hp Hn. repeat (apply elem_of_cons in Hp as [->|Hp]; [first [reflexivity|by destruct Hn]|]).
  by apply elem_of_nil in Hp.
Defined.

(** With patterns that do not overlap a secret is refused or cut out. *)
Example scan_demo :
  let d := with_patterns (fun _ => true)
    [mkPattern "aws" "AKIA[0-9A-Z]{16}" LCritical LBlock; mkPattern "bearer" "Bearer\s+" LHigh LRedact] in
  let find re s := match String.index 0 (literal_prefix re) s with
                   | Some a => [(a, a + 8)%nat] | None => [] end in
  scan_and_clean find ac_ref d "id AKIA1234" = Err (SecretLeakBlocked "aws" "********")
  /\ scan_and_clean find ac_ref d "h: Bearer x, next" = Ok "h: [REDACTED], next"%string
  /\ scan_and_clean find ac_ref d "plain" = Ok "plain"%string
  /\ mask_secret "sk-test1234567890abcdef" = "sk-t********cdef"%string.
Proof. vm_compute. repeat split. Qed.
