(* ===== verification/Dispatcher.v ===== *)
(** The agentic loop: [src/agent/dispatcher.rs], with the errors of
    [src/error.rs] it returns.

    What the loop shares with the rest of the agent is [Shared]: the world
    [W] (clock, tool registry, everything else), the session and the cost
    guard.  A call that suspends (the model, a tool) takes and returns all of
    it, so that an interrupt, an approval or another conversation can change
    it meanwhile.  The reasoning engine is the parameter [respond]: the chunks
    it streamed and its output.  Tasks spawned for early execution run when
    the stream has ended; [early_done] says which of them have finished when
    their result is asked for.  [d_log] records the calls made; the status
    updates sent to the channel are left out. *)

From Stdlib Require Import Ascii.
From S2P Require Import Prelude Strs Llm Json Session CostGuard Hooks Skills LeakDetector Safety.
#[local] Open Scope claw_scope.

(** ** Errors of [src/error.rs] *)
Inductive ToolError :=
| ToolNotFound (name : string)
| ToolExecutionFailed (name reason : string)
| ToolTimeout (name : string) (timeout : Duration)
| ToolInvalidParameters (name reason : string).
Inductive Error :=
| ELlm (e : LlmError)
| ETool (e : ToolError)
| EContext (id : Uuid) (reason : string)
| ENotFound (id : Uuid).

(** ** Previews *)
Definition TOOL_RESULT_CHUNK_CHARS : nat := 700.
Definition TOOL_RESULT_MAX_CHUNKS : nat := 12.
Definition TOOL_DRAFT_PREVIEW_CHARS : nat := 240.
Definition TOOL_STREAM_EVENT_PREFIX : string := String (chr 30) "IRON_TOOL_EVENT:".
(** The character U+2026. *)
Definition ELLIPSIS : string := String (chr 226) (String (chr 128) (String (chr 166) EmptyString)).

Definition truncate_preview_chars (s : string) (max_chars : nat) : string :=
  if (String.length s <=? max_chars)%nat then s else str_take max_chars s ++s ELLIPSIS.

(** The chunking loop: [cur] is the chunk being filled, newest character last. *)
Fixpoint chunk_loop (size max : nat) (cur : string) (chunks : list string) (l : list ascii) : string * list string :=
  match l with
  | [] => (cur, chunks)
  | c :: l =>
      let cur := cur ++s String c EmptyString in
      if (size <=? String.length cur)%nat then
        let chunks := chunks ++ [cur] in
        if (max <=? length chunks)%nat then (EmptyString, chunks) else chunk_loop size max EmptyString chunks l
      else chunk_loop size max cur chunks l
  end.
Definition chunk_tool_result_preview (output : string) : list string :=
  if is_empty output then []
  else
    let max_chars := (TOOL_RESULT_CHUNK_CHARS * TOOL_RESULT_MAX_CHUNKS)%nat in
    let truncated := (max_chars <? String.length output)%nat in
    let '(cur, chunks) := chunk_loop TOOL_RESULT_CHUNK_CHARS TOOL_RESULT_MAX_CHUNKS EmptyString []
                            (take max_chars (chars output)) in
    let chunks := if negb (is_empty cur) && (length chunks <? TOOL_RESULT_MAX_CHUNKS)%nat then chunks ++ [cur] else chunks in
    if (length chunks <=? 1)%nat && negb truncated then chunks
    else
      let total := length chunks in
      imap (fun idx chunk =>
        "[" ++s pretty (S idx) ++s "/" ++s pretty total ++s "] " ++s chunk
          ++s if truncated && (S idx =? total)%nat then ELLIPSIS else EmptyString) chunks.

Definition shell_preview_from_args (args : Json) : option string :=
  match get_str "command" args with
  | None => None
  | Some c => let c := trim c in
              if is_empty c then None else Some (truncate_preview_chars c TOOL_DRAFT_PREVIEW_CHARS)
  end.
Definition has_command (args : Json) : bool :=
  match get_str "command" args with Some s => negb (is_empty (trim s)) | None => false end.

(** ** The streamed tool calls *)
Record StreamedToolCallState := mkStreamed {
  provider_call_id : option string; st_name : option string; args_buffer : string;
  last_preview : option string; early_started : bool;
}.
Definition new_streamed : StreamedToolCallState := mkStreamed None None EmptyString None false.
Inductive ToolStreamEvent :=
| SToolCall (id internal_call_id name : string) (arguments : Json)
| SToolCallDelta (id internal_call_id delta_type content : string).
Abbreviation Streams := (gmap string StreamedToolCallState).

Section Streams.
  Context (from_str : string -> option Json) (to_string : Json -> string) (piped : bool).

(** The preview to show, the early execution to start, and the new states. *)
Definition on_tool_call (id internal name : string) (arguments : Json) (m : Streams)
  : option string * option (string * Json) * Streams :=
  let preview := if String.eqb name "shell" then shell_preview_from_args arguments else None in
  let e := default new_streamed (m !! internal) in
  let start := piped && String.eqb name "shell" && negb (early_started e) && has_command arguments in
  (preview, if start then Some (id, arguments) else None,
   <[internal := mkStreamed (Some id) (Some name) (to_string arguments)
        (match preview with Some p => Some p | None => last_preview e end) (early_started e || start)]> m).

Definition on_tool_call_delta (id internal delta_type content : string) (m : Streams)
  : option string * option (string * Json) * Streams :=
  let e := default new_streamed (m !! internal) in
  let is_name := String.eqb delta_type "name" in
  let name := if is_name then Some content else st_name e in
  let buffer := if is_name then args_buffer e else args_buffer e ++s content in
  let shell := bool_decide (name = Some "shell"%string) in
  let args := from_str buffer in
  let preview := if shell then args ≫= shell_preview_from_args else None in
  let emit := match preview, last_preview e with
              | Some p, Some l => if String.eqb l p then None else Some p
              | _, _ => preview
              end in
  let start := if piped && shell && negb (early_started e)
               then match args with Some a => if has_command a then Some (id, a) else None | None => None end
               else None in
  (emit, start,
   <[internal := mkStreamed (Some id) name buffer (match emit with Some p => Some p | None => last_preview e end)
        (early_started e || bool_decide (is_Some start))]> m).

Definition on_event (ev : ToolStreamEvent) (m : Streams) : option string * option (string * Json) * Streams :=
  match ev with
  | SToolCall id internal name args => on_tool_call id internal name args m
  | SToolCallDelta id internal ty content => on_tool_call_delta id internal ty content m
  end.
Definition parse_tool_stream_event (event_from_str : string -> option ToolStreamEvent) (chunk : string)
  : option ToolStreamEvent :=
  strip_prefix chunk TOOL_STREAM_EVENT_PREFIX ≫= event_from_str.

(** All chunks of a stream: the early executions to start, in order. *)
Fixpoint early_starts (event_from_str : string -> option ToolStreamEvent) (chunks : list string) (m : Streams)
  : list (string * Json) :=
  match chunks with
  | [] => []
  | c :: cs =>
      match parse_tool_stream_event event_from_str c with
      | None => early_starts event_from_str cs m
      | Some ev => let '(_, start, m) := on_event ev m in
                   option_list start ++ early_starts event_from_str cs m
      end
  end.
End Streams.

(** ** Authentication results *)
Definition detect_auth_awaiting (from_str : string -> option Json) (tool_name : string) (result : Result string Error)
  : option (string * string) :=
  if negb (String.eqb tool_name "tool_auth") && negb (String.eqb tool_name "tool_activate") then None
  else match result with
  | Err _ => None
  | Ok output =>
      match from_str output with
      | None => None
      | Some parsed =>
          if negb (is_true (json_get "awaiting_token" parsed)) then None
          else match get_str "name" parsed with
          | None => None
          | Some name => Some (name, default "Please provide your API token/key."%string (get_str "instructions" parsed))
          end
      end
  end.

(** ** The loop *)
Abbreviation TCall := (Llm.ToolCall Json).
Inductive RespondResult := Text (text : string) | ToolCalls (calls : list TCall) (content : option string).
Record RespondOutput := mkRespond { rr_result : RespondResult; rr_input_tokens : Z; rr_output_tokens : Z }.
Inductive AgenticLoopResult := Response (text : string) | NeedApproval (pending : PendingApproval Json).
Definition MAX_TOOL_ITERATIONS : nat := 10.

(** What the agent shares with everything that runs beside the loop. *)
Record Shared {W : Type} := mkShared { sh_world : W; sh_sess : Session Json; sh_guard : CostGuard }.
Arguments Shared : clear implicits.

(** The [Tool] trait, as far as the agent calls it; [None] is a timeout. *)
Record AgentTool {W : Type} := mkTool {
  t_description : string;
  requires_approval : bool;
  requires_approval_for : Json -> bool;
  execution_timeout : Duration;
  t_execute : bool -> Json -> Shared W -> option (Result Json string) * Shared W;
}.
Arguments AgentTool : clear implicits.

Inductive Event :=
| EvLlm (messages : list (ChatMessage Json)) (tools : list (ToolDefinition Json))
| EvCost (model : string) (input output : Z)
| EvExec (name : string) (params : Json)
| EvEarly (call_id : string) (params : Json)
| EvKernel (name : string) (success : bool).

Record DState {W : Type} := mkD { d_shared : Shared W; d_log : list Event }.
Arguments DState : clear implicits.

(** What the loop takes from the other components. *)
Record Deps {W : Type} := mkDeps {
  get_tool : string -> W -> option (AgentTool W);
  tool_definitions : W -> list (ToolDefinition Json);
  clock : W -> Instant;
  today : W -> Z;
  fresh_uuid : W -> Uuid;
  active_model : W -> string;
  respond : option string -> option string -> list (ChatMessage Json) -> list (ToolDefinition Json) ->
            Shared W -> list string * Result RespondOutput LlmError * Shared W;
  early_done : string -> W -> bool;
  hooks : list (HookEntry Json);
  validator : Validator;
  sanitize_output : string -> string -> string * bool;
  from_str : string -> option Json;
  to_string : Json -> string;
  to_string_pretty : Json -> Result string string;
  event_from_str : string -> option ToolStreamEvent;
  show_duration : Duration -> string;
  show_limit : CostLimitExceeded -> string;
  display : Error -> string;
  kernel : bool;
  piped_execution : bool;
}.
Arguments Deps : clear implicits.

Section Loop.
  Context {W : Type} (E : Deps W) (user : string) (tid : Uuid).
  Abbreviation St := (DState W).
  Abbreviation Msg := (ChatMessage Json).

Definition sess (st : St) : Session Json := sh_sess (d_shared st).
Definition world (st : St) : W := sh_world (d_shared st).
Definition with_sess (f : Session Json -> Session Json) (st : St) : St :=
  mkD _ (mkShared _ (world st) (f (sess st)) (sh_guard (d_shared st))) (d_log st).
Definition with_guard (g : CostGuard) (st : St) : St := mkD _ (mkShared _ (world st) (sess st) g) (d_log st).
Definition logged (evs : list Event) (sh : Shared W) (st : St) : St := mkD _ sh (d_log st ++ evs).

(** [thread.last_turn_mut()] and a change of the turn. *)
Definition on_last_turn (f : Turn Json -> Turn Json) : Session Json -> Session Json :=
  update_thread tid (fun th =>
    set_thread th (th_state th) (alter_last f (turns th)) (updated_at th) (pending_approval th)).
Definition record_result (r : Result string Error) : Session Json -> Session Json :=
  on_last_turn (fun t => match r with
                         | Ok output => record_tool_result t (JString output)
                         | Err e => record_tool_error t (display E e)
                         end).
Definition record_calls (calls : list TCall) : Session Json -> Session Json :=
  on_last_turn (fun t => foldl (fun t tc => record_tool_call t (tc_name tc) (tc_arguments tc)) t calls).

Definition validation_details (r : ValidationResult) : string :=
  String.concat "; " (map (fun e => ve_field e ++s ": " ++s ve_message e) (errors r)).

Definition execute_chat_tool (name : string) (params : Json) (live : bool) (st : St) : Result string Error * St :=
  match get_tool E name (world st) with
  | None => (Err (ETool (ToolNotFound name)), st)
  | Some tool =>
      let validation := validate_tool_params (validator E) params in
      if negb (is_valid validation)
      then (Err (ETool (ToolInvalidParameters name ("Invalid tool parameters: " ++s validation_details validation))), st)
      else
        let '(r, sh) := t_execute tool live params (d_shared st) in
        let success := match r with Some (Ok _) => true | _ => false end in
        let st := logged (EvExec name params :: if kernel E then [EvKernel name success] else []) sh st in
        (match r with
         | None => Err (ETool (ToolTimeout name (execution_timeout tool)))
         | Some (Err e) => Err (ETool (ToolExecutionFailed name e))
         | Some (Ok v) =>
             match to_string_pretty E v with
             | Ok s => Ok s
             | Err e => Err (ETool (ToolExecutionFailed name ("Failed to serialize result: " ++s e)))
             end
         end, st)
  end.

(** The task spawned for a streamed shell call. *)
Definition serialize_tool_result_json (name : string) (v : Json) : Result string string :=
  match to_string_pretty E v with
  | Ok s => Ok s
  | Err e => Err (display E (ETool (ToolExecutionFailed name ("Failed to serialize result: " ++s e))))
  end.
Abbreviation Early := (gmap string (Result string string)).
Definition early_shell (start : string * Json) (early : Early) (st : St) : Early * St :=
  let '(call_id, args) := start in
  match get_tool E "shell" (world st) with
  | None => (early, st)
  | Some tool =>
      if requires_approval tool
         && (negb (is_tool_auto_approved (sess st) "shell") || requires_approval_for tool args)
      then (early, st)
      else if negb (is_valid (validate_tool_params (validator E) args)) then (early, st)
      else
        let '(r, sh) := t_execute tool true args (d_shared st) in
        let normalized := match r with
                          | Some (Ok v) => serialize_tool_result_json "shell" v
                          | Some (Err e) => Err e
                          | None => Err ("Tool 'shell' timed out after "
                                           ++s pretty (execution_timeout tool / 1000000000) ++s "s")
                          end in
        (if early_done E call_id (sh_world sh) then <[call_id := normalized]> early else early,
         logged [EvEarly call_id args] sh st)
  end.
Fixpoint run_early (starts : list (string * Json)) (early : Early) (st : St) : Early * St :=
  match starts with
  | [] => (early, st)
  | s :: l => let '(early, st) := early_shell s early st in run_early l early st
  end.

(** The [BeforeToolCall] hooks: the arguments to use, or the refusal. *)
Definition before_tool_call (tc : TCall) : Result Json string :=
  match run (from_str E) (to_string E) (show_duration E) (hooks E)
          (Hooks.ToolCall (tc_name tc) (tc_arguments tc) user "chat") with
  | Err (Rejected reason) => Err ("Tool call rejected by hook: " ++s reason)
  | Err err => Err ("Tool call blocked by hook policy: " ++s hook_error_display (show_duration E) err)
  | Ok (Continue (Some new_params)) => Ok (default (tc_arguments tc) (from_str E new_params))
  | Ok _ => Ok (tc_arguments tc)
  end.

Definition needs_approval (tool : AgentTool W) (s : Session Json) (tc : TCall) : bool :=
  requires_approval tool
  && negb (is_tool_auto_approved s (tc_name tc) && negb (requires_approval_for tool (tc_arguments tc))).

Inductive CallOutcome :=
| CallDone (ctx : list Msg)
| CallApproval (pending : PendingApproval Json)
| CallAuth (instructions : string).

Definition result_content (name : string) (r : Result string Error) : string :=
  match r with
  | Ok output => let '(c, modified) := sanitize_output E name output in wrap_for_llm name c modified
  | Err e => "Error: " ++s display E e
  end.

(** The result of a call: the one of the early task if it has finished. *)
Definition obtain_result (tc : TCall) (args : Json) (early : Early) (st : St) : Result string Error * Early * St :=
  let live := String.eqb (tc_name tc) "shell" in
  match (if live && piped_execution E then early !! tc_id tc else None) with
  | Some (Ok output) => (Ok output, delete (tc_id tc) early, st)
  | Some (Err reason) => (Err (ETool (ToolExecutionFailed (tc_name tc) reason)), delete (tc_id tc) early, st)
  | None => let '(r, st) := execute_chat_tool (tc_name tc) args live st in (r, early, st)
  end.

(** One tool call, after the approval and the hooks. *)
Definition perform_call (tc : TCall) (args : Json) (ctx : list Msg) (early : Early) (st : St)
  : CallOutcome * Early * St :=
  let '(r, early, st) := obtain_result tc args early st in
  let st := with_sess (record_result r) st in
  match detect_auth_awaiting (from_str E) (tc_name tc) r with
  | Some (ext, instructions) =>
      (CallAuth instructions, early,
       with_sess (update_thread tid (enter_auth_mode ext (clock E (world st)))) st)
  | None => (CallDone (ctx ++ [msg_tool_result (tc_id tc) (tc_name tc) (result_content (tc_name tc) r)]), early, st)
  end.

Definition pending_for (tool : AgentTool W) (tc : TCall) (ctx : list Msg) (st : St) : PendingApproval Json :=
  mkPendingApproval _ (fresh_uuid E (world st)) (tc_name tc) (tc_arguments tc) (t_description tool) (tc_id tc) ctx.

Definition run_call (tc : TCall) (ctx : list Msg) (early : Early) (st : St) : CallOutcome * Early * St :=
  let hooked :=
    match before_tool_call tc with
    | Err refusal => (CallDone (ctx ++ [msg_tool_result (tc_id tc) (tc_name tc) refusal]), early, st)
    | Ok args => perform_call tc args ctx early st
    end in
  match get_tool E (tc_name tc) (world st) with
  | Some tool =>
      if needs_approval tool (sess st) tc then (CallApproval (pending_for tool tc ctx st), early, st) else hooked
  | None => hooked
  end.

Fixpoint run_calls (calls : list TCall) (ctx : list Msg) (early : Early) (st : St) : CallOutcome * St :=
  match calls with
  | [] => (CallDone ctx, st)
  | tc :: calls =>
      match run_call tc ctx early st with
      | (CallDone ctx, early, st) => run_calls calls ctx early st
      | (stop, _, st) => (stop, st)
      end
  end.

Definition is_interrupted (s : Session Json) : bool :=
  match threads s !! tid with Some th => bool_decide (th_state th = Interrupted) | None => false end.

Context (prompt : option string) (active : list LoadedSkill).

Definition visible_tools (w : W) : list (ToolDefinition Json) :=
  match active with [] => tool_definitions E w | _ => att_tools (attenuate_tools (tool_definitions E w) active) end.

Definition NUDGE : string := "Please proceed and use the available tools to complete this task.".

(** The iterations: [remaining] of them remain, [iteration] is the number of the
    next one. *)
Fixpoint agentic_loop (remaining iteration : nat) (executed : bool) (ctx : list Msg) (st : St)
  : Result AgenticLoopResult Error * St :=
  match remaining with
  | O => (Err (ELlm (InvalidResponse "agent"
            ("Exceeded maximum tool iterations (" ++s pretty MAX_TOOL_ITERATIONS ++s ")"))), st)
  | S remaining =>
      if is_interrupted (sess st) then (Err (EContext tid "Interrupted"), st)
      else
        let '(verdict, g) := check_allowed (sh_guard (d_shared st)) (clock E (world st)) in
        let st := with_guard g st in
        match verdict with
        | Err limit => (Err (ELlm (InvalidResponse "agent" (show_limit E limit))), st)
        | Ok _ =>
            let tools := visible_tools (world st) in
            let '(chunks, output, sh) := respond E prompt (skill_context active) ctx tools (d_shared st) in
            let st := logged [EvLlm ctx tools] sh st in
            let '(early, st) := run_early (early_starts (from_str E) (to_string E) (piped_execution E)
                                             (event_from_str E) chunks ∅) ∅ st in
            match output with
            | Err e => (Err (ELlm e), st)
            | Ok o =>
                let model := active_model E (world st) in
                let '(_, g) := record_llm_call (sh_guard (d_shared st)) model (rr_input_tokens o)
                                 (rr_output_tokens o) (today E (world st)) (clock E (world st)) in
                let st := logged [EvCost model (rr_input_tokens o) (rr_output_tokens o)]
                            (d_shared (with_guard g st)) st in
                match rr_result o with
                | Text text =>
                    if negb executed && (iteration <? 3)%nat
                    then agentic_loop remaining (S iteration) executed (ctx ++ [msg_assistant text; msg_user NUDGE]) st
                    else (Ok (Response text), st)
                | ToolCalls calls content =>
                    let ctx := ctx ++ [msg_assistant_with_tool_calls content calls] in
                    let st := with_sess (record_calls calls) st in
                    match run_calls calls ctx early st with
                    | (CallDone ctx, st) => agentic_loop remaining (S iteration) true ctx st
                    | (CallApproval pending, st) => (Ok (NeedApproval pending), st)
                    | (CallAuth instructions, st) => (Ok (Response instructions), st)
                    end
                end
            end
        end
  end.

Definition run_agentic_loop (initial : list Msg) (resume_after_tool : bool) (st : St)
  : Result AgenticLoopResult Error * St :=
  agentic_loop MAX_TOOL_ITERATIONS 1 resume_after_tool initial st.
End Loop.

(** ** The calls a loop makes

    An invariant [I] of the shared state that the environment keeps, and what
    every tool call made under it satisfies. *)
Section Calls.
  Context {W : Type} (E : Deps W) (user : string) (tid : Uuid).
  Context (I : Shared W -> Prop) (Q : Event -> Prop).
  Implicit Types st : DState W.

Definition reaches st st' : Prop :=
  I (d_shared st) -> I (d_shared st') /\ exists evs, d_log st' = d_log st ++ evs /\ Forall Q evs.

Lemma reaches_refl st : reaches st st.
Proof. intros H. split; [done|]. exists []. by rewrite app_nil_r. Qed.
Lemma reaches_trans st1 st2 st3 : reaches st1 st2 -> reaches st2 st3 -> reaches st1 st3.
Proof.
  intros H12 H23 H1. destruct (H12 H1) as (H2 & e1 & E1 & Q1). destruct (H23 H2) as (H3 & e2 & E2 & Q2).
  split; [done|]. exists (e1 ++ e2). rewrite E2, E1, app_assoc. split; [done|]. by apply Forall_app.
Qed.

Class Keeps : Prop := {
  keeps_exec : forall name w tool live p sh, get_tool E name w = Some tool -> I sh -> I (snd (t_execute tool live p sh));
  keeps_sess : forall f (sh : Shared W), I sh -> I (mkShared _ (sh_world sh) (update_thread tid f (sh_sess sh)) (sh_guard sh));
  allows_exec : forall name args tool sh, I sh -> get_tool E name (sh_world sh) = Some tool ->
    (exists tc, tc_name tc = name /\ needs_approval tool (sh_sess sh) tc = false) -> Q (EvExec name args);
  allows_early : forall id args tool sh, I sh -> get_tool E "shell" (sh_world sh) = Some tool ->
    requires_approval tool && (negb (is_tool_auto_approved (sh_sess sh) "shell") || requires_approval_for tool args) = false ->
    Q (EvEarly id args);
  allows_kernel : forall name ok, Q (EvKernel name ok);
}.
Context {HK : Keeps}.

Lemma reaches_sess f st : reaches st (with_sess (update_thread tid f) st).
Proof. intros H. split; [by apply keeps_sess|]. exists []. by rewrite app_nil_r. Qed.

Lemma execute_reaches name params live st :
  (forall tool, get_tool E name (world st) = Some tool -> I (d_shared st) -> Q (EvExec name params)) ->
  reaches st (snd (execute_chat_tool E name params live st)).
Proof.
  intros HQ HI. unfold execute_chat_tool. destruct (get_tool E name (world st)) as [tool|] eqn:Et; [|by apply reaches_refl].
  destruct (negb _); [by apply reaches_refl|].
  pose proof (keeps_exec name _ tool live params (d_shared st) Et HI) as HI'.
  destruct (t_execute tool live params (d_shared st)) as [r sh]. cbn [snd] in *. split; [done|].
  eexists. split; [done|]. constructor; [by eapply HQ|]. destruct (kernel E); [|done].
  constructor; [apply allows_kernel|done].
Qed.

Lemma early_reaches s early st : reaches st (snd (early_shell E s early st)).
Proof.
  intros HI. destruct s as [id args]. unfold early_shell.
  destruct (get_tool E "shell" (world st)) as [tool|] eqn:Et; [|by apply reaches_refl].
  destruct (requires_approval tool && _) eqn:Ea; [by apply reaches_refl|].
  destruct (negb (is_valid _)); [by apply reaches_refl|].
  pose proof (keeps_exec _ _ tool true args (d_shared st) Et HI) as HI'.
  destruct (t_execute tool true args (d_shared st)) as [r sh]. cbn [snd] in *. split; [done|].
  eexists. split; [done|]. constructor; [|done]. exact (allows_early id args tool (d_shared st) HI Et Ea).
Qed.
Lemma run_early_reaches l early st : reaches st (snd (run_early E l early st)).
Proof.
  revert early st. induction l as [|s l IH]; intros early st; [apply reaches_refl|]. cbn [run_early].
  pose proof (early_reaches s early st). destruct (early_shell E s early st) as [e st1]. by eapply reaches_trans.
Qed.

Lemma perform_reaches tc args ctx early st :
  (forall tool, get_tool E (tc_name tc) (world st) = Some tool -> needs_approval tool (sess st) tc = false) ->
  reaches st (snd (perform_call E tid tc args ctx early st)).
Proof.
  intros Ha. unfold perform_call.
  assert (reaches st (snd (obtain_result E tc args early st))) as Hpre.
  { unfold obtain_result. destruct (if _ && _ then _ else _) as [[o|e]|]; [apply reaches_refl|apply reaches_refl|].
    pose proof (execute_reaches (tc_name tc) args (String.eqb (tc_name tc) "shell") st) as H.
    destruct (execute_chat_tool _ _ _ _ _) as [r st']. apply H. intros tool Et HI.
    apply (allows_exec _ _ tool (d_shared st) HI Et). exists tc. split; [done|by apply Ha]. }
  destruct (obtain_result _ _ _ _ _) as [[r e] st1]. cbn [snd] in Hpre. eapply reaches_trans; [exact Hpre|].
  eapply (reaches_trans _ (with_sess (record_result E tid r) st1)); [apply reaches_sess|].
  destruct (detect_auth_awaiting _ _ _) as [[ext ins]|]; [apply reaches_sess|apply reaches_refl].
Qed.

Lemma run_call_reaches tc ctx early st : reaches st (snd (run_call E user tid tc ctx early st)).
Proof.
  unfold run_call. destruct (before_tool_call E user tc) as [args|refusal].
  - pose proof (perform_reaches tc args ctx early st) as H.
    destruct (get_tool E (tc_name tc) (world st)) as [tool|] eqn:Et; [|by apply H].
    destruct (needs_approval tool (sess st) tc) eqn:En; [apply reaches_refl|]. apply H. by intros tool' [= <-].
  - destruct (get_tool _ _ _) as [tool|]; [destruct (needs_approval _ _ _)|]; apply reaches_refl.
Qed.

Lemma run_calls_reaches calls ctx early st : reaches st (snd (run_calls E user tid calls ctx early st)).
Proof.
  revert ctx early st. induction calls as [|tc calls IH]; intros ctx early st; [apply reaches_refl|].
  cbn [run_calls]. pose proof (run_call_reaches tc ctx early st) as H.
  destruct (run_call E user tid tc ctx early st) as [[[ctx'|p|i] early'] st']; [|done|done]. by eapply reaches_trans.
Qed.
End Calls.

Definition is_tool_event (e : Event) : bool := match e with EvLlm _ _ | EvCost _ _ _ => false | _ => true end.
Definition llm_calls (l : list Event) : nat := length (List.filter (fun e => match e with EvLlm _ _ => true | _ => false end) l).
Definition costs (l : list Event) : nat := length (List.filter (fun e => match e with EvCost _ _ _ => true | _ => false end) l).

Lemma llm_calls_app a b : llm_calls (a ++ b) = (llm_calls a + llm_calls b)%nat.
Proof. unfold llm_calls. by rewrite List.filter_app, length_app. Qed.
Lemma costs_app a b : costs (a ++ b) = (costs a + costs b)%nat.
Proof. unfold costs. by rewrite List.filter_app, length_app. Qed.
Lemma tool_events_none Q evs :
  Forall (fun e => Q e /\ is_tool_event e = true) evs -> llm_calls evs = 0%nat /\ costs evs = 0%nat /\ Forall Q evs.
Proof.
  induction 1 as [|e evs [Hq He] _ (IH1 & IH2 & IH3)]; [done|]. unfold llm_calls, costs in *.
  destruct e; simpl in *; try done; auto.
Qed.

Section LoopFacts.
  Context {W : Type} (E : Deps W) (user : string) (tid : Uuid) (prompt : option string) (active : list LoadedSkill).
  Context (I : Shared W -> Prop) (Q : Event -> Prop).
  Implicit Types st : DState W.
  Context {HK : Keeps E tid I (fun e => Q e /\ is_tool_event e = true)}.
  Context (Hrespond : forall p k ms ts sh, I sh -> I (snd (respond E p k ms ts sh))).
  Context (Hguard : forall (sh : Shared W) g, I sh -> I (mkShared _ (sh_world sh) (sh_sess sh) g)).
  Context (Hllm : forall ms ts, Q (EvLlm ms ts)) (Hcost : forall m i o, Q (EvCost m i o)).

(** What [n] more iterations may add to the log. *)
Definition loops (n : nat) st st' : Prop :=
  I (d_shared st) -> I (d_shared st') /\ exists evs, d_log st' = d_log st ++ evs /\ Forall Q evs
    /\ (llm_calls evs <= n)%nat /\ (costs evs <= llm_calls evs)%nat.

Lemma loops_quiet n st st' : d_log st' = d_log st -> (I (d_shared st) -> I (d_shared st')) -> loops n st st'.
Proof.
  intros Hl HI H. split; [auto|]. exists []. rewrite app_nil_r, Hl. split; [done|]. split; [done|].
  unfold llm_calls, costs. simpl. lia.
Qed.
Lemma loops_guard n g st : loops n st (with_guard g st).
Proof. apply loops_quiet; [done|]. apply Hguard. Qed.
Lemma loops_tools n st st' : reaches I (fun e => Q e /\ is_tool_event e = true) st st' -> loops n st st'.
Proof.
  intros H HI. destruct (H HI) as (HI' & evs & El & Hq). apply tool_events_none in Hq as (H1 & H2 & H3).
  split; [done|]. exists evs. rewrite H1, H2. split; [done|]. split; [done|]. lia.
Qed.
Lemma loops_trans n m st1 st2 st3 : loops n st1 st2 -> loops m st2 st3 -> loops (n + m) st1 st3.
Proof.
  intros H12 H23 H1. destruct (H12 H1) as (H2 & e1 & E1 & Q1 & L1 & C1).
  destruct (H23 H2) as (H3 & e2 & E2 & Q2 & L2 & C2). split; [done|]. exists (e1 ++ e2).
  rewrite E2, E1, app_assoc, llm_calls_app, costs_app. split; [done|]. split; [by apply Forall_app|]. lia.
Qed.

(** A call of the model: one event, then those of the early tasks. *)
Lemma llm_then_early ms ts sh l st :
  I sh -> let st' := snd (run_early E l ∅ (logged [EvLlm ms ts] sh st)) in
  I (d_shared st') /\ exists evs, d_log st' = d_log st ++ evs /\ Forall Q evs
    /\ llm_calls evs = 1%nat /\ costs evs = 0%nat.
Proof.
  intros HI. destruct (run_early_reaches E tid I _ l ∅ (logged [EvLlm ms ts] sh st) HI) as (HI' & evs & El & Hq).
  split; [done|]. exists (EvLlm ms ts :: evs). rewrite El. cbn [logged d_log]. rewrite <- app_assoc. split; [done|].
  apply tool_events_none in Hq as (H1 & H2 & H3). unfold llm_calls, costs in *. simpl. rewrite H1, H2.
  split; [by constructor|done].
Qed.

Lemma agentic_loop_loops n it ex ctx st :
  loops n st (snd (agentic_loop E user tid prompt active n it ex ctx st)).
Proof.
  revert it ex ctx st. induction n as [|n IH]; intros it ex ctx st; [by apply loops_quiet|].
  cbn [agentic_loop]. destruct (is_interrupted tid (sess st)); [by apply loops_quiet|].
  destruct (check_allowed _ _) as [[[]|limit] g]; [|apply loops_guard].
  apply (loops_trans 0 (S n) _ (with_guard g st)); [apply loops_guard|]. set (st1 := with_guard g st). intros HI.
  pose proof (Hrespond prompt (skill_context active) ctx (visible_tools E active (world st1)) _ HI) as HI2.
  destruct (respond _ _ _ _ _ _) as [[chunks output] sh]. cbn [snd] in HI2.
  destruct (llm_then_early ctx (visible_tools E active (world st1)) sh
    (early_starts (from_str E) (to_string E) (piped_execution E) (event_from_str E) chunks ∅) st1 HI2)
    as (HI3 & evs & El & Hq & Hn & Hc).
  destruct (run_early _ _ _ _) as [early st2]. cbn [snd] in *.
  destruct output as [o|e]; [|split; [done|]; exists evs; split; [done|]; split; [done|]; lia].
  destruct (record_llm_call _ _ _ _ _ _) as [c g2].
  match goal with |- context[logged ?l ?sh2 st2] => set (st3 := logged l sh2 st2) end.
  assert (loops 1 st1 st3) as H13.
  { intros _. split; [by apply Hguard|]. eexists. split; [unfold st3; cbn; by rewrite El, <- app_assoc|].
    rewrite llm_calls_app, costs_app, Hn, Hc. split; [apply Forall_app; auto|].
    unfold llm_calls, costs. simpl. lia. }
  destruct (rr_result o) as [text|calls content].
  - destruct (negb ex && _); [|apply (loops_trans 1 n _ st3); [done|by apply loops_quiet|done]].
    by apply (loops_trans 1 n _ st3).
  - apply (loops_trans 1 n _ st3); [done| |done].
    assert (loops 0 st3 (with_sess (record_calls tid calls) st3)) as H34.
    { apply loops_quiet; [done|]. intros HI3'. exact (keeps_sess _ _ _ _ _ _ HI3'). }
    set (st4 := with_sess (record_calls tid calls) st3) in *.
    pose proof (run_calls_reaches E user tid I _ calls (ctx ++ [msg_assistant_with_tool_calls content calls]) early st4) as H45.
    destruct (run_calls _ _ _ _ _ _ _) as [[ctx'|p|i] st5]; cbn [snd] in *;
      (apply (loops_trans 0 n _ st4); [done|]); try (by apply loops_tools).
    by apply (loops_trans 0 n _ st5); [apply loops_tools|].
Qed.
End LoopFacts.

(** ** Results and calls *)
Section Results.
  Context {W : Type} (E : Deps W) (user : string) (tid : Uuid).
  Implicit Types st : DState W.

Lemma run_call_cases tc ctx early st :
  let '(out, early', st') := run_call E user tid tc ctx early st in
  match out with
  | CallDone ctx' => exists c, ctx' = ctx ++ [msg_tool_result (tc_id tc) (tc_name tc) c]
  | CallApproval p =>
      st' = st /\ exists tool, get_tool E (tc_name tc) (world st) = Some tool /\ p = pending_for E tool tc ctx st
  | CallAuth _ => True
  end.
Proof.
  assert (forall args, match perform_call E tid tc args ctx early st with
    | (CallDone ctx', _, _) => exists c, ctx' = ctx ++ [msg_tool_result (tc_id tc) (tc_name tc) c]
    | (CallApproval _, _, _) => False | _ => True end) as Hp.
  { intros args. unfold perform_call. destruct (obtain_result _ _ _ _ _) as [[r e] st1].
    destruct (detect_auth_awaiting _ _ _) as [[]|]; [done|by eexists]. }
  unfold run_call. destruct (before_tool_call E user tc) as [args|refusal].
  - specialize (Hp args). destruct (get_tool E (tc_name tc) (world st)) as [tool|] eqn:Et.
    + destruct (needs_approval _ _ _); [by eauto|].
      destruct (perform_call _ _ _ _ _ _ _) as [[[] ?] ?]; [done|done|done].
    + destruct (perform_call _ _ _ _ _ _ _) as [[[] ?] ?]; [done|done|done].
  - destruct (get_tool E (tc_name tc) (world st)) as [tool|] eqn:Et; [destruct (needs_approval _ _ _)|]; eauto.
Qed.

Lemma answered_so_far (calls : list TCall) ctx early st :
  let '(out, st') := run_calls E user tid calls ctx early st in
  match out with
  | CallDone ctx' =>
      exists rs, ctx' = ctx ++ rs /\ map tool_call_id rs = map (fun tc => Some (tc_id tc)) calls
        /\ Forall (fun m => role m = Tool) rs
  | CallApproval p =>
      exists before tc after rs, calls = before ++ tc :: after
        /\ context_messages p = ctx ++ rs /\ map tool_call_id rs = map (fun tc => Some (tc_id tc)) before
        /\ pa_tool_call_id p = tc_id tc /\ pa_tool_name p = tc_name tc /\ pa_parameters p = tc_arguments tc
  | CallAuth _ => True
  end.
Proof.
  revert ctx early st. induction calls as [|tc calls IH]; intros ctx early st.
  { exists []. by rewrite app_nil_r. }
  cbn [run_calls]. pose proof (run_call_cases tc ctx early st) as Hc.
  destruct (run_call E user tid tc ctx early st) as [[[ctx1|p|i] early1] st1]; [| |done].
  - destruct Hc as [c ->]. specialize (IH (ctx ++ [msg_tool_result (tc_id tc) (tc_name tc) c]) early1 st1).
    destruct (run_calls _ _ _ _ _ _ _) as [[ctx'|p|i] st'].
    + destruct IH as (rs & -> & Hid & Hr). eexists (_ :: rs). rewrite <- app_assoc. split; [done|].
      cbn [map]. rewrite Hid. split; [done|]. by constructor.
    + destruct IH as (before & tc' & after & rs & -> & Hctx & Hid & Hrest).
      exists (tc :: before), tc', after. eexists (_ :: rs). rewrite Hctx, <- app_assoc. split; [done|]. split; [done|].
      cbn [map]. by rewrite Hid.
    + done.
  - destruct Hc as (_ & tool & _ & ->). exists [], tc, calls, []. by rewrite app_nil_r.
Qed.

(** The tool calls recorded in the last turn of the thread. *)
Definition turn_calls (s : Session Json) : list (TurnToolCall Json) :=
  match threads s !! tid with Some th => from_option turn_tool_calls [] (last (turns th)) | None => [] end.

Lemma last_alter_last {A} (f : A -> A) l : last (alter_last f l) = f <$> last l.
Proof. destruct l as [|x l] using rev_ind; [done|]. by rewrite alter_last_snoc, !last_snoc. Qed.
Lemma turn_calls_on_last f (s : Session Json) :
  turn_calls (on_last_turn tid f s) =
  match threads s !! tid with
  | Some th => from_option (fun t => turn_tool_calls (f t)) [] (last (turns th))
  | None => []
  end.
Proof.
  unfold turn_calls, on_last_turn. rewrite lookup_update_thread. destruct (threads s !! tid) as [th|]; [|done].
  cbn. rewrite last_alter_last. by destruct (last (turns th)).
Qed.
Lemma take_alter_last {A} (f : A -> A) (l : list A) n : (n < length l)%nat -> take n (alter_last f l) = take n l.
Proof.
  intros Hn. destruct l as [|x l] using rev_ind; [done|]. rewrite alter_last_snoc. rewrite length_app in Hn. simpl in Hn.
  rewrite !take_app_le by lia. done.
Qed.
(** Recording a result touches the last recorded call only. *)
Lemma record_result_take r (s : Session Json) n :
  (n < length (turn_calls s))%nat ->
  take n (turn_calls (record_result E tid r s)) = take n (turn_calls s)
  /\ length (turn_calls (record_result E tid r s)) = length (turn_calls s).
Proof.
  unfold record_result. rewrite turn_calls_on_last. unfold turn_calls.
  destruct (threads s !! tid) as [th|]; [|done]. destruct (last (turns th)) as [t|]; [|done]. cbn [from_option].
  intros Hn. destruct r; cbn; by rewrite alter_last_length, take_alter_last.
Qed.
Lemma auth_turn_calls ext now (s : Session Json) :
  turn_calls (update_thread tid (enter_auth_mode ext now) s) = turn_calls s.
Proof. unfold turn_calls. rewrite lookup_update_thread. by destruct (threads s !! tid). Qed.

Context (Hkeep : forall n w t live p (sh : Shared W), get_tool E n w = Some t -> sh_sess (snd (t_execute t live p sh)) = sh_sess sh).

Lemma execute_sess name params live st : sess (snd (execute_chat_tool E name params live st)) = sess st.
Proof.
  unfold execute_chat_tool. destruct (get_tool E name (world st)) as [tool|] eqn:Et; [|done].
  destruct (negb (is_valid _)); [done|]. pose proof (Hkeep name _ tool live params (d_shared st) Et) as H.
  by destruct (t_execute _ _ _ _).
Qed.

Lemma run_call_take tc ctx early st n :
  (n < length (turn_calls (sess st)))%nat ->
  let s' := sess (snd (run_call E user tid tc ctx early st)) in
  take n (turn_calls s') = take n (turn_calls (sess st)) /\ length (turn_calls s') = length (turn_calls (sess st)).
Proof.
  intros Hn. cbv zeta. assert (forall args, let s' := sess (snd (perform_call E tid tc args ctx early st)) in
    take n (turn_calls s') = take n (turn_calls (sess st)) /\ length (turn_calls s') = length (turn_calls (sess st))) as Hp.
  { intros args. cbv zeta. unfold perform_call.
    assert (sess (snd (obtain_result E tc args early st)) = sess st) as Hs.
    { unfold obtain_result. destruct (if _ && _ then _ else _) as [[]|]; [done|done|].
      pose proof (execute_sess (tc_name tc) args (String.eqb (tc_name tc) "shell") st) as H.
      by destruct (execute_chat_tool _ _ _ _ _). }
    destruct (obtain_result _ _ _ _ _) as [[r e] st1]. cbn [snd] in Hs. rewrite <- Hs in *. pose proof (record_result_take r (sess st1) n Hn) as Hr.
    destruct (detect_auth_awaiting _ _ _) as [[ext ins]|]; [|exact Hr]. cbn [snd with_sess sess d_shared sh_sess].
    by rewrite auth_turn_calls. }
  unfold run_call. destruct (before_tool_call E user tc) as [args|refusal].
  - specialize (Hp args). destruct (get_tool _ _ _) as [tool|]; [destruct (needs_approval _ _ _); [done|]|]; exact Hp.
  - destruct (get_tool _ _ _) as [tool|]; [destruct (needs_approval _ _ _)|]; done.
Qed.

Lemma run_calls_take calls ctx early st n :
  (n < length (turn_calls (sess st)))%nat ->
  take n (turn_calls (sess (snd (run_calls E user tid calls ctx early st)))) = take n (turn_calls (sess st)).
Proof.
  revert ctx early st. induction calls as [|tc calls IH]; intros ctx early st Hn; [done|]. cbn [run_calls].
  destruct (run_call_take tc ctx early st n Hn) as [H1 H2].
  destruct (run_call E user tid tc ctx early st) as [[[ctx'|p|i] early'] st']; cbn [snd] in *; [|done|done].
  rewrite IH, H1 by (rewrite H2; done). done.
Qed.

Lemma record_calls_turn calls th t (s : Session Json) :
  threads s !! tid = Some th -> last (turns th) = Some t ->
  turn_calls (record_calls tid calls s) = turn_tool_calls t
    ++ map (fun tc : TCall => mkTurnToolCall _ (tc_name tc) (tc_arguments tc) None None) calls.
Proof.
  intros Hth Ht. unfold record_calls. rewrite turn_calls_on_last, Hth, Ht. cbn [from_option]. clear Hth Ht.
  revert t. induction calls as [|tc calls IH]; intros t; [by rewrite app_nil_r|]. cbn [foldl map]. rewrite IH. cbn.
  by rewrite <- app_assoc.
Qed.
End Results.

(** ** Properties *)
Section Claims.
  Context {W : Type} (E : Deps W) (user : string) (tid : Uuid).
  Implicit Types st : DState W.

#[local] Instance keeps_all : Keeps E tid (fun _ => True) (fun e => True /\ is_tool_event e = true).
Proof. by split. Qed.

(** C1. The agentic loop always ends, and within its bounds: whatever the model
    and the tools answer, one run makes at most ten calls of the model and
    records at most as many costs; a thread that is interrupted, or a cost
    guard that refuses, ends it before any call is made. *)
Theorem agentic_loop_bounded prompt active initial resume st :
  let '(r, st') := run_agentic_loop E user tid prompt active initial resume st in
  (exists evs, d_log st' = d_log st ++ evs /\ (llm_calls evs <= 10)%nat /\ (costs evs <= llm_calls evs)%nat)
  /\ (is_interrupted tid (sess st) = true -> r = Err (EContext tid "Interrupted") /\ st' = st)
  /\ (is_interrupted tid (sess st) = false ->
      forall limit g, check_allowed (sh_guard (d_shared st)) (clock E (world st)) = (Err limit, g) ->
      r = Err (ELlm (InvalidResponse "agent" (show_limit E limit))) /\ d_log st' = d_log st).
Proof.
  pose proof (agentic_loop_loops E user tid prompt active (fun _ => True) (fun _ => True)
    ltac:(done) ltac:(done) ltac:(done) ltac:(done) 10 1 resume initial st ltac:(done)) as (_ & evs & Hl & _ & Hn & Hc).
  unfold run_agentic_loop, MAX_TOOL_ITERATIONS.
  destruct (agentic_loop _ _ _ _ _ 10 1 resume initial st) as [r st'] eqn:Er.
  split; [by exists evs|]. cbn [agentic_loop] in Er. split.
  - intros Hi. rewrite Hi in Er. by injection Er as <- <-.
  - intros Hi limit g Hg. rewrite Hi, Hg in Er. by injection Er as <- <-.
Qed.

(** C2. A tool that needs approval and that the user has not approved for the
    session is never executed by the loop, neither on its turn nor early while
    the answer is still streaming; hooks, skills and the model's requests make
    no difference.  The registry keeps the tool and nothing else approves it
    meanwhile. *)
Theorem unapproved_tool_never_runs prompt active initial resume st (name : string) (tool : AgentTool W) :
  (forall w, get_tool E name w = Some tool) -> requires_approval tool = true ->
  (forall n w t live p (sh : Shared W), get_tool E n w = Some t -> is_tool_auto_approved (sh_sess sh) name = false ->
     is_tool_auto_approved (sh_sess (snd (t_execute t live p sh))) name = false) ->
  (forall p k ms ts (sh : Shared W), is_tool_auto_approved (sh_sess sh) name = false ->
     is_tool_auto_approved (sh_sess (snd (respond E p k ms ts sh))) name = false) ->
  is_tool_auto_approved (sess st) name = false ->
  exists evs, d_log (snd (run_agentic_loop E user tid prompt active initial resume st)) = d_log st ++ evs
    /\ forall e, e ∈ evs -> match e with
                           | EvExec n _ => n <> name
                           | EvEarly _ _ => name <> "shell"%string
                           | _ => True
                           end.
Proof.
  intros Hreg Hreq Hexec Hresp Hst.
  pose (Q := fun e => match e with EvExec n _ => n <> name | EvEarly _ _ => name <> "shell"%string | _ => True end).
  assert (Keeps E tid (fun sh : Shared W => is_tool_auto_approved (sh_sess sh) name = false)
            (fun e => Q e /\ is_tool_event e = true)) as HK.
  { split.
    - intros. by eapply Hexec.
    - done.
    - intros n args t sh Hsh Hget (tc & <- & Hn). split; [|done]. intros Heq. rewrite Heq, Hreg in Hget.
      injection Hget as <-. unfold needs_approval in Hn. by rewrite Hreq, Heq, Hsh in Hn.
    - intros id args t sh Hsh Hget Ha. split; [|done]. intros ->. rewrite Hreg in Hget. injection Hget as <-.
      by rewrite Hreq, Hsh in Ha.
    - done. }
  destruct (agentic_loop_loops E user tid prompt active _ Q (HK := HK) Hresp ltac:(done) ltac:(done) ltac:(done)
    10 1 resume initial st Hst) as (_ & evs & Hl & Hq & _). exists evs. split; [exact Hl|].
  intros e He. by apply (proj1 (Forall_forall _ _) Hq).
Qed.


(** The turn record of a batch of calls is wrong: the calls are recorded up
    front and every result goes to the last of them.  Whatever the outcome of
    the batch, each call before the last one is left without a result and
    without an error.  (The tools themselves do not touch the session.) *)
Theorem batch_results_misplaced (calls : list TCall) ctx early st th t (i : nat) (tc : TCall) :
  (forall n w tool live p (sh : Shared W), get_tool E n w = Some tool ->
     sh_sess (snd (t_execute tool live p sh)) = sh_sess sh) ->
  threads (sess st) !! tid = Some th -> last (turns th) = Some t ->
  calls !! i = Some tc -> (S i < length calls)%nat ->
  let st' := snd (run_calls E user tid calls ctx early (with_sess (record_calls tid calls) st)) in
  turn_calls tid (sess st') !! (length (turn_tool_calls t) + i)%nat
  = Some (mkTurnToolCall _ (tc_name tc) (tc_arguments tc) None None).
Proof.
  intros Hkeep Hth Ht Hi Hlen. cbv zeta. set (st1 := with_sess (record_calls tid calls) st).
  assert (turn_calls tid (sess st1) = turn_tool_calls t
    ++ map (fun tc : TCall => mkTurnToolCall _ (tc_name tc) (tc_arguments tc) None None) calls) as H1
    by exact (record_calls_turn tid calls th t (sess st) Hth Ht).
  set (n := S (length (turn_tool_calls t) + i)).
  assert (n < length (turn_calls tid (sess st1)))%nat as Hn by (rewrite H1, length_app, length_map; lia).
  pose proof (run_calls_take E user tid Hkeep calls ctx early st1 n Hn) as Htake.
  assert (forall l : list (TurnToolCall Json), l !! (length (turn_tool_calls t) + i)%nat = take n l !! (length (turn_tool_calls t) + i)%nat) as Hl
    by (intros l; rewrite lookup_take_lt by lia; done).
  rewrite Hl, Htake, <- Hl, H1, lookup_app_r by lia. replace (_ + i - _)%nat with i by lia.
  rewrite list_lookup_fmap. by rewrite Hi.
Qed.

(** Piped execution runs a shell command while the model is still streaming
    the call.  It asks neither the hooks nor whether the call is still wanted:
    (1) a command that the hooks refuse has already run when they refuse it;
    (2) when the early run has not finished by the time the loop reaches the
    call, the loop runs the command a second time. *)
Theorem piped_execution_unchecked (tc : TCall) ctx st (tool : AgentTool W) :
  tc_name tc = "shell"%string -> (forall w, get_tool E "shell" w = Some tool) -> requires_approval tool = false ->
  piped_execution E = true -> is_valid (validate_tool_params (validator E) (tc_arguments tc)) = true ->
  (forall refusal, before_tool_call E user tc = Err refusal ->
     let '(early, st1) := run_early E [(tc_id tc, tc_arguments tc)] ∅ st in
     d_log (snd (run_call E user tid tc ctx early st1)) = d_log st ++ [EvEarly (tc_id tc) (tc_arguments tc)])
  /\ (before_tool_call E user tc = Ok (tc_arguments tc) -> (forall w, early_done E (tc_id tc) w = false) -> kernel E = false ->
     let '(early, st1) := run_early E [(tc_id tc, tc_arguments tc)] ∅ st in
     d_log (snd (run_call E user tid tc ctx early st1))
     = d_log st ++ [EvEarly (tc_id tc) (tc_arguments tc); EvExec "shell" (tc_arguments tc)]).
Proof.
  intros Hname Hget Hreq Hpiped Hvalid. unfold run_early, early_shell. rewrite Hget, Hreq, Hvalid. cbn [andb negb].
  destruct (t_execute tool true (tc_arguments tc) (d_shared st)) as [r sh]. unfold run_call. rewrite Hname, Hget.
  unfold needs_approval. rewrite Hreq. cbn [andb]. split.
  - intros refusal ->. done.
  - intros -> Hdone Hk. rewrite Hdone. unfold perform_call, obtain_result. rewrite Hname, Hpiped, lookup_empty.
    unfold execute_chat_tool. cbn [String.eqb andb]. rewrite Hget, Hvalid, Hk. cbn [negb].
    destruct (t_execute tool _ _ _) as [r2 sh2]. cbn. by rewrite <- app_assoc.
Qed.
End Claims.

(** ** Witnesses *)
Definition echo_tool (approval : bool) : AgentTool unit :=
  mkTool _ "runs a command" approval (fun _ => false) (from_secs 60) (fun _ p sh => (Some (Ok p), sh)).
Definition refuse_all : Hook Json :=
  mkHook "deny" [BeforeToolCall] FailClosed (from_secs 5) (fun _ => Some (Ok (Reject "no"))).
Definition call (id : string) : TCall := mkToolCall _ id "shell" (JObject [("command", JString "ls")]).
Definition demo_deps (approval : bool) (hs : list (HookEntry Json)) : Deps unit := {|
  get_tool := fun _ _ => Some (echo_tool approval);
  tool_definitions := fun _ => [];
  clock := fun _ => 0; today := fun _ => 0; fresh_uuid := fun _ => 7%N; active_model := fun _ => "m";
  respond := fun _ _ _ _ sh => ([], Ok (mkRespond (ToolCalls [call "a"; call "b"] None) 1 1), sh);
  early_done := fun _ _ => false;
  hooks := hs;
  validator := mkValidator 100 1 [];
  sanitize_output := fun _ s => (s, false);
  from_str := fun _ => None; to_string := fun _ => "{}"; to_string_pretty := fun _ => Ok "out"%string;
  event_from_str := fun _ => None; show_duration := fun _ => "5s"; show_limit := fun _ => "limit";
  display := fun _ => "error"; kernel := false; piped_execution := true;
|}%string.
Definition demo_session : Session Json :=
  update_thread 4%N (start_turn "go" 1) (snd (create_thread 4%N 0 JNull (new_session 1%N 0 JNull "alice"))).
Definition demo_state : DState unit := mkD _ (mkShared _ tt demo_session (new_guard (mkGuardConfig None None) 0)) [].

Lemma unapproved_tool_never_runs_witness :
  exists evs, d_log (snd (run_agentic_loop (demo_deps true []) "alice" 4%N None [] [] false demo_state)) = [] ++ evs
    /\ EvExec "shell" JNull ∉ evs.
Proof.
  destruct (unapproved_tool_never_runs (demo_deps true []) "alice" 4%N None [] [] false demo_state "shell" (echo_tool true))
    as (evs & Hl & He).
  - reflexivity.
  - reflexivity.
  - intros n w t live p sh [= <-]. exact (fun H => H).
  - intros p k ms ts sh. exact (fun H => H).
  - vm_compute. reflexivity.
  - exists evs. split; [exact Hl|]. intros H. exact (He _ H eq_refl).
Defined.

Lemma batch_results_misplaced_witness :
  turn_calls 4%N (sess (snd (run_calls (demo_deps false []) "alice" 4%N [call "a"; call "b"] [] ∅
    (with_sess (record_calls 4%N [call "a"; call "b"]) demo_state)))) !! 0%nat
  = Some (mkTurnToolCall _ "shell" (JObject [("command", JString "ls")]) None None).
Proof.
  refine (batch_results_misplaced (demo_deps false []) "alice" 4%N [call "a"; call "b"] [] ∅ demo_state
    (start_turn "go" 1 (new_thread 4%N 1%N 0 JNull)) (new_turn 0 "go" 1) 0 (call "a") _ _ _ _ _).
  - intros n w tool live p sh [= <-]. reflexivity.
  - vm_compute. reflexivity.
  - reflexivity.
  - reflexivity.
  - simpl. lia.
Defined.

Lemma piped_execution_unchecked_witness :
  d_log (snd (run_call (demo_deps false [mkEntry refuse_all 1]) "alice" 4%N (call "a") [] ∅
    (snd (run_early (demo_deps false [mkEntry refuse_all 1]) [("a"%string, tc_arguments (call "a"))] ∅ demo_state))))
  = [EvEarly "a" (tc_arguments (call "a"))]
  /\ d_log (snd (run_call (demo_deps false []) "alice" 4%N (call "a") [] ∅
       (snd (run_early (demo_deps false []) [("a"%string, tc_arguments (call "a"))] ∅ demo_state))))
     = [EvEarly "a" (tc_arguments (call "a")); EvExec "shell" (tc_arguments (call "a"))].
Proof.
  split.
  - destruct (piped_execution_unchecked (demo_deps false [mkEntry refuse_all 1]) "alice" 4%N (call "a") [] demo_state (echo_tool false))
      as [H _]; [reflexivity|reflexivity|reflexivity|reflexivity|vm_compute; reflexivity|].
    exact (H "Tool call rejected by hook: no"%string eq_refl).
  - destruct (piped_execution_unchecked (demo_deps false []) "alice" 4%N (call "a") [] demo_state (echo_tool false))
      as [_ H]; [reflexivity|reflexivity|reflexivity|reflexivity|vm_compute; reflexivity|].
    exact (H eq_refl (fun _ => eq_refl) eq_refl).
Defined.

(** The loop on a model that never stops calling tools: ten calls, then the
    error; and a small preview. *)
Example loop_demo :
  let '(r, st) := run_agentic_loop (demo_deps false []) "alice" 4%N None [] [] false demo_state in
  r = Err (ELlm (InvalidResponse "agent" "Exceeded maximum tool iterations (10)")) /\ llm_calls (d_log st) = 10%nat
  /\ chunk_tool_result_preview "short" = ["short"%string].
Proof. vm_compute. repeat split. Qed.
