(* ===== verification/Worker.v ===== *)
(** The worker of a job: [src/agent/worker.rs], and [llm_signals_completion] of
    [src/util.rs].

    What a worker shares with the rest of the agent is [WShared]: the world
    [W] (clock, tool registry), the context manager and the mailbox that the
    scheduler writes to.  Model and tools may change all of it while they
    run.  The model is an [LlmProvider] over that state, asked through
    [Reasoning].  The body of the worker is written in the monad [M]: a step
    returns a value, fails with an error ([?] in the source), or is cut off by
    the timeout around the loop, which is tested whenever a call has
    suspended.  Parallel executions are run in the order of the selections.
    The log [w_log] holds what the worker does: the
    executions, the states it gives the job and the writes to the database,
    which nobody waits for. *)

From Stdlib Require Import Ascii.
From S2P Require Import Prelude Strs Find Float64 Llm Json JobState JobMemory ContextManager Session CostGuard Hooks Skills LeakDetector Safety Dispatcher Reasoning.
#[local] Open Scope claw_scope.

(** ** Does an answer say that the job is done *)
Definition positive_phrases : list string :=
  ["job is complete"; "job is done"; "job is finished"; "task is complete"; "task is done"; "task is finished";
   "work is complete"; "work is done"; "work is finished"; "successfully completed"; "have completed the job";
   "have completed the task"; "have finished the job"; "have finished the task"; "all steps are complete";
   "all steps are done"; "i have completed"; "i've completed"; "all done"; "all tasks complete"]%string.
Definition negative_phrases : list string :=
  ["not complete"; "not done"; "not finished"; "incomplete"; "unfinished"; "isn't done"; "isn't complete";
   "isn't finished"; "not yet done"; "not yet complete"; "not yet finished"]%string.
Definition llm_signals_completion (response : string) : bool :=
  let lower := to_lowercase response in
  if existsb (str_contains lower) negative_phrases then false
  else existsb (str_contains lower) positive_phrases.

(** ** State and effects *)
Inductive WorkerMessage := WStart | WStop | WPing.
Inductive WorkerError :=
| WLlm (e : LlmError) | WTool (e : ToolError) | WAuthRequired (name : string) | WJob (e : JobError) | WContext (id : Uuid) (reason : string).

Section Worker.
  Context {W Decimal : Type} `{!DecimalOps Decimal}.
  Abbreviation Ctx := (JobContext Decimal Json).
  Abbreviation Mgr := (ContextManager Decimal Json).
  Abbreviation Action := (ActionRecord Decimal Json).

Record WShared := mkWShared { ws_world : W; ws_mgr : Mgr; ws_rx : list WorkerMessage }.

(** A tool as a job uses it: [None] is its own timeout, an error is shown. *)
Record JobTool := mkJobTool {
  jt_requires_approval : bool;
  jt_execution_timeout : Duration;
  jt_execute : Json -> Ctx -> WShared -> option (Result Json string) * WShared;
}.

Inductive WEvent :=
| WvSelect
| WvText (text : string)
| WvExec (name : string) (params : Json)
| WvStatus (s : JobState) (reason : string) (stored : bool)
| WvStopped
| WvAction (a : Action)
| WvFailure (tool error : string).

Record WState := mkWState { w_sh : WShared; w_log : list WEvent }.

Record WorkerDeps := mkWorkerDeps {
  wd_get_tool : string -> W -> option JobTool;
  wd_tool_definitions : W -> list (ToolDefinition Json);
  wd_clock : W -> Instant;
  wd_fresh_uuid : W -> Uuid;
  wd_expired : W -> bool;
  wd_hooks : list (HookEntry Json);
  wd_validator : Validator;
  wd_sanitize : string -> string -> string * bool;
  wd_from_str : string -> option Json;
  wd_to_string : Json -> string;
  wd_to_string_pretty : Json -> Result string string;
  wd_plan_from_str : string -> Result ActionPlan string;
  wd_show_duration : Duration -> string;
  wd_show_uuid : Uuid -> string;
  wd_display : WorkerError -> string;
  wd_has_store : bool;
  wd_use_planning : bool;
}.

(** ** The monad *)
Inductive Step (A : Type) := Val (a : A) | Fails (e : WorkerError) | Expired.
Arguments Val {A}. Arguments Fails {A}. Arguments Expired {A}.
Definition M (A : Type) : Type := WState -> Step A * WState.
Definition ret {A} (a : A) : M A := fun st => (Val a, st).
Definition failwith {A} (e : WorkerError) : M A := fun st => (Fails e, st).
Definition bind {A B} (m : M A) (k : A -> M B) : M B :=
  fun st => match m st with
            | (Val a, st) => k a st
            | (Fails e, st) => (Fails e, st)
            | (Expired, st) => (Expired, st)
            end.
Notation "'do!' x '<-' m ';' k" := (bind m (fun x => k)) (at level 10, x pattern, k at level 200).
Definition reading {A} (f : WShared -> A) : M A := fun st => (Val (f (w_sh st)), st).
Definition emit (ev : WEvent) : M unit := fun st => (Val tt, mkWState (w_sh st) (w_log st ++ [ev])).
Definition emit_if (b : bool) (ev : WEvent) : M unit := if b then emit ev else ret tt.
(** [r?]. *)
Definition ask {A} (r : Result A WorkerError) : M A := match r with Ok a => ret a | Err e => failwith e end.

  Context (E : WorkerDeps) (job : Uuid).

(** A call that suspends; afterwards the timeout may have passed. *)
Definition await {A} (f : WShared -> A * WShared) : M A :=
  fun st => let '(a, sh) := f (w_sh st) in
            (if wd_expired E (ws_world sh) then Expired else Val a, mkWState sh (w_log st)).

(** [update_context] and [update_memory] of the job. *)
Definition with_context {R} (f : Ctx -> R * Ctx) : M (Result R JobError) :=
  fun st => let '(r, m) := update_context (ws_mgr (w_sh st)) job f in
            (Val r, mkWState (mkWShared (ws_world (w_sh st)) m (ws_rx (w_sh st))) (w_log st)).
Definition with_memory {R} (f : Memory Decimal Json -> R * Memory Decimal Json) : M (Result R JobError) :=
  fun st => let '(r, m) := update_memory (ws_mgr (w_sh st)) job f in
            (Val r, mkWState (mkWShared (ws_world (w_sh st)) m (ws_rx (w_sh st))) (w_log st)).
Definition job_context : M (Result Ctx JobError) := reading (fun sh => get_context (ws_mgr sh) job).
Definition clock_now : M Instant := reading (fun sh => wd_clock E (ws_world sh)).
(** [rx.try_recv()]. *)
Definition try_recv : M (option WorkerMessage) :=
  fun st => let sh := w_sh st in
            match ws_rx sh with
            | [] => (Val None, st)
            | msg :: rx => (Val (Some msg), mkWState (mkWShared (ws_world sh) (ws_mgr sh) rx) (w_log st))
            end.

(** ** The end of a job *)
Definition persist_status (s : JobState) (reason : string) : M unit := emit (WvStatus s reason (wd_has_store E)).
Definition finish_with (s : JobState) (reason : string) (f : Instant -> Ctx -> Result unit string * Ctx) : M unit :=
  do! now <- clock_now;
  do! r <- with_context (f now);
  match r with
  | Err e => failwith (WJob e)
  | Ok (Err why) => failwith (WContext job why)
  | Ok (Ok _) => persist_status s reason
  end.
Definition COMPLETED_REASON : string := "Job completed successfully".
Definition mark_completed : M unit :=
  finish_with Completed COMPLETED_REASON (fun now c => transition_to c Completed (Some COMPLETED_REASON) now now).
Definition mark_failed (reason : string) : M unit :=
  finish_with Failed reason (fun now c => transition_to c Failed (Some reason) now now).
Definition mark_job_stuck (reason : string) : M unit :=
  finish_with Stuck reason (fun now c => mark_stuck c reason now now).

(** ** One tool *)
Definition ActionResult : Type := option (Result Json string).
Definition action_of (name : string) (params : Json) (r : ActionResult) (elapsed : Duration) (id : Uuid) (now : DateTime)
    (mem : Memory Decimal Json) : Action * Memory Decimal Json :=
  let '(rec, mem) := create_action mem id now name params in
  let rec := match r with
             | Some (Ok v) =>
                 succeed rec (match wd_to_string_pretty E v with Ok s => Some (fst (wd_sanitize E name s)) | Err _ => None end) v elapsed
             | Some (Err e) => fail_action rec e elapsed
             | None => fail_action rec "Execution timeout" elapsed
             end in
  (rec, record_action mem rec).
Definition tool_outcome (name : string) (tool : JobTool) (r : ActionResult) : Result string WorkerError :=
  match r with
  | None => Err (WTool (ToolTimeout name (jt_execution_timeout tool)))
  | Some (Err e) => Err (WTool (ToolExecutionFailed name e))
  | Some (Ok v) =>
      match wd_to_string_pretty E v with
      | Ok s => Ok s
      | Err e => Err (WTool (ToolExecutionFailed name ("Failed to serialize result: " ++s e)))
      end
  end.
Definition run_tool (name : string) (tool : JobTool) (params : Json) (ctx : Ctx) : M (Result string WorkerError) :=
  do! start <- clock_now;
  do! _ <- emit (WvExec name params);
  do! r <- await (jt_execute tool params ctx);
  do! now <- clock_now;
  do! id <- reading (fun sh => wd_fresh_uuid E (ws_world sh));
  do! rec <- with_memory (action_of name params r (now - start) id now);
  do! _ <- match rec with Ok a => emit_if (wd_has_store E) (WvAction a) | Err _ => ret tt end;
  ret (tool_outcome name tool r).

(** The arguments after the [BeforeToolCall] hooks, or the refusal. *)
Definition before_job_tool (name : string) (params : Json) (ctx : Ctx) : Result Json WorkerError :=
  match run (wd_from_str E) (wd_to_string E) (wd_show_duration E) (wd_hooks E)
          (Hooks.ToolCall name params (user_id ctx) ("job:" ++s wd_show_uuid E job)) with
  | Err (Rejected reason) => Err (WTool (ToolExecutionFailed name ("Blocked by hook: " ++s reason)))
  | Err err => Err (WTool (ToolExecutionFailed name ("Blocked by hook failure mode: " ++s hook_error_display (wd_show_duration E) err)))
  | Ok (Continue (Some new_params)) => Ok (default params (wd_from_str E new_params))
  | Ok _ => Ok params
  end.

Definition execute_tool (name : string) (params : Json) : M (Result string WorkerError) :=
  do! tool <- reading (fun sh => wd_get_tool E name (ws_world sh));
  match tool with
  | None => ret (Err (WTool (ToolNotFound name)))
  | Some tool =>
      if jt_requires_approval tool then ret (Err (WAuthRequired name))
      else
        do! ctx <- job_context;
        match ctx with
        | Err e => ret (Err (WJob e))
        | Ok ctx =>
            match before_job_tool name params ctx with
            | Err e => ret (Err e)
            | Ok params =>
                if bool_decide (state ctx = Cancelled)
                then ret (Err (WTool (ToolExecutionFailed name "Job is cancelled")))
                else
                  let validation := validate_tool_params (wd_validator E) params in
                  if negb (is_valid validation)
                  then ret (Err (WTool (ToolInvalidParameters name ("Invalid tool parameters: " ++s validation_details validation))))
                  else run_tool name tool params ctx
            end
        end
  end.

(** The result, as a message of the conversation.  The source also answers
    [false], always: a tool's output never completes a job. *)
Definition result_message (sel : ToolSelection) (r : Result string WorkerError) : ChatMessage Json :=
  msg_tool_result (sel_tool_call_id sel) (sel_tool_name sel)
    (match r with
     | Ok output => let '(c, modified) := wd_sanitize E (sel_tool_name sel) output in wrap_for_llm (sel_tool_name sel) c modified
     | Err e => "Error: " ++s wd_display E e
     end).
Definition process_tool_result (rc : ReasoningContext) (sel : ToolSelection) (r : Result string WorkerError) : M ReasoningContext :=
  do! _ <- match r with
           | Ok _ => ret tt
           | Err e => emit_if (wd_has_store E) (WvFailure (sel_tool_name sel) (wd_display E e))
           end;
  ret (with_message (result_message sel r) rc).

Fixpoint execute_each (sels : list ToolSelection) : M (list (ToolSelection * Result string WorkerError)) :=
  match sels with
  | [] => ret []
  | sel :: sels =>
      do! r <- execute_tool (sel_tool_name sel) (parameters sel);
      do! rs <- execute_each sels;
      ret ((sel, r) :: rs)
  end.
Fixpoint process_all (rc : ReasoningContext) (rs : list (ToolSelection * Result string WorkerError)) : M ReasoningContext :=
  match rs with
  | [] => ret rc
  | (sel, r) :: rs => do! rc <- process_tool_result rc sel r; process_all rc rs
  end.
(** Several selections: all are executed, then all results are added. *)
Definition execute_tools_parallel (rc : ReasoningContext) (sels : list ToolSelection) : M ReasoningContext :=
  do! rs <- execute_each sels; process_all rc rs.
(** One after the other. *)
Fixpoint execute_in_turn (rc : ReasoningContext) (sels : list ToolSelection) : M ReasoningContext :=
  match sels with
  | [] => ret rc
  | sel :: sels =>
      do! r <- execute_tool (sel_tool_name sel) (parameters sel);
      do! rc <- process_tool_result rc sel r;
      execute_in_turn rc sels
  end.

(** ** The loops *)
  Context `{!LlmProvider Json Decimal WShared}.
Definition engine : ReasoningConfig := new_reasoning.

(** A call of the engine. *)
Definition think {A} (f : WShared -> Instant -> Outcome A WShared) : M (Result A LlmError) :=
  await (fun sh => let '(r, sh', _) := f sh (wd_clock E (ws_world sh)) in (r, sh')).
Definition ask_model {A} (f : WShared -> Instant -> Outcome A WShared) : M A :=
  do! r <- think f;
  match r with Ok a => ret a | Err e => failwith (WLlm e) end.

Definition STUCK_QUESTION : string := "Are you stuck? Do you need help completing this job?".
Definition PLAN_DONE_QUESTION : string :=
  "All planned actions have been executed. Is the job complete? If not, what else needs to be done?".
Definition MAX_WORKER_ITERATIONS : nat := 50.

Definition refresh_tools (rc : ReasoningContext) : M ReasoningContext :=
  do! tools <- reading (fun sh => wd_tool_definitions E (ws_world sh));
  ret (with_tools tools rc).

(** What the loop does with an answer that selects no tool: [None] when the job is done. *)
Definition text_answer (iteration : nat) (rc : ReasoningContext) (response : string) : M (option ReasoningContext) :=
  do! _ <- emit (WvText response);
  if llm_signals_completion response then
    do! _ <- mark_completed; ret None
  else
    let rc := with_message (msg_assistant response) rc in
    ret (Some (if (3 <? iteration)%nat && (iteration mod 5 =? 0)%nat then with_message (msg_user STUCK_QUESTION) rc else rc)).
Definition calls_answer (rc : ReasoningContext) (calls : list TCall) (content : option string) : M (option ReasoningContext) :=
  do! rc <- execute_in_turn (with_message (msg_assistant_with_tool_calls content calls) rc) (map (selection_of EmptyString) calls);
  ret (Some rc).

(** One iteration after the checks. *)
Definition iterate (iteration : nat) (rc : ReasoningContext) : M (option ReasoningContext) :=
  do! rc <- refresh_tools rc;
  do! _ <- emit WvSelect;
  do! sels <- ask_model (select_tools rc);
  match sels with
  | [] =>
      do! o <- ask_model (respond_with_tools (wd_from_str E) engine rc);
      match rr_result o with
      | Text response => text_answer iteration rc response
      | ToolCalls calls content => calls_answer rc calls content
      end
  | [sel] =>
      do! r <- execute_tool (sel_tool_name sel) (parameters sel);
      do! rc <- process_tool_result rc sel r;
      ret (Some rc)
  | _ => do! rc <- execute_tools_parallel rc sels; ret (Some rc)
  end.

Definition should_stop : M bool :=
  do! msg <- try_recv;
  match msg with
  | Some WStop => do! _ <- emit WvStopped; ret true
  | _ =>
      do! ctx <- job_context;
      if match ctx with Ok c => bool_decide (state c = Cancelled) | Err _ => false end
      then do! _ <- emit WvStopped; ret true
      else ret false
  end.

(** The direct loop: [remaining] iterations are left, [iteration] have been done. *)
Fixpoint direct_loop (remaining iteration : nat) (rc : ReasoningContext) : M unit :=
  do! stop <- should_stop;
  if stop then ret tt
  else match remaining with
       | O => mark_job_stuck "Maximum iterations exceeded"
       | S remaining =>
           do! next <- iterate (S iteration) rc;
           match next with
           | None => ret tt
           | Some rc => do! _ <- await (fun sh => (tt, sh)); direct_loop remaining (S iteration) rc
           end
       end.

Definition plan_call_id (i : nat) : string := "plan_" ++s wd_show_uuid E job ++s "_" ++s pretty i.
Definition planned_selection (i : nat) (a : PlannedAction) : ToolSelection :=
  mkSelection (pa_tool_name a) (pa_parameters a) (pa_reasoning a) [] (plan_call_id i).
(** The planned actions; [None] when a stop arrives. *)
Fixpoint plan_loop (i : nat) (acts : list PlannedAction) (rc : ReasoningContext) : M (option ReasoningContext) :=
  match acts with
  | [] => ret (Some rc)
  | a :: acts =>
      do! msg <- try_recv;
      match msg with
      | Some WStop => do! _ <- emit WvStopped; ret None
      | _ =>
          do! r <- execute_tool (pa_tool_name a) (pa_parameters a);
          do! rc <- process_tool_result rc (planned_selection i a) r;
          do! _ <- await (fun sh => (tt, sh));
          plan_loop (S i) acts rc
      end
  end.
Definition execute_plan (rc : ReasoningContext) (pl : ActionPlan) : M unit :=
  do! rc <- plan_loop 0 (Reasoning.actions pl) rc;
  match rc with
  | None => ret tt
  | Some rc =>
      let rc := with_message (msg_user PLAN_DONE_QUESTION) rc in
      do! response <- ask_model (respond (wd_from_str E) (wd_to_string E) engine rc);
      do! _ <- emit (WvText response);
      if llm_signals_completion response then mark_completed
      else mark_job_stuck "Plan completed but job incomplete - needs re-planning"
  end.

Definition plan_message (pl : ActionPlan) : string :=
  "I've created a plan to accomplish this goal: " ++s goal pl ++s NL2 ++s "Steps:" ++s NL
    ++s String.concat NL (imap (fun i a => pretty (S i) ++s ". " ++s pa_tool_name a ++s " - " ++s pa_reasoning a) (Reasoning.actions pl)).
Definition execution_loop (rc : ReasoningContext) : M unit :=
  do! rc <- refresh_tools rc;
  if wd_use_planning E then
    do! r <- think (plan (wd_plan_from_str E) rc);
    match r with
    | Ok pl => execute_plan (with_message (msg_assistant (plan_message pl)) rc) pl
    | Err _ => direct_loop MAX_WORKER_ITERATIONS 0 rc
    end
  else direct_loop MAX_WORKER_ITERATIONS 0 rc.

Definition worker_prompt (c : Ctx) : string := String.concat NL
  [ "You are an autonomous agent working on a job."; ""; "Job: " ++s title c; "Description: " ++s description c; "";
    "You have access to tools to complete this job. Plan your approach and execute tools as needed.";
    "You may request multiple tools at once if they can be executed in parallel.";
    "Report when the job is complete or if you encounter issues you cannot resolve." ]%string.
Definition initial_context (c : Ctx) : ReasoningContext :=
  with_message (msg_system (worker_prompt c)) (with_job (description c) new_rcontext).

(** [run]; [first] is the message that ends the wait for the start. *)
Definition run_worker (first : option WorkerMessage) : M unit :=
  match first with
  | None | Some WStop => emit WvStopped
  | Some _ =>
      do! ctx <- job_context;
      match ctx with
      | Err e => failwith (WJob e)
      | Ok c =>
          fun st =>
            match execution_loop (initial_context c) st with
            | (Val _, st) => (Val tt, st)
            | (Fails e, st) => mark_failed (wd_display E e) st
            | (Expired, st) => mark_job_stuck "Execution timeout" st
            end
      end
  end.
End Worker.

(** ** Lemmas: what a step adds to the log *)
Section Specs.
  Context {W Decimal : Type} `{!DecimalOps Decimal}.
  Abbreviation WS := (@WShared W Decimal).
  Abbreviation Ev := (@WEvent Decimal).
  Context (E : @WorkerDeps W Decimal) (job : Uuid).

(** [m] adds events, related to its outcome by [Q]. *)
Definition adds {A} (m : @M W Decimal A) (Q : Step A -> list Ev -> Prop) : Prop :=
  forall st, exists evs, w_log (snd (m st)) = w_log st ++ evs /\ Q (fst (m st)) evs.

Lemma adds_weaken {A} (m : @M W Decimal A) (Q Q' : Step A -> list Ev -> Prop) :
  adds m Q -> (forall r evs, Q r evs -> Q' r evs) -> adds m Q'.
Proof. intros H HQ st. destruct (H st) as (evs & ? & ?). eauto. Qed.

Lemma adds_bind {A B} (m : @M W Decimal A) (k : A -> @M W Decimal B) (Q1 : Step A -> list Ev -> Prop)
    (Q : Step B -> list Ev -> Prop) :
  adds m Q1 ->
  (forall e evs, Q1 (Fails _ e) evs -> Q (Fails _ e) evs) -> (forall evs, Q1 (Expired _) evs -> Q (Expired _) evs) ->
  (forall a e1, Q1 (Val _ a) e1 -> adds (k a) (fun r e2 => Q r (e1 ++ e2))) ->
  adds (bind m k) Q.
Proof.
  intros Hm Hf He Hk st. unfold bind. destruct (Hm st) as (e1 & Hl & H1).
  destruct (m st) as [[a|e|] st1]; cbn in *; eauto.
  destruct (Hk a e1 H1 st1) as (e2 & Hl2 & H2). exists (e1 ++ e2). by rewrite Hl2, Hl, app_assoc.
Qed.

Lemma adds_ret {A} (a : A) (Q : Step A -> list Ev -> Prop) : Q (Val _ a) [] -> adds (ret a) Q.
Proof. intros H st. exists []. by rewrite app_nil_r. Qed.
Lemma adds_fail {A} e (Q : Step A -> list Ev -> Prop) : Q (Fails _ e) [] -> adds (failwith e) Q.
Proof. intros H st. exists []. by rewrite app_nil_r. Qed.
Lemma adds_reading {A} (f : WS -> A) (Q : Step A -> list Ev -> Prop) : (forall a, Q (Val _ a) []) -> adds (reading f) Q.
Proof. intros H st. exists []. cbn. by rewrite app_nil_r. Qed.
Lemma adds_emit ev (Q : Step unit -> list Ev -> Prop) : Q (Val _ tt) [ev] -> adds (emit ev) Q.
Proof. intros H st. by exists [ev]. Qed.
Lemma adds_await {A} (f : WS -> A * WS) (Q : Step A -> list Ev -> Prop) :
  (forall a, Q (Val _ a) []) -> Q (Expired _) [] -> adds (await E f) Q.
Proof. intros H1 H2 st. unfold await. destruct (f (w_sh st)) as [a sh]. exists []. cbn. rewrite app_nil_r. split; [done|].
  destruct (wd_expired _ _); auto. Qed.
Lemma adds_context {R} (f : JobContext Decimal Json -> R * JobContext Decimal Json) (Q : Step (Result R JobError) -> list Ev -> Prop) :
  (forall a, Q (Val _ a) []) -> adds (with_context job f) Q.
Proof. intros H st. unfold with_context. destruct (update_context _ _ _). exists []. cbn. by rewrite app_nil_r. Qed.
Lemma adds_memory {R} (f : Memory Decimal Json -> R * Memory Decimal Json) (Q : Step (Result R JobError) -> list Ev -> Prop) :
  (forall a, Q (Val _ a) []) -> adds (with_memory job f) Q.
Proof. intros H st. unfold with_memory. destruct (update_memory _ _ _). exists []. cbn. by rewrite app_nil_r. Qed.
Lemma adds_try_recv (Q : Step (option WorkerMessage) -> list Ev -> Prop) : (forall a, Q (Val _ a) []) -> adds try_recv Q.
Proof. intros H st. exists []. rewrite app_nil_r. unfold try_recv. destruct (ws_rx (w_sh st)); (split; [done|apply H]). Qed.

(** An execution is allowed: the tool was found, needs no approval, and the
    arguments are valid. *)
Definition allowed (name : string) (params : Json) : Prop :=
  (exists w tool, wd_get_tool E name w = Some tool /\ jt_requires_approval tool = false)
  /\ is_valid (validate_tool_params (wd_validator E) params) = true.
Definition tool_event (ev : Ev) : Prop :=
  match ev with WvExec name params => allowed name params | WvAction _ | WvFailure _ _ => True | _ => False end.
Definition calm {A} (r : Step A) (evs : list Ev) : Prop := Forall tool_event evs /\ forall e, r <> Fails _ e.

Lemma calm_bind {A B} (m : @M W Decimal A) (k : A -> @M W Decimal B) :
  adds m calm -> (forall a, adds (k a) calm) -> adds (bind m k) calm.
Proof.
  intros Hm Hk. eapply adds_bind; [exact Hm|intros e evs [_ H]; by destruct (H e)|intros evs [H _]; by split|].
  intros a e1 [H1 _]. eapply adds_weaken; [apply Hk|]. intros r e2 [H2 H3]. split; [by apply Forall_app|done].
Qed.
Lemma calm_nil {A} (a : A) : calm (Val _ a) [].
Proof. by split. Qed.
Lemma calm_expired {A} : calm (Expired A) [].
Proof. by split. Qed.
Lemma calm_one ev : tool_event ev -> calm (Val _ tt) [ev].
Proof. split; [by repeat constructor|done]. Qed.
Lemma adds_emit_if b ev : tool_event ev -> adds (emit_if b ev) calm.
Proof. intros H. destruct b; [by apply adds_emit, calm_one|by apply adds_ret]. Qed.
End Specs.
#[export] Hint Resolve calm_nil calm_expired : claw.
#[export] Hint Resolve adds_ret adds_reading adds_await adds_context adds_memory adds_try_recv : claw.
Ltac calm_step :=
  lazymatch goal with
  | |- adds (bind _ _) (calm _) => apply calm_bind; [|intros ?]
  | |- adds (ret _) _ => by apply adds_ret, calm_nil
  | |- adds (reading _) _ => apply adds_reading; intros; apply calm_nil
  | |- adds (await _ _) _ => apply adds_await; intros; [apply calm_nil|apply calm_expired]
  | |- adds (with_memory _ _) _ => apply adds_memory; intros; apply calm_nil
  | |- adds (with_context _ _) _ => apply adds_context; intros; apply calm_nil
  | |- adds (clock_now _) _ => unfold clock_now
  | |- adds (job_context _) _ => unfold job_context
  | |- adds try_recv _ => apply adds_try_recv; intros; apply calm_nil
  end.

Section Loops.
  Context {W Decimal : Type} `{!DecimalOps Decimal} `{!LlmProvider Json Decimal (@WShared W Decimal)}.
  Abbreviation Ev := (@WEvent Decimal).
  Context (E : @WorkerDeps W Decimal) (job : Uuid).

Lemma run_tool_calm name tool params ctx : allowed E name params -> adds (run_tool E job name tool params ctx) (calm E).
Proof.
  intros Ha. unfold run_tool. repeat calm_step; [by apply adds_emit, calm_one|].
  lazymatch goal with |- adds (match ?r with Ok _ => _ | Err _ => _ end) _ => destruct r end;
    [by apply adds_emit_if|calm_step].
Qed.

Lemma execute_tool_calm name params : adds (execute_tool E job name params) (calm E).
Proof.
  intros st. unfold execute_tool, bind, reading, job_context. cbn.
  destruct (wd_get_tool E name (ws_world (w_sh st))) as [tool|] eqn:Et; [|by apply (adds_ret _ (calm E))].
  destruct (jt_requires_approval tool) eqn:Ea; [by apply (adds_ret _ (calm E))|].
  destruct (get_context _ _) as [ctx|]; [|by apply (adds_ret _ (calm E))].
  destruct (before_job_tool E job name params ctx) as [params'|]; [|by apply (adds_ret _ (calm E))].
  case_bool_decide; [by apply (adds_ret _ (calm E))|].
  destruct (is_valid (validate_tool_params (wd_validator E) params')) eqn:Ev; cbn; [|by apply (adds_ret _ (calm E))].
  apply run_tool_calm. split; [|done]. eauto.
Qed.
Lemma process_calm rc sel r : adds (process_tool_result E rc sel r) (calm E).
Proof. unfold process_tool_result. calm_step; [|calm_step]. destruct r; [calm_step|by apply adds_emit_if]. Qed.
Lemma execute_each_calm sels : adds (execute_each E job sels) (calm E).
Proof. induction sels as [|sel sels IH]; cbn; [calm_step|]. calm_step; [apply execute_tool_calm|]. by repeat calm_step. Qed.
Lemma process_all_calm rs : forall rc, adds (process_all E rc rs) (calm E).
Proof. induction rs as [|[sel r] rs IH]; intros rc; cbn; [calm_step|]. calm_step; [apply process_calm|apply IH]. Qed.
Lemma in_turn_calm sels : forall rc, adds (execute_in_turn E job rc sels) (calm E).
Proof.
  induction sels as [|sel sels IH]; intros rc; cbn; [calm_step|]. calm_step; [apply execute_tool_calm|].
  calm_step; [apply process_calm|apply IH].
Qed.

(** *** What a loop adds *)
Definition is_select (ev : Ev) : bool := match ev with WvSelect => true | _ => false end.
Definition selects (evs : list Ev) : nat := length (List.filter is_select evs).
Definition quiet (ev : Ev) : Prop :=
  tool_event E ev \/ ev = WvSelect \/ exists t, ev = WvText t /\ llm_signals_completion t = false.

(** How a loop ends: stopped, the job completed on the model's word, the job
    stuck; or an error, or the timeout. *)
Inductive ending : bool -> list Ev -> Prop :=
| end_stopped : ending true [WvStopped]
| end_completed t b : llm_signals_completion t = true -> ending true [WvText t; WvStatus Completed COMPLETED_REASON b]
| end_stuck why b : ending true [WvStatus Stuck why b]
| end_error : ending false []
| end_refused t : llm_signals_completion t = true -> ending false [WvText t].
Definition finished {A} (r : Step A) : bool := match r with Val _ _ => true | _ => false end.
Definition loop_adds (n : nat) {A} (r : Step A) (evs : list Ev) : Prop :=
  exists body tail, evs = body ++ tail /\ Forall quiet body /\ (selects body <= n)%nat /\ ending (finished r) tail.

(** An iteration either goes on, with only quiet events, or ends. *)
Definition turn_adds (n : nat) {A} (r : Step (option A)) (evs : list Ev) : Prop :=
  match r with
  | Val _ (Some _) => Forall quiet evs /\ (selects evs <= n)%nat
  | _ => loop_adds n r evs
  end.

Lemma calm_quiet evs : Forall (tool_event E) evs -> Forall quiet evs /\ selects evs = 0%nat.
Proof.
  intros H. split; [eapply Forall_impl; [exact H|]; by left|].
  induction H as [|ev evs Hev _ IH]; [done|]. unfold selects in *. cbn. destruct ev; done.
Qed.
Lemma selects_app e1 e2 : selects (e1 ++ e2) = (selects e1 + selects e2)%nat.
Proof. unfold selects. by rewrite List.filter_app, length_app. Qed.

Lemma loop_adds_before n n1 {A} (r : Step A) e1 e2 :
  Forall quiet e1 -> (selects e1 <= n1)%nat -> loop_adds n r e2 -> loop_adds (n1 + n) r (e1 ++ e2).
Proof.
  intros H1 Hs (body & tail & -> & Hb & Hn & He). exists (e1 ++ body), tail.
  rewrite app_assoc, selects_app. split_and!; [done|by apply Forall_app|lia|done].
Qed.
Lemma loop_adds_error n {A} (r : Step A) evs : Forall quiet evs -> (selects evs <= n)%nat -> finished r = false -> loop_adds n r evs.
Proof. intros H Hs Hr. exists evs, []. rewrite app_nil_r, Hr. split_and!; try done. constructor. Qed.

Definition mild (n : nat) {A} (r : Step A) (evs : list Ev) : Prop := Forall quiet evs /\ (selects evs <= n)%nat.
Lemma calm_mild {A} (m : @M W Decimal A) : adds m (calm E) -> adds m (mild 0).
Proof. intros H. eapply adds_weaken; [exact H|]. intros r evs [Hc _]. destruct (calm_quiet evs Hc). split; [done|lia]. Qed.

Lemma mild_then_loop n1 n2 {A B} (m : @M W Decimal A) (k : A -> @M W Decimal B) :
  adds m (mild n1) -> (forall a, adds (k a) (loop_adds n2)) -> adds (bind m k) (loop_adds (n1 + n2)).
Proof.
  intros Hm Hk. eapply adds_bind; [exact Hm| | |].
  - intros e evs [H1 H2]. apply loop_adds_error; [done|lia|done].
  - intros evs [H1 H2]. apply loop_adds_error; [done|lia|done].
  - intros a e1 [H1 H2]. eapply adds_weaken; [apply Hk|]. intros r e2 H. by apply loop_adds_before.
Qed.
Lemma turn_then_loop n1 n2 {A} (m : @M W Decimal (option A)) (k : option A -> @M W Decimal unit) :
  adds m (turn_adds n1) -> k None = ret tt -> (forall a, adds (k (Some a)) (loop_adds n2)) ->
  adds (bind m k) (loop_adds (n1 + n2)).
Proof.
  intros Hm Hn Hk. eapply adds_bind; [exact Hm| | |].
  - intros e evs (body & tail & -> & H1 & H2 & H3). exists body, tail. split_and!; [done|done|lia|done].
  - intros evs (body & tail & -> & H1 & H2 & H3). exists body, tail. split_and!; [done|done|lia|done].
  - intros [a|] e1.
    + intros [H1 H2]. eapply adds_weaken; [apply Hk|]. intros r e2 H. by apply loop_adds_before.
    + intros (body & tail & -> & H1 & H2 & H3). rewrite Hn. apply adds_ret. rewrite app_nil_r.
      exists body, tail. split_and!; [done|done|lia|done].
Qed.
Lemma mild_then_turn n1 n2 {A B} (m : @M W Decimal A) (k : A -> @M W Decimal (option B)) :
  adds m (mild n1) -> (forall a, adds (k a) (turn_adds n2)) -> adds (bind m k) (turn_adds (n1 + n2)).
Proof.
  intros Hm Hk. eapply adds_bind; [exact Hm| | |].
  - intros e evs [H1 H2]. apply loop_adds_error; [done|lia|done].
  - intros evs [H1 H2]. apply loop_adds_error; [done|lia|done].
  - intros a e1 [H1 H2]. eapply adds_weaken; [apply Hk|]. intros r e2 H.
    destruct r as [[b|]|e|]; [|by apply loop_adds_before..]. destruct H as [H3 H4]. cbn. rewrite selects_app.
    split; [by apply Forall_app|lia].
Qed.
Lemma turn_some n {A B} (m : @M W Decimal A) (f : A -> B) : adds m (mild n) -> adds (bind m (fun a => ret (Some (f a)))) (turn_adds n).
Proof. intros Hm. rewrite <- (Nat.add_0_r n). apply mild_then_turn; [done|]. intros a. by apply adds_ret. Qed.
Lemma mild_weaken {A} n n' (m : @M W Decimal A) : (n <= n')%nat -> adds m (mild n) -> adds m (mild n').
Proof. intros Hn H. eapply adds_weaken; [exact H|]. intros r evs [H1 H2]. split; [done|lia]. Qed.

Lemma refresh_mild rc : adds (@refresh_tools W Decimal E rc) (mild 0).
Proof. apply calm_mild. unfold refresh_tools. by repeat calm_step. Qed.
Lemma think_mild {A} f : adds (@think W Decimal E A f) (mild 0).
Proof. apply calm_mild. unfold think. calm_step. Qed.
Lemma ask_model_mild {A} f : adds (@ask_model W Decimal E A f) (mild 0).
Proof.
  unfold ask_model. eapply adds_bind; [apply think_mild|done..|]. intros r e1 [H1 H2].
  destruct r; [apply adds_ret|apply adds_fail]; by rewrite app_nil_r.
Qed.

Lemma finish_with_adds s reason f :
  adds (finish_with E job s reason f)
    (fun r evs => evs = if finished r then [WvStatus s reason (wd_has_store E)] else []).
Proof.
  unfold finish_with. eapply adds_bind; [apply adds_reading with (Q := fun r evs => finished r = true /\ evs = []); by split|
    by intros e evs [? ->]|by intros evs [? ->]|].
  intros now e1 [_ ->]. eapply adds_bind;
    [apply adds_context with (Q := fun r evs => finished r = true /\ evs = []); by split|
     by intros e evs [? ->]|by intros evs [? ->]|].
  intros r e1 [_ ->]. destruct r as [[[]|]|]; [by apply adds_emit|by apply adds_fail..].
Qed.

Lemma stuck_adds n reason : adds (mark_job_stuck E job reason) (loop_adds n).
Proof.
  eapply adds_weaken; [apply finish_with_adds|]. intros r evs ->. exists [], (if finished r then [WvStatus Stuck reason (wd_has_store E)] else []).
  split_and!; [done|done|cbn; lia|]. destruct (finished r); constructor.
Qed.
(** The answer of the model is heard, and completes the job. *)
Lemma heard_completion n t {B} (k : unit -> @M W Decimal B) (b : B) : llm_signals_completion t = true -> k tt = ret b ->
  adds (bind (emit (WvText t)) (fun _ => bind (mark_completed E job) k))
    (fun r evs => loop_adds n r evs /\ forall x, r = Val _ x -> x = b).
Proof.
  intros Ht Hk. eapply adds_bind; [by apply adds_emit with (Q := fun r evs => finished r = true /\ evs = [WvText t])|
    by intros e evs []|by intros evs []|]. intros [] e1 [_ ->].
  eapply adds_bind; [apply finish_with_adds| | |].
  - intros e evs ->. split; [|done]. exists [], [WvText t]. split_and!; [done|done|cbn; lia|by constructor].
  - intros evs ->. split; [|done]. exists [], [WvText t]. split_and!; [done|done|cbn; lia|by constructor].
  - intros [] e2 ->. rewrite Hk. apply adds_ret. split; [|by intros x [= <-]].
    exists [], [WvText t; WvStatus Completed COMPLETED_REASON (wd_has_store E)].
    split_and!; [done|done|cbn; lia|by constructor].
Qed.
Lemma heard_other t : llm_signals_completion t = false -> adds (@emit W Decimal (WvText t)) (mild 0).
Proof. intros H. apply adds_emit. split; [|done]. constructor; [|done]. right. right. eauto. Qed.

Lemma text_answer_adds i rc t : adds (text_answer E job i rc t) (turn_adds 0).
Proof.
  unfold text_answer. destruct (llm_signals_completion t) eqn:Et.
  - eapply adds_weaken; [by apply (heard_completion 0 t (fun _ => ret None) None)|].
    intros r evs [H Hx]. destruct r as [[x|]|e|]; [|exact H..]. discriminate (Hx _ eq_refl).
  - rewrite <- (Nat.add_0_r 0). apply mild_then_turn; [by apply heard_other|]. intros _. by apply adds_ret.
Qed.
Lemma iterate_adds i rc : adds (iterate E job i rc) (turn_adds 1).
Proof.
  unfold iterate. apply (mild_then_turn 0 1); [apply refresh_mild|]. intros rc'.
  apply (mild_then_turn 1 0); [apply adds_emit; split; [constructor; [by right; left|done]|cbn; lia]|].
  intros _. apply (mild_then_turn 0 0); [apply ask_model_mild|]. intros [|sel [|sel2 sels]].
  - apply (mild_then_turn 0 0); [apply ask_model_mild|]. intros o.
    destruct (rr_result o) as [t|calls content]; [apply text_answer_adds|].
    apply turn_some, calm_mild, in_turn_calm.
  - apply (mild_then_turn 0 0); [apply calm_mild, execute_tool_calm|]. intros r.
    apply turn_some, calm_mild, process_calm.
  - apply turn_some, calm_mild. unfold execute_tools_parallel. calm_step; [apply execute_each_calm|apply process_all_calm].
Qed.

Definition silent {A} (r : Step A) (evs : list Ev) : Prop := finished r = true /\ evs = [].
Lemma silent_bind {A B} (m : @M W Decimal A) (k : A -> @M W Decimal B) Q :
  adds m silent -> (forall a, adds (k a) Q) -> adds (bind m k) Q.
Proof.
  intros Hm Hk. eapply adds_bind; [exact Hm|by intros e evs []|by intros evs []|]. intros a e1 [_ ->]. apply Hk.
Qed.
Definition stop_adds (r : Step bool) (evs : list Ev) : Prop :=
  match r with Val _ true => evs = [WvStopped] | Val _ false => evs = [] | _ => False end.
Lemma stopped_adds : adds (bind (@emit W Decimal WvStopped) (fun _ => ret true)) stop_adds.
Proof. intros st. by exists [WvStopped]. Qed.
Lemma should_stop_adds : adds (@should_stop W Decimal job) stop_adds.
Proof.
  assert (adds (bind (@job_context W Decimal job) (fun ctx =>
    if match ctx with Ok c => bool_decide (state c = Cancelled) | Err _ => false end
    then bind (emit WvStopped) (fun _ => ret true) else ret false)) stop_adds) as H.
  { apply silent_bind; [by apply adds_reading|]. intros ctx.
    destruct (match ctx with Ok c => _ | Err _ => _ end); [apply stopped_adds|by apply adds_ret]. }
  unfold should_stop. apply silent_bind; [by apply adds_try_recv|]. intros [[]|]; auto using stopped_adds.
Qed.

Lemma direct_loop_adds n i rc : adds (direct_loop E job n i rc) (loop_adds n).
Proof.
  revert i rc. induction n as [|n IH]; intros i rc; cbn [direct_loop].
  all: eapply adds_bind; [apply should_stop_adds|by intros e evs|by intros evs|intros [] e1 ->].
  1, 3: apply adds_ret; exists [], [WvStopped]; split_and!; [done|done|cbn; lia|constructor].
  - apply stuck_adds.
  - apply (turn_then_loop 1 n); [apply iterate_adds|done|]. intros rc'.
    apply (mild_then_loop 0 n); [apply calm_mild; calm_step|]. intros _. apply IH.
Qed.
Lemma plan_loop_adds acts : forall i rc, adds (plan_loop E job i acts rc) (turn_adds 0).
Proof.
  induction acts as [|a acts IH]; intros i rc; cbn [plan_loop]; [by apply adds_ret|].
  apply (mild_then_turn 0 0); [apply calm_mild; calm_step|]. intros msg.
  assert (adds (bind (execute_tool E job (pa_tool_name a) (pa_parameters a)) (fun r =>
    bind (process_tool_result E rc (planned_selection E job i a) r) (fun rc =>
    bind (await E (fun sh => (tt, sh))) (fun _ => plan_loop E job (S i) acts rc)))) (turn_adds 0)) as H.
  { apply (mild_then_turn 0 0); [apply calm_mild, execute_tool_calm|]. intros r.
    apply (mild_then_turn 0 0); [apply calm_mild, process_calm|]. intros rc'.
    apply (mild_then_turn 0 0); [apply calm_mild; calm_step|]. intros _. apply IH. }
  destruct msg as [[]|]; try exact H.
  eapply adds_bind; [apply adds_emit with (Q := fun r evs => finished r = true /\ evs = [WvStopped]); done|by intros e evs []|by intros evs []|].
  intros _ e1 [_ ->]. apply adds_ret. exists [], [WvStopped]. split_and!; [done|done|cbn; lia|constructor].
Qed.
Lemma execute_plan_adds rc pl : adds (execute_plan E job rc pl) (loop_adds 0).
Proof.
  unfold execute_plan. apply (turn_then_loop 0 0); [apply plan_loop_adds|done|]. intros rc'.
  apply (mild_then_loop 0 0); [apply ask_model_mild|]. intros t.
  destruct (llm_signals_completion t) eqn:Et.
  - eapply adds_weaken with (Q := fun r evs => loop_adds 0 r evs /\ forall x, r = Val _ x -> x = tt); [|by intros r evs []].
    intros st. destruct (heard_completion 0 t (fun _ => ret tt) tt Et eq_refl st) as (evs & H1 & H2). exists evs. revert H1 H2.
    unfold bind. destruct (emit (WvText t) st) as [[]]; [|done..].
    by destruct (mark_completed E job _) as [[[]|e|] st'].
  - apply (mild_then_loop 0 0); [by apply heard_other|]. intros _. apply stuck_adds.
Qed.
Lemma execution_loop_adds rc : adds (execution_loop E job rc) (loop_adds MAX_WORKER_ITERATIONS).
Proof.
  unfold execution_loop. apply (mild_then_loop 0); [apply refresh_mild|]. intros rc'.
  destruct (wd_use_planning E); [|apply direct_loop_adds].
  apply (mild_then_loop 0); [apply think_mild|]. intros [pl|e]; [|apply direct_loop_adds].
  eapply adds_weaken; [apply execute_plan_adds|]. intros r evs (body & tail & H1 & H2 & H3 & H4).
  exists body, tail. split_and!; try done. lia.
Qed.

(** *** The whole run *)
Inductive run_ending : bool -> list Ev -> Prop :=
| re_loop b tail : ending b tail -> run_ending b tail
| re_marked s why b : s = Failed \/ s = Stuck -> run_ending true [WvStatus s why b]
| re_heard_marked t s why b : s = Failed \/ s = Stuck -> run_ending true [WvText t; WvStatus s why b]
| re_heard t : run_ending false [WvText t].
Definition run_adds {A} (r : Step A) (evs : list Ev) : Prop :=
  exists body tail, evs = body ++ tail /\ Forall quiet body /\ (selects body <= MAX_WORKER_ITERATIONS)%nat
    /\ run_ending (finished r) tail.

Lemma marked_after n {A} (r0 : Step A) (m : @M W Decimal unit) e1 s why :
  loop_adds n r0 e1 -> finished r0 = false -> (n <= MAX_WORKER_ITERATIONS)%nat -> s = Failed \/ s = Stuck ->
  adds m (fun r evs => evs = if finished r then [WvStatus s why (wd_has_store E)] else []) ->
  adds m (fun r e2 => run_adds r (e1 ++ e2)).
Proof.
  intros (body & tail & -> & Hb & Hn & Ht) Hr Hle Hs Hm. rewrite Hr in Ht.
  eapply adds_weaken; [exact Hm|]. intros r evs ->. exists body. inv Ht.
  - exists (if finished r then [WvStatus s why (wd_has_store E)] else []). rewrite app_nil_r.
    split_and!; [done|done|lia|]. destruct (finished r); [by apply re_marked|apply re_loop; constructor].
  - exists (WvText t :: if finished r then [WvStatus s why (wd_has_store E)] else []). rewrite <- app_assoc.
    split_and!; [done|done|lia|]. destruct (finished r); [by apply re_heard_marked|apply re_heard].
Qed.

Lemma run_worker_adds first : adds (run_worker E job first) run_adds.
Proof.
  unfold run_worker.
  assert (adds (@emit W Decimal WvStopped) run_adds) as Hstop.
  { apply adds_emit. exists [], [WvStopped]. split_and!; [done|done|cbn; lia|apply re_loop; constructor]. }
  assert (adds (bind (@job_context W Decimal job) (fun ctx =>
      match ctx with
      | Err e => failwith (WJob e)
      | Ok c => fun st =>
          match execution_loop E job (initial_context c) st with
          | (Val _ _, st) => (Val _ tt, st)
          | (Fails _ e, st) => mark_failed E job (wd_display E e) st
          | (Expired _, st) => mark_job_stuck E job "Execution timeout" st
          end
      end)) run_adds) as H.
  { apply silent_bind; [by apply adds_reading|]. intros [c|e].
    - intros st. destruct (execution_loop_adds (initial_context c) st) as (e1 & Hl & H1).
      destruct (execution_loop E job (initial_context c) st) as [[[]|e|] st1]; cbn in Hl, H1.
      + exists e1. split; [done|]. destruct H1 as (body & tail & -> & Hb & Hn & Ht).
        exists body, tail. split_and!; [done|done|done|by apply re_loop].
      + destruct (marked_after _ _ _ e1 Failed (wd_display E e) H1 eq_refl (Nat.le_refl _) (or_introl eq_refl)
          (finish_with_adds Failed (wd_display E e) (fun now c => transition_to c Failed (Some (wd_display E e)) now now)) st1) as (e2 & H2 & H3).
        exists (e1 ++ e2). unfold mark_failed. by rewrite H2, Hl, app_assoc.
      + destruct (marked_after _ _ _ e1 Stuck "Execution timeout"%string H1 eq_refl (Nat.le_refl _) (or_intror eq_refl)
          (finish_with_adds Stuck "Execution timeout"%string (fun now c => mark_stuck c "Execution timeout" now now)) st1) as (e2 & H2 & H3).
        exists (e1 ++ e2). unfold mark_job_stuck. by rewrite H2, Hl, app_assoc.
    - apply adds_fail. exists [], []. split_and!; [done|done|cbn; lia|apply re_loop; constructor]. }
  destruct first as [[]|]; [exact H|exact Hstop|exact H|exact Hstop].
Qed.

Lemma quiet_no_status body i s why b : Forall quiet body -> body !! i = Some (WvStatus s why b) -> False.
Proof.
  intros H Hi. rewrite Forall_lookup in H. destruct (H _ _ Hi) as [[]|[[=]|(t & [=] & _)]].
Qed.
Lemma quiet_exec body i name params : Forall quiet body -> body !! i = Some (WvExec name params) -> allowed E name params.
Proof.
  intros H Hi. rewrite Forall_lookup in H. by destruct (H _ _ Hi) as [Ha|[[=]|(t & [=] & _)]].
Qed.

(** ** Properties *)

(** C6. A worker comes to an end.  It asks the model to select tools at most 50
    times, and when it returns without an error the last thing it did was
    either to notice a stop or to give the job its end: completed, stuck or
    failed.  It gives the job a state at most once. *)
Theorem worker_ends (first : option WorkerMessage) (st : WState) :
  exists evs, w_log (snd (run_worker E job first st)) = w_log st ++ evs
    /\ (selects evs <= MAX_WORKER_ITERATIONS)%nat
    /\ (fst (run_worker E job first st) = Val _ tt ->
        exists ev, last evs = Some ev /\ (ev = WvStopped \/ exists s why b, ev = WvStatus s why b /\ s ∈ [Completed; Stuck; Failed]))
    /\ forall i s why b, evs !! i = Some (WvStatus s why b) -> S i = length evs.
Proof.
  destruct (run_worker_adds first st) as (evs & Hl & body & tail & -> & Hb & Hn & Ht).
  exists (body ++ tail). split; [done|]. rewrite selects_app.
  split; [|split].
  - inv Ht; [inv H|..]; cbn; lia.
  - intros Hr. rewrite Hr in Ht. cbn in Ht. inv Ht; [inv H|..]; rewrite last_app; cbn; eexists; (split; [done|]);
      try (by left); right; do 3 eexists; (split; [done|]); set_solver.
  - intros i s why b [Hi|[Hlen Hi]]%lookup_app_Some; [by edestruct quiet_no_status|]. rewrite length_app.
    assert (S (i - length body) = length tail) as H; [|lia].
    inv Ht; [inv H|..]; destruct (i - length body)%nat as [|[|k]]; by cbn in Hi |- *.
Qed.

(** In a job no tool that requires an approval is ever executed, nor one whose
    arguments the validator rejects: every execution was of a tool found in
    the registry that needs no approval. *)
Theorem job_tools_need_no_approval (first : option WorkerMessage) (st : WState) :
  exists evs, w_log (snd (run_worker E job first st)) = w_log st ++ evs
    /\ forall i name params, evs !! i = Some (WvExec name params) -> allowed E name params.
Proof.
  destruct (run_worker_adds first st) as (evs & Hl & body & tail & -> & Hb & Hn & Ht).
  exists (body ++ tail). split; [done|]. intros i name params [Hi|[Hlen Hi]]%lookup_app_Some; [by eapply quiet_exec|].
  inv Ht; [inv H|..]; destruct (i - length body)%nat as [|[|k]]; by cbn in Hi.
Qed.

(** Only the model's own words complete a job.  The worker marks the job
    completed only right after an answer of the model that signals completion;
    no output of a tool can bring it about. *)
Theorem completion_is_the_models_word (first : option WorkerMessage) (st : WState) :
  exists evs, w_log (snd (run_worker E job first st)) = w_log st ++ evs
    /\ forall i why b, evs !! i = Some (WvStatus Completed why b) ->
       exists j t, i = S j /\ evs !! j = Some (WvText t) /\ llm_signals_completion t = true.
Proof.
  destruct (run_worker_adds first st) as (evs & Hl & body & tail & -> & Hb & Hn & Ht).
  exists (body ++ tail). split; [done|]. intros i why b [Hi|[Hlen Hi]]%lookup_app_Some; [by edestruct quiet_no_status|].
  assert (exists t b', tail = [WvText t; WvStatus Completed COMPLETED_REASON b'] /\ llm_signals_completion t = true /\ (i - length body = 1)%nat)
    as (t & b' & -> & Hs & Hi1).
  { inv Ht; [inv H|..]; destruct (i - length body)%nat as [|[|k]]; cbn in Hi; simplify_eq; eauto; naive_solver. }
  exists (length body), t. split; [lia|]. split; [|done]. by rewrite lookup_app_r, Nat.sub_diag by lia.
Qed.

(** The checks before a call, in the order of the source. *)
Definition admitted (name : string) (params : Json) (sh : @WShared W Decimal) : option (@JobTool W Decimal * Json * JobContext Decimal Json) :=
  match wd_get_tool E name (ws_world sh), get_context (ws_mgr sh) job with
  | Some tool, Ok ctx =>
      if jt_requires_approval tool then None
      else match before_job_tool E job name params ctx with
           | Ok p => if bool_decide (state ctx = Cancelled) || negb (is_valid (validate_tool_params (wd_validator E) p))
                     then None else Some (tool, p, ctx)
           | Err _ => None
           end
  | _, _ => None
  end.

Lemma execute_tool_cases name params st :
  match admitted name params (w_sh st) with
  | None => exists e, execute_tool E job name params st = (Val _ (Err e), st)
  | Some (tool, p, ctx) => execute_tool E job name params st = run_tool E job name tool p ctx st
  end.
Proof.
  unfold admitted, execute_tool, job_context, bind, reading. cbn beta iota.
  destruct (wd_get_tool E name (ws_world (w_sh st))) as [tool|]; [|by eexists].
  destruct (jt_requires_approval tool). { destruct (get_context _ _); by eexists. }
  cbn beta iota. destruct (get_context (ws_mgr (w_sh st)) job) as [ctx|e]; [|by eexists].
  destruct (before_job_tool E job name params ctx) as [p|e]; [|by eexists].
  case_bool_decide; cbn [orb]; [by eexists|].
  by destruct (is_valid (validate_tool_params (wd_validator E) p)); cbn [negb]; [|by eexists].
Qed.

(** A call that is not admitted (an unknown tool, one that needs an approval,
    a job without a context or cancelled, a hook that refuses or fails,
    arguments that are not valid) is answered with an error; it executes
    nothing, records nothing and changes nothing.  An admitted call executes
    the tool once, with the arguments the hooks left; when the timeout of the
    job passes meanwhile nothing is recorded, otherwise the answer is the
    tool's. *)
Theorem execute_tool_spec (name : string) (params : Json) (st : WState) :
  match admitted name params (w_sh st) with
  | None => exists e, execute_tool E job name params st = (Val _ (Err e), st)
  | Some (tool, p, ctx) =>
      let '(r, sh) := jt_execute tool p ctx (w_sh st) in
      if wd_expired E (ws_world sh)
      then execute_tool E job name params st = (Expired _, mkWState sh (w_log st ++ [WvExec name p]))
      else exists sh' evs, execute_tool E job name params st = (Val _ (tool_outcome E name tool r), mkWState sh' (w_log st ++ WvExec name p :: evs))
           /\ ws_world sh' = ws_world sh /\ ws_rx sh' = ws_rx sh /\ contexts (ws_mgr sh') = contexts (ws_mgr sh)
  end.
Proof.
  pose proof (execute_tool_cases name params st) as H. destruct (admitted name params (w_sh st)) as [[[tool p] ctx]|]; [|done].
  rewrite H. clear H. unfold run_tool, clock_now, emit_if, bind, reading, emit, await, with_memory, ret.
  cbn [w_sh w_log ws_world ws_mgr ws_rx].
  destruct (jt_execute tool p ctx (w_sh st)) as [r sh]. destruct (wd_expired E (ws_world sh)); [done|].
  cbn [w_sh w_log ws_world ws_mgr ws_rx].
  match goal with |- context[update_memory ?m ?j ?f] =>
    pose proof (update_memory_contexts m j f) as Hm; destruct (update_memory m j f) as [[a|e] m'] end;
    cbn in Hm; [destruct (wd_has_store E); [eexists _, [WvAction a]|eexists _, []]|eexists _, []];
    cbn [w_sh w_log]; rewrite <- ?app_assoc; cbn [app]; (split; [reflexivity|]); cbn; split_and!; done || apply Hm.
Qed.

(** Each execution adds exactly one action to the memory of the job, numbered
    in sequence, and the same action is written to the database.  Of a
    successful call the field [output_raw] gets the sanitized text, and
    [output_sanitized] the output as the tool returned it. *)
Theorem executed_call_recorded (name : string) (params : Json) (st : WState) tool p ctx r sh mem
  (Ha : admitted name params (w_sh st) = Some (tool, p, ctx)) (Hr : jt_execute tool p ctx (w_sh st) = (r, sh))
  (Hx : wd_expired E (ws_world sh) = false) (Hm : memories (ws_mgr sh) !! job = Some mem) :
  exists a mem' m', execute_tool E job name params st
      = (Val _ (tool_outcome E name tool r),
         mkWState (mkWShared (ws_world sh) m' (ws_rx sh)) (w_log st ++ WvExec name p :: if wd_has_store E then [WvAction a] else []))
    /\ memories m' = <[job := mem']> (memories (ws_mgr sh))
    /\ JobMemory.actions mem' = JobMemory.actions mem ++ [a] /\ next_sequence mem' = wrapping_add 32 (next_sequence mem) 1
    /\ sequence a = next_sequence mem /\ JobMemory.tool_name a = name /\ input a = p
    /\ success a = match r with Some (Ok _) => true | _ => false end
    /\ forall v s, r = Some (Ok v) -> wd_to_string_pretty E v = Ok s ->
         output_raw a = Some (fst (wd_sanitize E name s)) /\ output_sanitized a = Some v.
Proof.
  pose proof (execute_tool_cases name params st) as H. rewrite Ha in H. rewrite H. clear H Ha.
  unfold run_tool, clock_now, emit_if, bind, reading, emit, await, with_memory, ret. cbn [w_sh w_log ws_world ws_mgr ws_rx].
  rewrite Hr, Hx. cbn [w_sh w_log ws_world ws_mgr ws_rx]. unfold update_memory. rewrite Hm. unfold action_of, create_action. cbn [next_sequence].
  set (id := wd_fresh_uuid E _). set (now := wd_clock E _). set (el := _ - _).
  destruct r as [[v|e]|]; destruct (wd_has_store E); do 3 eexists; cbn [w_sh w_log]; rewrite <- ?app_assoc; cbn [app];
    (split; [reflexivity|]); cbn; split_and!; try done; intros v' s [= <-] ->; done.
Qed.

(** A created plan replaces the direct selection of tools: whatever comes of
    it, the model is never asked to select a tool, and a plan that leaves work
    to do ends with the job stuck. *)
Theorem plan_never_falls_back (rc rc1 : ReasoningContext) (pl : ActionPlan) (st st1 st2 : WState)
  (Hplan : wd_use_planning E = true) (Hrefresh : @refresh_tools W Decimal E rc st = (Val _ rc1, st1))
  (Hthink : think E (plan (wd_plan_from_str E) rc1) st1 = (Val _ (Ok pl), st2)) :
  exists evs, w_log (snd (execution_loop E job rc st)) = w_log st2 ++ evs /\ selects evs = 0%nat
    /\ (fst (execution_loop E job rc st) = Val _ tt ->
        exists ev, last evs = Some ev /\ (ev = WvStopped \/ exists s why b, ev = WvStatus s why b /\ s ∈ [Completed; Stuck])).
Proof.
  unfold execution_loop, bind. rewrite Hrefresh, Hplan, Hthink.
  destruct (execute_plan_adds (with_message (msg_assistant (plan_message pl)) rc1) pl st2) as (evs & Hl & body & tail & -> & Hb & Hn & Ht).
  exists (body ++ tail). split; [done|]. rewrite selects_app. split; [inv Ht; cbn; lia|].
  intros Hr. rewrite Hr in Ht. cbn in Ht. inv Ht; rewrite last_app; cbn; eexists; (split; [done|]);
    try (by left); right; do 3 eexists; (split; [done|]); set_solver.
Qed.

Definition unannounced (m : ChatMessage Json) : Prop := Llm.tool_calls m = None.
Lemma process_val rc sel r st x st' : process_tool_result E rc sel r st = (Val _ x, st') -> x = with_message (result_message E sel r) rc.
Proof. unfold process_tool_result, emit_if, bind, emit, ret. destruct r, (wd_has_store E); by intros [= <- _]. Qed.
Lemma process_all_val rs : forall rc st x st', process_all E rc rs st = (Val _ x, st') ->
  rc_messages x = rc_messages rc ++ map (fun '(sel, r) => result_message E sel r) rs.
Proof.
  induction rs as [|[sel r] rs IH]; intros rc st x st'; cbn; [intros [= <- _]; by rewrite app_nil_r|].
  unfold bind. destruct (process_tool_result E rc sel r st) as [[rc'|e|] st1] eqn:Ep; try done.
  apply process_val in Ep as ->. intros H. apply IH in H. rewrite H. cbn. by rewrite <- app_assoc.
Qed.
Lemma execute_each_val sels : forall st rs st', execute_each E job sels st = (Val _ rs, st') -> map fst rs = sels.
Proof.
  induction sels as [|sel sels IH]; intros st rs st'; cbn; [by intros [= <- _]|]. unfold bind.
  destruct (execute_tool E job _ _ st) as [[r|e|] st1]; try done.
  destruct (execute_each E job sels st1) as [[rs'|e|] st2] eqn:Er; try done. intros [= <- _]. cbn. by rewrite (IH _ _ _ Er).
Qed.

(** The tools the model selects are executed and their results are added to
    the conversation as tool messages, one for each selection and in its
    order; but the assistant message that announces the calls is not.  A
    conversation without announced calls stays one, with answers to calls
    nobody made. *)
Theorem selected_results_unannounced (i : nat) (rc rc1 rc' : ReasoningContext) (sels : list ToolSelection) (st st1 st2 st3 : WState)
  (Hrefresh : @refresh_tools W Decimal E rc st = (Val _ rc1, st1))
  (Hask : ask_model E (select_tools rc1) (mkWState (w_sh st1) (w_log st1 ++ [WvSelect])) = (Val _ sels, st2)) (Hne : sels <> [])
  (Hit : iterate E job i rc st = (Val _ (Some rc'), st3)) :
  (exists rs, map fst rs = sels /\ rc_messages rc' = rc_messages rc ++ map (fun '(sel, r) => result_message E sel r) rs)
  /\ (Forall unannounced (rc_messages rc) -> Forall unannounced (rc_messages rc')).
Proof.
  assert (rc_messages rc1 = rc_messages rc) as Hrc.
  { revert Hrefresh. unfold refresh_tools, bind, reading, ret. by intros [= <- _]. }
  assert (exists rs, map fst rs = sels /\ rc_messages rc' = rc_messages rc ++ map (fun '(sel, r) => result_message E sel r) rs) as (rs & Hrs & Hm).
  { revert Hit. unfold iterate, bind at 1. rewrite Hrefresh. unfold bind at 1, emit at 1. cbn [w_sh w_log].
    unfold bind at 1. rewrite Hask. destruct sels as [|sel [|sel2 sels]]; [done|..].
    - unfold bind. destruct (execute_tool E job _ _ st2) as [[r|e|] st4]; try done.
      destruct (process_tool_result E rc1 sel r st4) as [[x|e|] st5] eqn:Ep; try done. intros [= <- _].
      apply process_val in Ep as ->. exists [(sel, r)]. split; [done|]. cbn. by rewrite Hrc.
    - unfold execute_tools_parallel, bind at 1, bind at 1. destruct (execute_each E job _ st2) as [[rs|e|] st4] eqn:Ee; try done.
      destruct (process_all E rc1 rs st4) as [[x|e|] st5] eqn:Ep; try done. intros [= <- _].
      exists rs. rewrite (process_all_val _ _ _ _ _ Ep), Hrc. split; [|done]. by eapply execute_each_val. }
  split; [by exists rs|]. intros H. rewrite Hm. apply Forall_app. split; [done|]. apply Forall_map, Forall_true.
  by intros [sel [s|e]].
Qed.
End Loops.

(** *** A job in a small world

    The world counts the calls of the model: first it selects the tool
    [echo], then it says that the job is done. *)
Module Demo.
Definition WS := @WShared nat Z.
Definition bump (sh : WS) : WS := mkWShared (S (ws_world sh)) (ws_mgr sh) (ws_rx sh).
Definition echo_call : TCall := mkToolCall _ "call_1" "echo" (JObject [("text"%string, JString "hi")]).
Definition provider : LlmProvider Json Z WS := {|
  model_name := fun _ => "demo"%string; cost_per_token := fun _ => (0, 0);
  complete := fun _ p t => (Ok (mkResponse "The job is complete." 1 1 Stop None), bump p, t);
  complete_with_tools := fun _ p t =>
    (Ok (mkToolResponse _ (Some "The job is complete."%string) (if (ws_world p =? 0)%nat then [echo_call] else []) 1 1 Stop None), bump p, t);
  list_models := default_list_models; model_metadata := default_model_metadata (fun _ => "demo"%string);
  active_model_name := fun _ => "demo"%string; set_model := default_set_model;
  seed_response_chain := default_seed_response_chain; get_response_chain_id := default_get_response_chain_id;
  calculate_cost := default_calculate_cost (fun _ => (0, 0));
|}.
Definition echo : @JobTool nat Z := mkJobTool false (from_secs 60) (fun params _ sh => (Some (Ok params), sh)).
Definition guarded : @JobTool nat Z := mkJobTool true (from_secs 60) (fun params _ sh => (Some (Ok params), sh)).
Definition deps (planning : bool) : @WorkerDeps nat Z := {|
  wd_get_tool := fun name _ => if String.eqb name "echo" then Some echo else if String.eqb name "shell" then Some guarded else None;
  wd_tool_definitions := fun _ => [mkToolDef _ "echo" "Repeats its input" (JObject [])];
  wd_clock := fun w => Z.of_nat w; wd_fresh_uuid := fun w => N.of_nat w; wd_expired := fun w => (9 <? w)%nat;
  wd_hooks := []; wd_validator := new_validator; wd_sanitize := fun _ s => (s, false);
  wd_from_str := fun _ => None; wd_to_string := fun _ => "{}"%string; wd_to_string_pretty := fun _ => Ok "{}"%string;
  wd_plan_from_str := fun _ => Ok (mkPlan "say hi" [mkPlanned "echo" (JObject []) "because" "hi"] None None (f64_of 1));
  wd_show_duration := fun _ => "1s"%string; wd_show_uuid := fun id => pretty id; wd_display := fun _ => "error"%string;
  wd_has_store := true; wd_use_planning := planning;
|}.
Definition ctx0 : JobContext Z Json := snd (transition_to (new_context 7%N 0 JNull "Echo" "Say hi") InProgress None 0 0).
Definition state0 : @WState nat Z :=
  mkWState (mkWShared 0%nat (mkManager _ _ {[7%N := ctx0]} {[7%N := new_memory 7%N]} 5) []) [].
Definition status_events (l : list (@WEvent Z)) : list (string * string) :=
  omap (fun ev => match ev with
                  | WvExec name _ => Some ("exec"%string, name)
                  | WvStatus s why _ => Some (job_state_name s, why)
                  | WvText t => Some ("text"%string, t)
                  | _ => None
                  end) l.
End Demo.
#[export] Existing Instance Demo.provider.

(** The job of the small world: one execution, then completion. *)
Example demo_job_completes :
  fst (run_worker (Demo.deps false) 7%N (Some WStart) Demo.state0) = Val _ tt
  /\ Demo.status_events (w_log (snd (run_worker (Demo.deps false) 7%N (Some WStart) Demo.state0)))
     = [("exec", "echo"); ("text", "The job is complete."); ("completed", "Job completed successfully")]%string.
Proof. split; vm_compute; reflexivity. Qed.

Lemma executed_call_recorded_witness :
  exists a, wd_has_store (Demo.deps false) = true
    /\ w_log (snd (execute_tool (Demo.deps false) 7%N "echo" (JObject []) Demo.state0)) = [WvExec "echo" (JObject []); WvAction a]
    /\ output_sanitized a = Some (JObject []).
Proof.
  destruct (executed_call_recorded (Demo.deps false) 7%N "echo" (JObject []) Demo.state0 Demo.echo (JObject []) Demo.ctx0
      (Some (Ok (JObject []))) (w_sh Demo.state0) (new_memory 7%N)) as (a & mem & m & H & _ & _ & _ & _ & _ & _ & _ & Ho).
  1, 2, 3, 4: by vm_compute.
  exists a. split; [done|]. split; [by rewrite H|]. by apply (Ho (JObject []) "{}"%string).
Defined.
Lemma plan_never_falls_back_witness :
  let st := Demo.state0 in let rc := initial_context Demo.ctx0 in
  exists evs, w_log (snd (execution_loop (Demo.deps true) 7%N rc st)) = evs /\ selects evs = 0%nat.
Proof.
  destruct (plan_never_falls_back (Demo.deps true) 7%N (initial_context Demo.ctx0)
    (with_tools [mkToolDef _ "echo" "Repeats its input" (JObject [])]%string (initial_context Demo.ctx0))
    (mkPlan "say hi" [mkPlanned "echo" (JObject []) "because" "hi"] None None (f64_of 1)) Demo.state0 Demo.state0
    (mkWState (Demo.bump (w_sh Demo.state0)) [])) as (evs & H1 & H2 & _).
  1, 2, 3: by vm_compute.
  exists evs. split; [exact H1|done].
Defined.
Lemma selected_results_unannounced_witness :
  exists rc', fst (iterate (Demo.deps false) 7%N 1 (initial_context Demo.ctx0) Demo.state0) = Val _ (Some rc')
    /\ Forall unannounced (rc_messages rc').
Proof.
  destruct (iterate (Demo.deps false) 7%N 1 (initial_context Demo.ctx0) Demo.state0) as [[[rc'|]|e|] st3] eqn:Hit; [|by vm_compute in Hit..].
  exists rc'. split; [done|].
  refine (proj2 (selected_results_unannounced (Demo.deps false) 7%N 1 (initial_context Demo.ctx0)
    (with_tools [mkToolDef _ "echo" "Repeats its input" (JObject [])]%string (initial_context Demo.ctx0)) rc'
    [selection_of "The job is complete." Demo.echo_call] Demo.state0 Demo.state0
    (mkWState (Demo.bump (w_sh Demo.state0)) [WvSelect]) st3 _ _ _ Hit) _); [by vm_compute..|by repeat constructor].
Defined.

(** The phrases do not tell a part from the whole: an answer that reports a
    first step, or that not everything is done, also completes the job. *)
Example partial_progress_completes :
  map llm_signals_completion
    ["I have completed step 1; steps 2 to 5 are still open."; "Not all tasks complete."; "The task is not complete yet.";
     "TASK_COMPLETE"]%string = [true; true; false; false].
Proof. by vm_compute. Qed.
