(* ===== verification/SelfRepair.v ===== *)
(** Self repair: [src/agent/self_repair.rs], the loop that runs it in
    [src/agent/agent_loop.rs], and the table of tool failures it reads
    ([src/db/libsql/tool_failures.rs], [src/history/store.rs]).

    The table maps a tool name to its row.  The software builder is a
    parameter; a store that cannot be reached answers with an error. *)

From Stdlib Require Import Ascii.
From S2P Require Import Prelude Strs Llm Json JobState JobMemory ContextManager Reasoning.
#[local] Open Scope claw_scope.

Record StuckJob := mkStuckJob {
  sj_job_id : Uuid; last_activity : DateTime; stuck_duration : Duration; sj_last_error : option string; sj_repair_attempts : Z;
}.
Record BrokenTool := mkBroken {
  bt_name : string; failure_count : Z; bt_last_error : option string; first_failure : DateTime; last_failure : DateTime;
  last_build_result : option Json; bt_repair_attempts : Z;
}.
Inductive RepairResult := RSuccess (m : string) | RRetry (m : string) | RFailed (m : string) | RManualRequired (m : string).
Inductive RepairError := RepairFailed (target_type : string) (id : Uuid) (reason : string).

(** ** The table of failures *)
Record FailureRow := mkRow {
  fr_error : string; fr_count : Z; fr_first : DateTime; fr_last : DateTime; fr_build : option Json;
  fr_repaired_at : option DateTime; fr_attempts : Z;
}.
Abbreviation Failures := (gmap string FailureRow).

Definition record_tool_failure (name error : string) (now : DateTime) (t : Failures) : Failures :=
  <[name := match t !! name with
            | None => mkRow error 1 now now None None 0
            | Some r => mkRow error (fr_count r + 1) (fr_first r) now (fr_build r) (fr_repaired_at r) (fr_attempts r)
            end]> t.
Definition broken_of (name : string) (r : FailureRow) : BrokenTool :=
  mkBroken name (fr_count r) (Some (fr_error r)) (fr_first r) (fr_last r) (fr_build r) (fr_attempts r).
Definition is_broken (threshold : Z) (r : FailureRow) : bool :=
  (threshold <=? fr_count r) && match fr_repaired_at r with None => true | Some _ => false end.
(** [ORDER BY error_count DESC]. *)
Fixpoint insert_broken (b : BrokenTool) (l : list BrokenTool) : list BrokenTool :=
  match l with
  | [] => [b]
  | x :: l' => if failure_count x <? failure_count b then b :: l else x :: insert_broken b l'
  end.
Definition get_broken_tools (threshold : Z) (t : Failures) : list BrokenTool :=
  foldl (fun acc kv => insert_broken (broken_of kv.1 kv.2) acc) []
    (List.filter (fun kv => is_broken threshold kv.2) (map_to_list t)).
Definition mark_tool_repaired (name : string) (now : DateTime) (t : Failures) : Failures :=
  match t !! name with
  | None => t
  | Some r => <[name := mkRow (fr_error r) 0 (fr_first r) (fr_last r) (fr_build r) (Some now) (fr_attempts r)]> t
  end.
Definition increment_repair_attempts (name : string) (t : Failures) : Failures :=
  match t !! name with
  | None => t
  | Some r => <[name := mkRow (fr_error r) (fr_count r) (fr_first r) (fr_last r) (fr_build r) (fr_repaired_at r) (fr_attempts r + 1)]> t
  end.

Section Repair.
  Context {Decimal : Type} `{!DecimalOps Decimal}.
  Abbreviation Ctx := (JobContext Decimal Json).
  Abbreviation Mgr := (ContextManager Decimal Json).
  Implicit Types m : Mgr.
  Context (max_repair_attempts : Z) (show_uuid : Uuid -> string) (show_job_error : JobError -> string).

(** ** Stuck jobs *)
Definition stuck_job (now : DateTime) (id : Uuid) (c : Ctx) : StuckJob :=
  mkStuckJob id (default (created_at c) (started_at c))
    (match started_at c with Some start => from_secs (Z.max 0 (Z.quot (now - start) 1000000000)) | None => 0 end)
    None (repair_attempts c).
Definition detect_stuck_jobs (now : DateTime) m : list StuckJob :=
  omap (fun id => match get_context m id with
                  | Ok c => if bool_decide (state c = Stuck) then Some (stuck_job now id c) else None
                  | Err _ => None
                  end) (find_stuck_jobs m).
Definition repair_stuck_job (j : StuckJob) (t1 t2 : DateTime) m : Result RepairResult RepairError * Mgr :=
  if max_repair_attempts <=? sj_repair_attempts j
  then (Ok (RManualRequired ("Job " ++s show_uuid (sj_job_id j) ++s " has exceeded maximum repair attempts ("
                               ++s pretty max_repair_attempts ++s ")")), m)
  else
    let '(r, m) := update_context m (sj_job_id j) (fun c => attempt_recovery c t1 t2) in
    (match r with
     | Ok (Ok _) => Ok (RSuccess ("Job " ++s show_uuid (sj_job_id j) ++s " recovered and will be retried"))
     | Ok (Err e) => Ok (RRetry ("Recovery attempt failed: " ++s e))
     | Err e => Err (RepairFailed "job" (sj_job_id j) (show_job_error e))
     end, m).

(** ** Broken tools *)
Record BuildRequirement := mkRequirement {
  br_name : string; br_description : string; br_software_type : string; br_language : string; br_input_spec : option string;
  br_output_spec : option string; br_dependencies : list string; br_capabilities : list string;
}.
Record BuildOutcome := mkBuild { bo_success : bool; bo_iterations : Z; bo_registered : bool; bo_error : option string }.
Definition BROKEN_THRESHOLD : Z := 5.

(** [None]: no store; [Err]: a store that fails. *)
Definition detect_broken_tools (store : option (Result Failures string)) : list BrokenTool :=
  match store with Some (Ok t) => get_broken_tools BROKEN_THRESHOLD t | _ => [] end.

Definition repair_requirement (b : BrokenTool) : BuildRequirement :=
  mkRequirement (bt_name b)
    ("Repair broken WASM tool." ++s NL2 ++s "Tool name: " ++s bt_name b ++s NL ++s "Previous error: "
       ++s default "Unknown error"%string (bt_last_error b) ++s NL ++s "Failure count: " ++s pretty (failure_count b) ++s NL2
       ++s "Analyze the error, fix the implementation, and rebuild.")
    "wasm_tool" "rust" None None [] ["http"; "workspace"]%string.

(** The answer, the table and whether the builder was called. *)
Definition repair_broken_tool (builder : option (BuildRequirement -> Result BuildOutcome string)) (store : option Failures)
    (b : BrokenTool) (now : DateTime) : RepairResult * option Failures * bool :=
  match builder, store with
  | None, _ => (RManualRequired ("Builder not available for repairing tool '" ++s bt_name b ++s "'"), store, false)
  | Some _, None => (RManualRequired "Store not available for tracking repair", store, false)
  | Some build, Some t =>
      if max_repair_attempts <=? bt_repair_attempts b
      then (RManualRequired ("Tool '" ++s bt_name b ++s "' exceeded max repair attempts (" ++s pretty max_repair_attempts ++s ")"), store, false)
      else
        let t := increment_repair_attempts (bt_name b) t in
        match build (repair_requirement b) with
        | Ok o =>
            if bo_success o
            then (RSuccess ("Tool '" ++s bt_name b ++s "' repaired successfully after " ++s pretty (bo_iterations o) ++s " iterations"),
                  Some (mark_tool_repaired (bt_name b) now t), true)
            else (RRetry ("Repair attempt " ++s pretty (bt_repair_attempts b + 1) ++s " for '" ++s bt_name b ++s "' failed: "
                            ++s default "Unknown error"%string (bo_error o)), Some t, true)
        | Err e => (RRetry ("Repair build error: " ++s e), Some t, true)
        end
  end.

(** ** The loops: one round over the stuck jobs, and its notifications *)
Fixpoint repair_jobs (js : list StuckJob) (now : DateTime) m : list (StuckJob * Result RepairResult RepairError) * Mgr :=
  match js with
  | [] => ([], m)
  | j :: js => let '(r, m) := repair_stuck_job j now now m in
               let '(rs, m) := repair_jobs js now m in ((j, r) :: rs, m)
  end.
Definition repair_round (now : DateTime) m : list (StuckJob * Result RepairResult RepairError) * Mgr :=
  repair_jobs (detect_stuck_jobs now m) now m.
Definition notification (j : StuckJob) (r : Result RepairResult RepairError) : option string :=
  let stuck := "Job " ++s show_uuid (sj_job_id j) ++s " was stuck for " ++s pretty (stuck_duration j / 1000000000) ++s "s, " in
  match r with
  | Ok (RSuccess m) => Some ("Self-Repair: " ++s stuck ++s "recovery succeeded: " ++s m)
  | Ok (RFailed m) => Some ("Self-Repair: " ++s stuck ++s "recovery failed permanently: " ++s m)
  | Ok (RManualRequired m) => Some ("Self-Repair: Job " ++s show_uuid (sj_job_id j) ++s " needs manual intervention: " ++s m)
  | Ok (RRetry _) | Err _ => None
  end.
(** What [Agent::run] builds: neither a store nor a builder is given. *)
Definition running_broken_tools : list BrokenTool := detect_broken_tools None.

(** ** Lemmas *)
Definition recovered (now : DateTime) (c : Ctx) : Ctx := snd (attempt_recovery c now now).
(** What a round does to one job. *)
Definition after_round (now : DateTime) (c : Ctx) : Ctx :=
  if bool_decide (state c = Stuck) && (repair_attempts c <? max_repair_attempts) then recovered now c else c.

Lemma recovered_state now c : state c = Stuck -> state (recovered now c) = InProgress
  /\ repair_attempts (recovered now c) = wrapping_add 32 (repair_attempts c) 1 /\ fst (attempt_recovery c now now) = Ok tt.
Proof.
  intros Hs. unfold recovered, attempt_recovery. rewrite decide_False by tauto.
  unfold transition_to. cbn [state set_accounting]. rewrite Hs. cbn. done.
Qed.

Lemma find_stuck_spec m id : id ∈ find_stuck_jobs m <-> exists c, contexts m !! id = Some c /\ state c = Stuck.
Proof.
  unfold find_stuck_jobs, select_jobs. rewrite list_elem_of_fmap. split.
  - intros ([k c] & -> & Hin). apply elem_of_map_to_list, map_lookup_filter_Some in Hin as [H1 H2].
    exists c. split; [done|]. by apply bool_decide_eq_true in H2.
  - intros (c & H1 & H2). exists (id, c). split; [done|]. apply elem_of_map_to_list, map_lookup_filter_Some.
    split; [done|]. by apply bool_decide_eq_true.
Qed.
Lemma find_stuck_NoDup m : NoDup (find_stuck_jobs m).
Proof. apply (NoDup_fst_map_to_list (filter (fun kv : Uuid * Ctx => bool_decide (state kv.2 = Stuck) = true) (contexts m))). Qed.

Lemma detect_ids now m : map sj_job_id (detect_stuck_jobs now m) = find_stuck_jobs m.
Proof.
  unfold detect_stuck_jobs.
  assert (forall id, id ∈ find_stuck_jobs m -> exists c, contexts m !! id = Some c /\ state c = Stuck) as H
    by (intros id; apply find_stuck_spec).
  induction (find_stuck_jobs m) as [|id l IH]; [done|]. cbn [omap list_omap].
  destruct (H id ltac:(constructor)) as (c & Hc & Hs). unfold get_context. rewrite Hc. cbn [ok_or].
  rewrite bool_decide_eq_true_2 by done. cbn. f_equal. apply IH. intros i Hi. apply H. by constructor.
Qed.
Lemma detect_attempts now m j : j ∈ detect_stuck_jobs now m ->
  exists c, contexts m !! sj_job_id j = Some c /\ state c = Stuck /\ sj_repair_attempts j = repair_attempts c.
Proof.
  unfold detect_stuck_jobs. rewrite list_elem_of_omap. intros (id & Hid & Hj). unfold get_context in Hj.
  destruct (contexts m !! id) as [c|] eqn:Ec; [|done]. cbn in Hj. case_bool_decide; [|done]. injection Hj as <-. eauto.
Qed.

(** A list of different jobs, each as it was found. *)
Lemma repair_jobs_spec js now : forall m, NoDup (map sj_job_id js) ->
  (forall j, j ∈ js -> exists c, contexts m !! sj_job_id j = Some c /\ state c = Stuck /\ sj_repair_attempts j = repair_attempts c) ->
  forall id, contexts (snd (repair_jobs js now m)) !! id
    = (if bool_decide (id ∈ map sj_job_id js) then after_round now <$> contexts m !! id else contexts m !! id).
Proof.
  induction js as [|j js IH]; intros m Hnd Hj id; [done|]. cbn [repair_jobs]. cbn [map] in Hnd |- *. inv Hnd.
  destruct (Hj j ltac:(constructor)) as (c & Hc & Hs & Ha).
  assert (contexts (snd (repair_stuck_job j now now m)) = <[sj_job_id j := after_round now c]> (contexts m)) as Hm.
  { unfold repair_stuck_job, after_round. rewrite Ha, Z.leb_antisym, bool_decide_eq_true_2 by done.
    destruct (repair_attempts c <? max_repair_attempts); cbn [negb andb]; [|by rewrite insert_id].
    unfold update_context. rewrite Hc. pose proof (recovered_state now c Hs) as (_ & _ & Hok). unfold recovered.
    by destruct (attempt_recovery c now now) as [r c']. }
  destruct (repair_stuck_job j now now m) as [r m1]. cbn in Hm. specialize (IH m1 ltac:(done)).
  destruct (repair_jobs js now m1) as [rs m2]. cbn [snd] in *. rewrite IH.
  - rewrite Hm. destruct (decide (id = sj_job_id j)) as [->|Hne].
    + rewrite bool_decide_eq_false_2, bool_decide_eq_true_2 by (done || constructor). by rewrite lookup_insert_eq, Hc.
    + rewrite lookup_insert_ne by done. do 2 case_bool_decide; try done; set_solver.
  - intros j' Hin. rewrite Hm, lookup_insert_ne; [apply Hj; by constructor|]. intros Heq.
    match goal with H : _ ∉ _ |- _ => apply H end. rewrite Heq. apply list_elem_of_fmap. eauto.
Qed.

Lemma insert_broken_perm b l : insert_broken b l ≡ₚ b :: l.
Proof. induction l as [|x l IH]; [done|]. cbn. case_match; [done|]. by rewrite IH, Permutation_swap. Qed.
Definition worst_first (l : list BrokenTool) : Prop := StronglySorted (fun a b => failure_count b <= failure_count a) l.
Lemma insert_broken_sorted b l : worst_first l -> worst_first (insert_broken b l).
Proof.
  unfold worst_first. induction 1 as [|x l Hs IH Hx]; cbn; [by repeat constructor|].
  destruct (Z.ltb_spec (failure_count x) (failure_count b)).
  - constructor; [by constructor|]. constructor; [lia|]. eapply Forall_impl; [exact Hx|]. cbn. lia.
  - constructor; [done|]. rewrite insert_broken_perm. by constructor.
Qed.
Lemma get_broken_spec th t : worst_first (get_broken_tools th t)
  /\ forall b, b ∈ get_broken_tools th t <-> exists r, t !! bt_name b = Some r /\ is_broken th r = true /\ b = broken_of (bt_name b) r.
Proof.
  unfold get_broken_tools. set (l := List.filter _ _).
  assert (forall acc, worst_first acc -> worst_first (foldl (fun acc kv => insert_broken (broken_of kv.1 kv.2) acc) acc l)
    /\ (foldl (fun acc kv => insert_broken (broken_of kv.1 kv.2) acc) acc l) ≡ₚ map (fun kv => broken_of kv.1 kv.2) l ++ acc) as H.
  { induction l as [|kv l IH]; intros acc Ha; [done|]. cbn. destruct (IH _ (insert_broken_sorted (broken_of kv.1 kv.2) _ Ha)) as [H1 H2].
    split; [done|]. rewrite H2, insert_broken_perm. by rewrite Permutation_middle. }
  destruct (H [] ltac:(constructor)) as [H1 H2]. split; [done|]. intros b. rewrite H2, app_nil_r, list_elem_of_fmap.
  unfold l. split.
  - intros ([k r] & -> & Hin). apply list_elem_of_In, filter_In in Hin as [Hin Hb]. apply list_elem_of_In, elem_of_map_to_list in Hin.
    exists r. done.
  - intros (r & Hr & Hb & ->). exists (bt_name b, r). split; [done|]. apply list_elem_of_In, filter_In.
    split; [|done]. apply list_elem_of_In. by apply elem_of_map_to_list.
Qed.

(** ** Properties *)

(** One round of the repair loop.  Exactly the jobs that are stuck and have
    been recovered fewer than the maximal number of times are put back in
    progress, their counter incremented; no other job changes, whatever order
    the jobs are found in.  No job is recovered more often than the maximum. *)
Theorem repair_round_spec (now : DateTime) m (Hmax : 0 <= max_repair_attempts < 2 ^ 32)
  (Hr : map_Forall (fun _ c => 0 <= repair_attempts c <= max_repair_attempts) (contexts m)) :
  let m' := snd (repair_round now m) in
  (forall id, contexts m' !! id = after_round now <$> contexts m !! id)
  /\ (forall id c, contexts m !! id = Some c -> state c = Stuck -> repair_attempts c < max_repair_attempts ->
        exists c', contexts m' !! id = Some c' /\ state c' = InProgress /\ repair_attempts c' = repair_attempts c + 1)
  /\ (forall id c, contexts m !! id = Some c -> state c <> Stuck \/ repair_attempts c = max_repair_attempts ->
        contexts m' !! id = Some c)
  /\ map_Forall (fun _ c => 0 <= repair_attempts c <= max_repair_attempts) (contexts m').
Proof.
  intros m'.
  assert (forall id, contexts m' !! id = after_round now <$> contexts m !! id) as Hall.
  { intros id. unfold m', repair_round. rewrite (repair_jobs_spec _ now m).
    - rewrite detect_ids. case_bool_decide as Hin; [done|]. destruct (contexts m !! id) as [c|] eqn:Ec; [|done]. cbn.
      unfold after_round. rewrite bool_decide_eq_false_2; [done|]. intros Hs. apply Hin, find_stuck_spec. eauto.
    - rewrite detect_ids. apply find_stuck_NoDup.
    - intros j. apply detect_attempts. }
  assert (forall c, 0 <= repair_attempts c <= max_repair_attempts -> state c = Stuck -> repair_attempts c < max_repair_attempts ->
    state (after_round now c) = InProgress /\ repair_attempts (after_round now c) = repair_attempts c + 1) as Hrec.
  { intros c Hc Hs Hlt. unfold after_round. rewrite bool_decide_eq_true_2 by done. rewrite (proj2 (Z.ltb_lt _ _)) by done. cbn [andb].
    destruct (recovered_state now c Hs) as (-> & -> & _). split; [done|]. apply wrap_small. unfold in_u. lia. }
  assert (forall c, state c <> Stuck \/ repair_attempts c = max_repair_attempts -> after_round now c = c) as Hsame.
  { intros c [H|H]; unfold after_round; [by rewrite bool_decide_eq_false_2|].
    rewrite (proj2 (Z.ltb_ge _ _)) by lia. by rewrite andb_false_r. }
  split_and!; [done| | |].
  - intros id c Hc Hs Hlt. rewrite Hall, Hc. exists (after_round now c). split; [done|]. apply Hrec; [by apply (Hr id)|done..].
  - intros id c Hc H. rewrite Hall, Hc. cbn. by rewrite Hsame.
  - intros id c Hc. rewrite Hall in Hc. destruct (contexts m !! id) as [c0|] eqn:E0; [|done]. injection Hc as <-.
    pose proof (Hr id c0 E0) as Hb. cbn in Hb.
    destruct (decide (state c0 = Stuck)) as [Hs|Hs]; [|by rewrite Hsame by auto].
    destruct (decide (repair_attempts c0 = max_repair_attempts)) as [He|He]; [by rewrite Hsame by auto|].
    destruct (Hrec c0 Hb Hs ltac:(lia)) as [_ ->]. lia.
Qed.

(** Which tools count as broken: those with at least five failures that were
    never marked as repaired, the one with most failures first. *)
Theorem broken_tools_spec (t : Failures) :
  worst_first (detect_broken_tools (Some (Ok t)))
  /\ forall name, name ∈ map bt_name (detect_broken_tools (Some (Ok t)))
     <-> exists r, t !! name = Some r /\ 5 <= fr_count r /\ fr_repaired_at r = None.
Proof.
  destruct (get_broken_spec BROKEN_THRESHOLD t) as [H1 H2]. split; [exact H1|]. intros name. cbn [detect_broken_tools].
  rewrite list_elem_of_fmap. split.
  - intros (b & -> & Hb). apply H2 in Hb as (r & Hr & Hbr & _). exists r. split; [done|].
    unfold is_broken in Hbr. apply andb_true_iff in Hbr as [Hc Hn]. apply Z.leb_le in Hc. by destruct (fr_repaired_at r).
  - intros (r & Hr & Hc & Hn). exists (broken_of name r). split; [done|]. apply H2. exists r. split; [done|]. split; [|done].
    unfold is_broken. rewrite Hn, andb_true_r. by apply Z.leb_le.
Qed.

(** A tool that was repaired once is never detected again: the failures that
    follow are counted, but the mark of the repair stays. *)
Theorem repaired_tool_stays_hidden (name : string) (now : DateTime) (fails : list (string * DateTime)) (t : Failures) (r : FailureRow)
  (Hr : t !! name = Some r) :
  let t' := foldl (fun t '(e, now) => record_tool_failure name e now t) (mark_tool_repaired name now t) fails in
  (exists r', t' !! name = Some r' /\ fr_count r' = Z.of_nat (length fails) /\ fr_repaired_at r' = Some now)
  /\ name ∉ map bt_name (detect_broken_tools (Some (Ok t'))).
Proof.
  intros t'.
  assert (exists r', t' !! name = Some r' /\ fr_count r' = Z.of_nat (length fails) /\ fr_repaired_at r' = Some now) as (r' & H1 & H2 & H3).
  { unfold t', mark_tool_repaired. rewrite Hr. clear t'.
    set (r0 := mkRow _ _ _ _ _ _ _). assert (exists n, fr_count r0 = Z.of_nat n /\ n = 0%nat) as (n & Hn & Hn0) by by exists 0%nat.
    assert (fr_repaired_at r0 = Some now) as Hm by done.
    enough (exists r', foldl (fun t '(e, now) => record_tool_failure name e now t) (<[name:=r0]> t) fails !! name = Some r'
      /\ fr_count r' = Z.of_nat (n + length fails) /\ fr_repaired_at r' = Some now) as (r' & ? & ? & ?) by (subst n; eauto).
    clear Hn0. clearbody r0. revert r0 n Hn Hm. induction fails as [|[e tm] fails IH]; intros r0 n Hn Hm.
    - cbn. rewrite lookup_insert_eq. exists r0. split_and!; [done|cbn; by rewrite Nat.add_0_r|done].
    - cbn [foldl length]. unfold record_tool_failure at 2. rewrite lookup_insert_eq, insert_insert_eq.
      destruct (IH (mkRow e (fr_count r0 + 1) (fr_first r0) tm (fr_build r0) (fr_repaired_at r0) (fr_attempts r0)) (S n)) as (r' & ? & Hc & ?);
        [cbn; lia|done|]. exists r'. split_and!; [done|rewrite Hc; f_equal; lia|done]. }
  split; [by exists r'|]. rewrite list_elem_of_fmap. intros (b & Hb & Hin). cbn in Hin.
  apply (proj2 (get_broken_spec BROKEN_THRESHOLD t')) in Hin as (r2 & Hr2 & Hbr & _). rewrite <- Hb, H1 in Hr2. injection Hr2 as <-.
  unfold is_broken in Hbr. rewrite H3, andb_false_r in Hbr. done.
Qed.

(** The builder is asked to repair a detected tool only while fewer than the
    maximal number of attempts are recorded, and each time it is asked an
    attempt is recorded, so that it is asked at most that often. *)
Theorem builder_attempts_bounded build (t : Failures) (b : BrokenTool) (now : DateTime) (Hb : b ∈ detect_broken_tools (Some (Ok t))) :
  let '(_, t', called) := repair_broken_tool (Some build) (Some t) b now in
  (called = true <-> bt_repair_attempts b < max_repair_attempts)
  /\ exists t1 r r', t' = Some t1 /\ t !! bt_name b = Some r /\ t1 !! bt_name b = Some r' /\ bt_repair_attempts b = fr_attempts r
       /\ fr_attempts r' = fr_attempts r + (if called then 1 else 0).
Proof.
  apply (proj2 (get_broken_spec BROKEN_THRESHOLD t)) in Hb as (r & Hr & _ & Hb). unfold repair_broken_tool.
  assert (bt_repair_attempts b = fr_attempts r) as Ha by by rewrite Hb.
  destruct (Z.leb_spec max_repair_attempts (bt_repair_attempts b)) as [Hle|Hlt].
  { split; [split; [done|lia]|]. exists t, r, r. split_and!; try done. lia. }
  assert (increment_repair_attempts (bt_name b) t !! bt_name b
          = Some (mkRow (fr_error r) (fr_count r) (fr_first r) (fr_last r) (fr_build r) (fr_repaired_at r) (fr_attempts r + 1))) as Hi
    by (unfold increment_repair_attempts; by rewrite Hr, lookup_insert_eq).
  destruct (build (repair_requirement b)) as [o|e]; [destruct (bo_success o)|]; (split; [done|]); do 3 eexists;
    (split; [done|]); (split; [done|]); [|by split_and!..].
  unfold mark_tool_repaired. rewrite Hi, lookup_insert_eq. by split_and!.
Qed.
End Repair.

Definition demo_failures : Failures := {[ "fetch"%string := mkRow "timeout" 6 0 5 None None 0 ]}.
Lemma repaired_tool_stays_hidden_witness :
  "fetch"%string ∈ map bt_name (detect_broken_tools (Some (Ok demo_failures)))
  /\ "fetch"%string ∉ map bt_name (detect_broken_tools (Some (Ok
       (foldl (fun t '(e, now) => record_tool_failure "fetch" e now t) (mark_tool_repaired "fetch" 9 demo_failures)
         (replicate 20 ("timeout"%string, 10)))))).
Proof.
  split; [vm_compute; constructor|].
  exact (proj2 (repaired_tool_stays_hidden "fetch" 9 (replicate 20 ("timeout"%string, 10)) demo_failures _ eq_refl)).
Defined.
Lemma builder_attempts_bounded_witness :
  snd (repair_broken_tool 3 (Some (fun _ => Ok (mkBuild true 1 true None))) (Some demo_failures) (broken_of "fetch" (mkRow "timeout" 6 0 5 None None 0)) 9) = true.
Proof.
  pose proof (builder_attempts_bounded 3 (fun _ => Ok (mkBuild true 1 true None)) demo_failures
    (broken_of "fetch" (mkRow "timeout" 6 0 5 None None 0)) 9 ltac:(vm_compute; constructor)) as H.
  destruct (repair_broken_tool _ _ _ _ _) as [[x y] c]. apply (proj2 (proj1 H)). cbn. lia.
Defined.
Definition demo_stuck : JobContext Z Json :=
  snd (mark_stuck (snd (transition_to (new_context 7%N 0 JNull "t" "d") InProgress None 0 0)) "why" 1 1).
Lemma repair_round_spec_witness :
  exists c', contexts (snd (repair_round 3 pretty (fun _ => ""%string) 9 (mkManager _ _ {[7%N := demo_stuck]} ∅ 5))) !! 7%N = Some c'
    /\ state c' = InProgress /\ repair_attempts c' = 1.
Proof.
  destruct (repair_round_spec 3 pretty (fun _ => ""%string) 9 (mkManager _ _ {[7%N := demo_stuck]} ∅ 5)) as (_ & H & _ & _).
  - lia.
  - apply map_Forall_singleton. vm_compute. done.
  - apply (H 7%N demo_stuck); [done|by vm_compute|by vm_compute].
Defined.
