(* ===== verification/ThreadOps.v ===== *)
(** Messages to a thread: [src/agent/thread_ops.rs] (user input, approvals,
    authentication tokens, interrupts, compaction, persistence) and
    [handle_message] of [src/agent/agent_loop.rs].

    The session and the thread a message belongs to have been resolved
    ([SessionManager.v]); the state is the loop's ([Dispatcher.v]) together
    with the thread's undo manager and the list of fire-and-forget effects.
    Components that are reached through an interface are fields of [Ops]:
    the shadow cache, the router with its command handlers, the reflex
    registry, the extension manager, the schedulers of an interrupt, and the
    compactor, whose law [Compacts] the one of [Compaction.v] satisfies. *)

From Stdlib Require Import Ascii.
From S2P Require Import Prelude Strs Float64 Llm Json Session Submission Undo Compaction CostGuard Hooks Skills LeakDetector Safety Dispatcher.
#[local] Open Scope claw_scope.

(** [normalize_reflex_pattern]. *)
Definition normalize_reflex_pattern (input : string) : string :=
  String.concat " " (split_whitespace (to_lowercase input)).

(** [truncate_for_preview] of [agent_loop.rs]. *)
Definition newline_to_space (c : ascii) : ascii := if Ascii.eqb c (chr 10) then " "%char else c.
Fixpoint map_chars (f : ascii -> ascii) (s : string) : string :=
  match s with EmptyString => EmptyString | String c s => String (f c) (map_chars f s) end.
Definition truncate_for_preview (output : string) (max_chars : nat) : string :=
  let collapsed := String.concat " " (split_whitespace (map_chars newline_to_space (str_take (max_chars + 50) output))) in
  if (max_chars <? String.length collapsed)%nat then str_take max_chars collapsed ++s "..." else collapsed.

(** What is written to the database or handed to the shadow engine. *)
Inductive Effect :=
| PersistTurn (thread : Uuid) (user input : string) (response : option string)
| PersistChain (thread : Uuid) (response_id : string)
| Speculate (input response : string)
| ReflexHit (pattern : string).

Record AuthResult := mkAuth { auth_status : string; auth_instructions : option string }.

Record Ops {W : Type} := mkOps {
  has_store : bool;
  shadow_get : option (string -> W -> option string);
  input_blocked : string -> bool;
  handle_command : string -> Shared W -> option (Result (SubmissionResult Json) Error * Shared W);
  find_reflex : string -> W -> option string;
  monitor : ContextMonitor;
  compactor : CompactionStrategy -> Thread Json -> W -> Result CompactionResult LlmError * Thread Json * W;
  chain_id : Uuid -> W -> option string;
  ext_auth : option (string -> string -> Shared W -> Result AuthResult string * Shared W);
  ext_activate : string -> Shared W -> Result (list string) string * Shared W;
  cancel_jobs : string -> Shared W -> nat * Shared W;
  show_uuid : Uuid -> string;
  show_percent : f64 -> string;
}.
Arguments Ops : clear implicits.

(** A compactor changes a thread by dropping its oldest turns, if at all. *)
Class Compacts {W : Type} (O : Ops W) : Prop := {
  compacts : forall strategy th w, exists k, (compactor O strategy th w).1.2 = truncate_turns k th;
}.

Record TState {W : Type} := mkT { t_d : DState W; t_undo : UndoManager Json; t_effects : list Effect }.
Arguments TState : clear implicits.

Section Ops.
  Context {W : Type} (E : Deps W) (O : Ops W) (user : string) (tid : Uuid) (prompt : option string) (active : list LoadedSkill).
  Abbreviation TS := (TState W).
  Abbreviation Answer := (Result (SubmissionResult Json) Error).

Definition t_sess (ts : TS) : Session Json := sess (t_d ts).
Definition t_world (ts : TS) : W := world (t_d ts).
Definition now (ts : TS) : DateTime := clock E (t_world ts).
Definition with_d (d : DState W) (ts : TS) : TS := mkT _ d (t_undo ts) (t_effects ts).
Definition t_update (f : Thread Json -> Thread Json) (ts : TS) : TS := with_d (with_sess (update_thread tid f) (t_d ts)) ts.
Definition effect (evs : list Effect) (ts : TS) : TS := mkT _ (t_d ts) (t_undo ts) (t_effects ts ++ evs).

Definition persist_turn (input : string) (response : option string) (ts : TS) : TS :=
  if has_store O then effect [PersistTurn tid user input response] ts else ts.
Definition set_response_id (rid : string) (th : Thread Json) : Thread Json :=
  mkThread _ (thread_id th) (session_id th) (th_state th) (turns th) (th_created_at th) (updated_at th)
    (th_metadata th) (pending_approval th) (pending_auth th) (Some rid).
Definition persist_response_chain (ts : TS) : TS :=
  match threads (t_sess ts) !! tid with
  | None => ts
  | Some th =>
      match chain_id O (thread_id th) (t_world ts) with
      | None => ts
      | Some rid =>
          let ts := t_update (set_response_id rid) ts in
          if has_store O then effect [PersistChain (thread_id th) rid] ts else ts
      end
  end.

(** A turn answered without the model. *)
Definition answered_turn (input response : string) (ts : TS) : TS :=
  persist_response_chain (t_update (fun th => complete_turn response (now ts) (start_turn input (now ts) th)) ts).
Definition speculate (input response : string) (ts : TS) : TS :=
  match shadow_get O with Some _ => effect [Speculate input response] ts | None => ts end.

(** The reflex registry: [None] falls back to the loop. *)
Definition try_reflex (content : string) (ts : TS) : option Answer * TS :=
  if negb (has_store O) then (None, ts)
  else
    let normalized := normalize_reflex_pattern content in
    match find_reflex O normalized (t_world ts) with
    | None => (None, ts)
    | Some name =>
        match get_tool E name (t_world ts) with
        | None => (None, ts)
        | Some tool =>
            let params := JObject [("input"%string, JString content)] in
            if requires_approval tool
               && (negb (is_tool_auto_approved (t_sess ts) name) || requires_approval_for tool params)
            then (None, ts)
            else
              let '(r, d) := execute_chat_tool E name params (String.eqb name "shell") (t_d ts) in
              let ts := with_d d ts in
              match r with
              | Err _ => (None, ts)
              | Ok output =>
                  let ts := answered_turn content output (effect [ReflexHit normalized] ts) in
                  (Some (Ok (SResponse output)), speculate content output (persist_turn content (Some output) ts))
              end
        end
    end.

(** The [TransformResponse] hooks. *)
Definition transform_response (response : string) : string :=
  match run (from_str E) (to_string E) (show_duration E) (hooks E) (ResponseTransform user (show_uuid O tid) response) with
  | Err (Rejected reason) => "[Response filtered: " ++s reason ++s "]"
  | Err err => "[Response blocked by hook policy: " ++s hook_error_display (show_duration E) err ++s "]"
  | Ok (Continue (Some r)) => r
  | Ok _ => response
  end.

(** Compaction before the turn. *)
Definition auto_compact (ts : TS) : TS :=
  match threads (t_sess ts) !! tid with
  | None => ts
  | Some th =>
      match suggest_compaction (monitor O) (messages th) with
      | None => ts
      | Some strategy =>
          let '(_, th', w') := compactor O strategy th (t_world ts) in
          let d := t_d ts in
          with_d (mkD _ (mkShared _ w' (update_thread tid (fun _ => th') (sess d)) (sh_guard (d_shared d))) (d_log d)) ts
      end
  end.

Definition take_checkpoint (th : Thread Json) (ts : TS) : TS :=
  mkT _ (t_d ts)
    (checkpoint (fresh_uuid E (t_world ts)) (thread_turn_number th) (messages th)
       ("Before turn " ++s pretty (thread_turn_number th)) (t_undo ts)) (t_effects ts).

Definition need_approval (p : PendingApproval Json) : SubmissionResult Json :=
  SNeedApproval (request_id p) (pa_tool_name p) (pa_description p) (pa_parameters p).

(** The end of a turn, after the loop. *)
Definition finish_turn (content : string) (result : Result AgenticLoopResult Error) (ts : TS) : Answer * TS :=
  match threads (t_sess ts) !! tid with
  | None => (Err (ENotFound tid), ts)
  | Some th =>
      if bool_decide (th_state th = Interrupted) then (Ok SInterrupted, ts)
      else match result with
      | Ok (Response r) =>
          let r := transform_response r in
          let ts := persist_response_chain (t_update (complete_turn r (now ts)) ts) in
          (Ok (SResponse r), speculate content r (persist_turn content (Some r) ts))
      | Ok (NeedApproval p) => (Ok (need_approval p), t_update (await_approval p (now ts)) ts)
      | Err e => (Ok (SError (display E e)), persist_turn content None (t_update (fail_turn (display E e) (now ts)) ts))
      end
  end.

Definition agent_turn (content : string) (ts : TS) : Answer * TS :=
  match threads (t_sess ts) !! tid with
  | None => (Err (ENotFound tid), ts)
  | Some _ =>
      let ts := auto_compact ts in
      match threads (t_sess ts) !! tid with
      | None => (Err (ENotFound tid), ts)
      | Some th =>
          let ts := take_checkpoint th ts in
          let ts := t_update (start_turn content (now ts)) ts in
          let initial := messages (start_turn content (now ts) th) in
          let '(result, d) := run_agentic_loop E user tid prompt active initial false (t_d ts) in
          finish_turn content result (with_d d ts)
      end
  end.

Definition process_user_input (content : string) (ts : TS) : Answer * TS :=
  match threads (t_sess ts) !! tid with
  | None => (Err (ENotFound tid), ts)
  | Some th =>
      match th_state th with
      | Processing => (Ok (SError "Turn in progress. Use /interrupt to cancel."), ts)
      | AwaitingApproval => (Ok (SError "Waiting for approval. Use /interrupt to cancel."), ts)
      | ThreadCompleted => (Ok (SError "Thread completed. Use /thread new."), ts)
      | Idle | Interrupted =>
          match shadow_get O ≫= (fun get => get content (t_world ts)) with
          | Some cached => (Ok (SResponse cached), persist_turn content (Some cached) (answered_turn content cached ts))
          | None =>
              let validation := validate (validator E) content in
              if negb (is_valid validation)
              then (Ok (SError ("Input rejected by safety validation: " ++s validation_details validation)), ts)
              else if input_blocked O content then (Ok (SError "Input rejected by safety policy."), ts)
              else match handle_command O content (d_shared (t_d ts)) with
              | Some (r, sh) => (r, with_d (mkD _ sh (d_log (t_d ts))) ts)
              | None =>
                  match try_reflex content ts with
                  | (Some r, ts) => (r, ts)
                  | (None, ts) => agent_turn content ts
                  end
              end
          end
      end
  end.

Definition process_interrupt (ts : TS) : Answer * TS :=
  match threads (t_sess ts) !! tid with
  | None => (Err (ENotFound tid), ts)
  | Some th =>
      match th_state th with
      | Processing | AwaitingApproval =>
          let ts := t_update (interrupt (now ts)) ts in
          let '(canceled, sh) := cancel_jobs O user (d_shared (t_d ts)) in
          (Ok (SOk (Some (if (0 <? canceled)%nat
                          then "Interrupted. Requested cancellation for " ++s pretty canceled ++s " active job(s)."
                          else "Interrupted."%string))),
           with_d (mkD _ sh (d_log (t_d ts))) ts)
      | _ => (Ok (SOk (Some "Nothing to interrupt."%string)), ts)
      end
  end.

(** The arrow of the message is the character U+2192. *)
Definition ARROW : string := String (chr 226) (String (chr 134) (String (chr 146) EmptyString)).
Definition compaction_message (c : CompactionResult) (usage : string) : string :=
  "Compacted: " ++s pretty (turns_removed c) ++s " turns removed, " ++s pretty (tokens_before c) ++s " " ++s ARROW ++s " "
    ++s pretty (tokens_after c) ++s " tokens (was " ++s usage ++s "% full)"
    ++s if summary_written c then ", summary saved to workspace" else EmptyString.
Definition process_compact (ts : TS) : Answer * TS :=
  match threads (t_sess ts) !! tid with
  | None => (Err (ENotFound tid), ts)
  | Some th =>
      let strategy := default (Compaction.Summarize 5) (suggest_compaction (monitor O) (messages th)) in
      let '(r, th', w') := compactor O strategy th (t_world ts) in
      let d := t_d ts in
      (match r with
       | Ok c => Ok (SOk (Some (compaction_message c (show_percent O (usage_percent (monitor O) (messages th))))))
       | Err e => Ok (SError ("Compaction failed: " ++s display E (ELlm e)))
       end,
       with_d (mkD _ (mkShared _ w' (update_thread tid (fun _ => th') (sess d)) (sh_guard (d_shared d))) (d_log d)) ts)
  end.

(** ** Approvals *)
Definition set_state (st : ThreadState) (th : Thread Json) : Thread Json :=
  set_thread th st (turns th) (updated_at th) (pending_approval th).

(** The end of the loop that an approval resumes. *)
Definition finish_approved (result : Result AgenticLoopResult Error) (ts : TS) : Answer * TS :=
  match threads (t_sess ts) !! tid with
  | None => (Err (ENotFound tid), ts)
  | Some _ =>
      match result with
      | Ok (Response r) => (Ok (SResponse r), persist_response_chain (t_update (complete_turn r (now ts)) ts))
      | Ok (NeedApproval p) => (Ok (need_approval p), t_update (await_approval p (now ts)) ts)
      | Err e => (Ok (SError (display E e)), t_update (fail_turn (display E e) (now ts)) ts)
      end
  end.

(** What the model sees when the loop goes on. *)
Definition resumed_context (p : PendingApproval Json) (r : Result string Error) : list (ChatMessage Json) :=
  context_messages p
    ++ [msg_tool_result (pa_tool_call_id p) (pa_tool_name p) (result_content E (pa_tool_name p) r)].

Definition run_approved (p : PendingApproval Json) (always : bool) (ts : TS) : Answer * TS :=
  let ts := if always then with_d (with_sess (auto_approve_tool (pa_tool_name p)) (t_d ts)) ts else ts in
  let ts := t_update (set_state Processing) ts in
  let name := pa_tool_name p in
  let '(r, d) := execute_chat_tool E name (pa_parameters p) (String.eqb name "shell") (t_d ts) in
  let ts := with_d (with_sess (record_result E tid r) d) ts in
  match detect_auth_awaiting (from_str E) name r with
  | Some (ext, instructions) =>
      (Ok (SResponse instructions),
       t_update (fun th => complete_turn instructions (now ts) (enter_auth_mode ext (now ts) th)) ts)
  | None =>
      let '(result, d) := run_agentic_loop E user tid prompt active (resumed_context p r) true (t_d ts) in
      finish_approved result (with_d d ts)
  end.

Definition rejection_text (name : string) : string :=
  "Tool '" ++s name ++s "' was rejected. The agent will not execute this tool." ++s LF ++s LF
    ++s "You can continue the conversation or try a different approach.".

Definition process_approval (request : option Uuid) (approved always : bool) (ts : TS) : Answer * TS :=
  match threads (t_sess ts) !! tid with
  | None => (Err (ENotFound tid), ts)
  | Some th =>
      if negb (bool_decide (th_state th = AwaitingApproval)) then (Ok (SError "No pending approval request."), ts)
      else
        let ts := t_update (fun th => snd (take_pending_approval th)) ts in
        match pending_approval th with
        | None => (Ok (SError "No pending approval request."), ts)
        | Some p =>
            if match request with Some id => negb (id =? request_id p)%N | None => false end
            then (Ok (SError "Request ID mismatch. Use the correct request ID."), t_update (await_approval p (now ts)) ts)
            else if approved then run_approved p always ts
            else (Ok (SResponse (rejection_text (pa_tool_name p))), t_update (clear_pending_approval (now ts)) ts)
        end
  end.

(** ** Authentication *)
Definition clear_auth (th : Thread Json) : Thread Json := set_auth th None (updated_at th).
Definition process_auth_token (pending : PendingAuth) (token : string) (ts : TS) : option string * TS :=
  let token := trim token in
  let ext := extension_name pending in
  let ts := t_update clear_auth ts in
  let on_shared sh ts := with_d (mkD _ sh (d_log (t_d ts))) ts in
  match ext_auth O with
  | None => (Some "Extension manager not available."%string, ts)
  | Some auth =>
      let '(r, sh) := auth ext token (d_shared (t_d ts)) in
      let ts := on_shared sh ts in
      match r with
      | Ok res =>
          if String.eqb (auth_status res) "authenticated" then
            let '(a, sh) := ext_activate O ext (d_shared (t_d ts)) in
            (Some (match a with
                   | Ok tools =>
                       ext ++s " authenticated and activated (" ++s pretty (length tools) ++s " tools loaded)."
                         ++s match tools with
                             | [] => EmptyString
                             | _ => LF ++s LF ++s "Tools: " ++s String.concat ", " tools
                             end
                   | Err e => ext ++s " authenticated successfully, but activation failed: " ++s e
                                ++s ". Try activating manually."
                   end), on_shared sh ts)
          else (Some (default "Invalid token. Please try again."%string (auth_instructions res)),
                t_update (enter_auth_mode ext (now ts)) ts)
      | Err e => (Some ("Authentication failed for " ++s ext ++s ": " ++s e), ts)
      end
  end.

(** ** Messages

    [other] handles the submissions that need neither the thread nor its undo
    manager here (system commands, heartbeat, summaries, suggestions). *)
Context (channel : string) (ext_thread : option string) (null : Json).
Context (uuid_parse : string -> option Uuid) (from_json : string -> option Submission).
Context (other : Submission -> Shared W -> Answer * Shared W).

Definition on_undo (r : Result (SubmissionResult Json) Uuid * UndoManager Json * Session Json) (ts : TS) : Answer * TS :=
  let '(a, u, s) := r in
  (match a with Ok x => Ok x | Err id => Err (ENotFound id) end,
   mkT _ (with_sess (fun _ => s) (t_d ts)) u (t_effects ts)).
Definition on_session (r : Result (SubmissionResult Json) Uuid * Session Json) (ts : TS) : Answer * TS :=
  on_undo (fst r, t_undo ts, snd r) ts.

Definition dispatch (sub : Submission) (ts : TS) : option Answer * TS :=
  let some (r : Answer * TS) := (Some (fst r), snd r) in
  let fresh := fresh_uuid E (t_world ts) in
  match sub with
  | UserInput content => some (process_user_input content ts)
  | SubUndo => some (on_undo (process_undo tid fresh (now ts) (t_undo ts) (t_sess ts)) ts)
  | SubRedo => some (on_undo (process_redo tid fresh (now ts) (t_undo ts) (t_sess ts)) ts)
  | SubInterrupt => some (process_interrupt ts)
  | Compact => some (process_compact ts)
  | Clear => some (on_undo (process_clear tid (t_undo ts) (t_sess ts)) ts)
  | NewThread => some (on_session (process_new_thread fresh (now ts) null (show_uuid O) (t_sess ts)) ts)
  | SwitchThread target => some (on_session (process_switch_thread target (now ts) (show_uuid O) (t_sess ts)) ts)
  | SubResume cid => some (on_undo (process_resume tid cid (now ts) (t_undo ts) (t_sess ts)) ts)
  | ExecApproval id approved always => some (process_approval (Some id) approved always ts)
  | ApprovalResponse approved always => some (process_approval None approved always ts)
  | Quit => (None, ts)
  | _ => let '(r, sh) := other sub (d_shared (t_d ts)) in (Some r, with_d (mkD _ sh (d_log (t_d ts))) ts)
  end.

Definition respond_text (r : SubmissionResult Json) : option string :=
  match r with
  | SResponse c => Some c
  | SOk m => m
  | SError m => Some ("Error: " ++s m)
  | SInterrupted => Some "Interrupted."%string
  | SNeedApproval _ _ _ _ => Some EmptyString
  end.

(** The [BeforeInbound] hooks: the submission to handle, or the refusal. *)
Definition before_inbound (sub : Submission) : Result Submission string :=
  match sub with
  | UserInput content =>
      match run (from_str E) (to_string E) (show_duration E) (hooks E) (Inbound user channel content ext_thread) with
      | Err (Rejected reason) => Err ("[Message rejected: " ++s reason ++s "]")
      | Err err => Err ("[Message blocked by hook policy: " ++s hook_error_display (show_duration E) err ++s "]")
      | Ok (Continue (Some c)) => Ok (UserInput c)
      | Ok _ => Ok sub
      end
  | _ => Ok sub
  end.

Definition handle_message (content : string) (ts : TS) : Result (option string) Error * TS :=
  match before_inbound (parse uuid_parse from_json content) with
  | Err refusal => (Ok (Some refusal), ts)
  | Ok sub =>
      let auth := threads (t_sess ts) !! tid ≫= pending_auth in
      match auth, sub with
      | Some pending, UserInput c => let '(r, ts) := process_auth_token pending c ts in (Ok r, ts)
      | _, _ =>
          let ts := match auth with Some _ => t_update clear_auth ts | None => ts end in
          match dispatch sub ts with
          | (None, ts) => (Ok None, ts)
          | (Some (Err e), ts) => (Err e, ts)
          | (Some (Ok r), ts) => (Ok (respond_text r), ts)
          end
      end
  end.
End Ops.

(** ** Lemmas *)
Section Facts.
  Context {W : Type} (E : Deps W) (O : Ops W) (user : string) (tid : Uuid) (prompt : option string) (active : list LoadedSkill).
  Implicit Types ts : TState W.

Lemma t_update_thread f ts : threads (t_sess (t_update tid f ts)) !! tid = f <$> threads (t_sess ts) !! tid.
Proof. apply lookup_update_thread. Qed.

Definition is_chain (e : Effect) : Prop := match e with PersistChain _ _ => True | _ => False end.

(** The response chain changes nothing but the response id. *)
Lemma chain_spec ts :
  let ts' := persist_response_chain O tid ts in
  (exists evs, t_effects ts' = t_effects ts ++ evs /\ Forall is_chain evs)
  /\ t_undo ts' = t_undo ts /\ d_log (t_d ts') = d_log (t_d ts)
  /\ forall th, threads (t_sess ts) !! tid = Some th -> exists th', threads (t_sess ts') !! tid = Some th'
       /\ turns th' = turns th /\ th_state th' = th_state th.
Proof.
  cbv zeta. unfold persist_response_chain. destruct (threads (t_sess ts) !! tid) as [th|] eqn:Hth.
  2: { split; [exists []; by rewrite app_nil_r|]. split; [done|]. split; [done|]. by rewrite Hth. }
  destruct (chain_id O (thread_id th) (t_world ts)) as [rid|].
  2: { split; [exists []; by rewrite app_nil_r|]. split; [done|]. split; [done|]. intros th' [= <-]. eauto. }
  assert (forall th0, Some th = Some th0 -> exists th', threads (t_sess (t_update tid (set_response_id rid) ts)) !! tid = Some th'
    /\ turns th' = turns th0 /\ th_state th' = th_state th0) as Hthr.
  { intros th0 [= <-]. rewrite t_update_thread, Hth. by eexists. }
  destruct (has_store O); (split; [|split; [done|split; [done|exact Hthr]]]).
  - exists [PersistChain (thread_id th) rid]. split; [done|]. by repeat constructor.
  - exists []. by rewrite app_nil_r.
Qed.

(** Completing, failing and pausing the last turn. *)
Lemma completed_last r now (th : Thread Json) t :
  last (turns (complete_turn r now th)) = Some t -> response t = Some r /\ turn_state t = TCompleted.
Proof. cbn. rewrite last_alter_last. destruct (last (turns th)); [|done]. by intros [= <-]. Qed.
Lemma failed_last e now (th : Thread Json) t :
  last (turns (fail_turn e now th)) = Some t -> turn_error t = Some e /\ turn_state t = TFailed.
Proof. cbn. rewrite last_alter_last. destruct (last (turns th)); [|done]. by intros [= <-]. Qed.

Lemma persist_turn_effects input r ts :
  (has_store O = true -> PersistTurn tid user input r ∈ t_effects (persist_turn O user tid input r ts))
  /\ t_undo (persist_turn O user tid input r ts) = t_undo ts
  /\ t_sess (persist_turn O user tid input r ts) = t_sess ts.
Proof.
  unfold persist_turn. destruct (has_store O); [|done]. split; [|done]. intros _. cbn. apply elem_of_app. right. left.
Qed.
Lemma speculate_spec input r ts :
  (forall e, e ∈ t_effects ts -> e ∈ t_effects (speculate O input r ts))
  /\ t_undo (speculate O input r ts) = t_undo ts /\ t_sess (speculate O input r ts) = t_sess ts.
Proof.
  unfold speculate. destruct (shadow_get O); [|done]. split; [|done]. intros e He. cbn. apply elem_of_app. by left.
Qed.

(** How a turn ends, by what it answers. *)
Definition turn_recorded (content : string) (ts0 ts' : TState W) (a : Result (SubmissionResult Json) Error) : Prop :=
  match a with
  | Ok (SResponse r) =>
      (has_store O = true -> PersistTurn tid user content (Some r) ∈ t_effects ts')
      /\ exists th', threads (t_sess ts') !! tid = Some th' /\ th_state th' = Idle
           /\ forall t, last (turns th') = Some t -> response t = Some r /\ turn_state t = TCompleted
  | Ok SInterrupted =>
      t_effects ts' = t_effects ts0
      /\ exists th', threads (t_sess ts') !! tid = Some th' /\ th_state th' = Interrupted
  | Ok (SNeedApproval id _ _ _) =>
      t_effects ts' = t_effects ts0
      /\ exists th' p, threads (t_sess ts') !! tid = Some th' /\ th_state th' = AwaitingApproval
           /\ pending_approval th' = Some p /\ request_id p = id
  | Ok (SError m) =>
      (has_store O = true -> PersistTurn tid user content None ∈ t_effects ts')
      /\ exists th', threads (t_sess ts') !! tid = Some th' /\ th_state th' = Idle
           /\ forall t, last (turns th') = Some t -> turn_error t = Some m /\ turn_state t = TFailed
  | Ok (SOk _) => False
  | Err e => e = ENotFound tid
  end.

Lemma finish_turn_spec content result ts :
  let '(a, ts') := finish_turn E O user tid content result ts in
  t_undo ts' = t_undo ts /\ turn_recorded content ts ts' a.
Proof.
  unfold finish_turn. destruct (threads (t_sess ts) !! tid) as [th|] eqn:Hth; [|done].
  case_bool_decide as Hi; [split; [done|]; split; [done|]; eauto|].
  destruct result as [[r|p]|e].
  - set (r' := transform_response E O user tid r).
    destruct (chain_spec (t_update tid (complete_turn r' (now E ts)) ts)) as (_ & Hu & _ & Hth').
    destruct (Hth' (complete_turn r' (now E ts) th)) as (th1 & H1 & Ht & Hs); [by rewrite t_update_thread, Hth|].
    set (ts1 := persist_response_chain O tid _) in *.
    destruct (persist_turn_effects content (Some r') ts1) as (P1 & P2 & P3).
    destruct (speculate_spec content r' (persist_turn O user tid content (Some r') ts1)) as (S1 & S2 & S3).
    split; [by rewrite S2, P2, Hu|]. split; [auto|]. exists th1. rewrite S3, P3, Hs. split; [done|]. split; [done|].
    rewrite Ht. apply completed_last.
  - split; [done|]. split; [done|]. exists (await_approval p (now E ts) th), p. by rewrite t_update_thread, Hth.
  - set (ts1 := t_update tid (fail_turn (display E e) (now E ts)) ts).
    destruct (persist_turn_effects content None ts1) as (P1 & P2 & P3).
    split; [by rewrite P2|]. split; [auto|]. eexists. rewrite P3. unfold ts1. rewrite t_update_thread, Hth.
    split; [done|]. split; [done|]. apply failed_last.
Qed.

Lemma auto_compact_spec `{!Compacts O} ts th :
  threads (t_sess ts) !! tid = Some th ->
  exists k, threads (t_sess (auto_compact O tid ts)) !! tid = Some (truncate_turns k th)
    /\ t_undo (auto_compact O tid ts) = t_undo ts /\ t_effects (auto_compact O tid ts) = t_effects ts.
Proof.
  intros Hth. unfold auto_compact. rewrite Hth. destruct (suggest_compaction _ _) as [strategy|].
  - destruct (compacts strategy th (t_world ts)) as [k Hk]. destruct (compactor O strategy th (t_world ts)) as [[r th'] w'].
    exists k. cbn in Hk. subst th'. split; [|done]. cbn. rewrite lookup_alter, decide_True by done.
    unfold t_sess in Hth. by rewrite Hth.
  - exists (length (turns th)). by rewrite truncate_small.
Qed.
End Facts.

(** ** Properties *)
Section Claims.
  Context {W : Type} (E : Deps W) (O : Ops W) (user : string) (tid : Uuid) (prompt : option string) (active : list LoadedSkill).
  Implicit Types ts : TState W.

(** Input that is refused leaves no trace: on a thread that does not exist, is
    busy, waits for an approval or is completed, and, unless the shadow cache
    knows the answer, when the validator or the policy refuses the text, the
    answer is an error and sessions, undo history and database are as they
    were. *)
Theorem refused_input_changes_nothing (content : string) ts :
  match threads (t_sess ts) !! tid with
  | None => process_user_input E O user tid prompt active content ts = (Err (ENotFound tid), ts)
  | Some th =>
      (th_state th = Processing \/ th_state th = AwaitingApproval \/ th_state th = ThreadCompleted
       \/ (shadow_get O ≫= (fun get => get content (t_world ts))) = None
          /\ (is_valid (validate (validator E) content) = false \/ input_blocked O content = true)) ->
      exists m, process_user_input E O user tid prompt active content ts = (Ok (SError m), ts)
  end.
Proof.
  unfold process_user_input. destruct (threads (t_sess ts) !! tid) as [th|]; [|done].
  intros H. destruct (th_state th) eqn:Es; try by eexists.
  - destruct H as [?|[?|[?|(-> & Hr)]]]; try done. destruct (is_valid _); cbn [negb]; [|by eexists].
    destruct Hr as [?|Hb]; [done|]. rewrite Hb. by eexists.
  - destruct H as [?|[?|[?|(-> & Hr)]]]; try done. destruct (is_valid _); cbn [negb]; [|by eexists].
    destruct Hr as [?|Hb]; [done|]. rewrite Hb. by eexists.
Qed.

(** C4. A turn through the agentic loop, whatever happens in it.  Before the turn
    the undo history gains a checkpoint of the conversation (shortened, if at
    all, by dropping its oldest turns); afterwards what the user is told, what
    the thread holds and what the database gets agree: a response ends the
    turn as completed with exactly this text, stored under the input that
    asked for it; an error ends it as failed, stored without a response; a
    request for approval and an interrupt store nothing. *)
Theorem agent_turn_recorded `{!Compacts O} (content : string) ts th :
  threads (t_sess ts) !! tid = Some th ->
  let '(a, ts') := agent_turn E O user tid prompt active content ts in
  turn_recorded O user tid content ts ts' a
  /\ exists k id d, t_undo ts' = checkpoint id (thread_turn_number (truncate_turns k th))
                                  (messages (truncate_turns k th)) d (t_undo ts).
Proof.
  intros Hth. unfold agent_turn. rewrite Hth.
  destruct (auto_compact_spec O tid ts th Hth) as (k & Hk & Hu & He). rewrite Hk.
  set (ts1 := auto_compact O tid ts) in *. set (th1 := truncate_turns k th) in *.
  destruct (run_agentic_loop _ _ _ _ _ _ _ _) as [result d].
  match goal with |- context[finish_turn E O user tid content result ?t] => pose proof (finish_turn_spec E O user tid content result t) as H;
    set (ts2 := t) in * end.
  destruct (finish_turn _ _ _ _ _ _ _) as [a ts']. destruct H as [Hu' Hr].
  assert (t_effects ts2 = t_effects ts) as He2 by exact He. split.
  - unfold turn_recorded in *. destruct a as [[]|]; try done; by rewrite <- He2.
  - exists k. do 2 eexists. rewrite Hu'. unfold ts2. cbn. rewrite Hu. done.
Qed.

(** C3. A tool waiting for approval runs only for an approval that fits: any call
    of the model or of a tool made by [process_approval] presupposes a thread
    that awaits approval, a positive answer, and, if the answer names a
    request, the pending one.  An answer that names another request leaves the
    request pending. *)
Theorem approval_gate (request : option Uuid) (approved always : bool) ts th :
  threads (t_sess ts) !! tid = Some th ->
  let '(a, ts') := process_approval E O user tid prompt active request approved always ts in
  (d_log (t_d ts') <> d_log (t_d ts) ->
     th_state th = AwaitingApproval /\ approved = true
     /\ exists p, pending_approval th = Some p /\ (request = None \/ request = Some (request_id p)))
  /\ (forall p id, th_state th = AwaitingApproval -> pending_approval th = Some p -> request = Some id -> id <> request_id p ->
      a = Ok (SError "Request ID mismatch. Use the correct request ID.")
      /\ exists th', threads (t_sess ts') !! tid = Some th' /\ th_state th' = AwaitingApproval
           /\ pending_approval th' = Some p /\ turns th' = turns th).
Proof.
  intros Hth. unfold process_approval. rewrite Hth.
  case_bool_decide as Hs; cbn [negb]; [|split; [done|]; intros; done].
  destruct (pending_approval th) as [p|] eqn:Hp; [|split; [done|]; intros; done].
  set (ts1 := t_update tid _ ts). destruct request as [id|].
  - destruct (N.eqb_spec id (request_id p)) as [->|Hne]; cbn [negb].
    + destruct approved.
      * destruct (run_approved _ _ _ _ _ _ _ _ _) as [a ts']. split; [|intros; congruence].
        intros _. split; [done|]. split; [done|]. exists p. auto.
      * split; [done|]. intros; congruence.
    + split; [done|]. intros p' id' _ [= <-] _ _. split; [done|].
      exists (await_approval p (now E ts1) (snd (take_pending_approval th))).
      rewrite t_update_thread. unfold ts1. by rewrite t_update_thread, Hth.
  - destruct approved.
    + destruct (run_approved _ _ _ _ _ _ _ _ _) as [a ts']. split; [|intros; congruence].
      intros _. split; [done|]. split; [done|]. exists p. auto.
    + split; [done|]. intros; congruence.
Qed.

(** What the approval path leaves out, compared with a turn that needed no
    approval: (1) it never stores a turn, so neither the input nor the answer
    of a turn that was approved reaches the database; (2) a rejection returns
    the thread to idle but leaves its turn as it is, still processing and
    without an answer; (3) an interrupt that arrives while the approved tool
    runs is overwritten: the answer is delivered and the thread idle. *)
Theorem approval_path_gaps (request : option Uuid) (approved always : bool) ts :
  (exists evs, t_effects (snd (process_approval E O user tid prompt active request approved always ts)) = t_effects ts ++ evs
     /\ forall i r, PersistTurn tid user i r ∉ evs)
  /\ (forall th, threads (t_sess ts) !! tid = Some th -> th_state th = AwaitingApproval -> is_Some (pending_approval th) ->
        exists th', threads (t_sess (snd (process_approval E O user tid prompt active None false always ts))) !! tid = Some th'
          /\ th_state th' = Idle /\ turns th' = turns th)
  /\ (forall th r, threads (t_sess ts) !! tid = Some th -> th_state th = Interrupted ->
        fst (finish_approved E O tid (Ok (Response r)) ts) = Ok (SResponse r)
        /\ exists th', threads (t_sess (snd (finish_approved E O tid (Ok (Response r)) ts))) !! tid = Some th' /\ th_state th' = Idle).
Proof.
  assert (forall ts1 ts2, t_effects ts2 = t_effects ts1 -> exists evs, t_effects ts2 = t_effects ts1 ++ evs /\ Forall is_chain evs) as Hsame.
  { intros ts1 ts2 ->. exists []. by rewrite app_nil_r. }
  assert (forall result ts1, exists evs, t_effects (snd (finish_approved E O tid result ts1)) = t_effects ts1 ++ evs /\ Forall is_chain evs) as Hfin.
  { intros result ts1. unfold finish_approved. destruct (threads (t_sess ts1) !! tid); [|by apply Hsame].
    destruct result as [[r|p]|e]; [|by apply Hsame|by apply Hsame]. apply (chain_spec O tid (t_update tid _ ts1)). }
  assert (exists evs, t_effects (snd (process_approval E O user tid prompt active request approved always ts)) = t_effects ts ++ evs
            /\ Forall is_chain evs) as (evs & He & Hc).
  { unfold process_approval. destruct (threads (t_sess ts) !! tid) as [th|]; [|by apply Hsame].
    destruct (negb _); [by apply Hsame|]. destruct (pending_approval th) as [p|]; [|by apply Hsame].
    destruct (match request with Some _ => _ | None => _ end); [by apply Hsame|].
    destruct approved; [|by apply Hsame]. unfold run_approved.
    destruct (execute_chat_tool _ _ _ _ _) as [r d]. destruct (detect_auth_awaiting _ _ _) as [[ext ins]|]; [by destruct always; apply Hsame|].
    destruct (run_agentic_loop _ _ _ _ _ _ _ _) as [result d'].
    match goal with |- context[finish_approved E O tid result ?t] => destruct (Hfin result t) as (evs & He & Hc) end.
    exists evs. rewrite He. split; [|done]. by destruct always. }
  split; [|split].
  - exists evs. split; [done|]. intros i r Hin. rewrite Forall_forall in Hc. exact (Hc _ Hin).
  - intros th Hth Hs [p Hp]. unfold process_approval. rewrite Hth, (bool_decide_true _ Hs), Hp. cbn [negb snd].
    eexists. by rewrite !t_update_thread, Hth.
  - intros th r Hth Hs. unfold finish_approved. rewrite Hth. split; [done|]. cbn [snd].
    destruct (chain_spec O tid (t_update tid (complete_turn r (now E ts)) ts)) as (_ & _ & _ & H).
    destruct (H (complete_turn r (now E ts) th)) as (th' & H1 & _ & H2); [by rewrite t_update_thread, Hth|]. eauto.
Qed.

(** An approval in the middle of a batch breaks the protocol with the model:
    when the calls carry distinct ids and one of them stops the batch, the
    context the loop resumes with has no tool message for any call after it. *)
Theorem later_calls_unanswered (calls : list TCall) (ctx : list (ChatMessage Json)) early (st st' : DState W) (p : PendingApproval Json) (r : Result string Error) :
  NoDup (map tc_id calls) -> run_calls E user tid calls ctx early st = (CallApproval p, st') ->
  exists before tc after answers, calls = before ++ tc :: after /\ pa_tool_call_id p = tc_id tc
    /\ resumed_context E p r = ctx ++ answers
    /\ forall tc' m, tc' ∈ after -> m ∈ answers -> tool_call_id m <> Some (tc_id tc').
Proof.
  intros Hnd Hrun. pose proof (answered_so_far E user tid calls ctx early st) as H. rewrite Hrun in H.
  destruct H as (before & tc & after & rs & -> & Hctx & Hid & Htc & _).
  exists before, tc, after, (rs ++ [msg_tool_result (pa_tool_call_id p) (pa_tool_name p) (result_content E (pa_tool_name p) r)]).
  split; [done|]. split; [done|]. unfold resumed_context. rewrite Hctx, <- app_assoc. split; [done|].
  intros tc' m Hin Hm Heq. rewrite map_app in Hnd. cbn [map] in Hnd.
  apply NoDup_app in Hnd as (_ & Hdis & Hnd). apply NoDup_cons in Hnd as [Htc' _].
  assert (tc_id tc' ∈ map tc_id after) as Hafter by (apply list_elem_of_fmap; eauto).
  apply elem_of_app in Hm as [Hm|Hm%list_elem_of_singleton].
  - assert (Some (tc_id tc') ∈ map tool_call_id rs) as Hrs by (apply list_elem_of_fmap; eauto).
    rewrite Hid in Hrs. apply list_elem_of_fmap in Hrs as (tc0 & [= Hk] & H0).
    apply (Hdis (tc_id tc')); [rewrite Hk; apply list_elem_of_fmap; eauto|]. by right.
  - subst m. cbn in Heq. injection Heq as Heq. rewrite <- Heq, Htc in Hafter. done.
Qed.

End Claims.

(** ** The compactor of [Compaction.v] *)
Section Implementation.
  Context {Decimal P Ws : Type} `{!LlmProvider Json Decimal P}.
  Context (append : string -> string -> Ws -> bool * Ws) (fmt_date fmt_time : DateTime -> string).

(** A world that holds the provider, the workspace and the clock. *)
Record AgentWorld := mkWorld { w_llm : P; w_workspace : option Ws; w_time : Instant }.
Definition agent_compactor (strategy : CompactionStrategy) (th : Thread Json) (w : AgentWorld)
  : Result CompactionResult LlmError * Thread Json * AgentWorld :=
  let '(r, p, t, th', ws) := compact append fmt_date fmt_time strategy (w_time w) th (w_workspace w) (w_llm w) (w_time w) in
  (r, th', mkWorld p ws t).

Lemma agent_compacts strategy th w : exists k, (agent_compactor strategy th w).1.2 = truncate_turns k th.
Proof.
  unfold agent_compactor. pose proof (compact_cases append fmt_date fmt_time strategy (w_time w) th (w_workspace w) (w_llm w) (w_time w)) as H.
  destruct (compact _ _ _ _ _ _ _ _ _) as [[[[r p] t] th'] ws'].
  destruct H as [(_ & -> & _)|(c & _ & -> & _)]; [exists (length (turns th)); by rewrite truncate_small|by eexists].
Qed.

(** It discharges the interface. *)
#[export] Instance agent_compacts_instance (O : Ops AgentWorld) (H : compactor O = agent_compactor) : Compacts O.
Proof. split. intros strategy th w. rewrite H. apply agent_compacts. Qed.
End Implementation.

(** ** Witnesses *)
Definition demo_ops : Ops unit := {|
  has_store := true; shadow_get := None; input_blocked := fun _ => false;
  handle_command := fun _ _ => None; find_reflex := fun _ _ => None; monitor := new_monitor;
  compactor := fun _ th w => (Err (AuthFailed "llm"), truncate_turns 5 th, w);
  chain_id := fun _ _ => None;
  ext_auth := Some (fun _ _ sh => (Ok (mkAuth "authenticated" None), sh));
  ext_activate := fun _ sh => (Ok ["tool"%string], sh);
  cancel_jobs := fun _ sh => (0%nat, sh);
  show_uuid := fun _ => "id"; show_percent := fun _ => "0.0";
|}%string.
#[local] Instance demo_compacts : Compacts demo_ops.
Proof. split. intros strategy th w. by exists 5%nat. Qed.

(** A model that answers with a text; a thread, idle or waiting. *)
Definition talk_deps : Deps unit :=
  let d := demo_deps false [] in
  mkDeps _ (get_tool d) (tool_definitions d) (clock d) (today d) (fresh_uuid d) (active_model d)
    (fun _ _ _ _ sh => ([], Ok (mkRespond (Text "hello") 1 1), sh))
    (early_done d) (hooks d) (validator d) (sanitize_output d) (from_str d) (to_string d) (to_string_pretty d)
    (event_from_str d) (show_duration d) (show_limit d) (display d) (kernel d) (piped_execution d).
Definition idle_thread : Thread Json := new_thread 4%N 1%N 0 JNull.
Definition on_thread (f : Thread Json -> Thread Json) : TState unit :=
  mkT _ (mkD _ (mkShared _ tt
    (update_thread 4%N f (snd (create_thread 4%N 0 JNull (new_session 1%N 0 JNull "alice"))))
    (new_guard (mkGuardConfig None None) 0)) []) new_undo [].
Definition demo_pending : PendingApproval Json := mkPendingApproval _ 9%N "shell" JNull "runs a command" "c1" [].

Lemma agent_turn_recorded_witness :
  let '(a, ts') := agent_turn talk_deps demo_ops "alice" 4%N None [] "hi" (on_thread id) in
  turn_recorded demo_ops "alice" 4%N "hi" (on_thread id) ts' a /\ a = Ok (SResponse "hello").
Proof.
  pose proof (agent_turn_recorded talk_deps demo_ops "alice" 4%N None [] "hi" (on_thread id) idle_thread) as H.
  assert (fst (agent_turn talk_deps demo_ops "alice" 4%N None [] "hi" (on_thread id)) = Ok (SResponse "hello")) as E
    by (vm_compute; reflexivity).
  destruct (agent_turn talk_deps demo_ops "alice" 4%N None [] "hi" (on_thread id)) as [a ts'].
  split; [|exact E]. apply H. vm_compute. reflexivity.
Defined.

Lemma approval_gate_witness :
  let '(a, ts') := process_approval talk_deps demo_ops "alice" 4%N None [] (Some 8%N) true false
                     (on_thread (await_approval demo_pending 1)) in
  a = Ok (SError "Request ID mismatch. Use the correct request ID.").
Proof.
  pose proof (approval_gate talk_deps demo_ops "alice" 4%N None [] (Some 8%N) true false
    (on_thread (await_approval demo_pending 1)) (await_approval demo_pending 1 idle_thread)) as H.
  destruct (process_approval _ _ _ _ _ _ _ _ _ _) as [a ts'].
  destruct H as [_ H]; [vm_compute; reflexivity|]. destruct (H demo_pending 8%N) as [-> _]; done.
Defined.

Lemma later_calls_unanswered_witness :
  exists before tc after answers, [call "a"; call "b"] = before ++ tc :: after
    /\ resumed_context talk_deps (mkPendingApproval _ 7%N "shell" (tc_arguments (call "a")) "runs a command" "a" []) (Ok "out"%string)
       = [] ++ answers
    /\ forall tc' m, tc' ∈ after -> m ∈ answers -> tool_call_id m <> Some (tc_id tc').
Proof.
  destruct (later_calls_unanswered (demo_deps true []) "alice" 4%N [call "a"; call "b"] [] ∅ demo_state demo_state
    (mkPendingApproval _ 7%N "shell" (tc_arguments (call "a")) "runs a command" "a" []) (Ok "out"%string))
    as (before & tc & after & answers & H1 & _ & H2 & H3).
  - repeat constructor; set_solver.
  - vm_compute. reflexivity.
  - exists before, tc, after, answers. split; [exact H1|]. split; [exact H2|exact H3].
Defined.

