(* ===== verification/Scheduler.v ===== *)
(** The scheduler of parallel jobs: [src/agent/scheduler.rs] and
    [src/agent/task.rs].

    A scheduled job is the flag "its worker has finished" (the join handle);
    workers finish in steps of the environment.  The task that watches a job
    reads under one lock and removes under another, so it is two steps.  The
    writes to the database that nobody waits for are the list [db].  What the
    swarm answers for one tool task is the record [Remote]. *)

From S2P Require Import Prelude Strs Llm Json Session JobState JobMemory ContextManager CostGuard Hooks Skills LeakDetector Safety Dispatcher.
#[local] Open Scope claw_scope.

(** ** Tasks

    The handler of a background task answers [None] when it panics. *)
Record TaskOutput := mkOutput { to_result : Json; to_duration : Duration }.
Definition output_text (text : string) (d : Duration) : TaskOutput := mkOutput (JString text) d.
Definition output_empty (d : Duration) : TaskOutput := mkOutput JNull d.
Record TaskContext := mkTaskContext { task_id : Uuid; tc_parent_id : option Uuid; tc_metadata : Json }.
Definition new_task_context (id : Uuid) : TaskContext := mkTaskContext id None JNull.
Definition with_parent (p : Uuid) (c : TaskContext) : TaskContext := mkTaskContext (task_id c) (Some p) (tc_metadata c).
Inductive Task :=
| TJob (id : Uuid) (title description : string)
| TToolExec (parent_id : Uuid) (tool_name : string) (params : Json)
| TBackground (id : Uuid) (description : string) (handler : TaskContext -> option (Result TaskOutput string)).
Definition task_own_id (t : Task) : option Uuid :=
  match t with TJob id _ _ | TBackground id _ _ => Some id | TToolExec _ _ _ => None end.
Definition task_parent_id (t : Task) : option Uuid := match t with TToolExec p _ _ => Some p | _ => None end.
Definition task_description (t : Task) : string :=
  match t with
  | TJob _ title _ => "job: " ++s title
  | TToolExec _ name _ => "tool: " ++s name
  | TBackground _ d _ => "background: " ++s d
  end.

Section Scheduler.
  Context {Decimal Value : Type} `{!DecimalOps Decimal}.
  Abbreviation Ctx := (JobContext Decimal Value).
  Abbreviation Mgr := (ContextManager Decimal Value).

(** ** Jobs *)
Record Scheduler := mkScheduler {
  max_parallel_jobs : nat;
  jobs : gmap Uuid bool;
  subtasks : gmap Uuid bool;
  context_manager : Mgr;
  sched_has_store : bool;
  db : list (Uuid * JobState);
}.
Inductive SchedError := SJob (e : JobError) | SContext (id : Uuid) (reason : string).

Definition set_jobs (s : Scheduler) (j : gmap Uuid bool) (m : Mgr) : Scheduler :=
  mkScheduler (max_parallel_jobs s) j (subtasks s) m (sched_has_store s) (db s).

Definition schedule (id : Uuid) (t1 t2 : DateTime) (s : Scheduler) : Result unit SchedError * Scheduler :=
  match jobs s !! id with
  | Some _ => (Ok tt, s)
  | None =>
      if (max_parallel_jobs s <=? size (jobs s))%nat
      then (Err (SJob (MaxJobsExceeded (max_parallel_jobs s))), s)
      else
        let '(r, m) := update_context (context_manager s) id
                         (fun c => transition_to c InProgress (Some "Scheduled for execution"%string) t1 t2) in
        match r with
        | Err e => (Err (SJob e), set_jobs s (jobs s) m)
        | Ok (Err reason) => (Err (SContext id reason), set_jobs s (jobs s) m)
        | Ok (Ok _) => (Ok tt, set_jobs s (<[id := false]> (jobs s)) m)
        end
  end.

(** [stop]; the worker is told to stop and aborted. *)
Definition stop (id : Uuid) (t1 t2 : DateTime) (s : Scheduler) : Result unit SchedError * Scheduler :=
  match jobs s !! id with
  | None => (Ok tt, s)
  | Some _ =>
      let js := delete id (jobs s) in
      let '(r, m) := update_context (context_manager s) id
                       (fun c => (tt, snd (transition_to c Cancelled (Some "Stopped by scheduler"%string) t1 t2))) in
      match r with
      | Err e => (Err (SJob e), set_jobs s js m)
      | Ok _ =>
          (Ok tt, mkScheduler (max_parallel_jobs s) js (subtasks s) m (sched_has_store s)
                    (if sched_has_store s then db s ++ [(id, Cancelled)] else db s))
      end
  end.

Definition is_running (id : Uuid) (s : Scheduler) : bool := bool_decide (is_Some (jobs s !! id)).
Definition running_count (s : Scheduler) : nat := size (jobs s).
Definition subtask_count (s : Scheduler) : nat := size (subtasks s).
Definition running_jobs (s : Scheduler) : list Uuid := map fst (map_to_list (jobs s)).

(** The watching task: [sees_finished] under the read lock, then the removal. *)
Definition sees_finished (id : Uuid) (s : Scheduler) : bool := default true (jobs s !! id).
Definition watch_remove (id : Uuid) (s : Scheduler) : Scheduler := set_jobs s (delete id (jobs s)) (context_manager s).

Definition unfinished (m : gmap Uuid bool) : gmap Uuid bool := filter (fun kv : Uuid * bool => kv.2 = false) m.
Definition cleanup_finished (s : Scheduler) : Scheduler :=
  mkScheduler (max_parallel_jobs s) (unfinished (jobs s)) (unfinished (subtasks s)) (context_manager s)
    (sched_has_store s) (db s).
Definition stop_all (t1 t2 : DateTime) (s : Scheduler) : Scheduler :=
  let s := foldl (fun s id => snd (stop id t1 t2 s)) s (running_jobs s) in
  mkScheduler (max_parallel_jobs s) (jobs s) ∅ (context_manager s) (sched_has_store s) (db s).

(** ** Tool tasks *)
Inductive OffloadDecision := LocalOnly | RemotePreferred.
Definition required_swarm_capability (name : string) : string :=
  if String.eqb name "shell" then "shell"
  else if String.eqb name "memory_search" || String.eqb name "memory_graph" then "memory_search" else "tool_exec".

(** A tool, with its answer: [None] is a timeout. *)
Record TaskTool := mkTaskTool {
  tt_requires_approval : bool; tt_requires_approval_for : Json -> bool; tt_timeout : Duration;
  tt_execute : Json -> option (Result Json string); tt_elapsed : Duration;
}.
Definition decide_offload (tool : option TaskTool) (has_capability : string -> Result bool string)
    (name : string) (params : Json) : OffloadDecision :=
  match tool with
  | None => LocalOnly
  | Some t =>
      if tt_requires_approval t || tt_requires_approval_for t params then LocalOnly
      else match has_capability (required_swarm_capability name) with
           | Ok true => RemotePreferred
           | _ => LocalOnly
           end
  end.

Inductive TaskError :=
| TaskTool_ (e : ToolError) | TaskAuthRequired (name : string) | TaskJob (e : JobError)
| TaskContextError (id : Uuid) (reason : string) | TaskHandler (e : string).
(** The tool's answer and whether it was executed at all. *)
Definition execute_tool_task (v : Validator) (tool : option TaskTool) (m : Mgr) (id : Uuid) (name : string) (params : Json)
  : Result TaskOutput TaskError * bool :=
  match tool with
  | None => (Err (TaskTool_ (ToolNotFound name)), false)
  | Some t =>
      match get_context m id with
      | Err e => (Err (TaskJob e), false)
      | Ok c =>
          if bool_decide (state c = Cancelled) then (Err (TaskTool_ (ToolExecutionFailed name "Job is cancelled")), false)
          else if tt_requires_approval t then (Err (TaskAuthRequired name), false)
          else
            let validation := validate_tool_params v params in
            if negb (is_valid validation)
            then (Err (TaskTool_ (ToolInvalidParameters name ("Invalid tool parameters: " ++s validation_details validation))), false)
            else (match tt_execute t params with
                  | None => Err (TaskTool_ (ToolTimeout name (tt_timeout t)))
                  | Some (Err e) => Err (TaskTool_ (ToolExecutionFailed name e))
                  | Some (Ok r) => Ok (mkOutput r (tt_elapsed t))
                  end, true)
      end
  end.

Record Metrics := mkMetrics {
  remote_attempts : nat; remote_successes : nat; remote_failures : nat; remote_timeouts : nat;
  local_fallbacks : nat; remote_ineligible : nat;
}.
Definition no_metrics : Metrics := mkMetrics 0 0 0 0 0 0.
Definition REMOTE_DISTRIBUTE_RETRIES : nat := 2.

(** What the swarm answers: capabilities, the registration of the waiter, each
    dispatch, and the remote result ([None] for a timeout or a closed channel). *)
Record Remote := mkRemote {
  has_capability : string -> Result bool string;
  registered : bool;
  dispatch_ok : nat -> bool;
  remote_result : option (bool * string * Duration);
}.
(** [for attempt in 0..=RETRIES]: did one of the dispatches succeed. *)
Definition dispatched (r : Remote) : bool := existsb (dispatch_ok r) (seq 0 (S REMOTE_DISTRIBUTE_RETRIES)).

Inductive Via := ViaRemote (out : TaskOutput) | ViaLocal.
Definition bump (m : Metrics) (att suc fai tim loc ine : nat) : Metrics :=
  mkMetrics (remote_attempts m + att) (remote_successes m + suc) (remote_failures m + fai) (remote_timeouts m + tim)
    (local_fallbacks m + loc) (remote_ineligible m + ine).
Definition route_tool_task (from_str : string -> option Json) (swarm : option Remote) (tool : option TaskTool)
    (name : string) (params : Json) (m : Metrics) : Via * Metrics :=
  match swarm with
  | None => (ViaLocal, bump m 0 0 0 0 1 0)
  | Some r =>
      match decide_offload tool (has_capability r) name params with
      | LocalOnly => (ViaLocal, bump m 0 0 0 0 1 1)
      | RemotePreferred =>
          if negb (registered r) then (ViaLocal, bump m 1 0 0 0 1 1)
          else if negb (dispatched r) then (ViaLocal, bump m 1 0 1 0 1 0)
          else match remote_result r with
               | Some (true, output, d) =>
                   (ViaRemote (mkOutput (default (JObject [("output"%string, JString output)]) (from_str output)) d),
                    bump m 1 1 0 0 0 0)
               | Some (false, _, _) => (ViaLocal, bump m 1 0 1 0 1 0)
               | None => (ViaLocal, bump m 1 0 0 1 1 0)
               end
      end
  end.
Definition run_tool_task (from_str : string -> option Json) (v : Validator) (swarm : option Remote) (tool : option TaskTool)
    (mgr : Mgr) (id : Uuid) (name : string) (params : Json) (m : Metrics) : Result TaskOutput TaskError * Metrics :=
  let '(via, m) := route_tool_task from_str swarm tool name params m in
  (match via with ViaRemote out => Ok out | ViaLocal => fst (execute_tool_task v tool mgr id name params) end, m).

(** ** Subtasks

    What a subtask sends on its channel; [None] when the channel is closed
    without an answer.  The counters are atomic and only added to, so they are
    threaded in the order of the tasks. *)
Record TaskEnv := mkTaskEnv {
  te_from_str : string -> option Json; te_validator : Validator; te_swarm : option Remote; te_tool : string -> option TaskTool;
}.
Definition subtask_answer (env : TaskEnv) (parent id : Uuid) (t : Task) (mgr : Mgr) (m : Metrics)
  : option (Result TaskOutput TaskError) * Metrics :=
  match t with
  | TJob _ _ _ => (None, m)
  | TToolExec job name params =>
      let '(r, m) := run_tool_task (te_from_str env) (te_validator env) (te_swarm env) (te_tool env name) mgr job name params m in
      (Some r, m)
  | TBackground _ _ handler =>
      (match handler (with_parent parent (new_task_context id)) with
       | Some (Ok out) => Some (Ok out)
       | Some (Err e) => Some (Err (TaskHandler e))
       | None => None
       end, m)
  end.

Definition set_subtasks (s : Scheduler) (st : gmap Uuid bool) : Scheduler :=
  mkScheduler (max_parallel_jobs s) (jobs s) st (context_manager s) (sched_has_store s) (db s).

(** The receiver of a spawned subtask is what will arrive on it. *)
Definition spawn_subtask (env : TaskEnv) (parent fresh : Uuid) (t : Task) (s : Scheduler) (m : Metrics)
  : Result (option (Result TaskOutput TaskError)) SchedError * Scheduler * Metrics :=
  match t with
  | TJob _ _ _ => (Err (SContext parent "Use schedule() for Job tasks, not spawn_subtask()"), s, m)
  | _ =>
      let '(answer, m) := subtask_answer env parent fresh t (context_manager s) m in
      (Ok answer, set_subtasks s (<[fresh := false]> (subtasks s)), m)
  end.

Definition collect (parent : Uuid) (rx : option (option (Result TaskOutput TaskError))) : Result TaskOutput TaskError :=
  match rx with
  | Some (Some r) => r
  | Some None => Err (TaskContextError parent "Subtask channel closed unexpectedly")
  | None => Err (TaskContextError parent "Subtask failed to spawn")
  end.
Fixpoint spawn_all (env : TaskEnv) (parent : Uuid) (ts : list (Task * Uuid)) (s : Scheduler) (m : Metrics)
  : list (option (option (Result TaskOutput TaskError))) * Scheduler * Metrics :=
  match ts with
  | [] => ([], s, m)
  | (t, fresh) :: ts =>
      let '(r, s, m) := spawn_subtask env parent fresh t s m in
      let '(rxs, s, m) := spawn_all env parent ts s m in
      (match r with Ok rx => Some rx | Err _ => None end :: rxs, s, m)
  end.
Definition spawn_batch (env : TaskEnv) (parent : Uuid) (ts : list (Task * Uuid)) (s : Scheduler) (m : Metrics)
  : list (Result TaskOutput TaskError) * Scheduler * Metrics :=
  let '(rxs, s, m) := spawn_all env parent ts s m in (map (collect parent) rxs, s, m).

(** ** Executions *)
Inductive sched_step : Scheduler -> Scheduler -> Prop :=
| ss_schedule id t1 t2 s : sched_step s (snd (schedule id t1 t2 s))
| ss_stop id t1 t2 s : sched_step s (snd (stop id t1 t2 s))
| ss_worker_done id s : jobs s !! id = Some false -> sched_step s (set_jobs s (<[id := true]> (jobs s)) (context_manager s))
| ss_worker_updates id (f : Ctx -> Result unit string * Ctx) s :
    sched_step s (set_jobs s (jobs s) (snd (update_context (context_manager s) id f)))
| ss_watch id s : sched_step s (watch_remove id s)
| ss_cleanup s : sched_step s (cleanup_finished s)
| ss_stop_all t1 t2 s : sched_step s (stop_all t1 t2 s)
| ss_subtask env parent fresh t m s : sched_step s (snd (fst (spawn_subtask env parent fresh t s m)))
| ss_subtasks st s : st ⊆ subtasks s -> sched_step s (set_subtasks s st).

Record sched_ok (s : Scheduler) : Prop := {
  sk_bound : (size (jobs s) <= max_parallel_jobs s)%nat;
  sk_ctx : forall id, is_Some (jobs s !! id) -> is_Some (contexts (context_manager s) !! id);
}.

(** ** Lemmas *)
Lemma update_context_dom {R} (m : Mgr) id (f : Ctx -> R * Ctx) k :
  is_Some (contexts (snd (update_context m id f)) !! k) <-> is_Some (contexts m !! k).
Proof.
  unfold update_context. destruct (contexts m !! id) as [c|] eqn:E; [|done]. destruct (f c) as [r c']. cbn.
  destruct (decide (id = k)) as [->|Hne]; [rewrite lookup_insert_eq, E; split; by eexists|by rewrite lookup_insert_ne].
Qed.

Lemma sub_jobs_ok (s : Scheduler) js m :
  sched_ok s -> js ⊆ jobs s -> (forall k, is_Some (contexts (context_manager s) !! k) -> is_Some (contexts m !! k)) ->
  sched_ok (set_jobs s js m).
Proof.
  intros [H1 H2] Hsub Hm. split; cbn.
  - pose proof (map_subseteq_size _ _ Hsub). lia.
  - intros id [x Hx]. apply Hm, H2. exists x. by eapply lookup_weaken.
Qed.

Lemma schedule_ok id t1 t2 s : sched_ok s -> sched_ok (snd (schedule id t1 t2 s)).
Proof.
  intros Hs. unfold schedule. destruct (jobs s !! id) eqn:Ej; [done|].
  destruct (Nat.leb_spec (max_parallel_jobs s) (size (jobs s))); [done|].
  pose proof (update_context_dom (context_manager s) id
    (fun c => transition_to c InProgress (Some "Scheduled for execution"%string) t1 t2)) as Hd.
  destruct (update_context _ _ _) as [r m] eqn:Eu. cbn [snd] in Hd.
  destruct r as [[[]|reason]|e]; cbn [snd]; [|apply sub_jobs_ok; [done|done|intros k; apply Hd]..].
  destruct Hs as [H1 H2]. split; cbn.
  - rewrite map_size_insert_None by done. lia.
  - intros k Hk. apply Hd. apply lookup_insert_is_Some in Hk as [<-|[_ Hk]]; [|by apply H2].
    unfold update_context in Eu. destruct (contexts (context_manager s) !! id) eqn:Ec; [by eexists|done].
Qed.

Lemma stop_ok id t1 t2 s : sched_ok s -> sched_ok (snd (stop id t1 t2 s)).
Proof.
  intros Hs. unfold stop. destruct (jobs s !! id) eqn:Ej; [|done].
  pose proof (update_context_dom (context_manager s) id
    (fun c => (tt, snd (transition_to c Cancelled (Some "Stopped by scheduler"%string) t1 t2)))) as Hd.
  destruct (update_context _ _ _) as [r m]. cbn [snd] in Hd.
  assert (sched_ok (set_jobs s (delete id (jobs s)) m)) as H.
  { apply sub_jobs_ok; [done|apply delete_subseteq|intros k; apply Hd]. }
  destruct r; cbn [snd]; [|done]. destruct H as [H1 H2]. by split.
Qed.

Lemma sched_step_ok s s' : sched_step s s' -> sched_ok s -> sched_ok s'.
Proof.
  intros Hstep Hs. destruct Hstep as [id t1 t2 s|id t1 t2 s|id s Hid|id f s|id s|s|t1 t2 s|env parent fresh t m s|st s _].
  - by apply schedule_ok.
  - by apply stop_ok.
  - destruct Hs as [H1 H2]. split; cbn; [by rewrite map_size_insert_Some by (by eexists)|].
    intros k Hk. apply H2. apply lookup_insert_is_Some in Hk as [<-|[_ Hk]]; [by eexists|done].
  - apply sub_jobs_ok; [done|done|]. intros k. by apply update_context_dom.
  - apply sub_jobs_ok; [done|apply delete_subseteq|done].
  - assert (unfinished (jobs s) ⊆ jobs s) as Hsub by apply map_filter_subseteq.
    destruct (sub_jobs_ok s _ (context_manager s) Hs Hsub ltac:(done)) as [H1 H2]. by split.
  - unfold stop_all. enough (sched_ok (foldl (fun s id => snd (stop id t1 t2 s)) s (running_jobs s))) as [H1 H2] by by split.
    generalize (running_jobs s). intros l. revert s Hs. induction l as [|id l IH]; intros s Hs; [done|].
    cbn [foldl]. apply IH. by apply stop_ok.
  - destruct Hs as [H1 H2]. destruct t; [by split|..]; cbn [spawn_subtask];
      destruct (subtask_answer _ _ _ _ _ _) as [answer m']; by split.
  - destruct Hs as [H1 H2]. by split.
Qed.

(** A change that is refused leaves the manager as it was. *)
Lemma update_context_same {R} (m : Mgr) id (f : Ctx -> R * Ctx) c :
  contexts m !! id = Some c -> snd (f c) = c -> update_context m id f = (Ok (fst (f c)), m).
Proof.
  intros Hc Hf. unfold update_context. rewrite Hc. destruct (f c) as [r c']. cbn in *. subst c'.
  rewrite insert_id by done. by destruct m.
Qed.
Lemma set_jobs_id (s : Scheduler) : set_jobs s (jobs s) (context_manager s) = s.
Proof. by destruct s. Qed.

Lemma route_counts from_str swarm tool name params m :
  let '(_, m') := route_tool_task from_str swarm tool name params m in
  (local_fallbacks m' + remote_successes m' = S (local_fallbacks m + remote_successes m)
   /\ (remote_successes m' + remote_failures m' + remote_timeouts m') + remote_attempts m
       <= remote_attempts m' + (remote_successes m + remote_failures m + remote_timeouts m))%nat.
Proof.
  unfold route_tool_task. destruct swarm as [r|]; [|cbn; lia]. destruct (decide_offload _ _ _ _); [cbn; lia|].
  destruct (negb (registered r)); [cbn; lia|]. destruct (negb (dispatched r)); [cbn; lia|].
  destruct (remote_result r) as [[[[] o] d]|]; cbn; lia.
Qed.

Definition is_tool_task (t : Task) : bool := match t with TToolExec _ _ _ => true | _ => false end.
Definition is_job_task (t : Task) : bool := match t with TJob _ _ _ => true | _ => false end.

Lemma tool_answer_metrics env parent id t mgr m m1 :
  fst (subtask_answer env parent id t mgr m) = fst (subtask_answer env parent id t mgr m1)
  /\ (let m' := snd (subtask_answer env parent id t mgr m) in
      local_fallbacks m' + remote_successes m' = (if is_tool_task t then 1 else 0) + (local_fallbacks m + remote_successes m))%nat.
Proof.
  destruct t as [|job name params|]; [done| |done]. cbn [subtask_answer is_tool_task]. unfold run_tool_task.
  pose proof (route_counts (te_from_str env) (te_swarm env) (te_tool env name) name params m) as H.
  assert (fst (route_tool_task (te_from_str env) (te_swarm env) (te_tool env name) name params m)
          = fst (route_tool_task (te_from_str env) (te_swarm env) (te_tool env name) name params m1)) as Hv.
  { unfold route_tool_task. destruct (te_swarm env) as [r|]; [|done]. destruct (decide_offload _ _ _ _); [done|].
    destruct (negb (registered r)); [done|]. destruct (negb (dispatched r)); [done|].
    by destruct (remote_result r) as [[[[] o] d]|]. }
  destruct (route_tool_task _ _ _ _ _ m) as [via m'], (route_tool_task _ _ _ _ _ m1) as [via1 m1']. cbn in *.
  subst via1. split; [done|]. lia.
Qed.

Lemma spawn_subtask_facts env parent fresh t s m :
  let '(r, s', m') := spawn_subtask env parent fresh t s m in
  collect parent (match r with Ok rx => Some rx | Err _ => None end)
    = (if is_job_task t then collect parent None else collect parent (Some (fst (subtask_answer env parent fresh t (context_manager s) m))))
  /\ context_manager s' = context_manager s /\ jobs s' = jobs s
  /\ (forall k, is_Some (subtasks s' !! k) -> k = fresh \/ is_Some (subtasks s !! k))
  /\ (local_fallbacks m' + remote_successes m' = (if is_tool_task t then 1 else 0) + (local_fallbacks m + remote_successes m))%nat.
Proof.
  pose proof (proj2 (tool_answer_metrics env parent fresh t (context_manager s) m m)) as Hm.
  destruct t; [by split_and!; [..|intros k; auto|]|..]; cbn [spawn_subtask is_job_task];
    destruct (subtask_answer _ _ _ _ _ _) as [answer m'] eqn:Ea; split_and!; try done;
    intros k Hk; cbn in Hk; apply lookup_insert_is_Some in Hk as [<-|[_ Hk]]; auto.
Qed.

(** ** Properties *)

(** C30. However scheduling, stopping, the workers and the clean-up tasks
    interleave, the scheduler never holds more jobs than the configured number
    of parallel ones, and every job it holds has a context. *)
Theorem scheduler_bounded (s0 s : Scheduler) :
  jobs s0 = ∅ -> rtc sched_step s0 s ->
  (running_count s <= max_parallel_jobs s)%nat
  /\ forall id, is_running id s = true -> is_Some (contexts (context_manager s) !! id).
Proof.
  intros H0 Hrtc. assert (sched_ok s) as [H1 H2].
  { assert (sched_ok s0) as Hs by (split; [rewrite H0, map_size_empty; lia|]; intros id; rewrite H0, lookup_empty; by intros []).
    clear H0. induction Hrtc; eauto using sched_step_ok. }
  split; [exact H1|]. intros id Hid. apply H2. unfold is_running in Hid. by apply bool_decide_eq_true in Hid.
Qed.

(** What [schedule] does: a job that may start gets a worker and moves to
    [InProgress]; at capacity, without a context or from a state that cannot
    start, it fails and nothing changes; and a job whose worker has already
    finished, but has not been cleaned up yet, is reported as scheduled
    although no worker is started. *)
Theorem schedule_spec (id : Uuid) (t1 t2 : DateTime) (s : Scheduler) :
  (jobs s !! id = None -> (size (jobs s) < max_parallel_jobs s)%nat ->
     forall c, contexts (context_manager s) !! id = Some c -> can_transition_to (state c) InProgress = true ->
     exists s' c', schedule id t1 t2 s = (Ok tt, s') /\ jobs s' = <[id := false]> (jobs s)
       /\ contexts (context_manager s') !! id = Some c' /\ state c' = InProgress)
  /\ (is_ok (fst (schedule id t1 t2 s)) = false -> snd (schedule id t1 t2 s) = s)
  /\ (jobs s !! id = None -> (max_parallel_jobs s <= size (jobs s))%nat ->
     fst (schedule id t1 t2 s) = Err (SJob (MaxJobsExceeded (max_parallel_jobs s))))
  /\ (jobs s !! id = Some true -> schedule id t1 t2 s = (Ok tt, s)).
Proof.
  unfold schedule. split_and!.
  - intros -> Hn c Hc Hs. rewrite (proj2 (Nat.leb_gt _ _) Hn). unfold update_context. rewrite Hc, transition_to_ok by done.
    do 2 eexists. split; [done|]. split; [done|]. cbn. by rewrite lookup_insert_eq.
  - destruct (jobs s !! id); [done|]. destruct (_ <=? _)%nat; [done|].
    unfold update_context. destruct (contexts (context_manager s) !! id) as [c|] eqn:Hc; [|intros _; apply set_jobs_id].
    destruct (can_transition_to (state c) InProgress) eqn:Es; [by rewrite transition_to_ok|].
    destruct (transition_to_err c InProgress (Some "Scheduled for execution"%string) t1 t2 Es) as [msg ->]. intros _. cbn.
    rewrite insert_id by done. by destruct s as [? ? ? []].
  - intros -> Hn. by rewrite (proj2 (Nat.leb_le _ _) Hn).
  - by intros ->.
Qed.

(** Stopping a job that has completed, in the second before its entry is
    cleaned up, reports success and records it as cancelled in the database,
    while its context stays completed; stopping a job that is not scheduled
    reports success and does nothing. *)
Theorem stop_overwrites_completed (id : Uuid) (t1 t2 : DateTime) (s : Scheduler) c :
  contexts (context_manager s) !! id = Some c -> can_transition_to (state c) Cancelled = false -> sched_has_store s = true ->
  (is_running id s = true -> exists s', stop id t1 t2 s = (Ok tt, s')
     /\ contexts (context_manager s') !! id = Some c /\ (id, Cancelled) ∈ db s')
  /\ (is_running id s = false -> stop id t1 t2 s = (Ok tt, s)).
Proof.
  intros Hc Hs Hst. unfold is_running, stop. destruct (jobs s !! id) as [b|] eqn:Ej.
  - split; [|done]. intros _. destruct (transition_to_err c Cancelled (Some "Stopped by scheduler"%string) t1 t2 Hs) as [msg E].
    rewrite (update_context_same _ _ _ c Hc) by (cbn; by rewrite E). eexists. split; [done|]. split; [done|].
    cbn. rewrite Hst. apply elem_of_app. right. left.
  - split; [|done]. by rewrite bool_decide_false by (by intros []).
Qed.

(** Tool tasks: each one is counted exactly once, as a remote success or as a
    local run, and there are never more remote outcomes than attempts.  A tool
    that needs approval is neither sent to another node nor executed here. *)
Theorem tool_task_accounting from_str v swarm tool (mgr : Mgr) id name params m :
  (let '(_, m') := run_tool_task from_str v swarm tool mgr id name params m in
   (local_fallbacks m' + remote_successes m' = S (local_fallbacks m + remote_successes m))%nat
   /\ ((remote_successes m + remote_failures m + remote_timeouts m <= remote_attempts m)%nat ->
       (remote_successes m' + remote_failures m' + remote_timeouts m' <= remote_attempts m')%nat))
  /\ (forall t, tool = Some t -> tt_requires_approval t = true ->
       fst (route_tool_task from_str swarm tool name params m) = ViaLocal
       /\ snd (execute_tool_task v tool mgr id name params) = false
       /\ is_ok (fst (run_tool_task from_str v swarm tool mgr id name params m)) = false).
Proof.
  split.
  - unfold run_tool_task. pose proof (route_counts from_str swarm tool name params m) as H.
    destruct (route_tool_task _ _ _ _ _ _) as [via m']. lia.
  - intros t -> Ha. assert (fst (route_tool_task from_str swarm (Some t) name params m) = ViaLocal) as Hr.
    { unfold route_tool_task, decide_offload. rewrite Ha. by destruct swarm. }
    assert (snd (execute_tool_task v (Some t) mgr id name params) = false
            /\ is_ok (fst (execute_tool_task v (Some t) mgr id name params)) = false) as [He Ho].
    { unfold execute_tool_task. destruct (get_context mgr id) as [c|e]; [|done].
      destruct (bool_decide _); [done|]. by rewrite Ha. }
    split; [done|]. split; [done|]. unfold run_tool_task. destruct (route_tool_task _ _ _ _ _ _) as [via m']. cbn in Hr |- *.
    by rewrite Hr.
Qed.

(** A batch answers its tasks in their order: the [i]-th result is that of the
    [i]-th task, the answer of a tool or of a handler as it is, an error for a
    job (which must go through [schedule]) and for a handler that panicked.
    The scheduled jobs are not touched, and the counters grow by exactly the
    number of tool tasks. *)
Theorem spawn_batch_in_order env parent (ts : list (Task * Uuid)) (s : Scheduler) (m : Metrics) :
  let '(rs, s', m') := spawn_batch env parent ts s m in
  rs = map (fun tf : Task * Uuid =>
              if is_job_task tf.1 then Err (TaskContextError parent "Subtask failed to spawn")
              else collect parent (Some (fst (subtask_answer env parent tf.2 tf.1 (context_manager s) no_metrics)))) ts
  /\ jobs s' = jobs s /\ context_manager s' = context_manager s
  /\ (forall k, is_Some (subtasks s' !! k) -> k ∈ map snd ts \/ is_Some (subtasks s !! k))
  /\ (local_fallbacks m' + remote_successes m'
       = length (List.filter (fun tf : Task * Uuid => is_tool_task tf.1) ts) + (local_fallbacks m + remote_successes m))%nat.
Proof.
  unfold spawn_batch. revert s m. induction ts as [|[t fresh] ts IH]; intros s m; [by split_and!; auto|].
  cbn [spawn_all]. pose proof (spawn_subtask_facts env parent fresh t s m) as H1.
  destruct (spawn_subtask _ _ _ _ _ _) as [[r s1] m1]. destruct H1 as (Hr & Hc & Hj & Hs & Hm).
  specialize (IH s1 m1). destruct (spawn_all _ _ _ _ _) as [[rxs s2] m2]. destruct IH as (IHr & IHj & IHc & IHs & IHm).
  cbn [map]. split_and!; [|congruence|congruence|..].
  - rewrite Hr, IHr, Hc. cbn [map fst snd]. destruct (is_job_task t); [done|].
    by rewrite (proj1 (tool_answer_metrics env parent fresh t (context_manager s) m no_metrics)).
  - intros k Hk. cbn [map snd]. apply IHs in Hk as [Hk|Hk]; [by left; right|]. apply Hs in Hk as [->|Hk]; [left; left|by right].
  - rewrite IHm, Hm. cbn [List.filter fst]. destruct (is_tool_task t); cbn [length]; lia.
Qed.
End Scheduler.
Arguments Scheduler : clear implicits.

(** ** Witnesses *)
Definition done_job : JobContext Z unit :=
  snd (transition_to (snd (transition_to (with_user 7%N 0 tt "alice" "t" "d") InProgress None 1 1)) Completed None 2 2).
Definition demo_scheduler (j : gmap Uuid bool) : Scheduler Z unit :=
  mkScheduler 2 j ∅ (mkManager _ _ {[7%N := done_job]} ∅ 5) true [].

Lemma scheduler_bounded_witness : (running_count (snd (schedule 7%N 1 1 (demo_scheduler ∅))) <= 2)%nat.
Proof.
  refine (proj1 (scheduler_bounded (demo_scheduler ∅) (snd (schedule 7%N 1 1 (demo_scheduler ∅))) _ _)).
  - reflexivity.
  - apply rtc_once, ss_schedule.
Defined.

Lemma stop_overwrites_completed_witness :
  exists s', stop 7%N 3 3 (demo_scheduler {[7%N := true]}) = (Ok tt, s')
    /\ contexts (context_manager s') !! 7%N = Some done_job /\ (7%N, Cancelled) ∈ db s'.
Proof.
  refine (proj1 (stop_overwrites_completed 7%N 3 3 (demo_scheduler {[7%N := true]}) done_job _ _ _) _); reflexivity.
Defined.
