(* ===== verification/Tool.v ===== *)
(** The parts of the tool interface that the built-in tools share:
    [src/tools/tool.rs] (the error a tool reports and the access to its
    parameters) and [src/util.rs] (cutting a string at a character boundary). *)

From S2P Require Import Prelude Strs Json.
From Stdlib Require Import Ascii.
#[local] Open Scope claw_scope.

Inductive ExecError :=
| InvalidParameters (msg : string) | ExecutionFailed (msg : string) | ExecTimeout (d : Duration)
| NotAuthorized (msg : string) | RateLimitedFor (d : option Duration) | ExternalService (msg : string) | SandboxError (msg : string).
Definition exec_error_display (show : Duration -> string) (e : ExecError) : string :=
  match e with
  | InvalidParameters m => "Invalid parameters: " ++s m
  | ExecutionFailed m => "Execution failed: " ++s m
  | ExecTimeout d => "Timeout after " ++s show d
  | NotAuthorized m => "Not authorized: " ++s m
  | RateLimitedFor d =>
      "Rate limited, retry after " ++s match d with Some d => "Some(" ++s show d ++s ")" | None => "None" end
  | ExternalService m => "External service error: " ++s m
  | SandboxError m => "Sandbox error: " ++s m
  end.

Definition require_str (params : Json) (name : string) : Result string ExecError :=
  match get_str name params with
  | Some s => Ok s
  | None => Err (InvalidParameters ("missing '" ++s name ++s "' parameter"))
  end.
Definition require_param (params : Json) (name : string) : Result Json ExecError :=
  match json_get name params with
  | Some v => Ok v
  | None => Err (InvalidParameters ("missing '" ++s name ++s "' parameter"))
  end.

(** [Value::as_u64] and [as_bool]. *)
Definition digit (c : ascii) : option Z :=
  if ascii_between 48 57 c then Some (Z.of_nat (nat_of_ascii c) - 48) else None.
Fixpoint digits (acc : Z) (s : string) : option Z :=
  match s with
  | EmptyString => Some acc
  | String c s => match digit c with Some d => digits (10 * acc + d) s | None => None end
  end.
Definition as_u64 (v : Json) : option Z :=
  match v with
  | JNumber EmptyString => None
  | JNumber t => match digits 0 t with Some n => if n <? 2 ^ 64 then Some n else None | None => None end
  | _ => None
  end.
Definition as_bool (v : Json) : option bool := match v with JBool b => Some b | _ => None end.
Definition get_u64 (k : string) (v : Json) : option Z := json_get k v ≫= as_u64.
Definition get_bool (k : string) (v : Json) : option bool := json_get k v ≫= as_bool.

(** ** Character boundaries

    [str::is_char_boundary]: the ends of the string and every byte that does
    not continue a UTF-8 sequence. *)
Definition continuation (c : ascii) : bool := ascii_between 128 191 c.
Definition is_char_boundary (s : string) (i : nat) : bool :=
  if (i =? 0)%nat || (i =? String.length s)%nat then true
  else match String.get i s with Some c => negb (continuation c) | None => false end.
Fixpoint floor_from (s : string) (i : nat) : nat :=
  match i with O => O | S i' => if is_char_boundary s i then i else floor_from s i' end.
Definition floor_char_boundary (s : string) (pos : nat) : nat :=
  if (String.length s <=? pos)%nat then String.length s else floor_from s pos.

Lemma floor_from_spec s i :
  (floor_from s i <= i)%nat /\ is_char_boundary s (floor_from s i) = true
  /\ forall j, (floor_from s i < j <= i)%nat -> is_char_boundary s j = false.
Proof.
  induction i as [|i (IH1 & IH2 & IH3)]; cbn [floor_from]; [split; [lia|]; split; [done|]; lia|].
  destruct (is_char_boundary s (S i)) eqn:E; [split; [lia|]; split; [done|]; lia|].
  split; [lia|]. split; [done|]. intros j Hj. destruct (decide (j = S i)) as [->|]; [done|]. apply IH3. lia.
Qed.

(** The boundary is the largest one at or before the position. *)
Lemma floor_char_boundary_spec s pos :
  (floor_char_boundary s pos <= pos)%nat /\ (floor_char_boundary s pos <= String.length s)%nat
  /\ is_char_boundary s (floor_char_boundary s pos) = true
  /\ forall j, (floor_char_boundary s pos < j <= pos)%nat -> (j <= String.length s)%nat -> is_char_boundary s j = false.
Proof.
  unfold floor_char_boundary. destruct (Nat.leb_spec (String.length s) pos) as [H|H].
  - split; [done|]. split; [done|]. split; [|lia]. unfold is_char_boundary. by rewrite Nat.eqb_refl, orb_true_r.
  - destruct (floor_from_spec s pos) as (H1 & H2 & H3). split; [done|]. split; [lia|]. split; [done|]. intros j Hj _. by apply H3.
Qed.
