(* ===== verification/WasmHost.v ===== *)
(** What a WASM tool may do: [src/tools/wasm/host.rs] (logs, workspace, limits
    of one execution), [src/tools/wasm/capabilities.rs], and the host functions
    and credentials of [src/tools/wasm/wrapper.rs].

    The guest is untrusted and arbitrary: it is a sequence of calls of the host
    functions.  The URL parser, the leak detector's regexes, name resolution
    and the HTTP client are parameters; a map whose iteration order shows is a
    list in some order. *)

From Stdlib Require Import Ascii.
From S2P Require Import Prelude Strs Json LeakDetector Safety Tool RateLimiter HttpPolicy Secrets.
#[local] Open Scope claw_scope.

(** ** Capabilities *)
Record WorkspaceCapability := mkWorkspaceCap { allowed_prefixes : list string; reader : option (string -> option string) }.
Record HttpCapability := mkHttpCap {
  allowlist : list EndpointPattern; credentials : list Mapping; rate_limit : RateLimitConfig;
  max_request_bytes : Z; max_response_bytes : Z; http_timeout : Duration }.
Definition new_http_capability (l : list EndpointPattern) : HttpCapability :=
  mkHttpCap l [] default_rate (1024 * 1024) (10 * 1024 * 1024) (from_secs 30).
Record ToolInvokeCapability := mkInvokeCap { aliases : gmap string string; invoke_rate_limit : RateLimitConfig }.
Record Capabilities := mkCaps {
  workspace_read : option WorkspaceCapability; http : option HttpCapability;
  tool_invoke : option ToolInvokeCapability; secrets : option (list string) }.
Definition no_capabilities : Capabilities := mkCaps None None None None.
Definition with_workspace_read (prefixes : list string) (c : Capabilities) : Capabilities :=
  mkCaps (Some (mkWorkspaceCap prefixes None)) (http c) (tool_invoke c) (secrets c).
Definition with_http (h : HttpCapability) (c : Capabilities) : Capabilities :=
  mkCaps (workspace_read c) (Some h) (tool_invoke c) (secrets c).
Definition with_tool_invoke (a : gmap string string) (c : Capabilities) : Capabilities :=
  mkCaps (workspace_read c) (http c) (Some (mkInvokeCap a default_rate)) (secrets c).
Definition with_secrets (allowed : list string) (c : Capabilities) : Capabilities :=
  mkCaps (workspace_read c) (http c) (tool_invoke c) (Some allowed).
Definition resolve_alias (c : ToolInvokeCapability) (alias : string) : option string := aliases c !! alias.

(** ** The state of one execution *)
Definition MAX_LOG_ENTRIES : nat := 1000.
Definition MAX_LOG_MESSAGE_BYTES : nat := 4096.
Definition MAX_REQUESTS_PER_EXECUTION : Z := 50.
Definition MAX_INVOKES_PER_EXECUTION : Z := 20.
Inductive LogLevel := LTrace | LDebug | LInfo | LWarning | LError.
Definition log_level_display (l : LogLevel) : string :=
  match l with LTrace => "TRACE" | LDebug => "DEBUG" | LInfo => "INFO" | LWarning => "WARN" | LError => "ERROR" end.
Record LogEntry := mkLog { level : LogLevel; log_message : string; timestamp_millis : Z }.
Record HostState := mkHost {
  logs : list LogEntry; logging_enabled : bool; capabilities : Capabilities; logs_dropped : Z; host_user_id : option string;
  http_request_count : Z; tool_invoke_count : Z }.
Definition new_host (c : Capabilities) : HostState := mkHost [] true c 0 None 0 0.
Definition new_host_with_user (c : Capabilities) (user : string) : HostState := mkHost [] true c 0 (Some user) 0 0.
Definition minimal : HostState := new_host no_capabilities.

Definition set_logs (h : HostState) (l : list LogEntry) (enabled : bool) (dropped : Z) : HostState :=
  mkHost l enabled (capabilities h) dropped (host_user_id h) (http_request_count h) (tool_invoke_count h).
Definition set_counts (h : HostState) (requests invokes : Z) : HostState :=
  mkHost (logs h) (logging_enabled h) (capabilities h) (logs_dropped h) (host_user_id h) requests invokes.
(** [None] is a panic: the slice of the message may cut a character in two. *)
Definition truncate_message (m : string) : option string :=
  if (MAX_LOG_MESSAGE_BYTES <? String.length m)%nat
  then if is_char_boundary m MAX_LOG_MESSAGE_BYTES
       then Some (String.substring 0 MAX_LOG_MESSAGE_BYTES m ++s "... (truncated)")
       else None
  else Some m.
Definition log (l : LogLevel) (m : string) (now : Z) (h : HostState) : option HostState :=
  if negb (logging_enabled h) then Some (set_logs h (logs h) false (logs_dropped h + 1))
  else if (MAX_LOG_ENTRIES <=? length (logs h))%nat then Some (set_logs h (logs h) false (logs_dropped h + 1))
  else match truncate_message m with
       | None => None
       | Some m => Some (set_logs h (logs h ++ [mkLog l m now]) true (logs_dropped h))
       end.
Definition take_logs (h : HostState) : list LogEntry * HostState := (logs h, set_logs h [] (logging_enabled h) (logs_dropped h)).

Inductive WasmError := PathTraversalBlocked (why : string).
(** [path.chars().nth(1)]. *)
Fixpoint skip_continuation (s : string) : string :=
  match s with String c s' => if continuation c then skip_continuation s' else s | EmptyString => EmptyString end.
Definition second_char_is_colon (s : string) : bool :=
  match s with
  | String _ s => match skip_continuation s with String c _ => Ascii.eqb c ":"%char | EmptyString => false end
  | EmptyString => false
  end.
Definition validate_workspace_path (path : string) : Result unit WasmError :=
  if starts_with path "/" then Err (PathTraversalBlocked "absolute paths not allowed")
  else if str_contains path ".." then Err (PathTraversalBlocked "parent directory references not allowed")
  else if contains_char path (chr 0) then Err (PathTraversalBlocked "null bytes not allowed")
  else if (2 <=? String.length path)%nat && second_char_is_colon path then Err (PathTraversalBlocked "Windows-style paths not allowed")
  else Ok tt.
Definition read_workspace (path : string) (h : HostState) : Result (option string) WasmError :=
  match workspace_read (capabilities h) with
  | None => Ok None
  | Some cap =>
      let? _ := validate_workspace_path path in
      if negb (bool_decide (allowed_prefixes cap = [])) && negb (existsb (starts_with path) (allowed_prefixes cap)) then Ok None
      else match reader cap with Some read => Ok (read path) | None => Ok None end
  end.
Definition secret_visible (name : string) (h : HostState) : bool :=
  match secrets (capabilities h) with None => false | Some allowed => secret_allowed allowed name end.
Definition check_tool_invoke_allowed (alias : string) (h : HostState) : Result string string :=
  match tool_invoke (capabilities h) with
  | None => Err "Tool invocation capability not granted"%string
  | Some cap => match resolve_alias cap alias with Some n => Ok n | None => Err ("Unknown tool alias: " ++s alias) end
  end.
(** The counters are [u32]. *)
Definition record_http_request (h : HostState) : Result unit string * HostState :=
  match http (capabilities h) with
  | None => (Err "HTTP capability not granted"%string, h)
  | Some _ =>
      let n := wrap 32 (http_request_count h + 1) in
      (if MAX_REQUESTS_PER_EXECUTION <? n then Err "Too many HTTP requests in single execution (max 50)"%string else Ok tt,
       set_counts h n (tool_invoke_count h))
  end.
Definition record_tool_invoke (h : HostState) : Result unit string * HostState :=
  let n := wrap 32 (tool_invoke_count h + 1) in
  (if MAX_INVOKES_PER_EXECUTION <? n then Err "Too many tool invocations in single execution (max 20)"%string else Ok tt,
   set_counts h (http_request_count h) n).
Definition tool_invoke_call (alias : string) (h : HostState) : Result string string * HostState :=
  match check_tool_invoke_allowed alias h with
  | Err e => (Err e, h)
  | Ok _ =>
      match record_tool_invoke h with
      | (Err e, h) => (Err e, h)
      | (Ok _, h) => (Err "Tool invocation from WASM tools is not yet supported"%string, h)
      end
  end.

(** ** Private addresses *)
Inductive Ip := V4 (a b c d : Z) | V6 (segments : list Z).
(** [is_loopback], [is_private], [is_link_local] and [is_unspecified] of the standard library. *)
Definition v4_loopback (a : Z) : bool := a =? 127.
Definition v4_private (a b : Z) : bool :=
  (a =? 10) || ((a =? 172) && (16 <=? b) && (b <=? 31)) || ((a =? 192) && (b =? 168)).
Definition v4_link_local (a b : Z) : bool := (a =? 169) && (b =? 254).
Definition v4_unspecified (a b c d : Z) : bool := (a =? 0) && (b =? 0) && (c =? 0) && (d =? 0).
Definition is_private_ip (ip : Ip) : bool :=
  match ip with
  | V4 a b c d =>
      v4_loopback a || v4_private a b || v4_link_local a b || v4_unspecified a b c d
      || ((a =? 100) && (Z.land b 192 =? 64))
  | V6 s =>
      bool_decide (s = [0; 0; 0; 0; 0; 0; 0; 1]) || bool_decide (s = [0; 0; 0; 0; 0; 0; 0; 0])
      || (Z.land (hd 0 s) 65024 =? 64512)
      || (Z.land (hd 0 s) 65472 =? 65152)
  end.

(** ** Credentials of one execution *)
Record ResolvedHostCredential := mkResolved {
  rc_host_patterns : list string; rc_headers : gmap string string; rc_query_params : list (string * string); secret_value : string }.
Record StoreData := mkStoreData {
  host_state : HostState; placeholders : list (string * string); host_credentials : list ResolvedHostCredential }.
Definition with_host (h : HostState) (s : StoreData) : StoreData := mkStoreData h (placeholders s) (host_credentials s).
Definition braced (name : string) : string := "{" ++s name ++s "}".
Definition inject_credentials (s : StoreData) (input : string) : string :=
  foldl (fun r kv => replace_str (braced kv.1) kv.2 r) input (placeholders s).
Definition redact_one (value marker text : string) : string := if is_empty value then text else replace_str value marker text.
Definition redact_credentials (s : StoreData) (text : string) : string :=
  let text := foldl (fun r kv => redact_one kv.2 ("[REDACTED:" ++s kv.1 ++s "]") r) text (placeholders s) in
  foldl (fun r c => redact_one (secret_value c) "[REDACTED:host_credential]" r) text (host_credentials s).
Definition credential_matches (host : string) (c : ResolvedHostCredential) : bool :=
  existsb (injector_matches host) (rc_host_patterns c).

Section Host.
Context (url_parse : string -> Result Url string) (decode : string -> option string) (url_encode : string -> string).
(** [{:?}] of an allowlist result, the regexes of the leak detector,
    [from_utf8_lossy], [HashMap<String, String>] from and to JSON text. *)
Context (result_debug : AllowlistResult -> string) (find_iter : string -> string -> list (nat * nat))
  (ac_find_iter : list string -> string -> list (nat * (nat * nat))) (detector : LeakDetector) (lossy : string -> string)
  (parse_map : string -> option (gmap string string)) (print_map : gmap string string -> string).
(** [str::parse] of an address, its display, and name resolution. *)
Context (parse_ip : string -> option Ip) (ip_show : Ip -> string) (dns : string -> Result (list Ip) string).

Definition check_http_allowed (url method : string) (h : HostState) : Result unit string :=
  match http (capabilities h) with
  | None => Err "HTTP capability not granted"%string
  | Some cap =>
      match validate url_parse decode (new_validator (allowlist cap)) url method with
      | Allowed => Ok tt
      | r => Err ("HTTP request not allowed: " ++s result_debug r)
      end
  end.

Fixpoint append_params (separator : string) (ps : list (string * string)) (url : string) : string :=
  match ps with
  | [] => url
  | (n, v) :: ps => append_params "&" ps (url ++s separator ++s url_encode n ++s "=" ++s url_encode v)
  end.
(** [url.find('#')]: the part before the fragment and the fragment. *)
Fixpoint split_fragment (url : string) : string * string :=
  match url with
  | EmptyString => (EmptyString, EmptyString)
  | String c s => if Ascii.eqb c "#"%char then (EmptyString, url) else let '(a, b) := split_fragment s in (String c a, b)
  end.
Definition add_query (ps : list (string * string)) (url : string) : string :=
  match ps with
  | [] => url
  | _ => let '(base, fragment) := split_fragment url in
         append_params (if str_contains base "?" then "&" else "?") ps base ++s fragment
  end.
Definition apply_credential (host : string) (hu : gmap string string * string) (c : ResolvedHostCredential) : gmap string string * string :=
  if credential_matches host c then (rc_headers c ∪ hu.1, add_query (rc_query_params c) hu.2) else hu.
Definition inject_host_credentials (s : StoreData) (host : string) (hu : gmap string string * string) : gmap string string * string :=
  foldl (apply_credential host) hu (host_credentials s).

Definition http_scheme (u : Url) : bool := String.eqb (u_scheme u) "http" || String.eqb (u_scheme u) "https".
Definition extract_host_from_url (url : string) : option string :=
  match url_parse url with
  | Err _ => None
  | Ok u => if http_scheme u then (fun h => to_lowercase (unbracket h)) <$> u_host_str u else None
  end.
Fixpoint reject_addresses (host : string) (ips : list Ip) : Result unit string :=
  match ips with
  | [] => Ok tt
  | ip :: ips => if is_private_ip ip then Err ("DNS rebinding detected: " ++s host ++s " resolved to private IP " ++s ip_show ip)
                 else reject_addresses host ips
  end.
Definition reject_private_ip (url : string) : Result unit string :=
  match url_parse url with
  | Err e => Err ("Failed to parse URL: " ++s e)
  | Ok u =>
      if negb (http_scheme u) then Err ("Unsupported URL scheme: " ++s u_scheme u)
      else if negb (is_empty (u_username u)) || match u_password u with Some _ => true | None => false end
      then Err "URL contains userinfo (@) which is not allowed"%string
      else match unbracket <$> u_host_str u with
           | None => Err "Failed to parse host from URL"%string
           | Some host =>
               match parse_ip host with
               | Some ip => if is_private_ip ip then Err ("HTTP request to private/internal IP " ++s ip_show ip ++s " is not allowed") else Ok tt
               | None =>
                   match dns host with
                   | Err e => Err ("DNS resolution failed for " ++s host ++s ": " ++s e)
                   | Ok [] => Err ("DNS resolution returned no addresses for " ++s host)
                   | Ok ips => reject_addresses host ips
                   end
               end
           end
  end.

(** ** [http_request] *)
Record HttpRequest := mkHttpRequest { method : string; url : string; request_headers : gmap string string; request_body : option string; timeout_ms : Z }.
Definition METHODS : list string := ["GET"; "POST"; "PUT"; "DELETE"; "PATCH"; "HEAD"]%string.
Definition prepare_request (m u headers_json : string) (body : option string) (timeout : option Z) (s : StoreData)
  : Result HttpRequest string * StoreData :=
  let injected_url := inject_credentials s u in
  match check_http_allowed injected_url m (host_state s) with
  | Err e => (Err ("HTTP not allowed: " ++s e), s)
  | Ok _ =>
      let '(r, h) := record_http_request (host_state s) in
      let s := with_host h s in
      match r with
      | Err e => (Err ("Rate limit exceeded: " ++s e), s)
      | Ok _ =>
          let hs := inject_credentials s <$> default ∅ (parse_map headers_json) in
          let '(hs, u) := match extract_host_from_url injected_url with
                          | Some host => inject_host_credentials s host (hs, injected_url)
                          | None => (hs, injected_url)
                          end in
          (match scan_http_request find_iter ac_find_iter detector u (map_to_list hs) (lossy <$> body) with
           | Err e => Err ("Potential secret leak blocked: " ++s leak_error_display e)
           | Ok _ =>
               match reject_private_ip u with
               | Err e => Err e
               | Ok _ => Ok (mkHttpRequest m u hs body (Z.min (default 30000 timeout) 300000))
               end
           end, s)
      end
  end.
Record HttpResponse := mkHttpResponse { status : Z; response_headers : gmap string string; content_length : option Z; response_body : Result string string }.
Definition receive (max_response : Z) (r : HttpResponse) : Result (Z * string * string) string :=
  let too_large n := Err ("Response body too large: " ++s pretty n ++s " bytes exceeds limit of " ++s pretty max_response ++s " bytes") in
  let announced := match content_length r with Some n => if max_response <? n then Some n else None | None => None end in
  match announced with
  | Some n => too_large n
  | None =>
      match response_body r with
      | Err e => Err ("Failed to read response body: " ++s e)
      | Ok body =>
          if max_response <? Z.of_nat (String.length body) then too_large (Z.of_nat (String.length body))
          else if utf8_valid body
          then match scan_and_clean find_iter ac_find_iter detector body with
               | Err e => Err ("Potential secret leak in response: " ++s leak_error_display e)
               | Ok _ => Ok (status r, print_map (response_headers r), body)
               end
          else Ok (status r, print_map (response_headers r), body)
      end
  end.
(** [send] is the client; its error text may hold the whole URL. *)
Context (send : HttpRequest -> Result HttpResponse string).
Definition max_response (h : HostState) : Z :=
  match http (capabilities h) with Some cap => max_response_bytes cap | None => 10 * 1024 * 1024 end.
Definition perform (s : StoreData) (rq : HttpRequest) : Result (Z * string * string) string :=
  if negb (bool_decide (to_uppercase (method rq) ∈ METHODS)) then Err ("Unsupported HTTP method: " ++s method rq)
  else let? r := send rq in receive (max_response (host_state s)) r.
Definition http_request (m u headers_json : string) (body : option string) (timeout : option Z) (s : StoreData)
  : Result (Z * string * string) string * StoreData * option HttpRequest :=
  match prepare_request m u headers_json body timeout s with
  | (Err e, s) => (Err e, s, None)
  | (Ok rq, s) => (match perform s rq with Ok x => Ok x | Err e => Err (redact_credentials s e) end, s, Some rq)
  end.

(** ** The guest: a sequence of host calls
    The requests that reached the client are collected; [None] is a panic of the host. *)
Inductive HostCall :=
| CallLog (l : LogLevel) (m : string) (now : Z)
| CallHttp (m u headers_json : string) (body : option string) (timeout : option Z)
| CallInvoke (alias : string)
| CallRead (path : string)
| CallSecretExists (name : string).
Definition host_call (c : HostCall) (s : StoreData) : option (StoreData * list HttpRequest) :=
  match c with
  | CallLog l m now => match log l m now (host_state s) with Some h => Some (with_host h s, []) | None => None end
  | CallHttp m u hs body t => let '(_, s, rq) := http_request m u hs body t s in Some (s, option_list rq)
  | CallInvoke a => Some (with_host (tool_invoke_call a (host_state s)).2 s, [])
  | CallRead _ | CallSecretExists _ => Some (s, [])
  end.
Fixpoint run_guest (cs : list HostCall) (s : StoreData) : option (StoreData * list HttpRequest) :=
  match cs with
  | [] => Some (s, [])
  | c :: cs => match host_call c s with
               | None => None
               | Some (s, sent) => match run_guest cs s with Some (s, more) => Some (s, sent ++ more) | None => None end
               end
  end.
End Host.

(** ** Resolving the credentials of a tool *)
Record OAuthRefreshConfig := mkOAuth { token_url : string; client_id : string; client_secret : option string; oauth_secret_name : string; oauth_provider : option string }.
Section Resolve.
Context (cs : Ciphers) (master : string) (columns : Columns).
(** What a call takes from outside: the check of the token URL, the answer of
    the token endpoint ([None] when it fails or is not JSON), fresh salts,
    nonces and ids, and the clock. *)
Context (private_check : string -> Result unit string) (post : string -> list (string * string) -> option Json).
Record Fresh := mkFresh { fresh_salt : string; fresh_nonce : string; fresh_id : Uuid }.
Definition form (refresh_token : string) (c : OAuthRefreshConfig) : list (string * string) :=
  [("grant_type", "refresh_token"); ("refresh_token", refresh_token); ("client_id", client_id c)]%string
  ++ match client_secret c with Some s => [("client_secret"%string, s)] | None => [] end.
Definition refreshed_params (name value : string) (c : OAuthRefreshConfig) : CreateSecretParams :=
  mkParams name value (oauth_provider c) None.
Definition with_expires_in (now : DateTime) (v : Json) (p : CreateSecretParams) : CreateSecretParams :=
  match get_u64 "expires_in" v with
  | Some n => params_with_expiry p (now + from_secs (as_i64 n))
  | None => p
  end.
Definition refresh_oauth_token (now : DateTime) (f1 f2 : Fresh) (user : string) (c : OAuthRefreshConfig) (t : Table) : bool * Table :=
  if negb (starts_with (token_url c) "https://") then (false, t)
  else match private_check (token_url c) with
  | Err _ => (false, t)
  | Ok _ =>
      let refresh_name := oauth_secret_name c ++s "_refresh_token" in
      match get_decrypted cs master now user refresh_name t with
      | Err _ => (false, t)
      | Ok refresh =>
          match post (token_url c) (form refresh c) with
          | None => (false, t)
          | Some v =>
              match get_str "access_token" v with
              | None => (false, t)
              | Some access =>
                  let p := with_expires_in now v (refreshed_params (oauth_secret_name c) access c) in
                  match create_secret columns cs master (fresh_salt f1) (fresh_nonce f1) (fresh_id f1) now user p t with
                  | (Err _, t) => (false, t)
                  | (Ok _, t) =>
                      match get_str "refresh_token" v with
                      | None => (true, t)
                      | Some r => (true, (create_secret columns cs master (fresh_salt f2) (fresh_nonce f2) (fresh_id f2) now user
                                            (refreshed_params refresh_name r c) t).2)
                      end
                  end
              end
          end
      end
  end.
Definition needs_refresh (now : DateTime) (user : string) (c : OAuthRefreshConfig) (t : Table) : bool :=
  match get_secret now user (oauth_secret_name c) t with
  | Ok s => match expires_at s with Some e => e - from_secs 300 <? now | None => false end
  | Err SecretExpired => true
  | Err _ => false
  end.
Definition resolve_mapping (now : DateTime) (user : string) (t : Table) (m : Mapping) : option ResolvedHostCredential :=
  match location m with
  | UrlPath _ => None
  | l => match get_decrypted cs master now user (secret_name m) t with
         | Err _ => None
         | Ok v => let i := inject_credential no_credentials l v in
                   if injected_is_empty i then None
                   else Some (mkResolved (host_patterns m) (headers i) (map_to_list (query_params i)) v)
         end
  end.
(** [t = None] when the tool has no secrets store. *)
Definition resolve_host_credentials (now : DateTime) (f1 f2 : Fresh) (caps : Capabilities) (user : string)
    (oauth : option OAuthRefreshConfig) (t : option Table) : list ResolvedHostCredential * option Table :=
  match t with
  | None => ([], None)
  | Some t =>
      let t := match oauth with
               | Some c => if needs_refresh now user c t then (refresh_oauth_token now f1 f2 user c t).2 else t
               | None => t
               end in
      (match http caps with None => [] | Some cap => omap (resolve_mapping now user t) (credentials cap) end, Some t)
  end.
Definition start_execution (now : DateTime) (f1 f2 : Fresh) (caps : Capabilities) (user : string) (ph : list (string * string))
    (oauth : option OAuthRefreshConfig) (t : option Table) : StoreData * option Table :=
  let '(hc, t) := resolve_host_credentials now f1 f2 caps user oauth t in
  (mkStoreData (new_host caps) ph hc, t).
End Resolve.

(** ** Proofs: logs and paths *)
(** A log call panics exactly when logging is on and not full and byte 4096 of
    a longer message is inside a character; otherwise it keeps at most 1000
    entries, each of them of at most 4111 bytes. *)
Definition logs_ok (h : HostState) : Prop :=
  (length (logs h) <= MAX_LOG_ENTRIES)%nat
  /\ Forall (fun e => (String.length (log_message e) <= MAX_LOG_MESSAGE_BYTES + 15)%nat) (logs h).
Lemma truncate_message_length m m' : truncate_message m = Some m' -> (String.length m' <= MAX_LOG_MESSAGE_BYTES + 15)%nat.
Proof.
  unfold truncate_message. destruct (Nat.ltb_spec MAX_LOG_MESSAGE_BYTES (String.length m)) as [H|H]; [|intros [= <-]; lia].
  destruct (is_char_boundary m _); [|done]. intros [= <-]. rewrite append_length_str.
  pose proof (substring_length_le 0 MAX_LOG_MESSAGE_BYTES m). change (String.length "... (truncated)") with 15%nat. lia.
Qed.
Theorem log_spec (l : LogLevel) (m : string) (now : Z) (h : HostState) :
  (log l m now h = None
   <-> logging_enabled h = true /\ (length (logs h) < 1000)%nat /\ (4096 < String.length m)%nat /\ is_char_boundary m 4096 = false)
  /\ (logs_ok h -> forall h', log l m now h = Some h' -> logs_ok h' /\ capabilities h' = capabilities h).
Proof.
  unfold log. destruct (logging_enabled h); cbn [negb].
  2: { split; [split; [done|by intros [? _]]|]. intros Hok h' [= <-]. done. }
  destruct (Nat.leb_spec MAX_LOG_ENTRIES (length (logs h))) as [Hl|Hl].
  { split; [split; [done|intros (_ & H & _); unfold MAX_LOG_ENTRIES in Hl; lia]|]. intros Hok h' [= <-]. done. }
  destruct (truncate_message m) as [m'|] eqn:Et.
  - split.
    + split; [done|]. intros (_ & _ & H1 & H2). revert Et. unfold truncate_message, MAX_LOG_MESSAGE_BYTES.
      rewrite (proj2 (Nat.ltb_lt _ _) H1), H2. done.
    + intros [H1 H2] h' [= <-]. cbn. split; [|done]. split; cbn.
      * rewrite length_app. cbn. lia.
      * apply Forall_app. split; [done|]. constructor; [|done]. by apply truncate_message_length in Et.
  - split; [|done]. split; [|done]. intros _. revert Et. unfold truncate_message, MAX_LOG_MESSAGE_BYTES, MAX_LOG_ENTRIES in *.
    destruct (Nat.ltb_spec 4096 (String.length m)) as [H|H]; [|done]. destruct (is_char_boundary m 4096); [done|]. auto.
Qed.

(** The workspace shows a tool relative paths only, without a parent
    reference or NUL byte, and under one of its prefixes when it has some. *)
Theorem workspace_read_confined (p : string) (h : HostState) (content : string) :
  read_workspace p h = Ok (Some content) ->
  exists cap read, workspace_read (capabilities h) = Some cap /\ reader cap = Some read /\ read p = Some content
    /\ (~ exists r, p = "/" ++s r) /\ (~ exists a b, p = a ++s ".." ++s b) /\ contains_char p (chr 0) = false
    /\ (allowed_prefixes cap = [] \/ exists pre r, pre ∈ allowed_prefixes cap /\ p = pre ++s r).
Proof.
  unfold read_workspace. destruct (workspace_read (capabilities h)) as [cap|]; [|done].
  unfold validate_workspace_path. destruct (starts_with p "/") eqn:E1; [done|]. destruct (str_contains p "..") eqn:E2; [done|].
  destruct (contains_char p (chr 0)) eqn:E3; [done|]. destruct (_ && second_char_is_colon p); [done|].
  destruct (bool_decide_reflect (allowed_prefixes cap = [])) as [En|En]; cbn [negb andb];
    [|destruct (existsb (starts_with p) (allowed_prefixes cap)) eqn:Ex; cbn [negb]; [|done]];
    (destruct (reader cap) as [read|] eqn:Er; [|done]; intros [= Hr]; exists cap, read; split_and!; try done;
     [by intros H%starts_with_spec; rewrite H in E1|by intros H%str_contains_spec; rewrite H in E2|]); [by left|right].
  apply existsb_exists in Ex as (pre & Hin & Hs). apply starts_with_spec in Hs as [r ->]. exists pre, r. by rewrite list_elem_of_In.
Qed.

(** ** Private addresses *)
Definition ipv4_in (net bits a b c d : Z) : Prop := (a * 2 ^ 24 + b * 2 ^ 16 + c * 2 ^ 8 + d) / 2 ^ (32 - bits) = net / 2 ^ (32 - bits).
Definition net4 (a b : Z) : Z := a * 2 ^ 24 + b * 2 ^ 16.
Lemma land_192 b : 0 <= b < 256 -> (Z.land b 192 =? 64) = (b / 64 =? 1).
Proof.
  intros H. assert (Hall : forallb (fun n => Bool.eqb (Z.land (Z.of_nat n) 192 =? 64) (Z.of_nat n / 64 =? 1)) (seq 0 256) = true) by (vm_compute; reflexivity).
  rewrite forallb_forall in Hall. specialize (Hall (Z.to_nat b) ltac:(apply in_seq; lia)). rewrite Z2Nat.id in Hall by lia. by apply eqb_prop.
Qed.
Lemma div_high h k r : 0 <= r < k -> (h * k + r) / k = h.
Proof. intros H. rewrite Z.div_add_l, Z.div_small by lia. lia. Qed.
Section Ranges.
Context (a b c d : Z) (Ha : 0 <= a < 256) (Hb : 0 <= b < 256) (Hc : 0 <= c < 256) (Hd : 0 <= d < 256).
Lemma in_8 n : ipv4_in (net4 n 0) 8 a b c d <-> a = n.
Proof.
  unfold ipv4_in, net4. change (2 ^ (32 - 8)) with 16777216. change (2 ^ 24) with 16777216. change (2 ^ 16) with 65536. change (2 ^ 8) with 256.
  rewrite <-!Z.add_assoc, !div_high by lia. done.
Qed.
(** The top [8 + k] bits, for [q * s = 2 ^ 16] and [s = 2 ^ (24 - k)]. *)
Lemma in_more n m bits q s : 0 <= m < 256 -> 0 < q -> 0 < s -> q * s = 256 -> 2 ^ (32 - bits) = s * 65536 ->
  ipv4_in (net4 n m) bits a b c d <-> a = n /\ b / s = m / s.
Proof.
  intros Hm Hq Hs Hqs E. unfold ipv4_in, net4. rewrite E. change (2 ^ 24) with (256 * 65536). change (2 ^ 16) with 65536. change (2 ^ 8) with 256.
  pose proof (Z.div_mod b s ltac:(lia)) as Eb. pose proof (Z.mod_pos_bound b s ltac:(lia)) as Bb.
  pose proof (Z.div_mod m s ltac:(lia)) as Em. pose proof (Z.mod_pos_bound m s ltac:(lia)) as Bm.
  assert (H1 : (a * (256 * 65536) + b * 65536 + c * 256 + d) / (s * 65536) = a * q + b / s).
  { replace (a * (256 * 65536) + b * 65536 + c * 256 + d) with ((a * q + b / s) * (s * 65536) + ((b mod s) * 65536 + c * 256 + d));
      [apply div_high; nia|]. replace (a * (256 * 65536)) with (a * q * (s * 65536)) by (rewrite <-Hqs; ring). rewrite Eb at 3. ring. }
  assert (H2 : (n * (256 * 65536) + m * 65536) / (s * 65536) = n * q + m / s).
  { replace (n * (256 * 65536) + m * 65536) with ((n * q + m / s) * (s * 65536) + (m mod s) * 65536);
      [apply div_high; nia|]. replace (n * (256 * 65536)) with (n * q * (s * 65536)) by (rewrite <-Hqs; ring). rewrite Em at 3. ring. }
  rewrite H1, H2. pose proof (Z.div_lt_upper_bound b s q ltac:(lia) ltac:(lia)). pose proof (Z.div_lt_upper_bound m s q ltac:(lia) ltac:(lia)).
  pose proof (Z.div_pos b s ltac:(lia) ltac:(lia)). pose proof (Z.div_pos m s ltac:(lia) ltac:(lia)).
  split; [|by intros [-> ->]]. intros Hx. assert (a = n) by nia. subst. split; [done|lia].
Qed.
Lemma in_32 : ipv4_in (net4 0 0) 32 a b c d <-> a = 0 /\ b = 0 /\ c = 0 /\ d = 0.
Proof.
  unfold ipv4_in, net4. change (2 ^ (32 - 32)) with 1. rewrite !Z.div_1_r. change (2 ^ 24) with 16777216. change (2 ^ 16) with 65536. change (2 ^ 8) with 256. lia.
Qed.
End Ranges.
(** The refused IPv4 addresses are those of the seven networks. *)
Theorem private_ipv4_spec (a b c d : Z) :
  0 <= a < 256 -> 0 <= b < 256 -> 0 <= c < 256 -> 0 <= d < 256 ->
  is_private_ip (V4 a b c d) = true
  <-> ipv4_in (net4 127 0) 8 a b c d \/ ipv4_in (net4 10 0) 8 a b c d \/ ipv4_in (net4 172 16) 12 a b c d
      \/ ipv4_in (net4 192 168) 16 a b c d \/ ipv4_in (net4 169 254) 16 a b c d \/ ipv4_in (net4 100 64) 10 a b c d
      \/ ipv4_in (net4 0 0) 32 a b c d.
Proof.
  intros Ha Hb Hc Hd. rewrite !in_8, in_32 by done. rewrite (in_more a b c d Ha Hb Hc Hd 172 16 12 16 16), (in_more a b c d Ha Hb Hc Hd 192 168 16 256 1),
    (in_more a b c d Ha Hb Hc Hd 169 254 16 256 1), (in_more a b c d Ha Hb Hc Hd 100 64 10 4 64) by lia.
  rewrite !Z.div_1_r. change (16 / 16) with 1. change (64 / 64) with 1.
  assert (H16 : b / 16 = 1 <-> 16 <= b <= 31) by (Z.to_euclidean_division_equations; lia).
  unfold is_private_ip, v4_loopback, v4_private, v4_link_local, v4_unspecified. rewrite land_192 by done.
  rewrite !orb_true_iff, !andb_true_iff, !Z.eqb_eq, !Z.leb_le, H16. tauto.
Qed.
(** An IPv4 address in its IPv6 form is never refused, loopback and private networks included. *)
Theorem mapped_addresses_pass (hi lo : Z) : is_private_ip (V6 [0; 0; 0; 0; 0; 65535; hi; lo]) = false.
Proof. reflexivity. Qed.

(** ** Proofs: requests *)
Section HostProofs.
Context (url_parse : string -> Result Url string) (decode : string -> option string) (url_encode : string -> string).
Context (result_debug : AllowlistResult -> string) (find_iter : string -> string -> list (nat * nat))
  (ac_find_iter : list string -> string -> list (nat * (nat * nat))) (detector : LeakDetector) (lossy : string -> string)
  (parse_map : string -> option (gmap string string)) (print_map : gmap string string -> string).
Context (parse_ip : string -> option Ip) (ip_show : Ip -> string) (dns : string -> Result (list Ip) string).
Context (send : HttpRequest -> Result HttpResponse string).
Abbreviation prepare := (prepare_request url_parse decode url_encode result_debug find_iter ac_find_iter detector lossy parse_map parse_ip ip_show dns).
Abbreviation request := (http_request url_parse decode url_encode result_debug find_iter ac_find_iter detector lossy parse_map print_map parse_ip ip_show dns send).
Abbreviation guest := (run_guest url_parse decode url_encode result_debug find_iter ac_find_iter detector lossy parse_map print_map parse_ip ip_show dns send).

Lemma apply_credentials_spec host cs hu :
  let r := foldl (apply_credential url_encode host) hu cs in
  (forall k v, r.1 !! k = Some v -> hu.1 !! k = Some v \/ exists c, c ∈ cs /\ credential_matches host c = true /\ rc_headers c !! k = Some v)
  /\ ((forall c, c ∈ cs -> credential_matches host c = false) -> r = hu).
Proof.
  revert hu. induction cs as [|c cs IH]; intros hu; cbn; [split; [auto|done]|].
  destruct (IH (apply_credential url_encode host hu c)) as [IH1 IH2]. split.
  - intros k v H. destruct (IH1 k v H) as [Hk|(c' & ? & ? & ?)]; [|right; exists c'; split_and!; [by right|done..]].
    unfold apply_credential in Hk. destruct (credential_matches host c) eqn:Ec; [|by left].
    cbn in Hk. apply lookup_union_Some_raw in Hk as [Hk|[_ Hk]]; [right; exists c; split_and!; [by left|done..]|by left].
  - intros H. rewrite IH2 by (intros c' Hc'; apply H; by right). unfold apply_credential. by rewrite H by by left.
Qed.
Lemma record_http_request_frame h r h' : record_http_request h = (r, h') ->
  capabilities h' = capabilities h /\ logs h' = logs h /\ logging_enabled h' = logging_enabled h.
Proof. unfold record_http_request. destruct (http (capabilities h)); by intros [= <- <-]. Qed.
Lemma prepare_frame m u hj body t s :
  let s' := (prepare m u hj body t s).2 in
  host_credentials s' = host_credentials s /\ placeholders s' = placeholders s
  /\ capabilities (host_state s') = capabilities (host_state s) /\ logs (host_state s') = logs (host_state s).
Proof.
  unfold prepare_request. destruct (check_http_allowed _ _ _ _ _ _); [|done].
  destruct (record_http_request (host_state s)) as [[r|e] h] eqn:E; apply record_http_request_frame in E as (? & ? & _); [|done].
  by destruct (match extract_host_from_url _ _ with Some _ => _ | None => _ end).
Qed.

(** C9. What reaches the network.  The URL of a request, with the tool's own
    placeholders filled in, passed the allowlist of the tool; the tool had sent
    fewer than fifty requests before; the final URL resolves to no refused
    address; every header is the tool's own or belongs to a credential mapped to
    the host of the URL; and when no credential is mapped to that host the URL
    and the headers are the tool's. *)
Theorem sent_request_checked (m u hj : string) (body : option string) (t : option Z) (s s' : StoreData) (rq : HttpRequest) r :
  request m u hj body t s = (r, s', Some rq) ->
  let u' := inject_credentials s u in
  let own := inject_credentials s <$> default ∅ (parse_map hj) in
  (exists cap, http (capabilities (host_state s)) = Some cap /\ validate url_parse decode (new_validator (allowlist cap)) u' m = Allowed)
  /\ http_request_count (host_state s') <= 50
  /\ reject_private_ip url_parse parse_ip ip_show dns (url rq) = Ok tt
  /\ timeout_ms rq <= 300000 /\ request_body rq = body /\ method rq = m
  /\ (forall k v, request_headers rq !! k = Some v ->
        own !! k = Some v
        \/ exists host c, extract_host_from_url url_parse u' = Some host /\ c ∈ host_credentials s
             /\ credential_matches host c = true /\ rc_headers c !! k = Some v)
  /\ ((forall host c, extract_host_from_url url_parse u' = Some host -> c ∈ host_credentials s -> credential_matches host c = false) ->
        url rq = u' /\ request_headers rq = own).
Proof.
  unfold http_request. destruct (prepare m u hj body t s) as [[rq'|e] s1] eqn:Ep; [|done]. intros [= _ <- <-]. cbn zeta.
  revert Ep. unfold prepare_request. unfold check_http_allowed. destruct (http (capabilities (host_state s))) as [cap|] eqn:Ec; [|done].
  destruct (validate _ _ _ _ _) eqn:Ev; [|done]. unfold record_http_request. rewrite Ec.
  destruct (Z.ltb_spec MAX_REQUESTS_PER_EXECUTION (wrap 32 (http_request_count (host_state s) + 1))) as [|Hn]; [done|].
  change (inject_credentials (with_host _ s)) with (inject_credentials s).
  set (own := inject_credentials s <$> default ∅ (parse_map hj)).
  destruct (match extract_host_from_url _ _ with Some _ => _ | None => _ end) as [hs u'] eqn:Eh.
  destruct (scan_http_request _ _ _ _ _ _); [|done]. destruct (reject_private_ip _ _ _ _ u') as [[]|] eqn:Er; [|done].
  intros [= <- <-]. cbn [url method request_headers request_body timeout_ms host_state with_host http_request_count set_counts].
  unfold MAX_REQUESTS_PER_EXECUTION in Hn.
  destruct (extract_host_from_url url_parse (inject_credentials s u)) as [host|] eqn:Ex.
  - destruct (apply_credentials_spec host (host_credentials s) (own, inject_credentials s u)) as [H1 H2].
    unfold inject_host_credentials in Eh. cbn [host_credentials with_host] in Eh. rewrite Eh in H1, H2. cbn in H1.
    split_and!; try done; [by exists cap|lia| |].
    + intros k v Hk. destruct (H1 k v Hk) as [?|(c & ? & ? & ?)]; [by left|right]. by exists host, c.
    + intros Hno. assert (E := H2 (fun c Hc => Hno host c eq_refl Hc)). by injection E as -> ->.
  - injection Eh as <- <-. split_and!; try done; [by exists cap|lia|by left].
Qed.

Lemma scan_headers_ok hs : scan_headers find_iter ac_find_iter detector hs = Ok tt ->
  Forall (fun kv => is_ok (scan_and_clean find_iter ac_find_iter detector kv.2) = true) hs.
Proof.
  induction hs as [|[k v] hs IH]; cbn [scan_headers]; [constructor|]. destruct (scan_and_clean _ _ _ v) eqn:E; [|done].
  intros H. constructor; [by cbn; rewrite E|by apply IH].
Qed.
(** Nothing that the leak detector blocks is sent - and that includes the
    credentials the host itself has put in: a tool whose token has a known
    format, with its bearer mapping, cannot send a request at all. *)
Theorem sent_request_clean (m u hj : string) (body : option string) (t : option Z) (s s' : StoreData) (rq : HttpRequest) r :
  request m u hj body t s = (r, s', Some rq) ->
  is_ok (scan_and_clean find_iter ac_find_iter detector (url rq)) = true
  /\ (forall k v, request_headers rq !! k = Some v -> is_ok (scan_and_clean find_iter ac_find_iter detector v) = true)
  /\ (forall b, body = Some b -> is_ok (scan_and_clean find_iter ac_find_iter detector (lossy b)) = true).
Proof.
  unfold http_request. destruct (prepare m u hj body t s) as [[rq'|e] s1] eqn:Ep; [|done]. intros [= _ <- <-].
  revert Ep. unfold prepare_request. destruct (check_http_allowed _ _ _ _ _ _); [|done].
  destruct (record_http_request _) as [[[]|] h]; [|done].
  destruct (match extract_host_from_url _ _ with Some _ => _ | None => _ end) as [hs u'].
  destruct (scan_http_request _ _ _ u' _ _) as [[]|] eqn:Es; [|done]. destruct (reject_private_ip _ _ _ _ u'); [|done].
  intros [= <- <-]. cbn [url request_headers request_body]. revert Es. unfold scan_http_request.
  destruct (scan_and_clean _ _ _ u'); [|done]. destruct (scan_headers _ _ _ _) as [[]|] eqn:Eh; [|done].
  apply scan_headers_ok in Eh. rewrite Forall_forall in Eh. intros Hb. split_and!; [done| |].
  - intros k v Hk. apply (Eh (k, v)). by apply elem_of_map_to_list.
  - intros b ->. cbn in Hb. by destruct (scan_and_clean _ _ _ (lossy b)).
Qed.

Lemma sent_request_admitted (m u hj : string) (body : option string) (t : option Z) (s s' : StoreData) (rq : HttpRequest) r :
  request m u hj body t s = (r, s', Some rq) -> exists cap, http (capabilities (host_state s)) = Some cap /\ http_request_count (host_state s') <= 50.
Proof.
  unfold http_request. destruct (prepare m u hj body t s) as [[rq'|e] s1] eqn:Ep; [|done]. intros [= _ <- <-].
  revert Ep. unfold prepare_request, check_http_allowed. destruct (http (capabilities (host_state s))) as [cap|] eqn:Ec; [|done].
  destruct (validate _ _ _ _ _); [|done]. unfold record_http_request. rewrite Ec.
  destruct (Z.ltb_spec MAX_REQUESTS_PER_EXECUTION (wrap 32 (http_request_count (host_state s) + 1))) as [|Hn]; [done|].
  destruct (match extract_host_from_url _ _ with Some _ => _ | None => _ end) as [hs u']. intros [= _ <-]. exists cap. unfold MAX_REQUESTS_PER_EXECUTION in Hn. by cbn.
Qed.
(** One execution of a tool, whatever it calls (fewer than 2^32 times), sends at
    most fifty requests and leaves at most 1000 log entries of bounded size;
    without the HTTP capability it sends none. *)
Definition exec_ok (n : Z) (s : StoreData) : Prop :=
  logs_ok (host_state s) /\ 0 <= http_request_count (host_state s) <= n.
Lemma host_call_step c s s' sent n :
  exec_ok n s -> n + 1 < 2 ^ 32 ->
  host_call url_parse decode url_encode result_debug find_iter ac_find_iter detector lossy parse_map print_map parse_ip ip_show dns send c s = Some (s', sent) ->
  exec_ok (n + 1) s' /\ capabilities (host_state s') = capabilities (host_state s)
  /\ http_request_count (host_state s) <= http_request_count (host_state s')
  /\ (sent = [] \/ (http_request_count (host_state s') = http_request_count (host_state s) + 1 /\ http_request_count (host_state s') <= 50
                    /\ length sent = 1%nat /\ is_Some (http (capabilities (host_state s))))).
Proof.
  intros [Hl Hc] Hn. destruct c as [l m now|m u hj body t|a|p|x]; cbn [host_call].
  - destruct (log l m now (host_state s)) as [h|] eqn:E; [|done]. intros [= <- <-].
    destruct (proj2 (log_spec l m now (host_state s)) Hl h E) as [H1 H2].
    assert (http_request_count h = http_request_count (host_state s)) as Ek.
    { revert E. unfold log. destruct (negb _); [by intros [= <-]|]. destruct (_ <=? _)%nat; [by intros [= <-]|]. destruct (truncate_message m); by intros [= <-]. }
    cbn [host_state with_host]. unfold exec_ok. cbn [host_state with_host]. split_and!; [done|lia|lia|done|lia|by left].
  - destruct (request m u hj body t s) as [[r s1] rq] eqn:E. intros [= <- <-].
    pose proof (prepare_frame m u hj body t s) as (_ & _ & F1 & F2).
    assert (Es : s1 = (prepare m u hj body t s).2).
    { revert E. unfold http_request. by destruct (prepare m u hj body t s) as [[?|?] ?]; intros [= _ <- _]. }
    rewrite <-Es in F1, F2.
    assert (Hk : http_request_count (host_state s1) = http_request_count (host_state s)
      \/ (http_request_count (host_state s1) = http_request_count (host_state s) + 1 /\ is_Some (http (capabilities (host_state s))))).
    { rewrite Es. unfold prepare_request. destruct (check_http_allowed _ _ _ _ _ _); [|by left].
      unfold record_http_request. destruct (http (capabilities (host_state s))); [|by left]. right.
      destruct (_ <? _); cbn; [split; [|done]; apply wrap_small; unfold in_u; lia|].
      destruct (match extract_host_from_url _ _ with Some _ => _ | None => _ end). cbn. split; [|done]. apply wrap_small; unfold in_u; lia. }
    assert (Hlog : logs_ok (host_state s1)) by (unfold logs_ok; rewrite F2; apply Hl).
    unfold exec_ok. split_and!; [done|lia|lia|done|lia|]. destruct rq as [rq|]; [right|by left].
    destruct (sent_request_admitted _ _ _ _ _ _ _ _ _ E) as (cap & Hcap & H50).
    destruct Hk as [Hk|[Hk _]]; [|split_and!; [done|done|done|by exists cap]].
    exfalso. revert E. unfold http_request. destruct (prepare m u hj body t s) as [[rq'|e] s2] eqn:Ep; [|done]. intros _.
    cbn in Es. subst s2. revert Ep. unfold prepare_request. destruct (check_http_allowed _ _ _ _ _ _); [|done].
    unfold record_http_request. rewrite Hcap. destruct (_ <? _); [done|].
    destruct (match extract_host_from_url _ _ with Some _ => _ | None => _ end). intros [= _ E]. rewrite <-E in Hk. cbn in Hk.
    rewrite wrap_small in Hk by (unfold in_u; lia). lia.
  - intros [= <- <-]. unfold tool_invoke_call, record_tool_invoke. cbn [host_state with_host].
    destruct (check_tool_invoke_allowed a _); [destruct (_ <? _)|]; unfold exec_ok; cbn; (split_and!; [done|lia|lia|done|lia|by left]).
  - intros [= <- <-]. unfold exec_ok. split_and!; [done|lia|lia|done|lia|by left].
  - intros [= <- <-]. unfold exec_ok. split_and!; [done|lia|lia|done|lia|by left].
Qed.
Lemma guest_limits cs n s s' sent :
  exec_ok n s -> n + Z.of_nat (length cs) < 2 ^ 32 -> guest cs s = Some (s', sent) ->
  logs_ok (host_state s')
  /\ http_request_count (host_state s) + Z.of_nat (length sent) <= Z.max 50 (http_request_count (host_state s))
  /\ (http (capabilities (host_state s)) = None -> sent = []).
Proof.
  revert n s s' sent. induction cs as [|c cs IH]; intros n s s' sent Hok Hn; cbn [run_guest].
  { intros [= <- <-]. destruct Hok as [? ?]. split_and!; [done|cbn; lia|done]. }
  destruct (host_call _ _ _ _ _ _ _ _ _ _ _ _ _ _ c s) as [[s1 sent1]|] eqn:E; [|done].
  destruct (guest cs s1) as [[s2 sent2]|] eqn:E2; [|done]. intros [= <- <-]. cbn [length] in Hn.
  destruct (host_call_step _ _ _ _ _ Hok ltac:(lia) E) as (Hok1 & Hcap & Hle & Hs).
  destruct (IH _ _ _ _ Hok1 ltac:(lia) E2) as (H1 & H2 & H3). rewrite Hcap in H3. split_and!; [done| |].
  - rewrite length_app. destruct Hs as [->|(Hk & H50 & -> & _)]; cbn [length]; lia.
  - intros Hno. rewrite H3 by done. destruct Hs as [->|(_ & _ & _ & Hsome)]; [done|]. rewrite Hno in Hsome. by destruct Hsome.
Qed.
Theorem execution_limits (cs : list HostCall) (caps : Capabilities) ph hc (s' : StoreData) (sent : list HttpRequest) :
  Z.of_nat (length cs) < 2 ^ 32 -> guest cs (mkStoreData (new_host caps) ph hc) = Some (s', sent) ->
  (length sent <= 50)%nat /\ logs_ok (host_state s') /\ (http caps = None -> sent = []).
Proof.
  intros Hn H. assert (Hok : exec_ok 0 (mkStoreData (new_host caps) ph hc)).
  { split; [split; cbn; [unfold MAX_LOG_ENTRIES; lia|constructor]|done]. }
  destruct (guest_limits cs 0 _ s' sent Hok Hn H) as (H1 & H2 & H3). cbn [host_state new_host http_request_count] in H2. split_and!; [lia|done|done].
Qed.
End HostProofs.

(** ** Proofs: credentials *)
Section ResolveProofs.
Context (cs : Ciphers) (master : string) (columns : Columns).
Context (private_check : string -> Result unit string) (post : string -> list (string * string) -> option Json).
Abbreviation refresh := (refresh_oauth_token cs master columns private_check post).
Abbreviation resolve := (resolve_host_credentials cs master columns private_check post).

(** The credentials of an execution are the tool's mappings whose secret the
    user has, unexpired and readable; the list of secret names granted to the
    tool plays no part. *)
Theorem resolved_credentials_spec (now : DateTime) (f1 f2 : Fresh) (caps : Capabilities) (user : string)
    (oauth : option OAuthRefreshConfig) (t : Table) :
  let '(rs, t') := resolve now f1 f2 caps user oauth (Some t) in
  (forall c, c ∈ rs -> exists cap t1 m, http caps = Some cap /\ t' = Some t1 /\ m ∈ credentials cap
     /\ rc_host_patterns c = host_patterns m /\ get_decrypted cs master now user (secret_name m) t1 = Ok (secret_value c)
     /\ rc_headers c = headers (inject_credential no_credentials (location m) (secret_value c)))
  /\ (forall allowed, (resolve now f1 f2 (with_secrets allowed caps) user oauth (Some t)).1 = rs)
  /\ (oauth = None -> t' = Some t).
Proof.
  unfold resolve_host_credentials. set (t1 := match oauth with Some _ => _ | None => _ end). split_and!.
  - intros c Hc. destruct (http caps) as [cap|] eqn:Eh; [|by apply elem_of_nil in Hc].
    apply list_elem_of_omap in Hc as (m & Hm & Hr). exists cap, t1, m. revert Hr. unfold resolve_mapping.
    destruct (location m) eqn:El; try done; destruct (get_decrypted _ _ _ _ _ _) as [v|] eqn:Ed; try done;
      destruct (injected_is_empty _); try done; intros [= <-]; by split_and!.
  - intros allowed. done.
  - intros ->. done.
Qed.
(** A refresh talks to an HTTPS address outside private networks only, and
    touches the two entries of its own token. *)
Theorem refresh_spec (now : DateTime) (f1 f2 : Fresh) (user : string) (c : OAuthRefreshConfig) (t : Table) :
  let '(ok, t') := refresh now f1 f2 user c t in
  (forall k, k <> (user, oauth_secret_name c) -> k <> (user, oauth_secret_name c ++s "_refresh_token") -> t' !! k = t !! k)
  /\ (ok = false -> t' = t)
  /\ (ok = true -> (exists r, token_url c = "https://" ++s r) /\ private_check (token_url c) = Ok tt).
Proof.
  unfold refresh_oauth_token. destruct (starts_with (token_url c) "https://") eqn:Es; cbn [negb]; [|done].
  destruct (private_check _) as [[]|] eqn:Ep; [|done]. destruct (get_decrypted _ _ _ _ _ _); [|done].
  destruct (post _ _) as [v|]; [|done]. destruct (get_str "access_token" v) as [acc|]; [|done].
  set (p := with_expires_in _ _ _). assert (Hp : p_name p = oauth_secret_name c) by (unfold p, with_expires_in; by destruct (get_u64 _ _)).
  assert (Hc : forall f q t, match create_secret columns cs master (fresh_salt f) (fresh_nonce f) (fresh_id f) now user q t with
    | (Ok _, t1) => forall k, k <> (user, p_name q) -> t1 !! k = t !! k | (Err _, t1) => t1 = t end).
  { intros f q t0. unfold create_secret. destruct (encrypt _ _ _ _ _) as [[]|]; [|done]. intros k Hk. by rewrite lookup_insert_ne. }
  assert (Hh : exists r, token_url c = "https://" ++s r) by (by apply starts_with_spec).
  pose proof (Hc f1 p t) as H1. destruct (create_secret _ _ _ _ _ _ _ _ p t) as [[r|e] t1]; [|by subst].
  destruct (get_str "refresh_token" v) as [r2|]; [|split_and!; [intros k Hk _; apply H1; by rewrite Hp|done|done]].
  set (q := refreshed_params _ r2 c). pose proof (Hc f2 q t1) as H2. destruct (create_secret _ _ _ _ _ _ _ _ q t1) as [[r3|e] t2]; cbn [snd].
  - split_and!; [|done|done]. intros k Hk Hk2. rewrite H2 by done. apply H1. by rewrite Hp.
  - subst t2. split_and!; [|done|done]. intros k Hk _. apply H1. by rewrite Hp.
Qed.
End ResolveProofs.

(** ** Witnesses *)
Module HostDemo.
Definition cap : HttpCapability := new_http_capability [pattern_host "api.github.com"].
Definition caps : Capabilities := with_http cap no_capabilities.
Definition cred : ResolvedHostCredential :=
  mkResolved ["api.github.com"%string] {[ "Authorization"%string := "Bearer ghp_token"%string ]} [] "ghp_token".
Definition start : StoreData := mkStoreData (new_host caps) [] [cred].
Definition parse (u : string) : Result Url string := Ok (mkUrl "https" EmptyString None (Some "api.github.com"%string) "/user").
(** A finder that knows the prefix of GitHub tokens only. *)
Definition finder (hit : bool) (re s : string) : list (nat * nat) :=
  if hit && String.eqb re "gh[pousr]_[A-Za-z0-9_]{36,}" && str_contains s "ghp_" then [(7, 16)]%nat else [].
Abbreviation call hit headers := (http_request parse Some (fun s => s) (fun _ => EmptyString) (finder hit) (fun _ _ => []) (new_detector (fun _ => false)) (fun s => s)
    (fun _ => Some headers) (fun _ => EmptyString) (fun _ => None) (fun _ => EmptyString) (fun _ => Ok [V4 140 82 121 6])
    (fun _ => Ok (mkHttpResponse 200 ∅ None (Ok "{}"%string))) "GET" "https://api.github.com/user" "{}" None None start).
End HostDemo.
(** The injected token is sent, unless the detector knows its format: then the tool's own credential blocks it. *)
Example injected_token_sent : (fun rq => request_headers rq !! "Authorization"%string) <$> (HostDemo.call false ∅).2 = Some (Some "Bearer ghp_token"%string).
Proof. vm_compute. done. Qed.
Example injected_token_blocks_itself : (HostDemo.call true ∅).2 = None /\ is_ok (HostDemo.call true ∅).1.1 = false.
Proof. vm_compute. done. Qed.
(** A header of the tool that differs in case stays beside the injected one. *)
Example guest_header_kept :
  (fun rq => (request_headers rq !! "Authorization", request_headers rq !! "authorization")%string)
    <$> (HostDemo.call false {[ "authorization"%string := "Bearer mine"%string ]}).2
  = Some (Some "Bearer ghp_token"%string, Some "Bearer mine"%string).
Proof. vm_compute. done. Qed.
Lemma call_sends : exists r s' rq, HostDemo.call false ∅ = (r, s', Some rq).
Proof.
  assert (H : bool_decide ((HostDemo.call false ∅).2 = None) = false) by (vm_compute; reflexivity).
  destruct (HostDemo.call false ∅) as [[r s'] [rq|]]; [by eauto|]. by rewrite bool_decide_eq_true_2 in H.
Qed.
Lemma sent_request_checked_witness :
  exists rq, (HostDemo.call false ∅).2 = Some rq /\ method rq = "GET"%string
    /\ reject_private_ip HostDemo.parse (fun _ => None) (fun _ => EmptyString) (fun _ => Ok [V4 140 82 121 6]) (url rq) = Ok tt.
Proof.
  destruct call_sends as (r & s' & rq & E). exists rq. split; [by rewrite E|].
  destruct (sent_request_checked HostDemo.parse Some (fun s => s) (fun _ => EmptyString) (HostDemo.finder false) (fun _ _ => [])
    (new_detector (fun _ => false)) (fun s => s) (fun _ => Some ∅) (fun _ => EmptyString) (fun _ => None) (fun _ => EmptyString)
    (fun _ => Ok [V4 140 82 121 6]) (fun _ => Ok (mkHttpResponse 200 ∅ None (Ok "{}"%string)))
    "GET" "https://api.github.com/user" "{}" None None HostDemo.start s' rq r E) as (_ & _ & H1 & _ & _ & H2 & _).
  by split.
Defined.
Lemma sent_request_clean_witness :
  exists rq, (HostDemo.call false ∅).2 = Some rq
    /\ is_ok (scan_and_clean (HostDemo.finder false) (fun _ _ => []) (new_detector (fun _ => false)) (url rq)) = true.
Proof.
  destruct call_sends as (r & s' & rq & E). exists rq. split; [by rewrite E|].
  destruct (sent_request_clean HostDemo.parse Some (fun s => s) (fun _ => EmptyString) (HostDemo.finder false) (fun _ _ => [])
    (new_detector (fun _ => false)) (fun s => s) (fun _ => Some ∅) (fun _ => EmptyString) (fun _ => None) (fun _ => EmptyString)
    (fun _ => Ok [V4 140 82 121 6]) (fun _ => Ok (mkHttpResponse 200 ∅ None (Ok "{}"%string)))
    "GET" "https://api.github.com/user" "{}" None None HostDemo.start s' rq r E) as (H & _). exact H.
Defined.
Lemma guest_runs :
  exists s' sent, run_guest HostDemo.parse Some (fun s => s) (fun _ => EmptyString) (HostDemo.finder false) (fun _ _ => [])
    (new_detector (fun _ => false)) (fun s => s) (fun _ => Some ∅) (fun _ => EmptyString) (fun _ => None) (fun _ => EmptyString)
    (fun _ => Ok [V4 140 82 121 6]) (fun _ => Err "down"%string)
    (replicate 60 (CallHttp "GET" "https://api.github.com/user" "{}" None None)) (mkStoreData (new_host HostDemo.caps) [] [])
    = Some (s', sent).
Proof.
  match goal with |- exists s' sent, ?g = _ =>
    assert (H : match g with Some _ => true | None => false end = true) by (vm_compute; reflexivity); destruct g as [[s' sent]|] end; [by eauto|done].
Qed.
Lemma execution_limits_witness :
  exists s' sent, run_guest HostDemo.parse Some (fun s => s) (fun _ => EmptyString) (HostDemo.finder false) (fun _ _ => [])
    (new_detector (fun _ => false)) (fun s => s) (fun _ => Some ∅) (fun _ => EmptyString) (fun _ => None) (fun _ => EmptyString)
    (fun _ => Ok [V4 140 82 121 6]) (fun _ => Err "down"%string)
    (replicate 60 (CallHttp "GET" "https://api.github.com/user" "{}" None None)) (mkStoreData (new_host HostDemo.caps) [] [])
    = Some (s', sent) /\ (length sent <= 50)%nat.
Proof.
  destruct guest_runs as (s' & sent & E). exists s', sent. split; [exact E|].
  destruct (execution_limits HostDemo.parse Some (fun s => s) (fun _ => EmptyString) (HostDemo.finder false) (fun _ _ => [])
    (new_detector (fun _ => false)) (fun s => s) (fun _ => Some ∅) (fun _ => EmptyString) (fun _ => None) (fun _ => EmptyString)
    (fun _ => Ok [V4 140 82 121 6]) (fun _ => Err "down"%string)
    (replicate 60 (CallHttp "GET" "https://api.github.com/user" "{}" None None)) HostDemo.caps [] [] s' sent ltac:(rewrite length_replicate; lia) E) as (H & _).
  exact H.
Defined.
Lemma private_ipv4_spec_witness : is_private_ip (V4 100 127 0 9) = true /\ ipv4_in (net4 100 64) 10 100 127 0 9.
Proof.
  pose proof (private_ipv4_spec 100 127 0 9 ltac:(lia) ltac:(lia) ltac:(lia) ltac:(lia)) as [H _]. split; [done|reflexivity].
Defined.
Lemma workspace_read_confined_witness :
  read_workspace "daily/a.md" (new_host (mkCaps (Some (mkWorkspaceCap ["daily/"%string] (Some (fun _ => Some "x"%string)))) None None None)) = Ok (Some "x"%string)
  /\ ~ exists a b, "daily/a.md"%string = a ++s ".." ++s b.
Proof.
  split; [done|].
  destruct (workspace_read_confined "daily/a.md" (new_host (mkCaps (Some (mkWorkspaceCap ["daily/"%string] (Some (fun _ => Some "x"%string)))) None None None)) "x" eq_refl)
    as (cap & read & _ & _ & _ & _ & H & _). exact H.
Defined.
