(* ===== verification/Workspace.v ===== *)
(** The workspace: the files an agent keeps in its database -
    [src/workspace/mod.rs], [src/workspace/document.rs],
    [src/workspace/templates.rs] - over the tables of
    [src/db/libsql/workspace.rs].

    The table of documents is a list of rows.  Embeddings come from a provider
    and are opaque; the syntax graph of Rust files is not modelled.  A database
    that cannot be reached is not modelled. *)

From Stdlib Require Import Ascii.
From S2P Require Import Prelude Strs Float64 Json Tool Chunker Search.
From S2P Require Import Safety.
#[local] Open Scope claw_scope.

Inductive WorkspaceError :=
| DocumentNotFound (doc_type user_id : string) | SearchFailed (reason : string) | EmbeddingFailed (reason : string)
| ChunkingFailed (reason : string) | InvalidDocType (doc_type : string) | NotInitialized (user_id : string) | HeartbeatError (reason : string).
Definition workspace_error_display (e : WorkspaceError) : string :=
  match e with
  | DocumentNotFound d u => "Document not found: " ++s d ++s " for user " ++s u
  | SearchFailed r => "Search failed: " ++s r
  | EmbeddingFailed r => "Embedding generation failed: " ++s r
  | ChunkingFailed r => "Document chunking failed: " ++s r
  | InvalidDocType d => "Invalid document type: " ++s d
  | NotInitialized u => "Workspace not initialized for user " ++s u
  | HeartbeatError r => "Heartbeat error: " ++s r
  end.

(** ** [document.rs] *)
Definition MEMORY : string := "MEMORY.md".
Definition IDENTITY : string := "IDENTITY.md".
Definition SOUL : string := "SOUL.md".
Definition AGENTS : string := "AGENTS.md".
Definition USER : string := "USER.md".
Definition HEARTBEAT : string := "HEARTBEAT.md".
Definition README : string := "README.md".
Record MemoryDocument := mkDoc {
  d_id : Uuid; d_user_id : string; d_agent_id : option Uuid; d_path : string; d_content : string;
  d_created_at : DateTime; d_updated_at : DateTime; d_metadata : Json }.
Definition new_document (id : Uuid) (now : DateTime) (user : string) (agent : option Uuid) (path : string) : MemoryDocument :=
  mkDoc id user agent path EmptyString now now (JObject []).
(** The part after the last slash, and the part before it. *)
Definition last_component (path : string) : string := default path (after_last "/"%char path).
Definition doc_file_name (d : MemoryDocument) : string := last_component (d_path d).
Fixpoint before_last_slash (path : string) : option string :=
  match path with
  | EmptyString => None
  | String c s => match before_last_slash s with
                  | Some p => Some (String c p)
                  | None => if Ascii.eqb c "/"%char then Some EmptyString else None
                  end
  end.
Definition parent_dir (d : MemoryDocument) : option string := before_last_slash (d_path d).
Definition word_count (d : MemoryDocument) : nat := length (split_whitespace (d_content d)).
Definition is_identity_document (d : MemoryDocument) : bool := bool_decide (d_path d ∈ [IDENTITY; SOUL; AGENTS; USER]).
Record WorkspaceEntry := mkEntry { e_path : string; is_directory : bool; e_updated_at : option DateTime; content_preview : option string }.
Definition entry_name (e : WorkspaceEntry) : string := last_component (e_path e).
Record MemoryChunk {E : Type} := mkChunkRow {
  c_id : Uuid; c_document_id : Uuid; chunk_index : nat; c_content : string; embedding : option E; c_created_at : DateTime }.
Arguments MemoryChunk : clear implicits.

(** ** Paths *)
Fixpoint trim_slashes_start (s : string) : string :=
  match s with String c s' => if Ascii.eqb c "/"%char then trim_slashes_start s' else s | EmptyString => EmptyString end.
Fixpoint trim_slashes_end (s : string) : string :=
  match s with
  | EmptyString => EmptyString
  | String c s' => let t := trim_slashes_end s' in
                   if Ascii.eqb c "/"%char && is_empty t then EmptyString else String c t
  end.
Fixpoint collapse_slashes (last_was_slash : bool) (s : string) : string :=
  match s with
  | EmptyString => EmptyString
  | String c s =>
      if Ascii.eqb c "/"%char
      then if last_was_slash then collapse_slashes true s else String c (collapse_slashes true s)
      else String c (collapse_slashes false s)
  end.
Definition normalize_path (path : string) : string :=
  collapse_slashes false (trim_slashes_end (trim_slashes_start (Strs.trim path))).
Definition normalize_directory (path : string) : string := trim_slashes_end (normalize_path path).

(** ** The tables *)
Section Tables.
Context {E : Type}.
Record Tables := mkTables { documents : list MemoryDocument; chunks : list (MemoryChunk E) }.
Implicit Types t : Tables.
Definition owned (user : string) (agent : option Uuid) (d : MemoryDocument) : bool :=
  String.eqb (d_user_id d) user && bool_decide (d_agent_id d = agent).
Definition at_path (user : string) (agent : option Uuid) (path : string) (d : MemoryDocument) : bool :=
  owned user agent d && String.eqb (d_path d) path.
Definition get_document_by_path (user : string) (agent : option Uuid) (path : string) t : Result MemoryDocument WorkspaceError :=
  ok_or (List.find (at_path user agent path) (documents t)) (DocumentNotFound path user).
Definition get_document_by_id (id : Uuid) t : Result MemoryDocument WorkspaceError :=
  ok_or (List.find (fun d => bool_decide (d_id d = id)) (documents t)) (DocumentNotFound "unknown" "unknown").
(** [INSERT ... ON CONFLICT (user_id, agent_id, path) DO NOTHING]: rows without
    an agent never conflict, because NULLs are distinct. *)
Definition insert_document (d : MemoryDocument) t : Tables :=
  match d_agent_id d with
  | Some _ => if existsb (at_path (d_user_id d) (d_agent_id d) (d_path d)) (documents t) then t
              else mkTables (documents t ++ [d]) (chunks t)
  | None => mkTables (documents t ++ [d]) (chunks t)
  end.
Definition get_or_create_document_by_path (id : Uuid) (now : DateTime) (user : string) (agent : option Uuid) (path : string) t
  : Result MemoryDocument WorkspaceError * Tables :=
  match get_document_by_path user agent path t with
  | Ok d => (Ok d, t)
  | Err _ => let t := insert_document (new_document id now user agent path) t in (get_document_by_path user agent path t, t)
  end.
Definition set_content (content : string) (now : DateTime) (d : MemoryDocument) : MemoryDocument :=
  mkDoc (d_id d) (d_user_id d) (d_agent_id d) (d_path d) content (d_created_at d) now (d_metadata d).
Definition update_document (id : Uuid) (content : string) (now : DateTime) t : Tables :=
  mkTables ((fun d => if bool_decide (d_id d = id) then set_content content now d else d) <$> documents t) (chunks t).
Definition delete_chunks (id : Uuid) t : Tables :=
  mkTables (documents t) (List.filter (fun c => negb (bool_decide (c_document_id c = id))) (chunks t)).
Definition delete_document_by_path (user : string) (agent : option Uuid) (path : string) t : Result unit WorkspaceError * Tables :=
  match get_document_by_path user agent path t with
  | Err e => (Err e, t)
  | Ok d => let t := delete_chunks (d_id d) t in
            (Ok tt, mkTables (List.filter (fun d => negb (at_path user agent path d)) (documents t)) (chunks t))
  end.
Definition insert_chunk (c : MemoryChunk E) t : Tables := mkTables (documents t) (chunks t ++ [c]).

(** [substr(content, 1, 200)]: the first characters. *)
Fixpoint take_chars (n : nat) (s : string) : string :=
  match s with
  | EmptyString => EmptyString
  | String c s' => if continuation c then String c (take_chars n s')
                   else match n with O => EmptyString | S n => String c (take_chars n s') end
  end.
Definition split_first_slash (s : string) : string * bool :=
  match split_on "/"%char s with h :: _ :: _ => (h, true) | _ => (s, false) end.
Definition merge_entry (is_dir : bool) (updated : DateTime) (e : WorkspaceEntry) : WorkspaceEntry :=
  mkEntry (e_path e) (is_dir || is_directory e) (match e_updated_at e with Some x => Some (Z.max x updated) | None => None end) (if is_dir then None else content_preview e).
Definition add_entry (dir : string) (m : gmap string WorkspaceEntry) (d : MemoryDocument) : gmap string WorkspaceEntry :=
  match (if is_empty dir then Some (d_path d) else strip_prefix (d_path d) dir) with
  | None => m
  | Some relative =>
      let '(child, is_dir) := split_first_slash relative in
      if is_empty child then m
      else <[child := match m !! child with
                      | Some e => merge_entry is_dir (d_updated_at d) e
                      | None => mkEntry (dir ++s child) is_dir (Some (d_updated_at d)) (if is_dir then None else Some (take_chars 200 (d_content d)))
                      end]> m
  end.
Fixpoint insert_by_path {A} (path : A -> string) (x : A) (l : list A) : list A :=
  match l with
  | [] => [x]
  | y :: l' => if String.leb (path x) (path y) then x :: l else y :: insert_by_path path x l'
  end.
Definition sort_by_path {A} (path : A -> string) (l : list A) : list A := foldr (insert_by_path path) [] l.
Definition list_directory (user : string) (agent : option Uuid) (directory : string) t : list WorkspaceEntry :=
  let dir := if negb (is_empty directory) && negb (ends_with directory "/") then directory ++s "/" else directory in
  let rows := sort_by_path d_path (List.filter (owned user agent) (documents t)) in
  sort_by_path e_path (map_to_list (foldl (add_entry dir) ∅ rows)).*2.
Definition list_all_paths (user : string) (agent : option Uuid) t : list string :=
  d_path <$> sort_by_path d_path (List.filter (owned user agent) (documents t)).
Definition get_chunks_without_embeddings (user : string) (agent : option Uuid) (limit : nat) t : list (MemoryChunk E) :=
  take limit (List.filter (fun c => match embedding c with
    | Some _ => false
    | None => existsb (fun d => owned user agent d && bool_decide (d_id d = c_document_id c)) (documents t)
    end) (chunks t)).
Definition update_chunk_embedding (id : Uuid) (e : E) t : Tables :=
  mkTables (documents t) ((fun c => if bool_decide (c_id c = id)
    then mkChunkRow _ (c_id c) (c_document_id c) (chunk_index c) (c_content c) (Some e) (c_created_at c) else c) <$> chunks t).
End Tables.
Arguments Tables : clear implicits.

(** ** [templates.rs] *)
Definition CORE_DOC_TEMPLATE_VERSION : Z := 2.
Definition CORE_DOC_MARKER_PREFIX : string := "<!-- titanclaw:core-doc".
Record CoreDocTemplate := mkTemplate { t_path : string; t_body : string; legacy_exact : list string }.
Definition HEARTBEAT_SEED_BODY : string := "# Heartbeat Checklist

<!-- Keep this file empty to skip heartbeat API calls.
     Add tasks below when you want the agent to check something periodically.

     Example:
     - [ ] Check for unread emails needing a reply
     - [ ] Review today's calendar for upcoming meetings
     - [ ] Check CI build status for main branch
-->".
Definition README_LEGACY : string := "# Workspace

This is your agent's persistent memory. Files here are indexed for search
and used to build the agent's context.

## Structure

- `MEMORY.md` - Long-term notes and facts worth remembering
- `IDENTITY.md` - Agent name, nature, personality
- `SOUL.md` - Core values and principles
- `AGENTS.md` - Behavior instructions for the agent
- `USER.md` - Information about you (the user)
- `HEARTBEAT.md` - Periodic background task checklist
- `daily/` - Automatic daily session logs
- `context/` - Additional context documents

Edit these files to shape how your agent thinks and acts.".
Definition MEMORY_LEGACY : string := "# Memory

Long-term notes, decisions, and facts worth remembering.
The agent appends here during conversations.".
Definition IDENTITY_LEGACY : string := "# Identity

Name: IronClaw
Nature: A secure personal AI assistant

Edit this file to give your agent a custom name and personality.".
Definition SOUL_LEGACY : string := "# Core Values

- Protect user privacy and data security above all else
- Be honest about limitations and uncertainty
- Prefer action over lengthy deliberation
- Ask for clarification rather than guessing on important decisions
- Learn from mistakes and remember lessons".
Definition AGENTS_LEGACY : string := "# Agent Instructions

You are a personal AI assistant with access to tools and persistent memory.

## Guidelines

- Always search memory before answering questions about prior conversations
- Write important facts and decisions to memory for future reference
- Use the daily log for session-level notes
- Be concise but thorough".
Definition USER_LEGACY : string := "# User Context

The agent will fill this in as it learns about you.
You can also edit this directly to provide context upfront.".
Definition README_BODY : string := "# Workspace Operator Guide

This workspace is TitanClaw's long-term operating context. Files here are persisted, indexed, and re-used across sessions.

## Core Files

- `AGENTS.md`: operational behavior and constraints for the assistant
- `IDENTITY.md`: identity, tone, and role boundaries
- `SOUL.md`: non-negotiable values and principles
- `USER.md`: facts and preferences about the human operator
- `MEMORY.md`: durable decisions, commitments, and critical facts
- `HEARTBEAT.md`: periodic checklist for background scanning

## Working Rules

1. Write durable facts to `MEMORY.md`.
2. Keep identity and behavior docs current when goals change.
3. Use `daily/YYYY-MM-DD.md` for session logs and temporary notes.
4. Keep sensitive secrets in secure settings, not plain workspace files.

## Suggested Maintenance Cadence

- Daily: prune stale notes from daily logs.
- Weekly: promote important items into `MEMORY.md`.
- Before major upgrades: update `AGENTS.md` and `IDENTITY.md` first.".
Definition MEMORY_BODY : string := "# Long-Term Memory

Use this file for facts worth retaining beyond a single chat.

## Capture Format

- Date:
- Topic:
- Decision / Fact:
- Why it matters:
- Follow-up:

## Important

- Prefer concise, verifiable statements.
- Remove obsolete items instead of accumulating contradictions.
- If a fact affects behavior, mirror it in `AGENTS.md` or `USER.md`.".
Definition IDENTITY_BODY : string := "# Identity

Name: TitanClaw
Role: Secure automation and coding copilot
Mode: Direct, reliable, execution-focused

## Boundaries

- Do not fabricate results.
- Flag uncertainty with clear next validation steps.
- Prioritize safety, correctness, and operator intent over speed.

## Style

- Communicate in short, concrete statements.
- Surface blockers early with actionable remediation.
- Prefer implementation and verification over abstract planning.".
Definition SOUL_BODY : string := "# Core Values

1. Protect user data and credentials.
2. Prefer truthful, testable outcomes over persuasive wording.
3. Keep changes reversible and well-documented.
4. Treat reliability regressions as high priority.
5. Preserve user agency: ask before destructive actions.".
Definition AGENTS_BODY : string := "# Agent Operating Instructions

## Execution Contract

- Convert user intent into completed, verified changes.
- Run targeted checks after edits and report failures precisely.
- Keep plans synchronized with implementation artifacts and docs.

## Memory Discipline

- Read relevant workspace context before high-impact changes.
- Persist decisions and invariants into `MEMORY.md`.
- Keep identity files aligned with actual behavior.

## Quality Bar

- Avoid partial implementations when completion is feasible.
- Do not silently skip failing checks.
- Call out residual risk explicitly.".
Definition USER_BODY : string := "# User Profile

Track stable operator preferences here.

## Preferences

- Communication style:
- Risk tolerance:
- Stack / tools:
- Product priorities:

## Notes

Keep this file factual and current. Remove stale assumptions quickly.".
Definition HEARTBEAT_BODY : string := HEARTBEAT_SEED_BODY.
Definition core_doc_templates : list CoreDocTemplate :=
  [mkTemplate README README_BODY [README_LEGACY]; mkTemplate MEMORY MEMORY_BODY [MEMORY_LEGACY];
   mkTemplate IDENTITY IDENTITY_BODY [IDENTITY_LEGACY]; mkTemplate SOUL SOUL_BODY [SOUL_LEGACY];
   mkTemplate AGENTS AGENTS_BODY [AGENTS_LEGACY]; mkTemplate USER USER_BODY [USER_LEGACY];
   mkTemplate HEARTBEAT HEARTBEAT_BODY [HEARTBEAT_SEED_BODY]].
Definition LF2 : string := String (chr 10) (String (chr 10) EmptyString).
Definition LF1 : string := String (chr 10) EmptyString.
Definition version_text : string := "version=" ++s pretty CORE_DOC_TEMPLATE_VERSION.
Definition render_template_content (t : CoreDocTemplate) : string :=
  CORE_DOC_MARKER_PREFIX ++s " " ++s version_text ++s " path=" ++s t_path t ++s " -->" ++s LF2 ++s t_body t.

(** ** Refreshing core documents *)
Definition canonicalize_for_match (content : string) : string := Strs.trim (String.concat LF1 (map Strs.trim (lines content))).
Definition is_outdated_managed_core_doc (content : string) : bool :=
  match lines content with
  | [] => false
  | first :: _ => starts_with first CORE_DOC_MARKER_PREFIX && negb (str_contains first version_text)
  end.
(** The scan of the heartbeat file: is there a line that is neither empty, nor a heading, nor in a comment? *)
Fixpoint has_non_comment_content (in_comment : bool) (ls : list string) : bool :=
  match ls with
  | [] => false
  | raw :: ls =>
      let line := Strs.trim raw in
      if is_empty line then has_non_comment_content in_comment ls
      else
        let in_comment := in_comment || str_contains line "<!--" in
        if negb in_comment && negb (starts_with line "#") then true
        else has_non_comment_content (in_comment && negb (str_contains line "-->")) ls
  end.
Definition should_refresh_core_doc (path existing target : string) (legacy : list string) (force : bool) : bool :=
  let canonical := canonicalize_for_match existing in
  let differs := negb (String.eqb canonical (canonicalize_for_match target)) in
  if force then differs
  else if is_empty (Strs.trim existing) then true
  else if negb differs then false
  else if is_outdated_managed_core_doc existing then true
  else if existsb (fun l => String.eqb (canonicalize_for_match l) canonical) legacy then true
  else String.eqb path HEARTBEAT && negb (has_non_comment_content false (lines existing)).

(** ** The workspace of a user
    [embed] is the embedding provider, if any; a [Stamp] holds what one write
    draws from outside: fresh ids and the clock. *)
Record Stamp := mkStamp { new_doc : Uuid; new_chunk : nat -> Uuid; t_create : DateTime; t_update : DateTime; t_chunk : DateTime }.
Definition f32_scale (n : nat) (p : f32) : nat := Z.to_nat (f64_to_usize (f32_mul (f32_of (Z.of_nat n)) p)).
Definition index_config : ChunkConfig := default_chunk (f32_lit 15 100).
Definition index_chunks (content : string) : list string :=
  default [] (chunk_document f32_scale (S (length (split_whitespace content))) content index_config).
Section Workspace.
Context {E : Type} (user : string) (agent : option Uuid) (embed : option (string -> Result E string)).
Implicit Types t : Tables E.

Definition chunk_embedding (content : string) : option E :=
  match embed with Some f => match f content with Ok e => Some e | Err _ => None end | None => None end.
Fixpoint insert_chunks (st : Stamp) (id : Uuid) (index : nat) (cs : list string) t : Tables E :=
  match cs with
  | [] => t
  | c :: cs => insert_chunks st id (S index) cs
                 (insert_chunk (mkChunkRow _ (new_chunk st index) id index c (chunk_embedding c) (t_chunk st)) t)
  end.
Definition reindex_document (st : Stamp) (id : Uuid) t : Result unit WorkspaceError * Tables E :=
  match get_document_by_id id t with
  | Err e => (Err e, t)
  | Ok d => (Ok tt, insert_chunks st id 0 (index_chunks (d_content d)) (delete_chunks id t))
  end.
Definition read (path : string) t : Result MemoryDocument WorkspaceError :=
  get_document_by_path user agent (normalize_path path) t.
Definition put (st : Stamp) (id : Uuid) (content : string) t : Result unit WorkspaceError * Tables E :=
  reindex_document st id (update_document id content (t_update st) t).
Definition write (st : Stamp) (path content : string) t : Result MemoryDocument WorkspaceError * Tables E :=
  match get_or_create_document_by_path (new_doc st) (t_create st) user agent (normalize_path path) t with
  | (Err e, t) => (Err e, t)
  | (Ok d, t) =>
      match put st (d_id d) content t with
      | (Err e, t) => (Err e, t)
      | (Ok _, t) => (get_document_by_id (d_id d) t, t)
      end
  end.
Definition joined (separator old new : string) : string := if is_empty old then new else old ++s separator ++s new.
Definition append_with (separator : string) (st : Stamp) (path content : string) t : Result unit WorkspaceError * Tables E :=
  match get_or_create_document_by_path (new_doc st) (t_create st) user agent path t with
  | (Err e, t) => (Err e, t)
  | (Ok d, t) => put st (d_id d) (joined separator (d_content d) content) t
  end.
Definition append (st : Stamp) (path content : string) t : Result unit WorkspaceError * Tables E :=
  append_with LF1 st (normalize_path path) content t.
Definition exists_doc (path : string) t : bool := is_ok (read path t).
Definition delete (path : string) t : Result unit WorkspaceError * Tables E :=
  delete_document_by_path user agent (normalize_path path) t.
Definition list_dir (directory : string) t : list WorkspaceEntry := list_directory user agent (normalize_directory directory) t.
Definition list_all t : list string := list_all_paths user agent t.
Definition read_or_create (st : Stamp) (path : string) t : Result MemoryDocument WorkspaceError * Tables E :=
  get_or_create_document_by_path (new_doc st) (t_create st) user agent path t.
Definition memory (st : Stamp) t : Result MemoryDocument WorkspaceError * Tables E := read_or_create st MEMORY t.
(** A date is its text [%Y-%m-%d]. *)
Definition daily_path (date : string) : string := "daily/" ++s date ++s ".md".
Definition daily_log (st : Stamp) (date : string) t : Result MemoryDocument WorkspaceError * Tables E := read_or_create st (daily_path date) t.
Definition heartbeat_checklist t : string :=
  match read HEARTBEAT t with
  | Ok d => d_content d
  | Err _ => render_template_content (mkTemplate HEARTBEAT HEARTBEAT_BODY [HEARTBEAT_SEED_BODY])
  end.
Definition append_memory (st : Stamp) (entry : string) t : Result unit WorkspaceError * Tables E := append_with LF2 st MEMORY entry t.
Definition append_daily_log (st : Stamp) (date time entry : string) t : Result unit WorkspaceError * Tables E :=
  append st (daily_path date) ("[" ++s time ++s "] " ++s entry) t.

(** ** The system prompt *)
Definition IDENTITY_FILES : list (string * string) :=
  [(AGENTS, "## Agent Instructions"); (SOUL, "## Core Values"); (USER, "## User Context"); (IDENTITY, "## Identity")]%string.
Definition prompt_part (header : string) (d : MemoryDocument) : list string :=
  if is_empty (d_content d) then [] else [header ++s LF2 ++s d_content d].
Definition identity_parts t : list string :=
  flat_map (fun ph => match read ph.1 t with Ok d => prompt_part ph.2 d | Err _ => [] end) IDENTITY_FILES.
Definition daily_part (st : Stamp) (header date : string) t : list string * Tables E :=
  match daily_log st date t with (Ok d, t) => (prompt_part header d, t) | (Err _, t) => ([], t) end.
(** Its two days are read with [daily_log], which creates them. *)
Definition system_prompt (st1 st2 : Stamp) (today yesterday : string) t : string * Tables E :=
  let parts := identity_parts t in
  let '(p1, t) := daily_part st1 "## Today's Notes" today t in
  let '(p2, t) := daily_part st2 (if String.eqb yesterday today then "## Today's Notes" else "## Yesterday's Notes") yesterday t in
  (String.concat (LF2 ++s "---" ++s LF2) (parts ++ p1 ++ p2), t).

(** ** Search, seeding, maintenance *)
(** [fts_match] is the full-text index: the ids of the chunks that match a
    query, the best first, or the error for a query it cannot parse.
    [vector_top_k] is the vector index: the nearest chunks of all.  The user's
    condition on the document comes after it. *)
Definition visible (user : string) (agent : option Uuid) t (id : Uuid) : option (MemoryChunk E) :=
  match List.find (fun c => bool_decide (c_id c = id)) (chunks t) with
  | Some c => if existsb (fun d => owned user agent d && bool_decide (d_id d = c_document_id c)) (documents t) then Some c else None
  | None => None
  end.
Definition ranked (cs : list (MemoryChunk E)) : list RankedResult :=
  imap (fun i c => mkRanked (c_id c) (c_document_id c) (c_content c) (Z.of_nat i + 1)) cs.
Definition hybrid_search (fts_match : string -> Result (list Uuid) string) (vector_top_k : E -> nat -> list Uuid)
    (query : string) (embedding : option E) (c : SearchConfig) t : Result (list SearchResult) WorkspaceError :=
  let vec := match embedding with
             | Some e => if use_vector c then ranked (omap (visible user agent t) (vector_top_k e (pre_fusion_limit c))) else []
             | None => []
             end in
  if use_fts c then
    match fts_match query with
    | Err e => Err (SearchFailed ("FTS query failed: " ++s e))
    | Ok ids => Ok (reciprocal_rank_fusion (ranked (take (pre_fusion_limit c) (omap (visible user agent t) ids))) vec c)
    end
  else Ok (reciprocal_rank_fusion [] vec c).
Definition search_with_config fts_match vector_top_k (query : string) (c : SearchConfig) t : Result (list SearchResult) WorkspaceError :=
  match embed with
  | Some f => match f query with
              | Ok e => hybrid_search fts_match vector_top_k query (Some e) c t
              | Err e => Err (EmbeddingFailed e)
              end
  | None => hybrid_search fts_match vector_top_k query None c t
  end.
Definition search fts_match vector_top_k (query : string) (n : nat) t : Result (list SearchResult) WorkspaceError :=
  search_with_config fts_match vector_top_k query (with_limit n default_search) t.
Fixpoint seed_loop (st : nat -> Stamp) (i : nat) (ts : list CoreDocTemplate) (count : nat) t : nat * Tables E :=
  match ts with
  | [] => (count, t)
  | x :: ts =>
      match read (t_path x) t with
      | Ok _ => seed_loop st (S i) ts count t
      | Err (DocumentNotFound _ _) =>
          let '(r, t) := write (st i) (t_path x) (render_template_content x) t in
          seed_loop st (S i) ts (if is_ok r then S count else count) t
      | Err _ => seed_loop st (S i) ts count t
      end
  end.
Definition seed_if_empty (st : nat -> Stamp) t : nat * Tables E := seed_loop st 0 core_doc_templates 0 t.

Record CoreDocsSyncOptions := mkSyncOptions { dry_run : bool; force : bool }.
Record CoreDocsSyncReport := mkReport { created : nat; updated : nat; skipped : nat; sync_failed : nat; was_dry_run : bool }.
Definition changed (r : CoreDocsSyncReport) : nat := created r + updated r.
Definition count_created (r : CoreDocsSyncReport) := mkReport (S (created r)) (updated r) (skipped r) (sync_failed r) (was_dry_run r).
Definition count_updated (r : CoreDocsSyncReport) := mkReport (created r) (S (updated r)) (skipped r) (sync_failed r) (was_dry_run r).
Definition count_skipped (r : CoreDocsSyncReport) := mkReport (created r) (updated r) (S (skipped r)) (sync_failed r) (was_dry_run r).
Definition count_failed (r : CoreDocsSyncReport) := mkReport (created r) (updated r) (skipped r) (S (sync_failed r)) (was_dry_run r).
Definition sync_one (o : CoreDocsSyncOptions) (st : Stamp) (x : CoreDocTemplate) (rt : CoreDocsSyncReport * Tables E) : CoreDocsSyncReport * Tables E :=
  let '(r, t) := rt in
  let target := render_template_content x in
  let store count :=
    if dry_run o then (count r, t)
    else let '(w, t) := write st (t_path x) target t in (if is_ok w then count r else count_failed r, t) in
  match read (t_path x) t with
  | Ok d => if should_refresh_core_doc (t_path x) (d_content d) target (legacy_exact x) (force o) then store count_updated else (count_skipped r, t)
  | Err (DocumentNotFound _ _) => store count_created
  | Err _ => (count_failed r, t)
  end.
Fixpoint sync_loop (o : CoreDocsSyncOptions) (st : nat -> Stamp) (i : nat) (ts : list CoreDocTemplate) (rt : CoreDocsSyncReport * Tables E)
  : CoreDocsSyncReport * Tables E :=
  match ts with [] => rt | x :: ts => sync_loop o st (S i) ts (sync_one o (st i) x rt) end.
Definition sync_core_docs (o : CoreDocsSyncOptions) (st : nat -> Stamp) t : CoreDocsSyncReport * Tables E :=
  sync_loop o st 0 core_doc_templates (mkReport 0 0 0 0 (dry_run o), t).
Definition sync_core_docs_safe_merge := sync_core_docs (mkSyncOptions false false).

Fixpoint backfill (f : string -> Result E string) (cs : list (MemoryChunk E)) (count : nat) t : nat * Tables E :=
  match cs with
  | [] => (count, t)
  | c :: cs => match f (c_content c) with
               | Ok e => backfill f cs (S count) (update_chunk_embedding (c_id c) e t)
               | Err _ => backfill f cs count t
               end
  end.
Definition backfill_embeddings t : nat * Tables E :=
  match embed with None => (0%nat, t) | Some f => backfill f (get_chunks_without_embeddings user agent 100 t) 0 t end.
End Workspace.

(** ** Proofs: paths *)
Definition slash : ascii := "/"%char.
Fixpoint no_double_slash (s : string) : bool :=
  match s with
  | String a s' => match s' with String b _ => negb (Ascii.eqb a slash && Ascii.eqb b slash) && no_double_slash s' | EmptyString => true end
  | EmptyString => true
  end.
Fixpoint ends_in_slash (s : string) : bool :=
  match s with EmptyString => false | String c EmptyString => Ascii.eqb c slash | String _ s => ends_in_slash s end.
Definition starts_in_slash (s : string) : bool := match s with String c _ => Ascii.eqb c slash | EmptyString => false end.
Lemma collapse_shape b s :
  no_double_slash (collapse_slashes b s) = true /\ (b = true -> starts_in_slash (collapse_slashes b s) = false).
Proof.
  revert b. induction s as [|c s IH]; intros b; cbn [collapse_slashes]; [done|]. destruct (Ascii.eqb c "/"%char) eqn:Ec.
  - destruct b; [apply IH|]. destruct (IH true) as [H1 H2]. split; [|done]. specialize (H2 eq_refl).
    cbn [no_double_slash]. destruct (collapse_slashes true s) as [|d r]; [done|]. cbn in H2. unfold slash in *. rewrite H2, andb_false_r. exact H1.
  - destruct (IH false) as [H1 _]. split; [|intros _; cbn; unfold slash; by rewrite Ec].
    cbn [no_double_slash]. destruct (collapse_slashes false s) as [|d r]; [done|]. unfold slash. rewrite Ec. exact H1.
Qed.
Lemma trim_end_shape s : ends_in_slash (trim_slashes_end s) = false.
Proof.
  induction s as [|c s IH]; cbn [trim_slashes_end]; [done|]. destruct (Ascii.eqb c "/"%char) eqn:Ec; cbn [andb].
  - destruct (is_empty (trim_slashes_end s)) eqn:Ee; [done|]. cbn [ends_in_slash]. by destruct (trim_slashes_end s).
  - cbn [ends_in_slash]. destruct (trim_slashes_end s); [unfold slash; by rewrite Ec|done].
Qed.
Lemma trim_end_start s : starts_in_slash s = false -> starts_in_slash (trim_slashes_end s) = false.
Proof. destruct s as [|c s]; cbn [trim_slashes_end]; [done|]. cbn. unfold slash. intros Ec. by rewrite Ec. Qed.
Lemma trim_start_shape s : starts_in_slash (trim_slashes_start s) = false.
Proof. induction s as [|c s IH]; cbn [trim_slashes_start]; [done|]. destruct (Ascii.eqb c "/"%char) eqn:Ec; [done|]. cbn. unfold slash. exact Ec. Qed.
Lemma collapse_ends b s : ends_in_slash s = false -> ends_in_slash (collapse_slashes b s) = false.
Proof.
  revert b. induction s as [|c s IH]; intros b; cbn [collapse_slashes]; [done|]. intros H.
  assert (Hs : ends_in_slash s = false) by (destruct s; [done|exact H]).
  assert (Hne : forall b, ends_in_slash (String c (collapse_slashes b s)) = false).
  { intros b'. specialize (IH b' Hs). cbn [ends_in_slash] in *. destruct (collapse_slashes b' s) eqn:E; [|done].
    destruct s as [|d s]; [exact H|]. exfalso. revert E. cbn [collapse_slashes]. destruct (Ascii.eqb d "/"%char) eqn:Ed; [|done].
    destruct b'; [|done]. clear -Hs Ed. revert d Ed Hs. induction s as [|e s IH]; intros d Ed Hs; cbn in *; [unfold slash in Hs; by rewrite Ed in Hs|].
    destruct (Ascii.eqb e "/"%char) eqn:Ee; [|done]. by apply (IH e). }
  destruct (Ascii.eqb c "/"%char); [destruct b; [by apply IH|apply Hne]|apply Hne].
Qed.
Lemma collapse_start s : starts_in_slash s = false -> starts_in_slash (collapse_slashes false s) = false.
Proof. destruct s as [|c s]; cbn; [done|]. unfold slash. intros Ec. by rewrite Ec. Qed.
(** A path never begins or ends with a slash and holds no two in a row. *)
Theorem normalize_path_spec (path : string) :
  starts_in_slash (normalize_path path) = false /\ ends_in_slash (normalize_path path) = false /\ no_double_slash (normalize_path path) = true.
Proof.
  unfold normalize_path. split_and!.
  - apply collapse_start, trim_end_start, trim_start_shape.
  - apply collapse_ends, trim_end_shape.
  - apply collapse_shape.
Qed.
(** White space behind a leading slash survives one round and not two: the
    file written there cannot be reached under the path it is listed with. *)
Example normalize_path_not_idempotent : normalize_path "/ a" = " a"%string /\ normalize_path " a" = "a"%string.
Proof. vm_compute. done. Qed.

(** ** Proofs: the tables *)
Lemma find_key {A B} (f : A -> B) (p : A -> bool) (k : B) (l : list A) (x : A) :
  (forall x, p x = true <-> f x = k) -> NoDup (f <$> l) -> List.find p l = Some x <-> x ∈ l /\ f x = k.
Proof.
  intros Hp. induction l as [|y l IH]; cbn; [intros _; split; [done|by intros [?%not_elem_of_nil _]]|].
  intros [Hn Hd]%NoDup_cons. specialize (IH Hd). rewrite elem_of_cons. destruct (p y) eqn:E.
  - apply Hp in E. split; [intros [= <-]; auto|]. intros [[->|Hin] Hk]; [done|]. destruct Hn. rewrite E, <-Hk. by apply list_elem_of_fmap_2.
  - rewrite IH. split; [naive_solver|]. intros [[->|Hin] Hk]; [|auto]. apply Hp in Hk. congruence.
Qed.
Definition doc_key (d : MemoryDocument) : string * option Uuid * string := (d_user_id d, d_agent_id d, d_path d).
Lemma at_path_key user agent path d : at_path user agent path d = true <-> doc_key d = (user, agent, path).
Proof.
  unfold at_path, owned, doc_key. rewrite !andb_true_iff, !String.eqb_eq, bool_decide_eq_true. split; [by intros [[-> ->] ->]|by intros [= -> -> ->]].
Qed.
Section TableProofs.
Context {E : Type}.
Implicit Types t : Tables E.
(** Ids are unique, and so is each path of each user and agent. *)
Record tables_ok t : Prop := { tk_ids : NoDup (d_id <$> documents t); tk_keys : NoDup (doc_key <$> documents t) }.
Lemma by_path user agent path t d : tables_ok t ->
  get_document_by_path user agent path t = Ok d <-> d ∈ documents t /\ doc_key d = (user, agent, path).
Proof.
  intros Ht. rewrite <-(find_key doc_key (at_path user agent path) _ (documents t) d (at_path_key user agent path) (tk_keys t Ht)).
  unfold get_document_by_path. destruct (List.find _ _); cbn; split; congruence.
Qed.
Lemma by_id id t d : tables_ok t -> get_document_by_id id t = Ok d <-> d ∈ documents t /\ d_id d = id.
Proof.
  intros Ht. rewrite <-(find_key d_id (fun d => bool_decide (d_id d = id)) id (documents t) d); [|intros; apply bool_decide_eq_true|apply Ht].
  unfold get_document_by_id. destruct (List.find _ _); cbn; split; congruence.
Qed.
Lemma path_missing user agent path t e : get_document_by_path user agent path t = Err e ->
  e = DocumentNotFound path user /\ forall d, d ∈ documents t -> doc_key d <> (user, agent, path).
Proof.
  unfold get_document_by_path. destruct (List.find _ _) eqn:F; cbn; [done|]. intros [= <-]. split; [done|].
  intros d Hd Hk. apply at_path_key in Hk. pose proof (find_none _ _ F d). rewrite H in Hk; [done|by apply list_elem_of_In].
Qed.
Lemma path_missing_iff user agent path t :
  (forall d, d ∈ documents t -> doc_key d <> (user, agent, path)) -> get_document_by_path user agent path t = Err (DocumentNotFound path user).
Proof.
  intros H. unfold get_document_by_path. destruct (List.find _ _) as [d|] eqn:F; cbn; [|done].
  apply find_some in F as [Hd Hk]. destruct (H d); [by apply list_elem_of_In|by apply at_path_key].
Qed.
Lemma set_content_same c n d : d_id (set_content c n d) = d_id d /\ doc_key (set_content c n d) = doc_key d.
Proof. done. Qed.
Lemma update_keys {B} (f : MemoryDocument -> B) id c n t :
  (forall d, f (set_content c n d) = f d) -> f <$> documents (update_document id c n t) = f <$> documents t.
Proof. intros H. cbn. rewrite <-list_fmap_compose. apply list_fmap_ext. intros i d _. cbn. by case_bool_decide. Qed.
Lemma update_ok id c n t : tables_ok t -> tables_ok (update_document id c n t).
Proof. intros [H1 H2]. split; rewrite update_keys; done. Qed.
Lemma insert_ok d t : tables_ok t -> d_id d ∉ d_id <$> documents t -> (forall x, x ∈ documents t -> doc_key x <> doc_key d) ->
  documents (insert_document d t) = documents t ++ [d] /\ tables_ok (insert_document d t).
Proof.
  intros [H1 H2] Hi Hk. assert (Hd : documents (insert_document d t) = documents t ++ [d]).
  { unfold insert_document. destruct (d_agent_id d) eqn:Ea; [|done]. destruct (existsb _ _) eqn:Ex; [|done].
    apply existsb_exists in Ex as (x & Hx & Hp). rewrite <-Ea in Hp. apply at_path_key in Hp. by destruct (Hk x); [apply list_elem_of_In|]. }
  split; [done|]. split; rewrite Hd, fmap_app; apply NoDup_app; split_and!; try done; try apply NoDup_singleton.
  - intros x Hx ->%list_elem_of_singleton. done.
  - intros x Hx ->%list_elem_of_singleton. apply list_elem_of_fmap in Hx as (y & Hy & Hin). by apply (Hk y).
Qed.
Lemma insert_chunks_documents emb st id i cs t : documents (insert_chunks (E:=E) emb st id i cs t) = documents t.
Proof. revert i t. induction cs as [|c cs IH]; intros i t; cbn [insert_chunks]; [done|]. by rewrite IH. Qed.
Lemma insert_chunks_chunks emb st id i cs t :
  chunks (insert_chunks emb st id i cs t)
  = chunks t ++ imap (fun k c => mkChunkRow _ (new_chunk st (i + k)) id (i + k) c (chunk_embedding emb c) (t_chunk st)) cs.
Proof.
  revert i t. induction cs as [|c cs IH]; intros i t; cbn [insert_chunks imap]; [by rewrite app_nil_r|]. rewrite IH. cbn [insert_chunk chunks].
  rewrite <-app_assoc. cbn. rewrite Nat.add_0_r. do 2 f_equal. apply imap_ext. intros k x _. cbn. by rewrite Nat.add_succ_r.
Qed.
(** The text of the chunks of a document, in the order of the table. *)
Definition chunks_of (id : Uuid) t : list string := c_content <$> List.filter (fun c => bool_decide (c_document_id c = id)) (chunks t).
End TableProofs.

(** ** Proofs: writing *)
Section WriteProofs.
Context {E : Type} (user : string) (agent : option Uuid) (embed : option (string -> Result E string)).
Implicit Types t : Tables E.
Lemma get_or_create_ok id now path t :
  tables_ok t -> id ∉ d_id <$> documents t ->
  exists d t', get_or_create_document_by_path id now user agent path t = (Ok d, t') /\ tables_ok t' /\ doc_key d = (user, agent, path)
    /\ d ∈ documents t' /\ chunks t' = chunks t /\ (forall x, x ∈ documents t' <-> x ∈ documents t \/ x = d)
    /\ (t' = t \/ (d = new_document id now user agent path /\ forall x, x ∈ documents t -> doc_key x <> (user, agent, path))).
Proof.
  intros Ht Hid. unfold get_or_create_document_by_path. destruct (get_document_by_path user agent path t) as [d|e] eqn:Eg.
  - apply by_path in Eg as [Hd Hk]; [|done]. exists d, t. split_and!; try done; [|by left]. naive_solver.
  - apply path_missing in Eg as [-> Hmiss]. set (d := new_document id now user agent path).
    destruct (insert_ok d t Ht Hid Hmiss) as [Hdoc Hok]. exists d, (insert_document d t). split_and!; try done.
    + f_equal. apply by_path; [done|]. split; [|done]. rewrite Hdoc. apply elem_of_app. right. by left.
    + rewrite Hdoc. apply elem_of_app. right. by left.
    + unfold insert_document. by destruct (d_agent_id d); [destruct (existsb _ _)|].
    + intros x. rewrite Hdoc, elem_of_app, list_elem_of_singleton. done.
    + by right.
Qed.
Lemma chunks_of_insert st id cs t id' :
  chunks_of id' (insert_chunks embed st id 0 cs (delete_chunks id t)) = if bool_decide (id' = id) then cs else chunks_of id' t.
Proof.
  unfold chunks_of. rewrite insert_chunks_chunks. cbn [delete_chunks chunks]. rewrite List.filter_app, fmap_app.
  assert (H1 : List.filter (fun c => bool_decide (c_document_id c = id')) (List.filter (fun c => negb (bool_decide (c_document_id c = id))) (chunks t))
    = if bool_decide (id' = id) then [] else List.filter (fun c => bool_decide (c_document_id c = id')) (chunks t)).
  { induction (chunks t) as [|c l IH]; cbn; [by case_bool_decide|]. destruct (bool_decide_reflect (c_document_id c = id)) as [Hc|Hc]; cbn.
    - rewrite IH. case_bool_decide; [done|]. by rewrite bool_decide_eq_false_2 by congruence.
    - rewrite IH. destruct (bool_decide_reflect (id' = id)) as [->|Hn]; [by rewrite bool_decide_eq_false_2|done]. }
  rewrite H1. clear H1.
  assert (H2 : forall n, c_content <$> List.filter (fun c => bool_decide (c_document_id c = id'))
      (imap (fun k c => mkChunkRow E (new_chunk st (n + k)) id (n + k) c (chunk_embedding embed c) (t_chunk st)) cs) = if bool_decide (id' = id) then cs else []).
  { induction cs as [|c cs IH]; intros n; cbn [imap List.filter]; [by case_bool_decide|]. cbn [c_document_id].
    assert (Hs : imap ((fun k c0 => mkChunkRow E (new_chunk st (n + k)) id (n + k) c0 (chunk_embedding embed c0) (t_chunk st)) ∘ S) cs
      = imap (fun k c0 => mkChunkRow E (new_chunk st (S n + k)) id (S n + k) c0 (chunk_embedding embed c0) (t_chunk st)) cs)
      by (apply imap_ext; intros k x _; cbn; by rewrite Nat.add_succ_r).
    rewrite Hs. destruct (decide (id = id')) as [Heq|Hn].
    - rewrite !bool_decide_eq_true_2 by done. rewrite fmap_cons, IH. by rewrite bool_decide_eq_true_2 by done.
    - rewrite !bool_decide_eq_false_2 by congruence. rewrite IH. by rewrite bool_decide_eq_false_2 by congruence. }
  specialize (H2 0%nat). cbn in H2. setoid_rewrite H2. case_bool_decide; [done|]. by rewrite app_nil_r.
Qed.
Lemma put_ok st id content t d :
  tables_ok t -> d ∈ documents t -> d_id d = id ->
  exists t', put embed st id content t = (Ok tt, t') /\ documents t' = documents (update_document id content (t_update st) t) /\ tables_ok t'
    /\ forall id', chunks_of id' t' = if bool_decide (id' = id) then index_chunks content else chunks_of id' t.
Proof.
  intros Ht Hd Hid. set (t1 := update_document id content (t_update st) t). assert (Ht1 : tables_ok t1) by by apply update_ok.
  assert (Hg : get_document_by_id id t1 = Ok (set_content content (t_update st) d)).
  { apply by_id; [done|]. split; [|done]. cbn. apply list_elem_of_fmap. exists d. split; [|done]. by rewrite bool_decide_eq_true_2. }
  unfold put, reindex_document. fold t1. rewrite Hg. eexists. split_and!; [done| | |].
  - by rewrite insert_chunks_documents.
  - destruct Ht1 as [H1 H2]. split; by rewrite insert_chunks_documents.
  - intros id'. rewrite chunks_of_insert. case_bool_decide; done.
Qed.
(** The contents of the workspace as its users see it: one text for each user, agent and path. *)
Definition text_at (u : string) (a : option Uuid) (p : string) t : option string :=
  match get_document_by_path u a p t with Ok d => Some (d_content d) | Err _ => None end.
Lemma text_at_spec u a p t x : tables_ok t ->
  text_at u a p t = Some x <-> exists d, d ∈ documents t /\ doc_key d = (u, a, p) /\ d_content d = x.
Proof.
  intros Ht. unfold text_at. destruct (get_document_by_path u a p t) as [d|e] eqn:Eg.
  - apply by_path in Eg as [Hd Hk]; [|done]. split; [intros [= <-]; eauto|]. intros (d' & Hd' & Hk' & <-). f_equal.
    assert (get_document_by_path u a p t = Ok d') as H' by (by apply by_path). assert (get_document_by_path u a p t = Ok d) as H by (by apply by_path). congruence.
  - apply path_missing in Eg as [-> Hm]. split; [done|]. intros (d & Hd & Hk & _). by destruct (Hm d).
Qed.
Lemma put_texts st d content t t' u a p :
  tables_ok t -> tables_ok t' -> d ∈ documents t -> documents t' = documents (update_document (d_id d) content (t_update st) t) ->
  text_at u a p t' = if bool_decide ((u, a, p) = doc_key d) then Some content else text_at u a p t.
Proof.
  intros Ht Ht' Hd Hdoc. apply option_eq. intros x. rewrite text_at_spec by done. rewrite Hdoc. cbn.
  assert (Hsame : forall y, y ∈ documents t -> d_id y = d_id d <-> doc_key y = doc_key d).
  { intros y Hy. pose proof (by_id (d_id d) t d Ht) as H1. pose proof (by_id (d_id d) t y Ht) as H2.
    destruct (doc_key d) as [[u0 a0] p0] eqn:Ek. pose proof (by_path u0 a0 p0 t d Ht) as H3. pose proof (by_path u0 a0 p0 t y Ht) as H4.
    split; intros Heq.
    - assert (y = d) as -> by (rewrite (proj2 H1) in H2 by done; destruct H2 as [_ H2]; specialize (H2 (conj Hy Heq)); congruence). done.
    - assert (y = d) as -> by (rewrite (proj2 H3) in H4 by done; destruct H4 as [_ H4]; specialize (H4 (conj Hy Heq)); congruence). done. }
  setoid_rewrite list_elem_of_fmap. destruct (bool_decide_reflect ((u, a, p) = doc_key d)) as [Hk|Hk].
  - split.
    + intros (y & (z & -> & Hz) & Hkz & <-). case_bool_decide as Hi; [done|]. destruct Hi. apply Hsame; [done|]. congruence.
    + intros [= <-]. exists (set_content content (t_update st) d). split_and!; [|by rewrite Hk|done]. exists d. by rewrite bool_decide_eq_true_2.
  - rewrite text_at_spec by done. split.
    + intros (y & (z & -> & Hz) & Hkz & <-). case_bool_decide as Hi; [|by eauto]. apply Hsame in Hi; [|done]. destruct Hk. rewrite <-Hkz. by cbn.
    + intros (y & Hy & Hky & <-). exists y. split_and!; [|done|done]. exists y. rewrite bool_decide_eq_false_2; [done|].
      intros Hi. apply Hsame in Hi; [|done]. congruence.
Qed.
Lemma created_texts d t t' u a p :
  tables_ok t -> tables_ok t' -> (forall x, x ∈ documents t' <-> x ∈ documents t \/ x = d) ->
  text_at u a p t' = if bool_decide ((u, a, p) = doc_key d) then Some (d_content d) else text_at u a p t.
Proof.
  intros Ht Ht' Hd. apply option_eq. intros x. rewrite text_at_spec by done. setoid_rewrite Hd. destruct (bool_decide_reflect ((u, a, p) = doc_key d)) as [Hk|Hk].
  - assert (Hx : forall y, (y ∈ documents t \/ y = d) -> doc_key y = (u, a, p) -> y = d).
    { intros y Hy Hky. apply Hd in Hy. assert (d ∈ documents t') as Hd' by (apply Hd; by right).
      pose proof (proj2 (by_path u a p t' y Ht') (conj Hy Hky)). pose proof (proj2 (by_path u a p t' d Ht') (conj Hd' (eq_sym Hk))). congruence. }
    split; [intros (y & Hy & Hky & <-); by rewrite (Hx y Hy Hky)|]. intros [= <-]. exists d. split_and!; [by right|done|done].
  - rewrite text_at_spec by done. split; [|naive_solver]. intros (y & [Hy| ->] & Hky & <-); [eauto|congruence].
Qed.
(** Creating and filling a document. *)
Lemma store_ok st path (f : MemoryDocument -> string) t :
  tables_ok t -> new_doc st ∉ d_id <$> documents t ->
  exists d t1 t', get_or_create_document_by_path (new_doc st) (t_create st) user agent path t = (Ok d, t1)
    /\ put embed st (d_id d) (f d) t1 = (Ok tt, t') /\ tables_ok t' /\ doc_key d = (user, agent, path) /\ d ∈ documents t1 /\ tables_ok t1
    /\ default EmptyString (text_at user agent path t) = d_content d
    /\ documents t' = documents (update_document (d_id d) (f d) (t_update st) t1)
    /\ (forall u a p, text_at u a p t' = if bool_decide ((u, a, p) = (user, agent, path)) then Some (f d) else text_at u a p t)
    /\ (forall id', chunks_of id' t' = if bool_decide (id' = d_id d) then index_chunks (f d) else chunks_of id' t).
Proof.
  intros Ht Hf. destruct (get_or_create_ok (new_doc st) (t_create st) path t Ht Hf) as (d & t1 & E1 & Ht1 & Hk & Hd & Hc & Hel & Hold).
  destruct (put_ok st (d_id d) (f d) t1 d Ht1 Hd eq_refl) as (t' & E2 & Hdoc & Ht' & Hch). exists d, t1, t'. split_and!; try done.
  - destruct Hold as [->|[-> Hm]]; [|unfold text_at; by rewrite path_missing_iff]. unfold text_at. by rewrite (proj2 (by_path user agent path t d Ht)).
  - intros u a p. rewrite (put_texts st d (f d) t1 t') by done. rewrite Hk. case_bool_decide as Hb; [done|].
    rewrite (created_texts d t t1) by done. rewrite Hk. by rewrite bool_decide_eq_false_2.
  - intros id'. rewrite Hch. case_bool_decide; [done|]. unfold chunks_of. by rewrite Hc.
Qed.

(** C18. Writing a file.  What was written is read back under the same path, the
    index holds exactly the chunks of the new text, no other file changes, and
    ids and paths stay unique. *)
Theorem write_spec (st : Stamp) (path content : string) t :
  tables_ok t -> new_doc st ∉ d_id <$> documents t ->
  exists d t', write user agent embed st path content t = (Ok d, t') /\ d_content d = content
    /\ read user agent path t' = Ok d /\ chunks_of (d_id d) t' = index_chunks content /\ tables_ok t'
    /\ (forall u a p, (u, a, p) <> (user, agent, normalize_path path) -> text_at u a p t' = text_at u a p t).
Proof.
  intros Ht Hf. destruct (store_ok st (normalize_path path) (fun _ => content) t Ht Hf)
    as (d & t1 & t' & E1 & E2 & Ht' & Hk & Hd & Ht1 & _ & Hdoc & Htx & Hch).
  unfold write. rewrite E1, E2. set (d' := set_content content (t_update st) d).
  assert (Hd' : d' ∈ documents t') by (rewrite Hdoc; cbn; apply list_elem_of_fmap; exists d; by rewrite bool_decide_eq_true_2).
  exists d', t'. split_and!; try done.
  - f_equal. by apply by_id.
  - unfold read. by apply by_path.
  - rewrite Hch. by rewrite bool_decide_eq_true_2.
  - intros u a p Hne. rewrite Htx. by rewrite bool_decide_eq_false_2.
Qed.
(** Appending joins the old text and the new one, or is the new one when the
    file was missing or empty. *)
Theorem append_spec (st : Stamp) (path content : string) t :
  tables_ok t -> new_doc st ∉ d_id <$> documents t ->
  exists t', append user agent embed st path content t = (Ok tt, t') /\ tables_ok t'
    /\ text_at user agent (normalize_path path) t'
       = Some (joined LF1 (default EmptyString (text_at user agent (normalize_path path) t)) content)
    /\ (forall u a p, (u, a, p) <> (user, agent, normalize_path path) -> text_at u a p t' = text_at u a p t).
Proof.
  intros Ht Hf. destruct (store_ok st (normalize_path path) (fun d => joined LF1 (d_content d) content) t Ht Hf)
    as (d & t1 & t' & E1 & E2 & Ht' & _ & _ & _ & Hold & _ & Htx & _).
  unfold append, append_with. rewrite E1, E2. exists t'. split_and!; try done.
  - rewrite Htx, Hold. by rewrite bool_decide_eq_true_2.
  - intros u a p Hne. rewrite Htx. by rewrite bool_decide_eq_false_2.
Qed.
(** Deleting removes the file and its chunks, and nothing else. *)
Theorem delete_spec (path : string) t d :
  tables_ok t -> read user agent path t = Ok d ->
  exists t', delete user agent path t = (Ok tt, t') /\ tables_ok t' /\ chunks_of (d_id d) t' = []
    /\ (forall u a p, text_at u a p t' = if bool_decide ((u, a, p) = (user, agent, normalize_path path)) then None else text_at u a p t)
    /\ (forall id, id <> d_id d -> chunks_of id t' = chunks_of id t).
Proof.
  intros Ht Hr. unfold delete, delete_document_by_path. unfold read in Hr. rewrite Hr.
  set (keep := List.filter (fun d => negb (at_path user agent (normalize_path path) d)) (documents t)).
  exists (mkTables keep (chunks (delete_chunks (d_id d) t))). split; [done|].
  assert (Hkeep : forall x, x ∈ keep <-> x ∈ documents t /\ doc_key x <> (user, agent, normalize_path path)).
  { intros x. unfold keep. rewrite list_elem_of_In, filter_In, <-list_elem_of_In, negb_true_iff, <-not_true_iff_false, at_path_key. done. }
  assert (Hsub : keep `sublist_of` documents t).
  { unfold keep. clear. induction (documents t) as [|x l IH]; cbn; [constructor|]. destruct (negb _); by constructor. }
  assert (Hok : tables_ok (mkTables keep (chunks (delete_chunks (d_id d) t)))).
  { destruct Ht as [H1 H2]. split; cbn; (eapply sublist_NoDup; [|apply fmap_sublist, Hsub]); done. }
  split_and!; [done| | |].
  - unfold chunks_of. cbn. induction (chunks t) as [|c l IH]; cbn; [done|]. case_bool_decide; cbn; [done|]. by rewrite bool_decide_eq_false_2.
  - intros u a p. apply option_eq. intros x. rewrite text_at_spec by done. cbn [documents]. setoid_rewrite Hkeep.
    destruct (bool_decide_reflect ((u, a, p) = (user, agent, normalize_path path))) as [Hk|Hk].
    + split; [|done]. intros (y & [_ Hn] & Hy & _). congruence.
    + rewrite text_at_spec by done. split; [naive_solver|]. intros (y & Hy & Hky & Hc). exists y. split_and!; try done. congruence.
  - intros id Hne. unfold chunks_of. cbn. induction (chunks t) as [|c l IH]; cbn; [done|].
    destruct (bool_decide_reflect (c_document_id c = d_id d)) as [Hc|Hc]; cbn; [rewrite bool_decide_eq_false_2 by congruence; done|].
    destruct (bool_decide _); cbn; by rewrite IH.
Qed.
(** ** Proofs: seeding and synchronising the core documents *)
Lemma read_texts path t :
  match read user agent path t with
  | Ok d => text_at user agent (normalize_path path) t = Some (d_content d)
  | Err e => (exists p u, e = DocumentNotFound p u) /\ text_at user agent (normalize_path path) t = None
  end.
Proof. unfold text_at, read. destruct (get_document_by_path _ _ _ _) eqn:Eg; [done|]. apply path_missing in Eg as [-> _]. eauto. Qed.
(** The ids that the writes from [i] on will draw are new. *)
Definition fresh_from (st : nat -> Stamp) (i : nat) t : Prop := forall j, (i <= j)%nat -> new_doc (st j) ∉ d_id <$> documents t.
Lemma write_texts st i path content t :
  (forall i j, new_doc (st i) = new_doc (st j) -> i = j) -> tables_ok t -> fresh_from st i t ->
  exists d t', write user agent embed (st i) path content t = (Ok d, t') /\ tables_ok t' /\ fresh_from st (S i) t'
    /\ forall u a p, text_at u a p t' = if bool_decide ((u, a, p) = (user, agent, normalize_path path)) then Some content else text_at u a p t.
Proof.
  intros Hinj Ht Hf. assert (Hi : new_doc (st i) ∉ d_id <$> documents t) by (apply Hf; lia).
  destruct (store_ok (st i) (normalize_path path) (fun _ => content) t Ht Hi)
    as (d & t1 & t' & E1 & E2 & Ht' & Hk & Hd & Ht1 & _ & Hdoc & Htx & _).
  destruct (get_or_create_ok (new_doc (st i)) (t_create (st i)) (normalize_path path) t Ht Hi) as (d1 & t2 & E1' & _ & _ & _ & _ & Hel & Hold).
  rewrite E1 in E1'. injection E1' as <- <-. unfold write. rewrite E1, E2. exists (set_content content (t_update (st i)) d), t'.
  split_and!; [f_equal; apply by_id; [done|]; split; [|done]; rewrite Hdoc; cbn; apply list_elem_of_fmap; exists d; by rewrite bool_decide_eq_true_2|done| |exact Htx].
  intros j Hj. rewrite Hdoc, update_keys by done. intros Hin. apply list_elem_of_fmap in Hin as (x & Hx & Hin).
  apply Hel in Hin as [Hin| ->]; [apply (Hf j); [lia|]; rewrite Hx; by apply list_elem_of_fmap_2|].
  destruct Hold as [->|[-> _]]; [apply (Hf j); [lia|]; rewrite Hx; by apply list_elem_of_fmap_2|]. cbn in Hx. apply Hinj in Hx. lia.
Qed.
Implicit Types P : CoreDocTemplate -> option string -> bool.
Definition old_text t (x : CoreDocTemplate) : option string := text_at user agent (t_path x) t.
(** The templates whose file [P] wants written are written. *)
Fixpoint refresh P (st : nat -> Stamp) (i : nat) (ts : list CoreDocTemplate) t : Tables E :=
  match ts with
  | [] => t
  | x :: ts => refresh P st (S i) ts
      (if P x (old_text t x) then (write user agent embed (st i) (t_path x) (render_template_content x) t).2 else t)
  end.
Definition wanted P t (ts : list CoreDocTemplate) : list CoreDocTemplate := List.filter (fun x => P x (old_text t x)) ts.
Lemma wanted_ext P t t' ts : (forall x, x ∈ ts -> old_text t x = old_text t' x) -> wanted P t ts = wanted P t' ts.
Proof.
  induction ts as [|x ts IH]; intros H; [done|]. unfold wanted in *. cbn. rewrite (H x) by left. rewrite IH; [done|]. intros y Hy. apply H. by right.
Qed.
Record loop_ok (st : nat -> Stamp) (i : nat) (ts : list CoreDocTemplate) t : Prop := {
  lo_inj : forall i j, new_doc (st i) = new_doc (st j) -> i = j; lo_tables : tables_ok t; lo_fresh : fresh_from st i t;
  lo_paths : Forall (fun x => normalize_path (t_path x) = t_path x) ts; lo_distinct : NoDup (t_path <$> ts) }.
Lemma loop_write st i x ts t :
  loop_ok st i (x :: ts) t ->
  exists d t', write user agent embed (st i) (t_path x) (render_template_content x) t = (Ok d, t') /\ loop_ok st (S i) ts t'
    /\ (forall u a p, text_at u a p t' = if bool_decide ((u, a, p) = (user, agent, t_path x)) then Some (render_template_content x) else text_at u a p t)
    /\ (forall y, y ∈ ts -> old_text t' y = old_text t y).
Proof.
  intros [Hinj Ht Hf Hp Hd]. apply Forall_cons in Hp as [Hx Hp]. apply NoDup_cons in Hd as [Hn Hd].
  destruct (write_texts st i (t_path x) (render_template_content x) t Hinj Ht Hf) as (d & t' & Ew & Ht' & Hf' & Htx). rewrite Hx in Htx.
  exists d, t'. split_and!; [done|by constructor|done|]. intros y Hy. unfold old_text. rewrite Htx. rewrite bool_decide_eq_false_2; [done|].
  intros [= Heq]. apply Hn. rewrite <-Heq. by apply list_elem_of_fmap_2.
Qed.
Lemma loop_skip st i x ts t : loop_ok st i (x :: ts) t -> loop_ok st (S i) ts t.
Proof.
  intros [Hinj Ht Hf Hp Hd]. apply Forall_cons in Hp as [Hx Hp]. apply NoDup_cons in Hd as [Hn Hd]. constructor; try done.
  intros j Hj. apply Hf. lia.
Qed.
Lemma refresh_ok P st i ts t :
  loop_ok st i ts t ->
  tables_ok (refresh P st i ts t)
  /\ (forall x, x ∈ wanted P t ts -> old_text (refresh P st i ts t) x = Some (render_template_content x))
  /\ (forall u a p, (forall x, x ∈ wanted P t ts -> (u, a, p) <> (user, agent, t_path x)) -> text_at u a p (refresh P st i ts t) = text_at u a p t).
Proof.
  revert i t. induction ts as [|x ts IH]; intros i t Hok; [by split_and!; [apply Hok|intros x Hx; by apply not_elem_of_nil in Hx|]|].
  cbn [refresh]. unfold wanted. cbn [List.filter]. destruct (P x (old_text t x)) eqn:EP.
  - destruct (loop_write st i x ts t Hok) as (d & t' & -> & Hok' & Htx & Hold). cbn [snd]. destruct (IH (S i) t' Hok') as (H1 & H2 & H3).
    rewrite (wanted_ext P t' t ts Hold) in H2, H3. fold (wanted P t ts). split_and!; [done| |].
    + intros y Hy. apply elem_of_cons in Hy as [->|Hy]; [|by apply H2]. unfold old_text. rewrite H3; [by rewrite Htx, bool_decide_eq_true_2|].
      intros z Hz [= Heq]. destruct Hok as [_ _ _ _ Hd]. apply NoDup_cons in Hd as [Hn _]. apply Hn. rewrite Heq.
      apply list_elem_of_fmap_2. unfold wanted in Hz. by apply list_elem_of_In, filter_In in Hz as [Hz%list_elem_of_In _].
    + intros u a p Hp. rewrite H3 by (intros y Hy; apply Hp; by right). rewrite Htx. rewrite bool_decide_eq_false_2; [done|]. apply Hp. by left.
  - apply (IH (S i) t (loop_skip _ _ _ _ _ Hok)).
Qed.
Lemma old_read t x : normalize_path (t_path x) = t_path x ->
  match read user agent (t_path x) t with
  | Ok d => old_text t x = Some (d_content d)
  | Err e => (exists p u, e = DocumentNotFound p u) /\ old_text t x = None
  end.
Proof. intros Hx. pose proof (read_texts (t_path x) t) as H. unfold old_text. by rewrite Hx in H. Qed.
Lemma seed_refresh st i ts count t :
  loop_ok st i ts t ->
  seed_loop user agent embed st i ts count t
  = ((count + length (wanted (fun _ o => bool_decide (o = None)) t ts))%nat, refresh (fun _ o => bool_decide (o = None)) st i ts t).
Proof.
  revert i count t. induction ts as [|x ts IH]; intros i count t Hok; cbn [seed_loop refresh]; [by rewrite Nat.add_0_r|].
  pose proof (old_read t x (Forall_inv (lo_paths _ _ _ _ Hok))) as Hr. unfold wanted. cbn [List.filter].
  destruct (read user agent (t_path x) t) as [d|e].
  - rewrite Hr. cbn [bool_decide]. rewrite bool_decide_eq_false_2 by done. apply IH. by eapply loop_skip.
  - destruct Hr as [(p & u & ->) Hr]. rewrite Hr, bool_decide_eq_true_2 by done.
    destruct (loop_write st i x ts t Hok) as (d & t' & -> & Hok' & _ & Hold). cbn [snd is_ok]. rewrite IH by done. f_equal.
    rewrite (wanted_ext _ t' t ts Hold). cbn [length]. unfold wanted. lia.
Qed.
(** What a synchronisation does with one file. *)
Definition refreshed (o : CoreDocsSyncOptions) (x : CoreDocTemplate) (old : option string) : bool :=
  match old with None => false | Some c => should_refresh_core_doc (t_path x) c (render_template_content x) (legacy_exact x) (force o) end.
Definition missing (x : CoreDocTemplate) (old : option string) : bool := bool_decide (old = None).
Definition left_alone (o : CoreDocsSyncOptions) (x : CoreDocTemplate) (old : option string) : bool := negb (missing x old || refreshed o x old).
Definition sync_report (o : CoreDocsSyncOptions) (r : CoreDocsSyncReport) (ts : list CoreDocTemplate) t : CoreDocsSyncReport :=
  mkReport (created r + length (wanted missing t ts)) (updated r + length (wanted (refreshed o) t ts))
    (skipped r + length (wanted (left_alone o) t ts)) (sync_failed r) (was_dry_run r).
Lemma sync_refresh o st i ts r t :
  loop_ok st i ts t ->
  sync_loop user agent embed o st i ts (r, t)
  = (sync_report o r ts t, if dry_run o then t else refresh (fun x old => missing x old || refreshed o x old) st i ts t).
Proof.
  revert i r t. induction ts as [|x ts IH]; intros i r t Hok; cbn [sync_loop refresh].
  - unfold sync_report. cbn. rewrite !Nat.add_0_r. by destruct r, (dry_run o).
  - pose proof (old_read t x (Forall_inv (lo_paths _ _ _ _ Hok))) as Hr. unfold sync_report, wanted, sync_one, left_alone. cbn [List.filter].
    destruct (read user agent (t_path x) t) as [d|e].
    + rewrite Hr. change (missing x (Some (d_content d))) with false. cbn [refreshed orb].
      destruct (should_refresh_core_doc _ _ _ _ _) eqn:Es; cbn [negb].
      * destruct (dry_run o) eqn:Ed.
        -- rewrite IH by (by eapply loop_skip). unfold sync_report, wanted, left_alone. cbn. f_equal; f_equal; lia.
        -- destruct (loop_write st i x ts t Hok) as (d' & t' & -> & Hok' & _ & Hold). cbn [snd is_ok]. rewrite IH by done. f_equal.
           unfold sync_report. rewrite !(wanted_ext _ t' t ts Hold). cbn. unfold wanted, left_alone. f_equal; lia.
      * rewrite IH by (by eapply loop_skip). f_equal. unfold sync_report, wanted, left_alone. cbn. f_equal; lia.
    + destruct Hr as [(p & u & ->) Hr]. rewrite Hr. change (missing x None) with true. cbn [refreshed orb negb]. destruct (dry_run o) eqn:Ed.
      * rewrite IH by (by eapply loop_skip). unfold sync_report, wanted, left_alone. cbn. f_equal; f_equal; lia.
      * destruct (loop_write st i x ts t Hok) as (d' & t' & -> & Hok' & _ & Hold). cbn [snd is_ok]. rewrite IH by done. f_equal.
        unfold sync_report. rewrite !(wanted_ext _ t' t ts Hold). cbn. unfold wanted, left_alone. f_equal; lia.
Qed.
Lemma counted_once o t ts :
  (length (wanted missing t ts) + length (wanted (refreshed o) t ts) + length (wanted (left_alone o) t ts) = length ts)%nat.
Proof.
  unfold wanted. induction ts as [|x ts IH]; [done|]. cbn [List.filter].
  assert (Hd : missing x (old_text t x) && refreshed o x (old_text t x) = false) by (by destruct (old_text t x)).
  change (left_alone o x (old_text t x)) with (negb (missing x (old_text t x) || refreshed o x (old_text t x))).
  destruct (missing x (old_text t x)), (refreshed o x (old_text t x)); cbn in *; [done|lia..].
Qed.
Lemma core_templates_ok st t :
  (forall i j, new_doc (st i) = new_doc (st j) -> i = j) -> tables_ok t -> fresh_from st 0 t -> loop_ok st 0 core_doc_templates t.
Proof.
  intros H1 H2 H3. constructor; try done; [|by apply (bool_decide_unpack _); vm_compute].
  by repeat constructor; vm_compute.
Qed.
(** Seeding a workspace.  Each core document that was missing now holds its
    template and is counted; every file that existed, core document or not,
    keeps its text. *)
Theorem seed_spec (st : nat -> Stamp) t :
  (forall i j, new_doc (st i) = new_doc (st j) -> i = j) -> tables_ok t -> fresh_from st 0 t ->
  let '(count, t') := seed_if_empty user agent embed st t in
  count = length (wanted missing t core_doc_templates) /\ tables_ok t'
  /\ (forall x, x ∈ core_doc_templates -> old_text t' x = Some (default (render_template_content x) (old_text t x)))
  /\ (forall u a p c, text_at u a p t = Some c -> text_at u a p t' = Some c).
Proof.
  intros H1 H2 H3. pose proof (core_templates_ok st t H1 H2 H3) as Hok. unfold seed_if_empty. rewrite seed_refresh by done.
  destruct (refresh_ok missing st 0 core_doc_templates t Hok) as (Ha & Hb & Hc).
  assert (Hin : forall x, x ∈ wanted missing t core_doc_templates <-> x ∈ core_doc_templates /\ old_text t x = None).
  { intros x. unfold wanted. rewrite list_elem_of_In, filter_In, <-list_elem_of_In. unfold missing. by rewrite bool_decide_eq_true. }
  assert (Hkeep : forall u a p c, text_at u a p t = Some c -> text_at u a p (refresh missing st 0 core_doc_templates t) = Some c).
  { intros u a p c Hc'. rewrite Hc; [done|]. intros x [_ Hx]%Hin [= -> -> ->]. unfold old_text in Hx. congruence. }
  split_and!; [done|done| |done]. intros x Hx. destruct (old_text t x) as [c|] eqn:Eo; [by apply Hkeep|]. cbn. apply Hb. by apply Hin.
Qed.
(** Synchronising the core documents.  The report counts every core document
    once, never a failure, and a dry run's report is that of the real run; a
    dry run changes nothing.  A real run writes the template exactly where the
    file was missing or due for a refresh, and touches no other file. *)
Theorem sync_core_docs_spec (o : CoreDocsSyncOptions) (st : nat -> Stamp) t :
  (forall i j, new_doc (st i) = new_doc (st j) -> i = j) -> tables_ok t -> fresh_from st 0 t ->
  let '(r, t') := sync_core_docs user agent embed o st t in
  (created r + updated r + skipped r = 7)%nat /\ sync_failed r = 0%nat
  /\ created r = length (wanted missing t core_doc_templates) /\ updated r = length (wanted (refreshed o) t core_doc_templates)
  /\ (if dry_run o then t' = t
      else tables_ok t'
           /\ (forall x, x ∈ core_doc_templates -> old_text t' x
                = if missing x (old_text t x) || refreshed o x (old_text t x) then Some (render_template_content x) else old_text t x)
           /\ (forall u a p, (forall x, x ∈ core_doc_templates -> (u, a, p) <> (user, agent, t_path x)) -> text_at u a p t' = text_at u a p t)).
Proof.
  intros H1 H2 H3. pose proof (core_templates_ok st t H1 H2 H3) as Hok. unfold sync_core_docs. rewrite sync_refresh by done.
  split_and!; try done.
  - cbn [sync_report created updated skipped Nat.add]. apply counted_once.
  - destruct (dry_run o); [done|]. set (P := fun x old => missing x old || refreshed o x old).
    destruct (refresh_ok P st 0 core_doc_templates t Hok) as (Ha & Hb & Hc).
    assert (Hin : forall x, x ∈ wanted P t core_doc_templates <-> x ∈ core_doc_templates /\ P x (old_text t x) = true).
    { intros x. unfold wanted. by rewrite list_elem_of_In, filter_In, <-list_elem_of_In. }
    split_and!; [done| |].
    + intros x Hx. fold (P x (old_text t x)). destruct (P x (old_text t x)) eqn:EP; [apply Hb; by apply Hin|]. apply Hc. intros y [Hy HPy]%Hin [= Heq].
      assert (x = y) as <-; [|congruence]. pose proof (lo_distinct _ _ _ _ Hok) as Hd.
      assert (Hk : forall z, String.eqb (t_path z) (t_path x) = true <-> t_path z = t_path x) by (intros; apply String.eqb_eq).
      pose proof (proj2 (find_key t_path _ (t_path x) _ x Hk Hd) (conj Hx eq_refl)).
      pose proof (proj2 (find_key t_path _ (t_path x) _ y Hk Hd) (conj Hy (eq_sym Heq))). congruence.
    + intros u a p Hp. apply Hc. intros x [Hx _]%Hin. by apply Hp.
Qed.
End WriteProofs.

(** ** Proofs: search *)
(** A search shows a user the text of chunks of the user's own documents only,
    and at most as many as were asked for. *)
Theorem search_own_documents {E} (user : string) (agent : option Uuid) (embed : option (string -> Result E string))
    fts_match vector_top_k (query : string) (n : nat) (t : Tables E) :
  match search user agent embed fts_match vector_top_k query n t with
  | Ok rs => (length rs <= n)%nat /\ forall r, r ∈ rs -> exists c d, c ∈ chunks t /\ d ∈ documents t /\ d_user_id d = user /\ d_agent_id d = agent
               /\ c_document_id c = d_id d /\ sr_chunk_id r = c_id c /\ sr_document_id r = d_id d /\ sr_content r = c_content c
  | Err e => (exists m, e = EmbeddingFailed m) \/ exists m, fts_match query = Err m
  end.
Proof.
  set (Q := fun id doc text => exists c d, c ∈ chunks t /\ d ∈ documents t /\ d_user_id d = user /\ d_agent_id d = agent
              /\ c_document_id c = d_id d /\ id = c_id c /\ doc = d_id d /\ text = c_content c).
  assert (Hv : forall id c, visible user agent t id = Some c -> Q (c_id c) (c_document_id c) (c_content c)).
  { intros id c. unfold visible. destruct (List.find _ _) as [x|] eqn:F; [|done]. destruct (existsb _ _) eqn:Ex; [|done]. intros [= <-].
    apply find_some in F as [Hx _]. apply existsb_exists in Ex as (d & Hd & Ho%andb_true_iff). destruct Ho as [Ho Hid%bool_decide_eq_true].
    apply andb_true_iff in Ho as [Hu%String.eqb_eq Ha%bool_decide_eq_true]. exists x, d. split_and!; try done; by apply list_elem_of_In. }
  assert (Hr : forall (l : list (MemoryChunk E)) x, (forall c, c ∈ l -> Q (c_id c) (c_document_id c) (c_content c)) -> x ∈ ranked (E:=E) l ->
            Q (rr_chunk_id x) (rr_document_id x) (rr_content x)).
  { intros l x Hl. unfold ranked. intros (i & c & -> & Hc%list_elem_of_lookup_2)%elem_of_lookup_imap. by apply Hl. }
  assert (Ho : forall (ids : list Uuid) (c : MemoryChunk E), c ∈ omap (visible user agent t) ids -> Q (c_id c) (c_document_id c) (c_content c)).
  { intros ids c (id & _ & Hc)%list_elem_of_omap. by eapply Hv. }
  assert (Hh : forall e, match hybrid_search user agent fts_match vector_top_k query e (with_limit n default_search) t with
    | Ok rs => (length rs <= n)%nat /\ forall r, r ∈ rs -> Q (sr_chunk_id r) (sr_document_id r) (sr_content r)
    | Err _ => exists m, fts_match query = Err m end).
  { intros e. unfold hybrid_search. cbn [use_fts use_vector with_limit default_search pre_fusion_limit].
    destruct (fts_match query) as [ids|m]; [|eauto]. split; [unfold reciprocal_rank_fusion; rewrite length_take; cbn; lia|].
    intros r. apply fusion_from. intros x [Hx|Hx]%elem_of_app.
    - eapply Hr; [|exact Hx]. intros c Hc. eapply Ho. apply elem_of_take in Hc as (i & Hi & _). by eapply list_elem_of_lookup_2.
    - destruct e as [e|]; [|by apply not_elem_of_nil in Hx]. eapply Hr; [|exact Hx]. apply Ho. }
  unfold search, search_with_config. destruct embed as [f|]; [destruct (f query) as [e|m]|]; [|by left; eauto|].
  - specialize (Hh (Some e)). destruct (hybrid_search _ _ _ _ _ _ _ _); [exact Hh|by right].
  - specialize (Hh None). destruct (hybrid_search _ _ _ _ _ _ _ _); [exact Hh|by right].
Qed.

(** ** Proofs: the index *)
(** The index of a text has no gap, for every text: 800-word windows that
    overlap by 120, the running out of fuel excluded.  A text of at most 800
    words is one chunk; of a longer one every word lies in some chunk, and no
    chunk holds more than 850 words. *)
Theorem index_chunks_spec (content : string) :
  let words := split_whitespace content in
  (words = [] -> index_chunks content = [])
  /\ (words <> [] -> (length words <= 800)%nat -> index_chunks content = [content])
  /\ ((800 < length words)%nat -> exists parts, index_chunks content = map (text_of words) parts
        /\ Chunker.chain 0 (concat parts) (length words)
        /\ (forall i w, words !! i = Some w -> exists p, p ∈ parts /\ w ∈ flat_map (fun iv => slice words (fst iv) (snd iv)) p)
        /\ Forall (fun p => (size_of words p <= 850)%nat) parts).
Proof.
  intros words. assert (Hov : overlap_size f32_scale index_config = 120%nat) by (vm_compute; reflexivity).
  assert (Hne : words <> [] -> content <> EmptyString) by (intros H ->; done).
  destruct (chunk_document_covers f32_scale (S (length words)) content index_config) as (cs & Hc & H1 & H2); [rewrite Hov; cbn; lia|cbn; lia|unfold words; lia|].
  unfold index_chunks. fold words. rewrite Hc. cbn [default]. split_and!.
  - intros Hw. revert Hc. unfold chunk_document. fold words. rewrite Hw. by case_bool_decide; intros [= <-].
  - intros Hw Hl. apply H1; [by apply Hne|done|exact Hl].
  - intros Hl. apply H2; [apply Hne; intros Hw; rewrite Hw in Hl; cbn in Hl; lia|exact Hl].
Qed.

(** ** Examples *)
Definition no_files : Tables unit := mkTables [] [].
Definition stamp (i : nat) : Stamp := mkStamp (N.of_nat i) (fun k => N.of_nat (100 + k)) 5 6 7.
(** Two writers that both looked before the other wrote: rows without an agent
    never conflict, and the second document of the path is never read again. *)
Example racing_writers_duplicate :
  let first := new_document 1%N 5 "u" None "a.md" in let second := new_document 2%N 6 "u" None "a.md" in
  let t := insert_document second (insert_document first no_files) in
  d_path <$> documents t = ["a.md"; "a.md"]%string /\ get_document_by_path "u" None "a.md" t = Ok first.
Proof. vm_compute. done. Qed.
(** The user's condition comes after the nearest chunks of all users were taken:
    a semantic search finds nothing when others have enough closer ones. *)
Example others_crowd_out :
  let t := (write "a" None None (stamp 2) "a.md" "text" (write "b" None None (stamp 1) "b.md" "text" no_files).2).2 in
  let chunk := mkChunkRow unit 7%N 2%N 0 "text" (Some tt) 7 in
  let t := insert_chunk chunk (insert_chunk (mkChunkRow unit 8%N 1%N 0 "text" (Some tt) 7) (mkTables (documents t) [])) in
  let nearest k := take k [8%N; 7%N] in
  hybrid_search "a" None (fun _ => Ok []) (fun _ => nearest) "q" (Some tt) (with_limit 1 default_search) t
    = Ok (reciprocal_rank_fusion [] (ranked [chunk]) (with_limit 1 default_search))
  /\ omap (visible "a" None t) (nearest 1%nat) = [].
Proof. vm_compute. done. Qed.
(** Building the prompt creates the two daily logs. *)
Example prompt_creates_daily_logs :
  let '(prompt, t) := system_prompt "u" None (stamp 1) (stamp 2) "2026-01-02" "2026-01-01" no_files in
  prompt = EmptyString /\ d_path <$> documents t = ["daily/2026-01-02.md"; "daily/2026-01-01.md"]%string.
Proof. vm_compute. done. Qed.
(** The merge called safe replaces a checklist whose tasks are headings, and a
    core document edited under an older version marker. *)
Example safe_merge_overwrites_edits :
  should_refresh_core_doc HEARTBEAT ("# Ask about the build" ++s LF1 ++s "## Pay the rent") "template" [] false = true
  /\ should_refresh_core_doc USER (CORE_DOC_MARKER_PREFIX ++s " version=1 path=USER.md -->" ++s LF1 ++s "Allergic to nuts") "template" [] false = true
  /\ should_refresh_core_doc USER "Allergic to nuts" "template" [] false = false.
Proof. vm_compute. done. Qed.

(** ** Witnesses *)
Lemma stamps_distinct i j : new_doc (stamp i) = new_doc (stamp j) -> i = j.
Proof. cbn. lia. Qed.
Lemma no_files_ok : tables_ok no_files.
Proof. split; constructor. Qed.
Lemma no_files_fresh id : id ∉ d_id <$> documents no_files.
Proof. apply not_elem_of_nil. Qed.
Lemma write_spec_witness :
  exists d t', write "u" None (Some (fun _ => Err "down"%string)) (stamp 1) "/notes//a.md/" "text" no_files = (Ok d, t') /\ d_path d = "notes/a.md"%string.
Proof.
  destruct (write_spec "u" None (Some (fun _ => Err "down"%string)) (stamp 1) "/notes//a.md/" "text" no_files no_files_ok (no_files_fresh _))
    as (d & t' & H & _ & Hr & _). exists d, t'. split; [exact H|]. revert H. vm_compute. by intros [= <- _].
Defined.
Lemma append_spec_witness :
  exists t', append "u" None None (stamp 1) "a.md" "text" no_files = (Ok tt, t') /\ text_at "u" None "a.md" t' = Some "text"%string.
Proof.
  destruct (append_spec "u" None None (stamp 1) "a.md" "text" no_files no_files_ok (no_files_fresh _)) as (t' & H & _ & Ht & _).
  exists t'. split; [exact H|]. exact Ht.
Defined.
Definition one_file : Tables unit := insert_document (new_document 1%N 5 "u" None "a.md") no_files.
Lemma delete_spec_witness :
  exists t', delete "u" None "/a.md" one_file = (Ok tt, t') /\ text_at "u" None "a.md" t' = None.
Proof.
  destruct (delete_spec "u" None "/a.md" one_file (new_document 1%N 5 "u" None "a.md")) as (t' & H & _ & _ & Ht & _);
    [split; repeat constructor; apply not_elem_of_nil|reflexivity|]. exists t'. split; [exact H|]. by rewrite Ht.
Defined.
Lemma seed_spec_witness :
  let '(count, _) := seed_if_empty "u" None None stamp no_files in count = 7%nat.
Proof.
  pose proof (seed_spec "u" None None stamp no_files stamps_distinct no_files_ok (fun _ _ => no_files_fresh _)) as H.
  destruct (seed_if_empty _ _ _ _ _) as [count t']. destruct H as [-> _]. reflexivity.
Defined.
Lemma sync_core_docs_spec_witness :
  let '(r, t) := sync_core_docs "u" None None (mkSyncOptions true false) stamp no_files in (created r + updated r + skipped r = 7)%nat /\ t = no_files.
Proof.
  pose proof (sync_core_docs_spec "u" None None (mkSyncOptions true false) stamp no_files stamps_distinct no_files_ok (fun _ _ => no_files_fresh _)) as H.
  destruct (sync_core_docs _ _ _ _ _ _) as [r t]. destruct H as (H & _ & _ & _ & ->). done.
Defined.
