(* ===== verification/Files.v ===== *)
(** The file tools: [src/tools/builtin/file.rs].

    The file system is a map from physical locations (the names from the root)
    to directories, files and symbolic links; [walk] resolves a path in it the
    way the operating system does, following links, and is what
    [canonicalize], [exists] and the opening of a file rest on.  Paths are the
    component lists of [std::path] on Unix.  Files hold UTF-8 text, and
    permissions never refuse an access. *)

From S2P Require Import Prelude Strs Json Float64 Skills Safety Tool.
From Stdlib Require Import Ascii.
#[local] Open Scope claw_scope.

(** ** Paths *)
Inductive Comp := RootDir | CurDir | ParentDir | Normal (n : string).
#[global] Instance comp_eq_dec : EqDecision Comp.
Proof. solve_decision. Defined.
Abbreviation Path := (list Comp).

Definition seg_comp (s : string) : option Comp :=
  if is_empty s || String.eqb s "." then None else if String.eqb s ".." then Some ParentDir else Some (Normal s).
(** [Path::components]: a leading dot is kept, others and empty segments are not. *)
Definition components (s : string) : Path :=
  let segs := split_on "/"%char s in
  if starts_with s "/" then RootDir :: omap seg_comp segs
  else match segs with
       | "." :: rest => CurDir :: omap seg_comp rest
       | _ => omap seg_comp segs
       end.
Definition is_absolute (p : Path) : bool := match p with RootDir :: _ => true | _ => false end.
Definition join (b p : Path) : Path :=
  if is_absolute p then p
  else match b with [] => p | _ => b ++ List.filter (fun c => bool_decide (c <> CurDir)) p end.
Definition comp_name (c : Comp) : string :=
  match c with RootDir => EmptyString | CurDir => "." | ParentDir => ".." | Normal n => n end.
Definition path_display (p : Path) : string :=
  match p with [RootDir] => "/" | _ => String.concat "/" (map comp_name p) end.
Definition file_name (p : Path) : option string := match last p with Some (Normal n) => Some n | _ => None end.
Definition parent (p : Path) : option Path :=
  match last p with None | Some RootDir => None | Some _ => Some (removelast p) end.
Definition path_starts_with (p base : Path) : bool := bool_decide (base `prefix_of` p).

(** ** The file system *)
Inductive Node := Dir | File (content : string) | Link (target : Path).
#[global] Instance node_eq_dec : EqDecision Node.
Proof. solve_decision. Defined.
Abbreviation Loc := (list string).
Abbreviation FS := (gmap Loc Node).
Inductive IoError := ENOENT | ENOTDIR | ELOOP | EISDIR | EEXIST.

Definition node (fs : FS) (q : Loc) : option Node := match q with [] => Some Dir | _ => fs !! q end.
Definition is_dir (fs : FS) (q : Loc) : bool := match node fs q with Some Dir => true | _ => false end.

(** The resolution of a path from [cur]; at most [links] links are followed.
    The result is the location and the number of links left. *)
Fixpoint walk (fs : FS) (links : nat) {struct links} : Loc -> Path -> Result (Loc * nat) IoError :=
  fix go (cur : Loc) (todo : Path) {struct todo} : Result (Loc * nat) IoError :=
    match todo with
    | [] => Ok (cur, links)
    | RootDir :: t => go [] t
    | CurDir :: t => if is_dir fs cur then go cur t else Err ENOTDIR
    | ParentDir :: t => if is_dir fs cur then go (removelast cur) t else Err ENOTDIR
    | Normal n :: t =>
        if is_dir fs cur then
          match node fs (cur ++ [n]) with
          | None => Err ENOENT
          | Some (Link target) =>
              match links with
              | O => Err ELOOP
              | S l => walk fs l cur (target ++ t)
              end
          | Some _ => go (cur ++ [n]) t
          end
        else Err ENOTDIR
    end.
Definition MAX_LINKS : nat := 40.

(** A process: the file system and the working directory. *)
Record Env := mkEnv { files : FS; cwd : Loc }.
Definition set_files (e : Env) (fs : FS) : Env := mkEnv fs (cwd e).

Definition resolve (e : Env) (p : Path) : Result Loc IoError :=
  match p with [] => Err ENOENT | _ => match walk (files e) MAX_LINKS (cwd e) p with Ok (q, _) => Ok q | Err x => Err x end end.
Definition phys (q : Loc) : Path := RootDir :: map Normal q.
Definition canonicalize (e : Env) (p : Path) : option Path :=
  match resolve e p with Ok q => Some (phys q) | Err _ => None end.
Definition exists_path (e : Env) (p : Path) : bool := is_ok (resolve e p).
Definition path_is_dir (e : Env) (p : Path) : bool := match resolve e p with Ok q => is_dir (files e) q | Err _ => false end.

Definition read_to_string (e : Env) (p : Path) : Result string IoError :=
  match resolve e p with
  | Ok q => match node (files e) q with Some (File c) => Ok c | _ => Err EISDIR end
  | Err x => Err x
  end.

(** Where a file opened for writing is: like [walk], but the last component
    may be missing. *)
Fixpoint locate (fs : FS) (links : nat) {struct links} : Loc -> Path -> Result Loc IoError :=
  fix go (cur : Loc) (todo : Path) {struct todo} : Result Loc IoError :=
    match todo with
    | [] => if is_dir fs cur then Err EISDIR else Ok cur
    | RootDir :: t => go [] t
    | CurDir :: t => if is_dir fs cur then go cur t else Err ENOTDIR
    | ParentDir :: t => if is_dir fs cur then go (removelast cur) t else Err ENOTDIR
    | Normal n :: t =>
        if is_dir fs cur then
          match node fs (cur ++ [n]), t with
          | None, [] => Ok (cur ++ [n])
          | None, _ => Err ENOENT
          | Some (Link target), _ =>
              match links with
              | O => Err ELOOP
              | S l => locate fs l cur (target ++ t)
              end
          | Some _, _ => go (cur ++ [n]) t
          end
        else Err ENOTDIR
    end.
Definition write (e : Env) (p : Path) (content : string) : Result unit IoError * Env :=
  match p with
  | [] => (Err ENOENT, e)
  | _ => match locate (files e) MAX_LINKS (cwd e) p with
         | Ok q => (Ok tt, set_files e (<[q := File content]> (files e)))
         | Err x => (Err x, e)
         end
  end.

(** [fs::create_dir] and [fs::create_dir_all]. *)
Definition mkdir (e : Env) (p : Path) : Result Env IoError :=
  match last p with
  | None => Err ENOENT
  | Some (Normal n) =>
      match walk (files e) MAX_LINKS (cwd e) (removelast p) with
      | Err x => Err x
      | Ok (d, _) =>
          if is_dir (files e) d
          then match node (files e) (d ++ [n]) with
               | None => Ok (set_files e (<[d ++ [n] := Dir]> (files e)))
               | Some _ => Err EEXIST
               end
          else Err ENOTDIR
      end
  | Some _ => Err EEXIST
  end.
Fixpoint create_dir_all (fuel : nat) (e : Env) (p : Path) : Result unit IoError * Env :=
  match p with
  | [] => (Ok tt, e)
  | _ =>
      match mkdir e p with
      | Ok e => (Ok tt, e)
      | Err ENOENT =>
          match fuel, parent p with
          | S fuel, Some par =>
              match create_dir_all fuel e par with
              | (Err x, e) => (Err x, e)
              | (Ok _, e) =>
                  match mkdir e p with
                  | Ok e => (Ok tt, e)
                  | Err x => (if path_is_dir e p then Ok tt else Err x, e)
                  end
              end
          | _, _ => (Err ENOENT, e)
          end
      | Err x => (if path_is_dir e p then Ok tt else Err x, e)
      end
  end.

(** ** The checks of the tools *)
Definition WORKSPACE_FILES : list string :=
  ["HEARTBEAT.md"; "MEMORY.md"; "IDENTITY.md"; "SOUL.md"; "AGENTS.md"; "USER.md"; "README.md"].
Definition is_workspace_path (path : string) : bool :=
  bool_decide (default path (file_name (components path)) ∈ WORKSPACE_FILES)
  || starts_with path "daily/" || starts_with path "context/".
Definition MAX_READ_SIZE : Z := 1024 * 1024.
Definition MAX_WRITE_SIZE : Z := 5 * 1024 * 1024.
Definition MAX_DIR_ENTRIES : nat := 500.

Definition push_component (acc : Path) (c : Comp) : Path :=
  match c with
  | ParentDir => match last acc with Some (Normal _) => removelast acc | _ => acc end
  | CurDir => acc
  | _ => acc ++ [c]
  end.
Definition normalize_lexical (p : Path) : Path := foldl push_component [] p.

(** The nearest existing ancestor, resolved, with the rest of the path behind
    it; the whole path if no ancestor exists.  [tail] holds the names passed. *)
Fixpoint ancestor_loop (fuel : nat) (e : Env) (resolved anc : Path) (tail : list string) : Path :=
  match resolve e anc with
  | Ok q => foldl (fun r n => join r [Normal n]) (phys q) tail
  | Err _ =>
      let tail := match file_name anc with Some n => n :: tail | None => tail end in
      match fuel, parent anc with
      | S fuel, Some par => ancestor_loop fuel e resolved par tail
      | _, _ => resolved
      end
  end.

Definition resolve_path (e : Env) (path_str : string) (base_dir : option Path) : Path :=
  let path := components path_str in
  if is_absolute path then default (normalize_lexical path) (canonicalize e path)
  else match base_dir with
       | Some base => let joined := join base path in default (normalize_lexical joined) (canonicalize e joined)
       | None => normalize_lexical (join (phys (cwd e)) path)
       end.
Definition check_path (e : Env) (resolved : Path) : Path :=
  if exists_path e resolved then default resolved (canonicalize e resolved)
  else ancestor_loop (length resolved) e resolved resolved [].
Definition validate_path (e : Env) (path_str : string) (base_dir : option Path) : Result Path ExecError :=
  let resolved := resolve_path e path_str base_dir in
  match base_dir with
  | None => Ok resolved
  | Some base =>
      let base_canonical := default (normalize_lexical base) (canonicalize e base) in
      if path_starts_with (check_path e resolved) base_canonical then Ok resolved
      else Err (NotAuthorized ("Path escapes sandbox: " ++s path_str))
  end.

(** ** The tools

    A slice out of bounds panics, which is an outcome of its own. *)
Inductive Outcome (A : Type) := Done (a : A) | Panicked.
Arguments Done {A} a.
Arguments Panicked {A}.

Section Tools.
  Context (show_io : IoError -> string) (show_tenths : f64 -> string) (dir_size : Z).

Definition node_size (n : option Node) : Z := 
  match n with
  | Some (File c) => Z.of_nat (String.length c)
  | Some (Link t) => Z.of_nat (String.length (path_display t))
  | _ => dir_size
  end.

(** [{:>6}], and the bar (U+2502) that follows the number. *)
Fixpoint spaces (n : nat) : string := match n with O => EmptyString | S n => String " "%char (spaces n) end.
Definition pad6 (n : Z) : string := let t := pretty n in spaces (6 - String.length t) ++s t.
Definition BAR : string := String (chr 226) (String (chr 148) (String (chr 130) EmptyString)).
Definition number_line (i : nat) (line : string) : string := pad6 (Z.of_nat i + 1) ++s BAR ++s " " ++s line.

(** The lines an offset and a limit select; 64-bit addition wraps. *)
Definition start_line (offset : Z) : Z := if 0 <? offset then offset - 1 else 0.
Definition end_line (total start : Z) (limit : option Z) : Z :=
  match limit with Some lim => Z.min (wrap 64 (start + lim)) total | None => total end.
Definition select_lines (ls : list string) (offset : Z) (limit : option Z) : Outcome (list string) :=
  let s := start_line offset in
  let e := end_line (Z.of_nat (length ls)) s limit in
  if (e <? s) || (Z.of_nat (length ls) <? e) then Panicked
  else Done (imap (fun i line => number_line (Z.to_nat s + i) line) (take (Z.to_nat (e - s)) (drop (Z.to_nat s) ls))).

Definition jint (n : Z) : Json := JNumber (pretty n).
Definition read_file (e : Env) (base : option Path) (params : Json) : Outcome (Result Json ExecError) :=
  match require_str params "path" with
  | Err x => Done (Err x)
  | Ok path_str =>
      let offset := default 0 (get_u64 "offset" params) in
      let limit := get_u64 "limit" params in
      match validate_path e path_str base with
      | Err x => Done (Err x)
      | Ok path =>
          match resolve e path with
          | Err x => Done (Err (ExecutionFailed ("Cannot access file: " ++s show_io x)))
          | Ok q =>
              let size := node_size (node (files e) q) in
              if MAX_READ_SIZE <? size
              then Done (Err (ExecutionFailed ("File too large (" ++s pretty size ++s " bytes). Maximum is "
                     ++s pretty MAX_READ_SIZE ++s " bytes. Use offset/limit for partial reads.")))
              else match read_to_string e path with
              | Err x => Done (Err (ExecutionFailed ("Failed to read file: " ++s show_io x)))
              | Ok content =>
                  let ls := lines content in
                  match select_lines ls offset limit with
                  | Panicked => Panicked
                  | Done sel =>
                      Done (Ok (JObject [("content"%string, JString (String.concat LF sel));
                        ("total_lines"%string, jint (Z.of_nat (length ls)));
                        ("lines_shown"%string, jint (Z.of_nat (length sel)));
                        ("path"%string, JString (path_display path))]))
                  end
              end
          end
      end
  end.

Definition write_file (e : Env) (base : option Path) (params : Json) : Result Json ExecError * Env :=
  match require_str params "path" with
  | Err x => (Err x, e)
  | Ok path_str =>
      if is_workspace_path path_str
      then (Err (InvalidParameters ("'" ++s path_str ++s "' is a workspace memory file. Use the memory_write tool instead of write_file. For HEARTBEAT.md use target='heartbeat', for MEMORY.md use target='memory'.")), e)
      else match require_str params "content" with
      | Err x => (Err x, e)
      | Ok content =>
          let len := Z.of_nat (String.length content) in
          if MAX_WRITE_SIZE <? len
          then (Err (InvalidParameters ("Content too large (" ++s pretty len ++s " bytes). Maximum is "
                       ++s pretty MAX_WRITE_SIZE ++s " bytes.")), e)
          else match validate_path e path_str base with
          | Err x => (Err x, e)
          | Ok path =>
              let '(made, e) := match parent path with
                                | Some par => create_dir_all (length par) e par
                                | None => (Ok tt, e)
                                end in
              match made with
              | Err x => (Err (ExecutionFailed ("Failed to create directories: " ++s show_io x)), e)
              | Ok _ =>
                  match write e path content with
                  | (Err x, e) => (Err (ExecutionFailed ("Failed to write file: " ++s show_io x)), e)
                  | (Ok _, e) =>
                      (Ok (JObject [("path"%string, JString (path_display path)); ("bytes_written"%string, jint len);
                                    ("success"%string, JBool true)]), e)
                  end
              end
          end
      end
  end.

(** [str::replacen] once; [str::matches] counts what [replace] replaces. *)
Fixpoint replace_first (pat r s : string) : string :=
  match strip_prefix s pat with
  | Some rest => r ++s rest
  | None => match s with EmptyString => EmptyString | String c s => String c (replace_first pat r s) end
  end.
Fixpoint count_matches_n (n : nat) (pat s : string) : nat :=
  match n, s with
  | S n, String _ s' => match strip_prefix s pat with Some rest => S (count_matches_n n pat rest) | None => count_matches_n n pat s' end
  | _, _ => O
  end.

(** [str::replace] of an empty pattern inserts at every character boundary. *)
Fixpoint intersperse (r s : string) : string :=
  match s with
  | EmptyString => r
  | String c s => (if continuation c then EmptyString else r) ++s String c (intersperse r s)
  end.
Definition replace_all_str (pat r s : string) : string := if is_empty pat then intersperse r s else replace_str pat r s.
Definition count_matches (pat s : string) : nat :=
  if is_empty pat then S (length (List.filter (fun c => negb (continuation c)) (chars s)))
  else count_matches_n (String.length s) pat s.

Definition apply_patch (e : Env) (base : option Path) (params : Json) : Result Json ExecError * Env :=
  match require_str params "path", require_str params "old_string", require_str params "new_string" with
  | Err x, _, _ | Ok _, Err x, _ | Ok _, Ok _, Err x => (Err x, e)
  | Ok path_str, Ok old, Ok new =>
      let replace_all := default false (get_bool "replace_all" params) in
      match validate_path e path_str base with
      | Err x => (Err x, e)
      | Ok path =>
          match read_to_string e path with
          | Err x => (Err (ExecutionFailed ("Failed to read file: " ++s show_io x)), e)
          | Ok content =>
              if negb (str_contains content old)
              then (Err (ExecutionFailed ("Could not find the specified text in " ++s path_display path
                           ++s ". Make sure old_string matches exactly.")), e)
              else
                let new_content := if replace_all then replace_all_str old new content else replace_first old new content in
                let n := if replace_all then count_matches old content else 1%nat in
                match write e path new_content with
                | (Err x, e) => (Err (ExecutionFailed ("Failed to write file: " ++s show_io x)), e)
                | (Ok _, e) =>
                    (Ok (JObject [("path"%string, JString (path_display path)); ("replacements"%string, jint (Z.of_nat n));
                                  ("success"%string, JBool true)]), e)
                end
          end
      end
  end.

(** *** [list_dir] *)
Definition KB : Z := 1024.
Definition MB : Z := KB * 1024.
Definition GB : Z := MB * 1024.
Definition format_size (bytes : Z) : string :=
  if GB <=? bytes then show_tenths (f64_div (f64_of bytes) (f64_of GB)) ++s "GB"
  else if MB <=? bytes then show_tenths (f64_div (f64_of bytes) (f64_of MB)) ++s "MB"
  else if KB <=? bytes then show_tenths (f64_div (f64_of bytes) (f64_of KB)) ++s "KB"
  else pretty bytes ++s "B".

Definition SKIPPED_DIRS : list string := ["node_modules"; "target"; ".git"; "__pycache__"; "venv"; ".venv"].
(** The names in a directory, in the order the system gives them. *)
Context (read_dir : FS -> Loc -> list string).

(** The loop over the entries of the directory [q], shown below the names
    [rel]; the metadata of an entry does not follow a link.  [depth] is the
    number of further levels that may be entered. *)
Definition entry_display (rel : Loc) (n : string) (x : option Node) : string :=
  let shown := String.concat "/" (rel ++ [n]) in
  match x with
  | Some Dir => shown ++s "/"
  | _ => shown ++s " (" ++s format_size (match x with Some _ => node_size x | None => 0 end) ++s ")"
  end.
Fixpoint list_loop (show : string -> string) (enter : string -> list string -> list string) (names entries : list string)
  : list string :=
  match names with
  | [] => entries
  | n :: names =>
      if (MAX_DIR_ENTRIES <=? length entries)%nat then entries
      else list_loop show enter names (enter n (entries ++ [show n]))
  end.
Fixpoint list_dir_inner (fs : FS) (recursive : bool) (depth : nat) (q rel : Loc) (entries : list string) : list string :=
  if (MAX_DIR_ENTRIES <=? length entries)%nat then entries
  else list_loop (fun n => entry_display rel n (node fs (q ++ [n])))
         (fun n entries =>
            match node fs (q ++ [n]), depth with
            | Some Dir, S depth =>
                if recursive && negb (bool_decide (n ∈ SKIPPED_DIRS))
                then list_dir_inner fs recursive depth (q ++ [n]) (rel ++ [n]) entries
                else entries
            | _, _ => entries
            end) (read_dir fs q) entries.

(** Directories first, then by name; a stable sort. *)
Definition entry_before (a b : string) : bool :=
  match ends_with a "/", ends_with b "/" with
  | true, false => true
  | false, true => false
  | _, _ => String.ltb a b
  end.
Fixpoint insert_entry (x : string) (l : list string) : list string :=
  match l with [] => [x] | y :: l' => if entry_before x y then x :: l else y :: insert_entry x l' end.
Definition sort_entries (l : list string) : list string := foldl (fun acc x => insert_entry x acc) [] l.

Definition list_dir (e : Env) (base : option Path) (params : Json) : Result Json ExecError :=
  let path_str := default "."%string (get_str "path" params) in
  let recursive := default false (get_bool "recursive" params) in
  let max_depth := default 3 (get_u64 "max_depth" params) in
  match validate_path e path_str base with
  | Err x => Err x
  | Ok path =>
      match resolve e path with
      | Err x => Err (ExecutionFailed ("Failed to read directory: " ++s show_io x))
      | Ok q =>
          if is_dir (files e) q then
            let entries := sort_entries (list_dir_inner (files e) recursive (Z.to_nat max_depth) q [] []) in
            let truncated := (MAX_DIR_ENTRIES <? length entries)%nat in
            let entries := if truncated then take MAX_DIR_ENTRIES entries else entries in
            Ok (JObject [("path"%string, JString (path_display path)); ("entries"%string, JArray (map JString entries));
                         ("count"%string, jint (Z.of_nat (length entries))); ("truncated"%string, JBool truncated)])
          else Err (ExecutionFailed ("Failed to read directory: " ++s show_io ENOTDIR))
      end
  end.
End Tools.

(** ** Lemmas on resolution *)
Lemma walk_cons fs l cur c t :
  walk fs l cur (c :: t) =
    match c with
    | RootDir => walk fs l [] t
    | CurDir => if is_dir fs cur then walk fs l cur t else Err ENOTDIR
    | ParentDir => if is_dir fs cur then walk fs l (removelast cur) t else Err ENOTDIR
    | Normal n =>
        if is_dir fs cur then
          match node fs (cur ++ [n]) with
          | None => Err ENOENT
          | Some (Link target) => match l with O => Err ELOOP | S l => walk fs l cur (target ++ t) end
          | Some _ => walk fs l (cur ++ [n]) t
          end
        else Err ENOTDIR
    end.
Proof. by destruct l, c. Qed.
Lemma walk_nil fs l cur : walk fs l cur [] = Ok (cur, l).
Proof. by destruct l. Qed.
Lemma locate_cons fs l cur c t :
  locate fs l cur (c :: t) =
    match c with
    | RootDir => locate fs l [] t
    | CurDir => if is_dir fs cur then locate fs l cur t else Err ENOTDIR
    | ParentDir => if is_dir fs cur then locate fs l (removelast cur) t else Err ENOTDIR
    | Normal n =>
        if is_dir fs cur then
          match node fs (cur ++ [n]), t with
          | None, [] => Ok (cur ++ [n])
          | None, _ => Err ENOENT
          | Some (Link target), _ => match l with O => Err ELOOP | S l => locate fs l cur (target ++ t) end
          | Some _, _ => locate fs l (cur ++ [n]) t
          end
        else Err ENOTDIR
    end.
Proof. by destruct l, c. Qed.

(** A path is resolved piece by piece. *)
Lemma walk_app fs l cur a b :
  walk fs l cur (a ++ b) = match walk fs l cur a with Ok (d, l') => walk fs l' d b | Err x => Err x end.
Proof.
  revert cur a. induction l as [|l IHl]; intros cur a; revert cur;
    (induction a as [|c a IHa]; intros cur; [by rewrite walk_nil|]);
    rewrite <- app_comm_cons, !walk_cons; destruct c as [| | |n]; rewrite ?IHa; try done;
    destruct (is_dir fs cur); try done; destruct (node fs (cur ++ [n])) as [[|x|target]|]; try done.
  by rewrite app_assoc, IHl.
Qed.

(** Opening for writing goes the same way as resolving, as far as that goes. *)
Lemma locate_app fs l cur a b d l' :
  walk fs l cur a = Ok (d, l') -> locate fs l cur (a ++ b) = locate fs l' d b.
Proof.
  revert cur a d l'. induction l as [|l IHl]; intros cur a d l'; revert cur;
    (induction a as [|c a IHa]; intros cur; [rewrite walk_nil; by intros [= -> ->]|]);
    rewrite <- app_comm_cons, walk_cons, locate_cons; destruct c as [| | |n]; auto;
    destruct (is_dir fs cur); auto; try done; destruct (node fs (cur ++ [n])) as [[|x|target]|]; auto; try done.
  rewrite app_assoc. apply IHl.
Qed.

Lemma is_dir_mono fs fs' q : fs ⊆ fs' -> is_dir fs q = true -> is_dir fs' q = true.
Proof.
  intros Hsub. unfold is_dir, node. destruct q as [|x q]; [done|].
  destruct (fs !! (x :: q)) as [n|] eqn:E; [|done]. by rewrite (lookup_weaken _ _ _ _ E Hsub).
Qed.
Lemma node_mono fs fs' q n : fs ⊆ fs' -> node fs q = Some n -> node fs' q = Some n.
Proof. intros Hsub. unfold node. destruct q; [done|]. intros E. by eapply lookup_weaken. Qed.

(** New entries do not disturb what resolved before. *)
Lemma walk_mono fs fs' l cur p r : fs ⊆ fs' -> walk fs l cur p = Ok r -> walk fs' l cur p = Ok r.
Proof.
  intros Hsub. revert cur p. induction l as [|l IHl]; intros cur p; revert cur;
    (induction p as [|c p IHp]; intros cur; [by rewrite !walk_nil|]);
    rewrite !walk_cons; destruct c as [| | |n]; auto; (destruct (is_dir fs cur) eqn:Ed; [|done]);
    rewrite (is_dir_mono _ _ _ Hsub Ed); auto; (destruct (node fs (cur ++ [n])) as [x|] eqn:En; [|done]);
    rewrite (node_mono _ _ _ _ Hsub En); destruct x; auto.
Qed.

(** Everything is in a directory. *)
Definition fs_wf (fs : FS) : Prop := forall q n x, fs !! (q ++ [n]) = Some x -> is_dir fs q = true.
Record env_wf (e : Env) : Prop := { ew_fs : fs_wf (files e); ew_cwd : is_dir (files e) (cwd e) = true }.

Lemma is_dir_removelast fs q : fs_wf fs -> is_dir fs q = true -> is_dir fs (removelast q) = true.
Proof.
  intros Hwf. destruct q as [|n q] using rev_ind; [done|]. rewrite removelast_last. unfold is_dir at 1, node.
  destruct (q ++ [n]) eqn:Eq; [by destruct q|]. rewrite <- Eq. destruct (fs !! (q ++ [n])) as [x|] eqn:E; [|done].
  intros _. by eapply Hwf.
Qed.
Lemma is_dir_node fs q : is_dir fs q = true -> node fs q = Some Dir.
Proof. unfold is_dir. by destruct (node fs q) as [[]|]. Qed.

Lemma walk_exists fs l cur p d l' :
  fs_wf fs -> is_Some (node fs cur) -> walk fs l cur p = Ok (d, l') -> is_Some (node fs d).
Proof.
  intros Hwf. assert (forall q, is_dir fs q = true -> is_Some (node fs q)) as Hd
    by (intros q Hq; rewrite (is_dir_node _ _ Hq); by eexists).
  revert cur p. induction l as [|l IHl]; intros cur p; revert cur;
    (induction p as [|c p IHp]; intros cur; [rewrite walk_nil; by intros ? [= <- _]|]);
    rewrite walk_cons; intros Hc Hw;
    (destruct c as [| | |n]; [eapply (IHp []); [by apply Hd|exact Hw]|..]); (destruct (is_dir fs cur) eqn:Ed; [|done]);
    try (by eapply IHp); try (eapply IHp; [by apply Hd, is_dir_removelast|exact Hw]).
  all: destruct (node fs (cur ++ [n])) as [[|x|target]|] eqn:En; try done;
    try (eapply IHp; [rewrite En; by eexists|exact Hw]); eauto.
Qed.

(** Below a missing entry there is nothing. *)
Lemma nothing_below fs q n vs : fs_wf fs -> fs !! (q ++ [n]) = None -> fs !! (q ++ n :: vs) = None.
Proof.
  intros Hwf H. induction vs as [|v vs IH] using rev_ind; [done|].
  destruct (fs !! (q ++ n :: vs ++ [v])) as [x|] eqn:E; [|done].
  replace (q ++ n :: vs ++ [v]) with ((q ++ n :: vs) ++ [v]) in E by by rewrite <- app_assoc.
  apply Hwf in E. apply is_dir_node in E. unfold node in E. destruct (q ++ n :: vs) eqn:Eq; [by destruct q|]. congruence.
Qed.

Lemma node_app_ne fs q n vs : node fs (q ++ n :: vs) = fs !! (q ++ n :: vs).
Proof. unfold node. destruct (q ++ n :: vs) eqn:E; [by destruct q|done]. Qed.

(** ** Lemmas on the checks *)
Definition lexical (p : Path) : Prop := exists pre ns, p = pre ++ map Normal ns /\ (pre = [] \/ pre = [RootDir]).

Lemma push_lexical p c : lexical p -> (c = RootDir -> p = []) -> lexical (push_component p c).
Proof.
  intros (pre & ns & -> & Hpre) Hroot. destruct c as [| | |n]; cbn [push_component].
  - specialize (Hroot eq_refl) as Hnil. rewrite Hnil. exists [RootDir], []. auto.
  - by exists pre, ns.
  - destruct ns as [|n ns _] using rev_ind.
    + cbn [map]. rewrite app_nil_r. exists pre, []. rewrite app_nil_r. split; [|done]. by destruct Hpre as [-> | ->].
    + rewrite map_app, app_assoc. cbn [map]. rewrite last_snoc, removelast_last. by exists pre, ns.
  - exists pre, (ns ++ [n]). by rewrite map_app, app_assoc.
Qed.
Lemma normalize_lexical_ok p : RootDir ∉ tail p -> lexical (normalize_lexical p).
Proof.
  unfold normalize_lexical. assert (forall q acc, lexical acc -> RootDir ∉ q -> lexical (foldl push_component acc q)) as H.
  { induction q as [|c q IH]; intros acc Hacc Hq; [done|]. cbn [foldl]. apply not_elem_of_cons in Hq as [Hc Hq].
    apply IH; [|done]. by apply push_lexical. }
  destruct p as [|c p]; intros Hp; [by exists [], []; auto|]. cbn [foldl]. apply H; [|done].
  apply push_lexical; [|done]. by exists [], []; auto.
Qed.

Lemma components_root s : RootDir ∉ tail (components s).
Proof.
  assert (forall l : list string, RootDir ∉ omap seg_comp l) as H.
  { intros l Hin. apply list_elem_of_omap in Hin as (x & _ & Hx). unfold seg_comp in Hx. by repeat case_match. }
  unfold components. destruct (starts_with s "/"); [apply H|].
  assert (forall l : list string, RootDir ∉ tail (omap seg_comp l)) as H'.
  { intros l Hin. apply (H l). destruct (omap seg_comp l); [done|]. by right. }
  repeat case_match; try apply H'; apply H.
Qed.
Lemma join_root b p : RootDir ∉ tail b -> RootDir ∉ tail p -> RootDir ∉ tail (join b p).
Proof.
  intros Hb Hp. unfold join. destruct (is_absolute p) eqn:Ea; [done|]. destruct b as [|c b]; [done|].
  intros Hin. cbn in Hin, Hb. apply elem_of_app in Hin as [Hin|Hin]; [done|].
  apply list_elem_of_In, filter_In in Hin as [Hin _]. apply list_elem_of_In in Hin.
  destruct p as [|c' p]; [by apply not_elem_of_nil in Hin|]. apply elem_of_cons in Hin as [<-|Hin]; [done|by apply Hp].
Qed.

Lemma phys_lexical q : lexical (phys q).
Proof. exists [RootDir], q. auto. Qed.
Lemma resolve_path_lexical e s base : RootDir ∉ tail base -> lexical (resolve_path e s (Some base)).
Proof.
  intros Hb. unfold resolve_path. pose proof (components_root s) as Hs.
  assert (forall p, RootDir ∉ tail p -> lexical (default (normalize_lexical p) (canonicalize e p))) as H.
  { intros p Hp. unfold canonicalize. destruct (resolve e p); [apply phys_lexical|by apply normalize_lexical_ok]. }
  destruct (is_absolute _); apply H; [done|by apply join_root].
Qed.

Lemma phys_prefix b q : phys b `prefix_of` phys q <-> b `prefix_of` q.
Proof.
  unfold phys. split.
  - intros [k Hk]. injection Hk as Hk. apply map_eq_app in Hk as (l1 & l2 & -> & Hl & _).
    assert (l1 = b) as ->; [|by exists l2]. revert l1 Hl. induction b as [|x b IH]; intros [|y l1]; try done.
    cbn. intros [= -> Hl]. by rewrite (IH l1).
  - intros [k ->]. exists (map Normal k). by rewrite map_app.
Qed.

Lemma join_names q ts : foldl (fun r n => join r [Normal n]) (phys q) ts = phys (q ++ ts).
Proof.
  revert q. induction ts as [|t ts IH]; intros q; [by rewrite app_nil_r|]. cbn [foldl].
  replace (join (phys q) [Normal t]) with (phys (q ++ [t])) by (unfold phys, join; cbn; by rewrite map_app).
  by rewrite IH, <- app_assoc.
Qed.

(** The loop finds the longest ancestor that resolves. *)
Lemma ancestor_loop_spec fuel e p anc ts :
  p = anc ++ map Normal ts -> lexical anc -> (length anc <= fuel)%nat -> (ts <> [] -> is_ok (resolve e (anc ++ [Normal (hd EmptyString ts)])) = false) ->
  (ancestor_loop fuel e p anc ts = p /\ is_absolute anc = false)
  \/ exists anc' ts' q, p = anc' ++ map Normal ts' /\ resolve e anc' = Ok q
       /\ (ts' <> [] -> is_ok (resolve e (anc' ++ [Normal (hd EmptyString ts')])) = false)
       /\ ancestor_loop fuel e p anc ts = phys (q ++ ts').
Proof.
  revert anc ts. induction fuel as [|fuel IH]; intros anc ts Hp Hlex Hf Hts; cbn [ancestor_loop];
    (destruct (resolve e anc) as [q|x] eqn:Er; [right; exists anc, ts, q; split_and!; auto; apply join_names|]).
  - left. destruct anc; [done|]. cbn in Hf. lia.
  - destruct Hlex as (pre & ns & -> & Hpre). unfold parent, file_name. destruct ns as [|n ns _] using rev_ind.
    + cbn [map] in *. rewrite app_nil_r in *. destruct Hpre as [-> | ->]; [by left|]. by cbn in Er.
    + rewrite map_app, app_assoc in *. cbn [map] in *. rewrite last_snoc, removelast_last in *.
      replace (is_absolute ((pre ++ map Normal ns) ++ [Normal n])) with (is_absolute (pre ++ map Normal ns))
        by by destruct Hpre as [-> | ->], ns.
      apply IH.
      * rewrite Hp, <- !app_assoc. done.
      * by exists pre, ns.
      * rewrite !length_app in *. cbn in Hf. lia.
      * intros _. cbn [hd]. by rewrite Er.
Qed.

(** A path that passes the check is the resolved path of a location in the
    base directory, or leads to one through names that do not exist yet. *)
Lemma validate_path_cases e s base b p :
  RootDir ∉ tail base -> resolve e base = Ok b -> validate_path e s (Some base) = Ok p ->
  (exists q, resolve e p = Ok q /\ b `prefix_of` q)
  \/ exists anc t ts q, p = anc ++ map Normal (t :: ts) /\ resolve e anc = Ok q
       /\ is_ok (resolve e (anc ++ [Normal t])) = false /\ b `prefix_of` q ++ t :: ts.
Proof.
  intros Hb Hbase. unfold validate_path. destruct (path_starts_with _ _) eqn:Ep; [|done]. intros [= <-].
  pose proof (resolve_path_lexical e s base Hb) as Hlex. set (p := resolve_path e s (Some base)) in *.
  unfold path_starts_with in Ep. apply bool_decide_eq_true in Ep. unfold canonicalize in Ep at 1. rewrite Hbase in Ep. cbn in Ep.
  unfold check_path, exists_path in Ep. destruct (resolve e p) as [q|x] eqn:Er; cbn [is_ok] in Ep.
  - left. exists q. split; [done|]. unfold canonicalize in Ep. rewrite Er in Ep. by apply phys_prefix.
  - right. destruct (ancestor_loop_spec (length p) e p p []) as [[H Habs]|(anc & ts & q & Hp & Ha & Ht & H)];
      [by rewrite app_nil_r|done|done|done| |].
    + rewrite H in Ep. destruct Ep as [k Hk]. by rewrite Hk in Habs.
    + rewrite H in Ep. apply (proj1 (phys_prefix b (q ++ ts))) in Ep. destruct ts as [|t ts].
      * cbn in Hp. rewrite app_nil_r in Hp. congruence.
      * exists anc, t, ts, q. split_and!; try done. by apply Ht.
Qed.

(** ** Lemmas on the effects *)
Abbreviation walk_from e p := (walk (files e) MAX_LINKS (cwd e) p).
Definition changes (e e' : Env) (q : Loc) : Prop := files e' !! q <> files e !! q.

Lemma mkdir_existing e p r : walk_from e p = Ok r -> p <> [] -> mkdir e p = Err EEXIST.
Proof.
  intros Hw Hne. unfold mkdir. destruct p as [|c p _] using rev_ind; [done|]. rewrite last_snoc, removelast_last.
  destruct c as [| | |n]; try done. rewrite walk_app in Hw. destruct (walk_from e p) as [[d l]|]; [|done].
  rewrite walk_cons in Hw. destruct (is_dir (files e) d); [|done]. by destruct (node (files e) (d ++ [n])).
Qed.
Lemma create_existing fuel e p r : walk_from e p = Ok r -> exists a, create_dir_all fuel e p = (a, e).
Proof.
  intros Hw. destruct p as [|c p]; [by destruct fuel; eexists|].
  assert (mkdir e (c :: p) = Err EEXIST) as Hm by by eapply mkdir_existing.
  destruct fuel; cbn [create_dir_all]; rewrite Hm; by eexists.
Qed.

Lemma mkdir_new e p u d l :
  walk_from e p = Ok (d, l) -> is_dir (files e) d = true -> files e !! (d ++ [u]) = None ->
  let e' := set_files e (<[d ++ [u] := Dir]> (files e)) in
  mkdir e (p ++ [Normal u]) = Ok e' /\ files e ⊆ files e'
  /\ walk_from e' (p ++ [Normal u]) = Ok (d ++ [u], l) /\ is_dir (files e') (d ++ [u]) = true.
Proof.
  intros Hw Hd Hn e'. assert (files e ⊆ files e') as Hsub by by apply insert_subseteq.
  assert (node (files e') (d ++ [u]) = Some Dir) as Hnode by (rewrite node_app_ne; apply lookup_insert_eq).
  split_and!; [|done|..].
  - unfold mkdir. by rewrite last_snoc, removelast_last, Hw, Hd, node_app_ne, Hn.
  - rewrite walk_app. rewrite (walk_mono _ _ _ _ _ _ Hsub Hw : walk_from e' p = _), walk_cons.
    by rewrite (is_dir_mono _ _ _ Hsub Hd), Hnode, walk_nil.
  - unfold is_dir. by rewrite Hnode.
Qed.

(** Creating the missing directories behind an existing one. *)
Lemma create_missing e anc q l t :
  fs_wf (files e) -> walk_from e anc = Ok (q, l) -> is_dir (files e) q = true -> files e !! (q ++ [t]) = None ->
  forall us fuel, (us = [] \/ exists r, us = t :: r) -> (length (anc ++ map Normal us) <= fuel)%nat ->
  let '(a, e') := create_dir_all fuel e (anc ++ map Normal us) in
  cwd e' = cwd e /\ files e ⊆ files e'
  /\ (forall x, changes e e' x -> exists vs, vs <> [] /\ vs `prefix_of` us /\ x = q ++ vs)
  /\ (a = Ok tt -> walk_from e' (anc ++ map Normal us) = Ok (q ++ us, l) /\ is_dir (files e') (q ++ us) = true).
Proof.
  intros Hwf Hw Hd Hn us. induction us as [|u us IH] using rev_ind; intros fuel Hus Hf.
  - cbn [map]. rewrite !app_nil_r. destruct (create_existing fuel e anc _ Hw) as [a ->].
    by split_and!.
  - rewrite map_app, app_assoc in *. cbn [map] in *. set (p := anc ++ map Normal us) in *.
    destruct fuel as [|fuel]; [rewrite length_app in Hf; cbn in Hf; lia|].
    assert (p ++ [Normal u] <> []) as Hne by by destruct p.
    assert (forall e1, cwd e1 = cwd e -> files e ⊆ files e1 -> walk_from e1 p = Ok (q ++ us, l) -> is_dir (files e1) (q ++ us) = true ->
      (forall x, changes e e1 x -> exists vs, vs <> [] /\ vs `prefix_of` us /\ x = q ++ vs) ->
      exists e2, mkdir e1 (p ++ [Normal u]) = Ok e2 /\ cwd e2 = cwd e /\ files e ⊆ files e2
        /\ (forall x, changes e e2 x -> exists vs, vs <> [] /\ vs `prefix_of` us ++ [u] /\ x = q ++ vs)
        /\ walk_from e2 (p ++ [Normal u]) = Ok (q ++ us ++ [u], l) /\ is_dir (files e2) (q ++ us ++ [u]) = true) as Hstep.
    { intros e1 Hc Hsub Hw1 Hd1 Hch. assert (files e1 !! ((q ++ us) ++ [u]) = None) as Hnone.
      { assert (files e !! ((q ++ us) ++ [u]) = None) as H0.
        { destruct Hus as [Hus|[r Hr]]; [by destruct us|]. rewrite <- app_assoc, Hr. by apply nothing_below. }
        destruct (decide (files e1 !! ((q ++ us) ++ [u]) = files e !! ((q ++ us) ++ [u]))) as [->|Hx]; [done|].
        destruct (Hch _ Hx) as (vs & _ & [k Hk] & Heq). rewrite <- app_assoc in Heq. apply app_inv_head in Heq.
        apply (f_equal length) in Heq. rewrite Hk, !length_app in Heq. cbn in Heq. lia. }
      destruct (mkdir_new e1 p u _ l Hw1 Hd1 Hnone) as (Hm & Hs2 & Hw2 & Hd2). set (e2 := set_files e1 _) in *.
      exists e2. rewrite <- app_assoc in *. split_and!; try done; [by etrans|].
      intros x Hx. destruct (decide (x = q ++ us ++ [u])) as [->|Hne2].
      - exists (us ++ [u]). by split_and!; [destruct us|..].
      - unfold changes, e2 in Hx. cbn in Hx. rewrite lookup_insert_ne in Hx by by rewrite <- app_assoc.
        destruct (Hch x Hx) as (vs & ? & ? & ?). exists vs. split_and!; try done. by apply prefix_app_r. }
    destruct us as [|t' us'].
    + destruct (Hstep e) as (e2 & Hm & H2); try done; [by unfold p; cbn; rewrite !app_nil_r|by rewrite app_nil_r|].
      cbn [create_dir_all]. destruct (p ++ [Normal u]) eqn:Ep; [done|]. rewrite Hm. by destruct H2 as (? & ? & ? & ? & ?).
    + assert (t' = t) as -> by (destruct Hus as [?|[r [= -> _]]]; done).
      assert (mkdir e (p ++ [Normal u]) = Err ENOENT) as Hm.
      { unfold mkdir. rewrite last_snoc, removelast_last. unfold p. rewrite walk_app, Hw. cbn [map].
        by rewrite walk_cons, Hd, node_app_ne, Hn. }
      assert (parent (p ++ [Normal u]) = Some p) as Hpar by (unfold parent; by rewrite last_snoc, removelast_last).
      cbn [create_dir_all]. destruct (p ++ [Normal u]) eqn:Ep; [done|]. rewrite Hm, Hpar, <- Ep in *.
      specialize (IH fuel ltac:(eauto)). rewrite length_app in Hf. cbn in Hf. specialize (IH ltac:(lia)).
      destruct (create_dir_all fuel e p) as [[[]|x] e1]; destruct IH as (H1 & H2 & H3 & H4).
      * destruct (H4 eq_refl) as [H5 H6]. destruct (Hstep e1 H1 H2 H5 H6 H3) as (e2 & -> & ?). naive_solver.
      * split_and!; try done. intros y Hy. destruct (H3 y Hy) as (vs & ? & ? & ?). exists vs. split_and!; try done.
        by apply prefix_app_r.
Qed.

Lemma resolve_walk e p q : resolve e p = Ok q <-> p <> [] /\ exists l, walk_from e p = Ok (q, l).
Proof.
  unfold resolve. destruct p as [|c p]; [naive_solver|]. destruct (walk_from e (c :: p)) as [[d l]|]; naive_solver.
Qed.
Lemma changes_refl e x : ~ changes e e x.
Proof. by intros H. Qed.

(** Writing to a path that resolves changes that one location, if any. *)
Lemma write_existing e p q content x : resolve e p = Ok q -> changes e (snd (write e p content)) x -> x = q.
Proof.
  intros (Hne & l & Hw)%resolve_walk. unfold write. destruct p as [|c p]; [done|].
  rewrite <- (app_nil_r (c :: p)), (locate_app _ _ _ _ _ _ _ Hw).
  assert (locate (files e) l q [] = if is_dir (files e) q then Err EISDIR else Ok q) as -> by by destruct l.
  destruct (is_dir (files e) q); [by intros ?%changes_refl|]. cbn. unfold changes. cbn.
  destruct (decide (q = x)); [done|]. by rewrite lookup_insert_ne.
Qed.
Lemma create_parent_existing e p q :
  resolve e p = Ok q -> exists a, match parent p with Some par => create_dir_all (length par) e par | None => (Ok tt, e) end = (a, e).
Proof.
  intros (Hne & l & Hw)%resolve_walk. unfold parent. destruct p as [|c p _] using rev_ind; [done|].
  rewrite last_snoc, removelast_last. rewrite walk_app in Hw. destruct (walk_from e p) as [r|] eqn:E; [|done].
  destruct c; try (by eexists); by eapply create_existing.
Qed.

(** Nothing can be created below a file. *)
Lemma create_below_file fuel e anc q l us :
  walk_from e anc = Ok (q, l) -> is_dir (files e) q = false -> exists a, create_dir_all fuel e (anc ++ map Normal us) = (a, e).
Proof.
  intros Hw Hd. destruct us as [|u us _] using rev_ind; [cbn; rewrite app_nil_r; by eapply create_existing|].
  rewrite map_app, app_assoc. cbn [map]. set (p := anc ++ map Normal us).
  assert (mkdir e (p ++ [Normal u]) = Err ENOTDIR) as Hm.
  { unfold mkdir. rewrite last_snoc, removelast_last. unfold p. rewrite walk_app, Hw. destruct us as [|v us].
    - cbn [map]. by rewrite walk_nil, Hd.
    - cbn [map]. by rewrite walk_cons, Hd. }
  destruct (p ++ [Normal u]) eqn:E; [by destruct fuel; eexists|]. destruct fuel; cbn [create_dir_all]; rewrite Hm; by eexists.
Qed.
Lemma write_below_file e anc q l t ts content x :
  walk_from e anc = Ok (q, l) -> is_dir (files e) q = false -> ~ changes e (snd (write e (anc ++ map Normal (t :: ts)) content)) x.
Proof.
  intros Hw Hd. unfold write. destruct (anc ++ map Normal (t :: ts)) eqn:E; [apply changes_refl|]. rewrite <- E.
  rewrite (locate_app _ _ _ _ _ _ _ Hw). cbn [map]. rewrite locate_cons, Hd. apply changes_refl.
Qed.

Definition no_broken_link (e : Env) (p : Path) : Prop :=
  forall pre n post d l t, p = pre ++ Normal n :: post -> walk_from e pre = Ok (d, l) ->
    node (files e) (d ++ [n]) = Some (Link t) -> is_ok (resolve e (pre ++ [Normal n])) = true.

Lemma base_above e base b q t ts vs :
  env_wf e -> resolve e base = Ok b -> files e !! (q ++ [t]) = None -> b `prefix_of` q ++ t :: ts -> vs `prefix_of` t :: ts ->
  b `prefix_of` q ++ vs.
Proof.
  intros [Hwf Hcwd] Hb Hn Hpre _. apply resolve_walk in Hb as (_ & l & Hw).
  apply walk_exists in Hw; [|done|rewrite (is_dir_node _ _ Hcwd); by eexists].
  destruct (prefix_weak_total b q (q ++ t :: ts)) as [H|[k Hk]]; [done|by eexists| by apply prefix_app_r |].
  destruct k as [|k ks]; [rewrite app_nil_r in Hk; subst; by apply prefix_app_r|]. exfalso.
  subst b. apply prefix_app_inv in Hpre. destruct Hpre as [k' Hk']. cbn in Hk'. injection Hk' as <- _.
  rewrite node_app_ne, nothing_below in Hw by done. by destruct Hw.
Qed.

(** The directories and the file that a path that passed the check leads to. *)
Lemma write_in_base e s base b p content :
  env_wf e -> RootDir ∉ tail base -> resolve e base = Ok b -> validate_path e s (Some base) = Ok p -> no_broken_link e p ->
  let '(a, e1) := match parent p with Some par => create_dir_all (length par) e par | None => (Ok tt, e) end in
  (forall x, changes e e1 x -> b `prefix_of` x)
  /\ (a = Ok tt -> forall x, changes e (snd (write e1 p content)) x -> b `prefix_of` x).
Proof.
  intros Hwf Hroot Hb Hv Hnb.
  destruct (validate_path_cases e s base b p Hroot Hb Hv) as [(q & Hq & Hpre)|(anc & t & ts & q & -> & Ha & Hf & Hpre)].
  - destruct (create_parent_existing e p q Hq) as [a ->]. split; [by intros x ?%changes_refl|].
    intros _ x Hx. by rewrite (write_existing e p q content x Hq Hx).
  - apply resolve_walk in Ha as (Hne & l & Hw).
    assert (anc ++ [Normal t] <> []) as Hne2 by by destruct anc.
    destruct (is_dir (files e) q) eqn:Ed.
    + assert (files e !! (q ++ [t]) = None) as Hn.
      { destruct (node (files e) (q ++ [t])) as [x|] eqn:En; [|by rewrite node_app_ne in En]. exfalso.
        destruct x as [|c|target]; [..|by rewrite (Hnb anc t (map Normal ts) q l target eq_refl Hw En) in Hf];
        (assert (walk_from e (anc ++ [Normal t]) = Ok (q ++ [t], l)) as Hw2 by by rewrite walk_app, Hw, walk_cons, Ed, En, walk_nil);
        assert (resolve e (anc ++ [Normal t]) = Ok (q ++ [t])) as Hr by (apply resolve_walk; eauto); by rewrite Hr in Hf. }
      assert (t :: ts = removelast (t :: ts) ++ [List.last (t :: ts) EmptyString]) as Hlast by by apply app_removelast_last.
      set (us := removelast (t :: ts)) in *. set (v := List.last (t :: ts) EmptyString) in *. clearbody us v.
      assert (us = [] \/ exists r, us = t :: r) as Hus.
      { destruct us as [|u us'] eqn:E; [by left|]. right. injection Hlast as -> _. by eexists. }
      rewrite Hlast, map_app, app_assoc. cbn [map]. unfold parent. rewrite last_snoc, removelast_last.
      pose proof (create_missing e anc q l t (ew_fs e Hwf) Hw Ed Hn us (length (anc ++ map Normal us)) Hus ltac:(done)) as H.
      destruct (create_dir_all _ e (anc ++ map Normal us)) as [a e1]. destruct H as (Hc & Hsub & Hch & Hok). split.
      * intros x Hx. destruct (Hch x Hx) as (vs & _ & Hvs & ->). apply (base_above e base b q t ts vs Hwf Hb Hn Hpre).
        rewrite Hlast. by apply prefix_app_r.
      * intros Ha x Hx. destruct (Hok Ha) as [Hw1 Hd1]. unfold write in Hx.
        destruct ((anc ++ map Normal us) ++ [Normal v]) as [|c0 p0] eqn:Ep; [by apply app_nil in Ep as [_ ?]|]. rewrite <- Ep in Hx.
        rewrite (locate_app _ _ _ _ _ _ _ Hw1) in Hx. rewrite locate_cons, Hd1 in Hx.
        assert (node (files e1) ((q ++ us) ++ [v]) = None) as Hnv.
        { rewrite node_app_ne, <- app_assoc. destruct (decide (files e1 !! (q ++ us ++ [v]) = files e !! (q ++ us ++ [v]))) as [->|Hy].
          - rewrite <- Hlast. by apply nothing_below; [apply Hwf|].
          - destruct (Hch _ Hy) as (vs & _ & [k Hk] & Heq). apply app_inv_head in Heq.
            apply (f_equal length) in Heq. rewrite Hk, !length_app in Heq. cbn in Heq. lia. }
        rewrite Hnv in Hx. cbn in Hx. rewrite <- app_assoc, <- Hlast in Hx.
        destruct (decide (x = q ++ t :: ts)) as [->|Hxn]; [done|].
        unfold changes in Hx. cbn in Hx. rewrite lookup_insert_ne in Hx by done.
        destruct (Hch x Hx) as (vs & _ & Hvs & ->). apply (base_above e base b q t ts vs Hwf Hb Hn Hpre).
        rewrite Hlast. by apply prefix_app_r.
    + assert (parent (anc ++ map Normal (t :: ts)) = Some (anc ++ map Normal (removelast (t :: ts)))) as ->.
      { assert (anc ++ map Normal (t :: ts) = (anc ++ map Normal (removelast (t :: ts))) ++ [Normal (List.last (t :: ts) EmptyString)]) as Heq.
        { rewrite <- app_assoc. f_equal. pose proof (@app_removelast_last _ (t :: ts) EmptyString ltac:(done)) as E.
          rewrite E at 1. by rewrite map_app. }
        unfold parent. by rewrite Heq, last_snoc, removelast_last. }
      destruct (create_below_file (length (anc ++ map Normal (removelast (t :: ts)))) e anc q l (removelast (t :: ts)) Hw Ed) as [a ->].
      split; [by intros x ?%changes_refl|]. by intros _ x ?%(write_below_file e anc q l t ts content x Hw Ed).
Qed.

Lemma walk_phys fs l cur q : fs_wf fs -> is_dir fs q = true -> walk fs l cur (phys q) = Ok (q, l).
Proof.
  intros Hwf. unfold phys. rewrite walk_cons. induction q as [|n q IH] using rev_ind; intros Hd; [apply walk_nil|].
  pose proof (is_dir_removelast _ _ Hwf Hd) as Hd'. rewrite removelast_last in Hd'.
  rewrite map_app, walk_app, IH by done. cbn [map]. by rewrite walk_cons, Hd', (is_dir_node _ _ Hd), walk_nil.
Qed.
Lemma normalize_phys q : normalize_lexical (phys q) = phys q.
Proof.
  unfold normalize_lexical, phys. cbn [foldl push_component app]. change (RootDir :: map Normal q) with ([RootDir] ++ map Normal q).
  generalize [RootDir]. induction q as [|n q IH]; intros acc; cbn [map foldl push_component]; [by rewrite app_nil_r|].
  by rewrite IH, <- app_assoc.
Qed.

(** A listing never grows past the limit. *)
Lemma list_loop_bound show enter names es :
  (forall n es, (length es <= MAX_DIR_ENTRIES -> length (enter n es) <= MAX_DIR_ENTRIES)%nat) ->
  (length es <= MAX_DIR_ENTRIES)%nat -> (length (list_loop show enter names es) <= MAX_DIR_ENTRIES)%nat.
Proof.
  intros He. revert es. induction names as [|n names IH]; intros es Hes; [done|]. cbn [list_loop].
  destruct (Nat.leb_spec MAX_DIR_ENTRIES (length es)); [done|]. apply IH, He. rewrite length_app. cbn. lia.
Qed.
Lemma list_dir_inner_bound show_tenths dir_size read_dir fs rec depth q rel entries :
  (length (list_dir_inner show_tenths dir_size read_dir fs rec depth q rel entries) <= Nat.max MAX_DIR_ENTRIES (length entries))%nat.
Proof.
  revert q rel entries. induction depth as [|depth IH]; intros q rel entries; cbn [list_dir_inner];
    (destruct (Nat.leb_spec MAX_DIR_ENTRIES (length entries)); [lia|]); (etrans; [apply list_loop_bound; [|lia]|lia]); intros n es Hes.
  - destruct (node fs (q ++ [n])) as [[]|]; lia.
  - destruct (node fs (q ++ [n])) as [[]|]; try lia. destruct (rec && _); [|lia]. etrans; [apply IH|lia].
Qed.
Lemma insert_entry_length x l : length (insert_entry x l) = S (length l).
Proof. induction l as [|y l IH]; [done|]. cbn. destruct (entry_before x y); cbn; by rewrite ?IH. Qed.
Lemma sort_entries_length l : length (sort_entries l) = length l.
Proof.
  unfold sort_entries. enough (forall acc, length (foldl (fun acc x => insert_entry x acc) acc l) = (length acc + length l)%nat) as ->; [done|].
  induction l as [|x l IH]; intros acc; cbn [foldl]; [cbn; lia|]. rewrite IH, insert_entry_length. cbn. lia.
Qed.

(** ** Properties *)
Section Claims.
  Context (show_io : IoError -> string) (show_tenths : f64 -> string) (dir_size : Z).


(** A broken link in the base directory leads out of it: the check follows
    only links that lead somewhere, and opening a file for writing follows the
    link and creates its target, wherever that is. *)
Theorem broken_link_escapes e b n o m params content :
  env_wf e -> is_dir (files e) b = true -> is_dir (files e) o = true ->
  files e !! (b ++ [n]) = Some (Link (phys (o ++ [m]))) -> files e !! (o ++ [m]) = None ->
  components n = [Normal n] -> is_workspace_path n = false -> Z.of_nat (String.length content) <= MAX_WRITE_SIZE ->
  get_str "path" params = Some n -> get_str "content" params = Some content ->
  let '(r, e') := write_file show_io e (Some (phys b)) params in
  is_ok r = true /\ files e' !! (o ++ [m]) = Some (File content).
Proof.
  intros Hwf Hb Ho Hl Hm Hc Hws Hlen Hpath Hcontent. assert (fs_wf (files e)) as Hfs by apply Hwf.
  assert (forall l cur, walk (files e) l cur (phys (o ++ [m])) = Err ENOENT) as Ho2.
  { intros l cur. unfold phys. rewrite map_app, app_comm_cons, walk_app.
    fold (phys o). cbn [map]. by rewrite walk_phys, walk_cons, Ho, node_app_ne, Hm by done. }
  assert (phys (b ++ [n]) = phys b ++ [Normal n]) as Hp by (unfold phys; by rewrite map_app).
  assert (walk_from e (phys (b ++ [n])) = Err ENOENT) as Hw.
  { rewrite Hp, walk_app, walk_phys, walk_cons, Hb, node_app_ne, Hl by done. unfold MAX_LINKS. by rewrite app_nil_r, Ho2. }
  assert (resolve e (phys (b ++ [n])) = Err ENOENT) as Hr by (unfold resolve, phys in *; by rewrite Hw).
  assert (resolve e (phys b) = Ok b) as Hrb by (apply resolve_walk; split; [done|]; eexists; by apply walk_phys).
  assert (parent (phys (b ++ [n])) = Some (phys b)) as Hpar by (unfold parent; by rewrite Hp, last_snoc, removelast_last).
  assert (validate_path e n (Some (phys b)) = Ok (phys (b ++ [n]))) as Hv.
  { unfold validate_path, resolve_path. rewrite Hc. cbn [is_absolute].
    assert (join (phys b) [Normal n] = phys (b ++ [n])) as -> by (unfold join, phys; cbn; by rewrite map_app).
    unfold canonicalize, check_path, exists_path. rewrite Hr, Hrb. cbn [default from_option]. rewrite normalize_phys, Hr. cbn [is_ok].
    assert (ancestor_loop (length (phys (b ++ [n]))) e (phys (b ++ [n])) (phys (b ++ [n])) [] = phys (b ++ [n])) as ->.
    { assert (length (phys (b ++ [n])) = S (S (length b))) as -> by (unfold phys; cbn; rewrite length_map, length_app; cbn; lia).
      cbn [ancestor_loop]. rewrite Hr, Hpar, Hrb. unfold file_name. rewrite Hp, last_snoc, <- Hp. apply join_names. }
    unfold path_starts_with. rewrite bool_decide_true; [done|]. rewrite Hp. by eexists. }
  unfold write_file, require_str. rewrite Hpath, Hws, Hcontent, (proj2 (Z.ltb_ge _ _) Hlen), Hv, Hpar.
  assert (create_dir_all (length (phys b)) e (phys b) = (Ok tt, e)) as ->.
  { assert (mkdir e (phys b) = Err EEXIST) as Hmk by (eapply mkdir_existing; [by apply walk_phys|done]).
    assert (path_is_dir e (phys b) = true) as Hpd by (unfold path_is_dir; by rewrite Hrb).
    unfold phys in Hmk, Hpd |- *. cbn [length create_dir_all]. by rewrite Hmk, Hpd. }
  unfold write. assert (locate (files e) MAX_LINKS (cwd e) (phys (b ++ [n])) = Ok (o ++ [m])) as Hloc.
  { rewrite Hp, (locate_app _ _ _ _ _ _ _ (walk_phys _ _ _ _ Hfs Hb)), locate_cons, Hb, node_app_ne, Hl. unfold MAX_LINKS.
    rewrite app_nil_r. unfold phys. rewrite map_app, app_comm_cons. fold (phys o). cbn [map].
    by rewrite (locate_app _ _ _ _ _ _ _ (walk_phys _ _ _ _ Hfs Ho)), locate_cons, Ho, node_app_ne, Hm. }
  unfold phys in Hloc |- *. cbn [map app] in *. rewrite Hloc. split; [done|]. apply lookup_insert_eq.
Qed.

(** Which lines [read_file] shows.  An offset up to one line past the end
    and a limit select exactly the lines from the offset on, numbered, and at
    most as many as the limit; an offset further past the end panics. *)
Theorem read_file_window e base params s p q c :
  get_str "path" params = Some s -> validate_path e s base = Ok p -> resolve e p = Ok q -> node (files e) q = Some (File c) ->
  Z.of_nat (String.length c) <= MAX_READ_SIZE ->
  let n := length (lines c) in
  let start := start_line (default 0 (get_u64 "offset" params)) in
  (start <= Z.of_nat n ->
     match get_u64 "limit" params with Some lim => 0 <= lim /\ start + lim < 2 ^ 64 | None => True end ->
     exists sel r, read_file show_io dir_size e base params = Done (Ok r)
       /\ get_str "content" r = Some (String.concat LF sel)
       /\ length sel = match get_u64 "limit" params with
                       | Some lim => Nat.min (Z.to_nat lim) (n - Z.to_nat start)
                       | None => (n - Z.to_nat start)%nat
                       end
       /\ forall i l, sel !! i = Some l -> exists line, lines c !! (Z.to_nat start + i)%nat = Some line
            /\ l = number_line (Z.to_nat start + i) line)
  /\ (Z.of_nat n < start -> read_file show_io dir_size e base params = Panicked).
Proof.
  intros Hs Hv Hq Hn Hsz n start. unfold read_file, require_str. rewrite Hs, Hv, Hq, Hn. cbn [node_size].
  rewrite (proj2 (Z.ltb_ge _ _) Hsz). unfold read_to_string. rewrite Hq, Hn. cbv zeta. fold start. unfold select_lines. fold start. fold n.
  assert (0 <= start) as H0 by (unfold start, start_line; destruct (Z.ltb_spec 0 (default 0 (get_u64 "offset" params))); lia).
  split.
  - intros Hle Hlim. set (en := end_line (Z.of_nat n) start (get_u64 "limit" params)).
    assert (start <= en <= Z.of_nat n /\ Z.to_nat (en - start) = match get_u64 "limit" params with
              | Some lim => Nat.min (Z.to_nat lim) (n - Z.to_nat start) | None => (n - Z.to_nat start)%nat end) as [Hen Hcnt].
    { unfold en, end_line. destruct (get_u64 "limit" params) as [lim|]; [|lia]. rewrite wrap_small by (unfold in_u; lia). lia. }
    rewrite (proj2 (Z.ltb_ge _ _)), (proj2 (Z.ltb_ge (Z.of_nat n) en)) by lia. cbn [orb].
    do 2 eexists. split; [done|]. split; [done|]. split.
    + rewrite length_imap, length_take, length_drop. fold n. rewrite <- Hcnt. lia.
    + intros i l Hl. rewrite list_lookup_imap in Hl. apply fmap_Some in Hl as (line & Hl & ->).
      apply lookup_take_Some in Hl as [Hl _]. rewrite lookup_drop in Hl. by exists line.
  - intros Hlt. set (en := end_line (Z.of_nat n) start (get_u64 "limit" params)).
    assert (en <= Z.of_nat n) as Hen by (unfold en, end_line; destruct (get_u64 "limit" params); lia).
    by rewrite (proj2 (Z.ltb_lt _ _)) by lia.
Qed.

(** A listing is cut without saying so: it has at most five hundred entries,
    whatever the directory holds, and its flag [truncated] is never set. *)
Theorem list_dir_never_truncated read_dir e base params r :
  list_dir show_io show_tenths dir_size read_dir e base params = Ok r ->
  json_get "truncated" r = Some (JBool false)
  /\ exists entries, json_get "entries" r = Some (JArray entries) /\ (length entries <= MAX_DIR_ENTRIES)%nat.
Proof.
  unfold list_dir. destruct (validate_path _ _ _) as [p|]; [|done]. destruct (resolve e p) as [q|]; [|done].
  destruct (is_dir _ _); [|done]. set (l := sort_entries _).
  assert (length l <= MAX_DIR_ENTRIES)%nat as Hl.
  { unfold l. rewrite sort_entries_length. etrans; [apply list_dir_inner_bound|]. cbn [length]. lia. }
  rewrite (proj2 (Nat.ltb_ge _ _) Hl). intros [= <-]. split; [done|]. eexists. split; [done|]. by rewrite length_map.
Qed.
End Claims.

(** ** Witnesses *)
Definition demo_files : FS :=
  {[ ["home"%string] := Dir; ["home"; "box"]%string := Dir; ["home"; "box"; "notes"]%string := File "a";
     ["home"; "box"; "out"]%string := Link (phys ["home"; "secret"]%string); ["home"; "box"; "docs"]%string := Link [Normal "notes"%string] ]}.
Definition demo_env : Env := mkEnv demo_files ["home"%string].
Definition BOX : Path := phys ["home"; "box"]%string.
Definition write_params (path : string) : Json := JObject [("path"%string, JString path); ("content"%string, JString "x")].

Lemma demo_env_wf : env_wf demo_env.
Proof.
  split; [|done]. intros q n x Hx. unfold demo_env, demo_files in Hx. cbn [files] in Hx.
  assert (exists y, q ++ [n] = y /\ (y = ["home"] \/ y = ["home"; "box"] \/ y = ["home"; "box"; "notes"]
    \/ y = ["home"; "box"; "out"] \/ y = ["home"; "box"; "docs"])%string) as (y & Hy & Hc).
  { eexists. split; [done|]. repeat (rewrite lookup_insert_Some in Hx || rewrite lookup_singleton_Some in Hx). naive_solver. }
  assert (removelast (q ++ [n]) = q) as <- by apply removelast_last. rewrite Hy.
  destruct Hc as [->|[->|[->|[-> | ->]]]]; reflexivity.
Qed.


Lemma broken_link_escapes_witness :
  files (snd (write_file (fun _ => EmptyString) demo_env (Some BOX) (write_params "out"))) !! ["home"; "secret"]%string
  = Some (File "x").
Proof.
  assert (let '(r, e') := write_file (fun _ => EmptyString) demo_env (Some BOX) (write_params "out") in
          is_ok r = true /\ files e' !! (["home"%string] ++ ["secret"%string]) = Some (File "x")) as H.
  { apply (broken_link_escapes (fun _ => EmptyString) demo_env ["home"; "box"]%string "out" ["home"%string] "secret"
      (write_params "out") "x" demo_env_wf); try reflexivity. vm_compute. congruence. }
  destruct (write_file (fun _ => EmptyString) demo_env (Some BOX) (write_params "out")) as [r e']. exact (proj2 H).
Defined.

Definition read_params (offset : string) : Json := JObject [("path"%string, JString "notes"); ("offset"%string, JNumber offset)].
Lemma read_file_window_witness : read_file (fun _ => EmptyString) 0 demo_env (Some BOX) (read_params "3") = Panicked.
Proof.
  refine (proj2 (read_file_window (fun _ => EmptyString) 0 demo_env (Some BOX) (read_params "3") "notes"
    (phys ["home"; "box"; "notes"]%string) ["home"; "box"; "notes"]%string "a" _ _ _ _ _) _); try reflexivity; vm_compute; congruence.
Defined.

Lemma list_dir_never_truncated_witness :
  exists r, list_dir (fun _ => EmptyString) (fun _ => EmptyString) 0 (fun _ _ => ["docs"; "out"; "notes"]%string) demo_env (Some BOX) (JObject []) = Ok r
    /\ json_get "truncated" r = Some (JBool false).
Proof.
  eexists. split; [vm_compute; reflexivity|].
  refine (proj1 (list_dir_never_truncated (fun _ => EmptyString) (fun _ => EmptyString) 0 (fun _ _ => ["docs"; "out"; "notes"]%string) demo_env (Some BOX)
    (JObject []) _ _)). vm_compute. reflexivity.
Defined.
