(* ===== verification/Registry.v ===== *)
(** The tool registry and the extensions that change it:
    [src/tools/registry.rs], [src/tools/mcp/config.rs] and the activation and
    removal of [src/extensions/manager.rs].

    A tool is a value of a type with the [Tool] trait, here a class; the maps
    are [gmap]s, so a listing comes in the map's order, where [HashMap] has an
    order of its own.  [register] checks the built-in names under one lock and
    inserts under another, so that other operations can run between its two
    halves: the interleavings are sequences of [Action]s. *)

From S2P Require Import Prelude Strs Json Llm.
#[local] Open Scope claw_scope.

Inductive ToolDomain := Orchestrator | Container.
#[export] Instance ToolDomain_eq_dec : EqDecision ToolDomain.
Proof. solve_decision. Defined.

(** The methods of the [Tool] trait that the registry calls. *)
Class Tool (T : Type) := {
  tool_name : T -> string;
  tool_description : T -> string;
  parameters_schema : T -> Json;
  tool_domain : T -> ToolDomain;
}.

Definition PROTECTED_TOOL_NAMES : list string :=
  ["echo"; "time"; "json"; "http"; "shell"; "read_file"; "write_file"; "list_dir"; "apply_patch";
   "memory_search"; "memory_write"; "memory_read"; "memory_graph"; "memory_tree";
   "create_job"; "list_jobs"; "job_status"; "cancel_job"; "build_software";
   "tool_search"; "tool_install"; "tool_auth"; "tool_activate"; "tool_list"; "tool_remove";
   "routine_create"; "routine_list"; "routine_update"; "routine_delete"; "routine_history";
   "skill_list"; "skill_search"; "skill_install"; "skill_remove"; "kernel_patch"]%string.
Definition protected (n : string) : bool := bool_decide (n ∈ PROTECTED_TOOL_NAMES).

(** The tools that come with the program and the names they report. *)
Inductive Builtin :=
| EchoTool | TimeTool | JsonTool | HttpTool
| ShellTool | ReadFileTool | WriteFileTool | ListDirTool | ApplyPatchTool
| JitWasmTool | KernelPatchTool
| MemorySearchTool | MemoryWriteTool | MemoryReadTool | MemoryGraphTool | MemoryTreeTool
| CreateJobTool | ListJobsTool | JobStatusTool | CancelJobTool | JobEventsTool | JobPromptTool
| ToolSearchTool | ToolInstallTool | ToolAuthTool | ToolActivateTool | ToolListTool | ToolRemoveTool
| SkillListTool | SkillSearchTool | SkillInstallTool | SkillRemoveTool
| RoutineCreateTool | RoutineListTool | RoutineUpdateTool | RoutineDeleteTool | RoutineHistoryTool
| BuildSoftwareTool.
Definition builtin_name (b : Builtin) : string :=
  match b with
  | EchoTool => "echo" | TimeTool => "time" | JsonTool => "json" | HttpTool => "http"
  | ShellTool => "shell" | ReadFileTool => "read_file" | WriteFileTool => "write_file"
  | ListDirTool => "list_dir" | ApplyPatchTool => "apply_patch"
  | JitWasmTool => "jit_wasm_run" | KernelPatchTool => "kernel_patch"
  | MemorySearchTool => "memory_search" | MemoryWriteTool => "memory_write" | MemoryReadTool => "memory_read"
  | MemoryGraphTool => "memory_graph" | MemoryTreeTool => "memory_tree"
  | CreateJobTool => "create_job" | ListJobsTool => "list_jobs" | JobStatusTool => "job_status"
  | CancelJobTool => "cancel_job" | JobEventsTool => "job_events" | JobPromptTool => "job_prompt"
  | ToolSearchTool => "tool_search" | ToolInstallTool => "tool_install" | ToolAuthTool => "tool_auth"
  | ToolActivateTool => "tool_activate" | ToolListTool => "tool_list" | ToolRemoveTool => "tool_remove"
  | SkillListTool => "skill_list" | SkillSearchTool => "skill_search" | SkillInstallTool => "skill_install"
  | SkillRemoveTool => "skill_remove"
  | RoutineCreateTool => "routine_create" | RoutineListTool => "routine_list" | RoutineUpdateTool => "routine_update"
  | RoutineDeleteTool => "routine_delete" | RoutineHistoryTool => "routine_history"
  | BuildSoftwareTool => "build_software"
  end.
#[export] Instance Builtin_eq_dec : EqDecision Builtin.
Proof. solve_decision. Defined.

Section Registry.
Context {T : Type} `{!Tool T}.

Record ToolRegistry := mkRegistry { tools : gmap string T; builtin_names : gset string }.
Definition new_registry : ToolRegistry := mkRegistry ∅ ∅.

(** [register]: the check, and the insertion of a tool that passed it. *)
Definition may_register (t : T) (r : ToolRegistry) : bool := negb (bool_decide (tool_name t ∈ builtin_names r)).
Definition insert_tool (t : T) (r : ToolRegistry) : ToolRegistry :=
  mkRegistry (<[tool_name t := t]> (tools r)) (builtin_names r).
Definition register (t : T) (r : ToolRegistry) : ToolRegistry := if may_register t r then insert_tool t r else r.

(** [register_sync], where each [try_write] may find its lock taken. *)
Definition register_sync (tools_free builtins_free : bool) (t : T) (r : ToolRegistry) : ToolRegistry :=
  if tools_free
  then mkRegistry (<[tool_name t := t]> (tools r))
         (if protected (tool_name t) && builtins_free then {[tool_name t]} ∪ builtin_names r else builtin_names r)
  else r.
Definition unregister (n : string) (r : ToolRegistry) : option T * ToolRegistry :=
  (tools r !! n, mkRegistry (delete n (tools r)) (builtin_names r)).

Definition get (n : string) (r : ToolRegistry) : option T := tools r !! n.
Definition has (n : string) (r : ToolRegistry) : bool := bool_decide (is_Some (tools r !! n)).
Definition list_names (r : ToolRegistry) : list string := (map_to_list (tools r)).*1.
Definition count (free : bool) (r : ToolRegistry) : nat := if free then size (tools r) else 0%nat.
Definition all (r : ToolRegistry) : list T := (map_to_list (tools r)).*2.
Definition definition_of (t : T) : ToolDefinition Json := mkToolDef _ (tool_name t) (tool_description t) (parameters_schema t).
Definition tool_definitions (r : ToolRegistry) : list (ToolDefinition Json) := definition_of <$> all r.
Definition tool_definitions_for (names : list string) (r : ToolRegistry) : list (ToolDefinition Json) :=
  definition_of <$> omap (fun n => tools r !! n) names.
Definition tool_definitions_for_domain (d : ToolDomain) (r : ToolRegistry) : list (ToolDefinition Json) :=
  definition_of <$> filter (fun t => tool_domain t = d) (all r).

(** The groups of built-in tools, [mk] building each of them; nobody else holds
    the locks while the program starts. *)
Section Groups.
Context (mk : Builtin -> T).
Definition sync_all (bs : list Builtin) (r : ToolRegistry) : ToolRegistry :=
  foldl (fun r b => register_sync true true (mk b) r) r bs.
Definition register_builtin_tools : ToolRegistry -> ToolRegistry := sync_all [EchoTool; TimeTool; JsonTool; HttpTool].
Definition register_orchestrator_tools : ToolRegistry -> ToolRegistry := register_builtin_tools.
Definition register_dev_tools : ToolRegistry -> ToolRegistry :=
  sync_all [ShellTool; ReadFileTool; WriteFileTool; ListDirTool; ApplyPatchTool].
Definition register_container_tools : ToolRegistry -> ToolRegistry := register_dev_tools.
Definition register_jit_tool : ToolRegistry -> ToolRegistry := sync_all [JitWasmTool].
Definition register_kernel_tools : ToolRegistry -> ToolRegistry := sync_all [KernelPatchTool].
Definition register_memory_tools : ToolRegistry -> ToolRegistry :=
  sync_all [MemorySearchTool; MemoryWriteTool; MemoryReadTool; MemoryGraphTool; MemoryTreeTool].
Definition register_job_tools (store prompt_queue : bool) (r : ToolRegistry) : ToolRegistry :=
  let r := sync_all [CreateJobTool; ListJobsTool; JobStatusTool; CancelJobTool] r in
  let r := if store then sync_all [JobEventsTool] r else r in
  if prompt_queue then sync_all [JobPromptTool] r else r.
Definition register_extension_tools : ToolRegistry -> ToolRegistry :=
  sync_all [ToolSearchTool; ToolInstallTool; ToolAuthTool; ToolActivateTool; ToolListTool; ToolRemoveTool].
Definition register_skill_tools : ToolRegistry -> ToolRegistry :=
  sync_all [SkillListTool; SkillSearchTool; SkillInstallTool; SkillRemoveTool].
Definition register_routine_tools : ToolRegistry -> ToolRegistry :=
  sync_all [RoutineCreateTool; RoutineListTool; RoutineUpdateTool; RoutineDeleteTool; RoutineHistoryTool].
Definition register_builder_tool (r : ToolRegistry) : ToolRegistry :=
  register (mk BuildSoftwareTool) (register_dev_tools r).

(** Every group, with everything they depend on available. *)
Definition register_everything (r : ToolRegistry) : ToolRegistry :=
  register_routine_tools (register_skill_tools (register_job_tools true true (register_dev_tools (register_extension_tools
    (register_jit_tool (register_builder_tool (register_memory_tools (register_kernel_tools (register_builtin_tools r))))))))).
End Groups.

(** A WASM tool: compiled ([prepare]), wrapped with its capabilities, with the
    overrides of the registration applied in order, and registered as a
    dynamic tool.  The limits, capabilities, secrets store and OAuth settings
    are only passed on. *)
Section Wasm.
Context {Mod WasmError Limits Caps Secrets OAuth : Type}.
Record WasmToolRegistration := mkWasmReg {
  reg_name : string; reg_bytes : string; reg_capabilities : Caps; reg_limits : option Limits;
  reg_description : option string; reg_schema : option Json;
  reg_secrets_store : option Secrets; reg_oauth_refresh : option OAuth }.
Context (prepare : string -> string -> option Limits -> Result Mod WasmError) (wrap_module : Mod -> Caps -> T)
  (with_description : string -> T -> T) (with_schema : Json -> T -> T)
  (with_secrets_store : Secrets -> T -> T) (with_oauth_refresh : OAuth -> T -> T).
Definition override {A} (f : A -> T -> T) (o : option A) (t : T) : T := match o with Some a => f a t | None => t end.
Definition register_wasm (reg : WasmToolRegistration) (r : ToolRegistry) : Result unit WasmError * ToolRegistry :=
  match prepare (reg_name reg) (reg_bytes reg) (reg_limits reg) with
  | Err e => (Err e, r)
  | Ok m =>
      let wrapper := wrap_module m (reg_capabilities reg) in
      let wrapper := override with_description (reg_description reg) wrapper in
      let wrapper := override with_schema (reg_schema reg) wrapper in
      let wrapper := override with_secrets_store (reg_secrets_store reg) wrapper in
      let wrapper := override with_oauth_refresh (reg_oauth_refresh reg) wrapper in
      (Ok tt, register wrapper r)
  end.

(** A tool of the database: its row, its binary and its capabilities. *)
Context {StorageError : Type}.
Record StoredTool := mkStored { st_id : Uuid; st_name : string; st_description : string; st_schema : Json; st_binary : string }.
Inductive WasmRegistrationError := Storage (e : StorageError) | Wasm (e : WasmError).
Definition register_wasm_from_storage (get_with_binary : string -> string -> Result StoredTool StorageError)
    (get_capabilities : Uuid -> Result (option Caps) StorageError) (default_caps : Caps)
    (user_id name : string) (r : ToolRegistry) : Result unit WasmRegistrationError * ToolRegistry :=
  match get_with_binary user_id name with
  | Err e => (Err (Storage e), r)
  | Ok tw =>
      match get_capabilities (st_id tw) with
      | Err e => (Err (Storage e), r)
      | Ok caps =>
          let '(res, r) := register_wasm
            (mkWasmReg (st_name tw) (st_binary tw) (default default_caps caps) None
                       (Some (st_description tw)) (Some (st_schema tw)) None None) r in
          (match res with Ok _ => Ok tt | Err e => Err (Wasm e) end, r)
      end
  end.
End Wasm.

(** ** Interleavings *)
Inductive Action :=
| ACheck (t : T)
| AInsert (t : T)
| ASync (tools_free builtins_free : bool) (t : T)
| AUnregister (n : string).
(** The registry and the tools that passed the check of [register] and are not inserted yet. *)
Record Running := mkRunning { registry : ToolRegistry; checked : list T }.
Inductive step : Running -> Action -> Running -> Prop :=
| step_pass r p t : may_register t r = true -> step (mkRunning r p) (ACheck t) (mkRunning r (t :: p))
| step_refuse r p t : may_register t r = false -> step (mkRunning r p) (ACheck t) (mkRunning r p)
| step_insert r p1 p2 t : step (mkRunning r (p1 ++ t :: p2)) (AInsert t) (mkRunning (insert_tool t r) (p1 ++ p2))
| step_sync r p f b t : step (mkRunning r p) (ASync f b t) (mkRunning (register_sync f b t r) p)
| step_unregister r p n : step (mkRunning r p) (AUnregister n) (mkRunning (unregister n r).2 p).
Inductive steps : Running -> list Action -> Running -> Prop :=
| steps_nil s : steps s [] s
| steps_cons s a s1 l s2 : step s a s1 -> steps s1 l s2 -> steps s (a :: l) s2.

(** ** Who owns a name

    The tool of a built-in name, as the operations other than [register]
    decide it. *)
Definition owner_step (n : string) (o : option T) (a : Action) : option T :=
  match a with
  | ASync true _ t => if bool_decide (tool_name t = n) then Some t else o
  | AUnregister n' => if bool_decide (n' = n) then None else o
  | _ => o
  end.

Lemma register_lookup t r n :
  tools (register t r) !! n =
    if bool_decide (tool_name t = n) && may_register t r then Some t else tools r !! n.
Proof.
  unfold register. destruct (may_register t r); rewrite ?andb_true_r, ?andb_false_r; cbn; [|done].
  case_bool_decide as E; [subst; apply lookup_insert_eq|by apply lookup_insert_ne].
Qed.
Lemma register_names t r : builtin_names (register t r) = builtin_names r.
Proof. unfold register. by destruct (may_register t r). Qed.
Lemma register_sync_lookup b t r n :
  tools (register_sync true b t r) !! n = if bool_decide (tool_name t = n) then Some t else tools r !! n.
Proof. cbn. case_bool_decide as E; [subst; apply lookup_insert_eq|by apply lookup_insert_ne]. Qed.
Lemma register_sync_names f b t r n :
  n ∈ builtin_names (register_sync f b t r) <->
  n ∈ builtin_names r \/ (f && b = true /\ tool_name t = n /\ protected n = true).
Proof.
  destruct f; cbn; [|naive_solver]. destruct (protected (tool_name t)) eqn:Hp, b; cbn; try set_solver.
  all: split; [naive_solver|]; intros [|(? & <- & ?)]; [done|congruence].
Qed.

(** One step keeps a protected name protected, lets no dynamic tool of that
    name past the check, and changes its owner only as [owner_step] says. *)
Lemma step_owner s a s' n :
  step s a s' -> n ∈ builtin_names (registry s) -> Forall (fun t => tool_name t <> n) (checked s) ->
  n ∈ builtin_names (registry s') /\ Forall (fun t => tool_name t <> n) (checked s')
  /\ tools (registry s') !! n = owner_step n (tools (registry s) !! n) a.
Proof.
  intros Hs Hn Hc. destruct Hs as [r p t Hm|r p t Hm|r p1 p2 t|r p f b t|r p n']; cbn [registry checked owner_step] in *.
  - split_and!; [done| |done]. apply Forall_cons. split; [|done].
    intros <-. unfold may_register in Hm. by rewrite bool_decide_eq_true_2 in Hm.
  - done.
  - apply Forall_app in Hc as [H1 [H2 H3]%Forall_cons]. split_and!; [done|by apply Forall_app|].
    cbn. by apply lookup_insert_ne.
  - split_and!; [apply register_sync_names; by left|done|]. destruct f; [apply register_sync_lookup|done].
  - split_and!; [done|done|]. cbn. case_bool_decide as E; [subst; apply lookup_delete_eq|by apply lookup_delete_ne].
Qed.
Lemma steps_owner s l s' n :
  steps s l s' -> n ∈ builtin_names (registry s) -> Forall (fun t => tool_name t <> n) (checked s) ->
  n ∈ builtin_names (registry s') /\ Forall (fun t => tool_name t <> n) (checked s')
  /\ tools (registry s') !! n = foldl (owner_step n) (tools (registry s) !! n) l.
Proof.
  induction 1 as [s|s a s1 l s2 Hs _ IH]; [done|]. intros Hn Hc.
  destruct (step_owner _ _ _ _ Hs Hn Hc) as (Hn1 & Hc1 & E). rewrite E in IH. by apply IH.
Qed.

(** The groups. *)
Section GroupLemmas.
Context (mk : Builtin -> T) (mk_name : forall b, tool_name (mk b) = builtin_name b).

Lemma builtin_name_inj b b' : builtin_name b = builtin_name b' -> b = b'.
Proof. by destruct b, b'. Qed.
Lemma sync_all_lookup bs : forall r b,
  tools (sync_all mk bs r) !! builtin_name b = if bool_decide (b ∈ bs) then Some (mk b) else tools r !! builtin_name b.
Proof.
  induction bs as [|x bs IH]; intros r b; [done|]. unfold sync_all in *. cbn [foldl]. rewrite IH, register_sync_lookup, mk_name.
  destruct (decide (b = x)) as [->|Hx].
  - rewrite (bool_decide_eq_true_2 (builtin_name x = _)), (bool_decide_eq_true_2 (x ∈ x :: bs)); [|set_solver|done].
    by destruct (bool_decide _).
  - rewrite (bool_decide_eq_false_2 (builtin_name x = _)); [|intros E; by apply builtin_name_inj in E].
    by rewrite (bool_decide_ext (b ∈ x :: bs) (b ∈ bs)) by set_solver.
Qed.
Lemma sync_all_names bs : forall r b,
  builtin_name b ∈ builtin_names (sync_all mk bs r) <->
  builtin_name b ∈ builtin_names r \/ (bool_decide (b ∈ bs) && protected (builtin_name b) = true).
Proof.
  induction bs as [|x bs IH]; intros r b; [naive_solver|]. unfold sync_all in *. cbn [foldl]. rewrite IH, register_sync_names, mk_name.
  destruct (decide (b = x)) as [->|Hx].
  - rewrite (bool_decide_eq_true_2 (x ∈ x :: bs)) by set_solver. destruct (bool_decide (x ∈ bs)); naive_solver.
  - rewrite (bool_decide_ext (b ∈ x :: bs) (b ∈ bs)) by set_solver.
    split; [|naive_solver]. intros [[?|(_ & E & _)]|?]; [by left|by apply builtin_name_inj in E|by right].
Qed.
End GroupLemmas.
End Registry.
Arguments ToolRegistry T : clear implicits.
Arguments Running T : clear implicits.
Arguments Action T : clear implicits.

(** ** Built-in tools keep their names *)
Section Shadowing.
Context {T : Type} `{!Tool T}.

(** C32. Once a built-in tool is registered under a protected name, and no dynamic
    tool of that name has passed the check before, no interleaving of
    registrations replaces it: its name belongs to the last built-in tool
    registered under it, or to nobody after an [unregister], and every later
    dynamic registration under the name is refused. *)
Theorem builtin_never_shadowed (r : ToolRegistry T) (p : list T) (t : T) (l : list (Action T)) (s : Running T) :
  protected (tool_name t) = true -> Forall (fun u => tool_name u <> tool_name t) p ->
  steps (mkRunning (register_sync true true t r) p) l s ->
  get (tool_name t) (registry s) = foldl (owner_step (tool_name t)) (Some t) l
  /\ forall u, tool_name u = tool_name t -> register u (registry s) = registry s.
Proof.
  intros Hp Hc Hs.
  destruct (steps_owner _ _ _ (tool_name t) Hs) as (Hn & _ & E); cbn [registry checked] in *;
    [by apply register_sync_names; right|done|].
  rewrite register_sync_lookup, bool_decide_eq_true_2 in E by done. split; [done|].
  intros u Hu. unfold register, may_register. by rewrite Hu, bool_decide_eq_true_2.
Qed.

(** The built-in tools that a dynamic registration can replace. *)
Definition shadowable (b : Builtin) : bool :=
  match b with BuildSoftwareTool | JitWasmTool | JobEventsTool | JobPromptTool => true | _ => false end.

Section Everything.
Context (mk : Builtin -> T) (mk_name : forall b, tool_name (mk b) = builtin_name b).
#[local] Ltac unfold_groups :=
  unfold register_everything, register_routine_tools, register_skill_tools, register_job_tools, register_dev_tools,
    register_extension_tools, register_jit_tool, register_builder_tool, register_memory_tools, register_kernel_tools,
    register_builtin_tools.
Lemma everything_names b :
  builtin_name b ∈ builtin_names (register_everything mk new_registry) <-> shadowable b = false.
Proof.
  unfold_groups. rewrite !(sync_all_names mk mk_name), register_names. unfold register_dev_tools.
  rewrite !(sync_all_names mk mk_name). change (builtin_names new_registry) with (∅ : gset string).
  rewrite elem_of_empty. destruct b; vm_compute; intuition congruence.
Qed.
Lemma everything_lookup b :
  tools (register_everything mk new_registry) !! builtin_name b = Some (mk b).
Proof.
  unfold_groups. rewrite !(sync_all_lookup mk mk_name), register_lookup, mk_name. unfold register_dev_tools.
  rewrite !(sync_all_lookup mk mk_name). destruct b; try reflexivity.
  match goal with |- context [may_register ?t ?r] => assert (may_register t r = true) as ->; [|reflexivity] end.
  unfold may_register. rewrite mk_name, bool_decide_eq_false_2; [done|]. rewrite !(sync_all_names mk mk_name).
  change (builtin_names new_registry) with (∅ : gset string). rewrite elem_of_empty. vm_compute. intuition congruence.
Qed.
End Everything.

(** After every group of built-in tools is registered, a dynamic tool of the
    name of a built-in one is refused, except for four: [jit_wasm_run],
    [job_events] and [job_prompt] are not on the list of protected names, and
    [build_software], which is, is registered as a dynamic tool. *)
Theorem builtins_protected_except (mk : Builtin -> T) (b : Builtin) (t : T) :
  (forall b', tool_name (mk b') = builtin_name b') -> tool_name t = builtin_name b ->
  get (builtin_name b) (register t (register_everything mk new_registry)) = Some (if shadowable b then t else mk b).
Proof.
  intros Hmk Ht. unfold get. rewrite register_lookup, Ht, (bool_decide_eq_true_2 (_ = _)), andb_true_l by done.
  rewrite everything_lookup by done. unfold may_register. rewrite Ht. pose proof (everything_names mk Hmk b) as E.
  destruct (shadowable b).
  - rewrite bool_decide_eq_false_2; [done|]. rewrite E. congruence.
  - rewrite bool_decide_eq_true_2; [done|]. by apply E.
Qed.
End Shadowing.

(** ** Witnesses *)
Record DemoTool := mkDemoTool { demo_name : string; origin : string }.
#[export] Instance DemoTool_Tool : Tool DemoTool :=
  {| tool_name := demo_name; tool_description := origin; parameters_schema _ := JNull; tool_domain _ := Orchestrator |}.
Definition demo_builtin (b : Builtin) : DemoTool := mkDemoTool (builtin_name b) "built-in".

Lemma builtin_never_shadowed_witness :
  let t := demo_builtin ShellTool in let u := mkDemoTool "shell" "dynamic" in
  get "shell" (register_sync true true t new_registry) = Some t
  /\ register u (register_sync true true t new_registry) = register_sync true true t new_registry.
Proof.
  cbn zeta.
  assert (Hs : steps (mkRunning (register_sync true true (demo_builtin ShellTool) new_registry) [])
    [ACheck (mkDemoTool "shell" "dynamic")] (mkRunning (register_sync true true (demo_builtin ShellTool) new_registry) []))
    by (eapply steps_cons; [apply step_refuse; vm_compute; reflexivity|apply steps_nil]).
  apply builtin_never_shadowed in Hs as [H1 H2]; [|vm_compute; reflexivity|constructor].
  split; [exact H1|exact (H2 (mkDemoTool "shell" "dynamic") eq_refl)].
Defined.
Lemma builtins_protected_except_witness :
  get "build_software" (register (mkDemoTool "build_software" "dynamic") (register_everything demo_builtin new_registry))
    = Some (mkDemoTool "build_software" "dynamic").
Proof.
  refine (builtins_protected_except demo_builtin BuildSoftwareTool (mkDemoTool "build_software" "dynamic") _ _); reflexivity.
Defined.
