(* ===== verification/Extensions.v ===== *)
(** MCP server configuration and the extension manager:
    [src/tools/mcp/config.rs] and the activation and removal of extensions in
    [src/extensions/manager.rs].

    The settings table of the database, the configuration file, the JSON
    (de)serialisation of the server list, the URL parser, the MCP client and
    the WASM loader are arguments. *)

From S2P Require Import Prelude Strs Json Registry.
#[local] Open Scope claw_scope.

(** ** Server configurations *)
Record OAuthConfig := mkOAuth {
  client_id : string; authorization_url : option string; token_url : option string;
  scopes : list string; use_pkce : bool; extra_params : gmap string string }.
Definition new_oauth (id : string) : OAuthConfig := mkOAuth id None None [] true ∅.
Definition with_endpoints (a t : string) (o : OAuthConfig) : OAuthConfig :=
  mkOAuth (client_id o) (Some a) (Some t) (scopes o) (use_pkce o) (extra_params o).
Definition with_scopes (ss : list string) (o : OAuthConfig) : OAuthConfig :=
  mkOAuth (client_id o) (authorization_url o) (token_url o) ss (use_pkce o) (extra_params o).
Record McpServerConfig := mkServer {
  server_name : string; server_url : string; oauth : option OAuthConfig; enabled : bool; server_description : option string }.
Definition new_server (name url : string) : McpServerConfig := mkServer name url None true None.
Definition with_oauth (o : OAuthConfig) (s : McpServerConfig) : McpServerConfig :=
  mkServer (server_name s) (server_url s) (Some o) (enabled s) (server_description s).
Definition with_server_description (d : string) (s : McpServerConfig) : McpServerConfig :=
  mkServer (server_name s) (server_url s) (oauth s) (enabled s) (Some d).

Inductive ConfigError :=
| IoErr (msg : string) | JsonErr (msg : string) | InvalidConfig (reason : string) | ServerNotFound (name : string).
Definition config_error_display (e : ConfigError) : string :=
  match e with
  | IoErr m => "IO error: " ++s m
  | JsonErr m => "JSON error: " ++s m
  | InvalidConfig r => "Invalid configuration: " ++s r
  | ServerNotFound n => "Server not found: " ++s n
  end.

Definition validate (s : McpServerConfig) : Result unit ConfigError :=
  if is_empty (server_name s) then Err (InvalidConfig "Server name cannot be empty")
  else if is_empty (server_url s) then Err (InvalidConfig "Server URL cannot be empty")
  else
    let url_lower := to_lowercase (server_url s) in
    let is_localhost := str_contains url_lower "localhost" || str_contains url_lower "127.0.0.1" in
    if negb is_localhost && negb (starts_with url_lower "https://")
    then Err (InvalidConfig "Remote MCP servers must use HTTPS")
    else Ok tt.

(** The host of a URL, as [url::Url::parse(u).host()] has it: addresses as numbers. *)
Inductive Host := Domain (d : string) | Ipv4 (a : Z) | Ipv6 (a : Z).
Definition is_loopback (h : Host) : bool :=
  match h with
  | Domain d => String.eqb (to_lowercase d) "localhost"
  | Ipv4 a => a / 2 ^ 24 =? 127
  | Ipv6 a => a =? 1
  end.
Definition is_localhost_url (parse : string -> option (option Host)) (url : string) : bool :=
  match parse url with Some (Some h) => is_loopback h | _ => false end.
Definition requires_auth (parse : string -> option (option Host)) (s : McpServerConfig) : bool :=
  match oauth s with
  | Some _ => true
  | None => let u := to_lowercase (server_url s) in starts_with u "https://" && negb (is_localhost_url parse u)
  end.
Definition token_secret_name (s : McpServerConfig) : string := "mcp_" ++s server_name s ++s "_access_token".
Definition refresh_token_secret_name (s : McpServerConfig) : string := "mcp_" ++s server_name s ++s "_refresh_token".
Definition client_id_secret_name (s : McpServerConfig) : string := "mcp_" ++s server_name s ++s "_client_id".

(** ** The list of servers *)
Record McpServersFile := mkServers { servers : list McpServerConfig; schema_version : Z }.
(** The derived [Default] of the struct: the version serde would fill in is 1, this one is 0. *)
Definition default_servers : McpServersFile := mkServers [] 0.
Definition named (n : string) (s : McpServerConfig) : bool := String.eqb (server_name s) n.
Definition find_server (f : McpServersFile) (n : string) : option McpServerConfig := List.find (named n) (servers f).
Fixpoint replace_server (c : McpServerConfig) (l : list McpServerConfig) : option (list McpServerConfig) :=
  match l with
  | [] => None
  | s :: l => if named (server_name c) s then Some (c :: l) else cons s <$> replace_server c l
  end.
Definition upsert (c : McpServerConfig) (f : McpServersFile) : McpServersFile :=
  mkServers (match replace_server c (servers f) with Some l => l | None => servers f ++ [c] end) (schema_version f).
Definition remove_server (n : string) (f : McpServersFile) : bool * McpServersFile :=
  let kept := List.filter (fun s => negb (named n s)) (servers f) in
  ((length kept <? length (servers f))%nat, mkServers kept (schema_version f)).
Definition enabled_servers (f : McpServersFile) : list McpServerConfig := List.filter enabled (servers f).

(** ** Where the list is kept

    A file with text of type [S], and a settings table with values of type [V]. *)
Record ConfigOps {C V S : Type} := mkConfigOps {
  read_file : C -> Result (option S) string;
  write_file : S -> C -> Result unit string * C;
  from_str : S -> Result McpServersFile string;
  to_string_pretty : McpServersFile -> S;
  get_setting : C -> Result (option V) string;
  set_setting : V -> C -> Result unit string * C;
  from_value : V -> Result McpServersFile string;
  to_value : McpServersFile -> V;
}.
Arguments ConfigOps C V S : clear implicits.

Section Stores.
Context {C V S : Type} (ops : ConfigOps C V S) (in_db : bool).

Definition load_mcp_servers (c : C) : Result McpServersFile ConfigError :=
  match read_file ops c with
  | Err m => Err (IoErr m)
  | Ok None => Ok default_servers
  | Ok (Some content) => match from_str ops content with Ok f => Ok f | Err m => Err (JsonErr m) end
  end.
Definition save_mcp_servers (f : McpServersFile) (c : C) : Result unit ConfigError * C :=
  let '(r, c) := write_file ops (to_string_pretty ops f) c in
  (match r with Ok _ => Ok tt | Err m => Err (IoErr m) end, c).
Definition load_mcp_servers_from_db (c : C) : Result McpServersFile ConfigError :=
  match get_setting ops c with
  | Ok (Some v) => match from_value ops v with Ok f => Ok f | Err m => Err (JsonErr m) end
  | Ok None => load_mcp_servers c
  | Err _ => load_mcp_servers c
  end.
Definition save_mcp_servers_to_db (f : McpServersFile) (c : C) : Result unit ConfigError * C :=
  let '(r, c) := set_setting ops (to_value ops f) c in
  (match r with Ok _ => Ok tt | Err m => Err (IoErr m) end, c).

(** The manager's helpers: the database when there is one, the file otherwise. *)
Definition load (c : C) : Result McpServersFile ConfigError :=
  if in_db then load_mcp_servers_from_db c else load_mcp_servers c.
Definition save (f : McpServersFile) (c : C) : Result unit ConfigError * C :=
  if in_db then save_mcp_servers_to_db f c else save_mcp_servers f c.
Definition get_mcp_server (n : string) (c : C) : Result McpServerConfig ConfigError :=
  match load c with
  | Err e => Err e
  | Ok f => ok_or (find_server f n) (ServerNotFound n)
  end.
Definition add_mcp_server (s : McpServerConfig) (c : C) : Result unit ConfigError * C :=
  match validate s with
  | Err e => (Err e, c)
  | Ok _ => match load c with
            | Err e => (Err e, c)
            | Ok f => save (upsert s f) c
            end
  end.
Definition remove_mcp_server (n : string) (c : C) : Result unit ConfigError * C :=
  match load c with
  | Err e => (Err e, c)
  | Ok f => let '(found, f') := remove_server n f in
            if found then save f' c else (Err (ServerNotFound n), c)
  end.
End Stores.

(** ** The extension manager *)
Inductive ExtensionKind := McpServer | WasmTool | WasmChannel.
Inductive ExtensionError :=
| NotFound (msg : string) | AlreadyInstalled (msg : string) | NotInstalled (msg : string) | AuthFailed (msg : string)
| ActivationFailed (msg : string) | InstallFailed (msg : string) | DiscoveryFailed (msg : string)
| InvalidUrl (msg : string) | DownloadFailed (msg : string) | ConfigFailed (msg : string)
| ChannelNeedsRestart | Other (msg : string).
Record ActivateResult := mkActivate {
  act_name : string; act_kind : ExtensionKind; tools_loaded : list string; act_message : string }.

(** An MCP tool as the server lists it. *)
Record McpTool := mkMcpTool { mcp_tool_name : string; mcp_tool_schema : Json }.

Section Manager.
Context {T C V S : Type} `{!Tool T} (ops : ConfigOps C V S) (in_db : bool).
(** Whether a token is stored, whether the URL is local, the server's answer to
    [list_tools], by its configuration and whether the client authenticates,
    and the tool that calls it. *)
Context (is_authenticated : McpServerConfig -> bool) (parse : string -> option (option Host))
  (list_tools : McpServerConfig -> bool -> Result (list McpTool) string) (mcp_wrapper : string -> McpTool -> T).
(** The directory of WASM tools and the WASM runtime: the loading of a tool's files into the registry. *)
Context (tools_path : string) (load_from_files : option (string -> bool -> ToolRegistry T -> Result unit string * ToolRegistry T)).

(** Files are known by their names in the two directories of extensions. *)
Record ExtensionManager := mkManager {
  tool_registry : ToolRegistry T; mcp_clients : gset string; config : C;
  wasm_tools_dir : gset string; wasm_channels_dir : gset string }.
Definition on_registry (f : ToolRegistry T -> ToolRegistry T) (m : ExtensionManager) : ExtensionManager :=
  mkManager (f (tool_registry m)) (mcp_clients m) (config m) (wasm_tools_dir m) (wasm_channels_dir m).

Definition wasm_path (n : string) : string := n ++s ".wasm".
Definition cap_path (n : string) : string := n ++s ".capabilities.json".
Definition server_prefix (n : string) : string := n ++s "_".
Definition server_tools (n : string) (r : ToolRegistry T) : list string :=
  List.filter (fun t => starts_with t (server_prefix n)) (list_names r).

(** [create_tools] asks for the list again and gets the copy the client kept of it. *)
Definition create_tools (server : McpServerConfig) (mcp_tools : list McpTool) : list T :=
  (fun t => mcp_wrapper (server_name server ++s "_" ++s mcp_tool_name t) t) <$> mcp_tools.
Definition activate_mcp (name : string) (m : ExtensionManager) : Result ActivateResult ExtensionError * ExtensionManager :=
  if bool_decide (name ∈ mcp_clients m)
  then (Ok (mkActivate name McpServer (server_tools name (tool_registry m))
              ("MCP server '" ++s name ++s "' already active")), m)
  else match get_mcp_server ops in_db name (config m) with
  | Err e => (Err (NotInstalled (config_error_display e)), m)
  | Ok server =>
      let auth := is_authenticated server || requires_auth parse server in
      match list_tools server auth with
      | Err e => (Err (ActivationFailed e), m)
      | Ok mcp_tools =>
          let tool_impls := create_tools server mcp_tools in
          let r := foldl (fun r t => register t r) (tool_registry m) tool_impls in
          (Ok (mkActivate name McpServer ((fun t => name ++s "_" ++s mcp_tool_name t) <$> mcp_tools)
                 ("Connected to '" ++s name ++s "' and loaded tools")),
           mkManager r ({[name]} ∪ mcp_clients m) (config m) (wasm_tools_dir m) (wasm_channels_dir m))
      end
  end.

Definition activate_wasm_tool (name : string) (m : ExtensionManager) : Result ActivateResult ExtensionError * ExtensionManager :=
  if has name (tool_registry m)
  then (Ok (mkActivate name WasmTool [name] ("WASM tool '" ++s name ++s "' already active")), m)
  else match load_from_files with
  | None => (Err (ActivationFailed "WASM runtime not available"), m)
  | Some load =>
      if bool_decide (wasm_path name ∈ wasm_tools_dir m)
      then match load name (bool_decide (cap_path name ∈ wasm_tools_dir m)) (tool_registry m) with
           | (Err e, r) => (Err (ActivationFailed e), on_registry (fun _ => r) m)
           | (Ok _, r) => (Ok (mkActivate name WasmTool [name] ("WASM tool '" ++s name ++s "' loaded and ready")),
                           on_registry (fun _ => r) m)
           end
      else (Err (NotInstalled ("WASM tool '" ++s name ++s "' not found at " ++s tools_path ++s "/" ++s wasm_path name)), m)
  end.

Definition determine_installed_kind (name : string) (m : ExtensionManager) : Result ExtensionKind ExtensionError :=
  if is_ok (get_mcp_server ops in_db name (config m)) then Ok McpServer
  else if bool_decide (wasm_path name ∈ wasm_tools_dir m) then Ok WasmTool
  else if bool_decide (wasm_path name ∈ wasm_channels_dir m) then Ok WasmChannel
  else Err (NotInstalled ("'" ++s name ++s "' is not installed as an MCP server, WASM tool, or WASM channel")).

Definition activate (name : string) (m : ExtensionManager) : Result ActivateResult ExtensionError * ExtensionManager :=
  match determine_installed_kind name m with
  | Err e => (Err e, m)
  | Ok McpServer => activate_mcp name m
  | Ok WasmTool => activate_wasm_tool name m
  | Ok WasmChannel => (Err ChannelNeedsRestart, m)
  end.

(** [remove_file] may refuse. *)
Definition remove (remove_file : string -> Result unit string) (name : string) (m : ExtensionManager)
  : Result string ExtensionError * ExtensionManager :=
  match determine_installed_kind name m with
  | Err e => (Err e, m)
  | Ok McpServer =>
      let tool_names := server_tools name (tool_registry m) in
      let r := foldl (fun r t => (unregister t r).2) (tool_registry m) tool_names in
      let '(res, c) := remove_mcp_server ops in_db name (config m) in
      (match res with
       | Err e => Err (ConfigFailed (config_error_display e))
       | Ok _ => Ok ("Removed MCP server '" ++s name ++s "' and " ++s pretty (Z.of_nat (length tool_names)) ++s " tool(s)")
       end,
       mkManager r (mcp_clients m ∖ {[name]}) c (wasm_tools_dir m) (wasm_channels_dir m))
  | Ok WasmTool =>
      let m := on_registry (fun r => (unregister name r).2) m in
      let drop_file f m := mkManager (tool_registry m) (mcp_clients m) (config m) (wasm_tools_dir m ∖ {[f]}) (wasm_channels_dir m) in
      match (if bool_decide (wasm_path name ∈ wasm_tools_dir m)
             then match remove_file (wasm_path name) with Ok _ => Ok (drop_file (wasm_path name) m) | Err e => Err e end
             else Ok m) with
      | Err e => (Err (Other e), m)
      | Ok m =>
          let m := if bool_decide (cap_path name ∈ wasm_tools_dir m) && is_ok (remove_file (cap_path name))
                   then drop_file (cap_path name) m else m in
          (Ok ("Removed WASM tool '" ++s name ++s "'"), m)
      end
  | Ok WasmChannel =>
      (Err (Other "Channel removal requires restart. Delete the .wasm file from ~/.ironclaw/channels/ and restart."), m)
  end.
End Manager.
Arguments ExtensionManager T C : clear implicits.

(** ** The list of servers behaves as a map *)
Lemma find_cons n s l : List.find (named n) (s :: l) = if String.eqb (server_name s) n then Some s else List.find (named n) l.
Proof. done. Qed.
Lemma find_replace c l n :
  match replace_server c l with
  | Some l' => List.find (named n) l' = if String.eqb (server_name c) n then Some c else List.find (named n) l
  | None => List.find (named (server_name c)) l = None
  end.
Proof.
  induction l as [|s l IH]; [done|]. cbn [replace_server]. unfold named at 1.
  destruct (String.eqb_spec (server_name s) (server_name c)) as [E|E].
  - rewrite !find_cons, E. by destruct (String.eqb (server_name c) n).
  - destruct (replace_server c l); cbn [fmap option_fmap option_map]; rewrite !find_cons.
    + rewrite IH. destruct (String.eqb_spec (server_name s) n) as [<-|]; [|done].
      by rewrite (proj2 (String.eqb_neq _ _)) by congruence.
    + by rewrite (proj2 (String.eqb_neq _ _)).
Qed.
Lemma find_snoc c l n :
  List.find (named (server_name c)) l = None ->
  List.find (named n) (l ++ [c]) = if String.eqb (server_name c) n then Some c else List.find (named n) l.
Proof.
  induction l as [|s l IH]; [done|]. rewrite find_cons, <-app_comm_cons, !find_cons.
  destruct (String.eqb_spec (server_name s) (server_name c)); [done|]. intros H. rewrite IH by done.
  destruct (String.eqb_spec (server_name s) n) as [<-|]; [|done]. by rewrite (proj2 (String.eqb_neq _ _)) by congruence.
Qed.
Lemma find_upsert c f n :
  find_server (upsert c f) n = if String.eqb (server_name c) n then Some c else find_server f n.
Proof.
  unfold find_server, upsert. cbn [servers]. pose proof (find_replace c (servers f) n) as H.
  destruct (replace_server c (servers f)); [done|]. by apply find_snoc.
Qed.
Lemma find_remove n f k :
  find_server (remove_server n f).2 k = if String.eqb n k then None else find_server f k.
Proof.
  unfold find_server, remove_server. cbn [snd servers].
  induction (servers f) as [|s l IH]; [by destruct (String.eqb n k)|]. cbn [List.filter]. unfold named at 2.
  destruct (String.eqb_spec (server_name s) n) as [<-|E]; cbn [negb]; rewrite ?find_cons, IH.
  - by destruct (String.eqb (server_name s) k).
  - destruct (String.eqb_spec (server_name s) k) as [<-|]; [|done]. by rewrite (proj2 (String.eqb_neq _ _)) by congruence.
Qed.
Lemma remove_server_found n f : (remove_server n f).1 = bool_decide (is_Some (find_server f n)).
Proof.
  unfold remove_server, find_server. cbn [fst]. induction (servers f) as [|s l IH]; [done|]. cbn.
  pose proof (List.filter_length_le (fun s => negb (named n s)) l).
  destruct (named n s); cbn [negb List.find length].
  - rewrite bool_decide_eq_true_2 by eauto. by apply Nat.leb_le.
  - rewrite <-IH. done.
Qed.

(** What the two places that keep the list promise: what is written is read
    back, and the serialisations are inverse to each other. *)
Class ConfigLaws {C V S : Type} (ops : ConfigOps C V S) : Prop := {
  read_after_write : forall s c c', write_file ops s c = (Ok tt, c') -> read_file ops c' = Ok (Some s);
  from_to_string : forall f, from_str ops (to_string_pretty ops f) = Ok f;
  get_after_set : forall v c c', set_setting ops v c = (Ok tt, c') -> get_setting ops c' = Ok (Some v);
  from_to_value : forall f, from_value ops (to_value ops f) = Ok f;
}.

Section StoreLemmas.
Context {C V S : Type} (ops : ConfigOps C V S) `{!ConfigLaws ops} (in_db : bool).
Lemma load_after_save f c c' : save ops in_db f c = (Ok tt, c') -> load ops in_db c' = Ok f.
Proof using ConfigLaws0.
  unfold save, load, save_mcp_servers_to_db, save_mcp_servers, load_mcp_servers_from_db, load_mcp_servers.
  destruct in_db.
  - destruct (set_setting ops (to_value ops f) c) as [[[]|e] c1] eqn:E; intros [= <-].
    by rewrite (get_after_set _ _ _ E), from_to_value.
  - destruct (write_file ops (to_string_pretty ops f) c) as [[[]|e] c1] eqn:E; intros [= <-].
    by rewrite (read_after_write _ _ _ E), from_to_string.
Qed.

(** A server that was added is found under its name, and one that was removed
    is not; every other server is found as before. *)
Theorem mcp_config_roundtrip (s : McpServerConfig) (n : string) (c c' : C) :
  (add_mcp_server ops in_db s c = (Ok tt, c') ->
   get_mcp_server ops in_db (server_name s) c' = Ok s
   /\ forall k, k <> server_name s -> get_mcp_server ops in_db k c' = get_mcp_server ops in_db k c)
  /\ (remove_mcp_server ops in_db n c = (Ok tt, c') ->
      get_mcp_server ops in_db n c' = Err (ServerNotFound n)
      /\ forall k, k <> n -> get_mcp_server ops in_db k c' = get_mcp_server ops in_db k c).
Proof using ConfigLaws0.
  unfold add_mcp_server, remove_mcp_server, get_mcp_server. split.
  - destruct (validate s) as [_|]; [|done]. destruct (load ops in_db c) as [f|]; [|done].
    intros H%load_after_save. rewrite H, find_upsert, String.eqb_refl. split; [done|].
    intros k Hk. rewrite find_upsert. by rewrite (proj2 (String.eqb_neq _ _)) by done.
  - destruct (load ops in_db c) as [f|]; [|done]. pose proof (find_remove n f) as Hf.
    destruct (remove_server n f) as [[] f']; [|done]. cbn [snd] in Hf.
    intros H%load_after_save. rewrite H, Hf, String.eqb_refl. split; [done|].
    intros k Hk. rewrite Hf. by rewrite (proj2 (String.eqb_neq _ _)) by done.
Qed.
End StoreLemmas.

(** ** Activation and removal *)
Section ManagerLemmas.
Context {T C V S : Type} `{!Tool T} (ops : ConfigOps C V S) (in_db : bool).

Lemma unregister_all_lookup l : forall (r : ToolRegistry T) n,
  tools (foldl (fun r t => (unregister t r).2) r l) !! n = if bool_decide (n ∈ l) then None else tools r !! n.
Proof.
  induction l as [|x l IH]; intros r n; [done|]. cbn [foldl]. rewrite IH. cbn [unregister snd tools].
  destruct (decide (n = x)) as [->|Hx].
  - rewrite (bool_decide_eq_true_2 (x ∈ x :: l)) by set_solver. rewrite lookup_delete_eq. by destruct (bool_decide _).
  - rewrite lookup_delete_ne by done. by rewrite (bool_decide_ext (n ∈ x :: l) (n ∈ l)) by set_solver.
Qed.
Lemma unregister_all_names l : forall (r : ToolRegistry T),
  builtin_names (foldl (fun r t => (unregister t r).2) r l) = builtin_names r.
Proof. induction l as [|x l IH]; intros r; [done|]. cbn [foldl]. by rewrite IH. Qed.
Lemma server_tools_lookup name (r : ToolRegistry T) n :
  (if bool_decide (n ∈ server_tools name r) then None else tools r !! n)
  = if starts_with n (server_prefix name) then None else tools r !! n.
Proof.
  unfold server_tools. destruct (starts_with n (server_prefix name)) eqn:E; case_bool_decide as H; try done.
  - destruct (tools r !! n) as [t|] eqn:Ht; [|done]. destruct H. apply list_elem_of_In, List.filter_In. split; [|done].
    apply list_elem_of_In, list_elem_of_fmap. exists (n, t). split; [done|]. by apply elem_of_map_to_list.
  - apply list_elem_of_In, List.filter_In in H as [_ H]. congruence.
Qed.
Lemma register_all_names l : forall (r : ToolRegistry T), builtin_names (foldl (fun r t => register t r) r l) = builtin_names r.
Proof. induction l as [|x l IH]; intros r; [done|]. cbn [foldl]. by rewrite IH, register_names. Qed.
Lemma register_all_lookup l : forall (r : ToolRegistry T) n,
  n ∈ builtin_names r \/ Forall (fun t => tool_name t <> n) l ->
  tools (foldl (fun r t => register t r) r l) !! n = tools r !! n.
Proof.
  induction l as [|x l IH]; intros r n Hn; [done|]. cbn [foldl]. rewrite IH by (rewrite register_names, Forall_cons in *; naive_solver).
  rewrite register_lookup. case_bool_decide as E; [|done]. destruct Hn as [Hn|[Hn _]%Forall_cons]; [|done].
  unfold may_register. by rewrite E, bool_decide_eq_true_2.
Qed.

(** Removing an MCP server unregisters exactly the tools whose names begin with
    the server's name and an underscore. *)
Lemma remove_mcp_spec remove_file (name : string) (m : ExtensionManager T C) :
  is_ok (get_mcp_server ops in_db name (config m)) = true ->
  let m' := (remove ops in_db remove_file name m).2 in
  ~ (name ∈ mcp_clients m') /\ builtin_names (tool_registry m') = builtin_names (tool_registry m)
  /\ forall n, get n (tool_registry m') = if starts_with n (server_prefix name) then None else get n (tool_registry m).
Proof.
  intros Hs. unfold remove, determine_installed_kind. rewrite Hs.
  destruct (remove_mcp_server ops in_db name (config m)) as [res c]. cbn.
  split_and!; [set_solver|apply unregister_all_names|]. intros n. unfold get.
  by rewrite unregister_all_lookup, server_tools_lookup.
Qed.
(** Activating a server adds no tool outside the server's prefix and replaces
    no built-in tool: every name that is protected, or does not begin with the
    server's name and an underscore, keeps its tool. *)
Theorem activate_mcp_confined (is_authenticated : McpServerConfig -> bool) (parse : string -> option (option Host))
    (list_tools : McpServerConfig -> bool -> Result (list McpTool) string) (mcp_wrapper : string -> McpTool -> T)
    (name n : string) (m : ExtensionManager T C) (res : Result ActivateResult ExtensionError) (m' : ExtensionManager T C) :
  (forall p t, tool_name (mcp_wrapper p t) = p) ->
  n ∈ builtin_names (tool_registry m) \/ starts_with n (server_prefix name) = false ->
  activate_mcp ops in_db is_authenticated parse list_tools mcp_wrapper name m = (res, m') ->
  get n (tool_registry m') = get n (tool_registry m)
  /\ builtin_names (tool_registry m') = builtin_names (tool_registry m)
  /\ (is_ok res = true <-> name ∈ mcp_clients m') /\ config m' = config m.
Proof.
  intros Hw Hn. unfold activate_mcp. case_bool_decide as Hc; [by intros [= <- <-]|].
  destruct (get_mcp_server ops in_db name (config m)) as [server|] eqn:Es; [|by intros [= <- <-]].
  destruct (list_tools server _) as [ts|]; [|by intros [= <- <-]]. intros [= <- <-]. cbn.
  split_and!; [|apply register_all_names|set_solver|done]. unfold get. apply register_all_lookup.
  destruct Hn as [Hn|Hn]; [by left|right]. apply Forall_fmap, Forall_forall. intros t _. cbn. rewrite Hw.
  intros <-. rewrite (proj2 (starts_with_spec _ _)) in Hn; [done|]. exists (mcp_tool_name t).
  assert (server_name server = name) as ->.
  { unfold get_mcp_server in Es. destruct (load ops in_db (config m)) as [f|]; [|done].
    unfold find_server in Es. destruct (List.find _ _) as [x|] eqn:Ef; [|done]. injection Es as ->.
    apply List.find_some in Ef as [_ Ef]. by apply String.eqb_eq in Ef. }
  unfold server_prefix. by rewrite append_assoc_str.
Qed.

End ManagerLemmas.

(** ** Where removal, reloading and validation go wrong *)
Section Divergences.
Context {T C V S : Type} `{!Tool T} (ops : ConfigOps C V S) (in_db : bool).

(** Removing an MCP server takes every built-in tool with it whose name begins
    with the server's name and an underscore (a server called [memory], [tool]
    or [skill] has several), and the built-in names are kept, so that nothing
    can be registered in its place. *)
Theorem removing_a_server_removes_builtins remove_file (name n : string) (m : ExtensionManager T C) :
  is_ok (get_mcp_server ops in_db name (config m)) = true ->
  n ∈ builtin_names (tool_registry m) -> starts_with n (server_prefix name) = true ->
  let m' := (remove ops in_db remove_file name m).2 in
  get n (tool_registry m') = None
  /\ forall t, tool_name t = n -> register t (tool_registry m') = tool_registry m'.
Proof.
  intros Hs Hn Hp. pose proof (remove_mcp_spec ops in_db remove_file name m Hs) as (_ & Hb & Hg). cbn zeta.
  split; [by rewrite Hg, Hp|]. intros t Ht. unfold register, may_register. by rewrite Hb, Ht, bool_decide_eq_true_2.
Qed.

(** When the settings table cannot be read and there is no file, adding a
    server replaces the stored list by that server alone. *)
Theorem failed_read_loses_servers (Hl : ConfigLaws ops) (s : McpServerConfig) (e : string) (c c' : C) :
  get_setting ops c = Err e -> read_file ops c = Ok None -> add_mcp_server ops true s c = (Ok tt, c') ->
  load ops true c' = Ok (mkServers [s] 0).
Proof.
  intros Hg Hr. unfold add_mcp_server. destruct (validate s); [|done].
  assert (load ops true c = Ok default_servers) as ->.
  { unfold load, load_mcp_servers_from_db, load_mcp_servers. by rewrite Hg, Hr. }
  apply load_after_save. done.
Qed.

(** The check that remote servers use HTTPS looks for the word [localhost]
    anywhere in the URL: plain HTTP to any host passes it, and no
    authentication is asked for. *)
Theorem plain_http_passes (parse : string -> option (option Host)) (name host : string) :
  name <> EmptyString ->
  validate (new_server name ("http://" ++s host ++s "/localhost")) = Ok tt
  /\ requires_auth parse (new_server name ("http://" ++s host ++s "/localhost")) = false.
Proof.
  intros Hn. unfold validate, requires_auth, new_server. cbn [server_name server_url oauth].
  split; [|done]. destruct name as [|x name]; [done|]. cbn [is_empty].
  replace (is_empty _) with false by done.
  assert (str_contains (to_lowercase ("http://" ++s host ++s "/localhost")) "localhost" = true) as ->; [|done].
  apply str_contains_spec. exists (to_lowercase ("http://" ++s host ++s "/")), EmptyString.
  by rewrite !to_lowercase_app, !append_assoc_str.
Qed.
End Divergences.

(** ** Witnesses *)
(** A store that holds the list itself, and whose table fails to answer once. *)
Record Demo := mkDemo { broken : bool; table : option McpServersFile; file : option McpServersFile }.
Definition demo_ops : ConfigOps Demo McpServersFile McpServersFile := {|
  read_file c := Ok (file c);
  write_file s c := (Ok tt, mkDemo (broken c) (table c) (Some s));
  from_str s := Ok s; to_string_pretty f := f;
  get_setting c := if broken c then Err "connection lost"%string else Ok (table c);
  set_setting v c := (Ok tt, mkDemo false (Some v) (file c));
  from_value v := Ok v; to_value f := f |}.
#[export] Instance demo_laws : ConfigLaws demo_ops.
Proof. split; cbn; intros; simplify_eq; done. Qed.
Definition memory_server : McpServerConfig := new_server "memory" "https://memory.example".
Definition notion_server : McpServerConfig := new_server "notion" "https://notion.example".
Definition demo_config : Demo := mkDemo false (Some (mkServers [memory_server] 1)) None.
Definition demo_manager : ExtensionManager DemoTool Demo :=
  mkManager (register_memory_tools demo_builtin new_registry) ∅ demo_config ∅ ∅.
Definition demo_list (s : McpServerConfig) (_ : bool) : Result (list McpTool) string :=
  Ok [mkMcpTool "search" JNull; mkMcpTool "pages" JNull].
Definition demo_wrapper (p : string) (_ : McpTool) : DemoTool := mkDemoTool p "mcp".

Lemma mcp_config_roundtrip_witness :
  let c' := (add_mcp_server demo_ops true notion_server demo_config).2 in
  get_mcp_server demo_ops true "notion" c' = Ok notion_server /\ get_mcp_server demo_ops true "memory" c' = Ok memory_server.
Proof.
  cbn zeta. destruct (mcp_config_roundtrip demo_ops true notion_server "memory" demo_config
    (add_mcp_server demo_ops true notion_server demo_config).2) as [H _].
  destruct (H ltac:(reflexivity)) as [H1 H2]. split; [exact H1|]. rewrite H2; [reflexivity|discriminate].
Defined.
Lemma activate_mcp_confined_witness :
  let m' := (activate_mcp demo_ops true (fun _ => true) (fun _ => None) demo_list demo_wrapper "memory" demo_manager).2 in
  get "memory_search" (tool_registry m') = Some (demo_builtin MemorySearchTool).
Proof.
  assert (Hw : forall p t, tool_name (demo_wrapper p t) = p) by reflexivity.
  cbn zeta. destruct (activate_mcp_confined demo_ops true (fun _ => true) (fun _ => None) demo_list demo_wrapper
    "memory" "memory_search" demo_manager _ _ Hw ltac:(left; vm_compute; reflexivity) (surjective_pairing _)) as [H _].
  rewrite H. vm_compute. reflexivity.
Defined.
Lemma removing_a_server_removes_builtins_witness :
  get "memory_search" (tool_registry demo_manager) = Some (demo_builtin MemorySearchTool)
  /\ get "memory_search" (tool_registry (remove demo_ops true (fun _ => Ok tt) "memory" demo_manager).2) = None.
Proof.
  split; [vm_compute; reflexivity|].
  exact (proj1 (removing_a_server_removes_builtins demo_ops true (fun _ => Ok tt) "memory" "memory_search" demo_manager
    ltac:(vm_compute; reflexivity) ltac:(vm_compute; reflexivity) ltac:(vm_compute; reflexivity))).
Defined.
Lemma failed_read_loses_servers_witness :
  let c := mkDemo true (Some (mkServers [memory_server] 1)) None in
  load demo_ops true (add_mcp_server demo_ops true notion_server c).2 = Ok (mkServers [notion_server] 0).
Proof.
  exact (failed_read_loses_servers demo_ops demo_laws notion_server "connection lost"
    (mkDemo true (Some (mkServers [memory_server] 1)) None) _ ltac:(reflexivity) ltac:(reflexivity) ltac:(reflexivity)).
Defined.
Lemma plain_http_passes_witness :
  validate (new_server "x" "http://evil.example/localhost") = Ok tt.
Proof. exact (proj1 (plain_http_passes (fun _ => None) "x" "evil.example" ltac:(discriminate))). Defined.
