(* ===== verification/Containers.v ===== *)
(** The containers of sandboxed jobs and their tokens:
    [src/orchestrator/auth.rs] (per-job bearer tokens and credential grants)
    and [src/orchestrator/job_manager.rs] (creating, completing and stopping
    the container of a job).

    Docker is the argument [docker], a record of the calls the manager makes;
    every call is also logged, so that what the manager asked Docker to do can
    be stated.  The file system is the one of [Files]; a random token is given
    by its 32 bytes. *)

From S2P Require Import Prelude Strs Json Tool Files.
From Stdlib Require Import Ascii.
#[local] Open Scope claw_scope.

(** ** Tokens and grants *)
Record CredentialGrant := mkGrant { secret_name : string; env_var : string }.
Record TokenStore := mkTokens { tokens : gmap Uuid string; credential_grants : gmap Uuid (list CredentialGrant) }.
Definition new_tokens : TokenStore := mkTokens ∅ ∅.

(** [{b:02x}] for a byte. *)
Definition hex_digit (d : Z) : ascii := chr (Z.to_nat (if d <? 10 then 48 + d else 87 + d)).
Definition push_hex (s : string) (b : Z) : string :=
  s ++s String (hex_digit (b / 16)) (String (hex_digit (b mod 16)) EmptyString).
Definition generate_token (bytes : list Z) : string := foldl push_hex EmptyString bytes.

Definition create_token (bytes : list Z) (job_id : Uuid) (ts : TokenStore) : string * TokenStore :=
  let token := generate_token bytes in
  (token, mkTokens (<[job_id := token]> (tokens ts)) (credential_grants ts)).
Definition validate (job_id : Uuid) (token : string) (ts : TokenStore) : bool :=
  match tokens ts !! job_id with Some stored => String.eqb stored token | None => false end.
Definition revoke (job_id : Uuid) (ts : TokenStore) : TokenStore :=
  mkTokens (delete job_id (tokens ts)) (delete job_id (credential_grants ts)).
Definition active_count (ts : TokenStore) : nat := size (tokens ts).
Definition store_grants (job_id : Uuid) (grants : list CredentialGrant) (ts : TokenStore) : TokenStore :=
  match grants with
  | [] => ts
  | _ => mkTokens (tokens ts) (<[job_id := grants]> (credential_grants ts))
  end.
Definition get_grants (job_id : Uuid) (ts : TokenStore) : option (list CredentialGrant) := credential_grants ts !! job_id.

(** ** Jobs *)
Inductive JobMode := Worker | ClaudeCode | OpenCode.
#[export] Instance JobMode_eq_dec : EqDecision JobMode.
Proof. solve_decision. Defined.
Definition job_mode_as_str (m : JobMode) : string :=
  match m with Worker => "worker" | ClaudeCode => "claude_code" | OpenCode => "opencode" end.
Record ContainerJobConfig := mkJobConfig {
  image : string; memory_limit_mb : Z; cfg_cpu_shares : Z; orchestrator_port : Z; auto_pull_image : bool;
  claude_code_api_key : option string; claude_code_oauth_token : option string; claude_code_model : string;
  claude_code_max_turns : Z; claude_code_memory_limit_mb : Z; claude_code_allowed_tools : list string }.
Definition default_job_config (allowed_tools : list string) : ContainerJobConfig :=
  mkJobConfig "ironclaw-worker:latest" 2048 1024 50051 true None None "sonnet" 50 4096 allowed_tools.
Inductive ContainerState := Creating | Running | Stopped | Failed.
#[export] Instance ContainerState_eq_dec : EqDecision ContainerState.
Proof. solve_decision. Defined.
Record CompletionResult := mkCompletion { success : bool; completion_message : option string }.
Record ContainerHandle := mkHandle {
  h_job_id : Uuid; container_id : string; state : ContainerState; mode : JobMode; created_at : DateTime;
  project_dir : option Path; task_description : string;
  last_worker_status : option string; worker_iteration : Z; completion_result : option CompletionResult }.
Inductive OrchestratorError :=
| ContainerCreationFailed (job_id : Uuid) (reason : string)
| ContainerNotFound (job_id : Uuid)
| InvalidContainerState (job_id : Uuid) (state : string)
| ApiError (reason : string)
| DockerError (reason : string).

(** What a container is created with. *)
Record HostConfig := mkHost {
  binds : option (list string); memory : Z; cpu_shares : Z; network_mode : string; extra_hosts : list string;
  cap_drop : list string; cap_add : list string; security_opt : list string; tmpfs : list (string * string) }.
Record ContainerConfig := mkContainer {
  c_image : string; cmd : list string; env : list string; host_config : HostConfig; user : string; working_dir : string }.

Record DockerOps {D : Type} := mkDocker {
  connect : D -> Result unit string * D;
  inspect_image : string -> D -> bool;
  create_image : string -> D -> list (Result unit string) * D;
  create_container : string -> ContainerConfig -> D -> Result string string * D;
  start_container : string -> D -> Result unit string * D;
  stop_container : string -> Z -> D -> Result unit string * D;
  remove_container : string -> D -> Result unit string * D;
}.
Arguments DockerOps D : clear implicits.
Inductive DockerCall :=
| CallPull (image : string) | CallCreate (name : string) (c : ContainerConfig) | CallStart (id : string)
| CallStop (id : string) (grace : Z) | CallRemove (id : string).

(** [ContainerJobManager]: its maps, the cached connection, the Docker daemon with the calls made, the file system. *)
Record JobManager {D : Type} := mkJobManager {
  token_store : TokenStore; containers : gmap Uuid ContainerHandle; connected : bool;
  daemon : D; calls : list DockerCall; fs : Env }.
Arguments JobManager D : clear implicits.

Section JobManager.
Context {D : Type} (docker : DockerOps D) (config : ContainerJobConfig).
(** The platform, the home directory, [OPENCODE_MODEL_DEFAULT], the text of an
    I/O error and of a job id. *)
Context (linux : bool) (home_dir : option Path) (opencode_model : option string)
  (io_show : IoError -> string) (uuid_show : Uuid -> string).
Abbreviation M := (JobManager D).

Definition with_tokens (f : TokenStore -> TokenStore) (m : M) : M :=
  mkJobManager _ (f (token_store m)) (containers m) (connected m) (daemon m) (calls m) (fs m).
Definition with_containers (f : gmap Uuid ContainerHandle -> gmap Uuid ContainerHandle) (m : M) : M :=
  mkJobManager _ (token_store m) (f (containers m)) (connected m) (daemon m) (calls m) (fs m).
Definition with_fs (e : Env) (m : M) : M :=
  mkJobManager _ (token_store m) (containers m) (connected m) (daemon m) (calls m) e.
Definition called (c : DockerCall) (d : D) (m : M) : M :=
  mkJobManager _ (token_store m) (containers m) (connected m) d (calls m ++ [c]) (fs m).
Definition new_manager (ts : TokenStore) (d : D) (e : Env) : M := mkJobManager _ ts ∅ false d [] e.

Definition claude_code_available : bool :=
  let present o := match o with Some v => negb (is_empty (trim v)) | None => false end in
  present (claude_code_api_key config) || present (claude_code_oauth_token config).

(** [docker()]: the cached connection or a new one. *)
Definition get_docker (m : M) : Result unit OrchestratorError * M :=
  if connected m then (Ok tt, m)
  else match connect docker (daemon m) with
       | (Ok _, d) => (Ok tt, mkJobManager _ (token_store m) (containers m) true d (calls m) (fs m))
       | (Err e, d) => (Err (DockerError e), mkJobManager _ (token_store m) (containers m) false d (calls m) (fs m))
       end.

Definition first_err {A} (l : list (Result A string)) : option string :=
  foldr (fun r o => match r with Err e => Some e | Ok _ => o end) None l.
Definition ensure_image_ready (job_id : Uuid) (m : M) : Result unit OrchestratorError * M :=
  if inspect_image docker (image config) (daemon m) then (Ok tt, m)
  else if negb (auto_pull_image config)
  then (Err (ContainerCreationFailed job_id
         ("docker image " ++s image config ++s " not found and sandbox.auto_pull_image is disabled")), m)
  else
    let '(stream, d) := create_image docker (image config) (daemon m) in
    (match first_err stream with
     | Some e => Err (ContainerCreationFailed job_id ("failed to pull docker image " ++s image config ++s ": " ++s e))
     | None => Ok tt
     end, called (CallPull (image config)) d m).

Definition validate_bind_mount_path (dir : Path) (job_id : Uuid) (e : Env) : Result Path OrchestratorError * Env :=
  let fail reason := Err (ContainerCreationFailed job_id reason) in
  match resolve e dir with
  | Err x => (fail ("failed to canonicalize project dir " ++s path_display dir ++s ": " ++s io_show x), e)
  | Ok q =>
      let canonical := phys q in
      match home_dir with
      | None => (fail "could not determine home directory for path validation"%string, e)
      | Some home =>
          let projects_base := join (join home [Normal ".ironclaw"]) [Normal "projects"] in
          match create_dir_all (length projects_base) e projects_base with
          | (Err x, e) => (fail ("failed to create projects base " ++s path_display projects_base ++s ": " ++s io_show x), e)
          | (Ok _, e) =>
              match resolve e projects_base with
              | Err x => (fail ("failed to canonicalize projects base " ++s path_display projects_base ++s ": " ++s io_show x), e)
              | Ok b =>
                  let canonical_base := phys b in
                  if negb (path_starts_with canonical canonical_base)
                  then (fail ("project directory " ++s path_display canonical ++s " is outside allowed base "
                               ++s path_display canonical_base), e)
                  else (Ok canonical, e)
              end
          end
      end
  end.

(** The parts of [create_job_inner] that only compute. *)
Definition orchestrator_url : string :=
  "http://" ++s (if linux then "172.17.0.1" else "host.docker.internal") ++s ":" ++s pretty (orchestrator_port config).
Definition base_env (job_id : Uuid) (token : string) : list string :=
  ["IRONCLAW_WORKER_TOKEN=" ++s token; "IRONCLAW_JOB_ID=" ++s uuid_show job_id;
   "IRONCLAW_ORCHESTRATOR_URL=" ++s orchestrator_url].
Definition join_with (sep : string) (l : list string) : string :=
  match l with [] => EmptyString | x :: l => foldl (fun acc y => acc ++s sep ++s y) x l end.
Definition opencode_default : option string :=
  match opencode_model with Some m => if is_empty (trim m) then None else Some m | None => None end.
Definition mode_env (md : JobMode) : list string :=
  match md with
  | ClaudeCode =>
      match claude_code_api_key config, claude_code_oauth_token config with
      | Some api_key, _ => ["ANTHROPIC_API_KEY=" ++s api_key]
      | None, Some oauth_token => ["CLAUDE_CODE_OAUTH_TOKEN=" ++s oauth_token]
      | None, None => []
      end ++
      match claude_code_allowed_tools config with
      | [] => []
      | ts => ["CLAUDE_CODE_ALLOWED_TOOLS=" ++s join_with "," ts]
      end
  | OpenCode =>
      "CODING_RUNTIME=opencode"%string ::
      match opencode_default with Some m => ["OPENCODE_MODEL=" ++s m] | None => [] end
  | Worker => []
  end.
Definition memory_mb (md : JobMode) : Z :=
  match md with
  | ClaudeCode | OpenCode => claude_code_memory_limit_mb config
  | Worker => memory_limit_mb config
  end.
Definition memory_bytes (md : JobMode) : Z := as_i64 (wrap 64 (wrap 64 (memory_mb md * 1024) * 1024)).
Definition build_cmd (job_id : Uuid) (md : JobMode) : list string :=
  let head c := [c; "--job-id"%string; uuid_show job_id; "--orchestrator-url"%string; orchestrator_url] in
  let turns := ["--max-turns"%string; pretty (claude_code_max_turns config); "--model"%string] in
  match md with
  | Worker => head "worker"%string
  | ClaudeCode => head "claude-bridge"%string ++ turns ++ [claude_code_model config]
  | OpenCode => head "opencode-bridge"%string ++ turns ++ [default "openai/gpt-4.1-mini"%string opencode_default]
  end.
Definition container_name (job_id : Uuid) (md : JobMode) : string :=
  match md with
  | Worker => "ironclaw-worker-" | ClaudeCode => "ironclaw-claude-" | OpenCode => "ironclaw-opencode-"
  end ++s uuid_show job_id.
Definition container_config (job_id : Uuid) (token : string) (mount : option Path) (md : JobMode) : ContainerConfig :=
  mkContainer (image config) (build_cmd job_id md)
    (base_env job_id token ++ match mount with Some _ => ["IRONCLAW_WORKSPACE=/workspace"%string] | None => [] end ++ mode_env md)
    (mkHost (match mount with Some p => Some [path_display p ++s ":/workspace:rw"] | None => None end)
       (memory_bytes md) (cfg_cpu_shares config) "bridge" ["host.docker.internal:host-gateway"%string]
       ["ALL"%string] ["CHOWN"%string] ["no-new-privileges:true"%string] [("/tmp", "size=512M")%string])
    "1000:1000" "/workspace".

(** [create_job_inner] up to the start of the container; its last step records the container. *)
Definition launch (job_id : Uuid) (token : string) (dir : option Path) (md : JobMode) (m : M)
  : Result string OrchestratorError * M :=
  match get_docker m with
  | (Err e, m) => (Err e, m)
  | (Ok _, m) =>
  match ensure_image_ready job_id m with
  | (Err e, m) => (Err e, m)
  | (Ok _, m) =>
  match (match dir with
         | None => (Ok None, m)
         | Some d => let '(r, e) := validate_bind_mount_path d job_id (fs m) in
                     (match r with Ok p => Ok (Some p) | Err x => Err x end, with_fs e m)
         end) with
  | (Err e, m) => (Err e, m)
  | (Ok mount, m) =>
      let name := container_name job_id md in
      let cc := container_config job_id token mount md in
      let '(r, d) := create_container docker name cc (daemon m) in
      let m := called (CallCreate name cc) d m in
      match r with
      | Err e => (Err (ContainerCreationFailed job_id e), m)
      | Ok id =>
          let '(r, d) := start_container docker id (daemon m) in
          let m := called (CallStart id) d m in
          match r with
          | Err e => (Err (ContainerCreationFailed job_id ("failed to start container: " ++s e)), m)
          | Ok _ => (Ok id, m)
          end
      end
  end end end.
Definition set_state (s : ContainerState) (h : ContainerHandle) : ContainerHandle :=
  mkHandle (h_job_id h) (container_id h) s (mode h) (created_at h) (project_dir h) (task_description h)
    (last_worker_status h) (worker_iteration h) (completion_result h).
Definition set_container (id : string) (h : ContainerHandle) : ContainerHandle :=
  mkHandle (h_job_id h) id Running (mode h) (created_at h) (project_dir h) (task_description h)
    (last_worker_status h) (worker_iteration h) (completion_result h).
Definition record_container (job_id : Uuid) (id : string) : M -> M := with_containers (alter (set_container id) job_id).
Definition create_job_inner (job_id : Uuid) (token : string) (dir : option Path) (md : JobMode) (m : M)
  : Result unit OrchestratorError * M :=
  match launch job_id token dir md m with
  | (Err e, m) => (Err e, m)
  | (Ok id, m) => (Ok tt, record_container job_id id m)
  end.

(** What [create_job] records before the container exists, and what it undoes on failure. *)
Definition new_handle (job_id : Uuid) (task : string) (dir : option Path) (md : JobMode) (now : DateTime) : ContainerHandle :=
  mkHandle job_id EmptyString Creating md now dir task None 0 None.
Definition begin_job (bytes : list Z) (now : DateTime) (job_id : Uuid) (task : string) (dir : option Path) (md : JobMode)
    (grants : list CredentialGrant) (m : M) : string * M :=
  let '(token, ts) := create_token bytes job_id (token_store m) in
  let m := with_tokens (fun _ => store_grants job_id grants ts) m in
  (token, with_containers (<[job_id := new_handle job_id task dir md now]>) m).
Definition abandon_job (job_id : Uuid) (m : M) : M := with_containers (delete job_id) (with_tokens (revoke job_id) m).
Definition create_job (bytes : list Z) (now : DateTime) (job_id : Uuid) (task : string) (dir : option Path) (md : JobMode)
    (grants : list CredentialGrant) (m : M) : Result string OrchestratorError * M :=
  let '(token, m) := begin_job bytes now job_id task dir md grants m in
  match create_job_inner job_id token dir md m with
  | (Ok _, m) => (Ok token, m)
  | (Err e, m) => (Err e, abandon_job job_id m)
  end.

(** Stopping and removing a container; failures are only logged. *)
Definition stop_and_remove (id : string) (grace : Z) (m : M) : M :=
  let m := called (CallStop id grace) (stop_container docker id grace (daemon m)).2 m in
  called (CallRemove id) (remove_container docker id (daemon m)).2 m.
Definition stop_job (job_id : Uuid) (m : M) : Result unit OrchestratorError * M :=
  match containers m !! job_id with
  | None => (Err (ContainerNotFound job_id), m)
  | Some h =>
      if is_empty (container_id h)
      then (Err (InvalidContainerState job_id "creating (no container ID yet)"), m)
      else match get_docker m with
           | (Err e, m) => (Err e, m)
           | (Ok _, m) =>
               let m := stop_and_remove (container_id h) 10 m in
               let m := with_containers (alter (set_state Stopped) job_id) m in
               (Ok tt, with_tokens (revoke job_id) m)
           end
  end.
Definition set_completed (r : CompletionResult) (h : ContainerHandle) : ContainerHandle :=
  mkHandle (h_job_id h) (container_id h) Stopped (mode h) (created_at h) (project_dir h) (task_description h)
    (last_worker_status h) (worker_iteration h) (Some r).
Definition complete_job (job_id : Uuid) (r : CompletionResult) (m : M) : M :=
  let m := with_containers (alter (set_completed r) job_id) m in
  let m := match containers m !! job_id with
           | Some h =>
               if is_empty (container_id h) then m
               else match get_docker m with
                    | (Ok _, m) => stop_and_remove (container_id h) 5 m
                    | (Err _, m) => m
                    end
           | None => m
           end in
  with_tokens (revoke job_id) m.
Definition cleanup_job (job_id : Uuid) : M -> M := with_containers (delete job_id).
Definition set_worker_status (message : option string) (iteration : Z) (h : ContainerHandle) : ContainerHandle :=
  mkHandle (h_job_id h) (container_id h) (state h) (mode h) (created_at h) (project_dir h) (task_description h)
    message iteration (completion_result h).
Definition update_worker_status (job_id : Uuid) (message : option string) (iteration : Z) : M -> M :=
  with_containers (alter (set_worker_status message iteration) job_id).
Definition get_handle (job_id : Uuid) (m : M) : option ContainerHandle := containers m !! job_id.
Definition list_jobs (m : M) : list ContainerHandle := (map_to_list (containers m)).*2.
End JobManager.

(** ** Tokens *)
Definition is_byte (b : Z) : Prop := 0 <= b < 256.
Lemma hex_digit_inj d e : 0 <= d < 16 -> 0 <= e < 16 -> hex_digit d = hex_digit e -> d = e.
Proof.
  intros Hd He H. apply (f_equal nat_of_ascii) in H. unfold hex_digit, chr in H.
  destruct (Z.ltb_spec d 10), (Z.ltb_spec e 10); rewrite !nat_ascii_embedding in H by lia; lia.
Qed.
Lemma generate_snoc l b : generate_token (l ++ [b]) = push_hex (generate_token l) b.
Proof. unfold generate_token. by rewrite foldl_app. Qed.
Lemma generate_token_length l : String.length (generate_token l) = (2 * length l)%nat.
Proof.
  induction l as [|b l IH] using rev_ind; [done|]. rewrite generate_snoc. unfold push_hex.
  rewrite append_length_str, IH, length_app. cbn. lia.
Qed.
Lemma push_hex_inj s t b c :
  is_byte b -> is_byte c -> String.length s = String.length t -> push_hex s b = push_hex t c -> s = t /\ b = c.
Proof.
  intros Hb Hc. unfold push_hex, is_byte in *. revert t. induction s as [|x s IH]; intros [|y t] Hl H; try done.
  - injection H as H1 H2. split; [done|].
    apply hex_digit_inj in H1; [|split; [apply Z.div_pos; lia|apply Z.div_lt_upper_bound; lia]..].
    apply hex_digit_inj in H2; [|apply Z.mod_pos_bound; lia..].
    rewrite (Z.div_mod b 16), (Z.div_mod c 16) by lia. congruence.
  - injection H as -> H. apply IH in H as [-> ->]; [done|]. cbn in Hl. lia.
Qed.
Lemma generate_token_inj l k :
  length l = length k -> Forall is_byte l -> Forall is_byte k -> generate_token l = generate_token k -> l = k.
Proof.
  revert k. induction l as [|b l IH] using rev_ind; intros k; [by destruct k|].
  destruct k as [|c k _] using rev_ind; [rewrite length_app; cbn; lia|].
  rewrite !length_app, !Forall_app, !generate_snoc. cbn. intros Hl [Hl1 [Hb _]%Forall_cons] [Hk1 [Hc _]%Forall_cons] H.
  apply push_hex_inj in H as [H ->]; [|done|done|rewrite !generate_token_length; lia].
  f_equal. apply IH; [lia|done|done|done].
Qed.

(** Tokens made from different random bytes are 64 characters long and
    different, so the token of one job opens no other. *)
Theorem tokens_scoped (b1 b2 : list Z) (j1 j2 : Uuid) (ts : TokenStore) :
  length b1 = 32%nat -> length b2 = 32%nat -> Forall is_byte b1 -> Forall is_byte b2 -> b1 <> b2 -> j1 <> j2 ->
  let '(t1, ts1) := create_token b1 j1 ts in
  let '(t2, ts2) := create_token b2 j2 ts1 in
  String.length t1 = 64%nat
  /\ validate j1 t1 ts2 = true /\ validate j2 t2 ts2 = true
  /\ validate j1 t2 ts2 = false /\ validate j2 t1 ts2 = false
  /\ (forall t, validate j1 t (revoke j1 ts2) = false) /\ validate j2 t2 (revoke j1 ts2) = true.
Proof.
  intros H1 H2 Hb1 Hb2 Hb Hj. cbn.
  assert (Ht : generate_token b1 <> generate_token b2) by (intros E; apply generate_token_inj in E; congruence).
  unfold validate, revoke. cbn.
  rewrite generate_token_length, H1, lookup_insert_eq, lookup_insert_ne, lookup_insert_eq by done.
  rewrite !String.eqb_refl, !(proj2 (String.eqb_neq _ _)) by congruence.
  split_and!; try done; [intros t; by rewrite lookup_delete_eq|].
  by rewrite lookup_delete_ne, lookup_insert_eq, String.eqb_refl.
Qed.

(** ** What launching a container does *)
Section Proofs.
Context {D : Type} (docker : DockerOps D) (config : ContainerJobConfig).
Context (linux : bool) (home_dir : option Path) (opencode_model : option string)
  (io_show : IoError -> string) (uuid_show : Uuid -> string).
Abbreviation M := (JobManager D).
Abbreviation launch := (launch docker config linux home_dir opencode_model io_show uuid_show).
Abbreviation create_job := (create_job docker config linux home_dir opencode_model io_show uuid_show).
Abbreviation container_config := (container_config config linux opencode_model uuid_show).

(** The maps stay, and Docker is called as [P] allows. *)
Definition asks (P : list DockerCall -> Prop) (m m' : M) : Prop :=
  token_store m' = token_store m /\ containers m' = containers m /\ exists new, calls m' = calls m ++ new /\ P new.
Lemma asks_refl (P : list DockerCall -> Prop) m : P [] -> asks P m m.
Proof. intros HP. split_and!; [done|done|]. exists []. by rewrite app_nil_r. Qed.
Lemma get_docker_asks m r m' : get_docker docker m = (r, m') -> asks (eq []) m m' /\ fs m' = fs m.
Proof.
  unfold get_docker. destruct (connected m); [|destruct (connect docker (daemon m)) as [[]]];
    intros [= <- <-]; (split; [apply asks_refl|]; done) || (split; [split_and!; [done|done|exists []; by rewrite app_nil_r]|done]).
Qed.
Definition only_pulls (l : list DockerCall) : Prop := Forall (fun c => match c with CallPull _ => True | _ => False end) l.
Lemma ensure_image_asks j m r m' : ensure_image_ready docker config j m = (r, m') -> asks only_pulls m m' /\ fs m' = fs m.
Proof.
  unfold ensure_image_ready. destruct (inspect_image _ _ _); [intros [= <- <-]; split; [by apply asks_refl; constructor|done]|].
  destruct (negb _); [intros [= <- <-]; split; [by apply asks_refl; constructor|done]|].
  destruct (create_image _ _ _) as [st d]. intros [= <- <-]. split; [|done].
  split_and!; [done|done|]. eexists. split; [done|]. by repeat constructor.
Qed.

(** The project directory that is mounted: a physical path under the projects directory of the home directory. *)
Definition mountable (p : Path) (e e' : Env) (dir : Path) : Prop :=
  exists home q b, home_dir = Some home /\ resolve e dir = Ok q /\ p = phys q
    /\ resolve e' (join (join home [Normal ".ironclaw"]) [Normal "projects"]) = Ok b /\ b `prefix_of` q.
Lemma prefix_phys (b q : Loc) : phys b `prefix_of` phys q -> b `prefix_of` q.
Proof.
  unfold phys. intros [k H]. injection H as H. revert q H. induction b as [|x b IH]; intros q H; [apply prefix_nil|].
  destruct q as [|y q]; [done|]. injection H as -> H. by apply prefix_cons, IH.
Qed.
Lemma validate_bind_mount_spec dir j e r e' :
  validate_bind_mount_path home_dir io_show dir j e = (r, e') ->
  match r with Ok p => mountable p e e' dir | Err x => exists why, x = ContainerCreationFailed j why end.
Proof.
  unfold validate_bind_mount_path, mountable. destruct (resolve e dir) as [q|]; [|intros [= <- <-]; eauto].
  destruct home_dir as [home|]; [|intros [= <- <-]; eauto].
  destruct (create_dir_all _ _ _) as [[|] e1]; [|intros [= <- <-]; eauto].
  destruct (resolve e1 _) as [b|] eqn:Eb; [|intros [= <- <-]; eauto].
  destruct (path_starts_with _ _) eqn:Ep; cbn [negb]; intros [= <- <-]; [|eauto].
  apply bool_decide_eq_true in Ep. exists home, q, b. split_and!; try done. by apply prefix_phys.
Qed.

(** Docker is asked for at most one container, whose configuration is the
    computed one, and it is started only after it was created. *)
Definition launch_calls (j : Uuid) (token : string) (dir : option Path) (md : JobMode) (e : Env)
    (r : Result string OrchestratorError) (new : list DockerCall) : Prop :=
  exists pulls rest, new = pulls ++ rest /\ only_pulls pulls /\
    match rest with
    | [] => exists x, r = Err x
    | CallCreate name cc :: rest =>
        (exists mount, name = container_name uuid_show j md /\ cc = container_config j token mount md
           /\ match dir, mount with
              | None, None => True
              | Some d, Some p => exists e', mountable p e e' d
              | _, _ => False
              end)
        /\ match rest with
           | [] => exists x, r = Err (ContainerCreationFailed j x)
           | [CallStart id] => r = Ok id \/ exists x, r = Err (ContainerCreationFailed j x)
           | _ => False
           end
    | _ => False
    end.
Lemma launch_spec j token dir md m r m' :
  launch j token dir md m = (r, m') -> asks (launch_calls j token dir md (fs m) r) m m'.
Proof.
  unfold Containers.launch. destruct (get_docker docker m) as [r1 m1] eqn:E1.
  apply get_docker_asks in E1 as ((H1 & H2 & n1 & H3 & <-) & Hf1). rewrite app_nil_r in H3.
  assert (Hnil : forall x l, only_pulls l -> launch_calls j token dir md (fs m) (Err x) l).
  { intros x l Hl. exists l, []. rewrite app_nil_r. eauto. }
  destruct r1 as [_|x]; [|intros [= <- <-]; split_and!; [done|done|exists []; rewrite app_nil_r; split; [done|by apply Hnil; constructor]]].
  destruct (ensure_image_ready docker config j m1) as [r2 m2] eqn:E2.
  apply ensure_image_asks in E2 as ((H4 & H5 & n2 & H6 & Hp) & Hf2).
  rewrite H1 in H4. rewrite H2 in H5. rewrite H3 in H6. rewrite Hf1 in Hf2.
  destruct r2 as [_|x]; [|intros [= <- <-]; split_and!; [done|done|exists n2; split; [done|by apply Hnil]]].
  set (mounted := match dir with None => _ | Some d => _ end).
  assert (Hm : asks (eq []) m2 mounted.2 /\
    match mounted.1 with
    | Ok mount => match dir, mount with None, None => True | Some d, Some p => exists e', mountable p (fs m2) e' d | _, _ => False end
    | Err x => exists why, x = ContainerCreationFailed j why end).
  { subst mounted. destruct dir as [d|]; [|split; [by apply asks_refl|done]].
    destruct (validate_bind_mount_path home_dir io_show d j (fs m2)) as [rv ev] eqn:Ev.
    apply validate_bind_mount_spec in Ev. cbn. split; [split_and!; [done|done|exists []; by rewrite app_nil_r]|].
    destruct rv; [by exists ev|done]. }
  clearbody mounted. destruct mounted as [rm m3]. cbn [fst snd] in Hm. destruct Hm as [(H7 & H8 & n3 & H9 & <-) Hm].
  rewrite app_nil_r in H9. rewrite H4 in H7. rewrite H5 in H8. rewrite H6 in H9. rewrite Hf2 in Hm.
  destruct rm as [mount|x]; [|intros [= <- <-]; split_and!; [done|done|exists n2; split; [done|by apply Hnil]]].
  destruct (create_container docker _ _ _) as [rc d1]. destruct rc as [id|x].
  2:{ intros [= <- <-]. split_and!; [done|done|]. exists (n2 ++ [CallCreate (container_name uuid_show j md) (container_config j token mount md)]).
      cbn. rewrite H9, <-app_assoc. split; [done|]. exists n2, [CallCreate (container_name uuid_show j md) (container_config j token mount md)].
      split_and!; [done|done|exists mount; done|eauto]. }
  cbn [daemon called]. destruct (start_container docker id d1) as [rs d2].
  assert (Hcalls : forall rr, (rr = Ok id \/ exists x, rr = Err (ContainerCreationFailed j x)) ->
    launch_calls j token dir md (fs m) rr (n2 ++ [CallCreate (container_name uuid_show j md) (container_config j token mount md); CallStart id])).
  { intros rr Hr. exists n2, [CallCreate (container_name uuid_show j md) (container_config j token mount md); CallStart id].
    split_and!; [done|done|exists mount; done|done]. }
  destruct rs; intros [= <- <-]; (split_and!; [done|done|]); eexists; (split; [cbn; rewrite H9, <-!app_assoc; reflexivity|apply Hcalls; eauto]).
Qed.

(** ** Creating a job *)
Lemma begin_job_spec bytes now j task dir md grants (m : M) :
  let '(token, m1) := begin_job bytes now j task dir md grants m in
  token = generate_token bytes /\ calls m1 = calls m /\ fs m1 = fs m
  /\ tokens (token_store m1) = <[j := token]> (tokens (token_store m))
  /\ credential_grants (token_store m1) =
       match grants with [] => credential_grants (token_store m) | _ => <[j := grants]> (credential_grants (token_store m)) end
  /\ containers m1 = <[j := new_handle j task dir md now]> (containers m).
Proof. cbn. by destruct grants. Qed.

(** The entries of the three maps for one job. *)
Definition entries (j : Uuid) (m : M) : option string * option (list CredentialGrant) * option ContainerHandle :=
  (tokens (token_store m) !! j, credential_grants (token_store m) !! j, containers m !! j).
Lemma asks_entries P m m' j : asks P m m' -> entries j m' = entries j m.
Proof. intros (H1 & H2 & _). unfold entries. by rewrite H1, H2. Qed.
Lemma begin_entries bytes now j task dir md grants (m : M) k :
  let m1 := (begin_job bytes now j task dir md grants m).2 in
  entries k m1 = if decide (k = j)
    then (Some (generate_token bytes),
          match grants with [] => credential_grants (token_store m) !! j | _ => Some grants end,
          Some (new_handle j task dir md now))
    else entries k m.
Proof.
  unfold entries. cbn. destruct (decide (k = j)) as [->|Hk]; [rewrite !lookup_insert_eq|rewrite !lookup_insert_ne by done];
    destruct grants; cbn; rewrite ?lookup_insert_eq, ?lookup_insert_ne by done; done.
Qed.
Lemma abandon_entries j k (m : M) : entries k (abandon_job j m) = if decide (k = j) then (None, None, None) else entries k m.
Proof.
  unfold entries. cbn. destruct (decide (k = j)) as [->|Hk]; [by rewrite !lookup_delete_eq|by rewrite !lookup_delete_ne by done].
Qed.

Lemma create_job_post bytes now j task dir md grants (m m' : M) (r : Result string OrchestratorError) :
  create_job bytes now j task dir md grants m = (r, m') ->
  (forall k, k <> j -> entries k m' = entries k m)
  /\ match r with
     | Err _ => entries j m' = (None, None, None)
     | Ok token =>
         token = generate_token bytes /\ validate j token (token_store m') = true
         /\ (grants <> [] -> get_grants j (token_store m') = Some grants)
         /\ exists id, containers m' !! j = Some (set_container id (new_handle j task dir md now))
     end.
Proof.
  unfold Containers.create_job. pose proof (begin_entries bytes now j task dir md grants m) as Hb.
  pose proof (begin_job_spec bytes now j task dir md grants m) as Hs.
  destruct (begin_job bytes now j task dir md grants m) as [token m1]. cbn [snd] in Hb. destruct Hs as (-> & _).
  unfold create_job_inner. destruct (launch j _ dir md m1) as [[id|x] m2] eqn:El; apply launch_spec in El; intros [= <- <-].
  - assert (Hk : forall k, entries k m2 = entries k m1) by (intros; by eapply asks_entries).
    assert (Hr : forall k, k <> j -> entries k (record_container j id m2) = entries k m2).
    { intros k Hk'. unfold entries. cbn. by rewrite lookup_alter_ne by done. }
    split; [intros k Hk'; by rewrite Hr, Hk, Hb, decide_False by done|].
    specialize (Hk j). rewrite Hb, decide_True in Hk by done. unfold entries in Hk. injection Hk as H1 H2 H3.
    split_and!; [done| | |].
    + unfold validate. cbn. by rewrite H1, String.eqb_refl.
    + intros Hg. unfold get_grants. cbn. rewrite H2. by destruct grants.
    + exists id. cbn. by rewrite lookup_alter_eq, H3.
  - split; [intros k Hk|]; rewrite abandon_entries; [|by rewrite decide_True].
    by rewrite decide_False, (asks_entries _ _ _ _ El), Hb, decide_False by done.
Qed.

(** Creating a job either fails and leaves nothing of the job behind (no token,
    no grant, no handle), or returns the token that opens the job's endpoints,
    with the handle of a running container and the grants in place.  In both
    cases every other job keeps its token, its grants and its handle. *)
Theorem create_job_spec bytes now j task dir md grants (m m' : M) (r : Result string OrchestratorError) :
  create_job bytes now j task dir md grants m = (r, m') ->
  (forall k, k <> j -> entries k m' = entries k m)
  /\ match r with
     | Err _ => entries j m' = (None, None, None)
     | Ok token =>
         token = generate_token bytes /\ validate j token (token_store m') = true
         /\ (grants <> [] -> get_grants j (token_store m') = Some grants)
         /\ exists id, containers m' !! j = Some (set_container id (new_handle j task dir md now))
     end.
Proof. apply create_job_post. Qed.


(** ** The life of a job *)
Lemma stop_and_remove_asks id grace (m : M) :
  asks (eq [CallStop id grace; CallRemove id]) m (stop_and_remove docker id grace m).
Proof. split_and!; [done|done|]. eexists. split; [|reflexivity]. cbn. by rewrite <-app_assoc. Qed.
Definition revoked (e : option string * option (list CredentialGrant) * option ContainerHandle) (f : ContainerHandle -> ContainerHandle)
  : option string * option (list CredentialGrant) * option ContainerHandle := (None, None, f <$> e.2).
Lemma revoke_alter_entries (f : ContainerHandle -> ContainerHandle) j k (m : M) :
  entries k (with_tokens (revoke j) (with_containers (alter f j) m))
    = if decide (k = j) then revoked (entries k m) f else entries k m.
Proof.
  unfold entries, revoked. cbn. destruct (decide (k = j)) as [->|Hk];
    [by rewrite !lookup_delete_eq, lookup_alter_eq|by rewrite !lookup_delete_ne, lookup_alter_ne by done].
Qed.
Lemma asks_revoke P j k (m1 m2 : M) :
  asks P m1 m2 -> entries k (with_tokens (revoke j) m2) = entries k (with_tokens (revoke j) m1).
Proof. intros (H1 & H2 & _). unfold entries. cbn. by rewrite H1, H2. Qed.
Lemma stop_job_entries j (m m' : M) r :
  stop_job docker j m = (r, m') ->
  forall k, entries k m' = if decide (k = j) then (if is_ok r then revoked (entries k m) (set_state Stopped) else entries k m) else entries k m.
Proof.
  unfold stop_job. intros H k.
  assert (Hsame : forall m1, entries k m1 = entries k m -> entries k m1 = if decide (k = j) then entries k m else entries k m)
    by (intros; by destruct (decide (k = j))).
  destruct (containers m !! j) as [h|]; [|injection H as <- <-; by apply Hsame].
  destruct (is_empty (container_id h)); [injection H as <- <-; by apply Hsame|].
  destruct (get_docker docker m) as [[[]|x] m1] eqn:Ed; apply get_docker_asks in Ed as [Ed _]; apply (asks_entries _ _ _ k) in Ed;
    injection H as <- <-; [|by apply Hsame].
  rewrite revoke_alter_entries. cbn [is_ok]. by rewrite (asks_entries _ _ _ k (stop_and_remove_asks (container_id h) 10 m1)), Ed.
Qed.
Lemma complete_job_entries j r (m : M) k :
  entries k (complete_job docker j r m) = if decide (k = j) then revoked (entries k m) (set_completed r) else entries k m.
Proof.
  rewrite <-(revoke_alter_entries (set_completed r) j k m). unfold complete_job.
  set (m1 := with_containers _ m). apply (asks_revoke (fun _ => True)).
  destruct (containers m1 !! j) as [h|]; [|by apply asks_refl].
  destruct (is_empty (container_id h)); [by apply asks_refl|].
  destruct (get_docker docker m1) as [[[]|x] m2] eqn:Ed; apply get_docker_asks in Ed as [(H1 & H2 & n & H3 & _) _].
  - destruct (stop_and_remove_asks (container_id h) 5 m2) as (H4 & H5 & n' & H6 & _).
    split_and!; [congruence|congruence|]. exists (n ++ n'). by rewrite H6, H3, app_assoc.
  - split_and!; [done|done|]. by exists n.
Qed.

(** The operations on the manager, one at a time. *)
Inductive ManagerOp :=
| OpCreate (bytes : list Z) (now : DateTime) (j : Uuid) (task : string) (dir : option Path) (md : JobMode) (grants : list CredentialGrant)
| OpStop (j : Uuid)
| OpComplete (j : Uuid) (r : CompletionResult)
| OpCleanup (j : Uuid)
| OpStatus (j : Uuid) (message : option string) (iteration : Z).
Definition run_op (o : ManagerOp) (m : M) : M :=
  match o with
  | OpCreate bytes now j task dir md grants => (create_job bytes now j task dir md grants m).2
  | OpStop j => (stop_job docker j m).2
  | OpComplete j r => complete_job docker j r m
  | OpCleanup j => cleanup_job j m
  | OpStatus j message iteration => update_worker_status j message iteration m
  end.

(** The grants of a job exist only with its token; a handle is running with a
    token or stopped without one, and a job with a result is stopped. *)
Definition job_ok (j : Uuid) (e : option string * option (list CredentialGrant) * option ContainerHandle) : Prop :=
  let '(token, grants, handle) := e in
  (is_Some grants -> is_Some token)
  /\ forall h, handle = Some h ->
       h_job_id h = j /\ (state h = Running /\ is_Some token \/ state h = Stopped /\ token = None)
       /\ (is_Some (completion_result h) -> state h = Stopped).
Definition manager_ok (m : M) : Prop := forall j, job_ok j (entries j m).

Lemma revoked_ok j e f :
  job_ok j e -> (forall h, h_job_id (f h) = h_job_id h) -> (forall h, state (f h) = Stopped) -> job_ok j (revoked e f).
Proof.
  destruct e as [[t g] h]. intros [_ H] Hf Hs. split; [intros []; done|]. cbn. intros h' Hh.
  destruct h as [h|]; [|done]. injection Hh as <-. destruct (H h eq_refl) as (Hj & _). rewrite Hf, Hs. split_and!; auto.
Qed.
Lemma run_op_ok o m : manager_ok m -> manager_ok (run_op o m).
Proof.
  intros Hm k. specialize (Hm k). destruct o as [bytes now j task dir md grants|j|j r|j|j msg it]; cbn [run_op].
  - destruct (create_job bytes now j task dir md grants m) as [r m'] eqn:E. cbn [snd].
    destruct (create_job_post _ _ _ _ _ _ _ _ _ _ E) as [Hk Hr]. destruct (decide (k = j)) as [->|Hj]; [|by rewrite Hk].
    destruct r as [token|x]; [|rewrite Hr; split; [by intros []|done]].
    destruct Hr as (_ & Hv & _ & id & Hh). unfold entries. rewrite Hh. unfold validate in Hv.
    destruct (tokens (token_store m') !! j); [|done]. split; [eauto|]. intros h [= <-]. cbn. split_and!; [done|left; eauto|by intros []].
  - destruct (stop_job docker j m) as [r m'] eqn:E. cbn [snd]. rewrite (stop_job_entries _ _ _ _ E).
    destruct (decide (k = j)); [|done]. destruct (is_ok r); [by apply revoked_ok|done].
  - rewrite complete_job_entries. destruct (decide (k = j)); [by apply revoked_ok|done].
  - unfold entries in *. cbn. destruct (decide (k = j)) as [->|Hj]; [|by rewrite lookup_delete_ne].
    rewrite lookup_delete_eq. destruct Hm as [H _]. by split.
  - unfold entries in *. cbn. destruct (decide (k = j)) as [->|Hj]; [|by rewrite lookup_alter_ne].
    rewrite lookup_alter_eq. destruct Hm as [H1 H2]. split; [done|]. intros h Hh.
    destruct (containers m !! j) as [h0|]; [|done]. injection Hh as <-. exact (H2 h0 eq_refl).
Qed.


(** ** Two containers nobody removes *)
(** A container that Docker created but could not start is forgotten: the job
    fails, its handle is gone, and Docker is not asked to remove it. *)
Theorem failed_start_leaks_container bytes now j task dir md grants (m m' : M) (x : OrchestratorError) (id : string) :
  create_job bytes now j task dir md grants m = (Err x, m') ->
  CallStart id ∈ drop (length (calls m)) (calls m') ->
  (exists name cc, CallCreate name cc ∈ drop (length (calls m)) (calls m'))
  /\ (forall id', ~ (CallRemove id' ∈ drop (length (calls m)) (calls m')))
  /\ containers m' !! j = None.
Proof.
  intros E. destruct (create_job_post _ _ _ _ _ _ _ _ _ _ E) as [_ Hj]. revert E.
  unfold Containers.create_job. pose proof (begin_job_spec bytes now j task dir md grants m) as Hs.
  destruct (begin_job bytes now j task dir md grants m) as [token m1]. destruct Hs as (-> & Hc & Hf & _).
  unfold create_job_inner. destruct (launch j _ dir md m1) as [r1 m2] eqn:El. apply launch_spec in El as (_ & _ & new & Hn & Hl).
  intros Hr. assert (calls m' = calls m ++ new) as ->.
  { rewrite <-Hc, <-Hn. destruct r1; [done|]. by injection Hr as _ <-. }
  rewrite drop_app_length. destruct Hl as (pulls & rest & -> & Hp & Hrest).
  assert (Hpull : forall c, (match c with CallPull _ => False | _ => True end) -> ~ (c ∈ pulls)).
  { intros c Hc' Hin. eapply Forall_forall in Hp; [|exact Hin]. by destruct c. }
  rewrite elem_of_app. intros [Hin|Hin]; [by apply Hpull in Hin|].
  destruct rest as [|[] rest]; try done; [by apply elem_of_nil in Hin|].
  destruct Hrest as [_ Hrest]. split; [|split].
  - do 2 eexists. apply elem_of_app. right. left.
  - intros id' [H|H]%elem_of_app; [by apply Hpull in H|].
    destruct rest as [|[] [|? ?]]; try done; set_solver.
  - unfold entries in Hj. by injection Hj.
Qed.

(** A worker that reports its result before the manager has recorded the
    container: the job is marked running again with its result set and its
    token revoked, and Docker is not asked to stop or remove the container. *)
Theorem early_completion_marked_running bytes now j task dir md grants (m m1 m2 : M) (token id : string) (r : CompletionResult) :
  begin_job bytes now j task dir md grants m = (token, m1) -> launch j token dir md m1 = (Ok id, m2) ->
  let m3 := record_container j id (complete_job docker j r m2) in
  (exists h, containers m3 !! j = Some h /\ state h = Running /\ completion_result h = Some r /\ container_id h = id)
  /\ tokens (token_store m3) !! j = None /\ calls m3 = calls m2.
Proof.
  intros Hb El. pose proof (begin_entries bytes now j task dir md grants m j) as He. rewrite Hb, decide_True in He by done.
  cbn [snd] in He. apply launch_spec in El. pose proof (asks_entries _ _ _ j El) as He2. rewrite He in He2.
  assert (Hh : containers m2 !! j = Some (new_handle j task dir md now)) by (unfold entries in He2; by injection He2).
  pose proof (complete_job_entries j r m2 j) as He3. rewrite decide_True, He2 in He3 by done.
  unfold entries in He3. injection He3 as Ht _ Hc.
  assert (Hcalls : calls (complete_job docker j r m2) = calls m2).
  { unfold complete_job. cbn [containers with_containers]. by rewrite lookup_alter_eq, Hh. }
  cbn zeta. split_and!; [|done|done].
  eexists. unfold record_container, with_containers. cbn. rewrite lookup_alter_eq, Hc. by split_and!.
Qed.
End Proofs.

(** ** Witnesses *)
Definition demo_docker (starts : bool) : DockerOps unit := {|
  connect d := (Ok tt, d); inspect_image _ _ := true; create_image _ d := ([], d);
  create_container name _ d := (Ok ("id-of-" ++s name), d);
  start_container _ d := (if starts then Ok tt else Err "no such image"%string, d);
  stop_container _ _ d := (Ok tt, d); remove_container _ d := (Ok tt, d) |}.
Definition demo_home : Path := phys ["home"%string].
Definition project : Path := phys ["home"; ".ironclaw"; "projects"; "p"]%string.
Definition demo_fs : FS :=
  list_to_map [(["home"], Dir); (["home"; ".ironclaw"], Dir); (["home"; ".ironclaw"; "projects"], Dir);
               (["home"; ".ironclaw"; "projects"; "p"], Dir)]%string.
Definition demo_jobs : JobManager unit := new_manager new_tokens tt (mkEnv demo_fs []).
Definition demo_create (starts : bool) : Result string OrchestratorError * JobManager unit :=
  create_job (demo_docker starts) (default_job_config []) true (Some demo_home) None (fun _ => EmptyString) (fun _ => "job"%string)
    (replicate 32 7) 0 1%N "build" (Some project) Worker [mkGrant "github" "GITHUB_TOKEN"] demo_jobs.
Definition ones : list Z := replicate 32 1.
Definition sevens : list Z := replicate 32 7.
Lemma all_bytes (b : Z) n : is_byte b -> Forall is_byte (replicate n b).
Proof. intros. by apply Forall_replicate. Qed.

Lemma tokens_scoped_witness :
  validate 1%N (generate_token sevens) (create_token sevens 2%N (create_token ones 1%N new_tokens).2).2 = false.
Proof.
  destruct (tokens_scoped ones sevens 1%N 2%N new_tokens ltac:(reflexivity) ltac:(reflexivity)
    (all_bytes 1 32 ltac:(split; lia)) (all_bytes 7 32 ltac:(split; lia)) ltac:(discriminate) ltac:(discriminate))
    as (_ & _ & _ & H & _). exact H.
Defined.
Lemma create_job_spec_witness :
  validate 1%N (generate_token sevens) (token_store (demo_create true).2) = true
  /\ containers (demo_create false).2 !! 1%N = None.
Proof.
  split.
  - destruct (create_job_spec (demo_docker true) (default_job_config []) true (Some demo_home) None (fun _ => EmptyString)
      (fun _ => "job"%string) sevens 0 1%N "build" (Some project) Worker [mkGrant "github" "GITHUB_TOKEN"] demo_jobs
      (demo_create true).2 (Ok (generate_token sevens)) ltac:(vm_compute; reflexivity)) as [_ (_ & H & _)]. exact H.
  - vm_compute. reflexivity.
Defined.
Lemma failed_start_leaks_container_witness :
  CallStart "id-of-ironclaw-worker-job" ∈ calls (demo_create false).2
  /\ ~ (CallRemove "id-of-ironclaw-worker-job" ∈ calls (demo_create false).2).
Proof.
  assert (H : CallStart "id-of-ironclaw-worker-job" ∈ calls (demo_create false).2) by (vm_compute; right; left).
  split; [exact H|].
  exact (proj1 (proj2 (failed_start_leaks_container (demo_docker false) (default_job_config []) true (Some demo_home) None (fun _ => EmptyString)
      (fun _ => "job"%string) sevens 0 1%N "build" (Some project) Worker [mkGrant "github" "GITHUB_TOKEN"] demo_jobs
      (demo_create false).2 (ContainerCreationFailed 1%N "failed to start container: no such image") _ ltac:(vm_compute; reflexivity) H)) _).
Defined.
Lemma early_completion_marked_running_witness :
  let m1 := (begin_job sevens 0 1%N "build" (Some project) Worker [] demo_jobs).2 in
  let m2 := (launch (demo_docker true) (default_job_config []) true (Some demo_home) None (fun _ => EmptyString) (fun _ => "job"%string)
    1%N (generate_token sevens) (Some project) Worker m1).2 in
  let m3 := record_container 1%N "id-of-ironclaw-worker-job" (complete_job (demo_docker true) 1%N (mkCompletion true None) m2) in
  state <$> containers m3 !! 1%N = Some Running /\ calls m3 = calls m2.
Proof.
  cbn zeta.
  destruct (early_completion_marked_running (demo_docker true) (default_job_config []) true (Some demo_home) None (fun _ => EmptyString)
    (fun _ => "job"%string) sevens 0 1%N "build" (Some project) Worker [] demo_jobs
    (begin_job sevens 0 1%N "build" (Some project) Worker [] demo_jobs).2
    (launch (demo_docker true) (default_job_config []) true (Some demo_home) None (fun _ => EmptyString) (fun _ => "job"%string)
      1%N (generate_token sevens) (Some project) Worker (begin_job sevens 0 1%N "build" (Some project) Worker [] demo_jobs).2).2
    (generate_token sevens) "id-of-ironclaw-worker-job" (mkCompletion true None) ltac:(vm_compute; reflexivity) ltac:(vm_compute; reflexivity))
    as ((h & Hh & Hs & _) & _ & Hc).
  split; [rewrite Hh; exact (f_equal Some Hs)|exact Hc].
Defined.
