(* ===== verification/OrchestratorApi.v ===== *)
(** The internal API that containers talk to: [src/orchestrator/api.rs], with
    the authentication middleware of [src/orchestrator/auth.rs] and the request
    and response types of [src/worker/api.rs].

    A request is its method, its path, its authorization header (when it is
    text) and its body; axum's routing is written out for the routes of the
    file, and the decoding of a JSON body, of a percent-encoded path segment
    and of a UUID, the LLM provider and the secrets store are arguments. *)

From S2P Require Import Prelude Strs Json Llm Tool Files Containers.
From Stdlib Require Import Ascii.
#[local] Open Scope claw_scope.

(** ** The middleware *)
Fixpoint trim_slashes (s : string) : string :=
  match s with String "/"%char s => trim_slashes s | _ => s end.
Definition extract_job_id_from_path (parse_uuid : string -> option Uuid) (path : string) : option Uuid :=
  match split_on "/"%char (trim_slashes path) with
  | w :: id :: _ => if String.eqb w "worker" then parse_uuid id else None
  | _ => None
  end.

Inductive Method := GET | POST.
#[export] Instance Method_eq_dec : EqDecision Method.
Proof. solve_decision. Defined.
Record Request := mkApiRequest { method : Method; path : string; authorization : option string; body : string }.
Definition OK : Z := 200.
Definition NO_CONTENT : Z := 204.
Definition BAD_REQUEST : Z := 400.
Definition UNAUTHORIZED : Z := 401.
Definition NOT_FOUND : Z := 404.
Definition METHOD_NOT_ALLOWED : Z := 405.
Definition INTERNAL_SERVER_ERROR : Z := 500.
Definition BAD_GATEWAY : Z := 502.
Definition SERVICE_UNAVAILABLE : Z := 503.

Definition worker_auth_middleware (parse_uuid : string -> option Uuid) (ts : TokenStore) (r : Request) : Result Uuid Z :=
  match extract_job_id_from_path parse_uuid (path r) with
  | None => Err BAD_REQUEST
  | Some job_id =>
      match authorization r ≫= (fun v => strip_prefix v "Bearer ") with
      | None => Err UNAUTHORIZED
      | Some token => if Containers.validate job_id token ts then Ok job_id else Err UNAUTHORIZED
      end
  end.

(** ** Requests and responses *)
Record StatusUpdate := mkStatus { su_state : string; su_message : option string; su_iteration : Z }.
Record CompletionReport := mkReport { rp_success : bool; rp_message : option string; rp_iterations : Z }.
Record JobEventPayload := mkEventPayload { event_type : string; data : Json }.
Record ProxyCompletionRequest := mkProxy {
  px_messages : list (ChatMessage Json); px_max_tokens : option Z; px_temperature : option Z; px_stop_sequences : option (list string) }.
Record ProxyToolCompletionRequest := mkProxyTool {
  pxt_messages : list (ChatMessage Json); pxt_tools : list (ToolDefinition Json); pxt_max_tokens : option Z;
  pxt_temperature : option Z; pxt_tool_choice : option string }.
Record PendingPrompt := mkPrompt { prompt_content : string; prompt_done : bool }.

Definition jopt (o : option string) : Json := match o with Some s => JString s | None => JNull end.
Definition job_description (title description : string) (dir : option string) : Json :=
  JObject [("title", JString title); ("description", JString description); ("project_dir", jopt dir)]%string.
Definition format_finish_reason (r : FinishReason) : string :=
  match r with
  | Stop => "stop" | Length => "length" | ToolUse => "tool_use" | ContentFilter => "content_filter" | UnknownReason => "unknown"
  end.
Definition proxy_response (content : Json) (calls : list (string * Json)) (input output : Z) (reason : FinishReason) : Json :=
  JObject ((("content"%string, content) :: calls) ++
    [("input_tokens", jint input); ("output_tokens", jint output); ("finish_reason", JString (format_finish_reason reason))]%string).
Definition tool_call_json (c : ToolCall Json) : Json :=
  JObject [("id", JString (tc_id c)); ("name", JString (tc_name c)); ("arguments", tc_arguments c)]%string.
Definition credential_json (c : string * string) : Json :=
  JObject [("env_var", JString c.1); ("value", JString c.2)]%string.

Inductive SseEvent :=
| JobMessage (job_id role content : string)
| JobToolUse (job_id tool_name : string) (input : Json)
| JobToolResult (job_id tool_name output : string)
| JobStatus (job_id message : string)
| JobResult (job_id status : string) (session_id : option string).
Definition sse_event (job_id : string) (p : JobEventPayload) : SseEvent :=
  let str k d := default d (get_str k (data p)) in
  if String.eqb (event_type p) "message" then JobMessage job_id (str "role" "assistant") (str "content" "")
  else if String.eqb (event_type p) "tool_use"
  then JobToolUse job_id (str "tool_name" "unknown") (default JNull (json_get "input" (data p)))
  else if String.eqb (event_type p) "tool_result" then JobToolResult job_id (str "tool_name" "unknown") (str "output" "")
  else if String.eqb (event_type p) "result" then JobResult job_id (str "status" "unknown") (get_str "session_id" (data p))
  else JobStatus job_id (str "message" "").

(** ** Routes *)
Inductive Endpoint := EpJob | EpComplete | EpCompleteWithTools | EpStatus | EpReport | EpEvent | EpPrompt | EpCredentials.
Inductive Route := Health | WorkerRoute (id : string) (ep : Endpoint).
Definition endpoint_of (rest : list string) : option Endpoint :=
  match rest with
  | [a] =>
      if String.eqb a "job" then Some EpJob else if String.eqb a "status" then Some EpStatus
      else if String.eqb a "complete" then Some EpReport else if String.eqb a "event" then Some EpEvent
      else if String.eqb a "prompt" then Some EpPrompt else if String.eqb a "credentials" then Some EpCredentials else None
  | [a; b] =>
      if String.eqb a "llm"
      then if String.eqb b "complete" then Some EpComplete
           else if String.eqb b "complete_with_tools" then Some EpCompleteWithTools else None
      else None
  | _ => None
  end.
Definition route (p : string) : option Route :=
  match split_on "/"%char p with
  | [e; h] => if is_empty e && String.eqb h "health" then Some Health else None
  | e :: w :: id :: rest =>
      if is_empty e && String.eqb w "worker" && negb (is_empty id) then WorkerRoute id <$> endpoint_of rest else None
  | _ => None
  end.
Definition endpoint_method (ep : Endpoint) : Method :=
  match ep with EpJob | EpPrompt | EpCredentials => GET | _ => POST end.

(** The secrets store, as the credentials handler uses it. *)
Record SecretsOps := mkSecrets {
  get_decrypted : string -> string -> Result string string;
  get_secret : string -> string -> Result Uuid string }.

(** ** The state and the handlers *)
Section Api.
Context {Decimal P D : Type} `{!LlmProvider Json Decimal P} (docker : DockerOps D).
Context (uuid_show : Uuid -> string) (has_event_tx has_store : bool) (secrets_store : option SecretsOps) (user_id : string).

(** [events] and [persisted] are what was broadcast and handed to the database,
    [used] the secrets whose use was recorded. *)
Record OrchestratorState := mkState {
  job_manager : JobManager D; llm : P; prompt_queue : gmap Uuid (list PendingPrompt);
  events : list (Uuid * SseEvent); persisted : list (Uuid * string * Json); used : list Uuid }.
Definition with_manager (f : JobManager D -> JobManager D) (s : OrchestratorState) : OrchestratorState :=
  mkState (f (job_manager s)) (llm s) (prompt_queue s) (events s) (persisted s) (used s).
Abbreviation Reply := (Result (Z * Json) Z).

Definition get_job (job_id : Uuid) (s : OrchestratorState) : Reply :=
  match get_handle job_id (job_manager s) with
  | None => Err NOT_FOUND
  | Some h => Ok (OK, job_description ("Job " ++s uuid_show job_id) (task_description h) (path_display <$> project_dir h))
  end.
Definition with_llm (p : P) (s : OrchestratorState) : OrchestratorState :=
  mkState (job_manager s) p (prompt_queue s) (events s) (persisted s) (used s).
Definition llm_complete (now : Instant) (req : ProxyCompletionRequest) (s : OrchestratorState) : Reply * OrchestratorState :=
  let r := mkRequest _ (px_messages req) (px_max_tokens req) (px_temperature req) (px_stop_sequences req) ∅ in
  let '(res, p, _) := complete r (llm s) now in
  (match res with
   | Err _ => Err BAD_GATEWAY
   | Ok resp => Ok (OK, proxy_response (JString (resp_content resp)) [] (resp_input_tokens resp) (resp_output_tokens resp) (resp_finish_reason resp))
   end, with_llm p s).
Definition llm_complete_with_tools (now : Instant) (req : ProxyToolCompletionRequest) (s : OrchestratorState) : Reply * OrchestratorState :=
  let r := mkToolRequest _ (pxt_messages req) (pxt_tools req) (pxt_max_tokens req) (pxt_temperature req) (pxt_tool_choice req) ∅ in
  let '(res, p, _) := complete_with_tools r (llm s) now in
  (match res with
   | Err _ => Err BAD_GATEWAY
   | Ok resp => Ok (OK, proxy_response (jopt (tresp_content resp)) [("tool_calls"%string, JArray (tool_call_json <$> tresp_tool_calls resp))]
                      (tresp_input_tokens resp) (tresp_output_tokens resp) (tresp_finish_reason resp))
   end, with_llm p s).
Definition report_status (job_id : Uuid) (u : StatusUpdate) (s : OrchestratorState) : Reply * OrchestratorState :=
  (Ok (OK, JNull), with_manager (update_worker_status job_id (su_message u) (su_iteration u)) s).
Definition report_complete (job_id : Uuid) (r : CompletionReport) (s : OrchestratorState) : Reply * OrchestratorState :=
  (Ok (OK, JObject [("status", JString "ok")]%string),
   with_manager (complete_job docker job_id (mkCompletion (rp_success r) (rp_message r))) s).
Definition job_event_handler (job_id : Uuid) (p : JobEventPayload) (s : OrchestratorState) : Reply * OrchestratorState :=
  (Ok (OK, JNull),
   mkState (job_manager s) (llm s) (prompt_queue s)
     (events s ++ if has_event_tx then [(job_id, sse_event (uuid_show job_id) p)] else [])
     (persisted s ++ if has_store then [(job_id, event_type p, data p)] else []) (used s)).
Definition get_prompt_handler (job_id : Uuid) (s : OrchestratorState) : Reply * OrchestratorState :=
  match prompt_queue s !! job_id with
  | Some (p :: ps) =>
      (Ok (OK, JObject [("content", JString (prompt_content p)); ("done", JBool (prompt_done p))]%string),
       mkState (job_manager s) (llm s) (<[job_id := ps]> (prompt_queue s)) (events s) (persisted s) (used s))
  | _ => (Ok (NO_CONTENT, JNull), s)
  end.

(** The loop over the grants: the credentials so far and the recorded uses. *)
Fixpoint serve_grants (ops : SecretsOps) (gs : list CredentialGrant) (acc : list (string * string)) (uses : list Uuid)
  : Result (list (string * string)) Z * list Uuid :=
  match gs with
  | [] => (Ok acc, uses)
  | g :: gs =>
      match get_decrypted ops user_id (secret_name g) with
      | Err _ => (Err INTERNAL_SERVER_ERROR, uses)
      | Ok v =>
          let uses := match get_secret ops user_id (secret_name g) with Ok id => uses ++ [id] | Err _ => uses end in
          serve_grants ops gs (acc ++ [(env_var g, v)]) uses
      end
  end.
Definition get_credentials_handler (job_id : Uuid) (s : OrchestratorState) : Reply * OrchestratorState :=
  match get_grants job_id (token_store (job_manager s)) with
  | Some (g :: gs) =>
      match secrets_store with
      | None => (Err SERVICE_UNAVAILABLE, s)
      | Some ops =>
          let '(r, uses) := serve_grants ops (g :: gs) [] (used s) in
          (match r with Ok cs => Ok (OK, JArray (credential_json <$> cs)) | Err e => Err e end,
           mkState (job_manager s) (llm s) (prompt_queue s) (events s) (persisted s) uses)
      end
  | _ => (Ok (NO_CONTENT, JNull), s)
  end.

(** The decoded bodies; a body that does not decode is refused with the status given. *)
Record Decoders := mkDecoders {
  decode_completion : string -> Result ProxyCompletionRequest Z;
  decode_tool_completion : string -> Result ProxyToolCompletionRequest Z;
  decode_status : string -> Result StatusUpdate Z;
  decode_report : string -> Result CompletionReport Z;
  decode_event : string -> Result JobEventPayload Z }.
Definition with_body {A} (r : Result A Z) (f : A -> OrchestratorState -> Reply * OrchestratorState) (s : OrchestratorState)
  : Reply * OrchestratorState :=
  match r with Ok a => f a s | Err e => (Err e, s) end.
Definition run_endpoint (dec : Decoders) (now : Instant) (ep : Endpoint) (job_id : Uuid) (b : string) : OrchestratorState -> Reply * OrchestratorState :=
  match ep with
  | EpJob => fun s => (get_job job_id s, s)
  | EpComplete => with_body (decode_completion dec b) (llm_complete now)
  | EpCompleteWithTools => with_body (decode_tool_completion dec b) (llm_complete_with_tools now)
  | EpStatus => with_body (decode_status dec b) (report_status job_id)
  | EpReport => with_body (decode_report dec b) (report_complete job_id)
  | EpEvent => with_body (decode_event dec b) (job_event_handler job_id)
  | EpPrompt => get_prompt_handler job_id
  | EpCredentials => get_credentials_handler job_id
  end.

(** The router: the middleware runs on the worker routes only, before the
    method is looked at; the handler takes the job id from the decoded segment. *)
Definition serve (dec : Decoders) (parse_uuid : string -> option Uuid) (percent_decode : string -> option string)
    (now : Instant) (r : Request) (s : OrchestratorState) : Reply * OrchestratorState :=
  match route (path r) with
  | None => (Err NOT_FOUND, s)
  | Some Health => (if decide (method r = GET) then Ok (OK, JString "ok") else Err METHOD_NOT_ALLOWED, s)
  | Some (WorkerRoute id ep) =>
      match worker_auth_middleware parse_uuid (token_store (job_manager s)) r with
      | Err e => (Err e, s)
      | Ok _ =>
          if decide (method r = endpoint_method ep)
          then match percent_decode id ≫= parse_uuid with
               | None => (Err BAD_REQUEST, s)
               | Some job_id => run_endpoint dec now ep job_id (body r) s
               end
          else (Err METHOD_NOT_ALLOWED, s)
      end
  end.
End Api.
Arguments OrchestratorState P D : clear implicits.

(** ** The job that is authenticated is the job that is served *)
Lemma trim_slashes_worker p l : split_on "/"%char p = "worker"%string :: l -> trim_slashes p = p.
Proof.
  destruct p as [|c p]; [done|]. cbn [split_on]. destruct (Ascii.eqb_spec "/"%char c) as [<-|]; [done|].
  destruct (split_on "/"%char p); intros [= -> _ _]; reflexivity.
Qed.
Lemma route_extract parse_uuid p id ep :
  route p = Some (WorkerRoute id ep) -> extract_job_id_from_path parse_uuid p = parse_uuid id.
Proof.
  unfold route, extract_job_id_from_path. destruct p as [|c p]; [done|]. cbn [split_on trim_slashes].
  destruct (Ascii.eqb_spec "/"%char c) as [<-|Hc].
  - destruct (split_on "/"%char p) as [|w [|i rest]] eqn:E; try done; [by destruct (_ && _)|]. cbn [is_empty andb].
    destruct (String.eqb_spec w "worker"); [|done]. subst w. destruct (negb (is_empty i)); [|done].
    destruct (endpoint_of rest); [|done]. intros [= <- <-]. cbn [trim_slashes]. by rewrite (trim_slashes_worker _ _ E), E.
  - by destruct (split_on "/"%char p) as [|w [|i [|? ?]]].
Qed.

Section ApiProofs.
Context {Decimal P D : Type} `{!LlmProvider Json Decimal P} (docker : DockerOps D).
Context (uuid_show : Uuid -> string) (has_event_tx has_store : bool) (secrets_store : option SecretsOps) (user_id : string).
Context (dec : Decoders) (parse_uuid : string -> option Uuid) (percent_decode : string -> option string).
Abbreviation State := (OrchestratorState P D).
Abbreviation run_endpoint := (run_endpoint docker uuid_show has_event_tx has_store secrets_store user_id dec).
Abbreviation serve := (serve docker uuid_show has_event_tx has_store secrets_store user_id dec parse_uuid percent_decode).

(** What the orchestrator keeps for one job. *)
Definition job_view (j : Uuid) (s : State) := (entries j (job_manager s), prompt_queue s !! j).
(** A step that concerns one job: the others keep what they have, and what is
    broadcast and stored is labelled with the job. *)
Definition only_job (j : Uuid) (s s' : State) : Prop :=
  (forall k, k <> j -> job_view k s' = job_view k s)
  /\ (exists l, events s' = events s ++ l /\ Forall (fun e => e.1 = j) l)
  /\ exists l, persisted s' = persisted s ++ l /\ Forall (fun e => e.1.1 = j) l.
Lemma only_job_log j s s' :
  (forall k, k <> j -> job_view k s' = job_view k s) -> events s' = events s -> persisted s' = persisted s -> only_job j s s'.
Proof. intros Hk He Hp. split; [done|]. split; exists []; rewrite app_nil_r; by split. Qed.
Lemma only_job_refl j s : only_job j s s.
Proof. by apply only_job_log. Qed.

Lemma run_endpoint_only now ep j b s : only_job j s (run_endpoint now ep j b s).2.
Proof.
  destruct ep; cbn [OrchestratorApi.run_endpoint].
  - apply only_job_refl.
  - unfold with_body. destruct (decode_completion dec b); [|apply only_job_refl]. unfold llm_complete.
    destruct (complete _ _ _) as [[? ?] ?]. by apply only_job_log.
  - unfold with_body. destruct (decode_tool_completion dec b); [|apply only_job_refl]. unfold llm_complete_with_tools.
    destruct (complete_with_tools _ _ _) as [[? ?] ?]. by apply only_job_log.
  - unfold with_body. destruct (decode_status dec b); [|apply only_job_refl]. apply only_job_log; [|done|done].
    intros k Hk. unfold job_view, entries. cbn. by rewrite lookup_alter_ne by done.
  - unfold with_body. destruct (decode_report dec b); [|apply only_job_refl]. apply only_job_log; [|done|done].
    intros k Hk. unfold job_view. cbn. by rewrite complete_job_entries, decide_False.
  - unfold with_body. destruct (decode_event dec b); [|apply only_job_refl]. split; [done|]. cbn.
    split; (eexists; split; [reflexivity|]); [destruct has_event_tx|destruct has_store]; by repeat constructor.
  - unfold get_prompt_handler. destruct (prompt_queue s !! j) as [[|p ps]|]; try apply only_job_refl.
    apply only_job_log; [|done|done]. intros k Hk. unfold job_view. cbn. by rewrite lookup_insert_ne by done.
  - unfold get_credentials_handler. destruct (get_grants j _) as [[|g gs]|]; try apply only_job_refl.
    destruct secrets_store as [ops|]; [|apply only_job_refl].
    destruct (serve_grants user_id ops (g :: gs) [] (used s)). by apply only_job_log.
Qed.

(** C11. A request changes nothing and is refused, or asks for the health check, or
    carries the valid token of the job named in its path; then the endpoint
    runs for that job, and every other job keeps its token, its grants, its
    handle and its queued prompts. *)
Theorem api_authenticated (now : Instant) (r : Request) (s s' : State) (reply : Result (Z * Json) Z) :
  (forall t j, parse_uuid t = Some j -> percent_decode t = Some t) ->
  serve now r s = (reply, s') ->
  (s' = s /\ match reply with
             | Err e => e ∈ [BAD_REQUEST; UNAUTHORIZED; NOT_FOUND; METHOD_NOT_ALLOWED]
             | Ok a => a = (OK, JString "ok") end)
  \/ exists j token ep,
       extract_job_id_from_path parse_uuid (path r) = Some j
       /\ authorization r = Some ("Bearer " ++s token)
       /\ Containers.validate j token (token_store (job_manager s)) = true
       /\ run_endpoint now ep j (body r) s = (reply, s')
       /\ only_job j s s'.
Proof.
  intros Hdec. unfold OrchestratorApi.serve. destruct (route (path r)) as [[|id ep]|] eqn:Er.
  - intros [= <- <-]. left. split; [done|]. destruct (decide _); [done|set_solver].
  - pose proof (route_extract parse_uuid _ _ _ Er) as Hid. unfold worker_auth_middleware. rewrite Hid.
    destruct (parse_uuid id) as [j|] eqn:Ej; [|intros [= <- <-]; left; set_solver].
    destruct (authorization r) as [v|] eqn:Ea; [|intros [= <- <-]; left; set_solver]. cbn [mbind option_bind].
    destruct (strip_prefix v "Bearer ") as [token|] eqn:Et; [|intros [= <- <-]; left; set_solver].
    destruct (Containers.validate j token _) eqn:Ev; [|intros [= <- <-]; left; set_solver].
    destruct (decide _); [|intros [= <- <-]; left; set_solver].
    rewrite (Hdec _ _ Ej). cbn. rewrite Ej. intros H. right. exists j, token, ep.
    apply strip_prefix_spec in Et as ->. split_and!; try done.
    pose proof (run_endpoint_only now ep j (body r) s) as Ho. by rewrite H in Ho.
  - intros [= <- <-]. left. set_solver.
Qed.

(** ** Credentials *)
Lemma serve_grants_spec ops gs : forall acc uses,
  (serve_grants user_id ops gs acc uses).1 =
    match mapM (fun g => match get_decrypted ops user_id (secret_name g) with Ok v => Some (env_var g, v) | Err _ => None end) gs with
    | Some cs => Ok (acc ++ cs)
    | None => Err INTERNAL_SERVER_ERROR
    end.
Proof.
  induction gs as [|g gs IH]; intros acc uses; cbn; [by rewrite app_nil_r|].
  destruct (get_decrypted ops user_id (secret_name g)); cbn; [|done]. rewrite IH.
  destruct (mapM _ gs); cbn; [|done]. by rewrite <-app_assoc.
Qed.

(** C12. The credentials endpoint answers a job with exactly the secrets granted to
    it, decrypted, under the variable names of the grants and in their order;
    with nothing at all when one of them cannot be decrypted, when there is no
    secrets store, or when nothing was granted. *)
Theorem credentials_exactly_granted (now : Instant) (j : Uuid) (b : string) (s : State) :
  (run_endpoint now EpCredentials j b s).1 =
    match get_grants j (token_store (job_manager s)), secrets_store with
    | Some ((_ :: _) as gs), Some ops =>
        match mapM (fun g => match get_decrypted ops user_id (secret_name g) with Ok v => Some (env_var g, v) | Err _ => None end) gs with
        | Some cs => Ok (OK, JArray (credential_json <$> cs))
        | None => Err INTERNAL_SERVER_ERROR
        end
    | Some (_ :: _), None => Err SERVICE_UNAVAILABLE
    | _, _ => Ok (NO_CONTENT, JNull)
    end.
Proof.
  cbn [OrchestratorApi.run_endpoint]. unfold get_credentials_handler.
  destruct (get_grants j _) as [[|g gs]|]; [done| |done]. destruct secrets_store as [ops|]; [|done].
  pose proof (serve_grants_spec ops (g :: gs) [] (used s)) as H.
  destruct (serve_grants user_id ops (g :: gs) [] (used s)) as [res uses]. cbn [fst] in H |- *. rewrite H.
  by destruct (mapM _ (g :: gs)).
Qed.

(** ** Prompts *)
Fixpoint poll (now : Instant) (j : Uuid) (n : nat) (s : State) : list (Result (Z * Json) Z) * State :=
  match n with
  | O => ([], s)
  | S n => let '(r, s) := run_endpoint now EpPrompt j EmptyString s in
           let '(rs, s) := poll now j n s in (r :: rs, s)
  end.
Definition prompt_json (p : PendingPrompt) : Json :=
  JObject [("content", JString (prompt_content p)); ("done", JBool (prompt_done p))]%string.

(** Polling delivers every queued prompt once, in the order of the queue, and
    then answers that there is none. *)
Theorem prompts_in_order (now : Instant) (j : Uuid) (ps : list PendingPrompt) (extra : nat) (s : State) :
  prompt_queue s !! j = Some ps ->
  let '(replies, s') := poll now j (length ps + extra) s in
  replies = ((fun p => Ok (OK, prompt_json p)) <$> ps) ++ replicate extra (Ok (NO_CONTENT, JNull))
  /\ prompt_queue s' !! j = Some [].
Proof.
  revert s. induction ps as [|p ps IH]; intros s Hq; cbn [length Nat.add].
  - induction extra as [|n IHn]; cbn [poll]; [done|]. cbn [OrchestratorApi.run_endpoint]. unfold get_prompt_handler. rewrite Hq.
    destruct (poll now j n s) as [rs s']. destruct IHn as [-> IHn]. done.
  - cbn [poll OrchestratorApi.run_endpoint]. unfold get_prompt_handler. rewrite Hq.
    set (s1 := mkState _ _ _ _ _ _). specialize (IH s1 ltac:(apply lookup_insert_eq)).
    destruct (poll now j (length ps + extra) s1) as [rs s']. destruct IH as [-> IH]. done.
Qed.

(** Once a worker has reported its result, its token opens nothing more: every
    request for the job is refused and changes nothing. *)
Theorem completed_job_locked_out (now now' : Instant) (j : Uuid) (b id : string) (ep : Endpoint) (report : CompletionReport) (r : Request) (s : State) :
  decode_report dec b = Ok report -> route (path r) = Some (WorkerRoute id ep) -> parse_uuid id = Some j ->
  let s' := (run_endpoint now EpReport j b s).2 in
  serve now' r s' = (Err UNAUTHORIZED, s').
Proof.
  intros Hb Hr Hid. cbn [OrchestratorApi.run_endpoint]. unfold with_body. rewrite Hb. cbn [report_complete snd].
  set (s' := with_manager _ s). cbn zeta. unfold OrchestratorApi.serve, worker_auth_middleware.
  rewrite Hr, (route_extract parse_uuid _ _ _ Hr), Hid.
  assert (Hv : forall t, Containers.validate j t (token_store (job_manager s')) = false).
  { intros t. pose proof (complete_job_entries docker j (mkCompletion (rp_success report) (rp_message report)) (job_manager s) j) as He.
    rewrite decide_True in He by done. unfold entries, revoked in He. injection He as Ht _ _. unfold Containers.validate. cbn.
    by rewrite Ht. }
  destruct (authorization r ≫= _); [by rewrite Hv|done].
Qed.
End ApiProofs.

(** ** Witnesses *)
#[local] Instance demo_provider : LlmProvider Json Z unit :=
  fixed_provider "demo" 0 (fun _ p t => (Ok (mkResponse "hi" 1 1 Stop None), p, t)).
Definition demo_parse (t : string) : option Uuid := if String.eqb t "j1" then Some 1%N else None.
Definition demo_state : OrchestratorState unit unit :=
  mkState (demo_create true).2 tt {[1%N := [mkPrompt "continue" false; mkPrompt "stop" true]]} [] [] [].
Definition demo_dec : Decoders :=
  mkDecoders (fun _ => Err 422) (fun _ => Err 422) (fun _ => Err 422)
    (fun b => if String.eqb b "report" then Ok (mkReport true None 3) else Err 422) (fun _ => Err 422).
Definition demo_secrets : SecretsOps := mkSecrets (fun _ n => Ok ("value-of-" ++s n)) (fun _ _ => Ok 5%N).
Definition demo_request (m : Method) (p : string) (token : string) : Request :=
  mkApiRequest m p (Some ("Bearer " ++s token)) "report".
Definition demo_serve : Request -> OrchestratorState unit unit -> Result (Z * Json) Z * OrchestratorState unit unit :=
  serve (demo_docker true) (fun _ => "job"%string) true true (Some demo_secrets) "default" demo_dec demo_parse Some 0.

Example demo_credentials :
  (demo_serve (demo_request GET "/worker/j1/credentials" (generate_token sevens)) demo_state).1
    = Ok (OK, JArray [credential_json ("GITHUB_TOKEN", "value-of-github")%string])
  /\ (demo_serve (demo_request GET "/worker/j1/credentials" "guess") demo_state).1 = Err UNAUTHORIZED.
Proof. vm_compute. done. Qed.
Lemma api_authenticated_witness :
  let r := demo_request GET "/worker/j1/credentials" (generate_token sevens) in
  Containers.validate 1%N (generate_token sevens) (token_store (job_manager demo_state)) = true
  /\ only_job 1%N demo_state (demo_serve r demo_state).2.
Proof.
  split; [vm_compute; reflexivity|].
  destruct (api_authenticated (demo_docker true) (fun _ => "job"%string) true true (Some demo_secrets) "default" demo_dec demo_parse Some 0
    (demo_request GET "/worker/j1/credentials" (generate_token sevens)) demo_state _ _
    ltac:(intros t j _; reflexivity) (surjective_pairing _)) as [[_ H]|(j & token & ep & Hj & _ & _ & _ & H)].
  - vm_compute in H. discriminate H.
  - replace j with 1%N in H by (vm_compute in Hj; congruence). exact H.
Defined.
Lemma prompts_in_order_witness :
  (poll (demo_docker true) (fun _ => "job"%string) true true None "default" demo_dec 0 1%N 3 demo_state).1
    = [Ok (OK, prompt_json (mkPrompt "continue" false)); Ok (OK, prompt_json (mkPrompt "stop" true)); Ok (NO_CONTENT, JNull)].
Proof.
  pose proof (prompts_in_order (demo_docker true) (fun _ => "job"%string) true true None "default" demo_dec 0 1%N
    [mkPrompt "continue" false; mkPrompt "stop" true] 1 demo_state ltac:(vm_compute; reflexivity)) as H.
  change (length [mkPrompt "continue" false; mkPrompt "stop" true] + 1)%nat with 3%nat in H.
  destruct (poll _ _ _ _ _ _ _ _ _ 3 demo_state) as [rs s']. exact (proj1 H).
Defined.
Lemma completed_job_locked_out_witness :
  let run := run_endpoint (demo_docker true) (fun _ => "job"%string) true true (Some demo_secrets) "default" demo_dec 0 in
  (demo_serve (demo_request GET "/worker/j1/credentials" (generate_token sevens)) (run EpReport 1%N "report"%string demo_state).2).1
    = Err UNAUTHORIZED.
Proof.
  exact (f_equal fst (completed_job_locked_out (demo_docker true) (fun _ => "job"%string) true true (Some demo_secrets) "default" demo_dec demo_parse Some
    0 0 1%N "report" "j1" EpCredentials (mkReport true None 3) (demo_request GET "/worker/j1/credentials" (generate_token sevens)) demo_state
    ltac:(reflexivity) ltac:(vm_compute; reflexivity) ltac:(reflexivity))).
Defined.
