(* ===== verification/Router.v ===== *)
(** Explicit commands and the natural-language fast path:
    [src/agent/router.rs].  The regular expressions of the fast path are
    written out as the phrases they accept; case is that of ASCII. *)

From Stdlib Require Import Ascii.
From S2P Require Import Prelude Strs.
#[local] Open Scope claw_scope.

Inductive MessageIntent :=
| CreateJob (title description : string) (category : option string) | CheckJobStatus (job_id : option string) | CancelJob (job_id : string)
| ListJobs (filter : option string) | HelpJob (job_id : string) | Chat (content : string) | Command (command : string) (args : list string) | Unknown.
#[export] Instance MessageIntent_eq_dec : EqDecision MessageIntent.
Proof. solve_decision. Defined.

Section Router.
Context (command_prefix : string).
Definition is_command (content : string) : bool := starts_with (Strs.trim content) command_prefix.
Definition parse_command (content : string) : MessageIntent :=
  let parts := split_whitespace (default content (strip_prefix content command_prefix)) in
  match parts with
  | [] => Unknown
  | first :: args =>
      let cmd := to_lowercase first in
      if String.eqb cmd "job" || String.eqb cmd "create" then let rest := String.concat " " args in CreateJob rest rest None
      else if String.eqb cmd "status" then CheckJobStatus (head args)
      else if String.eqb cmd "cancel" then match args with id :: _ => CancelJob id | [] => Unknown end
      else if String.eqb cmd "list" || String.eqb cmd "jobs" then ListJobs (head args)
      else if String.eqb cmd "help" then match args with id :: _ => HelpJob id | [] => Command "help" [] end
      else Command cmd args
  end.
Definition route_command (content : string) : option MessageIntent :=
  let content := Strs.trim content in if starts_with content command_prefix then Some (parse_command content) else None.

(** [^\s+$] after one of the openings: the job id, when the rest is one word. *)
Fixpoint one_word (s : string) : bool :=
  match s with EmptyString => true | String c s => negb (is_whitespace c) && one_word s end.
Definition job_of (openings : list string) (normalized : string) : option string :=
  match omap (fun o => strip_prefix normalized (o ++s " job ")) openings with
  | id :: _ => if negb (is_empty id) && one_word id then Some id else None
  | [] => None
  end.
Definition LIST_PHRASES : list string :=
  ["list jobs"; "list my jobs"; "show jobs"; "show my jobs"; "what jobs are running"; "what are my jobs"]%string.
Definition STATUS_OPENINGS : list string := ["status"; "status of"; "check"; "check of"; "check status"; "check status of"]%string.
Definition CANCEL_OPENINGS : list string := ["cancel"; "stop"]%string.
Definition HELP_OPENINGS : list string := ["help"; "unstick"]%string.
Fixpoint drop_chars (n : nat) (s : string) : string :=
  match n, s with S n, String _ s => drop_chars n s | _, _ => s end.
Definition create_title (raw normalized : string) : option string :=
  if starts_with normalized "create job "
  then let rest := Strs.trim (drop_chars 11 raw) in if is_empty rest then None else Some rest
  else None.
Definition route_fast_path_nl (content : string) : option MessageIntent :=
  if is_command content then None
  else
    let raw := Strs.trim content in
    if is_empty raw then None
    else
      let normalized := Strs.trim (to_lowercase raw) in
      if bool_decide (normalized ∈ LIST_PHRASES) then Some (ListJobs None)
      else match create_title raw normalized with
      | Some rest => Some (CreateJob rest rest None)
      | None =>
          match job_of STATUS_OPENINGS normalized with
          | Some id => Some (CheckJobStatus (Some id))
          | None =>
              match job_of CANCEL_OPENINGS normalized with
              | Some id => Some (CancelJob id)
              | None => HelpJob <$> job_of HELP_OPENINGS normalized
              end
          end
      end.
End Router.
Definition default_prefix : string := "/".

(** ** Proofs *)
(** No message is both: a command is never matched against the phrases. *)
Lemma route_exclusive prefix content : is_Some (route_command prefix content) -> route_fast_path_nl prefix content = None.
Proof. unfold route_command, route_fast_path_nl, is_command. by destruct (starts_with (Strs.trim content) prefix); [|intros [? ?]]. Qed.
Lemma trim_start_idle c s : is_whitespace c = false -> trim_start (String c s) = String c s.
Proof. cbn. by intros ->. Qed.
Lemma one_word_trim t : one_word t = true -> trim_end t = t.
Proof.
  induction t as [|c t IH]; [done|]. cbn. rewrite andb_true_iff, negb_true_iff. intros [Hc Ht]. rewrite (IH Ht), Hc. by destruct t.
Qed.
Lemma trim_end_word s t : one_word t = true -> t <> EmptyString -> trim_end (s ++s t) = s ++s t.
Proof.
  intros Ht Hne. induction s as [|c s IH]; [by apply one_word_trim|]. rewrite append_cons_str. cbn [trim_end]. rewrite IH. by destruct s, t.
Qed.
Lemma trim_phrase c r t : is_whitespace c = false -> one_word t = true -> t <> EmptyString -> Strs.trim (String c r ++s t) = String c r ++s t.
Proof. intros Hc Ht Hne. unfold Strs.trim. rewrite append_cons_str, trim_start_idle, <-append_cons_str by done. by apply trim_end_word. Qed.
Lemma lower_char_kind c : is_whitespace (lower_char c) = is_whitespace c /\ Ascii.eqb "/"%char (lower_char c) = Ascii.eqb "/"%char c.
Proof. destruct c as [[] [] [] [] [] [] [] []]; split; reflexivity. Qed.
Lemma one_word_lower t : one_word (to_lowercase t) = one_word t.
Proof. induction t as [|c t IH]; [done|]. cbn. rewrite IH. by rewrite (proj1 (lower_char_kind c)). Qed.
(** The three phrases that name a job. *)
Inductive JobPhrase := JpStatus | JpCancel | JpHelp.
Definition openings (p : JobPhrase) : list string := match p with JpStatus => STATUS_OPENINGS | JpCancel => CANCEL_OPENINGS | JpHelp => HELP_OPENINGS end.
Definition intent (p : JobPhrase) (id : string) : MessageIntent :=
  match p with JpStatus => CheckJobStatus (Some id) | JpCancel => CancelJob id | JpHelp => HelpJob id end.
Ltac each_opening p H := destruct p; cbn [openings] in H; unfold STATUS_OPENINGS, CANCEL_OPENINGS, HELP_OPENINGS in H;
  repeat (apply elem_of_cons in H as [->|H]); try (by apply not_elem_of_nil in H).
Lemma opening_starts p o : o ∈ openings p -> exists c r, o = String c r /\ is_whitespace c = false /\ Ascii.eqb "/"%char c = false.
Proof. intros H. each_opening p H; eexists _, _; split_and!; reflexivity. Qed.
Lemma normalized_routes p o id : o ∈ openings p -> one_word id = true -> id <> EmptyString ->
  let n := o ++s " job " ++s id in
  (n ∉ LIST_PHRASES) /\ (starts_with n "create job " = false)
  /\ (match job_of STATUS_OPENINGS n with
     | Some id => Some (CheckJobStatus (Some id))
     | None => match job_of CANCEL_OPENINGS n with Some id => Some (CancelJob id) | None => HelpJob <$> job_of HELP_OPENINGS n end
     end) = Some (intent p id).
Proof.
  intros H Hw Hne. assert (Hok : negb (is_empty id) && one_word id = true) by (rewrite Hw; by destruct id).
  cbn zeta. each_opening p H; lazy beta iota zeta delta [String.append];
    (split; [intros Hin; unfold LIST_PHRASES in Hin; repeat (apply elem_of_cons in Hin as [Hin|Hin]; [discriminate Hin|]); by apply not_elem_of_nil in Hin|
     split; [reflexivity|]]);
    unfold job_of; lazy beta iota zeta delta [String.append omap list_omap STATUS_OPENINGS CANCEL_OPENINGS HELP_OPENINGS strip_prefix Ascii.eqb Bool.eqb]; by rewrite ?Hok.
Qed.
(** The fast path understands each opening, in any case, before a job id, and
    hands on the id in lower case. *)
Theorem fast_path_names_job (p : JobPhrase) (said id : string) :
  to_lowercase said ∈ openings p -> one_word id = true -> id <> EmptyString ->
  route_fast_path_nl default_prefix (said ++s " job " ++s id) = Some (intent p (to_lowercase id)).
Proof.
  intros Ho Hw Hne. destruct (opening_starts p _ Ho) as (c & r & Ec & Hcw & Hcs). destruct said as [|d said]; [done|].
  cbn in Ec. injection Ec as <- _. destruct (lower_char_kind d) as [H1 H2]. rewrite H1 in Hcw. rewrite H2 in Hcs.
  assert (Hwl : one_word (to_lowercase id) = true) by (by rewrite one_word_lower). assert (Hnl : to_lowercase id <> EmptyString) by (by destruct id).
  assert (Hm : Strs.trim (String d said ++s " job " ++s id) = String d said ++s " job " ++s id).
  { rewrite <-append_assoc_str, append_cons_str. by apply trim_phrase. }
  assert (Hn : Strs.trim (to_lowercase (String d said) ++s " job " ++s to_lowercase id) = to_lowercase (String d said) ++s " job " ++s to_lowercase id).
  { rewrite <-append_assoc_str. cbn [to_lowercase]. rewrite append_cons_str. apply trim_phrase; [by rewrite H1|done|done]. }
  unfold route_fast_path_nl, is_command. rewrite Hm. replace (starts_with _ default_prefix) with false
    by (symmetry; apply not_true_iff_false; intros Hs; apply starts_with_spec in Hs as [tail Htail]; cbn in Htail; injection Htail as -> _; discriminate Hcs).
  rewrite (append_cons_str d said). cbn [is_empty]. rewrite <-(append_cons_str d said). rewrite !to_lowercase_app. change (to_lowercase " job ") with " job "%string. rewrite Hn.
  destruct (normalized_routes p _ (to_lowercase id) Ho Hwl Hnl) as (N1 & N2 & N3). rewrite bool_decide_eq_false_2 by exact N1.
  unfold create_title. rewrite N2. exact N3.
Qed.
Lemma fast_path_names_job_witness : route_fast_path_nl default_prefix "Check Status OF job AB-12" = Some (CheckJobStatus (Some "ab-12"%string)).
Proof. apply (fast_path_names_job JpStatus "Check Status OF" "AB-12"); [vm_compute; do 5 right; left|reflexivity|done]. Defined.
(** Typical messages. *)
Example routes :
  route_command default_prefix " /create  fix   the build " = Some (CreateJob "fix the build" "fix the build" None)
  /\ route_command default_prefix "/cancel" = Some Unknown /\ route_command default_prefix "hello" = None
  /\ route_fast_path_nl default_prefix "Create job  Fix the Build" = Some (CreateJob "Fix the Build" "Fix the Build" None)
  /\ route_fast_path_nl default_prefix "stop job a b" = None /\ route_fast_path_nl default_prefix "What are my jobs" = Some (ListJobs None).
Proof. vm_compute. done. Qed.
