(* ===== verification/Channels.v ===== *)
(** Channels and their manager: [src/channels/channel.rs],
    [src/channels/manager.rs], and the monitor that feeds a job's output into
    the agent, [src/agent/job_monitor.rs].

    A channel is a record of the operations of the trait on the world it
    shares with the others.  The merged stream is the set of its parts that
    have not ended; the injection channel is open while a sender is alive. *)

From Stdlib Require Import Ascii.
From S2P Require Import Prelude Strs Json.
#[local] Open Scope claw_scope.

Inductive ChannelError :=
| StartupFailed (name reason : string) | Disconnected (name reason : string) | SendFailed (name reason : string) | InvalidMessage (m : string)
| ChannelAuthFailed (name reason : string) | ChannelRateLimited (name : string) | ChannelHttp (m : string) | HealthCheckFailed (name : string).
Record IncomingMessage := mkIncoming {
  im_id : Uuid; im_channel : string; im_user_id : string; im_user_name : option string; im_content : string; im_thread_id : option string;
  im_received_at : DateTime; im_metadata : Json }.
Definition new_incoming (id : Uuid) (now : DateTime) (channel user content : string) : IncomingMessage :=
  mkIncoming id channel user None content None now JNull.
Definition with_thread (t : string) (m : IncomingMessage) : IncomingMessage :=
  mkIncoming (im_id m) (im_channel m) (im_user_id m) (im_user_name m) (im_content m) (Some t) (im_received_at m) (im_metadata m).
Definition with_metadata (j : Json) (m : IncomingMessage) : IncomingMessage :=
  mkIncoming (im_id m) (im_channel m) (im_user_id m) (im_user_name m) (im_content m) (im_thread_id m) (im_received_at m) j.
Definition with_user_name (n : string) (m : IncomingMessage) : IncomingMessage :=
  mkIncoming (im_id m) (im_channel m) (im_user_id m) (Some n) (im_content m) (im_thread_id m) (im_received_at m) (im_metadata m).
Record OutgoingResponse := mkOutgoing { or_content : string; or_thread_id : option string; or_metadata : Json }.
Definition text (s : string) : OutgoingResponse := mkOutgoing s None JNull.
Definition in_thread (t : string) (r : OutgoingResponse) : OutgoingResponse := mkOutgoing (or_content r) (Some t) (or_metadata r).
Inductive StatusUpdate :=
| Thinking (m : string) | ToolStarted (name : string) | ToolCompleted (name : string) (success : bool) | ToolResult (name preview : string)
| StreamChunk (m : string) | Status (m : string) | JobStarted (job_id title browse_url : string)
| ApprovalNeeded (request_id tool_name description : string) (parameters : Json)
| AuthRequired (extension_name : string) (instructions auth_url setup_url : option string)
| AuthCompleted (extension_name : string) (success : bool) (message : string).

(** ** The manager *)
Section Manager.
Context {W : Type}.
Record Channel := mkChannel {
  ch_start : W -> Result unit ChannelError * W;
  ch_respond : IncomingMessage -> OutgoingResponse -> W -> Result unit ChannelError * W;
  ch_status : StatusUpdate -> Json -> W -> Result unit ChannelError * W;
  ch_broadcast : string -> OutgoingResponse -> W -> Result unit ChannelError * W;
  ch_health : W -> Result unit ChannelError * W;
  ch_shutdown : W -> Result unit ChannelError * W }.
(** [inject_taken]: has [start_all] taken the injection receiver? *)
Record ChannelManager := mkChannels { channels : gmap string Channel; inject_taken : bool }.
Definition new_channels : ChannelManager := mkChannels ∅ false.
Definition add (name : string) (c : Channel) (m : ChannelManager) : ChannelManager := mkChannels (<[name := c]> (channels m)) (inject_taken m).
(** The parts of the merged stream. *)
Inductive Part := FromChannel (name : string) | Injected.
Definition part_eq (a b : Part) : bool :=
  match a, b with FromChannel x, FromChannel y => String.eqb x y | Injected, Injected => true | _, _ => false end.
Fixpoint start_each (cs : list (string * Channel)) (w : W) : list Part * W :=
  match cs with
  | [] => ([], w)
  | (name, c) :: cs =>
      let '(r, w) := ch_start c w in
      let '(ps, w) := start_each cs w in
      (match r with Ok _ => FromChannel name :: ps | Err _ => ps end, w)
  end.
Definition start_all (m : ChannelManager) (w : W) : Result (list Part) ChannelError * ChannelManager * W :=
  let '(ps, w) := start_each (map_to_list (channels m)) w in
  match ps with
  | [] => (Err (StartupFailed "all" "No channels started successfully"), m, w)
  | _ => (Ok (if inject_taken m then ps else ps ++ [Injected]), mkChannels (channels m) true, w)
  end.
Definition respond (m : ChannelManager) (msg : IncomingMessage) (r : OutgoingResponse) (w : W) : Result unit ChannelError * W :=
  match channels m !! im_channel msg with
  | Some c => ch_respond c msg r w
  | None => (Err (SendFailed (im_channel msg) "Channel not found"), w)
  end.
Definition send_status (m : ChannelManager) (name : string) (s : StatusUpdate) (meta : Json) (w : W) : Result unit ChannelError * W :=
  match channels m !! name with Some c => ch_status c s meta w | None => (Ok tt, w) end.
Definition broadcast (m : ChannelManager) (name user : string) (r : OutgoingResponse) (w : W) : Result unit ChannelError * W :=
  match channels m !! name with Some c => ch_broadcast c user r w | None => (Err (SendFailed name "Channel not found"), w) end.
(** An operation on every channel, with the results. *)
Fixpoint each (f : Channel -> W -> Result unit ChannelError * W) (cs : list (string * Channel)) (w : W) : list (string * Result unit ChannelError) * W :=
  match cs with
  | [] => ([], w)
  | (name, c) :: cs => let '(r, w) := f c w in let '(rs, w) := each f cs w in ((name, r) :: rs, w)
  end.
Definition broadcast_all (m : ChannelManager) (user : string) (r : OutgoingResponse) (w : W) : list (string * Result unit ChannelError) * W :=
  each (fun c => ch_broadcast c user r) (map_to_list (channels m)) w.
Definition health_check_all (m : ChannelManager) (w : W) : gmap string (Result unit ChannelError) * W :=
  let '(rs, w) := each ch_health (map_to_list (channels m)) w in (list_to_map rs, w).
Definition shutdown_all (m : ChannelManager) (w : W) : Result unit ChannelError * W :=
  let '(_, w) := each ch_shutdown (map_to_list (channels m)) w in (Ok tt, w).
Definition channel_names (m : ChannelManager) : list string := (map_to_list (channels m)).*1.

(** The merged stream ends when all its parts have.  The stream of a channel
    ends with its sender; the injection stream ends when no sender is left, and
    the manager keeps one of its own. *)
Definition stream_ended (ended : gset string) (manager_alive : bool) (other_senders : nat) (parts : list Part) : bool :=
  forallb (fun p => match p with FromChannel n => bool_decide (n ∈ ended) | Injected => negb manager_alive && (other_senders =? 0)%nat end) parts.

(** A notification for a user: the configured channel first, all of them when
    that fails ([agent_loop.rs]). *)
Definition forward_heartbeat (m : ChannelManager) (notify_channel notify_user : option string) (r : OutgoingResponse) (w : W) : W :=
  let user := default "default"%string notify_user in
  match notify_channel with
  | Some ch => match broadcast m ch user r w with (Ok _, w) => w | (Err _, w) => (broadcast_all m user r w).2 end
  | None => (broadcast_all m user r w).2
  end.
Definition forward_routine (m : ChannelManager) (r : OutgoingResponse) (w : W) : W :=
  (broadcast_all m (default "default"%string (get_str "notify_user" (or_metadata r))) r w).2.
End Manager.
Arguments Channel : clear implicits.
Arguments ChannelManager : clear implicits.

(** ** The job monitor *)
Inductive JobEvent := EvMessage (role content : string) | EvResult (status : string) | EvOther.
(** What a receive on the broadcast channel gives. *)
Inductive Received := Got (job : Uuid) (e : JobEvent) | Lagged (n : nat) | Closed.
Section Monitor.
Context (uuid_show : Uuid -> string) (job : Uuid).
Definition short_id : string := String.substring 0 8 (uuid_show job).
Definition assistant_text (content : string) : string := "[Job " ++s short_id ++s "] Claude Code: " ++s content.
Definition finished_text (status : string) : string := "[Job " ++s short_id ++s "] Container finished (status: " ++s status ++s ")".
(** [accepts i]: is the injection channel open for the [i]-th message?  The
    texts that were injected, and whether the monitor is still running. *)
Fixpoint monitor (accepts : nat -> bool) (i : nat) (rs : list Received) : list string * bool :=
  match rs with
  | [] => ([], true)
  | Closed :: _ => ([], false)
  | Lagged _ :: rs => monitor accepts i rs
  | Got j e :: rs =>
      if negb (bool_decide (j = job)) then monitor accepts i rs
      else match e with
      | EvMessage role content =>
          if String.eqb role "assistant" then
            if accepts i then let '(out, alive) := monitor accepts (S i) rs in (assistant_text content :: out, alive) else ([], false)
          else monitor accepts i rs
      | EvResult status => (if accepts i then [finished_text status] else [], false)
      | EvOther => monitor accepts i rs
      end
  end.
Definition injected (now : DateTime) (id : Uuid) (t : string) : IncomingMessage := new_incoming id now "job_monitor" "system" t.
End Monitor.

(** ** Proofs *)
(** The merged stream of a started agent never ends while the agent holds its
    manager, whatever its channels do: the manager's own sender keeps the
    injection stream open. *)
Theorem merged_stream_never_ends {W} (m : ChannelManager W) (w : W) (ended : gset string) (other_senders : nat) :
  inject_taken m = false ->
  match start_all m w with
  | (Ok parts, m', _) => inject_taken m' = true /\ stream_ended ended true other_senders parts = false
  | (Err e, m', _) => m' = m /\ e = StartupFailed "all" "No channels started successfully"
  end.
Proof.
  intros Ht. unfold start_all. destruct (start_each _ _) as [ps w']. destruct ps as [|p ps]; [done|]. rewrite Ht. split; [done|].
  unfold stream_ended. rewrite forallb_app. cbn [forallb]. by rewrite !andb_false_r.
Qed.
(** The texts a monitor should pass on: those of the assistant's messages of
    its job up to the first result, then the result. *)
Definition is_end (job : Uuid) (r : Received) : bool :=
  match r with Closed => true | Got j (EvResult _) => bool_decide (j = job) | _ => false end.
Definition passed_on (show : Uuid -> string) (job : Uuid) (r : Received) : option string :=
  match r with
  | Got j (EvMessage role content) => if bool_decide (j = job) && String.eqb role "assistant" then Some (assistant_text show job content) else None
  | Got j (EvResult status) => if bool_decide (j = job) then Some (finished_text show job status) else None
  | _ => None
  end.
(** While the agent takes them, a monitor injects exactly those texts, in
    order, and stops at the first result of its job or when the events end. *)
Theorem monitor_spec (show : Uuid -> string) (job : Uuid) (rs : list Received) :
  let '(out, alive) := monitor show job (fun _ => true) 0 rs in
  (alive = negb (existsb (is_end job) rs))
  /\ (forall before r after, rs = before ++ r :: after -> existsb (is_end job) before = false -> is_end job r = true ->
        out = omap (passed_on show job) (before ++ [r]))
  /\ (alive = true -> out = omap (passed_on show job) rs).
Proof.
  enough (forall i, let '(out, alive) := monitor show job (fun _ => true) i rs in
    (alive = negb (existsb (is_end job) rs))
    /\ (forall before r after, rs = before ++ r :: after -> existsb (is_end job) before = false -> is_end job r = true ->
          out = omap (passed_on show job) (before ++ [r]))
    /\ (alive = true -> out = omap (passed_on show job) rs)) as H by apply H.
  induction rs as [|x rs IH]; intros i; cbn [monitor].
  { split_and!; [done| |done]. intros [|y before] r after; done. }
  assert (Hskip : forall (out : list string) (alive : bool), is_end job x = false -> passed_on show job x = None ->
    ((alive = negb (existsb (is_end job) rs))
     /\ (forall before r after, rs = before ++ r :: after -> existsb (is_end job) before = false -> is_end job r = true ->
           out = omap (passed_on show job) (before ++ [r])) /\ (alive = true -> out = omap (passed_on show job) rs)) ->
    (alive = negb (existsb (is_end job) (x :: rs)))
     /\ (forall before r after, x :: rs = before ++ r :: after -> existsb (is_end job) before = false -> is_end job r = true ->
           out = omap (passed_on show job) (before ++ [r])) /\ (alive = true -> out = omap (passed_on show job) (x :: rs))).
  { intros out alive Hx Hp (H1 & H2 & H3). cbn [existsb]. rewrite Hx. split_and!; [done| |].
    - intros [|y before] r after [= <- Hrs] Hb Hr; [congruence|]. cbn [existsb] in Hb. rewrite Hx in Hb. cbn [app]. cbn [omap list_omap]. rewrite Hp. by eapply H2.
    - intros Ha. cbn [omap list_omap]. rewrite Hp. by apply H3. }
  destruct x as [j e|n|].
  - destruct (bool_decide_reflect (j = job)) as [->|Hj]; cbn [negb].
    + destruct e as [role content|status|].
      * destruct (String.eqb role "assistant") eqn:Er.
        -- specialize (IH (S i)). destruct (monitor _ _ _ _ rs) as [out alive]. destruct IH as (H1 & H2 & H3). cbn [existsb is_end]. split_and!; [done| |].
           ++ intros [|y before] r after [= <- Hrs] Hb Hr; [done|]. cbn [app omap list_omap passed_on]. rewrite bool_decide_eq_true_2, Er by done. cbn [andb]. f_equal.
              cbn in Hb. by eapply H2.
           ++ intros Ha. cbn [omap list_omap passed_on]. rewrite bool_decide_eq_true_2, Er by done. cbn [andb]. f_equal. by apply H3.
        -- specialize (IH i). destruct (monitor _ _ _ _ rs) as [out alive]. apply Hskip; [done| |done]. cbn. by rewrite Er, andb_false_r.
      * cbn [existsb is_end]. rewrite bool_decide_eq_true_2 by done. split_and!; [done| |done].
        intros [|y before] r after [= <- Hrs] Hb Hr; cbn; [by rewrite bool_decide_eq_true_2|]. cbn in Hb. by rewrite bool_decide_eq_true_2 in Hb.
      * specialize (IH i). destruct (monitor _ _ _ _ rs) as [out alive]. by apply Hskip.
    + specialize (IH i). destruct (monitor _ _ _ _ rs) as [out alive]. apply Hskip; [| |done]; destruct e; cbn; by rewrite ?bool_decide_eq_false_2.
  - specialize (IH i). destruct (monitor _ _ _ _ rs) as [out alive]. by apply Hskip.
  - cbn. split_and!; [done| |done]. intros [|y before] r after [= <- Hrs] Hb Hr; [done|]. done.
Qed.
Lemma merged_stream_never_ends_witness :
  let quiet := mkChannel (fun w : unit => (Ok tt, w)) (fun _ _ w => (Ok tt, w)) (fun _ _ w => (Ok tt, w)) (fun _ _ w => (Ok tt, w)) (fun w => (Ok tt, w)) (fun w => (Ok tt, w)) in
  match start_all (add "repl" quiet new_channels) tt with
  | (Ok parts, m', _) => inject_taken m' = true /\ stream_ended {["repl"%string]} true 0 parts = false
  | (Err e, m', _) => m' = add "repl" quiet new_channels /\ e = StartupFailed "all" "No channels started successfully"
  end.
Proof. intros quiet. apply (merged_stream_never_ends (add "repl" quiet new_channels) tt {["repl"%string]} 0). reflexivity. Defined.
