(* ===== verification/HttpChannel.v ===== *)
(** The HTTP webhook channel: [src/channels/http.rs].

    A request is handled in three stages - admission, handing the message to
    the agent, waiting for the answer - with the other requests and the agent
    between them.  The queue to the agent is a list; [None] before [start]. *)

From S2P Require Import Prelude Strs Json Channels.
#[local] Open Scope claw_scope.

Definition MAX_BODY_BYTES : nat := 64 * 1024.
Definition MAX_PENDING_RESPONSES : nat := 100.
Definition MAX_REQUESTS_PER_MINUTE : Z := 60.
Definition MAX_CONTENT_BYTES : nat := 32 * 1024.
Record WebhookRequest := mkWebhook {
  wr_user_id : option string; wr_content : string; wr_thread_id : option string; wr_secret : option string; wr_wait_for_response : bool }.
Record WebhookResponse := mkWebhookResponse { status_code : Z; message_id : Uuid; wr_status : string; wr_response : option string }.
Record RateLimitState := mkRate { window_start : Instant; request_count : Z }.
(** [queue]: the messages sent to the agent and whether it still takes them.
    [delivered]: answers on their way to the requests that wait. *)
Record HttpChannelState := mkHttp {
  queue : option (list IncomingMessage * bool); pending_responses : gset Uuid; delivered : gmap Uuid string; rate_limit : RateLimitState }.
Record HttpConfig := mkHttpConfig { webhook_secret : option string; hc_user_id : string }.
Definition new_http (now : Instant) : HttpChannelState := mkHttp None ∅ ∅ (mkRate now 0).
Definition NIL : Uuid := 0%N.
Definition set_queue q (s : HttpChannelState) := mkHttp q (pending_responses s) (delivered s) (rate_limit s).
Definition set_pending p (s : HttpChannelState) := mkHttp (queue s) p (delivered s) (rate_limit s).

Definition health_handler : Json := JObject [("status", JString "healthy"); ("channel", JString "http")]%string.
(** The clock is read for the age of the window and again to restart it. *)
Definition count_request (now1 now2 : Instant) (r : RateLimitState) : bool * RateLimitState :=
  let r := if from_secs 60 <=? now1 - window_start r then mkRate now2 0 else r in
  let r := mkRate (window_start r) (request_count r + 1) in
  (MAX_REQUESTS_PER_MINUTE <? request_count r, r).
Definition refused (code : Z) (id : Uuid) (why : string) : WebhookResponse := mkWebhookResponse code id "error" (Some why).
(** The checks of [webhook_handler]: the message, or the refusal. *)
Definition check_request (c : HttpConfig) (id : Uuid) (t : DateTime) (req : WebhookRequest) : Result IncomingMessage WebhookResponse :=
  let secret :=
    match webhook_secret c with
    | None => Ok tt
    | Some expected =>
        match wr_secret req with
        | Some provided => if String.eqb provided expected then Ok tt else Err (refused 401 NIL "Invalid webhook secret")
        | None => Err (refused 401 NIL "Webhook secret required")
        end
    end in
  match secret with
  | Err r => Err r
  | Ok _ =>
      if (MAX_CONTENT_BYTES <? String.length (wr_content req))%nat then Err (refused 413 NIL "Content too large")
      else
        let m := with_metadata (JObject [("wait_for_response", JBool (wr_wait_for_response req))]%string)
                   (new_incoming id t "http" (hc_user_id c) (wr_content req)) in
        Ok (match wr_thread_id req with Some th => with_thread th m | None => m end)
  end.
Definition webhook_handler (c : HttpConfig) (now1 now2 : Instant) (id : Uuid) (t : DateTime) (req : WebhookRequest) (s : HttpChannelState)
  : Result IncomingMessage WebhookResponse * HttpChannelState :=
  let '(over, r) := count_request now1 now2 (rate_limit s) in
  let s := mkHttp (queue s) (pending_responses s) (delivered s) r in
  if over then (Err (refused 429 NIL "Rate limit exceeded"), s) else (check_request c id t req, s).
(** [process_message] up to the wait: [Ok] when the message was handed over.
    The check of the limit and the insertion take the lock one after the
    other in the code; here nothing comes between them. *)
Definition hand_over (m : IncomingMessage) (wait : bool) (s : HttpChannelState) : Result unit WebhookResponse * HttpChannelState :=
  if wait && (MAX_PENDING_RESPONSES <=? size (pending_responses s))%nat then (Err (refused 429 (im_id m) "Too many pending requests"), s)
  else
    let s := if wait then set_pending ({[im_id m]} ∪ pending_responses s) s else s in
    match queue s with
    | Some (q, true) => (Ok tt, set_queue (Some (q ++ [m], true)) s)
    | Some (_, false) => (Err (refused 500 (im_id m) "Channel closed"), s)
    | None => (Err (refused 503 (im_id m) "Channel not started"), s)
    end.
(** How the wait ended; the answer of a request that did not wait is [None]. *)
Inductive WaitEnd := Answered | SenderDropped | TimedOut.
Definition finish (id : Uuid) (wait : bool) (w : WaitEnd) (s : HttpChannelState) : WebhookResponse * HttpChannelState :=
  let answer := if wait then Some match w with
                                  | Answered => default EmptyString (delivered s !! id)
                                  | SenderDropped => "Response cancelled"%string
                                  | TimedOut => "Response timeout"%string
                                  end else None in
  (mkWebhookResponse 200 id "accepted" answer, mkHttp (queue s) (pending_responses s ∖ {[id]}) (delete id (delivered s)) (rate_limit s)).

(** ** The channel *)
Definition start (c : HttpConfig) (s : HttpChannelState) : Result unit ChannelError * HttpChannelState :=
  match webhook_secret c with
  | None => (Err (StartupFailed "http" "HTTP webhook secret is required (set HTTP_WEBHOOK_SECRET)"), s)
  | Some _ => (Ok tt, set_queue (Some ([], true)) s)
  end.
Definition respond (m : IncomingMessage) (r : OutgoingResponse) (s : HttpChannelState) : Result unit ChannelError * HttpChannelState :=
  (Ok tt, if bool_decide (im_id m ∈ pending_responses s)
          then mkHttp (queue s) (pending_responses s ∖ {[im_id m]}) (<[im_id m := or_content r]> (delivered s)) (rate_limit s) else s).
Definition health_check (s : HttpChannelState) : Result unit ChannelError :=
  match queue s with Some _ => Ok tt | None => Err (HealthCheckFailed "http") end.
Definition shutdown (s : HttpChannelState) : Result unit ChannelError * HttpChannelState := (Ok tt, set_queue None s).

(** ** Proofs *)
(** A request is admitted only with the secret, when one is set, and with at
    most 32 KiB of content; its message carries the configured user, whatever
    user the request names. *)
Theorem admit_spec (c : HttpConfig) (now1 now2 : Instant) (id : Uuid) (t : DateTime) (req : WebhookRequest) (s : HttpChannelState) (m : IncomingMessage) :
  (webhook_handler c now1 now2 id t req s).1 = Ok m ->
  (forall secret, webhook_secret c = Some secret -> wr_secret req = Some secret)
  /\ (String.length (wr_content req) <= MAX_CONTENT_BYTES)%nat
  /\ im_user_id m = hc_user_id c /\ im_content m = wr_content req /\ im_thread_id m = wr_thread_id req /\ im_id m = id /\ im_channel m = "http"%string.
Proof.
  unfold webhook_handler. destruct (count_request _ _ _) as [[] r]; [done|]. cbn [fst]. unfold check_request.
  destruct (webhook_secret c) as [e|]; [destruct (wr_secret req) as [p|]; [destruct (String.eqb_spec p e) as [->|]|]|]; try done;
    (destruct (Nat.ltb_spec MAX_CONTENT_BYTES (String.length (wr_content req))); [done|]); intros [= <-]; destruct (wr_thread_id req) eqn:Et;
    split_and!; try done; naive_solver.
Qed.
(** The requests that were let through in a window. *)
Fixpoint count_all (ts : list (Instant * Instant)) (r : RateLimitState) : list bool * RateLimitState :=
  match ts with
  | [] => ([], r)
  | (a, b) :: ts => let '(over, r) := count_request a b r in let '(os, r) := count_all ts r in (over :: os, r)
  end.
Lemma count_all_window ts r :
  (forall a b, (a, b) ∈ ts -> a - window_start r < from_secs 60) -> 0 <= request_count r ->
  Z.of_nat (length (List.filter negb (count_all ts r).1)) <= Z.max 0 (MAX_REQUESTS_PER_MINUTE - request_count r).
Proof.
  revert r. induction ts as [|[a b] ts IH]; intros r Hw Hr; cbn [count_all]; [cbn; lia|].
  unfold count_request. assert (Ha : a - window_start r < from_secs 60) by (apply (Hw a b); by left).
  destruct (Z.leb_spec (from_secs 60) (a - window_start r)); [lia|]. set (r' := mkRate (window_start r) (request_count r + 1)).
  specialize (IH r' ltac:(intros x y Hxy; apply (Hw x y); by right) ltac:(cbn; lia)). destruct (count_all ts r') as [os r2]. cbn [fst] in *.
  destruct (Z.ltb_spec MAX_REQUESTS_PER_MINUTE (request_count r')); cbn [negb List.filter]; cbn [length]; cbn [request_count r'] in *; lia.
Qed.
(** A window of a minute lets at most sixty requests through to the checks. *)
Theorem webhook_rate_limit (ts : list (Instant * Instant)) (start_ : Instant) :
  (forall a b, (a, b) ∈ ts -> a - start_ < from_secs 60) -> (length (List.filter negb (count_all ts (mkRate start_ 0)).1) <= 60)%nat.
Proof. intros H. pose proof (count_all_window ts (mkRate start_ 0) H ltac:(cbn; lia)) as Hc. unfold MAX_REQUESTS_PER_MINUTE in Hc. cbn in Hc. lia. Qed.
(** A request that waits for its answer and cannot be handed over leaves its
    entry behind: a hundred of them, and every request that would wait is
    refused from then on. *)
Theorem undelivered_wait_leaks (m : IncomingMessage) (s : HttpChannelState) :
  im_id m ∉ pending_responses s -> (size (pending_responses s) < MAX_PENDING_RESPONSES)%nat -> (forall q, queue s <> Some (q, true)) ->
  let '(r, s') := hand_over m true s in
  (exists code why, r = Err (refused code (im_id m) why)) /\ size (pending_responses s') = S (size (pending_responses s))
  /\ ((MAX_PENDING_RESPONSES <= size (pending_responses s'))%nat -> forall m', (hand_over m' true s').1 = Err (refused 429 (im_id m') "Too many pending requests")).
Proof.
  intros Hn Hs Hq. unfold hand_over. rewrite (proj2 (Nat.leb_gt _ _)) by done. cbn [andb]. set (s1 := set_pending _ s).
  assert (Hsz : size (pending_responses s1) = S (size (pending_responses s))) by (unfold s1; cbn; rewrite size_union by set_solver; rewrite size_singleton; lia).
  change (queue s1) with (queue s). destruct (queue s) as [[q [|]]|]; [by destruct (Hq q)| |]; (split; [eauto|split; [exact Hsz|]]); intros Hmax m';
    by rewrite (proj2 (Nat.leb_le _ _)).
Qed.
(** ** Witnesses *)
Definition demo_config : HttpConfig := mkHttpConfig (Some "s3cret"%string) "owner".
Definition demo_request : WebhookRequest := mkWebhook (Some "mallory"%string) "hello" None (Some "s3cret"%string) true.
Lemma admit_spec_witness :
  exists m, (webhook_handler demo_config 0 0 7%N 0 demo_request (new_http 0)).1 = Ok m /\ im_user_id m = "owner"%string.
Proof.
  destruct (webhook_handler demo_config 0 0 7%N 0 demo_request (new_http 0)).1 as [m|] eqn:E; [|vm_compute in E; done]. exists m. split; [done|].
  destruct (admit_spec demo_config 0 0 7%N 0 demo_request (new_http 0) m E) as (_ & _ & H & _). exact H.
Defined.
Lemma webhook_rate_limit_witness : (length (List.filter negb (count_all (repeat (from_secs 1, from_secs 1) 100) (mkRate 0 0)).1) <= 60)%nat.
Proof. apply webhook_rate_limit. intros a b H. apply list_elem_of_In, repeat_spec in H. injection H as -> ->. vm_compute. done. Defined.
Lemma undelivered_wait_leaks_witness :
  let '(_, s') := hand_over (new_incoming 7%N 0 "http" "owner" "hi") true (new_http 0) in size (pending_responses s') = 1%nat.
Proof.
  pose proof (undelivered_wait_leaks (new_incoming 7%N 0 "http" "owner" "hi") (new_http 0)) as H.
  destruct (hand_over _ _ _) as [r s']. destruct H as (_ & H & _); [set_solver|vm_compute; lia|done|]. exact H.
Defined.
(** An unauthenticated caller uses up the window of everybody else. *)
Example strangers_use_up_the_limit :
  let bad := mkWebhook None "x" None None false in
  let '(_, s) := Nat.iter 60 (fun '(_, s) => webhook_handler demo_config 1 1 1%N 0 bad s) (Err (refused 0 NIL ""), new_http 0) in
  (webhook_handler demo_config 2 2 7%N 0 demo_request s).1 = Err (refused 429 NIL "Rate limit exceeded").
Proof. vm_compute. done. Qed.
