(* ===== verification/Heartbeat.v ===== *)
(** The periodic work on the workspace: the heartbeat -
    [src/agent/heartbeat.rs] - and the hygiene of the daily logs -
    [src/workspace/hygiene.rs].

    The runner's loop is a step on the result of a check.  The model is any
    provider; the file that holds the time of the last hygiene pass is its
    content, [None] when it is missing or cannot be read. *)

From Stdlib Require Import Ascii.
From S2P Require Import Prelude Strs Find Channels Float64 Llm Json Chunker Search Workspace.
From S2P Require Import Safety.
#[local] Open Scope claw_scope.

(** ** Configuration and results *)
Record HeartbeatConfig := mkHb {
  hb_interval : Duration; hb_enabled : bool; max_failures : nat; notify_user_id : option string; notify_channel : option string }.
Definition default_heartbeat : HeartbeatConfig := mkHb (from_secs (30 * 60)) true 3 None None.
Definition with_interval (d : Duration) (c : HeartbeatConfig) : HeartbeatConfig :=
  mkHb d (hb_enabled c) (max_failures c) (notify_user_id c) (notify_channel c).
Definition disabled (c : HeartbeatConfig) : HeartbeatConfig := mkHb (hb_interval c) false (max_failures c) (notify_user_id c) (notify_channel c).
Definition with_notify (user channel : string) (c : HeartbeatConfig) : HeartbeatConfig :=
  mkHb (hb_interval c) (hb_enabled c) (max_failures c) (Some user) (Some channel).
Inductive HeartbeatResult := HOk | NeedsAttention (m : string) | Skipped | HFailed (m : string).

(** ** Is there anything to check? *)
(** The loop of [strip_html_comments]; the fuel is the length of the text. *)
Fixpoint strip_comments (fuel : nat) (rest : string) : string :=
  match fuel with
  | O => rest
  | S fuel =>
      match find_str "<!--" rest with
      | None => rest
      | Some (before, after) =>
          match find_str "-->" ("<!--" ++s after) with
          | Some (_, rest) => before ++s strip_comments fuel rest
          | None => before
          end
      end
  end.
Definition strip_html_comments (content : string) : string := strip_comments (String.length content) content.
Definition empty_line (line : string) : bool :=
  let trimmed := Strs.trim line in
  is_empty trimmed || starts_with trimmed "#" || String.eqb trimmed "- [ ]" || String.eqb trimmed "- [x]" || String.eqb trimmed "-" || String.eqb trimmed "*".
Definition is_effectively_empty (content : string) : bool := forallb empty_line (lines (strip_html_comments content)).

(** ** The runner *)
(** One turn of the loop: the number of failures in a row and the message to
    send; [None] when the loop ends. *)
Definition after_check (c : HeartbeatConfig) (r : HeartbeatResult) (failures : nat) : option nat * option string :=
  match r with
  | HOk => (Some 0%nat, None)
  | NeedsAttention m => (Some 0%nat, Some m)
  | Skipped => (Some failures, None)
  | HFailed _ => (if (max_failures c <=? S failures)%nat then None else Some (S failures), None)
  end.
Definition BELL : string := String (chr 240) (String (chr 159) (String (chr 148) (String (chr 148) EmptyString))).
Definition alert (message : string) : OutgoingResponse :=
  mkOutgoing (BELL ++s " *Heartbeat Alert*" ++s LF2 ++s message) None (JObject [("source", JString "heartbeat")]%string).
(** The checks of a run and what they send. *)
Fixpoint run_loop (c : HeartbeatConfig) (failures : nat) (rs : list HeartbeatResult) : bool * list OutgoingResponse :=
  match rs with
  | [] => (true, [])
  | r :: rs =>
      let '(next, m) := after_check c r failures in
      let sent := match m with Some m => [alert m] | None => [] end in
      match next with
      | None => (false, sent)
      | Some n => let '(alive, out) := run_loop c n rs in (alive, sent ++ out)
      end
  end.
Definition run_heartbeat (c : HeartbeatConfig) (rs : list HeartbeatResult) : bool * list OutgoingResponse :=
  if hb_enabled c then run_loop c 0 rs else (false, []).

Definition heartbeat_prompt (checklist : string) : string :=
  "Read the HEARTBEAT.md checklist below and follow it strictly. Do not infer or repeat old tasks. Check each item and report findings." ++s LF1
  ++s LF1 ++s "If nothing needs attention, reply EXACTLY with: HEARTBEAT_OK" ++s LF1
  ++s LF1 ++s "If something needs attention, provide a concise summary of what needs action." ++s LF1
  ++s LF1 ++s "## HEARTBEAT.md" ++s LF1 ++s LF1 ++s checklist.
(** The bit pattern of [0.3]. *)
Definition TEMP_HEARTBEAT : Z := 0x3e99999a.
Definition output_budget (context_length : option Z) : Z := Z.max (default 4096 ((fun n => n / 2) <$> context_length)) 4096.
Definition interpret (r : CompletionResponse) : HeartbeatResult :=
  let content := Strs.trim (resp_content r) in
  if is_empty content then
    HFailed (match resp_finish_reason r with
             | Length => "LLM response was truncated (finish_reason=length) with no content. The model may have exhausted its token budget on reasoning."
             | _ => "LLM returned empty content."
             end)
  else if String.eqb content "HEARTBEAT_OK" || str_contains content "HEARTBEAT_OK" then HOk
  else NeedsAttention content.

Section Check.
Context {E Value Decimal P : Type} `{!LlmProvider Value Decimal P}.
Context (user : string) (agent : option Uuid) (llm_show : LlmError -> string).
Implicit Types (t : Tables E) (p : P).
Definition heartbeat_request (system_prompt prompt : string) (max_tokens : Z) : CompletionRequest Value :=
  with_temperature (with_max_tokens (new_request
    (if is_empty system_prompt then [msg_user prompt] else [msg_system system_prompt; msg_user prompt])) max_tokens) TEMP_HEARTBEAT.
(** [st1] and [st2] are what the two daily logs of the prompt draw. *)
Definition check_heartbeat (st1 st2 : Stamp) (today yesterday : string) p (now : Instant) t : HeartbeatResult * P * Instant * Tables E :=
  let checklist := heartbeat_checklist user agent t in
  if is_effectively_empty checklist then (Skipped, p, now, t)
  else
    let '(system_prompt, t) := system_prompt user agent st1 st2 today yesterday t in
    let '(meta, p, now) := model_metadata p now in
    let max_tokens := match meta with Ok m => output_budget (md_context_length m) | Err _ => 4096 end in
    let '(r, p, now) := complete (heartbeat_request system_prompt (heartbeat_prompt checklist) max_tokens) p now in
    (match r with Ok r => interpret r | Err e => HFailed ("LLM call failed: " ++s llm_show e) end, p, now, t).
End Check.

(** ** Hygiene *)
Record HygieneConfig := mkHygiene { hy_enabled : bool; retention_days : Z; cadence_hours : Z; state_dir : string }.
Definition default_hygiene (dir : string) : HygieneConfig := mkHygiene true 30 12 dir.
Record HygieneReport := mkHygieneReport { daily_logs_deleted : nat; hy_skipped : bool }.
Definition had_work (r : HygieneReport) : bool := (0 <? daily_logs_deleted r)%nat.
Definition days (n : Z) : Duration := from_secs (n * 86400).
Definition hours (n : Z) : Duration := from_secs (n * 3600).
Section Hygiene.
Context {E : Type} (user : string) (agent : option Uuid).
Implicit Types t : Tables E.
Definition stale (cutoff : DateTime) (e : WorkspaceEntry) : bool :=
  negb (is_directory e) && match e_updated_at e with Some u => u <? cutoff | None => false end.
Definition clean_one (cutoff : DateTime) (nt : nat * Tables E) (e : WorkspaceEntry) : nat * Tables E :=
  let '(n, t) := nt in
  if stale cutoff e then
    let path := if starts_with (e_path e) "daily/" then e_path e else "daily/" ++s e_path e in
    let '(r, t) := delete user agent path t in (if is_ok r then S n else n, t)
  else (n, t).
Definition cleanup_daily_logs (retention : Z) (now : DateTime) t : nat * Tables E :=
  foldl (clean_one (now - days retention)) (0%nat, t) (list_dir user agent "daily/" t).
(** [now] is read for the cadence, for the cutoff and for the new state. *)
Definition run_if_due (c : HygieneConfig) (now1 now2 now3 : DateTime) (last_run : option DateTime) t : HygieneReport * option DateTime * Tables E :=
  if negb (hy_enabled c) then (mkHygieneReport 0 true, last_run, t)
  else if match last_run with Some l => now1 - l <? hours (cadence_hours c) | None => false end
  then (mkHygieneReport 0 true, last_run, t)
  else let '(n, t) := cleanup_daily_logs (retention_days c) now2 t in (mkHygieneReport n false, Some now3, t).
End Hygiene.

(** ** Proofs *)
(** A check on a workspace without a checklist, or with the one it was seeded
    with, calls no model and leaves everything as it was. *)
Theorem seeded_heartbeat_skipped {E Value Decimal P : Type} `{!LlmProvider Value Decimal P} (user : string) (agent : option Uuid)
    (llm_show : LlmError -> string) (st1 st2 : Stamp) (today yesterday : string) (p : P) (now : Instant) (t : Tables E) :
  let seed := render_template_content (mkTemplate HEARTBEAT HEARTBEAT_BODY [HEARTBEAT_SEED_BODY]) in
  heartbeat_checklist user agent t = seed -> check_heartbeat (Value:=Value) user agent llm_show st1 st2 today yesterday p now t = (Skipped, p, now, t).
Proof.
  cbn zeta. intros H. unfold check_heartbeat. rewrite H. assert (He : is_effectively_empty (render_template_content (mkTemplate HEARTBEAT HEARTBEAT_BODY [HEARTBEAT_SEED_BODY])) = true) by (vm_compute; reflexivity).
  by rewrite He.
Qed.
(** Checks that neither succeed nor find anything, and the failures among them. *)
Definition no_success (r : HeartbeatResult) : bool := match r with Skipped | HFailed _ => true | _ => false end.
Definition failures_in (rs : list HeartbeatResult) : nat := length (List.filter (fun r => match r with HFailed _ => true | _ => false end) rs).
Definition messages_in (rs : list HeartbeatResult) : list string := omap (fun r => match r with NeedsAttention m => Some m | _ => None end) rs.
Definition tolerance (c : HeartbeatConfig) : nat := Nat.max 1 (max_failures c).
Lemma after_check_spec c r n : (n < tolerance c)%nat ->
  match after_check c r n with
  | (None, m) => m = None /\ no_success r = true /\ (tolerance c <= n + failures_in [r])%nat
  | (Some k, m) => (k < tolerance c)%nat /\ m = head (messages_in [r]) /\ (k = if no_success r then n + failures_in [r] else 0)%nat
  end.
Proof.
  unfold tolerance. intros Hn. destruct r as [|m| |m]; cbn; try (split_and!; auto; lia).
  destruct (Nat.leb_spec (max_failures c) (S n)); cbn; split_and!; auto; lia.
Qed.
Lemma run_loop_stops c n rs : (n < tolerance c)%nat ->
  (run_loop c n rs).1 = false <->
  (exists b r, rs = b ++ r /\ forallb no_success b = true /\ (tolerance c <= n + failures_in b)%nat)
  \/ exists a b r, rs = a ++ b ++ r /\ forallb no_success b = true /\ (tolerance c <= failures_in b)%nat.
Proof.
  revert n. induction rs as [|x rs IH]; intros n Hn; cbn [run_loop].
  - split; [done|]. intros [(b & r & E & _ & H)|(a & b & r & E & _ & H)].
    + symmetry in E. apply app_eq_nil in E as [-> _]. cbn in H. lia.
    + symmetry in E. apply app_eq_nil in E as [_ E]. apply app_eq_nil in E as [-> _]. unfold tolerance in H. cbn in H. lia.
  - pose proof (after_check_spec c x n Hn) as Hx. destruct (after_check c x n) as [[k|] m].
    + destruct Hx as (Hk & _ & Ek). specialize (IH k Hk). destruct (run_loop c k rs) as [alive out]. cbn [fst] in *. rewrite IH. split.
      * intros [(b & r & -> & Hb & Hf)|(a & b & r & -> & Hb & Hf)]; [|right; by exists (x :: a), b, r].
        destruct (no_success x) eqn:Ex; [left; exists (x :: b), r|right; exists [x], b, r]; subst k; cbn in *; rewrite ?Ex; split_and!; auto; try lia.
        unfold failures_in in *. cbn. destruct x; cbn in *; lia.
      * intros [(b & r & E & Hb & Hf)|(a & b & r & E & Hb & Hf)].
        -- destruct b as [|y b]; [cbn in Hf; lia|]. injection E as <- ->. cbn in Hb. apply andb_true_iff in Hb as [Hy Hb]. left. exists b, r.
           rewrite Hy in Ek. split_and!; auto. subst k. unfold failures_in in *. cbn in *. destruct x; cbn in *; lia.
        -- destruct a as [|y a]; [|injection E as <- ->; right; by exists a, b, r]. cbn in E. destruct b as [|y b]; [unfold tolerance in Hf; cbn in Hf; lia|].
           injection E as <- ->. cbn in Hb. apply andb_true_iff in Hb as [Hy Hb]. left. exists b, r. rewrite Hy in Ek. split_and!; auto.
           subst k. unfold failures_in in *. cbn in *. destruct x; cbn in *; lia.
    + destruct Hx as (-> & Hs & Hf). split; [|done]. intros _. left. exists [x], rs. cbn. by rewrite Hs.
Qed.
Lemma run_loop_sends c n rs : (n < tolerance c)%nat -> (run_loop c n rs).1 = true -> (run_loop c n rs).2 = alert <$> messages_in rs.
Proof.
  revert n. induction rs as [|x rs IH]; intros n Hn; cbn [run_loop]; [done|].
  pose proof (after_check_spec c x n Hn) as Hx. destruct (after_check c x n) as [[k|] m]; [|done]. destruct Hx as (Hk & -> & _).
  specialize (IH k Hk). destruct (run_loop c k rs) as [alive out]. cbn [fst snd] in *. intros Ha. rewrite (IH Ha). by destruct x.
Qed.
(** The heartbeat gives up exactly when [max_failures] checks have failed with
    no successful check between them; skipped checks neither count nor break
    the row.  Until then each finding is sent once, in order. *)
Theorem run_heartbeat_spec (c : HeartbeatConfig) (rs : list HeartbeatResult) :
  hb_enabled c = true ->
  let '(alive, sent) := run_heartbeat c rs in
  (alive = false <-> exists a b r, rs = a ++ b ++ r /\ forallb no_success b = true /\ (tolerance c <= failures_in b)%nat)
  /\ (alive = true -> sent = alert <$> messages_in rs).
Proof.
  intros He. unfold run_heartbeat. rewrite He. assert (H0 : (0 < tolerance c)%nat) by (unfold tolerance; lia).
  pose proof (run_loop_stops c 0 rs H0) as H1. pose proof (run_loop_sends c 0 rs H0) as H2. destruct (run_loop c 0 rs) as [alive sent]. cbn [fst snd] in *.
  split; [|exact H2]. rewrite H1. split; [|by right]. intros [(b & r & -> & Hb & Hf)|H]; [by exists [], b, r|exact H].
Qed.

(** ** Proofs: hygiene *)
Lemma trim_end_keep c s : is_whitespace c = false -> trim_end (String c s) = String c (trim_end s).
Proof. cbn. intros ->. by destruct (trim_end s). Qed.
Lemma normalize_daily s : starts_with (normalize_path ("daily/" ++s s)) "daily" = true.
Proof.
  unfold normalize_path, Strs.trim. change (trim_start ("daily/" ++s s)) with ("daily/" ++s s).
  change ("daily/" ++s s) with (String "d" (String "a" (String "i" (String "l" (String "y" (String "/" s)))))).
  rewrite !(trim_end_keep "d"), !(trim_end_keep "a"), !(trim_end_keep "i"), !(trim_end_keep "l"), !(trim_end_keep "y") by reflexivity.
  generalize (trim_end (String "/" s)) as r. intros r. cbn. by destruct (collapse_slashes _ _).
Qed.
Section HygieneProofs.
Context {E : Type} (user : string) (agent : option Uuid).
Implicit Types t : Tables E.
(** What a deletion under [daily/] may touch. *)
Definition daily_only t t' : Prop :=
  tables_ok t' /\ forall u a p, text_at u a p t' = text_at u a p t \/ (u = user /\ a = agent /\ starts_with p "daily" = true /\ text_at u a p t' = None).
Lemma delete_daily path t : starts_with path "daily/" = true -> tables_ok t -> daily_only t (delete user agent path t).2.
Proof.
  intros Hp Ht. destruct (read user agent path t) as [d|e] eqn:Er.
  - destruct (delete_spec user agent path t d Ht Er) as (t' & -> & Ht' & _ & Htx & _). split; [done|]. intros u a p. cbn [snd]. rewrite Htx.
    case_bool_decide as Hb; [|by left]. right. injection Hb as -> -> ->. split_and!; try done.
    apply starts_with_spec in Hp as [s ->]. apply normalize_daily.
  - unfold delete, delete_document_by_path. unfold read in Er. rewrite Er. cbn. split; [done|]. intros. by left.
Qed.
Lemma daily_only_trans t t1 t2 : daily_only t t1 -> daily_only t1 t2 -> daily_only t t2.
Proof.
  intros [_ H1] [Ht2 H2]. split; [done|]. intros u a p. destruct (H2 u a p) as [->|(-> & -> & Hp & Hn)]; [apply H1|right; done].
Qed.
Lemma clean_one_ok cutoff n t e : tables_ok t -> daily_only t (clean_one user agent cutoff (n, t) e).2.
Proof.
  intros Ht. cbn [clean_one]. destruct (stale cutoff e); [|split; [done|by left]].
  set (path := if starts_with (e_path e) "daily/" then _ else _). assert (Hp : starts_with path "daily/" = true).
  { unfold path. destruct (starts_with (e_path e) "daily/") eqn:Es; [done|]. apply starts_with_spec. by eexists. }
  pose proof (delete_daily path t Hp Ht) as H. destruct (delete user agent path t). exact H.
Qed.
Lemma cleanup_ok retention now t : tables_ok t -> daily_only t (cleanup_daily_logs user agent retention now t).2.
Proof.
  intros Ht. unfold cleanup_daily_logs. generalize (list_dir user agent "daily/" t) as es, 0%nat as n. intros es.
  enough (forall n t0, daily_only t t0 -> daily_only t (foldl (clean_one user agent (now - days retention)) (n, t0) es).2) as H
    by (intros n; apply H; split; [done|by left]).
  induction es as [|e es IH]; intros n t0 H; cbn [foldl]; [exact H|].
  pose proof (clean_one_ok (now - days retention) n t0 e (proj1 H)) as H1. destruct (clean_one _ _ _ _ _) as [n1 t1]. apply IH. by eapply daily_only_trans.
Qed.
(** A hygiene pass never touches another user's files, nor a file whose path
    does not begin with [daily]: identity files, memory and checklist survive
    every pass.  A pass that is disabled or not yet due changes nothing. *)
Theorem hygiene_spares (c : HygieneConfig) (now1 now2 now3 : DateTime) (last_run : option DateTime) t :
  tables_ok t ->
  let '(r, last', t') := run_if_due user agent c now1 now2 now3 last_run t in
  tables_ok t' /\ (hy_skipped r = true -> last' = last_run /\ t' = t) /\ (hy_skipped r = false -> last' = Some now3)
  /\ (forall u a p, (u, a) <> (user, agent) \/ starts_with p "daily" = false -> text_at u a p t' = text_at u a p t).
Proof.
  intros Ht. unfold run_if_due. destruct (negb _); [done|]. match goal with |- context [if ?b then _ else _] => destruct b; [done|] end.
  pose proof (cleanup_ok (retention_days c) now2 t Ht) as [H1 H2]. destruct (cleanup_daily_logs _ _ _ _ _) as [n t']. cbn [snd] in *.
  split_and!; try done. intros u a p Hp. destruct (H2 u a p) as [->|(-> & -> & Hs & _)]; [done|]. destruct Hp as [Hp|Hp]; congruence.
Qed.
End HygieneProofs.

(** ** Witnesses and examples *)
Lemma run_heartbeat_spec_witness :
  let '(alive, sent) := run_heartbeat default_heartbeat [HFailed "a"; NeedsAttention "mail"; HFailed "b"; Skipped; HFailed "c"]%string in
  alive = true /\ sent = [alert "mail"].
Proof.
  pose proof (run_heartbeat_spec default_heartbeat [HFailed "a"; NeedsAttention "mail"; HFailed "b"; Skipped; HFailed "c"]%string eq_refl) as H.
  destruct (run_heartbeat _ _) as [alive sent] eqn:E. assert (Ha : alive = true) by (apply (f_equal fst) in E; cbn in E; done).
  destruct H as [_ H]. rewrite Ha in *. split; [done|]. by apply H.
Defined.
Lemma hygiene_spares_witness :
  let t := (write "u" None None (stamp 1) "SOUL.md" "kind" no_files).2 in
  let '(_, _, t') := run_if_due "u" None (default_hygiene "d") 0 (days 60) 0 None t in
  text_at "u" None SOUL t' = Some "kind"%string.
Proof.
  set (t := (write "u" None None (stamp 1) "SOUL.md" "kind" no_files).2).
  assert (Ht : tables_ok t) by (split; repeat constructor; apply not_elem_of_nil).
  pose proof (hygiene_spares "u" None (default_hygiene "d") 0 (days 60) 0 None t Ht) as H. cbn zeta.
  destruct (run_if_due _ _ _ _ _ _ _ _) as [[r l] t']. destruct H as (_ & _ & _ & H). rewrite H by (right; reflexivity). reflexivity.
Defined.
(** A report that only mentions the marker is not sent; failures that skipped
    checks separate count as consecutive; an old log is deleted and a newer one kept. *)
Example marker_in_report : interpret (mkResponse "Disk full, so not HEARTBEAT_OK" 0 0 Stop None) = HOk.
Proof. vm_compute. done. Qed.
Example skips_do_not_reset : run_heartbeat default_heartbeat [HFailed "a"; Skipped; HFailed "b"; Skipped; HFailed "c"]%string = (false, []).
Proof. vm_compute. done. Qed.
Example old_log_deleted :
  let late i := mkStamp (N.of_nat i) (fun k => N.of_nat (100 + k)) (days 50) (days 50) (days 50) in
  let t := (write "u" None None (late 2%nat) "daily/b.md" "new" (write "u" None None (stamp 1) "daily/a.md" "old" no_files).2).2 in
  let '(r, _, t') := run_if_due "u" None (default_hygiene "d") (days 60) (days 60) (days 60) None t in
  daily_logs_deleted r = 1%nat /\ list_all "u" None t' = ["daily/b.md"]%string.
Proof. vm_compute. done. Qed.
