(* ===== verification/Shadow.v ===== *)
(** The shadow engine, [src/agent/shadow_engine.rs]: answers computed ahead of
    time for the messages a user is predicted to send next.

    The cache is one map for the whole agent; the engine's tasks take its locks
    one operation at a time.  The model is any provider, reading a JSON array
    of strings is [serde_json] and a parameter. *)

From Stdlib Require Import Ascii.
From S2P Require Import Prelude Strs Llm Safety.
#[local] Open Scope claw_scope.

Record ShadowCacheEntry := mkEntry { response : string; created_at : Instant }.
Abbreviation Cache := (gmap string ShadowCacheEntry).
Record ShadowEngine := mkShadow { enabled : bool; ttl : Duration; max_predictions : nat; min_input_chars : nat; permits : nat }.
Definition new_shadow (on : bool) (life : Duration) (predictions min_chars parallel : nat) : ShadowEngine :=
  mkShadow on life predictions min_chars (Nat.max parallel 1).
Definition normalize (input : string) : string := String.concat " " (split_whitespace (to_lowercase input)).
Definition alive (s : ShadowEngine) (now : Instant) (e : ShadowCacheEntry) : bool := now - created_at e <=? ttl s.

Definition try_get (s : ShadowEngine) (input : string) (now : Instant) (c : Cache) : option string * Cache :=
  if negb (enabled s) then (None, c)
  else
    let key := normalize input in
    match c !! key with
    | Some e => if alive s now e then (Some (response e), c) else (None, delete key c)
    | None => (None, delete key c)
    end.
Definition prune_expired (s : ShadowEngine) (now : Instant) (c : Cache) : Cache :=
  if enabled s then filter (fun kv => alive s now kv.2 = true) c else c.
(** Does a finished turn start a speculation?  [chars().count()]. *)
Fixpoint char_count (s : string) : nat :=
  match s with EmptyString => 0 | String c s => (if ascii_between 128 191 c then 0 else 1) + char_count s end.
Definition speculates (s : ShadowEngine) (user_input : string) : bool :=
  enabled s && negb (char_count user_input <? min_input_chars s)%nat.

(** The bit patterns of [0.2] and [0.4]. *)
Definition TEMP_PREDICT : Z := 0x3e4ccccd.
Definition TEMP_PRECOMPUTE : Z := 0x3ecccccd.
Section Speculation.
Context {Value Decimal P : Type} `{!LlmProvider Value Decimal P}.
Context (llm_show : LlmError -> string) (string_array : string -> option (list string)).
Implicit Types (p : P) (t : Instant) (c : Cache).

Definition trim_char_start (ch : ascii) : string -> string :=
  fix go s := match s with String c s' => if Ascii.eqb c ch then go s' else s | EmptyString => EmptyString end.
Definition bullet (line : string) : string := Strs.trim (trim_char_start "*"%char (trim_char_start "-"%char (Strs.trim line))).
Definition predictions_of (raw : string) : list string :=
  match string_array raw with
  | Some v => v
  | None => List.filter (fun s => negb (is_empty s)) (map bullet (lines raw))
  end.
Definition NEWLINE : string := String (chr 10) EmptyString.
Definition predict_request (s : ShadowEngine) (user_input assistant_response : string) : CompletionRequest Value :=
  with_max_tokens (with_temperature (new_request
    [msg_system "You predict likely follow-up user prompts for an assistant. Return JSON only.";
     msg_user ("Given this chat turn, predict up to " ++s pretty (Nat.max (max_predictions s) 1) ++s " likely short next user messages." ++s NEWLINE
       ++s "Return ONLY valid JSON as an array of strings." ++s NEWLINE ++s NEWLINE
       ++s "User: " ++s user_input ++s NEWLINE ++s "Assistant: " ++s assistant_response)]) TEMP_PREDICT) 180.
Definition predict_followup_prompts (s : ShadowEngine) (user_input assistant_response : string) p t : Result (list string) string * P * Instant :=
  match complete (predict_request s user_input assistant_response) p t with
  | (Err e, p, t) => (Err (llm_show e), p, t)
  | (Ok r, p, t) => (Ok (predictions_of (Strs.trim (resp_content r))), p, t)
  end.
Definition precompute_request (prompt : string) : CompletionRequest Value :=
  with_max_tokens (with_temperature (new_request
    [msg_system "You are a coding assistant. Give concise, practical answers. Do not use tools. If uncertain, state assumptions briefly.";
     msg_user prompt]) TEMP_PRECOMPUTE) 700.
Definition precompute_response (prompt : string) p t : Result string string * P * Instant :=
  match complete (precompute_request prompt) p t with
  | (Err e, p, t) => (Err (llm_show e), p, t)
  | (Ok r, p, t) => (Ok (resp_content r), p, t)
  end.
Record SpecState := mkSpec { s_cache : Cache; s_llm : P; s_time : Instant }.
Definition speculate_one (prompt : string) (st : SpecState) : SpecState :=
  let prediction := Strs.trim prompt in
  if is_empty prediction then st
  else
    let key := normalize prediction in
    match s_cache st !! key with
    | Some _ => st
    | None =>
        match precompute_response prediction (s_llm st) (s_time st) with
        | (Ok r, p, t) => mkSpec (<[key := mkEntry r t]> (s_cache st)) p t
        | (Err _, p, t) => mkSpec (s_cache st) p t
        end
    end.
Definition speculate_for_next_turn (s : ShadowEngine) (user_input assistant_response : string) (st : SpecState) : Result unit string * SpecState :=
  match predict_followup_prompts s user_input assistant_response (s_llm st) (s_time st) with
  | (Err e, p, t) => (Err e, mkSpec (s_cache st) p t)
  | (Ok ps, p, t) => (Ok tt, foldl (fun st x => speculate_one x st) (mkSpec (s_cache st) p t) (take (Nat.max (max_predictions s) 1) ps))
  end.
Definition spawn_speculation (s : ShadowEngine) (user_input assistant_response : string) (st : SpecState) : SpecState :=
  if speculates s user_input then (speculate_for_next_turn s user_input assistant_response st).2 else st.
End Speculation.
Arguments SpecState : clear implicits.

(** ** Proofs *)
(** A cached answer is given exactly while its entry is no older than [ttl],
    to any message with the same words whatever their case and spacing; asking
    drops an entry that is too old and no other. *)
Theorem try_get_spec (s : ShadowEngine) (input : string) (now : Instant) (c : Cache) :
  let '(r, c') := try_get s input now c in
  (forall a, r = Some a <-> enabled s = true /\ exists e, c !! normalize input = Some e /\ response e = a /\ now - created_at e <= ttl s)
  /\ (forall k e, c' !! k = Some e <-> c !! k = Some e /\ (enabled s = true -> k = normalize input -> now - created_at e <= ttl s)).
Proof.
  unfold try_get, alive. destruct (enabled s) eqn:Ee; cbn [negb]; [|split; [naive_solver|]; intros k e; split; [by intros; split|by intros [? _]]].
  destruct (c !! normalize input) as [e0|] eqn:E0; [destruct (Z.leb_spec (now - created_at e0) (ttl s)) as [Hl|Hl]|].
  - split.
    + intros a. split; [intros [= <-]; eauto 6|]. intros (_ & e & [= <-] & -> & _). done.
    + intros k e. split; [|by intros [? _]]. intros He. split; [done|]. intros _ ->. rewrite E0 in He. by injection He as <-.
  - split.
    + intros a. split; [done|]. intros (_ & e & [= <-] & _ & Hle). lia.
    + intros k e. rewrite lookup_delete_Some. split; [intros [Hne He]; split; [done|]; by intros _ ->|].
      intros [He Hk]. split; [|done]. intros <-. rewrite E0 in He. injection He as <-. specialize (Hk eq_refl eq_refl). lia.
  - split.
    + intros a. split; [done|]. by intros (_ & e & ? & _).
    + intros k e. rewrite lookup_delete_Some. split; [intros [Hne He]; split; [done|]; by intros _ ->|].
      intros [He Hk]. split; [|done]. intros <-. congruence.
Qed.
Section Bounds.
Context {Value Decimal P : Type} `{!LlmProvider Value Decimal P} (llm_show : LlmError -> string) (string_array : string -> option (list string)).
Implicit Types st : SpecState P.
Lemma speculate_one_cache prompt st :
  let st' := speculate_one (Value:=Value) llm_show prompt st in
  (size (s_cache st') <= S (size (s_cache st)))%nat /\ s_cache st ⊆ s_cache st'.
Proof.
  cbn zeta. unfold speculate_one. destruct (is_empty _); [split; [lia|done]|]. destruct (s_cache st !! _) as [e|] eqn:E; [split; [lia|done]|].
  destruct (precompute_response _ _ _ _) as [[[r|e] p] t]; cbn [s_cache]; [|split; [lia|done]].
  split; [rewrite map_size_insert_None by done; lia|by apply insert_subseteq].
Qed.
(** One turn adds at most [max_predictions] answers (at least one may be added
    when it is zero) and replaces none, not even one that is too old. *)
Theorem speculation_bounded (s : ShadowEngine) (user_input assistant_response : string) st :
  let st' := spawn_speculation (Value:=Value) llm_show string_array s user_input assistant_response st in
  (size (s_cache st') <= size (s_cache st) + Nat.max (max_predictions s) 1)%nat /\ s_cache st ⊆ s_cache st'.
Proof.
  cbn zeta. unfold spawn_speculation. destruct (speculates _ _); [|split; [lia|done]]. unfold speculate_for_next_turn.
  destruct (predict_followup_prompts _ _ _ _ _ _ _) as [[[ps|e] p] t]; cbn [snd s_cache]; [|split; [lia|done]].
  assert (H : forall l st0, (size (s_cache (foldl (fun st x => speculate_one (Value:=Value) llm_show x st) st0 l)) <= size (s_cache st0) + length l)%nat
                            /\ s_cache st0 ⊆ s_cache (foldl (fun st x => speculate_one (Value:=Value) llm_show x st) st0 l)).
  { induction l as [|x l IH]; intros st0; cbn [foldl length]; [split; [lia|done]|].
    destruct (IH (speculate_one (Value:=Value) llm_show x st0)) as [H1 H2]. destruct (speculate_one_cache x st0) as [H3 H4].
    split; [lia|by etrans]. }
  destruct (H (take (Nat.max (max_predictions s) 1) ps) (mkSpec (s_cache st) p t)) as [H1 H2]. cbn [s_cache] in H1, H2.
  rewrite length_take in H1. split; [lia|done].
Qed.
End Bounds.
