(* ===== verification/Kernel.v ===== *)
(** The kernel monitor and its orchestrator: [src/agent/kernel_monitor.rs] and
    [src/agent/kernel_orchestrator.rs].

    The monitor keeps a window of execution times per tool and a list of patch
    proposals; the orchestrator proposes a patch for each slow tool and deploys
    the approved ones.  The tool [jit_wasm_run] is found in a registry and is
    opaque, as are fresh ids and the printing of numbers. *)

From S2P Require Import Prelude Strs Json Float64.
#[local] Open Scope claw_scope.

Record ToolExecSample := mkSample { s_tool_name : string; s_duration : Duration; s_success : bool; s_timestamp : Instant }.
Record ToolPerfStats := mkStats {
  st_tool_name : string; total_executions : nat; total_failures : nat; avg_duration_ms : f64; p95_duration_ms : f64; max_duration_ms : f64 }.
Inductive PatchStatus := PendingApproval | Approved | Rejected | Deployed | Failed (reason : string).
#[export] Instance PatchStatus_eq_dec : EqDecision PatchStatus.
Proof. solve_decision. Defined.
Record PatchProposal := mkPatch {
  p_id : Uuid; p_tool_name : string; p_reason : string; proposed_rust_code : string; expected_speedup : f64; p_status : PatchStatus }.
Record KernelMonitor := mkMonitor {
  samples : gmap string (list ToolExecSample); pending_patches : list PatchProposal; slow_threshold_ms : f64; min_samples : nat;
  max_samples_per_tool : nat }.
Definition new_monitor : KernelMonitor := mkMonitor ∅ [] (f64_of 5000) 10 100.
Definition with_threshold (x : f64) (m : KernelMonitor) : KernelMonitor :=
  mkMonitor (samples m) (pending_patches m) x (min_samples m) (max_samples_per_tool m).
Definition set_patches (ps : list PatchProposal) (m : KernelMonitor) : KernelMonitor :=
  mkMonitor (samples m) ps (slow_threshold_ms m) (min_samples m) (max_samples_per_tool m).

(** ** The window of samples *)
Definition trim_window (max : nat) (l : list ToolExecSample) : list ToolExecSample :=
  if (max <? length l)%nat then drop (length l - max) l else l.
Definition record_execution (name : string) (d : Duration) (ok : bool) (now : Instant) (m : KernelMonitor) : KernelMonitor :=
  mkMonitor (<[name := trim_window (max_samples_per_tool m) (default [] (samples m !! name) ++ [mkSample name d ok now])]> (samples m))
    (pending_patches m) (slow_threshold_ms m) (min_samples m) (max_samples_per_tool m).

(** ** Statistics *)
Fixpoint insert_f64 (x : f64) (l : list f64) : list f64 :=
  match l with [] => [x] | y :: l' => if f64_ltb x y then x :: l else y :: insert_f64 x l' end.
(** [sort_by(partial_cmp)] of durations. *)
Definition sort_f64 (l : list f64) : list f64 := foldl (fun acc x => insert_f64 x acc) [] l.
Definition duration_ms (s : ToolExecSample) : f64 := f64_mul (as_secs_f64 (s_duration s)) (f64_of 1000).
Definition stats_of (name : string) (l : list ToolExecSample) : ToolPerfStats :=
  let n := length l in
  let ms := sort_f64 (map duration_ms l) in
  let avg := f64_div (foldl f64_add (f64_of 0) ms) (f64_of (Z.of_nat n)) in
  let idx := Z.to_nat (f64_to_usize (f64_mul (f64_of (Z.of_nat n)) (f64_lit 95 100))) in
  mkStats name n (length (List.filter (fun s => negb (s_success s)) l)) avg
    (default (f64_of 0) (ms !! Nat.min idx (n - 1))) (default (f64_of 0) (last ms)).
Definition compute_stats (m : KernelMonitor) : list ToolPerfStats :=
  flat_map (fun kv => match kv.2 with [] => [] | l => [stats_of kv.1 l] end) (map_to_list (samples m)).
Fixpoint insert_slow (x : ToolPerfStats) (l : list ToolPerfStats) : list ToolPerfStats :=
  match l with
  | [] => [x]
  | y :: l' => if f64_ltb (avg_duration_ms y) (avg_duration_ms x) then x :: l else y :: insert_slow x l'
  end.
Definition is_slow (m : KernelMonitor) (s : ToolPerfStats) : bool :=
  (min_samples m <=? total_executions s)%nat && f64_ltb (slow_threshold_ms m) (avg_duration_ms s).
Definition detect_bottlenecks (m : KernelMonitor) : list ToolPerfStats :=
  foldl (fun acc x => insert_slow x acc) [] (List.filter (is_slow m) (compute_stats m)).

(** ** Proposals *)
Definition propose_patch (p : PatchProposal) (m : KernelMonitor) : KernelMonitor := set_patches (pending_patches m ++ [p]) m.
Definition with_status (s : PatchStatus) (m : KernelMonitor) : list PatchProposal :=
  List.filter (fun p => bool_decide (p_status p = s)) (pending_patches m).
Definition list_pending_patches : KernelMonitor -> list PatchProposal := with_status PendingApproval.
Definition get_approved_patches : KernelMonitor -> list PatchProposal := with_status Approved.
Definition is_open (p : PatchProposal) : bool := match p_status p with PendingApproval | Approved => true | _ => false end.
Definition has_open_proposal_for_tool (name : string) (m : KernelMonitor) : bool :=
  existsb (fun p => String.eqb (p_tool_name p) name && is_open p) (pending_patches m).
Definition set_status (s : PatchStatus) (p : PatchProposal) : PatchProposal :=
  mkPatch (p_id p) (p_tool_name p) (p_reason p) (proposed_rust_code p) (expected_speedup p) s.
(** The first proposal with an id gets a status; is there one? *)
Fixpoint mark (id : Uuid) (s : PatchStatus) (ps : list PatchProposal) : bool * list PatchProposal :=
  match ps with
  | [] => (false, [])
  | p :: ps => if bool_decide (p_id p = id) then (true, set_status s p :: ps)
               else let '(b, ps) := mark id s ps in (b, p :: ps)
  end.
Definition mark_patch (s : PatchStatus) (id : Uuid) (m : KernelMonitor) : bool * KernelMonitor :=
  let '(b, ps) := mark id s (pending_patches m) in (b, set_patches ps m).
Definition approve_patch : Uuid -> KernelMonitor -> bool * KernelMonitor := mark_patch Approved.
Definition reject_patch : Uuid -> KernelMonitor -> bool * KernelMonitor := mark_patch Rejected.
Definition mark_deployed : Uuid -> KernelMonitor -> bool * KernelMonitor := mark_patch Deployed.
Definition mark_failed (id : Uuid) (reason : string) : KernelMonitor -> bool * KernelMonitor := mark_patch (Failed reason) id.
Definition get_patch (id : Uuid) (m : KernelMonitor) : option PatchProposal :=
  List.find (fun p => bool_decide (p_id p = id)) (pending_patches m).

(** ** The orchestrator *)
Record KernelOrchestratorConfig := mkOrchestrator { enabled : bool; interval : Duration; auto_approve : bool; auto_deploy : bool }.
Definition QUOTE : string := String (chr 34) EmptyString.
Definition generated_patch_stub (tool_name : string) : string :=
  "
fn run_inner(input_ptr: *const u8, input_len: usize) -> Result<String, String> {
    let input = if input_ptr.is_null() || input_len == 0 {
        String::new()
    } else {
        unsafe {
            let slice = std::slice::from_raw_parts(input_ptr, input_len);
            String::from_utf8(slice.to_vec()).map_err(|e| e.to_string())?
        }
    };
    log_info(" ++s QUOTE ++s "kernel patch probe for " ++s tool_name ++s QUOTE ++s ");
    Ok(serde_json::json!({
        " ++s QUOTE ++s "tool" ++s QUOTE ++s ": " ++s QUOTE ++s tool_name ++s QUOTE ++s ",
        " ++s QUOTE ++s "optimized" ++s QUOTE ++s ": true,
        " ++s QUOTE ++s "input_len" ++s QUOTE ++s ": input.len()
    }).to_string())
}
".
Section Orchestrator.
Context {W : Type} (cfg : KernelOrchestratorConfig).
Context (get_jit : W -> option (Json -> W -> Result Json string * W)).
Context (show1 : f64 -> string) (uuid_show : Uuid -> string) (status_debug : PatchStatus -> string) (json_show : Json -> string).
Implicit Types (m : KernelMonitor) (w : W).

Definition record_tool_execution (name : string) (d : Duration) (ok : bool) (now : Instant) m : KernelMonitor :=
  if enabled cfg then record_execution name d ok now m else m.
Definition make_proposal (id : Uuid) (s : ToolPerfStats) : PatchProposal :=
  mkPatch id (st_tool_name s)
    ("avg " ++s show1 (avg_duration_ms s) ++s "ms exceeds threshold with " ++s pretty (total_executions s) ++s " runs (p95 "
       ++s show1 (p95_duration_ms s) ++s "ms, max " ++s show1 (max_duration_ms s) ++s "ms)")
    (generated_patch_stub (st_tool_name s)) (f64_lit 115 100) PendingApproval.
(** A deployment runs the generated code once, on a probe. *)
Definition deploy_patch (p : PatchProposal) w : Result unit string * W :=
  match get_jit w with
  | None => (Err "jit_wasm_run is not registered"%string, w)
  | Some jit =>
      let '(r, w) := jit (JObject [("rust_code", JString (proposed_rust_code p));
                                   ("input_json", JString ("{" ++s QUOTE ++s "probe" ++s QUOTE ++s ":true}"))]%string) w in
      (match r with
       | Err e => Err e
       | Ok v => match json_get "error" v with Some e => Err ("JIT patch reported error: " ++s json_show e) | None => Ok tt end
       end, w)
  end.
Definition settle (p : PatchProposal) (r : Result unit string) m : KernelMonitor :=
  match r with Ok _ => (mark_deployed (p_id p) m).2 | Err e => (mark_failed (p_id p) e m).2 end.
Fixpoint deploy_all (ps : list PatchProposal) (mw : KernelMonitor * W) : KernelMonitor * W :=
  match ps with
  | [] => mw
  | p :: ps => let '(r, w) := deploy_patch p mw.2 in deploy_all ps (settle p r mw.1, w)
  end.
Definition deploy_approved_patches (mw : KernelMonitor * W) : KernelMonitor * W := deploy_all (get_approved_patches mw.1) mw.
Fixpoint propose_all (fresh : nat -> Uuid) (i : nat) (l : list ToolPerfStats) m : KernelMonitor :=
  match l with
  | [] => m
  | s :: l => propose_all fresh (S i) l
                (if has_open_proposal_for_tool (st_tool_name s) m then m else propose_patch (make_proposal (fresh i) s) m)
  end.
Definition approve_all m : KernelMonitor := foldl (fun m p => (approve_patch (p_id p) m).2) m (list_pending_patches m).
Definition tick (fresh : nat -> Uuid) (mw : KernelMonitor * W) : KernelMonitor * W :=
  let '(m, w) := mw in
  if negb (enabled cfg) then (m, w)
  else match detect_bottlenecks m with
  | [] => (m, w)
  | slow =>
      let m := propose_all fresh 0 slow m in
      let m := if auto_approve cfg then approve_all m else m in
      if auto_deploy cfg then deploy_approved_patches (m, w) else (m, w)
  end.
Definition deploy_patch_by_id (id : Uuid) (mw : KernelMonitor * W) : Result unit string * (KernelMonitor * W) :=
  let '(m, w) := mw in
  match get_patch id m with
  | None => (Err ("patch " ++s uuid_show id ++s " not found"), (m, w))
  | Some p =>
      if bool_decide (p_status p = Approved) then let '(r, w) := deploy_patch p w in (r, (settle p r m, w))
      else (Err ("patch " ++s uuid_show id ++s " is not approved (status: " ++s status_debug (p_status p) ++s ")"), (m, w))
  end.
End Orchestrator.

(** ** Proofs *)
Lemma mark_elem id s ps q : q ∈ (mark id s ps).2 -> q ∈ ps \/ (p_status q = s /\ p_id q = id).
Proof.
  induction ps as [|p ps IH]; cbn [mark]; [by left|]. case_bool_decide as Hp.
  - intros [->|Hq]%elem_of_cons; [by right|left; by right].
  - destruct (mark id s ps) as [b ps']. intros [->|Hq]%elem_of_cons; [left; by left|].
    destruct (IH Hq) as [H|H]; [left; by right|by right].
Qed.
Lemma mark_patch_elem s id m q : q ∈ pending_patches (mark_patch s id m).2 -> q ∈ pending_patches m \/ (p_status q = s /\ p_id q = id).
Proof. unfold mark_patch. pose proof (mark_elem id s (pending_patches m) q) as H. destruct (mark _ _ _). exact H. Qed.
(** Has the proposal been approved at some time? *)
Definition past_approval (s : PatchStatus) : bool := match s with Approved | Deployed | Failed _ => true | _ => false end.
(** [A] is the set of the ids a person has approved. *)
Definition approvals_ok (A : gset Uuid) (m : KernelMonitor) : Prop :=
  forall p, p ∈ pending_patches m -> past_approval (p_status p) = true -> p_id p ∈ A.
Lemma mark_patch_ok A s id m : approvals_ok A m -> (past_approval s = true -> id ∈ A) -> approvals_ok A (mark_patch s id m).2.
Proof. intros H Hs p [Hp|[<- <-]]%mark_patch_elem Hpast; [by apply H|by apply Hs]. Qed.
Lemma with_status_elem s m p : p ∈ with_status s m -> p ∈ pending_patches m /\ p_status p = s.
Proof. unfold with_status. intros [Hp Hs%bool_decide_eq_true]%list_elem_of_In%filter_In. by rewrite list_elem_of_In. Qed.

Section Steps.
Context {W : Type} (cfg : KernelOrchestratorConfig).
Context (get_jit : W -> option (Json -> W -> Result Json string * W)).
Context (show1 : f64 -> string) (uuid_show : Uuid -> string) (status_debug : PatchStatus -> string) (json_show : Json -> string).
Lemma settle_ok A p (r : Result unit string) m : approvals_ok A m -> p_id p ∈ A -> approvals_ok A (settle p r m).
Proof. intros H Hp. destruct r; apply mark_patch_ok; auto. Qed.
Lemma deploy_all_ok A ps mw :
  approvals_ok A mw.1 -> (forall p, p ∈ ps -> p_id p ∈ A) -> approvals_ok A (deploy_all get_jit json_show ps mw).1.
Proof.
  revert mw. induction ps as [|p ps IH]; intros [m w] H Hp; cbn [deploy_all]; [done|]. destruct (deploy_patch _ _ _ _) as [r w'].
  apply IH; [apply settle_ok; [done|apply Hp; by left]|intros q Hq; apply Hp; by right].
Qed.
Lemma propose_all_ok A fresh i l m : approvals_ok A m -> approvals_ok A (propose_all show1 fresh i l m).
Proof.
  revert i m. induction l as [|s l IH]; intros i m H; cbn [propose_all]; [done|]. apply IH. destruct (has_open_proposal_for_tool _ _); [done|].
  intros p [Hp| ->%list_elem_of_singleton]%elem_of_app; [by apply H|done].
Qed.
(** Everything that happens to the proposals, with the ids approved so far. *)
Inductive kernel_step : KernelMonitor * gset Uuid -> KernelMonitor * gset Uuid -> Prop :=
| ks_record name d ok now m A : kernel_step (m, A) (record_tool_execution cfg name d ok now m, A)
| ks_tick fresh w m A : kernel_step (m, A) ((tick cfg get_jit show1 json_show fresh (m, w)).1, A)
| ks_approve id m A : kernel_step (m, A) ((approve_patch id m).2, {[id]} ∪ A)
| ks_reject id m A : kernel_step (m, A) ((reject_patch id m).2, A)
| ks_deploy id w m A : kernel_step (m, A) ((deploy_patch_by_id get_jit uuid_show status_debug json_show id (m, w)).2.1, A).
Lemma tick_ok A fresh mw : auto_approve cfg = false -> approvals_ok A mw.1 -> approvals_ok A (tick cfg get_jit show1 json_show fresh mw).1.
Proof.
  destruct mw as [m w]. intros Ha H. unfold tick. destruct (negb _); [done|]. destruct (detect_bottlenecks m) as [|s l]; [done|]. rewrite Ha.
  destruct (auto_deploy cfg); [|by apply propose_all_ok]. apply deploy_all_ok; [by apply propose_all_ok|].
  intros p [Hp Hs]%with_status_elem. eapply (propose_all_ok A fresh 0 (s :: l) m H); [exact Hp|by rewrite Hs].
Qed.
Lemma kernel_step_ok s s' : auto_approve cfg = false -> kernel_step s s' -> approvals_ok s.2 s.1 -> approvals_ok s'.2 s'.1.
Proof.
  intros Ha []; cbn [fst snd]; intros H.
  - unfold record_tool_execution. by destruct (enabled cfg).
  - by apply tick_ok.
  - apply mark_patch_ok; [intros p Hp Hs; apply elem_of_union_r; by apply H|set_solver].
  - by apply mark_patch_ok.
  - unfold deploy_patch_by_id. destruct (get_patch id m) as [p|] eqn:Eg; [|done]. case_bool_decide as Hs; [|done].
    destruct (deploy_patch _ _ _ _) as [r w']. apply settle_ok; [done|]. unfold get_patch in Eg. apply find_some in Eg as [Hp _].
    apply H; [by apply list_elem_of_In|by rewrite Hs].
Qed.
End Steps.

(** ** One open proposal per slow tool *)
Definition open_for (name : string) (m : KernelMonitor) : nat :=
  length (List.filter (fun p => String.eqb (p_tool_name p) name && is_open p) (pending_patches m)).
Lemma has_open_iff name m : has_open_proposal_for_tool name m = true <-> (0 < open_for name m)%nat.
Proof.
  unfold has_open_proposal_for_tool, open_for. induction (pending_patches m) as [|p l IH]; cbn; [split; [done|lia]|].
  destruct (_ && _); cbn; [split; [lia|done]|exact IH].
Qed.
Lemma propose_all_open show1 fresh i l m name :
  let m' := propose_all show1 fresh i l m in
  (open_for name m <= open_for name m' <= Nat.max 1 (open_for name m))%nat
  /\ ((exists s, s ∈ l /\ st_tool_name s = name) -> (0 < open_for name m')%nat).
Proof.
  cbn zeta. revert i m. induction l as [|s l IH]; intros i m; cbn [propose_all]; [split; [lia|by intros (s & ?%not_elem_of_nil & _)]|].
  set (m1 := if has_open_proposal_for_tool (st_tool_name s) m then m else propose_patch (make_proposal show1 (fresh i) s) m).
  assert (H1 : (open_for name m <= open_for name m1 <= Nat.max 1 (open_for name m))%nat /\ (st_tool_name s = name -> (0 < open_for name m1)%nat)).
  { unfold m1. destruct (has_open_proposal_for_tool (st_tool_name s) m) eqn:Eo.
    - split; [lia|]. intros <-. by apply has_open_iff.
    - assert (Hz : open_for (st_tool_name s) m = 0%nat).
      { destruct (open_for (st_tool_name s) m) eqn:Ez; [done|]. exfalso. apply not_true_iff_false in Eo. apply Eo, has_open_iff. lia. }
      unfold open_for at 2 3 5, propose_patch. cbn [pending_patches set_patches]. rewrite List.filter_app, length_app. cbn [List.filter p_tool_name make_proposal is_open p_status].
      fold (open_for name m). destruct (String.eqb_spec (st_tool_name s) name) as [<-|Hn]; cbn; [rewrite Hz; split; lia|split; [lia|done]]. }
  destruct (IH (S i) m1) as [H2 H3]. split; [lia|]. intros (x & [->|Hx]%elem_of_cons & Hn); [|apply H3; by exists x].
  destruct H1 as [_ H1]. specialize (H1 Hn). lia.
Qed.
(** A tick without automatic deployment leaves every slow tool with an open
    proposal, and gives no tool a second one. *)
Theorem tick_proposals {W} (cfg : KernelOrchestratorConfig) (get_jit : W -> option (Json -> W -> Result Json string * W)) (show1 : f64 -> string) (json_show : Json -> string) (fresh : nat -> Uuid) (m : KernelMonitor) (w : W) (name : string) :
  enabled cfg = true -> auto_approve cfg = false -> auto_deploy cfg = false ->
  let m' := (tick cfg get_jit show1 json_show fresh (m, w)).1 in
  ((exists s, s ∈ detect_bottlenecks m /\ st_tool_name s = name) -> has_open_proposal_for_tool name m' = true)
  /\ (open_for name m <= open_for name m' <= Nat.max 1 (open_for name m))%nat.
Proof.
  intros He Ha Hd. cbn zeta. unfold tick. rewrite He, Ha, Hd. cbn [negb]. destruct (detect_bottlenecks m) as [|s l].
  - split; [by intros (x & ?%not_elem_of_nil & _)|cbn; lia].
  - pose proof (propose_all_open show1 fresh 0 (s :: l) m name) as [H1 H2]. cbn [fst]. split; [|exact H1]. intros Hs. apply has_open_iff. by apply H2.
Qed.

(** The window of a tool holds its last samples, at most as many as allowed. *)
Theorem record_execution_spec (name : string) (d : Duration) (ok : bool) (now : Instant) (m : KernelMonitor) :
  let old := default [] (samples m !! name) in
  exists l, samples (record_execution name d ok now m) !! name = Some l
    /\ (exists gone, old ++ [mkSample name d ok now] = gone ++ l) /\ length l = Nat.min (max_samples_per_tool m) (S (length old))
    /\ forall other, other <> name -> samples (record_execution name d ok now m) !! other = samples m !! other.
Proof.
  cbn zeta. unfold record_execution. cbn [samples]. set (l0 := default [] (samples m !! name) ++ _). rewrite lookup_insert_eq.
  eexists. split; [done|]. assert (Hl : length l0 = S (length (default [] (samples m !! name)))) by (unfold l0; rewrite length_app; cbn; lia).
  split_and!.
  - unfold trim_window. destruct (_ <? _)%nat; [exists (take (length l0 - max_samples_per_tool m) l0); by rewrite take_drop|by exists []].
  - unfold trim_window. destruct (Nat.ltb_spec (max_samples_per_tool m) (length l0)); [rewrite length_drop|]; lia.
  - intros other Hne. by rewrite lookup_insert_ne.
Qed.

(** ** Witnesses and examples *)
Definition slow_sample : ToolExecSample := mkSample "http" (from_secs 6) true 0.
Definition slow_monitor : KernelMonitor := mkMonitor {["http"%string := repeat slow_sample 10]} [] (f64_of 5000) 10 100.
Definition manual : KernelOrchestratorConfig := mkOrchestrator true (from_secs 60) false false.
Definition show_none {A} (x : A) : string := EmptyString.
Definition good_jit (w : unit) : option (Json -> unit -> Result Json string * unit) := Some (fun _ w => (Ok JNull, w)).
Lemma slow_monitor_bottleneck : st_tool_name <$> detect_bottlenecks slow_monitor = ["http"%string].
Proof. vm_compute. done. Qed.
Lemma tick_proposals_witness :
  has_open_proposal_for_tool "http" (tick manual good_jit show_none show_none (fun i => N.of_nat i) (slow_monitor, tt)).1 = true.
Proof.
  apply (tick_proposals manual good_jit show_none show_none (fun i => N.of_nat i) slow_monitor tt "http"); [done..|].
  pose proof slow_monitor_bottleneck as H. destruct (detect_bottlenecks slow_monitor) as [|s l]; [done|]. exists s. split; [by left|]. by injection H.
Defined.
(** Ten slow runs, a tick, and an approval. *)
Definition busy : KernelMonitor := Nat.iter 10 (record_tool_execution manual "http" (from_secs 6) true 0) new_monitor.
Definition proposed : KernelMonitor := (tick manual good_jit show_none show_none (fun _ => 1%N) (busy, tt)).1.
Lemma busy_reached : rtc (kernel_step manual good_jit show_none show_none show_none show_none) (new_monitor, ∅) ((approve_patch 1%N proposed).2, {[1%N]} ∪ ∅).
Proof.
  eapply rtc_r; [|apply ks_approve]. eapply rtc_r; [|apply ks_tick with (w := tt)]. unfold busy.
  induction (10%nat) as [|n IH]; [apply rtc_refl|]. eapply rtc_r; [exact IH|]. cbn [Nat.iter nat_rect]. apply ks_record.
Qed.
(** A veto does not hold: a rejected patch can be approved and deployed, and a
    slow tool whose patch was rejected gets a new proposal at the next tick. *)
Example veto_is_not_final :
  let m1 := (tick manual good_jit show_none show_none (fun i => 1%N) (slow_monitor, tt)).1 in
  let m2 := (reject_patch 1%N m1).2 in
  let m3 := (tick manual good_jit show_none show_none (fun i => 2%N) (m2, tt)).1 in
  p_status <$> pending_patches m3 = [Rejected; PendingApproval]
  /\ p_status <$> pending_patches (approve_patch 1%N m3).2 = [Approved; PendingApproval]
  /\ p_status <$> pending_patches (deploy_patch_by_id good_jit show_none show_none show_none 1%N ((approve_patch 1%N m3).2, tt)).2.1 = [Deployed; PendingApproval].
Proof. vm_compute. done. Qed.
