(* ===== verification/JobTools.v ===== *)
(** The tools that manage jobs: [src/tools/builtin/job.rs].

    Without Docker a job is a context of the [ContextManager]; with it the
    tool drives the container manager of [Containers].  Writes to the database
    are spawned and never awaited, so they are a log of what was requested.
    The environment, the secrets store, the database and the text of ids,
    dates and amounts are arguments. *)

From Stdlib Require Import Ascii.
From S2P Require Import Prelude Strs Llm Json Tool Files Containers OrchestratorApi JobState JobMemory ContextManager.
#[local] Open Scope claw_scope.

(** ** Texts of errors and states *)
Definition job_error_display (uuid_show : Uuid -> string) (e : JobError) : string :=
  match e with
  | MaxJobsExceeded max => "Maximum parallel jobs (" ++s pretty (Z.of_nat max) ++s ") exceeded"
  | NotFound id => "Job " ++s uuid_show id ++s " not found"
  end.
Definition orchestrator_error_display (uuid_show : Uuid -> string) (e : OrchestratorError) : string :=
  match e with
  | ContainerCreationFailed id reason => "Container creation failed for job " ++s uuid_show id ++s ": " ++s reason
  | ContainerNotFound id => "Container not found for job " ++s uuid_show id
  | InvalidContainerState id st => "Container for job " ++s uuid_show id ++s " is in unexpected state: " ++s st
  | ApiError reason => "Internal API error: " ++s reason
  | DockerError reason => "Docker error: " ++s reason
  end.
(** [derive(Debug)] of [JobState]. *)
Definition job_state_debug (s : JobState) : string :=
  match s with
  | Pending => "Pending" | InProgress => "InProgress" | Completed => "Completed" | Submitted => "Submitted"
  | Accepted => "Accepted" | JobState.Failed => "Failed" | Stuck => "Stuck" | Cancelled => "Cancelled"
  end.

(** ** Names of environment variables *)
Definition DANGEROUS_ENV_VARS : list string :=
  ["LD_PRELOAD"; "LD_LIBRARY_PATH"; "LD_AUDIT"; "DYLD_INSERT_LIBRARIES"; "DYLD_LIBRARY_PATH";
   "BASH_ENV"; "ENV"; "CDPATH"; "IFS"; "PATH"; "HOME";
   "PYTHONPATH"; "NODE_PATH"; "PERL5LIB"; "RUBYLIB"; "CLASSPATH";
   "JAVA_TOOL_OPTIONS"; "MAVEN_OPTS"; "USER"; "SHELL"; "RUST_LOG"]%string.
Definition env_start (c : ascii) : bool := ascii_between 65 90 c || Ascii.eqb c "_"%char.
Definition env_rest (c : ascii) : bool := env_start c || ascii_between 48 57 c.
Fixpoint all_chars (p : ascii -> bool) (s : string) : bool :=
  match s with EmptyString => true | String c s => p c && all_chars p s end.
Definition env_name_shape (name : string) : bool :=
  match name with EmptyString => true | String c s => env_start c && all_chars env_rest s end.
Definition validate_env_var_name (name : string) : Result unit ExecError :=
  if is_empty name then Err (InvalidParameters "env var name cannot be empty")
  else if negb (env_name_shape name)
  then Err (InvalidParameters ("env var '" ++s name ++s "' must match [A-Z_][A-Z0-9_]* (uppercase, underscores, digits)"))
  else if bool_decide (name ∈ DANGEROUS_ENV_VARS)
  then Err (InvalidParameters ("env var '" ++s name ++s "' is on the denylist (could hijack process behavior)"))
  else Ok tt.

(** ** The directory of a job *)
Fixpoint without_hyphens (s : string) : string :=
  match s with
  | EmptyString => EmptyString
  | String c s => if Ascii.eqb c "-"%char then without_hyphens s else String c (without_hyphens s)
  end.
Definition projects_base (home_dir : option Path) : Path :=
  join (join (default [CurDir] home_dir) [Normal ".ironclaw"]) [Normal "projects"].
Definition BLANK_LINE : string := String (chr 10) (String (chr 10) EmptyString).
Definition failed {A} (text : string) : Result A ExecError := Err (ExecutionFailed text).
Definition resolve_explicit_dir (io_show : IoError -> string) (base d : Path) (e : Env) : Result Path ExecError :=
  match resolve e d with
  | Err x => Err (InvalidParameters ("explicit project dir " ++s path_display d
                    ++s " does not exist or is inaccessible: " ++s io_show x))
  | Ok q => if path_starts_with (phys q) base then Ok (phys q)
            else Err (InvalidParameters ("project directory must be under " ++s path_display base))
  end.
Definition create_own_dir (io_show : IoError -> string) (base : Path) (id : string) (e : Env) : Result Path ExecError * Env :=
  let dir := join base (components id) in
  match create_dir_all (length dir) e dir with
  | (Err x, e) => (failed ("failed to create project dir " ++s path_display dir ++s ": " ++s io_show x), e)
  | (Ok _, e) =>
      (match resolve e dir with
       | Err x => failed ("failed to canonicalize project dir " ++s path_display dir ++s ": " ++s io_show x)
       | Ok q => Ok (phys q)
       end, e)
  end.
Definition browse_id (dir : Path) (id : string) : string := default id (file_name dir).
Definition resolve_project_dir (io_show : IoError -> string) (home_dir : option Path) (explicit : option Path) (id : string) (e : Env)
  : Result (Path * string) ExecError * Env :=
  let base := projects_base home_dir in
  match create_dir_all (length base) e base with
  | (Err x, e) => (failed ("failed to create projects base " ++s path_display base ++s ": " ++s io_show x), e)
  | (Ok _, e) =>
      match resolve e base with
      | Err x => (failed ("failed to canonicalize projects base: " ++s io_show x), e)
      | Ok b =>
          let '(r, e) := match explicit with
                         | Some d => (resolve_explicit_dir io_show (phys b) d e, e)
                         | None => create_own_dir io_show (phys b) id e
                         end in
          (match r with Ok dir => Ok (dir, browse_id dir id) | Err x => Err x end, e)
      end
  end.

(** ** The state the tools work on *)
Record SandboxJobRecord := mkSandboxRecord {
  sb_id : Uuid; sb_task : string; sb_status : string; sb_user_id : string; sb_project_dir : string; sb_success : option bool;
  sb_failure_reason : option string; sb_created_at : DateTime; sb_started_at : option DateTime; sb_completed_at : option DateTime;
  sb_grants : list CredentialGrant }.
Inductive DbWrite :=
| SaveJob (r : SandboxJobRecord)
| SetMode (id : Uuid) (mode : string)
| SetStatus (id : Uuid) (status : string) (ok : option bool) (message : option string) (started completed : option DateTime).
Record JobEvent := mkJobEvent { je_type : string; je_data : Json; je_created_at : DateTime }.
(** What [CreateJobTool] was given besides the container manager. *)
Record ToolDeps := mkToolDeps {
  get_setting : option (string -> string -> Result (option Json) string);
  runtime_default : option string;
  secret_exists : option (string -> string -> Result bool string);
  monitored : bool }.
Definition has_store (d : ToolDeps) : bool := match get_setting d with Some _ => true | None => false end.

Record World {Decimal D : Type} := mkWorld {
  cm : ContextManager Decimal Json; jm : JobManager D; prompts : gmap Uuid (list PendingPrompt);
  db : list DbWrite; monitors : list Uuid }.
Arguments World : clear implicits.

Section JobTools.
Context {Decimal D : Type} `{!DecimalOps Decimal} (docker : DockerOps D) (config : ContainerJobConfig).
Context (linux : bool) (home_dir : option Path) (opencode_model : option string) (io_show : IoError -> string).
(** The text of ids, dates and amounts, and the parser of ids. *)
Context (uuid_show : Uuid -> string) (parse_uuid : string -> option Uuid) (rfc3339 : DateTime -> string) (dec_show : Decimal -> string).
Abbreviation W := (World Decimal D).
Abbreviation Mgr := (ContextManager Decimal Json).
Abbreviation Answer := (Result Json ExecError).
Implicit Types w : W.

Definition set_cm (m : Mgr) w : W := mkWorld _ _ m (jm w) (prompts w) (db w) (monitors w).
Definition set_jm (m : JobManager D) w : W := mkWorld _ _ (cm w) m (prompts w) (db w) (monitors w).
Definition set_prompts (q : gmap Uuid (list PendingPrompt)) w : W := mkWorld _ _ (cm w) (jm w) q (db w) (monitors w).
Definition save (x : DbWrite) w : W := mkWorld _ _ (cm w) (jm w) (prompts w) (db w ++ [x]) (monitors w).
Definition monitor (id : Uuid) w : W := mkWorld _ _ (cm w) (jm w) (prompts w) (db w) (monitors w ++ [id]).

(** ** Finding a job *)
Definition has_prefix (lower : string) (id : Uuid) : bool := starts_with (without_hyphens (uuid_show id)) lower.
Definition resolve_job_id (input : string) (m : Mgr) : Result Uuid ExecError :=
  match parse_uuid input with
  | Some id => Ok id
  | None =>
      if (String.length input <? 4)%nat then Err (InvalidParameters "job ID prefix must be at least 4 hex characters")
      else match List.filter (has_prefix (to_lowercase input)) (all_jobs m) with
           | [id] => Ok id
           | [] => Err (InvalidParameters ("no job found matching prefix '" ++s input ++s "'"))
           | l => Err (InvalidParameters ("ambiguous prefix '" ++s input ++s "' matches " ++s pretty (Z.of_nat (length l))
                         ++s " jobs, provide more characters"))
           end
  end.

(** ** [create_job] *)
Definition parse_job_mode (raw : string) : option JobMode :=
  let t := to_lowercase (Strs.trim raw) in
  if String.eqb t "worker" then Some Containers.Worker
  else if String.eqb t "claude_code" then Some ClaudeCode
  else if String.eqb t "opencode" then Some OpenCode
  else None.
Definition setting_mode (deps : ToolDeps) (user : string) : option JobMode :=
  match get_setting deps with
  | None => None
  | Some get => match get user "coding_runtime_default"%string with
                | Ok (Some v) => as_str v ≫= parse_job_mode
                | _ => None
                end
  end.
Definition resolve_default_mode (deps : ToolDeps) (user : string) : JobMode :=
  match setting_mode deps user with
  | Some md => md
  | None => default Containers.Worker (runtime_default deps ≫= parse_job_mode)
  end.
Definition requested_mode (params : Json) (default_mode : JobMode) : JobMode :=
  default default_mode (get_str "mode" params ≫= parse_job_mode).
Definition effective_mode (available : bool) (requested default_mode : JobMode) : JobMode :=
  match requested with
  | ClaudeCode =>
      if available then ClaudeCode
      else match default_mode with ClaudeCode => OpenCode | other => other end
  | other => other
  end.

Definition MAX_CREDENTIAL_GRANTS : nat := 20.
Definition grant_of (exists_ : string -> string -> Result bool string) (user name : string) (v : Json) : Result CredentialGrant ExecError :=
  match as_str v with
  | None => Err (InvalidParameters ("credential env var for '" ++s name ++s "' must be a string"))
  | Some env =>
      match validate_env_var_name env with
      | Err e => Err e
      | Ok _ =>
          match exists_ user name with
          | Err e => failed ("failed to check secret '" ++s name ++s "': " ++s e)
          | Ok false => failed ("secret '" ++s name ++s "' not found. Store it first via 'ironclaw tool auth' or the web UI.")
          | Ok true => Ok (mkGrant name env)
          end
      end
  end.
Fixpoint grants_of (exists_ : string -> string -> Result bool string) (user : string) (l : list (string * Json))
  : Result (list CredentialGrant) ExecError :=
  match l with
  | [] => Ok []
  | (name, v) :: l =>
      match grant_of exists_ user name v with
      | Err e => Err e
      | Ok g => match grants_of exists_ user l with Ok gs => Ok (g :: gs) | Err e => Err e end
      end
  end.
Definition parse_credentials (deps : ToolDeps) (params : Json) (user : string) : Result (list CredentialGrant) ExecError :=
  match json_get "credentials" params with
  | Some (JObject ((_ :: _) as l)) =>
      if (MAX_CREDENTIAL_GRANTS <? length l)%nat
      then Err (InvalidParameters ("too many credential grants (" ++s pretty (Z.of_nat (length l)) ++s ", max "
                  ++s pretty (Z.of_nat MAX_CREDENTIAL_GRANTS) ++s ")"))
      else match secret_exists deps with
           | None => failed "credentials requested but no secrets store is configured. Set SECRETS_MASTER_KEY to enable credential management."
           | Some ex => grants_of ex user l
           end
  | _ => Ok []
  end.

Definition persist (deps : ToolDeps) (x : DbWrite) w : W := if has_store deps then save x w else w.
Definition update_status (deps : ToolDeps) (id : Uuid) (status : string) (ok : option bool) (message : option string)
    (started completed : option DateTime) : W -> W :=
  persist deps (SetStatus id status ok message started completed).
Definition job_failed (deps : ToolDeps) (id : Uuid) (message : string) (now : DateTime) : W -> W :=
  update_status deps id "failed" (Some false) (Some message) None (Some now).
Definition job_completed (deps : ToolDeps) (id : Uuid) (now : DateTime) : W -> W :=
  update_status deps id "completed" (Some true) None None (Some now).

Definition execute_local (fresh : Uuid) (now : DateTime) (title description user : string) w : Answer * W :=
  let '(r, m) := create_job_for_user (cm w) fresh now JNull user title description in
  (Ok match r with
      | Ok id => JObject [("job_id", JString (uuid_show id)); ("title", JString title); ("status", JString "pending");
                          ("message", JString ("Created job '" ++s title ++s "'"))]%string
      | Err e => JObject [("error", JString (job_error_display uuid_show e))]%string
      end, set_cm m w).

(** What the run of a container job takes from outside: the new id, the bytes
    of its token, the times of the records, the start of the wait, and for
    every round of the wait the two clocks and what others did to the
    containers since the last round. *)
Record Turn := mkTurn { clock : Instant; wall : DateTime; others : JobManager D -> JobManager D }.
Record Run := mkRun {
  run_id : Uuid; token_bytes : list Z; t_saved : DateTime; t_created : DateTime; t_started : DateTime;
  wait_start : Instant; turns : list Turn }.
Definition WAIT_SECS : Z := 600.
Definition finished_json (id : Uuid) (output dir browse : string) : Json :=
  JObject [("job_id", JString (uuid_show id)); ("status", JString "completed"); ("output", JString output);
           ("project_dir", JString dir); ("browse_url", JString ("/projects/" ++s browse))]%string.
Definition settled (deps : ToolDeps) (id : Uuid) (dir browse : string) (now : DateTime) (h : ContainerHandle) w : Answer * W :=
  let said d := default d (completion_result h ≫= completion_message) in
  let w := set_jm (cleanup_job id (jm w)) w in
  let fail message := (failed ("container job failed: " ++s message), job_failed deps id message now w) in
  match Containers.state h with
  | Containers.Failed => fail (said "unknown failure"%string)
  | _ =>
      let message := said "Container job completed"%string in
      if default true (Containers.success <$> completion_result h)
      then (Ok (finished_json id message dir browse), job_completed deps id now w)
      else fail message
  end.
Fixpoint wait_loop (deps : ToolDeps) (id : Uuid) (dir browse : string) (deadline : Instant)
    (ts : list Turn) w : option Answer * W :=
  match ts with
  | [] => (None, w)
  | t :: ts =>
      let now := wall t in
      let w := set_jm (others t (jm w)) w in
      if deadline <? clock t
      then let m := (stop_job docker id (jm w)).2 in
           let w := set_jm (cleanup_job id m) w in
           (Some (failed "container execution timed out (10 minutes)"), job_failed deps id "Timed out (10 minutes)" now w)
      else match get_handle id (jm w) with
           | None => (Some (Ok (finished_json id "Container job completed" dir browse)), job_completed deps id now w)
           | Some h =>
               match Containers.state h with
               | Running | Creating => wait_loop deps id dir browse deadline ts w
               | Stopped | Containers.Failed => let '(r, w) := settled deps id dir browse now h w in (Some r, w)
               end
           end
  end.
Definition started_json (id : Uuid) (dir browse : string) : Json :=
  JObject [("job_id", JString (uuid_show id)); ("status", JString "started");
           ("message", JString "Container started. Use job_events to check status or job_prompt to send follow-up instructions.");
           ("project_dir", JString dir); ("browse_url", JString ("/projects/" ++s browse))]%string.
Definition saved_job (r : Run) (task user dir : string) (grants : list CredentialGrant) : SandboxJobRecord :=
  mkSandboxRecord (run_id r) task "creating" user dir None None (t_saved r) None None grants.
Definition record_job (deps : ToolDeps) (r : Run) (task user dir : string) (md : JobMode) (grants : list CredentialGrant) w : W :=
  let w := persist deps (SaveJob (saved_job r task user dir grants)) w in
  if bool_decide (md = Containers.Worker) then w else persist deps (SetMode (run_id r) (job_mode_as_str md)) w.
Definition execute_sandbox (deps : ToolDeps) (r : Run) (task : string) (explicit : option Path) (wait : bool) (md : JobMode)
    (grants : list CredentialGrant) (user : string) w : option Answer * W :=
  let id := run_id r in
  let '(dir, e) := resolve_project_dir io_show home_dir explicit (uuid_show id) (fs (jm w)) in
  let w := set_jm (with_fs e (jm w)) w in
  match dir with
  | Err x => (Some (Err x), w)
  | Ok (dir, browse) =>
      let w := record_job deps r task user (path_display dir) md grants w in
      let '(made, m) := Containers.create_job docker config linux home_dir opencode_model io_show uuid_show
                          (token_bytes r) (t_created r) id task (Some dir) md grants (jm w) in
      let w := set_jm m w in
      match made with
      | Err e => (Some (failed ("failed to create container: " ++s orchestrator_error_display uuid_show e)),
                  job_failed deps id (orchestrator_error_display uuid_show e) (t_started r) w)
      | Ok _ =>
          let w := update_status deps id "running" None None (Some (t_started r)) None w in
          if wait then wait_loop deps id (path_display dir) browse (wait_start r + from_secs WAIT_SECS) (turns r) w
          else (Some (Ok (started_json id (path_display dir) browse)), if monitored deps then monitor id w else w)
      end
  end.
Definition create_job_tool (deps : option ToolDeps) (r : Run) (params : Json) (user : string) w : option Answer * W :=
  match require_str params "title" with
  | Err e => (Some (Err e), w)
  | Ok title =>
      match require_str params "description" with
      | Err e => (Some (Err e), w)
      | Ok description =>
          match deps with
          | None => let '(a, w) := execute_local (run_id r) (t_saved r) title description user w in (Some a, w)
          | Some deps =>
              let wait := default true (get_bool "wait" params) in
              let default_mode := resolve_default_mode deps user in
              let md := effective_mode (claude_code_available config) (requested_mode params default_mode) default_mode in
              match parse_credentials deps params user with
              | Err e => (Some (Err e), w)
              | Ok grants =>
                  execute_sandbox deps r (title ++s BLANK_LINE ++s description) (components <$> get_str "project_dir" params)
                    wait md grants user w
              end
          end
      end
  end.
Definition execution_timeout (sandbox : bool) : Duration := from_secs (if sandbox then 660 else 30).

(** ** The other tools *)
Definition jnat (n : nat) : Json := jint (Z.of_nat n).
Definition listed (filter : string) (c : JobContext Decimal Json) : bool :=
  if String.eqb filter "completed" then bool_decide (state c = Completed)
  else if String.eqb filter "failed" then bool_decide (state c = JobState.Failed)
  else if String.eqb filter "active" then is_active (state c)
  else true.
Definition job_line (id : Uuid) (c : JobContext Decimal Json) : Json :=
  JObject [("job_id", JString (uuid_show id)); ("title", JString (title c)); ("status", JString (job_state_debug (state c)));
           ("created_at", JString (rfc3339 (created_at c)))]%string.
Definition job_lines (filter user : string) (m : Mgr) : list Json :=
  let ids := if String.eqb filter "active" then active_jobs_for m user else all_jobs_for m user in
  omap (fun id => match get_context m id with
                  | Ok c => if listed filter c then Some (job_line id c) else None
                  | Err _ => None
                  end) ids.
Definition list_jobs_tool (params : Json) (user : string) (m : Mgr) : Answer :=
  let filter := default "all"%string (get_str "filter" params) in
  let s := summary_for m user in
  Ok (JObject [("jobs", JArray (job_lines filter user m));
               ("summary", JObject [("total", jnat (sm_total s)); ("pending", jnat (sm_pending s));
                                    ("in_progress", jnat (sm_in_progress s)); ("completed", jnat (sm_completed s));
                                    ("failed", jnat (sm_failed s))])]%string).

Definition error_json (text : string) : Json := JObject [("error", JString text)]%string.
Definition opt_time (t : option DateTime) : Json := match t with Some t => JString (rfc3339 t) | None => JNull end.
Definition status_json (id : Uuid) (c : JobContext Decimal Json) : Json :=
  JObject [("job_id", JString (uuid_show id)); ("title", JString (title c)); ("description", JString (description c));
           ("status", JString (job_state_debug (state c))); ("created_at", JString (rfc3339 (created_at c)));
           ("started_at", opt_time (started_at c)); ("completed_at", opt_time (completed_at c));
           ("actual_cost", JString (dec_show (actual_cost c)))]%string.
Definition job_status_tool (params : Json) (user : string) (m : Mgr) : Answer :=
  match require_str params "job_id" with
  | Err e => Err e
  | Ok input =>
      match resolve_job_id input m with
      | Err e => Err e
      | Ok id =>
          Ok match get_context m id with
             | Ok c => if bool_decide (user_id c = user) then status_json id c else error_json "Job not found"
             | Err e => error_json ("Job not found: " ++s job_error_display uuid_show e)
             end
      end
  end.

Definition cancel_own (user : string) (t1 t2 : DateTime) (c : JobContext Decimal Json) : Result unit string * JobContext Decimal Json :=
  if bool_decide (user_id c = user) then transition_to c Cancelled (Some "Cancelled by user"%string) t1 t2
  else (Err "Job not found"%string, c).
Definition cancel_job_tool (params : Json) (user : string) (t1 t2 : DateTime) (m : Mgr) : Answer * Mgr :=
  match require_str params "job_id" with
  | Err e => (Err e, m)
  | Ok input =>
      match resolve_job_id input m with
      | Err e => (Err e, m)
      | Ok id =>
          let '(r, m) := update_context m id (cancel_own user t1 t2) in
          (Ok match r with
              | Ok (Ok _) => JObject [("job_id", JString (uuid_show id)); ("status", JString "cancelled");
                                      ("message", JString "Job cancelled successfully")]%string
              | Ok (Err reason) => error_json ("Cannot cancel job: " ++s reason)
              | Err e => error_json ("Job not found: " ++s job_error_display uuid_show e)
              end, m)
      end
  end.

(** The access check of [job_events] and [job_prompt]. *)
Definition owned_job (params : Json) (user : string) (m : Mgr) : Result Uuid ExecError :=
  match require_str params "job_id" with
  | Err e => Err e
  | Ok input =>
      match resolve_job_id input m with
      | Err e => Err e
      | Ok id =>
          match get_context m id with
          | Err _ => failed ("job " ++s uuid_show id ++s " not found or context unavailable")
          | Ok c => if bool_decide (user_id c = user) then Ok id
                    else failed ("job " ++s uuid_show id ++s " does not belong to current user")
          end
      end
  end.
(** [Value::as_i64] of a number. *)
Definition as_i64_json (v : Json) : option Z :=
  match v with
  | JNumber (String "-"%char t) =>
      match digits 0 t with Some n => if negb (is_empty t) && (n <=? 2 ^ 63) then Some (- n) else None | None => None end
  | JNumber t => match as_u64 (JNumber t) with Some n => if n <? 2 ^ 63 then Some n else None | None => None end
  | _ => None
  end.
Definition MAX_EVENT_LIMIT : Z := 1000.
Definition event_limit (params : Json) : Z :=
  Z.max 1 (Z.min MAX_EVENT_LIMIT (default 50 (json_get "limit" params ≫= as_i64_json))).
Definition event_json (ev : JobEvent) : Json :=
  JObject [("event_type", JString (je_type ev)); ("data", je_data ev); ("created_at", JString (rfc3339 (je_created_at ev)))]%string.
(** [list_job_events] of the database is the argument [events]. *)
Definition job_events_tool (events : Uuid -> Z -> Result (list JobEvent) string) (params : Json) (user : string) (m : Mgr) : Answer :=
  match owned_job params user m with
  | Err e => Err e
  | Ok id =>
      match events id (event_limit params) with
      | Err e => failed ("failed to load job events: " ++s e)
      | Ok l => Ok (JObject [("job_id", JString (uuid_show id)); ("total_events", jnat (length l)); ("returned", jnat (length l));
                             ("events", JArray (event_json <$> l))]%string)
      end
  end.

Definition push_prompt (id : Uuid) (p : PendingPrompt) (q : gmap Uuid (list PendingPrompt)) : gmap Uuid (list PendingPrompt) :=
  <[id := default [] (q !! id) ++ [p]]> q.
Definition job_prompt_tool (params : Json) (user : string) w : Answer * W :=
  match owned_job params user (cm w) with
  | Err e => (Err e, w)
  | Ok id =>
      match require_str params "content" with
      | Err e => (Err e, w)
      | Ok content =>
          let done := default false (get_bool "done" params) in
          (Ok (JObject [("job_id", JString (uuid_show id)); ("status", JString "queued"); ("message", JString "Prompt queued");
                        ("done", JBool done)]%string),
           set_prompts (push_prompt id (mkPrompt content done) (prompts w)) w)
      end
  end.
End JobTools.
#[global] Arguments mkTurn {D}.
#[global] Arguments mkRun {D}.

(** ** Proofs *)
Lemma all_chars_spec p s : all_chars p s = true <-> forall i c, String.get i s = Some c -> p c = true.
Proof.
  induction s as [|a s IH]; cbn; [by split|]. rewrite andb_true_iff, IH. split.
  - intros [Ha Hs] [|i] c; cbn; [by intros [= <-]|apply Hs].
  - intros H. split; [by apply (H 0%nat)|]. intros i c. apply (H (S i)).
Qed.
(** A name is accepted exactly when it has the documented shape and is not on the denylist. *)
Definition env_name_ok (name : string) : Prop :=
  (exists c s, name = String c s /\ env_start c = true /\ all_chars env_rest s = true) /\ name ∉ DANGEROUS_ENV_VARS.
Lemma validate_env_var_name_ok name : validate_env_var_name name = Ok tt <-> env_name_ok name.
Proof.
  unfold validate_env_var_name, env_name_ok. destruct name as [|c s]; cbn [is_empty].
  - split; [done|]. by intros [(c & s & ? & _) _].
  - unfold env_name_shape. destruct (env_start c && all_chars env_rest s) eqn:E; cbn [negb].
    + apply andb_true_iff in E as [E1 E2]. case_bool_decide as Hd.
      * split; [done|]. by intros [_ H].
      * split; [|done]. intros _. split; [eauto|done].
    + split; [done|]. intros [(c' & s' & [= <- <-] & H1 & H2) _]. by rewrite H1, H2 in E.
Qed.

Section Proofs.
Context {Decimal D : Type} `{!DecimalOps Decimal} (docker : DockerOps D) (config : ContainerJobConfig).
Context (linux : bool) (home_dir : option Path) (opencode_model : option string) (io_show : IoError -> string).
Context (uuid_show : Uuid -> string) (parse_uuid : string -> option Uuid) (rfc3339 : DateTime -> string) (dec_show : Decimal -> string).
Abbreviation W := (World Decimal D).
Abbreviation Mgr := (ContextManager Decimal Json).
Implicit Types (w : W) (m : Mgr).

Lemma all_jobs_known m id : id ∈ all_jobs m <-> is_Some (contexts m !! id).
Proof.
  unfold all_jobs. rewrite list_elem_of_fmap. split.
  - intros ([j c] & -> & H%elem_of_map_to_list). by exists c.
  - intros [c H]. exists (id, c). split; [done|]. by apply elem_of_map_to_list.
Qed.
Lemma all_jobs_nodup m : NoDup (all_jobs m).
Proof. apply NoDup_fst_map_to_list. Qed.

(** A job is found by its id or, when the text is not an id, by being the only
    known job, of whatever user, whose hexadecimal form starts with the text;
    the text then has four characters at least. *)
Theorem resolve_job_id_spec (input : string) (id : Uuid) m :
  resolve_job_id uuid_show parse_uuid input m = Ok id
  <-> parse_uuid input = Some id
      \/ (parse_uuid input = None /\ (4 <= String.length input)%nat
          /\ forall j, is_Some (contexts m !! j) /\ has_prefix uuid_show (to_lowercase input) j = true <-> j = id).
Proof.
  unfold resolve_job_id. destruct (parse_uuid input) as [u|].
  { split; [intros [= ->]; by left|]. by intros [[= ->]|[? _]]. }
  destruct (Nat.ltb_spec (String.length input) 4) as [Hl|Hl].
  { split; [done|]. intros [?|(_ & ? & _)]; [done|lia]. }
  set (p := has_prefix uuid_show (to_lowercase input)). set (l := List.filter p (all_jobs m)).
  assert (Hin : forall j, is_Some (contexts m !! j) /\ p j = true <-> j ∈ l).
  { intros j. unfold l. rewrite list_elem_of_In, filter_In, <-list_elem_of_In. by rewrite all_jobs_known. }
  assert (Hnd : NoDup l) by apply NoDup_ListNoDup, List.NoDup_filter, NoDup_ListNoDup, all_jobs_nodup.
  setoid_rewrite Hin. clear Hin. destruct l as [|a [|b l]]; split.
  - done.
  - intros [?|(_ & _ & H)]; [done|]. destruct (not_elem_of_nil id). by apply H.
  - intros [= ->]. right. split_and!; [done..|]. intros j. by rewrite list_elem_of_singleton.
  - intros [?|(_ & _ & H)]; [done|]. f_equal. apply H. by left.
  - done.
  - intros [?|(_ & _ & H)]; [done|]. apply NoDup_cons in Hnd as [Hn _]. destruct Hn.
    rewrite (proj1 (H a) ltac:(by left)), <-(proj1 (H b) ltac:(by right; left)). by left.
Qed.

(** ** Access *)
Lemma owned_job_ok params user m id :
  owned_job uuid_show parse_uuid params user m = Ok id -> exists c, contexts m !! id = Some c /\ user_id c = user.
Proof.
  unfold owned_job, get_context. destruct (require_str params "job_id") as [input|]; [|done].
  destruct (resolve_job_id _ _ _ _) as [j|]; [|done]. destruct (contexts m !! j) as [c|] eqn:E; cbn; [|done].
  case_bool_decide; [|done]. intros [= <-]. eauto.
Qed.
(** The job tools act on the caller's own jobs only: cancelling leaves every
    other user's context and all memories as they were, a prompt is queued for
    a job of the caller or not at all. *)
Theorem job_tools_own_jobs_only (params : Json) (user : string) (t1 t2 : DateTime) w :
  let m' := (cancel_job_tool uuid_show parse_uuid params user t1 t2 (cm w)).2 in
  let w' := (job_prompt_tool uuid_show parse_uuid params user w).2 in
  (forall j c, contexts (cm w) !! j = Some c -> user_id c <> user -> contexts m' !! j = Some c)
  /\ memories m' = memories (cm w)
  /\ cm w' = cm w /\ jm w' = jm w
  /\ (forall j, prompts w' !! j <> prompts w !! j -> exists c, contexts (cm w) !! j = Some c /\ user_id c = user).
Proof.
  cbn zeta. split; [|split; [|split; [|split]]].
  - intros j c Hj Hu. unfold cancel_job_tool, update_context. destruct (require_str _ _) as [s|]; [|done].
    destruct (resolve_job_id _ _ _ _) as [id|]; [|done]. destruct (contexts (cm w) !! id) as [c0|] eqn:E; [|done].
    destruct (cancel_own _ _ _ _) as [r c'] eqn:Ec. cbn. destruct (decide (id = j)) as [->|]; [|by rewrite lookup_insert_ne].
    rewrite lookup_insert_eq. unfold cancel_own in Ec. rewrite bool_decide_eq_false_2 in Ec by congruence. congruence.
  - unfold cancel_job_tool, update_context. destruct (require_str _ _); [|done].
    destruct (resolve_job_id _ _ _ _) as [id|]; [|done]. destruct (contexts (cm w) !! id); [|done]. by destruct (cancel_own _ _ _ _).
  - unfold job_prompt_tool. destruct (owned_job _ _ _ _ _); [|done]. by destruct (require_str _ _).
  - unfold job_prompt_tool. destruct (owned_job _ _ _ _ _); [|done]. by destruct (require_str _ _).
  - intros j. unfold job_prompt_tool. destruct (owned_job _ _ _ _ _) as [id|] eqn:E; [|done].
    destruct (require_str _ _); [|done]. cbn. unfold push_prompt. destruct (decide (id = j)) as [->|]; [|by rewrite lookup_insert_ne].
    intros _. by apply owned_job_ok in E.
Qed.

Lemma select_jobs_spec (p : JobContext Decimal Json -> bool) m :
  NoDup (select_jobs p m) /\ forall id, id ∈ select_jobs p m <-> exists c, contexts m !! id = Some c /\ p c = true.
Proof.
  unfold select_jobs. split; [apply NoDup_fst_map_to_list|]. intros id. rewrite list_elem_of_fmap. split.
  - intros ([j c] & -> & H%elem_of_map_to_list). apply map_lookup_filter_Some in H. by exists c.
  - intros (c & Hc & Hp). exists (id, c). split; [done|]. apply elem_of_map_to_list, map_lookup_filter_Some. done.
Qed.
Lemma omap_lines (l : list Uuid) m (g : JobContext Decimal Json -> bool) :
  NoDup l ->
  exists ps, omap (fun id => match get_context m id with
                             | Ok c => if g c then Some (job_line uuid_show rfc3339 id c) else None
                             | Err _ => None
                             end) l = (fun jc => job_line uuid_show rfc3339 jc.1 jc.2) <$> ps
    /\ NoDup ps.*1 /\ (forall id c, (id, c) ∈ ps <-> id ∈ l /\ contexts m !! id = Some c /\ g c = true).
Proof.
  induction 1 as [|id l Hnin _ (ps & IH1 & IH2 & IH3)].
  { exists []. split_and!; [done|constructor|]. intros id c. split; [by intros ?%not_elem_of_nil|]. by intros (?%not_elem_of_nil & _). }
  cbn [omap list_omap]. unfold get_context at 1. destruct (contexts m !! id) as [c|] eqn:Ec; cbn [ok_or]; [destruct (g c) eqn:Eg|].
  1: exists ((id, c) :: ps); cbn; split_and!; [by rewrite <-IH1| |].
  1: { constructor; [|done]. intros ([j d] & Hj & Hin)%list_elem_of_fmap. cbn in Hj. subst j. by apply IH3 in Hin as [? _]. }
  1: { intros j d. rewrite !elem_of_cons, IH3. split.
       - intros [[= -> ->]|(? & ? & ?)]; auto.
       - intros ([->|Hl] & Hc & Hg); [left; congruence|auto]. }
  all: exists ps; split_and!; [done..|]; intros j d; rewrite IH3, elem_of_cons; split; [naive_solver|].
  all: intros ([->|Hl] & Hc & Hg); [congruence|auto].
Qed.
(** The listing shows every job of the caller that the filter selects, once,
    and no other job. *)
Theorem list_jobs_spec (filter user : string) m :
  exists ps, job_lines uuid_show rfc3339 filter user m = (fun jc => job_line uuid_show rfc3339 jc.1 jc.2) <$> ps
    /\ NoDup ps.*1
    /\ forall id c, (id, c) ∈ ps <-> contexts m !! id = Some c /\ user_id c = user /\ listed filter c = true.
Proof.
  unfold job_lines, active_jobs_for, all_jobs_for.
  destruct (String.eqb filter "active") eqn:Ea.
  - edestruct (select_jobs_spec (fun c => bool_decide (user_id c = user) && active c) m) as [Hn Hin].
    destruct (omap_lines _ m (listed filter) Hn) as (ps & E & Hp & Hps). exists ps. split_and!; [done..|].
    intros id c. rewrite Hps, Hin. apply String.eqb_eq in Ea as ->. unfold active, listed; cbn.
    split; [|intros (Hc & <- & ?); split; [exists c; rewrite bool_decide_eq_true_2 by done; auto|auto]].
    intros ((c' & H1 & H2) & H3 & H4). replace c' with c in * by congruence.
    apply andb_true_iff in H2 as [H2%bool_decide_eq_true _]. auto.
  - edestruct (select_jobs_spec (fun c => bool_decide (user_id c = user)) m) as [Hn Hin].
    destruct (omap_lines _ m (listed filter) Hn) as (ps & E & Hp & Hps). exists ps. split_and!; [done..|].
    intros id c. rewrite Hps, Hin. split; [|intros (Hc & <- & ?); split; [exists c; by rewrite bool_decide_eq_true_2|auto]].
    intros ((c' & H1 & H2%bool_decide_eq_true) & H3 & H4). replace c' with c in * by congruence. auto.
Qed.

(** ** Credentials *)
Lemma grants_of_ok ex user l gs :
  grants_of ex user l = Ok gs ->
  Forall2 (fun kv g => g = mkGrant kv.1 (env_var g) /\ kv.2 = JString (env_var g) /\ env_name_ok (env_var g)
                       /\ ex user kv.1 = Ok true) l gs.
Proof.
  revert gs. induction l as [|[n v] l IH]; intros gs; cbn [grants_of]; [intros [= <-]; constructor|].
  unfold grant_of. destruct v as [| | |env| |]; cbn [as_str]; try done.
  destruct (validate_env_var_name env) as [[]|] eqn:Ev; [|done]. destruct (ex user n) as [[]|] eqn:Ee; try done.
  destruct (grants_of ex user l) as [gs'|]; [|done]. intros [= <-]. constructor; [|by apply IH].
  cbn. split_and!; [done..| |done]. by apply validate_env_var_name_ok.
Qed.
(** The credentials a job is started with were all asked for, in that order:
    each names a secret of the user that exists and an environment variable of
    the documented shape that is not on the denylist, and there are at most
    twenty. *)
Theorem parse_credentials_spec (deps : ToolDeps) (params : Json) (user : string) (gs : list CredentialGrant) :
  parse_credentials deps params user = Ok gs ->
  (length gs <= 20)%nat
  /\ (gs <> [] -> exists l ex, json_get "credentials" params = Some (JObject l) /\ secret_exists deps = Some ex
        /\ Forall2 (fun kv g => g = mkGrant kv.1 (env_var g) /\ kv.2 = JString (env_var g) /\ env_name_ok (env_var g)
                                /\ ex user kv.1 = Ok true) l gs).
Proof.
  unfold parse_credentials. destruct (json_get "credentials" params) as [[| | | | |[|kv l]]|]; try (intros [= <-]; split; [cbn; lia|done]).
  destruct (Nat.ltb_spec MAX_CREDENTIAL_GRANTS (length (kv :: l))) as [|Hl]; [done|].
  destruct (secret_exists deps) as [ex|]; [|done]. intros H%grants_of_ok. split.
  - apply Forall2_length in H. unfold MAX_CREDENTIAL_GRANTS in Hl. lia.
  - eauto.
Qed.

(** ** The mode *)
(** A mode that asks for Claude Code without credentials for it is replaced,
    and any other is kept. *)
Lemma effective_mode_spec (avail : bool) (md d : JobMode) :
  (effective_mode avail md d = ClaudeCode -> avail = true) /\ (md <> ClaudeCode \/ avail = true -> effective_mode avail md d = md).
Proof. destruct md, avail, d; cbn; split; try done; by intros [?|?]. Qed.

(** ** Sandboxed jobs *)
Abbreviation sandbox := (execute_sandbox docker config linux home_dir opencode_model io_show uuid_show).
Lemma persist_frame deps x w :
  cm (persist deps x w) = cm w /\ jm (persist deps x w) = jm w /\ prompts (persist deps x w) = prompts w
  /\ monitors (persist deps x w) = monitors w /\ db (persist deps x w) = db w ++ if has_store deps then [x] else [].
Proof. unfold persist. destruct (has_store deps); cbn; by rewrite ?app_nil_r. Qed.

(** What a sandboxed job may write to the database, and all it leaves alone. *)
Definition about (md : JobMode) (id : Uuid) (x : DbWrite) : Prop :=
  match x with
  | SaveJob r => sb_id r = id /\ sb_status r = "creating"%string
  | SetMode j t => j = id /\ t = job_mode_as_str md /\ md <> Containers.Worker
  | SetStatus j st ok _ _ _ => j = id /\ ((st = "running" /\ ok = None) \/ (st = "completed" /\ ok = Some true) \/ (st = "failed" /\ ok = Some false))%string
  end.
Record kept (deps : ToolDeps) (md : JobMode) (id : Uuid) w w' : Prop := {
  kept_cm : cm w' = cm w; kept_prompts : prompts w' = prompts w;
  kept_db : exists l, db w' = db w ++ l /\ Forall (about md id) l /\ (has_store deps = false -> l = []) }.
Lemma kept_refl deps md id w w' : cm w' = cm w -> prompts w' = prompts w -> db w' = db w -> kept deps md id w w'.
Proof. intros H1 H2 H3. split; [done..|]. exists []. by rewrite app_nil_r. Qed.
Lemma kept_trans deps md id w1 w2 w3 : kept deps md id w1 w2 -> kept deps md id w2 w3 -> kept deps md id w1 w3.
Proof.
  intros [A1 A2 (l1 & A3 & A4 & A5)] [B1 B2 (l2 & B3 & B4 & B5)]. split; [congruence..|].
  exists (l1 ++ l2). split_and!; [by rewrite B3, A3, app_assoc|by apply Forall_app|]. intros H. by rewrite A5, B5.
Qed.
Lemma kept_persist deps md id x w w' : about md id x -> kept deps md id w w' -> kept deps md id w (persist deps x w').
Proof.
  intros Hx H. apply (kept_trans _ _ _ _ _ _ H). destruct (persist_frame deps x w') as (E1 & _ & E2 & _ & E3).
  split; [done..|]. rewrite E3. exists (if has_store deps then [x] else []). split_and!; [done| |by intros ->].
  destruct (has_store deps); by repeat constructor.
Qed.
Lemma kept_status deps md id st ok msg a b w w' :
  about md id (SetStatus id st ok msg a b) -> kept deps md id w w' -> kept deps md id w (update_status deps id st ok msg a b w').
Proof. apply kept_persist. Qed.
Lemma kept_jm deps md id (jm0 : JobManager D) w w' : kept deps md id w w' -> kept deps md id w (set_jm jm0 w').
Proof. intros [? ? ?]. by split. Qed.
Lemma kept_monitor deps md id j w w' : kept deps md id w w' -> kept deps md id w (monitor j w').
Proof. intros [? ? ?]. by split. Qed.
Lemma about_status md id st ok msg a b :
  ((st = "running" /\ ok = None) \/ (st = "completed" /\ ok = Some true) \/ (st = "failed" /\ ok = Some false))%string ->
  about md id (SetStatus id st ok msg a b).
Proof. done. Qed.
Create HintDb kept.
#[local] Hint Resolve kept_jm kept_monitor kept_status kept_persist about_status : kept.

Lemma settled_kept deps md id dir browse now h w w0 :
  kept deps md id w0 w -> kept deps md id w0 (settled uuid_show deps id dir browse now h w).2.
Proof.
  intros H. unfold settled, job_failed, job_completed.
  destruct (Containers.state h); try (destruct (default true _)); cbn [snd]; apply kept_status; eauto 6 with kept.
Qed.
Lemma wait_kept deps md id dir browse deadline ts w w0 :
  kept deps md id w0 w -> kept deps md id w0 (wait_loop docker uuid_show deps id dir browse deadline ts w).2.
Proof.
  revert w. induction ts as [|t ts IH]; intros w H; cbn [wait_loop]; [done|].
  destruct (deadline <? clock t); cbn [snd]; [apply kept_status; eauto 6 with kept|].
  destruct (get_handle id _) as [h|]; [|apply kept_status; eauto 6 with kept].
  destruct (Containers.state h); [apply IH; eauto with kept..| |];
    (destruct (settled _ _ _ _ _ _ _ _) as [r w'] eqn:E; cbn [snd]; change w' with (r, w').2; rewrite <-E;
     apply settled_kept; eauto with kept).
Qed.
Lemma sandbox_kept deps r task explicit wait md grants user w :
  kept deps md (run_id r) w (sandbox deps r task explicit wait md grants user w).2.
Proof.
  unfold execute_sandbox. destruct (resolve_project_dir _ _ _ _ _) as [[[dir browse]|x] e]; cbn [snd]; [|by apply kept_refl].
  destruct (Containers.create_job _ _ _ _ _ _ _ _ _ _ _ _ _ _ _) as [made m].
  assert (H : kept deps md (run_id r) w (set_jm m (record_job deps r task user (path_display dir) md grants (set_jm (with_fs e (jm w)) w)))).
  { apply kept_jm. unfold record_job. case_bool_decide; repeat apply kept_persist; try done; by apply kept_refl. }
  destruct made as [tok|x]; [|cbn [snd]; apply kept_status; eauto 6 with kept].
  destruct wait; [apply wait_kept|destruct (monitored deps); cbn [snd]]; eauto 8 with kept.
Qed.
Abbreviation create := (create_job_tool docker config linux home_dir opencode_model io_show uuid_show).
Lemma create_kept deps r params user w :
  exists md, (md = ClaudeCode -> claude_code_available config = true) /\ kept deps md (run_id r) w (create (Some deps) r params user w).2.
Proof.
  unfold create_job_tool. destruct (require_str params "title"); [|exists Containers.Worker; split; [done|by apply kept_refl]].
  destruct (require_str params "description"); [|exists Containers.Worker; split; [done|by apply kept_refl]].
  set (md := effective_mode _ _ _). exists md. split; [apply effective_mode_spec|].
  destruct (parse_credentials _ _ _); [apply sandbox_kept|by apply kept_refl].
Qed.

(** Starting a sandboxed job never registers it with the context manager, so
    every later question about it fails: its status and its events cannot be
    read, no prompt can be sent to it, it is not listed and cannot be
    cancelled - although the answer of the tool says to use these tools. *)
Theorem sandboxed_job_unreachable (deps : ToolDeps) (r : Run) (params params' : Json) (user user' input filter : string)
    (t1 t2 : DateTime) events w :
  let w' := (create (Some deps) r params user w).2 in
  contexts (cm w) !! run_id r = None -> get_str "job_id" params' = Some input -> parse_uuid input = Some (run_id r) ->
  cm w' = cm w /\ prompts w' = prompts w
  /\ (exists e, job_events_tool uuid_show parse_uuid rfc3339 events params' user' (cm w') = Err e)
  /\ (exists e, job_prompt_tool uuid_show parse_uuid params' user' w' = (Err e, w'))
  /\ (exists text, job_status_tool uuid_show parse_uuid rfc3339 dec_show params' user' (cm w') = Ok (error_json text))
  /\ (exists text, cancel_job_tool uuid_show parse_uuid params' user' t1 t2 (cm w') = (Ok (error_json text), cm w'))
  /\ job_lines uuid_show rfc3339 filter user' (cm w') = job_lines uuid_show rfc3339 filter user' (cm w).
Proof.
  intros w' Hn Hs Hp. destruct (create_kept deps r params user w) as (md & _ & [E1 E2 _]). fold w' in E1, E2.
  rewrite E1. unfold job_events_tool, job_prompt_tool, job_status_tool, cancel_job_tool, owned_job, update_context, get_context, require_str.
  rewrite Hs. unfold resolve_job_id. rewrite Hp, E1, Hn. cbn [ok_or]. split_and!; eauto.
Qed.

Lemma get_handle_cleanup id (m : JobManager D) : get_handle id (cleanup_job id m) = None.
Proof. unfold get_handle, cleanup_job, with_containers. cbn. by rewrite lookup_delete_eq. Qed.
Lemma settled_clean deps id dir browse now h w :
  get_handle id (jm (settled uuid_show deps id dir browse now h w).2) = None.
Proof.
  unfold settled, job_failed, job_completed, update_status.
  destruct (Containers.state h); try (destruct (default true _)); cbn [snd];
    unfold persist; destruct (has_store deps); cbn [jm save set_jm]; apply get_handle_cleanup.
Qed.
Lemma wait_ends deps id dir browse deadline ts w :
  Exists (fun t => deadline < clock t) ts ->
  exists a w', wait_loop docker uuid_show deps id dir browse deadline ts w = (Some a, w') /\ get_handle id (jm w') = None.
Proof.
  intros Ht. revert w. induction Ht as [t ts Hnow|t ts _ IH]; intros w; cbn [wait_loop].
  - rewrite (proj2 (Z.ltb_lt _ _) Hnow). eexists _, _. split; [done|].
    unfold job_failed, update_status, persist. destruct (has_store deps); apply get_handle_cleanup.
  - destruct (deadline <? clock t).
    { eexists _, _. split; [done|]. unfold job_failed, update_status, persist. destruct (has_store deps); apply get_handle_cleanup. }
    destruct (get_handle id _) as [h|] eqn:Eh.
    2: { eexists _, _. split; [done|]. unfold job_completed, update_status, persist. by destruct (has_store deps). }
    destruct (Containers.state h); [apply IH..| |];
      (destruct (settled _ _ _ _ _ _ _ _) as [r w'] eqn:E; exists r, w'; split; [done|];
       change w' with (r, w').2; rewrite <-E; apply settled_clean).
Qed.
(** Waiting for a sandboxed job ends: as soon as the loop looks at its clock
    later than ten minutes after the wait began there is an answer, whatever
    the rest of the program does to the containers, and the manager then keeps
    no container of the job. *)
Theorem sandbox_wait_ends (deps : ToolDeps) (r : Run) (task user : string) (explicit : option Path) (md : JobMode)
    (grants : list CredentialGrant) w :
  get_handle (run_id r) (jm w) = None ->
  Exists (fun t => wait_start r + from_secs 600 < clock t) (turns r) ->
  exists a w', sandbox deps r task explicit true md grants user w = (Some a, w') /\ get_handle (run_id r) (jm w') = None.
Proof.
  intros Hn Ht. unfold execute_sandbox.
  destruct (resolve_project_dir _ _ _ _ _) as [[[dir browse]|x] e]; [|by eexists _, _].
  destruct (Containers.create_job _ _ _ _ _ _ _ _ _ _ _ _ _ _ _) as [made m] eqn:Em.
  destruct made as [tok|x]; [by apply wait_ends|]. eexists _, _. split; [done|].
  unfold job_failed, update_status, persist.
  assert (H : get_handle (run_id r) m = None); [|by destruct (has_store deps)].
  unfold Containers.create_job in Em. destruct (begin_job _ _ _ _ _ _ _ _) as [t m1].
  destruct (create_job_inner _ _ _ _ _ _ _ _ _ _ _ _) as [[[]|?] m2]; simplify_eq.
  unfold get_handle, abandon_job, with_containers. cbn. apply lookup_delete_eq.
Qed.

(** The database is told about this job only, in the order of its life, with
    a success flag that agrees with the status, and never that it runs Claude
    Code when no credentials for it are configured. *)
Theorem sandbox_writes_spec (deps : ToolDeps) (r : Run) (params : Json) (user : string) w :
  exists l, db (create (Some deps) r params user w).2 = db w ++ l
    /\ (has_store deps = false -> l = [])
    /\ Forall (fun x => match x with
                        | SaveJob s => sb_id s = run_id r /\ sb_status s = "creating"%string
                        | SetMode j t => j = run_id r /\ (t = "claude_code"%string -> claude_code_available config = true)
                        | SetStatus j st ok _ _ _ =>
                            j = run_id r /\ ok = (if String.eqb st "completed" then Some true
                                                  else if String.eqb st "failed" then Some false else None)
                        end) l.
Proof.
  destruct (create_kept deps r params user w) as (md & Hmd & [_ _ (l & E & Hl & Hs)]). exists l. split_and!; [done..|].
  refine (Forall_impl _ _ _ Hl _). intros [s|j t|j st ok msg a b]; cbn; [done| |].
  - intros (-> & -> & _). split; [done|]. destruct md; cbn; try done. intros _. by apply Hmd.
  - by intros (-> & [(-> & ->)|[(-> & ->)|(-> & ->)]]).
Qed.

(** A container that was stopped without a report - by a cancellation in the
    web interface, for one - is answered and recorded as a success. *)
Theorem stopped_job_counts_as_success (deps : ToolDeps) (id : Uuid) (dir browse : string) (deadline : Instant) (t : Turn) ts (h : ContainerHandle) w :
  let m := (stop_job docker id (jm w)).2 in
  clock t <= deadline -> others t (jm w) = m -> get_handle id m = Some h -> Containers.state h = Stopped -> completion_result h = None ->
  exists w', wait_loop docker uuid_show deps id dir browse deadline (t :: ts) w
               = (Some (Ok (finished_json uuid_show id "Container job completed" dir browse)), w')
    /\ (has_store deps = true -> db w' = db w ++ [SetStatus id "completed" (Some true) None None (Some (wall t))]).
Proof.
  intros m Ht Ho Hh Hst Hc. cbn [wait_loop]. rewrite (proj2 (Z.ltb_ge _ _) Ht). cbn [set_jm jm]. rewrite Ho, Hh, Hst.
  unfold settled. rewrite Hst, Hc. cbn. eexists. split; [done|]. intros Hs. unfold job_completed, update_status, persist. by rewrite Hs.
Qed.

(** ** The directory of a job *)
(** A directory given explicitly is used only when it exists and really lies
    in the projects directory; nothing is created for it but that base. *)
Theorem explicit_dir_contained (d dir : Path) (id browse : string) (e e' : Env) :
  resolve_project_dir io_show home_dir (Some d) id e = (Ok (dir, browse), e') ->
  exists b q, resolve e' (projects_base home_dir) = Ok b /\ resolve e' d = Ok q /\ dir = phys q
    /\ phys b `prefix_of` dir /\ e' = (create_dir_all (length (projects_base home_dir)) e (projects_base home_dir)).2.
Proof.
  unfold resolve_project_dir. destruct (create_dir_all _ _ _) as [[[]|x] e1] eqn:Ec; [|done].
  destruct (resolve e1 (projects_base home_dir)) as [b|] eqn:Eb; [|done]. unfold resolve_explicit_dir.
  destruct (resolve e1 d) as [q|] eqn:Eq; [|done]. destruct (path_starts_with (phys q) (phys b)) eqn:Ep; [|done].
  intros [= <- <- <-]. exists b, q. apply bool_decide_eq_true in Ep. by split_and!.
Qed.
(** The limit on events is always between 1 and 1000. *)
Lemma event_limit_range params : 1 <= event_limit params <= 1000.
Proof. unfold event_limit, MAX_EVENT_LIMIT. lia. Qed.
End Proofs.

(** ** Witnesses *)
Module Demo.
Definition deps : ToolDeps :=
  mkToolDeps (Some (fun _ _ => Ok None)) (Some "claude_code"%string) (Some (fun _ n => Ok (String.eqb n "github"))) true.
Definition show (id : Uuid) : string := if bool_decide (id = 7%N) then "abcd-ef" else "abce-01".
Definition parse (s : string) : option Uuid := if String.eqb s "abcd-ef" then Some 7%N else None.
Definition world : World Z unit := mkWorld _ _ default_manager demo_jobs ∅ [] [].
Definition late : Turn (D:=unit) := mkTurn (from_secs 601) 9 id.
Definition run (ts : list (Turn (D:=unit))) : Run (D:=unit) := mkRun 7%N sevens 1 2 3 0 ts.
Definition params (env : string) : Json :=
  JObject [("title", JString "fix"); ("description", JString "the build"); ("wait", JBool false); ("mode", JString " Claude_Code ");
           ("credentials", JObject [("github", JString env)])]%string.
Definition create (ts : list (Turn (D:=unit))) (env : string) : option (Result Json ExecError) * World Z unit :=
  create_job_tool (demo_docker true) (default_job_config []) true (Some demo_home) None (fun _ => EmptyString) show (Some deps)
    (run ts) (params env) "alice" world.
Definition ask : Json := JObject [("job_id", JString "abcd-ef")]%string.
End Demo.

(** Without Claude credentials, and with Claude Code as the default, the job
    runs OpenCode; its credentials are the ones asked for. *)
Example demo_runs_opencode :
  (Containers.mode <$> get_handle 7%N (jm (Demo.create [] "GITHUB_TOKEN").2)) = Some OpenCode
  /\ monitors (Demo.create [] "GITHUB_TOKEN").2 = [7%N] /\ length (db (Demo.create [] "GITHUB_TOKEN").2) = 3%nat.
Proof. vm_compute. done. Qed.
Example demo_bad_env : is_ok (default (Ok JNull) (Demo.create [] "LD_PRELOAD").1) = false /\ db (Demo.create [] "LD_PRELOAD").2 = [].
Proof. vm_compute. done. Qed.
Lemma parse_credentials_spec_witness :
  parse_credentials Demo.deps (Demo.params "GITHUB_TOKEN") "alice" = Ok [mkGrant "github" "GITHUB_TOKEN"]
  /\ env_name_ok "GITHUB_TOKEN".
Proof.
  split; [by vm_compute|].
  destruct (parse_credentials_spec Demo.deps (Demo.params "GITHUB_TOKEN") "alice" [mkGrant "github" "GITHUB_TOKEN"] ltac:(by vm_compute)) as [_ H].
  destruct (H ltac:(done)) as (l & ex & _ & _ & HF). inversion HF as [|kv g l' gs (_ & _ & Hok & _) _]. exact Hok.
Defined.
Lemma sandboxed_job_unreachable_witness :
  exists e, job_events_tool Demo.show Demo.parse (fun _ => EmptyString) (fun _ _ => Ok []) Demo.ask "alice" (cm (Demo.create [] "GITHUB_TOKEN").2) = Err e.
Proof.
  destruct (sandboxed_job_unreachable (demo_docker true) (default_job_config []) true (Some demo_home) None (fun _ => EmptyString)
    Demo.show Demo.parse (fun _ => EmptyString) (fun _ => EmptyString) Demo.deps (Demo.run []) (Demo.params "GITHUB_TOKEN") Demo.ask
    "alice" "alice" "abcd-ef" "all" 0 0 (fun _ _ => Ok []) Demo.world ltac:(by vm_compute) ltac:(by vm_compute) ltac:(by vm_compute))
    as (_ & _ & H & _). exact H.
Defined.
Lemma sandbox_wait_ends_witness :
  exists a w', execute_sandbox (demo_docker true) (default_job_config []) true (Some demo_home) None (fun _ => EmptyString) Demo.show
    Demo.deps (Demo.run [Demo.late]) "fix" None true OpenCode [] "alice" Demo.world = (Some a, w') /\ get_handle 7%N (jm w') = None.
Proof.
  exact (sandbox_wait_ends (demo_docker true) (default_job_config []) true (Some demo_home) None (fun _ => EmptyString) Demo.show
    Demo.deps (Demo.run [Demo.late]) "fix" "alice" None OpenCode [] Demo.world ltac:(by vm_compute)
    ltac:(left; by vm_compute)).
Defined.
(** Another user's job is found by four characters of its id, and the refusal names the whole id. *)
Example prefix_reveals_jobs_of_others :
  job_events_tool Demo.show Demo.parse (fun _ => EmptyString) (fun _ _ => Ok []) (JObject [("job_id", JString "ABCD")]%string) "mallory"
    (create_job_for_user (default_manager : ContextManager Z Json) 7%N 0 JNull "alice" "t" "d").2
  = Err (ExecutionFailed "job abcd-ef does not belong to current user").
Proof. by vm_compute. Qed.
