(* ===== verification/Commands.v ===== *)
(** Job commands and system commands: [src/agent/commands.rs].

    The jobs are those of [Scheduler] and its context manager, the model any
    provider, the kernel orchestrator that of [Kernel].  A command's fresh id
    and its readings of the clock are in [CmdEnv]; the text of ids, dates,
    amounts and numbers are parameters. *)

From Stdlib Require Import Ascii.
From S2P Require Import Prelude Strs Find JobTools Llm Json Tool Chunker Search Workspace JobState JobMemory ContextManager Session Submission Scheduler.
From S2P Require Import Float64 Kernel Heartbeat Router.
#[local] Open Scope claw_scope.

Record CmdEnv := mkCmdEnv { fresh_job : Uuid; t_created : DateTime; t_first : DateTime; t_second : DateTime }.
Definition NL : string := String (chr 10) EmptyString.

Section Commands.
Context {Decimal P W : Type} `{!DecimalOps Decimal} `{!LlmProvider Json Decimal P}.
Abbreviation Ctx := (JobContext Decimal Json).
Abbreviation Sched := (Scheduler Decimal Json).
Abbreviation Result_ := (Result (SubmissionResult Json) SchedError).
Context (uuid_parse : string -> Result Uuid string) (uuid_show : Uuid -> string) (show_time : DateTime -> string) (dec_show : Decimal -> string).
Context (llm_show : LlmError -> string) (show1 show2 : f64 -> string) (status_debug : PatchStatus -> string) (json_show : Json -> string).
Context (version : string).
Implicit Types (s : Sched).

(** What the commands change: the scheduler with its jobs, the jobs handed to
    the database, the model, and the kernel orchestrator when there is one. *)
Record CmdState := mkCmd { c_sched : Sched; c_saved : list Uuid; c_llm : P; c_time : Instant; c_kernel : option (KernelMonitor * W) }.
Implicit Types st : CmdState.
Definition with_sched s st : CmdState := mkCmd s (c_saved st) (c_llm st) (c_time st) (c_kernel st).
Definition mgr st := context_manager (c_sched st).
Definition NIL : Uuid := 0%N.
Definition parse_id (id : string) : Result Uuid SchedError :=
  match uuid_parse id with Ok u => Ok u | Err _ => Err (SJob (ContextManager.NotFound NIL)) end.

(** ** Jobs *)
Definition set_category (cat : string) (c : Ctx) : Ctx :=
  mkJobContext (job_id c) (state c) (user_id c) (conversation_id c) (title c) (description c) (Some cat) (budget c) (budget_token c)
    (bid_amount c) (estimated_cost c) (estimated_duration c) (actual_cost c) (total_tokens_used c) (max_tokens c) (created_at c)
    (started_at c) (completed_at c) (repair_attempts c) (transitions c) (metadata c) (extra_env c).
Definition set_mgr (m : ContextManager Decimal Json) s : Sched :=
  mkScheduler (max_parallel_jobs s) (jobs s) (subtasks s) m (sched_has_store s) (db s).
Definition handle_create_job (env : CmdEnv) (user title_ description_ : string) (category_ : option string) st : Result string SchedError * CmdState :=
  let '(r, m) := create_job_for_user (mgr st) (fresh_job env) (t_created env) JNull user title_ description_ in
  match r with
  | Err e => (Err (SJob e), with_sched (set_mgr m (c_sched st)) st)
  | Ok id =>
      let '(r, m) := match category_ with
                     | Some cat => update_context m id (fun c => (tt, set_category cat c))
                     | None => (Ok tt, m)
                     end in
      match r with
      | Err e => (Err (SJob e), with_sched (set_mgr m (c_sched st)) st)
      | Ok _ =>
          let saved := if sched_has_store (c_sched st) && is_ok (get_context m id) then c_saved st ++ [id] else c_saved st in
          let '(r, s) := schedule id (t_first env) (t_second env) (set_mgr m (c_sched st)) in
          let st := mkCmd s saved (c_llm st) (c_time st) (c_kernel st) in
          match r with
          | Err e => (Err e, st)
          | Ok _ => (Ok ("Created job: " ++s title_ ++s NL ++s "ID: " ++s uuid_show id ++s NL ++s NL
                         ++s "The job has been scheduled and is now running."), st)
          end
      end
  end.
(** A job of the user. *)
Definition own_job (user : string) (id : Uuid) st : Result Ctx SchedError :=
  match get_context (mgr st) id with
  | Err e => Err (SJob e)
  | Ok c => if bool_decide (user_id c = user) then Ok c else Err (SJob (ContextManager.NotFound id))
  end.
Definition handle_check_status (user : string) (job : option string) st : Result string SchedError :=
  match job with
  | Some id =>
      match parse_id id with
      | Err e => Err e
      | Ok id =>
          match own_job user id st with
          | Err e => Err e
          | Ok c => Ok ("Job: " ++s title c ++s NL ++s "Status: " ++s job_state_debug (state c) ++s NL ++s "Created: " ++s show_time (created_at c) ++s NL
                        ++s "Started: " ++s match started_at c with Some t => show_time t | None => "Not started"%string end ++s NL
                        ++s "Actual cost: " ++s dec_show (actual_cost c))
          end
      end
  | None =>
      let x := summary_for (mgr st) user in
      Ok ("Jobs summary:" ++s NL ++s "  Total: " ++s pretty (sm_total x) ++s NL ++s "  In Progress: " ++s pretty (sm_in_progress x) ++s NL
          ++s "  Completed: " ++s pretty (sm_completed x) ++s NL ++s "  Failed: " ++s pretty (sm_failed x) ++s NL ++s "  Stuck: " ++s pretty (sm_stuck x))
  end.
Definition handle_cancel_job (env : CmdEnv) (user job : string) st : Result string SchedError * CmdState :=
  match parse_id job with
  | Err e => (Err e, st)
  | Ok id =>
      match own_job user id st with
      | Err e => (Err e, st)
      | Ok _ =>
          let '(r, s) := stop id (t_first env) (t_second env) (c_sched st) in
          (match r with Err e => Err e | Ok _ => Ok ("Job " ++s job ++s " has been cancelled.") end, with_sched s st)
      end
  end.
Definition handle_list_jobs (user : string) (filter : option string) st : string :=
  match all_jobs_for (mgr st) user with
  | [] => "No jobs found."
  | ids => "Jobs:" ++s NL ++s String.concat EmptyString (omap (fun id =>
      match get_context (mgr st) id with
      | Ok c => if bool_decide (user_id c = user)
                then Some ("  " ++s uuid_show id ++s " - " ++s title c ++s " (" ++s job_state_debug (state c) ++s ")" ++s NL) else None
      | Err _ => None
      end) ids)
  end.
Definition handle_help_job (env : CmdEnv) (user job : string) st : Result string SchedError * CmdState :=
  match parse_id job with
  | Err e => (Err e, st)
  | Ok id =>
      match own_job user id st with
      | Err e => (Err e, st)
      | Ok c =>
          if bool_decide (state c = Stuck) then
            let '(r, m) := update_context (mgr st) id (fun c => attempt_recovery c (t_first env) (t_second env)) in
            let s := set_mgr m (c_sched st) in
            match r with
            | Err e => (Err (SJob e), with_sched s st)
            | Ok (Err reason) => (Err (SContext id reason), with_sched s st)
            | Ok (Ok _) =>
                let '(r, s) := schedule id (t_first env) (t_second env) s in
                (match r with
                 | Err e => Err e
                 | Ok _ => Ok ("Job " ++s job ++s " was stuck. Attempting recovery (attempt #" ++s pretty (repair_attempts c + 1) ++s ").")
                 end, with_sched s st)
            end
          else (Ok ("Job " ++s job ++s " is not stuck (current state: " ++s job_state_debug (state c) ++s "). No help needed."), st)
      end
  end.

(** ** System commands *)
Definition HELP_TEXT : string := "System:
  /help             Show this help
  /model [name]     Show or switch the active model
  /kernel <action>  Manage kernel patch proposals (list|approve|reject|deploy)
  /version          Show version info
  /tools            List available tools
  /debug            Toggle debug mode
  /ping             Connectivity check

Jobs:
  /job <desc>       Create a new job
  /status [id]      Check job status
  /cancel <id>      Cancel a job
  /list             List all jobs

Session:
  /undo             Undo last turn
  /redo             Redo undone turn
  /compact          Compress context window
  /clear            Clear current thread
  /interrupt        Stop current operation
  /new              New conversation thread
  /thread <id>      Switch to thread
  /resume <id>      Resume from checkpoint

Agent:
  /heartbeat        Run heartbeat check
  /summarize        Summarize current thread
  /suggest          Suggest next steps

  /quit             Exit".
Definition set_llm (p : P) (now : Instant) st : CmdState := mkCmd (c_sched st) (c_saved st) p now (c_kernel st).
Definition model_list (current : string) (r : Result (list string) LlmError) : string :=
  match r with
  | Ok [] => NL ++s "Could not fetch model list. Use /model <name> to switch."
  | Ok models => NL ++s "Available models:" ++s NL
      ++s String.concat EmptyString (map (fun m => "  " ++s m ++s (if String.eqb m current then " (active)" else "") ++s NL) models)
      ++s NL ++s "Use /model <name> to switch."
  | Err e => NL ++s "Could not fetch models: " ++s llm_show e ++s ". Use /model <name> to switch."
  end.
Definition model_command (args : list string) st : SubmissionResult Json * CmdState :=
  let current := active_model_name (c_llm st) in
  let '(r, p, now) := list_models (c_llm st) (c_time st) in
  let st := set_llm p now st in
  match args with
  | [] => (SResponse ("Active model: " ++s current ++s NL ++s model_list current r), st)
  | requested :: _ =>
      match r with
      | Ok ((_ :: _) as models) =>
          if existsb (String.eqb requested) models then
            let '(r, p) := set_model requested p in
            (match r with Ok _ => SResponse ("Switched model to: " ++s requested) | Err e => SError ("Failed to switch model: " ++s llm_show e) end, set_llm p now st)
          else (SError ("Unknown model: " ++s requested ++s ". Available models:" ++s NL ++s "  " ++s String.concat (NL ++s "  ") models), st)
      | _ =>
          let '(r, p) := set_model requested p in
          (match r with Ok _ => SResponse ("Switched model to: " ++s requested) | Err e => SError ("Failed to switch model: " ++s llm_show e) end, set_llm p now st)
      end
  end.
Definition APPROX : string := String (chr 226) (String (chr 137) (String (chr 136) EmptyString)).
Definition patch_line (p : PatchProposal) : string :=
  "- " ++s uuid_show (p_id p) ++s " [" ++s status_debug (p_status p) ++s "] tool=" ++s p_tool_name p ++s " speedup" ++s APPROX ++s show2 (expected_speedup p)
  ++s "x" ++s NL ++s "  reason: " ++s p_reason p ++s NL.
Definition marked (id : Uuid) (verb : string) (r : bool) : SubmissionResult Json :=
  if r then SOk (Some (verb ++s " patch " ++s uuid_show id)) else SError ("Patch " ++s uuid_show id ++s " not found").
Definition kernel_command (get_jit : W -> option (Json -> W -> Result Json string * W)) (args : list string) (k : KernelMonitor * W)
  : SubmissionResult Json * (KernelMonitor * W) :=
  let listing := match args with [] => true | a :: _ => eq_ignore_ascii_case a "list" end in
  if listing then
    (match pending_patches k.1 with
     | [] => SOk (Some "No kernel patch proposals yet."%string)
     | ps => SResponse ("Kernel patch proposals:" ++s NL ++s String.concat EmptyString (map patch_line ps))
     end, k)
  else match args with
  | action :: target :: _ =>
      match uuid_parse target with
      | Err e => (SError ("Invalid patch UUID: " ++s e), k)
      | Ok id =>
          let a := to_lowercase action in
          if String.eqb a "approve" then let '(b, m) := approve_patch id k.1 in (marked id "Approved" b, (m, k.2))
          else if String.eqb a "reject" then let '(b, m) := reject_patch id k.1 in (marked id "Rejected" b, (m, k.2))
          else if String.eqb a "deploy" then
            let '(r, k) := deploy_patch_by_id get_jit uuid_show status_debug json_show id k in
            (match r with
             | Ok _ => SOk (Some ("Deployed patch " ++s uuid_show id))
             | Err e => SError ("Deploy failed for " ++s uuid_show id ++s ": " ++s e)
             end, k)
          else (SError ("Unknown kernel action '" ++s a ++s "'. Use list|approve|reject|deploy."), k)
      end
  | _ => (SError "Usage: /kernel <approve|reject|deploy> <patch_uuid>", k)
  end.
Definition handle_system_command (tools : list string) (get_jit : W -> option (Json -> W -> Result Json string * W))
    (command : string) (args : list string) st : SubmissionResult Json * CmdState :=
  if String.eqb command "help" then (SResponse HELP_TEXT, st)
  else if String.eqb command "ping" then (SResponse "pong!", st)
  else if String.eqb command "version" then (SResponse version, st)
  else if String.eqb command "tools" then (SResponse ("Available tools: " ++s String.concat ", " tools), st)
  else if String.eqb command "debug" then (SOk (Some "Debug toggle is handled by your client."%string), st)
  else if String.eqb command "model" then model_command args st
  else if String.eqb command "kernel" then
    match c_kernel st with
    | None => (SError "Kernel orchestrator is not enabled.", st)
    | Some k => let '(r, k) := kernel_command get_jit args k in (r, mkCmd (c_sched st) (c_saved st) (c_llm st) (c_time st) (Some k))
    end
  else (SError ("Unknown command: " ++s command ++s ". Try /help"), st).
Definition handle_command tools get_jit (command : string) (args : list string) st : option string * CmdState :=
  let '(r, st) := handle_system_command tools get_jit command args st in
  (match r with SResponse c => Some c | SOk m => m | SError m => Some ("Error: " ++s m) | _ => None end, st).

(** ** Intents *)
Definition handle_job_or_command tools get_jit (env : CmdEnv) (user : string) (i : MessageIntent) st : Result_ * CmdState :=
  let text (r : Result string SchedError) : Result_ := match r with Ok x => Ok (SResponse x) | Err e => Err e end in
  match i with
  | CreateJob t d c => let '(r, st) := handle_create_job env user t d c st in (text r, st)
  | CheckJobStatus id => (text (handle_check_status user id st), st)
  | CancelJob id => let '(r, st) := handle_cancel_job env user id st in (text r, st)
  | ListJobs f => (Ok (SResponse (handle_list_jobs user f st)), st)
  | HelpJob id => let '(r, st) := handle_help_job env user id st in (text r, st)
  | Command c args =>
      let '(r, st) := handle_command tools get_jit c args st in (Ok (match r with Some x => SResponse x | None => SOk None end), st)
  | Chat _ | Unknown => (Ok (SResponse "Unknown intent"), st)
  end.
(** The part of [process_user_input] that the commands answer. *)
Definition routed tools get_jit (env : CmdEnv) (user content : string) st : option (Result_ * CmdState) :=
  match route_command default_prefix content with
  | Some i => Some (handle_job_or_command tools get_jit env user i st)
  | None => (fun i => handle_job_or_command tools get_jit env user i st) <$> route_fast_path_nl default_prefix content
  end.

(** ** Summaries *)
Definition last_20 (ms : list (ChatMessage Json)) : list (ChatMessage Json) := drop (length ms - 20) ms.
Definition SUMMARIZE_PROMPT : string := "Summarize the conversation so far in 3-5 concise bullet points. Focus on decisions made, actions taken, and key outcomes. Be brief and factual.".
Definition SUGGEST_PROMPT : string := "Based on the conversation so far, suggest 2-4 concrete next steps the user could take. Be actionable and specific. Format as a numbered list.".
(** The bit patterns of [0.3] and [0.5]. *)
Definition TEMP_SUMMARIZE : Z := 0x3e99999a.
Definition TEMP_SUGGEST : Z := 0x3f000000.
Definition ask_about (ms : list (ChatMessage Json)) (system ask : string) (temp : Z) : CompletionRequest Json :=
  with_temperature (with_max_tokens (new_request ([msg_system system] ++ last_20 ms ++ [msg_user ask])) 512) temp.
Definition process_summarize (ms : list (ChatMessage Json)) (p : P) (now : Instant) : SubmissionResult Json * P * Instant :=
  match ms with
  | [] => (SOk (Some "Nothing to summarize (empty thread)."%string), p, now)
  | _ => match complete (ask_about ms SUMMARIZE_PROMPT "Summarize this conversation." TEMP_SUMMARIZE) p now with
         | (Ok r, p, now) => (SResponse ("Thread Summary:" ++s NL ++s NL ++s Strs.trim (resp_content r)), p, now)
         | (Err e, p, now) => (SError ("Summarize failed: " ++s llm_show e), p, now)
         end
  end.
Definition process_suggest (ms : list (ChatMessage Json)) (p : P) (now : Instant) : SubmissionResult Json * P * Instant :=
  match ms with
  | [] => (SOk (Some "Nothing to suggest from (empty thread)."%string), p, now)
  | _ => match complete (ask_about ms SUGGEST_PROMPT "What should I do next?" TEMP_SUGGEST) p now with
         | (Ok r, p, now) => (SResponse ("Suggested Next Steps:" ++s NL ++s NL ++s Strs.trim (resp_content r)), p, now)
         | (Err e, p, now) => (SError ("Suggest failed: " ++s llm_show e), p, now)
         end
  end.
Definition heartbeat_answer (r : HeartbeatResult) : SubmissionResult Json :=
  match r with
  | HOk => SOk (Some "Heartbeat: all clear, nothing needs attention."%string)
  | NeedsAttention m => SResponse ("Heartbeat findings:" ++s NL ++s NL ++s m)
  | Skipped => SOk (Some "Heartbeat skipped: no HEARTBEAT.md checklist found in workspace."%string)
  | HFailed e => SError ("Heartbeat failed: " ++s e)
  end.
Definition process_heartbeat {E} (user : string) (agent : option Uuid) (st1 st2 : Stamp) (today yesterday : string) (ws : option (Tables E)) (p : P) (now : Instant)
  : SubmissionResult Json * P * Instant * option (Tables E) :=
  match ws with
  | None => (SError "Heartbeat requires a workspace (database must be connected).", p, now, None)
  | Some t =>
      let '(r, p, now, t) := check_heartbeat (Value:=Json) user agent llm_show st1 st2 today yesterday p now t in (heartbeat_answer r, p, now, Some t)
  end.
End Commands.
Arguments CmdState : clear implicits.

(** ** Proofs *)
Section Facts.
Context {Decimal P W : Type} `{!DecimalOps Decimal} `{!LlmProvider Json Decimal P}.
Abbreviation St := (CmdState Decimal P W).
Context (uuid_parse : string -> Result Uuid string) (uuid_show : Uuid -> string) (show_time : DateTime -> string) (dec_show : Decimal -> string).
Context (llm_show : LlmError -> string) (show2 : f64 -> string) (status_debug : PatchStatus -> string) (json_show : Json -> string).
Context (version : string) (tools : list string) (get_jit : W -> option (Json -> W -> Result Json string * W)) (env : CmdEnv) (user : string).
Implicit Types (st : St) (s : Scheduler Decimal Json) (c : JobContext Decimal Json).
Abbreviation act := (handle_job_or_command uuid_parse uuid_show show_time dec_show llm_show show2 status_debug json_show version tools get_jit env user).

Lemma own_job_mine id c st : contexts (mgr st) !! id = Some c -> user_id c = user -> own_job user id st = Ok c.
Proof. intros Hc Hu. unfold own_job, get_context. rewrite Hc. cbn. by rewrite bool_decide_eq_true_2. Qed.
Lemma update_context_at {R} (m : ContextManager Decimal Json) id (f : JobContext Decimal Json -> R * JobContext Decimal Json) c :
  contexts m !! id = Some c ->
  update_context m id f = (Ok (f c).1, mkManager _ _ (<[id := (f c).2]> (contexts m)) (memories m) (max_jobs m)).
Proof. intros Hc. unfold update_context. rewrite Hc. by destruct (f c). Qed.

(** What a user can do to a job of somebody else, or to none: nothing, and the
    answer does not tell the two apart. *)
Theorem foreign_jobs_refused (job : string) (id : Uuid) st :
  uuid_parse job = Ok id -> (forall c, contexts (mgr st) !! id = Some c -> user_id c <> user) ->
  act (CheckJobStatus (Some job)) st = (Err (SJob (ContextManager.NotFound id)), st)
  /\ act (CancelJob job) st = (Err (SJob (ContextManager.NotFound id)), st) /\ act (HelpJob job) st = (Err (SJob (ContextManager.NotFound id)), st).
Proof.
  intros Hp Hf. assert (Ho : own_job user id st = Err (SJob (ContextManager.NotFound id))).
  { unfold own_job, get_context. destruct (contexts (mgr st) !! id) as [c|] eqn:E; cbn; [|done]. by rewrite bool_decide_eq_false_2 by (by apply Hf). }
  unfold handle_job_or_command, handle_check_status, handle_cancel_job, handle_help_job, parse_id.
  rewrite Hp. cbn. by rewrite Ho.
Qed.

(** Creating a job where both the manager and the scheduler have room: the job
    belongs to the user, is in progress, and has a worker. *)
Theorem create_job_command_spec (t d : string) (cat : option string) st :
  (count_values active (contexts (mgr st)) < max_jobs (mgr st))%nat -> jobs (c_sched st) !! fresh_job env = None ->
  (size (jobs (c_sched st)) < max_parallel_jobs (c_sched st))%nat ->
  exists text st' c, act (CreateJob t d cat) st = (Ok (SResponse text), st')
    /\ contexts (mgr st') = <[fresh_job env := c]> (contexts (mgr st)) /\ user_id c = user /\ title c = t /\ description c = d /\ category c = cat
    /\ state c = InProgress /\ jobs (c_sched st') = <[fresh_job env := false]> (jobs (c_sched st))
    /\ c_saved st' = c_saved st ++ (if sched_has_store (c_sched st) then [fresh_job env] else []).
Proof.
  intros Hroom Hj Hs. unfold handle_job_or_command, handle_create_job, create_job_for_user, create_contexts.
  rewrite (proj2 (Nat.leb_gt _ _)) by done. cbn [job_id with_user create_memories].
  set (m := create_memories _ _). set (c0 := with_user (fresh_job env) (t_created env) JNull user t d).
  assert (Hc0 : contexts m !! fresh_job env = Some c0) by (unfold m; cbn; apply lookup_insert_eq).
  set (c1 := match cat with Some x => set_category x c0 | None => c0 end).
  assert (Hu : exists m', match cat with Some x => update_context m (fresh_job env) (fun c => (tt, set_category x c)) | None => (Ok tt, m) end = (Ok tt, m')
    /\ contexts m' = <[fresh_job env := c1]> (contexts (mgr st))).
  { destruct cat as [x|]; [|exists m; split; [done|reflexivity]]. eexists. rewrite (update_context_at m _ _ c0 Hc0). split; [done|].
    unfold m. cbn. by rewrite insert_insert_eq. }
  destruct Hu as (m' & -> & Hm'). assert (Hc1 : contexts m' !! fresh_job env = Some c1) by (rewrite Hm'; apply lookup_insert_eq).
  assert (Hg : get_context m' (fresh_job env) = Ok c1) by (unfold get_context; by rewrite Hc1).
  unfold schedule. cbn [jobs set_mgr max_parallel_jobs context_manager]. rewrite Hj, (proj2 (Nat.leb_gt _ _)) by done.
  rewrite (update_context_at m' _ _ c1 Hc1). assert (Hst : state c1 = Pending) by (unfold c1; by destruct cat).
  unfold transition_to at 1. rewrite Hst. cbn [can_transition_to negb fst snd].
  eexists _, _, _. split; [done|]. cbn [mgr c_sched context_manager set_jobs contexts c_saved jobs set_mgr]. rewrite Hm', insert_insert_eq. split; [done|].
  unfold c1. rewrite Hg. cbn [is_ok]. rewrite andb_true_r. destruct cat; split_and!; try done; destruct (sched_has_store _); by rewrite ?app_nil_r.
Qed.

(** A job that has no worker - one created and not scheduled, or one whose
    worker has gone - is not cancelled, though the answer says it was. *)
Theorem cancel_without_worker (job : string) (id : Uuid) st c :
  uuid_parse job = Ok id -> contexts (mgr st) !! id = Some c -> user_id c = user -> jobs (c_sched st) !! id = None ->
  act (CancelJob job) st = (Ok (SResponse ("Job " ++s job ++s " has been cancelled.")), st).
Proof.
  intros Hp Hc Hu Hj. unfold handle_job_or_command, handle_cancel_job, parse_id. rewrite Hp, (own_job_mine id c st Hc Hu). unfold stop. rewrite Hj. cbn.
  by destruct st.
Qed.
(** C31. Helping a stuck job whose worker is gone always fails: the recovery puts
    the job in progress, and scheduling then refuses to put it in progress
    again.  The job is left in progress without a worker. *)
Theorem help_strands_job (job : string) (id : Uuid) st c :
  uuid_parse job = Ok id -> contexts (mgr st) !! id = Some c -> user_id c = user -> state c = Stuck -> jobs (c_sched st) !! id = None ->
  let '(r, st') := act (HelpJob job) st in
  (exists e, r = Err e) /\ jobs (c_sched st') !! id = None /\ exists c', contexts (mgr st') !! id = Some c' /\ state c' = InProgress.
Proof.
  intros Hp Hc Hu Hs Hj. unfold handle_job_or_command, handle_help_job, parse_id. rewrite Hp, (own_job_mine id c st Hc Hu).
  rewrite bool_decide_eq_true_2 by done. rewrite (update_context_at _ _ _ c Hc).
  unfold attempt_recovery. rewrite decide_False by (intros Hn; by apply Hn). unfold transition_to at 1 2. cbn [state set_accounting]. rewrite Hs. cbn [can_transition_to negb fst snd].
  unfold schedule. cbn [jobs set_mgr max_parallel_jobs context_manager]. rewrite Hj.
  destruct (max_parallel_jobs (c_sched st) <=? size (jobs (c_sched st)))%nat.
  - cbn. split; [eauto|]. split; [done|]. eexists. split; [apply lookup_insert_eq|done].
  - rewrite (update_context_at (mkManager _ _ _ _ _) _ _ _ (lookup_insert_eq _ _ _)). unfold transition_to at 1 2. cbn. split; [eauto|]. split; [done|].
    eexists. split; [apply lookup_insert_eq|done].
Qed.

(** A model that the provider lists models without is refused, and the model
    stays as it was. *)
Theorem unknown_model_refused (requested : string) (models : list string) (p : P) (now : Instant) st :
  list_models (c_llm st) (c_time st) = (Ok models, p, now) -> models <> [] -> requested ∉ models ->
  exists text, model_command (W:=W) llm_show [requested] st = (SError text, set_llm p now st).
Proof.
  intros Hl Hne Hn. unfold model_command. rewrite Hl. destruct models as [|m models]; [done|]. cbv beta iota zeta.
  destruct (existsb (String.eqb requested) (m :: models)) eqn:E; [|by eexists]. exfalso. apply existsb_exists in E as (x & Hx & ->%String.eqb_eq).
  apply Hn. by apply list_elem_of_In.
Qed.
(** A routed message is always answered; only [/quit] stops the agent. *)
Lemma commands_never_silent (i : MessageIntent) st : (act i st).1 <> Ok (SOk None).
Proof.
  destruct i; cbn [handle_job_or_command]; try done.
  - destruct (handle_create_job _ _ _ _ _ _ _) as [[]]; done.
  - destruct (handle_check_status _ _ _ _ _ _); done.
  - destruct (handle_cancel_job _ _ _ _ _) as [[]]; done.
  - destruct (handle_help_job _ _ _ _ _) as [[]]; done.
  - unfold handle_command, handle_system_command, model_command, kernel_command, marked.
    repeat first [done | case_match; simplify_eq/=].
Qed.
End Facts.

(** ** Witnesses *)
#[local] Instance demo_provider : LlmProvider Json Z unit :=
  fixed_provider "demo" 0 (fun _ p t => (Ok (mkResponse "hi" 1 1 Stop None), p, t)).
Definition demo_job (st : JobState) (u : string) : JobContext Z Json :=
  let c := with_user 7%N 0 JNull u "report" "write the report" in
  mkJobContext (job_id c) st (user_id c) (conversation_id c) (title c) (description c) (category c) (budget c) (budget_token c)
    (bid_amount c) (estimated_cost c) (estimated_duration c) (actual_cost c) (total_tokens_used c) (max_tokens c) (created_at c)
    (started_at c) (completed_at c) (repair_attempts c) (transitions c) (metadata c) (extra_env c).
Definition demo_cmd (jobs_ : gmap Uuid (JobContext Z Json)) : CmdState Z unit unit :=
  mkCmd (mkScheduler 2 ∅ ∅ (mkManager _ _ jobs_ ∅ 5) true []) [] tt 0 None.
Definition demo_parse (s : string) : Result Uuid string := if String.eqb s "j7" then Ok 7%N else Err "invalid"%string.
Definition demo_env : CmdEnv := mkCmdEnv 9%N 10 11 12.
Abbreviation demo_act := (handle_job_or_command (W:=unit) demo_parse (fun _ => "id"%string) (fun _ => "now"%string) (fun _ => "0"%string) (fun _ => "failed"%string)
  (fun _ => "1.0"%string) (fun _ => "Proposed"%string) (fun _ => "{}"%string) "0.1" ["echo"%string] (fun _ => None) demo_env "alice").
Lemma foreign_jobs_refused_witness : demo_act (CancelJob "j7") (demo_cmd {[7%N := demo_job InProgress "bob"]})
  = (Err (SJob (ContextManager.NotFound 7%N)), demo_cmd {[7%N := demo_job InProgress "bob"]}).
Proof.
  refine (proj1 (proj2 (foreign_jobs_refused _ _ _ _ _ _ _ _ _ _ _ _ _ "j7" 7%N _ _ _))); [done|].
  intros c. cbn. rewrite lookup_singleton_eq. by intros [= <-].
Defined.
Lemma create_job_command_spec_witness : exists text st', demo_act (CreateJob "report" "write" None) (demo_cmd ∅) = (Ok (SResponse text), st') /\ c_saved st' = [9%N].
Proof.
  destruct (create_job_command_spec demo_parse (fun _ => "id"%string) (fun _ => "now"%string) (fun _ => "0"%string) (fun _ => "failed"%string)
    (fun _ => "1.0"%string) (fun _ => "Proposed"%string) (fun _ => "{}"%string) "0.1" ["echo"%string] (fun _ => None) demo_env "alice" "report" "write" None (demo_cmd ∅))
    as (text & st' & c & H & _ & _ & _ & _ & _ & _ & _ & Hs); [vm_compute; lia|done|vm_compute; lia|]. exists text, st'. split; [exact H|exact Hs].
Defined.
Lemma cancel_without_worker_witness : demo_act (CancelJob "j7") (demo_cmd {[7%N := demo_job InProgress "alice"]})
  = (Ok (SResponse "Job j7 has been cancelled."), demo_cmd {[7%N := demo_job InProgress "alice"]}).
Proof. exact (cancel_without_worker _ _ _ _ _ _ _ _ _ _ _ _ _ "j7" 7%N (demo_cmd {[7%N := demo_job InProgress "alice"]}) (demo_job InProgress "alice") eq_refl eq_refl eq_refl eq_refl). Defined.
Lemma help_strands_job_witness : exists c', contexts (mgr (demo_act (HelpJob "j7") (demo_cmd {[7%N := demo_job Stuck "alice"]})).2) !! 7%N = Some c' /\ state c' = InProgress.
Proof.
  pose proof (help_strands_job demo_parse (fun _ => "id"%string) (fun _ => "now"%string) (fun _ => "0"%string) (fun _ => "failed"%string)
    (fun _ => "1.0"%string) (fun _ => "Proposed"%string) (fun _ => "{}"%string) "0.1" ["echo"%string] (fun _ => None) demo_env "alice" "j7" 7%N
    (demo_cmd {[7%N := demo_job Stuck "alice"]}) (demo_job Stuck "alice") eq_refl eq_refl eq_refl eq_refl eq_refl) as H.
  destruct (demo_act _ _) as [r st']. destruct H as (_ & _ & H). exact H.
Defined.
