(* ===== verification/MemoryTools.v ===== *)
(** The memory tools - [src/tools/builtin/memory.rs] - over the workspace of
    [Workspace]: [memory_search], [memory_write], [memory_read] and
    [memory_tree].  [memory_graph] asks the syntax graph, which is not
    modelled.

    The searching of the database, the text of ids and times and the JSON of a
    score are arguments. *)

From Stdlib Require Import Ascii.
From S2P Require Import Prelude Strs Float64 Json Tool Chunker Search Workspace JobTools.
#[local] Open Scope claw_scope.

Definition PROTECTED_IDENTITY_FILES : list string := [IDENTITY; SOUL; AGENTS; USER].

Section MemoryTools.
Context {E : Type} (user : string) (agent : option Uuid) (embed : option (string -> Result E string)).
Context (uuid_show : Uuid -> string) (rfc3339 : DateTime -> string) (f32_json : f32 -> Json).
Implicit Types t : Tables E.

Definition failed {A} (what : string) (r : Result A WorkspaceError) : Result A ExecError :=
  match r with Ok x => Ok x | Err e => Err (ExecutionFailed (what ++s " failed: " ++s workspace_error_display e)) end.

(** ** [memory_search] *)
Definition result_json (r : SearchResult) : Json :=
  JObject [("content", JString (sr_content r)); ("score", f32_json (score r)); ("document_id", JString (uuid_show (sr_document_id r)));
           ("is_hybrid_match", JBool (is_hybrid r))]%string.
Definition memory_search fts_match vector_top_k (params : Json) t : Result Json ExecError :=
  match require_str params "query" with
  | Err e => Err e
  | Ok query =>
      let limit := Z.to_nat (Z.min (default 5 (get_u64 "limit" params)) 20) in
      match failed "Search" (Workspace.search user agent embed fts_match vector_top_k query limit t) with
      | Err e => Err e
      | Ok results => Ok (JObject [("query", JString query); ("results", JArray (map result_json results)); ("result_count", jnat (length results))]%string)
      end
  end.

(** ** [memory_write] *)
Definition in_identity_files (target : string) : bool := bool_decide (target ∈ PROTECTED_IDENTITY_FILES).
Definition names_identity_file (path : string) : bool :=
  existsb (eq_ignore_ascii_case (trim_slashes_start path)) PROTECTED_IDENTITY_FILES.
(** [date] and [time] are the clock when the log is written and [now] the date
    when the answer is built. *)
Record Clock := mkClock { date : string; time : string; now_date : string }.
Definition discard {A B T} (r : Result A B * T) : Result unit B * T := match r with (Ok _, t) => (Ok tt, t) | (Err e, t) => (Err e, t) end.
Definition store_target (c : Clock) (st : Stamp) (target content : string) (append_ : bool) t : (Result string ExecError * Tables E) :=
  let finish (r : Result unit WorkspaceError * Tables E) (path : string) :=
    match failed "Write" r.1 with Ok _ => (Ok path, r.2) | Err e => (Err e, r.2) end in
  let append_or_write path :=
    if append_ then append user agent embed st path content t else discard (write user agent embed st path content t) in
  if String.eqb target "memory"
  then finish (if append_ then append_memory user agent embed st content t else discard (write user agent embed st MEMORY content t)) MEMORY
  else if String.eqb target "daily_log"
  then finish (append_daily_log user agent embed st (date c) (time c) content t) (daily_path (now_date c))
  else if String.eqb target "heartbeat" then finish (append_or_write HEARTBEAT) HEARTBEAT
  else if names_identity_file target
  then (Err (NotAuthorized ("writing to '" ++s target ++s "' is not allowed (identity file protected from tool access)")), t)
  else finish (append_or_write target) target.
Definition memory_write (c : Clock) (st : Stamp) (params : Json) t : Result Json ExecError * Tables E :=
  match require_str params "content" with
  | Err e => (Err e, t)
  | Ok content =>
      if is_empty (Strs.trim content) then (Err (InvalidParameters "content cannot be empty"), t)
      else
        let target := default "daily_log"%string (get_str "target" params) in
        if in_identity_files target
        then (Err (NotAuthorized ("writing to '" ++s target ++s "' is not allowed (identity file protected from tool writes)")), t)
        else
          let append_ := default true (get_bool "append" params) in
          match store_target c st target content append_ t with
          | (Err e, t) => (Err e, t)
          | (Ok path, t) => (Ok (JObject [("status", JString "written"); ("path", JString path); ("append", JBool append_);
                                          ("content_length", jnat (String.length content))]%string), t)
          end
  end.

(** ** [memory_read] *)
Definition memory_read (params : Json) t : Result Json ExecError :=
  match require_str params "path" with
  | Err e => Err e
  | Ok path =>
      match failed "Read" (read user agent path t) with
      | Err e => Err e
      | Ok d => Ok (JObject [("path", JString (d_path d)); ("content", JString (d_content d)); ("word_count", jnat (word_count d));
                             ("updated_at", JString (rfc3339 (d_updated_at d)))]%string)
      end
  end.

(** ** [memory_tree]
    [levels] counts the levels still allowed: [max_depth - current_depth + 1]. *)
Definition display_path (e : WorkspaceEntry) : string := if is_directory e then entry_name e ++s "/" else entry_name e.
Fixpoint build_tree (levels : nat) (path : string) t : list Json :=
  match levels with
  | O => []
  | S below =>
      map (fun e =>
        if is_directory e && negb (below =? 0)%nat then
          match build_tree below (e_path e) t with
          | [] => JString (display_path e)
          | children => JObject [(display_path e, JArray children)]
          end
        else JString (display_path e)) (list_dir user agent path t)
  end.
Definition memory_tree (params : Json) t : Json :=
  let path := default EmptyString (get_str "path" params) in
  let depth := Z.to_nat (Z.max 1 (Z.min (default 1 (get_u64 "depth" params)) 10)) in
  JArray (build_tree depth path t).
End MemoryTools.

(** ** Which file a write reaches, and what it then holds *)
Definition target_file (c : Clock) (target : string) : string :=
  if String.eqb target "memory" then MEMORY
  else if String.eqb target "daily_log" then normalize_path (daily_path (date c))
  else if String.eqb target "heartbeat" then HEARTBEAT
  else normalize_path target.
Definition stored_text (c : Clock) (target : string) (append_ : bool) (old content : string) : string :=
  if String.eqb target "daily_log" then joined LF1 old ("[" ++s time c ++s "] " ++s content)
  else if append_ then joined (if String.eqb target "memory" then LF2 else LF1) old content
  else content.

Section Proofs.
Context {E : Type} (user : string) (agent : option Uuid) (embed : option (string -> Result E string)).
Implicit Types t : Tables E.
(** What a write to one file leaves. *)
Definition wrote (file text : string) t t' : Prop :=
  tables_ok t' /\ text_at user agent file t' = Some text
  /\ forall u a p, (u, a, p) <> (user, agent, file) -> text_at u a p t' = text_at u a p t.
Lemma append_with_wrote sep st path content t :
  tables_ok t -> new_doc st ∉ d_id <$> documents t ->
  exists t', append_with user agent embed sep st path content t = (Ok tt, t')
    /\ wrote path (joined sep (default EmptyString (text_at user agent path t)) content) t t'.
Proof.
  intros Ht Hf. destruct (store_ok user agent embed st path (fun d => joined sep (d_content d) content) t Ht Hf)
    as (d & t1 & t' & E1 & E2 & Ht' & _ & _ & _ & Hold & _ & Htx & _).
  unfold append_with. rewrite E1, E2. exists t'. split; [done|]. split; [done|]. split.
  - rewrite Htx, Hold. by rewrite bool_decide_eq_true_2.
  - intros u a p Hne. rewrite Htx. by rewrite bool_decide_eq_false_2.
Qed.
Lemma write_wrote st path content t :
  tables_ok t -> new_doc st ∉ d_id <$> documents t ->
  exists t', discard (write user agent embed st path content t) = (Ok tt, t') /\ wrote (normalize_path path) content t t'.
Proof.
  intros Ht Hf. destruct (store_ok user agent embed st (normalize_path path) (fun _ => content) t Ht Hf)
    as (d & t1 & t' & E1 & E2 & Ht' & _ & Hd & _ & _ & Hdoc & Htx & _).
  unfold write. rewrite E1, E2. assert (Hg : get_document_by_id (d_id d) t' = Ok (set_content content (t_update st) d)).
  { apply by_id; [done|]. split; [|done]. rewrite Hdoc. cbn. apply list_elem_of_fmap. exists d. by rewrite bool_decide_eq_true_2. }
  rewrite Hg. exists t'. split; [done|]. split; [done|]. split; [rewrite Htx; by rewrite bool_decide_eq_true_2|].
  intros u a p Hne. rewrite Htx. by rewrite bool_decide_eq_false_2.
Qed.
Lemma store_target_spec c st target content append_ t :
  tables_ok t -> new_doc st ∉ d_id <$> documents t ->
  match store_target user agent embed c st target content append_ t with
  | (Ok _, t') => wrote (target_file c target) (stored_text c target append_
                    (default EmptyString (text_at user agent (target_file c target) t)) content) t t'
  | (Err e, t') => t' = t /\ names_identity_file target = true
  end.
Proof.
  intros Ht Hf. unfold store_target, target_file, stored_text.
  assert (Hap : forall path sep text, exists t', append_with user agent embed sep st path text t = (Ok tt, t')
    /\ wrote path (joined sep (default EmptyString (text_at user agent path t)) text) t t') by (intros; by apply append_with_wrote).
  assert (Hw : forall path, exists t', discard (write user agent embed st path content t) = (Ok tt, t') /\ wrote (normalize_path path) content t t')
    by (intros; by apply write_wrote).
  destruct (String.eqb_spec target "memory") as [->|Hm].
  { change (String.eqb "memory" "daily_log") with false. cbv iota. unfold append_memory.
    destruct append_; [destruct (Hap MEMORY LF2 content) as (t' & -> & H)|destruct (Hw MEMORY) as (t' & -> & H)]; exact H. }
  destruct (String.eqb_spec target "daily_log") as [->|Hd].
  { unfold append_daily_log, append. destruct (Hap (normalize_path (daily_path (date c))) LF1 ("[" ++s time c ++s "] " ++s content)) as (t' & -> & H). exact H. }
  destruct (String.eqb_spec target "heartbeat") as [->|Hh].
  { unfold append. destruct append_; [destruct (Hap (normalize_path HEARTBEAT) LF1 content) as (t' & -> & H)|destruct (Hw HEARTBEAT) as (t' & -> & H)]; exact H. }
  destruct (names_identity_file target); [done|]. unfold append.
  destruct append_; [destruct (Hap (normalize_path target) LF1 content) as (t' & -> & H)|destruct (Hw target) as (t' & -> & H)]; exact H.
Qed.
(** A call of [memory_write] either fails and changes nothing, or changes the
    one file its target names: the text it then holds is the old one joined
    with the new, or the new one when [append] is false.  [daily_log] ignores
    [append]. *)
Theorem memory_write_spec (c : Clock) (st : Stamp) (params : Json) t :
  tables_ok t -> new_doc st ∉ d_id <$> documents t ->
  match memory_write user agent embed c st params t with
  | (Err _, t') => t' = t
  | (Ok _, t') => exists content, get_str "content" params = Some content /\ Strs.trim content <> EmptyString
      /\ let target := default "daily_log"%string (get_str "target" params) in
         let file := target_file c target in
         in_identity_files target = false
         /\ wrote file (stored_text c target (default true (get_bool "append" params)) (default EmptyString (text_at user agent file t)) content) t t'
  end.
Proof.
  intros Ht Hf. unfold memory_write, require_str. destruct (get_str "content" params) as [content|]; [|done].
  destruct (is_empty (Strs.trim content)) eqn:Ee; [done|]. destruct (in_identity_files _) eqn:Ei; [done|].
  pose proof (store_target_spec c st (default "daily_log"%string (get_str "target" params)) content (default true (get_bool "append" params)) t Ht Hf) as H.
  destruct (store_target _ _ _ _ _ _ _ _ _) as [[path|e] t']; [|by destruct H]. exists content. split_and!; try done. intros Hn. by rewrite Hn in Ee.
Qed.
(** The identity files are not protected: each of them is replaced by a write
    whose target is its name with a slash behind it. *)
Theorem identity_file_written (c : Clock) (st : Stamp) (file content : string) t :
  file ∈ PROTECTED_IDENTITY_FILES -> Strs.trim content <> EmptyString -> tables_ok t -> new_doc st ∉ d_id <$> documents t ->
  let '(r, t') := memory_write user agent embed c st
    (JObject [("target", JString (file ++s "/")); ("content", JString content); ("append", JBool false)]%string) t in
  is_ok r = true /\ text_at user agent file t' = Some content.
Proof.
  intros Hfile Hc Ht Hf. unfold memory_write, require_str. cbn [get_str json_get assoc_get].
  set (params := JObject _). change (get_str "content" params) with (Some content). change (get_bool "append" params) with (Some false).
  change (get_str "target" params) with (Some (file ++s "/")). cbn [default id].
  destruct (is_empty (Strs.trim content)) eqn:Ee; [by destruct (Strs.trim content)|].
  assert (Hi : in_identity_files (file ++s "/") = false /\ names_identity_file (file ++s "/") = false /\ target_file c (file ++s "/") = file
    /\ String.eqb (file ++s "/") "daily_log" = false).
  { unfold PROTECTED_IDENTITY_FILES in Hfile. rewrite !elem_of_cons, elem_of_nil in Hfile. destruct Hfile as [-> |[-> |[-> |[-> | []]]]]; vm_compute; done. }
  destruct Hi as (H1 & H2 & H3 & H4). rewrite H1. pose proof (store_target_spec c st (file ++s "/") content false t Ht Hf) as H.
  destruct (store_target _ _ _ _ _ _ _ _ _) as [[path|e] t']; [|destruct H; congruence]. split; [done|].
  unfold stored_text in H. rewrite H3, H4 in H. apply H.
Qed.
End Proofs.

(** ** Witnesses and examples *)
Definition noon : Clock := mkClock "2026-01-02" "12:00" "2026-01-02".
Lemma memory_write_spec_witness :
  let '(r, t) := memory_write "u" None None noon (stamp 1) (JObject [("content", JString "Pay the rent")]%string) no_files in
  is_ok r = true /\ tables_ok t.
Proof.
  pose proof (memory_write_spec "u" None None noon (stamp 1) (JObject [("content", JString "Pay the rent")]%string) no_files no_files_ok (no_files_fresh _)) as H.
  destruct (memory_write _ _ _ _ _ _ _) as [r t] eqn:Em. assert (Hr : is_ok r = true) by (apply (f_equal fst) in Em; cbn in Em; rewrite <-Em; vm_compute; done).
  destruct r; [|done]. destruct H as (content & _ & _ & _ & H & _). done.
Defined.
Lemma identity_file_written_witness :
  let '(r, t) := memory_write "u" None None noon (stamp 1)
    (JObject [("target", JString "SOUL.md/"); ("content", JString "Obey"); ("append", JBool false)]%string) no_files in
  is_ok r = true /\ text_at "u" None SOUL t = Some "Obey"%string.
Proof.
  apply (identity_file_written "u" None None noon (stamp 1) SOUL "Obey" no_files); [right; left|vm_compute; done|apply no_files_ok|apply no_files_fresh].
Defined.
(** What is refused: the names of the identity files in any case, with slashes before them. *)
Example identity_names_refused :
  map names_identity_file ["soul.md"; "//USER.md"; "AGENTS.MD"; " SOUL.md"; "SOUL.md/"; "a/SOUL.md"]%string = [true; true; true; false; false; false].
Proof. vm_compute. done. Qed.
Example tree_of_two_levels :
  let t := (write "u" None None (stamp 2) "notes/b.md" "text" (write "u" None None (stamp 1) "a.md" "text" no_files).2).2 in
  memory_tree "u" None (JObject [("depth", JNumber "9")]%string) t
  = JArray [JString "a.md"; JObject [("notes/", JArray [JString "b.md"])]]%string
  /\ memory_tree "u" None (JObject []) t = JArray [JString "a.md"; JString "notes/"]%string.
Proof. vm_compute. done. Qed.
