(* ===== verification/Routines.v ===== *)
(** Routines: [src/agent/routine.rs] (their data and its form in the
    database), [src/agent/routine_engine.rs] (triggers, guardrails, execution),
    the tables of [src/db/libsql/routines.rs] and the tools that manage them,
    [src/tools/builtin/routine.rs].

    The tables are maps; while the database is down every query fails.  The
    tasks that the engine spawns are the list [tasks], and what each of them
    does next is a step of its own: it records its run, starts, and ends with
    the result of the execution.  Regular expressions, the cron crate, the
    workspace, the LLM provider and the text of errors are arguments. *)

From S2P Require Import Prelude Strs Json Tool Llm JobState JobMemory ContextManager Scheduler.
#[local] Open Scope claw_scope.

(** ** Triggers and actions *)
Inductive Trigger :=
| Cron (schedule : string)
| OnEvent (channel : option string) (pattern : string)
| Webhook (path secret : option string)
| Manual.
Definition trigger_tag (t : Trigger) : string :=
  match t with Cron _ => "cron" | OnEvent _ _ => "event" | Webhook _ _ => "webhook" | Manual => "manual" end.
Definition trigger_from_db (trigger_type : string) (config : Json) : Result Trigger string :=
  if String.eqb trigger_type "cron"
  then match get_str "schedule" config with Some s => Ok (Cron s) | None => Err "cron trigger missing 'schedule'"%string end
  else if String.eqb trigger_type "event"
  then match get_str "pattern" config with
       | Some p => Ok (OnEvent (get_str "channel" config) p)
       | None => Err "event trigger missing 'pattern'"%string
       end
  else if String.eqb trigger_type "webhook" then Ok (Webhook (get_str "path" config) (get_str "secret" config))
  else if String.eqb trigger_type "manual" then Ok Manual
  else Err ("unknown trigger type: " ++s trigger_type).
Definition jstr_opt (o : option string) : Json := match o with Some s => JString s | None => JNull end.
Definition trigger_config_json (t : Trigger) : Json :=
  match t with
  | Cron s => JObject [("schedule"%string, JString s)]
  | OnEvent channel p => JObject [("pattern", JString p); ("channel", jstr_opt channel)]%string
  | Webhook path secret => JObject [("path", jstr_opt path); ("secret", jstr_opt secret)]%string
  | Manual => JObject []
  end.

Inductive RoutineAction :=
| Lightweight (prompt : string) (context_paths : list string) (max_tokens : Z)
| FullJob (title description : string) (max_iterations : Z).
Definition default_max_tokens : Z := 4096.
Definition default_max_iterations : Z := 10.
Definition action_tag (a : RoutineAction) : string :=
  match a with Lightweight _ _ _ => "lightweight" | FullJob _ _ _ => "full_job" end.
Definition str_items (v : option Json) : list string :=
  match v with Some (JArray l) => omap as_str l | _ => [] end.
Definition action_from_db (action_type : string) (config : Json) : Result RoutineAction string :=
  if String.eqb action_type "lightweight"
  then match get_str "prompt" config with
       | None => Err "lightweight action missing 'prompt'"%string
       | Some prompt => Ok (Lightweight prompt (str_items (json_get "context_paths" config))
                              (wrap 32 (default default_max_tokens (get_u64 "max_tokens" config))))
       end
  else if String.eqb action_type "full_job"
  then match get_str "title" config with
       | None => Err "full_job action missing 'title'"%string
       | Some title =>
           match get_str "description" config with
           | None => Err "full_job action missing 'description'"%string
           | Some d => Ok (FullJob title d (wrap 32 (default default_max_iterations (get_u64 "max_iterations" config))))
           end
       end
  else Err ("unknown action type: " ++s action_type).
Definition jnat (n : Z) : Json := JNumber (pretty n).
Definition action_config_json (a : RoutineAction) : Json :=
  match a with
  | Lightweight p cs n => JObject [("prompt", JString p); ("context_paths", JArray (JString <$> cs)); ("max_tokens", jnat n)]%string
  | FullJob t d n => JObject [("title", JString t); ("description", JString d); ("max_iterations", jnat n)]%string
  end.

Record RoutineGuardrails := mkGuardrails { cooldown : Duration; max_concurrent : Z; dedup_window : option Duration }.
Definition default_guardrails : RoutineGuardrails := mkGuardrails (from_secs 300) 1 None.
Record NotifyConfig := mkNotify {
  n_channel : option string; n_user : string; on_attention : bool; on_failure : bool; on_success : bool }.
Definition default_notify : NotifyConfig := mkNotify None "default" true true false.
Inductive RunStatus := Running | RunOk | Attention | RunFailed.
#[export] Instance RunStatus_eq_dec : EqDecision RunStatus.
Proof. solve_decision. Defined.
Definition run_status_display (s : RunStatus) : string :=
  match s with Running => "running" | RunOk => "ok" | Attention => "attention" | RunFailed => "failed" end.
Definition run_status_from_str (s : string) : Result RunStatus string :=
  if String.eqb s "running" then Ok Running else if String.eqb s "ok" then Ok RunOk
  else if String.eqb s "attention" then Ok Attention else if String.eqb s "failed" then Ok RunFailed
  else Err ("unknown run status: " ++s s).

Record Routine := mkRoutine {
  r_id : Uuid; r_name : string; r_description : string; r_user_id : string; enabled : bool;
  trigger : Trigger; action : RoutineAction; guardrails : RoutineGuardrails; notify : NotifyConfig;
  last_run_at : option DateTime; next_fire_at : option DateTime; run_count : Z; consecutive_failures : Z;
  r_state : Json; r_created_at : DateTime; r_updated_at : DateTime }.
Record RoutineRun := mkRun {
  run_id : Uuid; run_routine : Uuid; trigger_type : string; trigger_detail : option string;
  started_at : DateTime; completed_at : option DateTime; status : RunStatus;
  result_summary : option string; tokens_used : option Z; run_job : option Uuid; run_created_at : DateTime }.

(** ** The tables *)
Record Store := mkStore { up : bool; routines : gmap Uuid Routine; runs : gmap Uuid RoutineRun }.
Definition query {A} (s : Store) (a : A) : Result A string := if up s then Ok a else Err "database unavailable"%string.
Definition write (s : Store) (f : Store -> Store) : Result unit string * Store :=
  if up s then (Ok tt, f s) else (Err "database unavailable"%string, s).
Definition get_routine (id : Uuid) (s : Store) : Result (option Routine) string := query s (routines s !! id).
Definition rows (p : Routine -> bool) (s : Store) : list Routine := List.filter p (map_to_list (routines s)).*2.
Definition get_routine_by_name (user name : string) (s : Store) : Result (option Routine) string :=
  query s (head (rows (fun r => String.eqb (r_user_id r) user && String.eqb (r_name r) name) s)).
Definition list_event_routines (s : Store) : Result (list Routine) string :=
  query s (rows (fun r => enabled r && String.eqb (trigger_tag (trigger r)) "event") s).
Definition is_due (now : DateTime) (r : Routine) : bool :=
  enabled r && String.eqb (trigger_tag (trigger r)) "cron" && match next_fire_at r with Some t => t <=? now | None => false end.
Definition list_due_cron_routines (now : DateTime) (s : Store) : Result (list Routine) string := query s (rows (is_due now) s).
(** The ids are primary keys, and [UNIQUE (user_id, name)]. *)
Definition create_routine (r : Routine) (s : Store) : Result unit string * Store :=
  if bool_decide (is_Some (routines s !! r_id r))
     || negb (bool_decide (rows (fun o => String.eqb (r_user_id o) (r_user_id r) && String.eqb (r_name o) (r_name r)) s = []))
  then (Err "UNIQUE constraint failed"%string, s)
  else write s (fun s => mkStore (up s) (<[r_id r := r]> (routines s)) (runs s)).
(** [UPDATE routines]: the run time columns stay. *)
Definition set_definition (now : DateTime) (new old : Routine) : Routine :=
  mkRoutine (r_id old) (r_name new) (r_description new) (r_user_id old) (enabled new) (trigger new) (action new)
    (guardrails new) (notify new) (last_run_at old) (next_fire_at new) (run_count old) (consecutive_failures old)
    (r_state new) (r_created_at old) now.
Definition update_routine (now : DateTime) (r : Routine) (s : Store) : Result unit string * Store :=
  write s (fun s => mkStore (up s) (alter (set_definition now r) (r_id r) (routines s)) (runs s)).
Definition set_runtime (now last : DateTime) (next : option DateTime) (count failures : Z) (st : Json) (r : Routine) : Routine :=
  mkRoutine (r_id r) (r_name r) (r_description r) (r_user_id r) (enabled r) (trigger r) (action r) (guardrails r) (notify r)
    (Some last) next count failures st (r_created_at r) now.
Definition update_routine_runtime (id : Uuid) (last : DateTime) (next : option DateTime) (count failures : Z) (st : Json)
    (s : Store) : Result unit string * Store :=
  write s (fun s => mkStore (up s) (alter (set_runtime last last next count failures st) id (routines s)) (runs s)).
Definition delete_routine (id : Uuid) (s : Store) : Result bool string * Store :=
  let '(r, s') := write s (fun s => mkStore (up s) (delete id (routines s))
                                      (filter (fun kv : Uuid * RoutineRun => run_routine kv.2 <> id) (runs s))) in
  (match r with Ok _ => Ok (bool_decide (is_Some (routines s !! id))) | Err e => Err e end, s').
(** The routine is a foreign key; deleting it deletes its runs. *)
Definition create_routine_run (run : RoutineRun) (s : Store) : Result unit string * Store :=
  if negb (bool_decide (is_Some (routines s !! run_routine run))) || bool_decide (is_Some (runs s !! run_id run))
  then (Err "constraint failed"%string, s)
  else write s (fun s => mkStore (up s) (routines s) (<[run_id run := run]> (runs s))).
Definition complete_run (now : DateTime) (st : RunStatus) (summary : option string) (tokens : option Z) (r : RoutineRun) : RoutineRun :=
  mkRun (run_id r) (run_routine r) (trigger_type r) (trigger_detail r) (started_at r) (Some now) st summary tokens
    (run_job r) (run_created_at r).
Definition complete_routine_run (now : DateTime) (id : Uuid) (st : RunStatus) (summary : option string) (tokens : option Z)
    (s : Store) : Result unit string * Store :=
  write s (fun s => mkStore (up s) (routines s) (alter (complete_run now st summary tokens) id (runs s))).
Definition is_running_of (id : Uuid) (r : RoutineRun) : bool :=
  bool_decide (run_routine r = id) && bool_decide (status r = Running).
Definition count_running_routine_runs (id : Uuid) (s : Store) : Result Z string :=
  query s (Z.of_nat (count_values (is_running_of id) (runs s))).

(** ** Notifications *)
Record OutgoingResponse := mkOutgoing { o_content : string; o_thread_id : option string; o_metadata : Json }.
Definition utf8 (l : list nat) : string := foldr (fun n s => String (chr n) s) EmptyString l.
Definition NL : string := utf8 [10%nat].
Definition should_notify (n : NotifyConfig) (st : RunStatus) : bool :=
  match st with RunOk => on_success n | Attention => on_attention n | RunFailed => on_failure n | Running => false end.
Definition icon (st : RunStatus) : string :=
  match st with
  | RunOk => utf8 [226; 156; 133] | Attention => utf8 [240; 159; 148; 148]
  | RunFailed => utf8 [226; 157; 140] | Running => utf8 [226; 143; 179]
  end%nat.
Definition send_notification (n : NotifyConfig) (name : string) (st : RunStatus) (summary : option string)
    (sent : list OutgoingResponse) : list OutgoingResponse :=
  if should_notify n st
  then
    let head := icon st ++s " *Routine '" ++s name ++s "'*: " ++s run_status_display st in
    sent ++ [mkOutgoing (match summary with Some s => head ++s NL ++s NL ++s s | None => head end) None
      (JObject [("source", JString "routine"); ("routine_name", JString name);
                ("status", JString (run_status_display st))]%string)]
  else sent.

Definition truncate (s : string) (max : nat) : string :=
  if (String.length s <=? max)%nat then s else String.substring 0 (floor_char_boundary s max) s ++s "...".

(** ** Execution *)
Abbreviation Execution := (RunStatus * option string * option Z)%type.

(** The two's complement reading of 32 bits, [as i32]. *)
Definition as_i32 (a : Z) : Z := let r := wrap 32 a in if 2 ^ 31 <=? r then r - 2 ^ 32 else r.
(** The bits of [0.3f32]. *)
Definition TEMPERATURE : Z := 0x3e99999a.
Definition RULE : string := NL ++s NL ++s "---" ++s NL ++s NL.
Definition join_parts (sep : string) (l : list string) : string :=
  match l with [] => EmptyString | x :: l => foldl (fun acc y => acc ++s sep ++s y) x l end.
Definition full_prompt (read : string -> option string) (name prompt : string) (context_paths : list string) : string :=
  let parts := omap (fun p => (fun c => "## " ++s p ++s NL ++s NL ++s c) <$> read p) context_paths in
  let state_content := read ("routines/" ++s name ++s "/state.md") in
  prompt
  ++s (match parts with [] => EmptyString | _ => RULE ++s "# Context" ++s NL ++s NL ++s join_parts (NL ++s NL) parts end)
  ++s (match state_content with Some st => RULE ++s "# Previous State" ++s NL ++s NL ++s st | None => EmptyString end)
  ++s RULE ++s "If nothing needs attention, reply EXACTLY with: ROUTINE_OK" ++s NL
  ++s "If something needs attention, provide a concise summary.".
Definition effective_max_tokens (meta : Result ModelMetadata LlmError) (max_tokens : Z) : Z :=
  match meta with
  | Ok m => Z.max (match md_context_length m with Some c => c / 2 | None => max_tokens end) max_tokens
  | Err _ => max_tokens
  end.
Definition classify (resp : CompletionResponse) : Result Execution string :=
  let content := Strs.trim (resp_content resp) in
  let tokens := Some (as_i32 (wrap 32 (resp_input_tokens resp + resp_output_tokens resp))) in
  if is_empty content
  then Err (match resp_finish_reason resp with
            | Length => "LLM response truncated (finish_reason=length) with no content. Model may have exhausted token budget on reasoning."
            | _ => "LLM returned empty content."
            end)%string
  else if String.eqb content "ROUTINE_OK" || str_contains content "ROUTINE_OK" then Ok (RunOk, None, tokens)
  else Ok (Attention, Some content, tokens).

Section Execute.
Context {Decimal P : Type} `{!LlmProvider Json Decimal P}.
Context (read : string -> option string) (system_prompt : option string) (llm_show : LlmError -> string).

Definition lightweight_request (meta : Result ModelMetadata LlmError) (name prompt : string) (paths : list string) (max_tokens : Z)
  : CompletionRequest Json :=
  let sp := default EmptyString system_prompt in
  let user := msg_user (full_prompt read name prompt paths) in
  with_temperature (with_max_tokens (new_request (if is_empty sp then [user] else [msg_system sp; user]))
                      (effective_max_tokens meta max_tokens)) TEMPERATURE.
Definition execute_lightweight (name prompt : string) (paths : list string) (max_tokens : Z) (p : P) (t : Instant)
  : Result Execution string * P :=
  let '(meta, p, t) := model_metadata p t in
  let '(r, p, _) := complete (lightweight_request meta name prompt paths max_tokens) p t in
  (match r with
   | Err e => Err ("LLM call failed: " ++s llm_show e)
   | Ok resp => classify resp
   end, p).
End Execute.

(** A full job: the job is created and scheduled, and its state is read until
    it ends or the deadline passes.  Each element of [turns] is one round of
    the loop: the time, and what the rest of the program did to the scheduler
    since the last round. *)
Section FullJob.
Context {Decimal Value : Type} `{!DecimalOps Decimal}.
Context (job_show : JobError -> string) (sched_show : SchedError -> string) (uuid_show : Uuid -> string).
Abbreviation Sched := (Scheduler Decimal Value).

Definition timeout_secs (max_iterations : Z) : Z := Z.max 60 (Z.min 1800 (saturating_mul U64_MAX max_iterations 30)).
Definition job_outcome (title : string) (id : Uuid) (c : JobContext Decimal Value) : option Execution :=
  match state c with
  | Completed | Accepted =>
      Some (RunOk, Some ("Full job '" ++s title ++s "' completed successfully (job_id=" ++s uuid_show id ++s ")"), None)
  | Failed =>
      let reason := default "Job failed"%string (last (transitions c) ≫= tr_reason) in
      Some (RunFailed, Some ("Full job failed (job_id=" ++s uuid_show id ++s "): " ++s reason), None)
  | Cancelled => Some (RunFailed, Some ("Full job cancelled (job_id=" ++s uuid_show id ++s ")"), None)
  | Pending | InProgress | Stuck | Submitted => None
  end.
Fixpoint poll_job (deadline : Instant) (secs : Z) (title : string) (id : Uuid) (turns : list (Instant * (Sched -> Sched))) (s : Sched)
  : option (Result Execution string) * Sched :=
  match turns with
  | [] => (None, s)
  | (now, others) :: turns =>
      let s := others s in
      if deadline <=? now
      then (Some (Err ("full_job timed out after " ++s pretty secs ++s "s (job_id=" ++s uuid_show id ++s ")")), (stop id now now s).2)
      else match get_context (context_manager s) id with
           | Err e => (Some (Err ("failed to read full_job context: " ++s job_show e)), s)
           | Ok c => match job_outcome title id c with
                     | Some x => (Some (Ok x), s)
                     | None => poll_job deadline secs title id turns s
                     end
           end
  end.
Definition execute_full_job (fresh : Uuid) (null : Value) (start : Instant) (user title description : string) (max_iterations : Z)
    (turns : list (Instant * (Sched -> Sched))) (s : Sched) : option (Result Execution string) * Sched :=
  let '(r, m) := create_job_for_user (context_manager s) fresh start null user title description in
  let s := set_jobs s (jobs s) m in
  match r with
  | Err e => (Some (Err ("failed to create full_job context: " ++s job_show e)), s)
  | Ok id =>
      match schedule id start start s with
      | (Err e, s) => (Some (Err ("failed to schedule full_job: " ++s sched_show e)), s)
      | (Ok _, s) =>
          let secs := timeout_secs max_iterations in
          poll_job (start + from_secs secs) secs title id turns s
      end
  end.
End FullJob.

(** ** The engine *)
Record IncomingMessage := mkIncoming { m_channel : string; m_content : string }.

(** A spawned task: about to record its run, recorded, or executing. *)
Inductive Stage := ToRecord | Recorded | Executing.
Record RoutineTask := mkRTask { stage : Stage; t_routine : Routine; t_run : RoutineRun }.
Record Engine {R : Type} := mkEngine {
  max_concurrent_routines : nat; store : Store; event_cache : list (Uuid * Routine * R);
  running_count : nat; tasks : list RoutineTask; sent : list OutgoingResponse }.
Arguments Engine R : clear implicits.

Section Engine.
Context {R : Type} (regex_new : string -> option R) (is_match : R -> string -> bool).
Context (next_cron_fire : string -> DateTime -> Result (option DateTime) string).
Abbreviation E := (Engine R).

Definition with_store (s : Store) (e : E) : E :=
  mkEngine _ (max_concurrent_routines e) s (event_cache e) (running_count e) (tasks e) (sent e).
Definition with_tasks (l : list RoutineTask) (e : E) : E :=
  mkEngine _ (max_concurrent_routines e) (store e) (event_cache e) (running_count e) l (sent e).
Definition with_count (n : nat) (e : E) : E :=
  mkEngine _ (max_concurrent_routines e) (store e) (event_cache e) n (tasks e) (sent e).

Definition cache_entry (r : Routine) : option (Uuid * Routine * R) :=
  match trigger r with
  | OnEvent _ pattern => (fun re => (r_id r, r, re)) <$> regex_new pattern
  | _ => None
  end.
Definition refresh_event_cache (e : E) : E :=
  match list_event_routines (store e) with
  | Ok rs => mkEngine _ (max_concurrent_routines e) (store e) (omap cache_entry rs) (running_count e) (tasks e) (sent e)
  | Err _ => e
  end.

(** [chrono::Duration::from_std], whose maximum is [i64::MAX] milliseconds. *)
Definition chrono_cooldown (d : Duration) : Duration := if (2 ^ 63 - 1) * 1000000 <? d then from_secs 300 else d.
Definition check_cooldown (now : DateTime) (r : Routine) : bool :=
  match last_run_at r with
  | Some last_run => negb (now - last_run <? chrono_cooldown (cooldown (guardrails r)))
  | None => true
  end.
Definition check_concurrent (r : Routine) (s : Store) : bool :=
  match count_running_routine_runs (r_id r) s with
  | Ok count => count <? max_concurrent (guardrails r)
  | Err _ => false
  end.
Definition new_run (id : Uuid) (r : Routine) (ty : string) (detail : option string) (now : DateTime) : RoutineRun :=
  mkRun id (r_id r) ty detail now None Running None None None now.
Definition spawn_fire (fresh : Uuid) (now : DateTime) (r : Routine) (ty : string) (detail : option string) (e : E) : E :=
  with_tasks (tasks e ++ [mkRTask ToRecord r (new_run fresh r ty detail now)]) e.

Definition channel_passes (r : Routine) (m : IncomingMessage) : bool :=
  match trigger r with OnEvent (Some ch) _ => String.eqb ch (m_channel m) | _ => true end.
Definition event_fires (now : DateTime) (m : IncomingMessage) (r : Routine) (re : R) (e : E) : bool :=
  channel_passes r m && is_match re (m_content m) && check_cooldown now r && check_concurrent r (store e)
  && negb (max_concurrent_routines e <=? running_count e)%nat.
Fixpoint event_loop (now : DateTime) (m : IncomingMessage) (fresh : nat -> Uuid) (cache : list (Uuid * Routine * R)) (fired : nat) (e : E)
  : nat * E :=
  match cache with
  | [] => (fired, e)
  | (_, r, re) :: cache =>
      if event_fires now m r re e
      then event_loop now m fresh cache (S fired)
             (spawn_fire (fresh fired) now r "event" (Some (truncate (m_content m) 200)) e)
      else event_loop now m fresh cache fired e
  end.
Definition check_event_triggers (now : DateTime) (m : IncomingMessage) (fresh : nat -> Uuid) (e : E) : nat * E :=
  event_loop now m fresh (event_cache e) 0 e.

Fixpoint cron_loop (now : DateTime) (fresh : nat -> Uuid) (rs : list Routine) (n : nat) (e : E) : E :=
  match rs with
  | [] => e
  | r :: rs =>
      if (max_concurrent_routines e <=? running_count e)%nat then e
      else if check_cooldown now r && check_concurrent r (store e)
      then cron_loop now fresh rs (S n)
             (spawn_fire (fresh n) now r "cron" (match trigger r with Cron s => Some s | _ => None end) e)
      else cron_loop now fresh rs n e
  end.
Definition check_cron_triggers (now : DateTime) (fresh : nat -> Uuid) (e : E) : E :=
  match list_due_cron_routines now (store e) with
  | Err _ => e
  | Ok rs => cron_loop now fresh rs 0 e
  end.

Definition fire_manual (uuid_show : Uuid -> string) (fresh : Uuid) (now : DateTime) (id : Uuid) (e : E) : Result Uuid string * E :=
  match get_routine id (store e) with
  | Err x => (Err ("DB error: " ++s x), e)
  | Ok None => (Err ("routine " ++s uuid_show id ++s " not found"), e)
  | Ok (Some r) =>
      if negb (enabled r) then (Err ("routine '" ++s r_name r ++s "' is disabled"), e)
      else if negb (check_concurrent r (store e))
      then (Err ("routine '" ++s r_name r ++s "' already at max concurrent runs"), e)
      else
        let run := new_run fresh r "manual" None now in
        match create_routine_run run (store e) with
        | (Err x, s) => (Err ("failed to create run record: " ++s x), with_store s e)
        | (Ok _, s) => (Ok fresh, with_tasks (tasks e ++ [mkRTask Recorded r run]) (with_store s e))
        end
  end.

(** The steps of a spawned task. *)
Definition record_run (t : RoutineTask) (e : E) : option RoutineTask * E :=
  let '(r, s) := create_routine_run (t_run t) (store e) in
  (match r with Ok _ => Some (mkRTask Recorded (t_routine t) (t_run t)) | Err _ => None end, with_store s e).
Definition start_run (t : RoutineTask) (e : E) : option RoutineTask * E :=
  (Some (mkRTask Executing (t_routine t) (t_run t)), with_count (S (running_count e)) e).
(** [execute_routine] after the execution. *)
Definition finish_run (now : DateTime) (result : Result Execution string) (t : RoutineTask) (e : E) : option RoutineTask * E :=
  let r := t_routine t in
  let e := with_count (pred (running_count e)) e in
  let '(st, summary, tokens) := match result with Ok x => x | Err msg => (RunFailed, Some msg, None) end in
  let s := (complete_routine_run now (run_id (t_run t)) st summary tokens (store e)).2 in
  let next := match trigger r with
              | Cron sch => match next_cron_fire sch now with Ok o => o | Err _ => None end
              | _ => None
              end in
  let failures := if bool_decide (st = RunFailed) then wrapping_add 32 (consecutive_failures r) 1 else 0 in
  let s := (update_routine_runtime (r_id r) now next (wrapping_add 64 (run_count r) 1) failures (r_state r) s).2 in
  (None, mkEngine _ (max_concurrent_routines e) s (event_cache e) (running_count e) (tasks e)
           (send_notification (notify r) (r_name r) st summary (sent e))).

(** One step of the [i]-th task, ending with [result] when it is executing. *)
Definition task_step (now : DateTime) (result : Result Execution string) (i : nat) (e : E) : E :=
  match tasks e !! i with
  | None => e
  | Some t =>
      let '(t', e) := match stage t with
                      | ToRecord => record_run t e
                      | Recorded => start_run t e
                      | Executing => finish_run now result t e
                      end in
      with_tasks (match t' with Some t' => <[i := t']> (tasks e) | None => delete i (tasks e) end) e
  end.
End Engine.

(** ** The tools *)
Section Tools.
Context {R : Type} (regex_new : string -> option R) (regex_error : string -> string).
Context (next_cron_fire : string -> DateTime -> Result (option DateTime) string).
Context (uuid_show : Uuid -> string) (rfc3339 : DateTime -> string).
Abbreviation E := (Engine R).
Definition jtime (o : option DateTime) : Json := jstr_opt (rfc3339 <$> o).

Definition parse_trigger (params : Json) (now : DateTime) (ty : string) : Result Trigger ExecError :=
  if String.eqb ty "cron"
  then match get_str "schedule" params with
       | None => Err (InvalidParameters "cron trigger requires 'schedule'")
       | Some s => match next_cron_fire s now with
                   | Err e => Err (InvalidParameters ("invalid cron schedule: " ++s e))
                   | Ok _ => Ok (Cron s)
                   end
       end
  else if String.eqb ty "event"
  then match get_str "event_pattern" params with
       | None => Err (InvalidParameters "event trigger requires 'event_pattern'")
       | Some p => match regex_new p with
                   | None => Err (InvalidParameters ("invalid regex: " ++s regex_error p))
                   | Some _ => Ok (OnEvent (get_str "event_channel" params) p)
                   end
       end
  else if String.eqb ty "webhook" then Ok (Webhook None None)
  else if String.eqb ty "manual" then Ok Manual
  else Err (InvalidParameters ("unknown trigger_type: " ++s ty)).
Definition parse_action (params : Json) (name prompt : string) : Result RoutineAction ExecError :=
  let ty := default "lightweight"%string (get_str "action_type" params) in
  if String.eqb ty "lightweight" then Ok (Lightweight prompt (str_items (json_get "context_paths" params)) 4096)
  else if String.eqb ty "full_job" then Ok (FullJob name prompt 10)
  else Err (InvalidParameters ("unknown action_type: " ++s ty)).
Definition cron_next (t : Trigger) (now : DateTime) : option DateTime :=
  match t with Cron s => match next_cron_fire s now with Ok o => o | Err _ => None end | _ => None end.

Definition routine_create (fresh : Uuid) (now : DateTime) (user : string) (params : Json) (e : E) : Result Json ExecError * E :=
  match (let? name := require_str params "name" in
         let? ty := require_str params "trigger_type" in
         let? prompt := require_str params "prompt" in
         let? trg := parse_trigger params now ty in
         let? act := parse_action params name prompt in
         Ok (mkRoutine fresh name (default EmptyString (get_str "description" params)) user true trg act
               (mkGuardrails (from_secs (default 300 (get_u64 "cooldown_secs" params))) 1 None) default_notify
               None (cron_next trg now) 0 0 (JObject []) now now)) with
  | Err x => (Err x, e)
  | Ok r =>
      match create_routine r (store e) with
      | (Err x, s) => (Err (ExecutionFailed ("failed to create routine: " ++s x)), with_store s e)
      | (Ok _, s) =>
          let e := with_store s e in
          let e := if String.eqb (trigger_tag (trigger r)) "event" then refresh_event_cache regex_new e else e in
          (Ok (JObject [("id", JString (uuid_show (r_id r))); ("name", JString (r_name r));
                        ("trigger_type", JString (trigger_tag (trigger r))); ("next_fire_at", jtime (next_fire_at r));
                        ("status", JString "created")]%string), e)
      end
  end.

Definition set_prompt (p : string) (a : RoutineAction) : RoutineAction :=
  match a with Lightweight _ cs n => Lightweight p cs n | FullJob t _ n => FullJob t p n end.
Definition with_fields (r : Routine) (en : bool) (d : string) (t : Trigger) (a : RoutineAction) (next : option DateTime) : Routine :=
  mkRoutine (r_id r) (r_name r) d (r_user_id r) en t a (guardrails r) (notify r) (last_run_at r) next (run_count r)
    (consecutive_failures r) (r_state r) (r_created_at r) (r_updated_at r).
Definition apply_update (params : Json) (now : DateTime) (r : Routine) : Result Routine ExecError :=
  let en := default (enabled r) (get_bool "enabled" params) in
  let d := default (r_description r) (get_str "description" params) in
  let a := match get_str "prompt" params with Some p => set_prompt p (action r) | None => action r end in
  match get_str "schedule" params with
  | None => Ok (with_fields r en d (trigger r) a (next_fire_at r))
  | Some s => match next_cron_fire s now with
              | Err x => Err (InvalidParameters ("invalid cron schedule: " ++s x))
              | Ok next => Ok (with_fields r en d (Cron s) a next)
              end
  end.
Definition find_routine (user name : string) (e : E) : Result Routine ExecError :=
  match get_routine_by_name user name (store e) with
  | Err x => Err (ExecutionFailed ("DB error: " ++s x))
  | Ok None => Err (ExecutionFailed ("routine '" ++s name ++s "' not found"))
  | Ok (Some r) => Ok r
  end.
Definition routine_update (now : DateTime) (user : string) (params : Json) (e : E) : Result Json ExecError * E :=
  match (let? name := require_str params "name" in
         let? r := find_routine user name e in
         apply_update params now r) with
  | Err x => (Err x, e)
  | Ok r =>
      match update_routine now r (store e) with
      | (Err x, s) => (Err (ExecutionFailed ("failed to update: " ++s x)), with_store s e)
      | (Ok _, s) =>
          (Ok (JObject [("name", JString (r_name r)); ("enabled", JBool (enabled r));
                        ("trigger_type", JString (trigger_tag (trigger r))); ("next_fire_at", jtime (next_fire_at r));
                        ("status", JString "updated")]%string),
           refresh_event_cache regex_new (with_store s e))
      end
  end.
Definition routine_delete (user : string) (params : Json) (e : E) : Result Json ExecError * E :=
  match (let? name := require_str params "name" in
         let? r := find_routine user name e in Ok (name, r)) with
  | Err x => (Err x, e)
  | Ok (name, r) =>
      match delete_routine (r_id r) (store e) with
      | (Err x, s) => (Err (ExecutionFailed ("failed to delete: " ++s x)), with_store s e)
      | (Ok deleted, s) =>
          (Ok (JObject [("name", JString name); ("deleted", JBool deleted)]%string),
           refresh_event_cache regex_new (with_store s e))
      end
  end.
End Tools.

(** ** What is stored is read back *)
Lemma digit_char (x : N) : (x < 10)%N -> digit (pretty_N_char x) = Some (Z.of_N x).
Proof.
  intros H.
  assert (x = 0 \/ x = 1 \/ x = 2 \/ x = 3 \/ x = 4 \/ x = 5 \/ x = 6 \/ x = 7 \/ x = 8 \/ x = 9)%N as E by lia.
  by repeat destruct E as [->|E]; [..|subst x].
Qed.
Lemma digits_pretty_go (x : N) : forall s, (0 < x)%N -> digits 0 (pretty_N_go x s) = digits (Z.of_N x) s.
Proof.
  induction (N.lt_wf_0 x) as [x _ IH]. intros s Hx. rewrite pretty_N_go_step by done.
  assert (Hm : (x `mod` 10 < 10)%N) by (apply N.mod_lt; lia).
  assert (Hx' : Z.of_N x = 10 * Z.of_N (x `div` 10) + Z.of_N (x `mod` 10)) by (pose proof (N.div_mod x 10 ltac:(lia)); lia).
  destruct (decide (x `div` 10 = 0)%N) as [E|E].
  - rewrite E, pretty_N_go_0. cbn [digits]. rewrite digit_char by done. f_equal. lia.
  - rewrite IH; [|apply N.div_lt; lia|lia]. cbn [digits]. rewrite digit_char by done. f_equal. lia.
Qed.
Lemma as_u64_jnat (n : Z) : in_u 32 n -> as_u64 (jnat n) = Some n.
Proof.
  intros [H1 H2]. unfold jnat, as_u64. destruct n as [|p|p]; [done| |lia].
  change (pretty (Zpos p)) with (pretty (Npos p)). unfold pretty, pretty_N. rewrite decide_False by done.
  pose proof (digits_pretty_go (Npos p) EmptyString ltac:(lia)) as E. cbn [digits] in E.
  destruct (pretty_N_go (Npos p) EmptyString); [done|]. rewrite E.
  rewrite (proj2 (Z.ltb_lt _ _)); [done|]. change (Z.of_N (Npos p)) with (Zpos p). lia.
Qed.

Definition tokens_ok (a : RoutineAction) : Prop := match a with Lightweight _ _ n | FullJob _ _ n => in_u 32 n end.

(** The columns of a routine in the database determine its trigger and its
    action, and the status column of a run its status. *)
Theorem routine_columns_roundtrip (t : Trigger) (a : RoutineAction) (s : RunStatus) :
  tokens_ok a ->
  trigger_from_db (trigger_tag t) (trigger_config_json t) = Ok t
  /\ action_from_db (action_tag a) (action_config_json a) = Ok a
  /\ run_status_from_str (run_status_display s) = Ok s.
Proof.
  intros Ha. split_and!.
  - destruct t as [?|[]|[] []|]; reflexivity.
  - destruct a as [p cs n|t' d n]; cbn in Ha; unfold action_from_db, action_config_json, get_u64;
      cbn -[as_u64 wrap jnat]; rewrite (as_u64_jnat n) by done; cbn -[wrap]; rewrite wrap_small by done; [|done].
    do 2 f_equal. induction cs as [|c cs IH]; [done|]. cbn. by f_equal.
  - by destruct s.
Qed.

(** ** The engine's accounts *)
Section EngineProofs.
Context {R : Type} (regex_new : string -> option R) (is_match : R -> string -> bool).
Context (next_cron_fire : string -> DateTime -> Result (option DateTime) string).
Abbreviation E := (Engine R).
Abbreviation task_step := (task_step next_cron_fire).

Definition executing (t : RoutineTask) : bool := match stage t with Executing => true | _ => false end.
Definition n_executing (l : list RoutineTask) : nat := length (List.filter executing l).
Lemma n_executing_app l k : n_executing (l ++ k) = (n_executing l + n_executing k)%nat.
Proof. unfold n_executing. by rewrite List.filter_app, length_app. Qed.
Lemma n_executing_split l i t : l !! i = Some t ->
  n_executing l = (n_executing (delete i l) + Nat.b2n (executing t))%nat
  /\ forall t', n_executing (<[i := t']> l) = (n_executing (delete i l) + Nat.b2n (executing t'))%nat.
Proof.
  intros H. rewrite delete_take_drop. pose proof (take_drop_middle l i t H) as E. apply lookup_lt_Some in H as Hlen.
  split; [rewrite <-E at 1|intros t'; rewrite insert_take_drop by done]; rewrite !n_executing_app;
    (change (?x :: ?y) with ([x] ++ y)); rewrite n_executing_app; unfold n_executing at 2; cbn;
    [destruct (executing t)|destruct (executing t')]; cbn; lia.
Qed.

(** What the engine may do next. *)
Inductive EngineOp :=
| OpRefresh
| OpEvent (now : DateTime) (m : IncomingMessage) (fresh : nat -> Uuid)
| OpCron (now : DateTime) (fresh : nat -> Uuid)
| OpManual (uuid_show : Uuid -> string) (fresh : Uuid) (now : DateTime) (id : Uuid)
| OpTask (now : DateTime) (result : Result Execution string) (i : nat)
| OpDatabase (s : Store).
Definition engine_op (o : EngineOp) (e : E) : E :=
  match o with
  | OpRefresh => refresh_event_cache regex_new e
  | OpEvent now m fresh => (check_event_triggers is_match now m fresh e).2
  | OpCron now fresh => check_cron_triggers now fresh e
  | OpManual show fresh now id => (fire_manual show fresh now id e).2
  | OpTask now result i => task_step now result i e
  | OpDatabase s => with_store s e
  end.
Definition accounted (e : E) : Prop := running_count e = n_executing (tasks e).

(** Firing only adds tasks that have not started. *)
Definition spawned (e e' : E) : Prop :=
  running_count e' = running_count e /\ event_cache e' = event_cache e /\ max_concurrent_routines e' = max_concurrent_routines e
  /\ exists l, tasks e' = tasks e ++ l /\ Forall (fun t => executing t = false) l.
Lemma spawned_refl e : spawned e e.
Proof. split_and!; try done. exists []. by rewrite app_nil_r. Qed.
Lemma spawn_fire_spawned fresh now r ty d e e' : spawned (spawn_fire fresh now r ty d e) e' -> spawned e e'.
Proof.
  intros (H1 & H2 & H3 & l & H4 & H5). split_and!; try done. exists (mkRTask ToRecord r (new_run fresh r ty d now) :: l).
  rewrite H4. cbn. rewrite <-app_assoc. split; [done|by constructor].
Qed.
Lemma event_loop_spawned now m fresh cache : forall fired e, spawned e (event_loop is_match now m fresh cache fired e).2.
Proof.
  induction cache as [|[[id r] re] cache IH]; intros fired e; cbn [event_loop]; [apply spawned_refl|].
  destruct (event_fires is_match now m r re e); [eapply spawn_fire_spawned|]; apply IH.
Qed.
Lemma cron_loop_spawned now fresh rs : forall n e, spawned e (cron_loop now fresh rs n e).
Proof.
  induction rs as [|r rs IH]; intros n e; cbn [cron_loop]; [apply spawned_refl|].
  destruct (_ <=? _)%nat; [apply spawned_refl|]. destruct (_ && _); [eapply spawn_fire_spawned|]; apply IH.
Qed.
Lemma spawned_accounted e e' : spawned e e' -> accounted e -> accounted e'.
Proof.
  intros (H1 & _ & _ & l & H4 & H5) H. unfold accounted in *. rewrite H1, H4, n_executing_app, H.
  assert (n_executing l = 0%nat) as ->; [|lia]. unfold n_executing.
  clear -H5. induction H5 as [|t l Ht _ IH]; [done|]. cbn. by rewrite Ht.
Qed.
Lemma task_step_accounted now result i e : accounted e -> accounted (task_step now result i e).
Proof.
  unfold accounted, Routines.task_step. intros H. destruct (tasks e !! i) as [t|] eqn:Et; [|done].
  destruct (n_executing_split _ _ _ Et) as [Hd Hi]. unfold executing in Hd. destruct (stage t) eqn:Es; cbn [Nat.b2n] in Hd.
  - unfold record_run. destruct (create_routine_run (t_run t) (store e)) as [[] s];
      cbn [tasks with_tasks running_count with_store]; rewrite ?Hi; cbn [executing stage Nat.b2n]; lia.
  - cbn [start_run tasks with_tasks running_count with_count]. rewrite Hi. cbn [executing stage Nat.b2n]. lia.
  - unfold finish_run. destruct (match result with Ok x => x | Err msg => _ end) as [[st summary] tokens].
    cbn [tasks with_tasks running_count with_count]. lia.
Qed.


(** ** Where the guardrails give way *)
Lemma task_step_cache now result i (e : E) : event_cache (task_step now result i e) = event_cache e.
Proof.
  unfold Routines.task_step. destruct (tasks e !! i) as [t|]; [|done].
  destruct (stage t); [unfold record_run; by destruct (create_routine_run (t_run t) (store e)) as [[] ?]|done|].
  unfold finish_run. by destruct (match result with Ok x => x | Err msg => _ end) as [[st summary] tokens].
Qed.

(** An event routine is judged by the copy in the cache, which no run updates:
    if that copy has never run, the routine's cooldown holds nothing back,
    however recent the last run in the database is. *)
Theorem event_cooldown_not_enforced (steps : list (DateTime * Result Execution string * nat)) (e : E)
    (now : DateTime) (m : IncomingMessage) (id : Uuid) (r : Routine) (re : R) :
  (id, r, re) ∈ event_cache e -> last_run_at r = None ->
  let e' := foldl (fun e s => task_step s.1.1 s.1.2 s.2 e) e steps in
  (id, r, re) ∈ event_cache e'
  /\ event_fires is_match now m r re e' =
       channel_passes r m && is_match re (m_content m) && check_concurrent r (store e')
       && negb (max_concurrent_routines e' <=? running_count e')%nat.
Proof.
  intros Hin Hl. cbn zeta. assert (Hc : event_cache (foldl (fun e s => task_step s.1.1 s.1.2 s.2 e) e steps) = event_cache e).
  { clear Hin. revert e. induction steps as [|s steps IH]; intros e; [done|]. cbn. by rewrite IH, task_step_cache. }
  rewrite Hc. split; [done|]. unfold event_fires, check_cooldown. by rewrite Hl, andb_true_r.
Qed.

(** One tick of the clock spawns every due routine that its own guardrails let
    through: the global limit is compared with a counter that only changes when
    the spawned tasks run. *)
Theorem cron_tick_ignores_global_limit (now : DateTime) (fresh : nat -> Uuid) (rs : list Routine) (e : E) :
  (running_count e < max_concurrent_routines e)%nat -> list_due_cron_routines now (store e) = Ok rs ->
  exists l, tasks (check_cron_triggers now fresh e) = tasks e ++ l
    /\ t_routine <$> l = List.filter (fun r => check_cooldown now r && check_concurrent r (store e)) rs.
Proof.
  intros Hc Hr. unfold check_cron_triggers. rewrite Hr. clear Hr. generalize 0%nat.
  assert (H : forall n (e1 : E), running_count e1 = running_count e -> max_concurrent_routines e1 = max_concurrent_routines e -> store e1 = store e ->
    exists l, tasks (cron_loop now fresh rs n e1) = tasks e1 ++ l
      /\ t_routine <$> l = List.filter (fun r => check_cooldown now r && check_concurrent r (store e)) rs).
  { induction rs as [|r rs IH]; intros n e1 H1 H2 H3; [exists []; by rewrite app_nil_r|]. cbn [cron_loop List.filter].
    rewrite H1, H2, H3, (proj2 (Nat.leb_gt _ _)) by done. destruct (check_cooldown now r && check_concurrent r (store e)); [|by apply IH].
    edestruct (IH (S n) (spawn_fire (fresh n) now r "cron" (match trigger r with Cron s => Some s | _ => None end) e1)) as (l & E1 & E2);
      [done..|]. exists (mkRTask ToRecord r (new_run (fresh n) r "cron" (match trigger r with Cron s => Some s | _ => None end) now) :: l).
    split; [rewrite E1; cbn; by rewrite <-app_assoc|cbn; by rewrite E2]. }
  intros n. by apply H.
Qed.
End EngineProofs.

(** ** Executions end *)
Section ExecutionProofs.
Context {Decimal Value : Type} `{!DecimalOps Decimal}.
Context (job_show : JobError -> string) (sched_show : SchedError -> string) (uuid_show : Uuid -> string).
Abbreviation Sched := (Scheduler Decimal Value).

Lemma timeout_range n : 0 <= n -> 60 <= timeout_secs n <= 1800.
Proof. unfold timeout_secs. lia. Qed.

(** A full job has a result as soon as the loop looks at or after its deadline,
    which is between one minute and half an hour after its start, whatever the
    rest of the program does to the scheduler in the meantime. *)
Theorem full_job_ends (fresh : Uuid) (null : Value) (start : Instant) (user title description : string) (n : Z)
    (turns : list (Instant * (Sched -> Sched))) (s : Sched) :
  0 <= n -> Exists (fun t => start + from_secs 1800 <= t.1) turns ->
  exists r, (execute_full_job job_show sched_show uuid_show fresh null start user title description n turns s).1 = Some r
    /\ (60 <= timeout_secs n <= 1800).
Proof.
  intros Hn Ht. unfold execute_full_job. pose proof (timeout_range n Hn) as Hr.
  destruct (create_job_for_user _ _ _ _ _ _ _) as [[id|e] m]; [|eauto].
  destruct (schedule id start start _) as [[[]|e] s1]; [|eauto].
  assert (Hd : start + from_secs (timeout_secs n) <= start + from_secs 1800) by (unfold from_secs; lia).
  revert s1. induction Ht as [[now f] turns Hnow|[now f] turns _ IH]; intros s1; cbn [poll_job].
  - rewrite (proj2 (Z.leb_le _ _)) by (cbn in Hnow; lia). eauto.
  - destruct (_ <=? now); [eauto|]. destruct (get_context _ _) as [c|]; [|eauto].
    destruct (job_outcome uuid_show title id c); [eauto|apply IH].
Qed.
End ExecutionProofs.

(** A lightweight run fails on an empty answer, needs no attention when the
    sentinel occurs anywhere in the answer, and otherwise passes on the
    trimmed answer. *)
Theorem classify_spec (resp : CompletionResponse) :
  let content := Strs.trim (resp_content resp) in
  match classify resp with
  | Err _ => content = EmptyString
  | Ok (st, summary, tokens) =>
      content <> EmptyString
      /\ (exists n, tokens = Some n /\ - 2 ^ 31 <= n < 2 ^ 31)
      /\ ((st = RunOk /\ summary = None /\ exists a b, content = a ++s "ROUTINE_OK" ++s b)
          \/ (st = Attention /\ summary = Some content /\ ~ exists a b, content = a ++s "ROUTINE_OK" ++s b))
  end.
Proof.
  unfold classify. set (content := Strs.trim (resp_content resp)). cbn zeta.
  assert (Hi : forall a, - 2 ^ 31 <= as_i32 a < 2 ^ 31).
  { intros a. unfold as_i32. pose proof (wrap_range 32 a ltac:(lia)) as [H1 H2]. destruct (Z.leb_spec (2 ^ 31) (wrap 32 a)); lia. }
  destruct (is_empty content) eqn:Ee; [by destruct content|].
  assert (Hc : content <> EmptyString) by (by intros E; rewrite E in Ee).
  destruct (String.eqb content "ROUTINE_OK" || str_contains content "ROUTINE_OK") eqn:Ec; split_and!; try done; eauto.
  - left. split_and!; [done..|]. apply orb_true_iff in Ec as [Ec|Ec]; [|by apply str_contains_spec].
    apply String.eqb_eq in Ec. exists EmptyString, EmptyString. by rewrite append_nil_r_str.
  - right. split_and!; [done..|]. intros H. apply str_contains_spec in H. rewrite H, orb_true_r in Ec. done.
Qed.

(** The token limit of a routine is a lower bound of what is asked for: the
    request allows half the model's context when that is more. *)
Theorem token_limit_is_a_floor (m : ModelMetadata) (c n : Z) :
  md_context_length m = Some c -> n <= effective_max_tokens (Ok m) n /\ c / 2 <= effective_max_tokens (Ok m) n.
Proof. intros H. cbn. rewrite H. lia. Qed.

(** ** Witnesses *)
Definition demo_routine (id : Uuid) (t : Trigger) (next : option DateTime) : Routine :=
  mkRoutine id "deploys" "" "default" true t (Lightweight "look" [] 4096) default_guardrails default_notify
    None next 0 0 (JObject []) 0 0.
Definition deploys : Routine := demo_routine 7%N (OnEvent None "deploy") None.
Definition demo_match (re s : string) : bool := str_contains s re.
Definition demo_store (l : list Routine) : Store := mkStore true (list_to_map ((fun r => (r_id r, r)) <$> l)) ∅.
Definition demo_engine (max : nat) (l : list Routine) : Engine string :=
  mkEngine _ max (demo_store l) (omap (cache_entry Some) l) 0 [] [].
Definition no_cron (_ : string) (_ : DateTime) : Result (option DateTime) string := Ok None.
Definition deploy_message : IncomingMessage := mkIncoming "repl" "deploy done".
Definition attention : Result Execution string := Ok (Attention, Some "look"%string, None).
(** The routine fires, records its run, starts and ends, all within one second. *)
Definition after_run : Engine string :=
  foldl (fun e (s : DateTime * Result Execution string * nat) => task_step no_cron s.1.1 s.1.2 s.2 e)
    (check_event_triggers demo_match 1 deploy_message (fun _ => 9%N) (demo_engine 10 [deploys])).2
    (replicate 3 (from_secs 1, attention, 0%nat)).

Lemma routine_columns_roundtrip_witness :
  action_from_db "lightweight" (action_config_json (Lightweight "p" ["a"; "b"]%string 4096)) = Ok (Lightweight "p" ["a"; "b"]%string 4096).
Proof. exact (proj1 (proj2 (routine_columns_roundtrip Manual (Lightweight "p" ["a"; "b"]%string 4096) Running ltac:(split; lia)))). Defined.
Lemma event_cooldown_not_enforced_witness :
  last_run_at <$> routines (store after_run) !! 7%N = Some (Some (from_secs 1))
  /\ tasks after_run = []
  /\ event_fires demo_match (from_secs 2) deploy_message deploys "deploy"%string after_run = true.
Proof.
  split; [vm_compute; reflexivity|]. split; [vm_compute; reflexivity|].
  destruct (event_cooldown_not_enforced demo_match no_cron (replicate 3 (from_secs 1, attention, 0%nat))
    (check_event_triggers demo_match 1 deploy_message (fun _ => 9%N) (demo_engine 10 [deploys])).2
    (from_secs 2) deploy_message 7%N deploys "deploy"%string ltac:(vm_compute; left) ltac:(reflexivity)) as [_ H].
  etransitivity; [exact H|vm_compute; reflexivity].
Defined.
Definition two_due : list Routine := [demo_routine 1%N (Cron "x") (Some 0); demo_routine 2%N (Cron "y") (Some 0)].
Lemma cron_tick_ignores_global_limit_witness :
  exists l, tasks (check_cron_triggers 5 (fun n => N.of_nat n) (demo_engine 1 two_due)) = l /\ length l = 2%nat.
Proof.
  destruct (cron_tick_ignores_global_limit 5 (fun n => N.of_nat n) _ (demo_engine 1 two_due) ltac:(cbn; lia) eq_refl) as (l & E & Hl).
  exists l. split; [exact E|]. apply (f_equal length) in Hl. rewrite length_fmap in Hl. rewrite Hl. vm_compute. reflexivity.
Defined.
Lemma full_job_ends_witness :
  exists r, (execute_full_job (fun _ => EmptyString) (fun _ => EmptyString) (fun _ => "j"%string) 5%N tt 0 "default" "t" "d" 10
    [(from_secs 10, fun s => s); (from_secs 1800, fun s => s)] (demo_scheduler ∅)).1 = Some r.
Proof.
  destruct (full_job_ends (fun _ => EmptyString) (fun _ => EmptyString) (fun _ => "j"%string) 5%N tt 0 "default" "t" "d" 10
    [(from_secs 10, fun s => s); (from_secs 1800, fun s => s)] (demo_scheduler ∅) ltac:(lia)
    ltac:(right; left; cbn; lia)) as (r & H & _). exists r. exact H.
Defined.
Lemma token_limit_is_a_floor_witness : 100000 <= effective_max_tokens (Ok (mkMetadata "m" (Some 200000))) 4096.
Proof. exact (proj2 (token_limit_is_a_floor (mkMetadata "m" (Some 200000)) 200000 4096 eq_refl)). Defined.
