(* ===== verification/AgentLoop.v ===== *)
(** The main loop of the agent: [src/agent/agent_loop.rs].

    [handle_message] is that of [ThreadOps]; here are what the loop does with
    its answer, the tasks it starts, and the wait of one-shot mode.  Which
    message comes next is up to the channels: a run is a list of messages. *)

From S2P Require Import Prelude Strs Json Float64 Skills Llm Session Submission Undo Hooks Safety Dispatcher ThreadOps.
From S2P Require Import Channels.
#[local] Open Scope claw_scope.

(** ** After a message *)
Section Deliver.
Context (hook_from_str : string -> option Json) (hook_to_string : Json -> string) (show_duration : Duration -> string) (hooks : list (HookEntry Json)).
Context (display : Error -> string).
Inductive Delivery := Send (content : string) | Silent | Stop.
(** The [BeforeOutbound] hooks on an answer. *)
Definition before_outbound (m : IncomingMessage) (response : string) : Delivery :=
  match Hooks.run hook_from_str hook_to_string show_duration hooks (Outbound (im_user_id m) (im_channel m) response (im_thread_id m)) with
  | Err _ => Silent
  | Ok (Continue (Some new)) => Send new
  | Ok _ => Send response
  end.
Definition deliver (m : IncomingMessage) (r : Result (option string) Error) : Delivery :=
  match r with
  | Ok (Some response) => if is_empty response then Silent else before_outbound m response
  | Ok None => Stop
  | Err e => Send ("Error: " ++s display e)
  end.
Context {S : Type} (handle : IncomingMessage -> S -> Result (option string) Error * S) (send : IncomingMessage -> OutgoingResponse -> S -> S)
        (triggers : IncomingMessage -> S -> S).
(** One turn of the loop; [false] when it ends. *)
Definition loop_step (m : IncomingMessage) (s : S) : bool * S :=
  let '(r, s) := handle m s in
  match deliver m r with
  | Stop => (false, s)
  | Silent => (true, triggers m s)
  | Send c => (true, triggers m (send m (text c) s))
  end.
(** The loop over the messages that arrive before Ctrl+C. *)
Fixpoint message_loop (ms : list IncomingMessage) (s : S) : bool * S :=
  match ms with
  | [] => (true, s)
  | m :: ms => let '(alive, s) := loop_step m s in if alive then message_loop ms s else (false, s)
  end.
End Deliver.

(** ** The background tasks of a start *)
Inductive BackgroundTask :=
| SelfRepairTask (every : Duration) | KernelTask (every : Duration) | ShadowPruneTask (every : Duration) | SessionPruneTask (every : Duration)
| HeartbeatTask (every : Duration) | RoutineTask (every : Duration) | ReflexTask (every : Duration).
Record AgentSetup := mkSetup {
  repair_check_interval : Duration; as_kernel : option (bool * Duration); as_shadow : option bool; as_heartbeat : option (bool * Z);
  as_routines : option (bool * Z); as_has_workspace : bool; as_has_store : bool }.
Definition background_tasks (a : AgentSetup) : list BackgroundTask :=
  [SelfRepairTask (repair_check_interval a)]
  ++ match as_kernel a with Some (true, every) => [KernelTask every] | _ => [] end
  ++ match as_shadow a with Some true => [ShadowPruneTask (from_secs 60)] | _ => [] end
  ++ [SessionPruneTask (from_secs 600)]
  ++ match as_heartbeat a with Some (true, secs) => if as_has_workspace a then [HeartbeatTask (from_secs secs)] else [] | _ => [] end
  ++ match as_routines a with
     | Some (true, secs) => if as_has_store a && as_has_workspace a then [RoutineTask (from_secs secs)] else []
     | _ => []
     end
  ++ (if as_has_store a then [ReflexTask (from_secs 300)] else []).

(** [select_active_skills]: none without a registry. *)
Definition select_active_skills (registry : option (list LoadedSkill)) (max_active : nat) (max_tokens : Z) (message : string) : list LoadedSkill :=
  match registry with Some available => prefilter_skills message available max_active max_tokens | None => [] end.

(** ** One-shot mode: waiting for the jobs *)
Definition WAIT_TIMEOUT : Duration := from_secs 300.
Definition REPORT_EVERY : Duration := from_secs 10.
(** What a round reads: the active jobs, the active containers, the clock for
    the timeout and the clock for the report. *)
Record Round := mkRound { active_context : nat; active_containers : nat; r_now : Instant; r_report : Instant }.
Inductive WaitEnd := AllFinished | WaitTimeout (jobs containers : nat).
Definition waiting_text (r : Round) : string :=
  "Waiting: " ++s pretty (active_context r) ++s " context job(s), " ++s pretty (active_containers r) ++s " container job(s) active...".
Definition end_text (e : WaitEnd) : string :=
  match e with
  | AllFinished => "Single-message mode: all spawned jobs finished."
  | WaitTimeout j c => "Single-message mode timeout: " ++s pretty j ++s " context job(s), " ++s pretty c ++s " container job(s) still active."
  end.
(** The rounds, the last report and what it said: the statuses and the end. *)
Fixpoint wait_for_jobs (started last_report : Instant) (last : option (nat * nat)) (rs : list Round) : list string * option WaitEnd :=
  match rs with
  | [] => ([], None)
  | r :: rs =>
      if (active_context r =? 0)%nat && (active_containers r =? 0)%nat then ([end_text AllFinished], Some AllFinished)
      else if WAIT_TIMEOUT <=? r_now r - started
      then let e := WaitTimeout (active_context r) (active_containers r) in ([end_text e], Some e)
      else
        let snapshot := (active_context r, active_containers r) in
        if negb (bool_decide (last = Some snapshot)) || (REPORT_EVERY <=? r_report r - last_report)
        then let '(out, e) := wait_for_jobs started (r_report r) (Some snapshot) rs in (waiting_text r :: out, e)
        else wait_for_jobs started last_report last rs
  end.
Definition single_message_wait (started : Instant) (rs : list Round) : list string * option WaitEnd :=
  let '(out, e) := wait_for_jobs started (started - REPORT_EVERY) None rs in ("Single-message mode: waiting for spawned jobs..."%string :: out, e).

(** ** Proofs: the wait *)
(** Each round begins at least two seconds after the one before. *)
Fixpoint paced (t : Instant) (rs : list Round) : Prop :=
  match rs with [] => True | r :: rs => t <= r_now r /\ paced (r_now r + from_secs 2) rs end.
Lemma wait_ends_from started lr last t rs n :
  paced t rs -> WAIT_TIMEOUT <= (t - started) + from_secs 2 * Z.of_nat n -> (n < length rs)%nat ->
  exists e, (wait_for_jobs started lr last rs).2 = Some e.
Proof.
  revert t lr last n. induction rs as [|r rs IH]; intros t lr last n Hp Hn Hl; cbn [length] in Hl; [lia|]. cbn [wait_for_jobs].
  destruct (_ && _)%bool; [by eexists|]. destruct (Z.leb_spec WAIT_TIMEOUT (r_now r - started)) as [Ht|Ht]; [by eexists|].
  destruct Hp as [Hr Hp]. destruct n as [|n]; [unfold WAIT_TIMEOUT in *; lia|].
  assert (Hn' : WAIT_TIMEOUT <= (r_now r + from_secs 2 - started) + from_secs 2 * Z.of_nat n) by lia.
  destruct (_ || _)%bool.
  - destruct (IH _ (r_report r) (Some (active_context r, active_containers r)) n Hp Hn' ltac:(lia)) as [e He].
    destruct (wait_for_jobs _ _ _ rs) as [out e']. by exists e.
  - eapply IH; [exact Hp|exact Hn'|lia].
Qed.
(** The wait of one-shot mode ends within 151 rounds: the rounds are two
    seconds apart and it gives up after five minutes. *)
Theorem single_message_wait_ends (started : Instant) (rs : list Round) :
  paced started rs -> (151 <= length rs)%nat -> exists e, (single_message_wait started rs).2 = Some e.
Proof.
  intros Hp Hl. unfold single_message_wait. destruct (wait_ends_from started (started - REPORT_EVERY) None started rs 150 Hp) as [e He];
    [unfold WAIT_TIMEOUT, from_secs; lia|lia|]. exists e. by destruct (wait_for_jobs _ _ _ rs).
Qed.

(** ** Proofs: when the agent stops *)
Section Shutdown.
Context {W : Type} (E : Deps W) (O : Ops W) (user : string) (tid : Uuid) (prompt : option string) (active : list LoadedSkill).
Context (channel : string) (ext_thread : option string) (null : Json) (uuid_parse : string -> option Uuid) (from_json : string -> option Submission).
Context (other : Submission -> Shared W -> Result (SubmissionResult Json) Error * Shared W).
(** An answer that is not the silence of [SOk None]. *)
Definition speaks {T} (r : Result (SubmissionResult Json) Error * T) : Prop := forall x, r.1 = Ok x -> respond_text x <> None.
Hypothesis other_speaks : forall sub sh, speaks (other sub sh).
Hypothesis command_speaks : forall c sh r, handle_command O c sh = Some r -> speaks r.
Ltac speak := unfold speaks; intros; repeat (case_match || simplify_eq/=); try done.
Lemma finish_turn_speaks c r ts : speaks (finish_turn E O user tid c r ts).
Proof. unfold finish_turn, need_approval. speak. Qed.
Lemma agent_turn_speaks c ts : speaks (agent_turn E O user tid prompt active c ts).
Proof.
  unfold agent_turn. destruct (threads (t_sess ts) !! tid); [|by intros x]. destruct (threads (t_sess (auto_compact O tid ts)) !! tid); [|by intros x].
  destruct (run_agentic_loop _ _ _ _ _ _ _ _). apply finish_turn_speaks.
Qed.
Lemma try_reflex_speaks c ts r ts' : try_reflex E O user tid c ts = (Some r, ts') -> speaks (r, ts').
Proof. unfold try_reflex. speak. Qed.
Lemma user_input_speaks c ts : speaks (process_user_input E O user tid prompt active c ts).
Proof.
  unfold process_user_input. destruct (threads (t_sess ts) !! tid) as [th|]; [|by intros x].
  destruct (th_state th); try by intros x [= <-].
  all: destruct (shadow_get O ≫= _); [by intros x [= <-]|]; cbv zeta.
  all: destruct (negb _); [by intros x [= <-]|]; destruct (input_blocked O c); [by intros x [= <-]|].
  all: destruct (handle_command O c _) as [[r sh]|] eqn:Hc; [exact (command_speaks _ _ _ Hc)|].
  all: destruct (try_reflex E O user tid c ts) as [[r|] ts'] eqn:Hr; [exact (try_reflex_speaks _ _ _ _ Hr)|apply agent_turn_speaks].
Qed.
Lemma approval_speaks id approved always ts : speaks (process_approval E O user tid prompt active id approved always ts).
Proof.
  unfold process_approval, run_approved, finish_approved, need_approval. speak.
Qed.
Lemma undo_speaks r (ts : TState W) : (forall x, r.1.1 = Ok x -> respond_text x <> None) -> speaks (on_undo r ts).
Proof. intros H x. destruct r as [[[x'|id] u] s]; cbn; [|done]. intros [= <-]. by apply H. Qed.
Lemma dispatch_speaks sub (ts : TState W) r ts' :
  dispatch E O user tid prompt active null other sub ts = (r, ts') -> match r with None => sub = Quit | Some a => speaks (a, ts') end.
Proof.
  intros H. destruct sub; cbn [dispatch] in H; simplify_eq; try exact (user_input_speaks _ _); try exact (approval_speaks _ _ _ _); try done.
  all: try (apply undo_speaks; intros x; unfold process_undo, process_redo, process_clear, process_resume, process_new_thread, process_switch_thread;
            repeat (case_match || simplify_eq/=); intros; simplify_eq/=; done).
  all: try (unfold process_interrupt, process_compact; by speak).
  all: destruct (other _ _) as [a sh] eqn:Ho; simplify_eq; intros x Hx; eapply other_speaks; by rewrite Ho.
Qed.
(** The agent stops on [/quit] and on nothing else: every other message is
    answered with a text, maybe empty, or an error. *)
Theorem shutdown_only_on_quit (m : IncomingMessage) (ts : TState W) :
  deliver (from_str E) (to_string E) (show_duration E) (hooks E) (display E) m
    (handle_message E O user tid prompt active channel ext_thread null uuid_parse from_json other (im_content m) ts).1 = Stop ->
  parse uuid_parse from_json (im_content m) = Quit.
Proof.
  intros Hs. assert (H0 : (handle_message E O user tid prompt active channel ext_thread null uuid_parse from_json other (im_content m) ts).1 = Ok None).
  { revert Hs. unfold deliver, before_outbound. destruct (handle_message _ _ _ _ _ _ _ _ _ _ _ _ _ _).1 as [[r|]|e]; [|done..].
    destruct (is_empty r); [done|]. destruct (Hooks.run _ _ _ _ _) as [[[]| ]|]; done. }
  revert H0. clear Hs. generalize (im_content m). intros content.
  unfold handle_message. destruct (before_inbound _ _ _ _ _) as [sub|refusal] eqn:Hb; [|done].
  assert (Hq : sub = Quit -> parse uuid_parse from_json content = Quit).
  { intros ->. unfold before_inbound in Hb. repeat (case_match || simplify_eq/=); done. }
  intros H. apply Hq. revert H. clear Hq Hb.
  assert (Hd : forall ts, (let '(a, ts') := dispatch E O user tid prompt active null other sub ts in
     match a with None => (Ok None, ts') | Some (Err e) => (Err e, ts') | Some (Ok r) => (Ok (respond_text r), ts') end).1 = Ok None -> sub = Quit).
  { intros ts0. destruct (dispatch _ _ _ _ _ _ _ _ sub ts0) as [a ts'] eqn:Hd. pose proof (dispatch_speaks _ _ _ _ Hd) as Hs.
    destruct a as [[r|e]|]; [|done..]. intros [= Hr]. by destruct (Hs r). }
  destruct (_ ≫= pending_auth) as [p|]; [|intros H; exact (Hd _ H)].
  destruct sub; try (intros H; exact (Hd _ H)).
  unfold process_auth_token. speak.
Qed.
End Shutdown.

(** ** Witnesses *)
Definition busy_rounds (n : nat) : list Round := map (fun i => mkRound 1 0 (from_secs (2 * Z.of_nat i)) (from_secs (2 * Z.of_nat i))) (seq 0 n).
Lemma busy_rounds_paced n : forall k, paced (from_secs (2 * Z.of_nat k)) (map (fun i => mkRound 1 0 (from_secs (2 * Z.of_nat i)) (from_secs (2 * Z.of_nat i))) (seq k n)).
Proof.
  induction n as [|n IH]; intros k; [done|]. cbn. split; [lia|]. specialize (IH (S k)). unfold from_secs in *.
  replace (2 * Z.of_nat k * 1000000000 + 2 * 1000000000) with (2 * Z.of_nat (S k) * 1000000000) by lia. exact IH.
Qed.
(** A job that never finishes: the wait gives up. *)
Lemma single_message_wait_ends_witness : exists e, (single_message_wait 0 (busy_rounds 151)).2 = Some e /\ e = WaitTimeout 1 0.
Proof.
  destruct (single_message_wait_ends 0 (busy_rounds 151) (busy_rounds_paced 151 0%nat)) as [e He]; [vm_compute; lia|].
  exists e. split; [exact He|]. assert (H : (single_message_wait 0 (busy_rounds 151)).2 = Some (WaitTimeout 1 0)) by (vm_compute; reflexivity). congruence.
Defined.
Definition quit_message : IncomingMessage := new_incoming 1%N 0 "repl" "alice" " /Quit".
Lemma shutdown_only_on_quit_witness : parse (fun _ => None) (fun _ => None) (im_content quit_message) = Quit.
Proof.
  refine (shutdown_only_on_quit talk_deps demo_ops "alice" 4%N None [] "repl" None JNull (fun _ => None) (fun _ => None)
     (fun _ sh => (Ok (SResponse "pong!"), sh)) _ _ quit_message (on_thread id) _).
  - by intros sub sh x [= <-].
  - by intros c sh r [=].
  - vm_compute. reflexivity.
Defined.
