(* ===== verification/Conversations.v ===== *)
(** Conversations in the libSQL store: [src/db/libsql/conversations.rs], the
    time columns of [src/db/libsql/mod.rs] and [persist_turn] of
    [src/agent/thread_ops.rs].

    The tables are lists of rows in the order of their insertion; time columns
    hold text, as SQLite has them, and are compared as text.  SQL leaves the
    order of rows with equal keys open: [asc] and [desc] are any functions that
    sort.  Whether foreign keys are enforced depends on how SQLite was built
    and is the parameter [fk].  A database that fails is not modelled. *)

From Stdlib Require Import Ascii.
From S2P Require Import Prelude Strs Json.
#[local] Open Scope claw_scope.

(** ** Time as text *)
Definition DAY : Z := 86400000000000.
Definition digit (n : Z) : ascii := chr (Z.to_nat (48 + n mod 10)).
Definition two (n : Z) : string := String (digit (n / 10)) (String (digit n) EmptyString).
Definition hms (t : DateTime) : string :=
  let s := t mod DAY / 1000000000 in two (s / 3600) ++s ":" ++s two (s / 60 mod 60) ++s ":" ++s two (s mod 60).
Definition millis (t : DateTime) : string := let m := t / 1000000 mod 1000 in String (digit (m / 100)) (two (m mod 100)).
(** The error text prints the text in Rust's debug form. *)
Inductive TsError := Unparseable (s : string).
Section Time.
Context (day_text : Z -> string).
(** [datetime('now')], the default of the columns, and [fmt_ts]. *)
Definition sql_now (t : DateTime) : string := day_text (t / DAY) ++s " " ++s hms t.
Definition fmt_ts (t : DateTime) : string := day_text (t / DAY) ++s "T" ++s hms t ++s "." ++s millis t ++s "Z".
(** [parse_timestamp] over the parsers of chrono, and [get_ts]. *)
Context (parse_rfc3339 parse_naive_frac parse_naive : string -> option DateTime).
Definition parse_timestamp (s : string) : Result DateTime TsError :=
  match parse_rfc3339 s with
  | Some t => Ok t
  | None => match parse_naive_frac s with
            | Some t => Ok t
            | None => match parse_naive s with Some t => Ok t | None => Err (Unparseable s) end
            end
  end.
Definition get_ts (s : string) : DateTime := match parse_timestamp s with Ok t => t | Err _ => 0 end.
End Time.

(** ** The tables *)
Record Conversation := mkConv {
  cv_id : Uuid; cv_channel : string; cv_user : string; cv_thread : option string; cv_started : string; cv_last : string; cv_metadata : Json }.
Record MessageRow := mkRow { mr_id : Uuid; mr_conv : Uuid; mr_role : string; mr_content : string; mr_created : string }.
Record ConvDb := mkConvDb { convs : list Conversation; rows : list MessageRow }.
Record ConversationMessage := mkMessage { cm_id : Uuid; cm_role : string; cm_content : string; cm_created_at : DateTime }.
Record ConversationSummary := mkSummary {
  cs_id : Uuid; cs_title : option string; cs_message_count : Z; cs_started_at : DateTime; cs_last_activity : DateTime; cs_thread_type : option string }.
Definition EMPTY : Json := JObject [].

(** [json_patch]: the merge patch of RFC 7396. *)
Definition drop_key (k : string) (l : list (string * Json)) : list (string * Json) := List.filter (fun kv => negb (String.eqb kv.1 k)) l.
Fixpoint merge_patch (target patch : Json) : Json :=
  match patch with
  | JObject fields =>
      JObject ((fix go (fields : list (string * Json)) (base : list (string * Json)) : list (string * Json) :=
        match fields with
        | [] => base
        | (k, v) :: fields => go fields (match v with JNull => drop_key k base | _ => put k (merge_patch (default JNull (assoc_get k base)) v) base end)
        end) fields (match target with JObject l => l | _ => [] end))
  | _ => patch
  end.

(** [ORDER BY] a text column: some sort, ascending or descending. *)
Class Orders {A} (key : A -> string) (asc desc : list A -> list A) : Prop := {
  asc_perm : forall l, Permutation (asc l) l;
  asc_sorted : forall l, Sorted (fun a b => String.leb (key a) (key b) = true) (asc l);
  desc_perm : forall l, Permutation (desc l) l;
  desc_sorted : forall l, Sorted (fun a b => String.leb (key b) (key a) = true) (desc l);
}.
(** [LIMIT n]: a negative number is no limit. *)
Definition sql_limit {A} (n : Z) (l : list A) : list A := if n <? 0 then l else take (Z.to_nat n) l.

Section Store.
Context (day_text : Z -> string) (parse_rfc3339 parse_naive_frac parse_naive : string -> option DateTime).
Context (asc desc : list MessageRow -> list MessageRow) (by_activity : list Conversation -> list Conversation) (fk : bool).
Abbreviation read_ts := (get_ts parse_rfc3339 parse_naive_frac parse_naive).
Implicit Types db : ConvDb.

Definition message_of (r : MessageRow) : ConversationMessage := mkMessage (mr_id r) (mr_role r) (mr_content r) (read_ts (mr_created r)).
Definition of_conv (id : Uuid) db : list MessageRow := List.filter (fun r => bool_decide (mr_conv r = id)) (rows db).
Definition find_conv (id : Uuid) db : option Conversation := List.find (fun c => bool_decide (cv_id c = id)) (convs db).
Definition insert_conv (c : Conversation) db : ConvDb := mkConvDb (convs db ++ [c]) (rows db).
Definition set_last (s : string) (c : Conversation) : Conversation :=
  mkConv (cv_id c) (cv_channel c) (cv_user c) (cv_thread c) (cv_started c) s (cv_metadata c).
Definition set_metadata (m : Json) (c : Conversation) : Conversation :=
  mkConv (cv_id c) (cv_channel c) (cv_user c) (cv_thread c) (cv_started c) (cv_last c) m.
Definition update_conv (id : Uuid) (f : Conversation -> Conversation) db : ConvDb :=
  mkConvDb (map (fun c => if bool_decide (cv_id c = id) then f c else c) (convs db)) (rows db).

Definition create_conversation (id : Uuid) (now : DateTime) (channel user : string) (thread : option string) db : Uuid * ConvDb :=
  (id, insert_conv (mkConv id channel user thread (sql_now day_text now) (sql_now day_text now) EMPTY) db).
Definition create_conversation_with_metadata (id : Uuid) (now : DateTime) (channel user : string) (meta : Json) db : Uuid * ConvDb :=
  (id, insert_conv (mkConv id channel user None (sql_now day_text now) (sql_now day_text now) meta) db).
Definition touch_conversation (id : Uuid) (now : DateTime) db : ConvDb := update_conv id (set_last (fmt_ts day_text now)) db.
Definition add_conversation_message (mid : Uuid) (now now2 : DateTime) (id : Uuid) (role content : string) db : Result Uuid string * ConvDb :=
  if fk && negb (bool_decide (is_Some (find_conv id db))) then (Err "FOREIGN KEY constraint failed"%string, db)
  else (Ok mid, touch_conversation id now2 (mkConvDb (convs db) (rows db ++ [mkRow mid id role content (sql_now day_text now)]))).
Definition ensure_conversation (id : Uuid) (now : DateTime) (channel user : string) (thread : option string) db : ConvDb :=
  match find_conv id db with
  | Some _ => update_conv id (set_last (fmt_ts day_text now)) db
  | None => insert_conv (mkConv id channel user thread (sql_now day_text now) (sql_now day_text now) EMPTY) db
  end.
(** The title is the start of the first message of the user. *)
Definition thread_type (c : Conversation) : option string := get_str "thread_type" (cv_metadata c).
Definition summary_of (preview : string -> string) db (c : Conversation) : ConversationSummary :=
  mkSummary (cv_id c)
    ((fun r => preview (mr_content r)) <$> head (asc (List.filter (fun r => String.eqb (mr_role r) "user") (of_conv (cv_id c) db))))
    (Z.of_nat (length (of_conv (cv_id c) db))) (read_ts (cv_started c)) (read_ts (cv_last c)) (thread_type c).
Definition in_channel (user channel : string) (c : Conversation) : bool := String.eqb (cv_user c) user && String.eqb (cv_channel c) channel.
Definition list_conversations_with_preview (preview : string -> string) (user channel : string) (limit : Z) db : list ConversationSummary :=
  map (summary_of preview db) (sql_limit limit (by_activity (List.filter (in_channel user channel) (convs db)))).
Definition is_assistant (c : Conversation) : bool := bool_decide (thread_type c = Some "assistant"%string).
Definition ASSISTANT_META : Json := JObject [("thread_type", JString "assistant"); ("title", JString "Assistant")]%string.
Definition get_or_create_assistant_conversation (fresh : Uuid) (now : DateTime) (user channel : string) db : Uuid * ConvDb :=
  match List.find (fun c => in_channel user channel c && is_assistant c) (convs db) with
  | Some c => (cv_id c, db)
  | None => create_conversation_with_metadata fresh now channel user ASSISTANT_META db
  end.
(** A page: the newest [limit] messages, before a time when one is given,
    oldest first; and whether there are older ones. *)
Definition list_conversation_messages_paginated (id : Uuid) (before : option DateTime) (limit : Z) db : list ConversationMessage * bool :=
  let older (r : MessageRow) := match before with Some t => String.ltb (mr_created r) (fmt_ts day_text t) | None => true end in
  let all := sql_limit (limit + 1) (desc (List.filter older (of_conv id db))) in
  (rev (if limit <? 0 then map message_of all else take (Z.to_nat limit) (map message_of all)), limit <? Z.of_nat (length all)).
Definition update_conversation_metadata_field (id : Uuid) (key : string) (value : Json) db : ConvDb :=
  update_conv id (fun c => set_metadata (merge_patch (cv_metadata c) (JObject [(key, value)])) c) db.
Definition get_conversation_metadata (id : Uuid) db : option Json := cv_metadata <$> find_conv id db.
Definition list_conversation_messages (id : Uuid) db : list ConversationMessage := map message_of (asc (of_conv id db)).
Definition conversation_belongs_to_user (id : Uuid) (user : string) db : bool :=
  existsb (fun c => bool_decide (cv_id c = id) && String.eqb (cv_user c) user) (convs db).
(** A deletion takes the messages along when foreign keys are enforced. *)
Definition delete_convs (p : Conversation -> bool) db : ConvDb :=
  let gone := List.filter p (convs db) in
  mkConvDb (List.filter (fun c => negb (p c)) (convs db))
    (if fk then List.filter (fun r => negb (existsb (fun c => bool_decide (cv_id c = mr_conv r)) gone)) (rows db) else rows db).
Definition delete_conversation_for_user (id : Uuid) (user : string) db : bool * ConvDb :=
  let p c := bool_decide (cv_id c = id) && String.eqb (cv_user c) user in
  (existsb p (convs db), delete_convs p db).
Definition delete_all_conversations_for_user_channel (user channel : string) db : nat * ConvDb :=
  (length (List.filter (in_channel user channel) (convs db)), delete_convs (in_channel user channel) db).

(** ** [persist_turn]: the task that stores a turn *)
Record TurnStamp := mkTurnStamp { ts_ids : Uuid * Uuid; ts_ensure : DateTime; ts_user : DateTime * DateTime; ts_assistant : DateTime * DateTime }.
Definition persist_turn (st : TurnStamp) (id : Uuid) (user input : string) (response : option string) db : ConvDb :=
  let db := ensure_conversation id (ts_ensure st) "gateway" user None db in
  let '(r, db) := add_conversation_message (ts_ids st).1 (ts_user st).1 (ts_user st).2 id "user" input db in
  match r, response with
  | Ok _, Some resp => snd (add_conversation_message (ts_ids st).2 (ts_assistant st).1 (ts_assistant st).2 id "assistant" resp db)
  | _, _ => db
  end.
Definition store_response_chain (id : Uuid) (rid : string) db : ConvDb := update_conversation_metadata_field id "last_response_id" (JString rid) db.
End Store.

(** ** Proofs: time as text *)
Section TimeFacts.
Context (day_text : Z -> string).
Lemma ltb_prefix (p a b : string) : String.ltb (p ++s a) (p ++s b) = String.ltb a b.
Proof.
  induction p as [|c p IH]; [done|]. rewrite !append_cons_str. unfold String.ltb in *. cbn. unfold Ascii.compare. by rewrite N.compare_refl.
Qed.
Lemma ltb_head (c d : ascii) (a b : string) : (N_of_ascii c < N_of_ascii d)%N -> String.ltb (String c a) (String d b) = true.
Proof. intros H. unfold String.ltb. cbn. unfold Ascii.compare. by rewrite (proj2 (N.compare_lt_iff _ _) H). Qed.
(** A column with its default is older, as text, than every time of the same
    day that the code writes. *)
Lemma default_before_day (t u : DateTime) : t / DAY = u / DAY -> String.ltb (sql_now day_text t) (fmt_ts day_text u) = true.
Proof. intros H. unfold sql_now, fmt_ts. rewrite H, ltb_prefix. by apply ltb_head. Qed.
End TimeFacts.

(** ** Proofs: pages *)
Section Pages.
Context (day_text : Z -> string) (parse_rfc3339 parse_naive_frac parse_naive : string -> option DateTime).
Context (asc desc : list MessageRow -> list MessageRow) `{!Orders mr_created asc desc}.
Abbreviation page := (list_conversation_messages_paginated day_text parse_rfc3339 parse_naive_frac parse_naive desc).
Abbreviation msg := (message_of parse_rfc3339 parse_naive_frac parse_naive).
Implicit Types db : ConvDb.
(** The cursor does not move inside a day: when all messages of a conversation
    are of the day of the cursor - stored by the default of the column, as all
    are - the page before the cursor is the newest page again. *)
Theorem page_repeats (id : Uuid) (cursor : DateTime) (limit : Z) db :
  (forall r, r ∈ rows db -> mr_conv r = id -> exists t, mr_created r = sql_now day_text t /\ t / DAY = cursor / DAY) ->
  page id (Some cursor) limit db = page id None limit db.
Proof.
  intros H. unfold list_conversation_messages_paginated.
  assert (E : List.filter (fun r => String.ltb (mr_created r) (fmt_ts day_text cursor)) (of_conv id db) = List.filter (fun _ => true) (of_conv id db)).
  { apply filter_ext_in. intros r [Hr%list_elem_of_In Hc%bool_decide_eq_true]%filter_In. destruct (H r Hr Hc) as (t & -> & Ht). by apply default_before_day. }
  by rewrite E.
Qed.
(** Without a cursor a page holds the newest messages of the conversation: at
    most [limit], all of it when it fits, and the flag tells the two apart. *)
Theorem newest_page_spec (id : Uuid) (limit : nat) db :
  let '(ms, more) := page id None (Z.of_nat limit) db in
  (length ms <= limit)%nat
  /\ (more = false -> Permutation ms (map msg (of_conv id db)) /\ (length (of_conv id db) <= limit)%nat)
  /\ (more = true -> length ms = limit /\ (limit < length (of_conv id db))%nat)
  /\ exists l1 l2, desc (of_conv id db) = l1 ++ l2 /\ ms = rev (map msg l1).
Proof.
  unfold list_conversation_messages_paginated, sql_limit. set (l := List.filter _ (of_conv id db)).
  assert (El : l = of_conv id db) by (unfold l; clear; induction (of_conv id db) as [|x t IH]; cbn; [done|by rewrite IH]). rewrite El.
  replace (Z.of_nat limit + 1 <? 0) with false by (symmetry; apply Z.ltb_ge; lia). replace (Z.of_nat limit <? 0) with false by (symmetry; apply Z.ltb_ge; lia).
  rewrite Nat2Z.id. replace (Z.to_nat (Z.of_nat limit + 1)) with (S limit) by lia. set (d := desc (of_conv id db)).
  assert (Hp : Permutation d (of_conv id db)) by apply desc_perm. pose proof (Permutation_length Hp) as Hl.
  rewrite fmap_take, take_take, Nat.min_l by lia. rewrite length_rev, length_take, length_fmap, length_take.
  split_and!.
  - lia.
  - intros Hm%Z.ltb_ge. assert (length d <= limit)%nat by lia. rewrite take_ge by (rewrite length_fmap; lia). split; [|lia].
    transitivity (map msg d); [symmetry; apply Permutation_rev|by apply Permutation_map].
  - intros Hm%Z.ltb_lt. lia.
  - exists (take limit d), (drop limit d). by rewrite take_drop, fmap_take.
Qed.
End Pages.

(** ** Proofs: metadata *)
Lemma find_app_one {A} (p : A -> bool) l x : List.find p (l ++ [x]) = match List.find p l with Some y => Some y | None => if p x then Some x else None end.
Proof. induction l as [|y l IH]; cbn; [done|]. by destruct (p y). Qed.
Lemma find_update id id' f db : (forall c, cv_id (f c) = cv_id c) ->
  find_conv id (update_conv id' f db) = (fun c => if bool_decide (id = id') then f c else c) <$> find_conv id db.
Proof.
  intros Hf. unfold find_conv, update_conv. cbn. induction (convs db) as [|c l IH]; cbn; [done|].
  assert (Hk : cv_id (if bool_decide (cv_id c = id') then f c else c) = cv_id c) by (destruct (bool_decide (cv_id c = id')); [apply Hf|done]).
  rewrite Hk. destruct (decide (cv_id c = id)) as [E|E].
  - rewrite !(bool_decide_eq_true_2 (cv_id c = id)) by done. cbn. by rewrite E.
  - rewrite !(bool_decide_eq_false_2 (cv_id c = id)) by done. exact IH.
Qed.
(** A field that was stored is read back, and the others are as they were. *)
Theorem metadata_field_roundtrip (id : Uuid) (key value : string) db m :
  get_conversation_metadata id db = Some m ->
  let db' := update_conversation_metadata_field id key (JString value) db in
  exists m', get_conversation_metadata id db' = Some m' /\ get_str key m' = Some value
    /\ (forall k, k <> key -> json_get k m' = json_get k m)
    /\ forall id', id' <> id -> get_conversation_metadata id' db' = get_conversation_metadata id' db.
Proof.
  unfold get_conversation_metadata, update_conversation_metadata_field. destruct (find_conv id db) as [c|] eqn:E; [|done]. intros [= <-].
  cbn zeta. rewrite find_update by done. rewrite E. cbn [fmap option_fmap option_map]. rewrite bool_decide_eq_true_2 by done. eexists. split; [done|]. split_and!.
  - unfold get_str, json_get. cbn. by rewrite assoc_get_put.
  - intros k Hk. cbn. rewrite assoc_get_put_ne by done. by destruct (cv_metadata c).
  - intros id' Hne. rewrite find_update by done. rewrite bool_decide_eq_false_2 by done. by destruct (find_conv id' db).
Qed.

(** ** Proofs: storing turns *)
Section Turns.
Context (day_text : Z -> string) (parse_rfc3339 parse_naive_frac parse_naive : string -> option DateTime).
Context (asc desc : list MessageRow -> list MessageRow) `{!Orders mr_created asc desc} (fk : bool).
Abbreviation store_turn := (persist_turn day_text fk).
Abbreviation read_all := (list_conversation_messages parse_rfc3339 parse_naive_frac parse_naive asc).
Abbreviation msg := (message_of parse_rfc3339 parse_naive_frac parse_naive).
Implicit Types db : ConvDb.
Definition turn_rows (st : TurnStamp) (id : Uuid) (input : string) (response : option string) : list MessageRow :=
  mkRow (ts_ids st).1 id "user" input (sql_now day_text (ts_user st).1)
  :: match response with Some r => [mkRow (ts_ids st).2 id "assistant" r (sql_now day_text (ts_assistant st).1)] | None => [] end.
Lemma ensure_found id now ch u t db : is_Some (find_conv id (ensure_conversation day_text id now ch u t db)).
Proof.
  unfold ensure_conversation. destruct (find_conv id db) as [c|] eqn:E.
  - rewrite find_update by done. rewrite E. by eexists.
  - unfold find_conv, insert_conv in *. cbn. rewrite find_app_one, E. cbn. rewrite bool_decide_eq_true_2 by done. by eexists.
Qed.
Lemma add_message_known mid now now2 id role content db : is_Some (find_conv id db) ->
  add_conversation_message day_text fk mid now now2 id role content db
  = (Ok mid, touch_conversation day_text id now2 (mkConvDb (convs db) (rows db ++ [mkRow mid id role content (sql_now day_text now)]))).
Proof. intros H. unfold add_conversation_message. rewrite bool_decide_eq_true_2 by done. by rewrite andb_false_r. Qed.
Lemma touch_found id id' now db : is_Some (find_conv id db) -> is_Some (find_conv id (touch_conversation day_text id' now db)).
Proof. intros [c H]. unfold touch_conversation. rewrite find_update by done. rewrite H. by eexists. Qed.
(** What a turn adds: its messages, to the conversation of the thread.  It
    creates the conversation when there is none, and asks nobody when there is
    one: the conversation may be another user's, who stays its owner. *)
Theorem persist_turn_spec (st : TurnStamp) (id : Uuid) (user input : string) (response : option string) db :
  let db' := store_turn st id user input response db in
  rows db' = rows db ++ turn_rows st id input response
  /\ (forall id', id' <> id -> find_conv id' db' = find_conv id' db)
  /\ exists c, find_conv id db' = Some c
       /\ (cv_user c, cv_channel c, cv_metadata c)
          = match find_conv id db with Some c0 => (cv_user c0, cv_channel c0, cv_metadata c0) | None => (user, "gateway"%string, EMPTY) end.
Proof.
  cbn zeta. unfold store_turn. set (db0 := ensure_conversation _ _ _ _ _ _ _). assert (H0 : is_Some (find_conv id db0)) by apply ensure_found.
  rewrite add_message_known by done. set (db1 := touch_conversation _ _ _ _). assert (H1 : is_Some (find_conv id db1)) by (apply touch_found; exact H0).
  assert (Hr0 : rows db0 = rows db) by (unfold db0, ensure_conversation; by destruct (find_conv id db)).
  assert (Ho0 : forall id', id' <> id -> find_conv id' db0 = find_conv id' db).
  { intros id' Hne. unfold db0, ensure_conversation. destruct (find_conv id db).
    - rewrite find_update by done. rewrite bool_decide_eq_false_2 by done. by destruct (find_conv id' db).
    - unfold find_conv, insert_conv. cbn. rewrite find_app_one. destruct (List.find _ _); [done|]. cbn. by rewrite bool_decide_eq_false_2. }
  assert (Hc0 : exists c, find_conv id db0 = Some c /\ (cv_user c, cv_channel c, cv_metadata c)
    = match find_conv id db with Some c0 => (cv_user c0, cv_channel c0, cv_metadata c0) | None => (user, "gateway"%string, EMPTY) end).
  { unfold db0, ensure_conversation. destruct (find_conv id db) as [c|] eqn:E.
    - rewrite find_update by done. rewrite E. cbn. rewrite bool_decide_eq_true_2 by done. by eexists.
    - unfold find_conv, insert_conv in *. cbn. rewrite find_app_one, E. cbn. rewrite bool_decide_eq_true_2 by done. by eexists. }
  assert (Ht : forall now (d : ConvDb), (forall id', id' <> id -> find_conv id' d = find_conv id' db)
    -> (forall id', id' <> id -> find_conv id' (touch_conversation day_text id now d) = find_conv id' db)).
  { intros now d Hd id' Hne. unfold touch_conversation. rewrite find_update by done. rewrite bool_decide_eq_false_2, Hd by done. by destruct (find_conv id' db). }
  set (own := match find_conv id db with Some _ => _ | None => _ end) in *.
  assert (Hk : forall now (d : ConvDb), (exists c, find_conv id d = Some c /\ (cv_user c, cv_channel c, cv_metadata c) = own)
    -> exists c, find_conv id (touch_conversation day_text id now d) = Some c /\ (cv_user c, cv_channel c, cv_metadata c) = own).
  { intros now d (c & Hc & Hcu). unfold touch_conversation. rewrite find_update by done. rewrite Hc. cbn. rewrite bool_decide_eq_true_2 by done. by eexists. }
  destruct response as [r|]; [rewrite add_message_known by done|]; cbn [snd]; (split; [cbn; rewrite Hr0; by rewrite <-?app_assoc|]); split.
  - apply Ht. exact (Ht _ (mkConvDb (convs db0) _) Ho0).
  - apply Hk. exact (Hk _ (mkConvDb (convs db0) _) Hc0).
  - exact (Ht _ (mkConvDb (convs db0) _) Ho0).
  - exact (Hk _ (mkConvDb (convs db0) _) Hc0).
Qed.
End Turns.

(** ** Proofs: the order of a conversation *)
Lemma ltb_leb a b : String.ltb a b = true -> String.leb a b = true.
Proof. unfold String.ltb, String.leb. by destruct (String.compare a b). Qed.
Lemma ltb_irrefl a : String.ltb a a = false.
Proof. unfold String.ltb. induction a as [|c a IH]; cbn; [done|]. unfold Ascii.compare. by rewrite N.compare_refl. Qed.
#[export] Instance leb_key_trans {A} (key : A -> string) : Transitive (fun a b => String.leb (key a) (key b) = true).
Proof.
  intros a b c H1 H2. apply Is_true_true. change (String.le (key a) (key c)). transitivity (key b); by apply Is_true_true.
Qed.
Section Order.
Context {A : Type} (key : A -> string) (asc desc : list A -> list A) `{!Orders key asc desc}.
Abbreviation earlier := (fun a b => String.ltb (key a) (key b) = true).
Lemma strict_key_inj l x y : StronglySorted earlier l -> x ∈ l -> y ∈ l -> key x = key y -> x = y.
Proof.
  intros Hs Hx Hy E. induction Hs as [|z l Hs IH Hz]; [by apply not_elem_of_nil in Hx|]. rewrite Forall_forall in Hz.
  apply elem_of_cons in Hx as [->|Hx]; apply elem_of_cons in Hy as [->|Hy]; [done|..|by apply IH].
  - apply Hz in Hy. cbn in Hy. by rewrite E, ltb_irrefl in Hy.
  - apply Hz in Hx. cbn in Hx. by rewrite <-E, ltb_irrefl in Hx.
Qed.
(** Rows with distinct keys have one order, ascending or descending. *)
Lemma asc_strict l : StronglySorted earlier l -> asc l = l.
Proof.
  intros Hs. apply (Sorted_unique_strong (fun a b => String.leb (key a) (key b) = true)).
  - intros x y Hx Hy H1 H2. rewrite asc_perm in Hx. eapply strict_key_inj; [done..|]. by apply String.leb_antisym.
  - apply asc_sorted.
  - apply StronglySorted_Sorted. eapply Sorted.StronglySorted_ind with (P := fun l => StronglySorted _ l); [constructor| |exact Hs].
    intros a l' _ IH Hf. constructor; [done|]. eapply Forall_impl; [exact Hf|]. intros b. apply ltb_leb.
  - apply asc_perm.
Qed.
End Order.
Section ReadBack.
Context (day_text : Z -> string) (parse_rfc3339 parse_naive_frac parse_naive : string -> option DateTime).
Context (asc desc : list MessageRow -> list MessageRow) `{!Orders mr_created asc desc} (fk : bool).
Abbreviation store_turn := (persist_turn day_text fk).
Abbreviation read_all := (list_conversation_messages parse_rfc3339 parse_naive_frac parse_naive asc).
Abbreviation msg := (message_of parse_rfc3339 parse_naive_frac parse_naive).
Abbreviation earlier := (fun a b : MessageRow => String.ltb (mr_created a) (mr_created b) = true).
Implicit Types db : ConvDb.
(** A stored turn is read back, after what was there, when each message was
    stored in a later second than the one before. *)
Theorem turn_reads_back (st : TurnStamp) (id : Uuid) (user input : string) (response : option string) db :
  StronglySorted earlier (of_conv id db ++ turn_rows day_text st id input response) ->
  read_all id (store_turn st id user input response db) = read_all id db ++ map msg (turn_rows day_text st id input response).
Proof.
  intros Hs. unfold list_conversation_messages. destruct (persist_turn_spec day_text fk st id user input response db) as [Hr _].
  assert (E : of_conv id (store_turn st id user input response db) = of_conv id db ++ turn_rows day_text st id input response).
  { unfold of_conv. rewrite Hr, List.filter_app. f_equal. unfold turn_rows. cbn. rewrite bool_decide_eq_true_2 by done. destruct response; cbn; [|done].
    by rewrite bool_decide_eq_true_2. }
  rewrite E, (asc_strict _ _ _ _ Hs), (asc_strict mr_created asc desc (of_conv id db)), map_app; [done|].
  revert Hs. generalize (turn_rows day_text st id input response). generalize (of_conv id db). clear. intros l l' H.
  induction l as [|x l IH]; [constructor|]. apply StronglySorted_inv in H as [H1 H2]. constructor; [by apply IH|]. by apply Forall_app in H2 as [? _].
Qed.
(** Which of the two messages of a turn comes first is open when both were
    stored in the same second: a sort may put the answer first. *)
Theorem same_second_unordered (st : TurnStamp) (id : Uuid) (input response : string) :
  sql_now day_text (ts_user st).1 = sql_now day_text (ts_assistant st).1 ->
  let l := turn_rows day_text st id input (Some response) in
  Sorted (fun a b => String.leb (mr_created b) (mr_created a) = true) l /\ Sorted (fun a b => String.leb (mr_created a) (mr_created b) = true) (rev l).
Proof.
  intros E. cbn zeta. unfold turn_rows. cbn [rev app]. assert (Hl : forall s, String.leb s s = true) by (intros s; destruct (String.leb_total s s); done).
  assert (Hs : forall (R : MessageRow -> MessageRow -> Prop) a b, R a b -> Sorted R [a; b]) by (intros R a b H; repeat constructor; exact H).
  split; apply Hs; cbn; rewrite ?E; apply Hl.
Qed.
(** A user deletes own conversations only; the messages go along when foreign
    keys are enforced and stay in the table otherwise. *)
Theorem delete_conversation_spec (id : Uuid) (user : string) db :
  let '(deleted, db') := delete_conversation_for_user fk id user db in
  deleted = conversation_belongs_to_user id user db
  /\ (forall c, c ∈ convs db' <-> c ∈ convs db /\ (cv_id c <> id \/ cv_user c <> user))
  /\ (deleted = false -> db' = db)
  /\ (forall id', id' <> id -> of_conv id' db' = of_conv id' db)
  /\ (deleted = true -> of_conv id db' = if fk then [] else of_conv id db).
Proof.
  unfold delete_conversation_for_user, conversation_belongs_to_user. cbv zeta. set (p := fun c => bool_decide (cv_id c = id) && String.eqb (cv_user c) user).
  assert (Hp : forall c, p c = true <-> cv_id c = id /\ cv_user c = user).
  { intros c. unfold p. rewrite andb_true_iff, bool_decide_eq_true. split; intros [? ?%String.eqb_eq]; done. }
  clearbody p. unfold delete_convs.
  assert (Hg : forall r : MessageRow, existsb (fun c => bool_decide (cv_id c = mr_conv r)) (List.filter p (convs db)) = bool_decide (mr_conv r = id) && existsb p (convs db)).
  { intros r. induction (convs db) as [|c l IH]; cbn; [by rewrite andb_false_r|]. destruct (p c) eqn:Ec; cbn; [|exact IH]. apply Hp in Ec as [Ei _]. rewrite Ei.
    rewrite IH. rewrite andb_true_r. case_bool_decide; case_bool_decide; try done; congruence. }
  cbn [convs rows]. split_and!.
  - done.
  - intros c. rewrite list_elem_of_In, filter_In, <-list_elem_of_In. split; intros [Hc Hn]; (split; [done|]).
    + destruct (decide (cv_id c = id)) as [e|]; [|by left]. right. intros Hu. by rewrite (proj2 (Hp c) (conj e Hu)) in Hn.
    + destruct (p c) eqn:Ec; [|done]. apply Hp in Ec as [? ?]. naive_solver.
  - intros Hd. assert (Hf : forall c, In c (convs db) -> p c = false).
    { intros c Hc. destruct (p c) eqn:Ec; [|done]. assert (existsb p (convs db) = true) by (apply existsb_exists; eauto). congruence. }
    destruct db as [cs rs]; cbn in *. f_equal.
    + clear -Hf. induction cs as [|c l IH]; cbn; [done|]. rewrite Hf by (by left). cbn. f_equal. apply IH. intros; apply Hf; by right.
    + destruct fk; [|done]. rewrite (filter_ext _ (fun _ => true)) by (intros r; by rewrite Hg, Hd, andb_false_r). clear. induction rs as [|r l IH]; cbn; [done|by rewrite IH].
  - intros id' Hne. destruct fk; [|done]. unfold of_conv. cbn [rows]. induction (rows db) as [|r l IH]; cbn; [done|]. rewrite Hg.
    destruct (decide (mr_conv r = id')) as [E|Hn'].
    + rewrite (bool_decide_eq_false_2 (mr_conv r = id)) by congruence. cbn. rewrite bool_decide_eq_true_2 by done. by rewrite IH.
    + rewrite (bool_decide_eq_false_2 (mr_conv r = id')) by done. destruct (negb _); cbn; [|exact IH]. rewrite bool_decide_eq_false_2 by done. exact IH.
  - intros Hd. destruct fk; [|done]. unfold of_conv. cbn [rows]. induction (rows db) as [|r l IH]; cbn; [done|]. rewrite Hg, Hd.
    destruct (decide (mr_conv r = id)) as [E|E].
    + rewrite bool_decide_eq_true_2 by done. exact IH.
    + rewrite bool_decide_eq_false_2 by done. cbn. by rewrite bool_decide_eq_false_2.
Qed.
End ReadBack.

(** The assistant conversation is found again once it exists. *)
Theorem assistant_conversation_found (day_text : Z -> string) (f1 f2 : Uuid) (t1 t2 : DateTime) (user channel : string) (db : ConvDb) :
  let '(id, db1) := get_or_create_assistant_conversation day_text f1 t1 user channel db in
  get_or_create_assistant_conversation day_text f2 t2 user channel db1 = (id, db1) /\ conversation_belongs_to_user id user db1 = true.
Proof.
  unfold get_or_create_assistant_conversation. set (p := fun c => _). destruct (List.find p (convs db)) as [c|] eqn:E.
  - rewrite E. split; [done|]. apply find_some in E as [Hc Hp]. unfold p, in_channel in Hp. rewrite !andb_true_iff in Hp. destruct Hp as [[Hu _] _].
    unfold conversation_belongs_to_user. apply existsb_exists. exists c. split; [done|]. by rewrite bool_decide_eq_true_2.
  - unfold create_conversation_with_metadata. cbn [convs insert_conv]. rewrite find_app_one, E.
    assert (Hp : p (mkConv f1 channel user None (sql_now day_text t1) (sql_now day_text t1) ASSISTANT_META) = true)
      by (unfold p, in_channel; cbn; by rewrite !String.eqb_refl).
    rewrite Hp. split; [done|]. unfold conversation_belongs_to_user. cbn. rewrite existsb_app. cbn. rewrite bool_decide_eq_true_2, String.eqb_refl by done. by rewrite orb_true_r.
Qed.

(** ** Witnesses *)
Definition key_le {A} (key : A -> string) (a b : A) : Prop := String.leb (key a) (key b) = true.
Definition key_ge {A} (key : A -> string) (a b : A) : Prop := String.leb (key b) (key a) = true.
#[local] Instance key_le_total {A} (key : A -> string) : Total (key_le key).
Proof. intros a b. destruct (String.leb_total (key a) (key b)); [by left|by right]. Qed.
#[local] Instance key_ge_total {A} (key : A -> string) : Total (key_ge key).
Proof. intros a b. destruct (String.leb_total (key a) (key b)); [by right|by left]. Qed.
#[local] Instance key_le_dec {A} (key : A -> string) : RelDecision (key_le key) := fun a b => decide (String.leb (key a) (key b) = true).
#[local] Instance key_ge_dec {A} (key : A -> string) : RelDecision (key_ge key) := fun a b => decide (String.leb (key b) (key a) = true).
Definition sort_asc {A} (key : A -> string) : list A -> list A := merge_sort (key_le key).
Definition sort_desc {A} (key : A -> string) : list A -> list A := merge_sort (key_ge key).
#[export] Instance sorts_order {A} (key : A -> string) : Orders key (sort_asc key) (sort_desc key).
Proof.
  split; intros l; [apply merge_sort_Permutation|apply Sorted_merge_sort; apply _|apply merge_sort_Permutation|apply Sorted_merge_sort; apply _].
Qed.
Definition demo_day (d : Z) : string := if d =? 0 then "1970-01-01" else "1970-01-02".
Definition no_parse (s : string) : option DateTime := None.
Definition SECOND : Z := 1000000000.
Definition stamp_at (t1 t2 : DateTime) (i : Uuid) : TurnStamp := mkTurnStamp (i, (i + 1)%N) t1 (t1, t1) (t2, t2).
Definition row_at (i : Uuid) (role content : string) (t : Z) : MessageRow := mkRow i 5%N role content (sql_now demo_day (t * SECOND)).
Definition two_turns : ConvDb :=
  mkConvDb [mkConv 5%N "gateway" "alice" None (sql_now demo_day SECOND) (fmt_ts demo_day (4 * SECOND)) EMPTY]
    [row_at 10 "user" "2+2?" 1; row_at 11 "assistant" "4" 2; row_at 12 "user" "and 2+3?" 3; row_at 13 "assistant" "5" 4].
(** Asking for what is before the oldest of the page shows the page again. *)
Lemma page_repeats_witness :
  list_conversation_messages_paginated demo_day no_parse no_parse no_parse (sort_desc mr_created) 5%N (Some (3 * SECOND)) 2 two_turns
  = list_conversation_messages_paginated demo_day no_parse no_parse no_parse (sort_desc mr_created) 5%N None 2 two_turns
  /\ map cm_content (list_conversation_messages_paginated demo_day no_parse no_parse no_parse (sort_desc mr_created) 5%N None 2 two_turns).1 = ["and 2+3?"; "5"]%string.
Proof.
  split; [|vm_compute; reflexivity]. apply (page_repeats demo_day no_parse no_parse no_parse (sort_desc mr_created)).
  intros r Hr _. cbn [rows two_turns] in Hr. assert (Ht : exists t, mr_created r = sql_now demo_day (t * SECOND) /\ (t * SECOND) / DAY = 3 * SECOND / DAY).
  { repeat (apply elem_of_cons in Hr as [->|Hr]; [eexists; split; [reflexivity|vm_compute; reflexivity]|]). by apply not_elem_of_nil in Hr. }
  destruct Ht as (t & H1 & H2). by exists (t * SECOND).
Defined.
Fixpoint sorted_rows (l : list MessageRow) : bool :=
  match l with [] => true | x :: l => forallb (fun y => String.ltb (mr_created x) (mr_created y)) l && sorted_rows l end.
Lemma sorted_decided l : sorted_rows l = true -> StronglySorted (fun a b => String.ltb (mr_created a) (mr_created b) = true) l.
Proof.
  induction l as [|x l IH]; [constructor|]. cbn. intros [H1 H2]%andb_true_iff. constructor; [by apply IH|]. rewrite Forall_forall. intros y Hy%list_elem_of_In. rewrite forallb_forall in H1. by apply H1.
Qed.
Lemma turn_reads_back_witness :
  map cm_content (list_conversation_messages no_parse no_parse no_parse (sort_asc mr_created) 5%N
    (persist_turn demo_day true (stamp_at (5 * SECOND) (6 * SECOND) 14) 5%N "alice" "bye" (Some "bye!"%string) two_turns)) = ["2+2?"; "4"; "and 2+3?"; "5"; "bye"; "bye!"]%string.
Proof.
  rewrite (turn_reads_back demo_day no_parse no_parse no_parse (sort_asc mr_created) (sort_desc mr_created) true); [vm_compute; reflexivity|].
  apply sorted_decided. vm_compute. reflexivity.
Defined.
Lemma metadata_field_roundtrip_witness :
  exists m', get_conversation_metadata 5%N (update_conversation_metadata_field 5%N "last_response_id" (JString "r1") two_turns) = Some m' /\ get_str "last_response_id" m' = Some "r1"%string.
Proof.
  destruct (metadata_field_roundtrip 5%N "last_response_id" "r1" two_turns EMPTY) as (m' & H1 & H2 & _); [vm_compute; reflexivity|]. exists m'. by split.
Defined.
Lemma same_second_unordered_witness :
  Sorted (fun a b => String.leb (mr_created b) (mr_created a) = true) (turn_rows demo_day (stamp_at SECOND (SECOND + 1) 10) 5%N "2+2?" (Some "4"%string)).
Proof. exact (proj1 (same_second_unordered demo_day (stamp_at SECOND (SECOND + 1) 10) 5%N "2+2?" "4" eq_refl)). Defined.
(** A turn of another user goes into the conversation it names. *)
Example foreign_turn_appended :
  let db := persist_turn demo_day true (stamp_at (5 * SECOND) (6 * SECOND) 14) 5%N "mallory" "note to alice" None two_turns in
  conversation_belongs_to_user 5%N "mallory" db = false
  /\ last (map cm_content (list_conversation_messages no_parse no_parse no_parse (sort_asc mr_created) 5%N db)) = Some "note to alice"%string.
Proof. vm_compute. done. Qed.
