(* ===== verification/Gateway.v ===== *)
(** The web gateway: [src/channels/web/auth.rs], [sse.rs], [ws.rs], [mod.rs],
    [types.rs] and, of [server.rs], the routes, the rate limiter, the messages
    to the agent, the approvals, the tokens of extensions and the events.

    The handlers of threads, jobs and files are in [GatewayChat] and
    [GatewayJobs].  A handler answers a value or a status
    code with a text; what axum does with requests is modelled up to the choice
    of the handler. *)

From Stdlib Require Import Ascii.
From S2P Require Import Prelude Strs Json Session Submission Channels.
#[local] Open Scope claw_scope.

Definition Answer (A : Type) : Type := Result A (Z * string).

(** ** The token *)
Definition AMP : ascii := "&"%char.
Definition auth_middleware (token : string) (authorization query : option string) : bool :=
  match authorization ≫= (fun v => strip_prefix v "Bearer ") with Some t => String.eqb t token | None => false end
  || match query with
     | Some q => existsb (fun pair => match strip_prefix pair "token=" with Some t => String.eqb t token | None => false end) (split_on AMP q)
     | None => false
     end.

(** ** Routes *)
Inductive Method := GET | POST | PUT | DELETE.
#[export] Instance Method_eq_dec : EqDecision Method.
Proof. solve_decision. Defined.
(** A path is a list of segments: fixed, one captured, or the captured rest. *)
Inductive Seg := Fixed (s : string) | Capture | Rest.
Fixpoint path_matches (pat : list Seg) (path : list string) : bool :=
  match pat, path with
  | [], [] => true
  | [Rest], _ :: _ => true
  | Fixed a :: pat, b :: path => String.eqb a b && path_matches pat path
  | Capture :: pat, b :: path => negb (is_empty b) && path_matches pat path
  | _, _ => false
  end.
Record Route := mkRoute { r_protected : bool; r_path : list Seg; r_methods : list (Method * string) }.
Definition api (l : list string) : list Seg := Fixed "api" :: map Fixed l.
Definition public_routes : list Route := [
  mkRoute false (api ["health"]) [(GET, "health")];
  mkRoute false (api ["setup"; "status"]) [(GET, "setup_status")];
  mkRoute false (api ["setup"; "models"]) [(GET, "setup_models")];
  mkRoute false (api ["setup"; "validate"]) [(POST, "setup_validate")];
  mkRoute false (api ["setup"; "save"]) [(POST, "setup_save")]]%string.
Definition static_routes : list Route := [
  mkRoute false [Fixed ""] [(GET, "index")]; mkRoute false [Fixed "setup"] [(GET, "setup_page")]; mkRoute false [Fixed "setup.js"] [(GET, "setup_js")];
  mkRoute false [Fixed "style.css"] [(GET, "css")]; mkRoute false [Fixed "app.js"] [(GET, "js")]]%string.
Definition project_routes : list Route := [
  mkRoute true [Fixed "projects"; Capture] [(GET, "project_redirect")];
  mkRoute true [Fixed "projects"; Capture; Fixed ""] [(GET, "project_index")];
  mkRoute true [Fixed "projects"; Capture; Rest] [(GET, "project_file")]]%string.
Definition protected_routes : list Route := [
  mkRoute true (api ["chat"; "send"]) [(POST, "chat_send")]; mkRoute true (api ["chat"; "approval"]) [(POST, "chat_approval")];
  mkRoute true (api ["chat"; "auth-token"]) [(POST, "chat_auth_token")]; mkRoute true (api ["chat"; "auth-cancel"]) [(POST, "chat_auth_cancel")];
  mkRoute true (api ["chat"; "events"]) [(GET, "chat_events")]; mkRoute true (api ["chat"; "ws"]) [(GET, "chat_ws")];
  mkRoute true (api ["chat"; "history"]) [(GET, "chat_history")];
  mkRoute true (api ["chat"; "threads"]) [(GET, "chat_threads"); (DELETE, "chat_clear_threads")];
  mkRoute true (api ["chat"; "thread"; "new"]) [(POST, "chat_new_thread")];
  mkRoute true (api ["chat"; "thread"] ++ [Capture]) [(DELETE, "chat_delete_thread")];
  mkRoute true (api ["memory"; "tree"]) [(GET, "memory_tree")]; mkRoute true (api ["memory"; "list"]) [(GET, "memory_list")];
  mkRoute true (api ["memory"; "read"]) [(GET, "memory_read")]; mkRoute true (api ["memory"; "write"]) [(POST, "memory_write")];
  mkRoute true (api ["memory"; "search"]) [(POST, "memory_search")];
  mkRoute true (api ["jobs"]) [(GET, "jobs_list"); (POST, "jobs_create")]; mkRoute true (api ["jobs"; "summary"]) [(GET, "jobs_summary")];
  mkRoute true (api ["jobs"] ++ [Capture]) [(GET, "jobs_detail")]; mkRoute true (api ["jobs"] ++ [Capture; Fixed "cancel"]) [(POST, "jobs_cancel")];
  mkRoute true (api ["jobs"] ++ [Capture; Fixed "restart"]) [(POST, "jobs_restart")];
  mkRoute true (api ["jobs"] ++ [Capture; Fixed "prompt"]) [(POST, "jobs_prompt")];
  mkRoute true (api ["jobs"] ++ [Capture; Fixed "events"]) [(GET, "jobs_events")];
  mkRoute true (api ["jobs"] ++ [Capture; Fixed "files"; Fixed "list"]) [(GET, "job_files_list")];
  mkRoute true (api ["jobs"] ++ [Capture; Fixed "files"; Fixed "read"]) [(GET, "job_files_read")];
  mkRoute true (api ["jobs"] ++ [Capture; Fixed "files"; Fixed "download"]) [(GET, "job_files_download")];
  mkRoute true (api ["logs"; "events"]) [(GET, "logs_events")];
  mkRoute true (api ["extensions"]) [(GET, "extensions_list")]; mkRoute true (api ["extensions"; "tools"]) [(GET, "extensions_tools")];
  mkRoute true (api ["extensions"; "install"]) [(POST, "extensions_install")];
  mkRoute true (api ["extensions"] ++ [Capture; Fixed "activate"]) [(POST, "extensions_activate")];
  mkRoute true (api ["extensions"] ++ [Capture; Fixed "remove"]) [(POST, "extensions_remove")];
  mkRoute true (api ["routines"]) [(GET, "routines_list")]; mkRoute true (api ["routines"; "summary"]) [(GET, "routines_summary")];
  mkRoute true (api ["routines"] ++ [Capture]) [(GET, "routines_detail"); (DELETE, "routines_delete")];
  mkRoute true (api ["routines"] ++ [Capture; Fixed "trigger"]) [(POST, "routines_trigger")];
  mkRoute true (api ["routines"] ++ [Capture; Fixed "toggle"]) [(POST, "routines_toggle")];
  mkRoute true (api ["routines"] ++ [Capture; Fixed "runs"]) [(GET, "routines_runs")];
  mkRoute true (api ["skills"]) [(GET, "skills_list")]; mkRoute true (api ["skills"; "search"]) [(POST, "skills_search")];
  mkRoute true (api ["skills"; "install"]) [(POST, "skills_install")]; mkRoute true (api ["skills"] ++ [Capture]) [(DELETE, "skills_remove")];
  mkRoute true (api ["settings"]) [(GET, "settings_list")]; mkRoute true (api ["settings"; "export"]) [(GET, "settings_export")];
  mkRoute true (api ["settings"; "import"]) [(POST, "settings_import")];
  mkRoute true (api ["settings"] ++ [Capture]) [(GET, "settings_get"); (PUT, "settings_set"); (DELETE, "settings_delete")];
  mkRoute true (api ["kernel"; "patches"]) [(GET, "kernel_patches")];
  mkRoute true (api ["kernel"; "patches"] ++ [Capture; Fixed "approve"]) [(POST, "kernel_patch_approve")];
  mkRoute true (api ["kernel"; "patches"] ++ [Capture; Fixed "reject"]) [(POST, "kernel_patch_reject")];
  mkRoute true (api ["kernel"; "patches"] ++ [Capture; Fixed "deploy"]) [(POST, "kernel_patch_deploy")];
  mkRoute true (api ["gateway"; "status"]) [(GET, "gateway_status")];
  mkRoute true (map Fixed ["v1"; "chat"; "completions"]) [(POST, "chat_completions")]; mkRoute true (map Fixed ["v1"; "models"]) [(GET, "models")]]%string.
Definition routes : list Route := public_routes ++ static_routes ++ project_routes ++ protected_routes.
(** How specific a pattern is: axum takes fixed segments before captures and
    captures before the rest, segment by segment. *)
Fixpoint more_specific (a b : list Seg) : bool :=
  match a, b with
  | Fixed _ :: a, Fixed _ :: b => more_specific a b
  | Fixed _ :: _, _ => true
  | Capture :: a, Capture :: b => more_specific a b
  | Capture :: _, Rest :: _ => true
  | _, _ => false
  end.
Fixpoint best (path : list string) (rs : list Route) : option Route :=
  match rs with
  | [] => None
  | r :: rs => match best path rs with
               | Some b => Some (if path_matches (r_path r) path && more_specific (r_path r) (r_path b) then r else b)
               | None => if path_matches (r_path r) path then Some r else None
               end
  end.
Inductive Decision := NotFound | MethodNotAllowed | Unauthorized | Handle (handler : string).
(** The middleware is a layer of the protected routes. *)
Definition dispatch (token : string) (authorization query : option string) (m : Method) (path : list string) : Decision :=
  match best path routes with
  | None => NotFound
  | Some r =>
      if r_protected r && negb (auth_middleware token authorization query) then Unauthorized
      else match List.find (fun mh => bool_decide (mh.1 = m)) (r_methods r) with Some (_, h) => Handle h | None => MethodNotAllowed end
  end.
Definition PUBLIC : list string :=
  ["health"; "setup_status"; "setup_models"; "setup_validate"; "setup_save"; "index"; "setup_page"; "setup_js"; "css"; "js"]%string.

(** ** The rate limiter of the chat *)
Record Limiter := mkLimiter { remaining : Z; l_window_start : Z; l_max : Z; l_window_secs : Z }.
Definition new_limiter (max window now : Z) : Limiter := mkLimiter max now max window.
Definition expired (l : Limiter) (window now : Z) : bool := l_window_secs l <=? saturating_sub now window.
(** [check] when no other call comes between; [now] is in seconds. *)
Definition check (now : Z) (l : Limiter) : bool * Limiter :=
  if expired l (l_window_start l) now then (true, mkLimiter (l_max l - 1) now (l_max l) (l_window_secs l))
  else if remaining l =? 0 then (false, l)
  else (true, mkLimiter (remaining l - 1) (l_window_start l) (l_max l) (l_window_secs l)).
(** Its atomic steps.  A call has read the clock, then the window. *)
Inductive Pc := Start | HaveWindow (now window : Z) | StoredStart | Loading | Done (granted : bool).
Inductive check_step : Pc * Limiter -> Pc * Limiter -> Prop :=
| cs_window now l : check_step (Start, l) (HaveWindow now (l_window_start l), l)
| cs_expired now w l : expired l w now = true -> check_step (HaveWindow now w, l) (StoredStart, mkLimiter (remaining l) now (l_max l) (l_window_secs l))
| cs_reset l : check_step (StoredStart, l) (Done true, mkLimiter (l_max l - 1) (l_window_start l) (l_max l) (l_window_secs l))
| cs_in_window now w l : expired l w now = false -> check_step (HaveWindow now w, l) (Loading, l)
| cs_none l : remaining l = 0 -> check_step (Loading, l) (Done false, l)
| cs_take l : remaining l <> 0 -> check_step (Loading, l) (Done true, mkLimiter (remaining l - 1) (l_window_start l) (l_max l) (l_window_secs l)).
(** Calls side by side: one of them takes a step. *)
Inductive checks_step : list Pc * Limiter -> list Pc * Limiter -> Prop :=
| cs_one l1 p l2 s p' s' : check_step (p, s) (p', s') -> checks_step (l1 ++ p :: l2, s) (l1 ++ p' :: l2, s').

(** ** Connections *)
Definition MAX_CONNECTIONS : Z := 100.
Record Connections := mkConns { connection_count : Z; ws_connection_count : Z }.
Definition no_connections : Connections := mkConns 0 0.
Definition subscribe (c : Connections) : option Connections :=
  if connection_count c <? MAX_CONNECTIONS then Some (mkConns (connection_count c + 1) (ws_connection_count c)) else None.
Definition drop_stream (c : Connections) : Connections := mkConns (connection_count c - 1) (ws_connection_count c).
Definition increment (c : Connections) : Connections := mkConns (connection_count c) (ws_connection_count c + 1).
Definition decrement (c : Connections) : Connections := mkConns (connection_count c) (ws_connection_count c - 1).
(** The life of a connection: an event stream, or a WebSocket that counts
    itself before it subscribes. *)
Inductive Conn := SseOpen | WsCounted | WsOpen | WsStreamGone.
Inductive conn_step : list Conn * Connections -> list Conn * Connections -> Prop :=
| cn_sse l c c' : subscribe c = Some c' -> conn_step (l, c) (SseOpen :: l, c')
| cn_sse_close l1 l2 c : conn_step (l1 ++ SseOpen :: l2, c) (l1 ++ l2, drop_stream c)
| cn_ws l c : conn_step (l, c) (WsCounted :: l, increment c)
| cn_ws_open l1 l2 c c' : subscribe c = Some c' -> conn_step (l1 ++ WsCounted :: l2, c) (l1 ++ WsOpen :: l2, c')
| cn_ws_full l1 l2 c : subscribe c = None -> conn_step (l1 ++ WsCounted :: l2, c) (l1 ++ l2, decrement c)
| cn_ws_drop l1 l2 c : conn_step (l1 ++ WsOpen :: l2, c) (l1 ++ WsStreamGone :: l2, drop_stream c)
| cn_ws_close l1 l2 c : conn_step (l1 ++ WsStreamGone :: l2, c) (l1 ++ l2, decrement c).
Record GatewayStatusResponse := mkStatus { sse_connections : Z; ws_connections : Z; total_connections : Z }.
Definition gateway_status_handler (c : Connections) : GatewayStatusResponse :=
  mkStatus (connection_count c) (ws_connection_count c) (connection_count c + ws_connection_count c).
(** The origin of a WebSocket. *)
Definition first_part (c : ascii) (s : string) : string := default EmptyString (head (split_on c s)).
Definition origin_host (origin : string) : string :=
  match (match strip_prefix origin "http://" with Some r => Some r | None => strip_prefix origin "https://" end) with
  | Some rest => first_part "/"%char (first_part ":"%char rest)
  | None => EmptyString
  end.
Definition LOCAL_HOSTS : list string := ["localhost"; "127.0.0.1"; "[::1]"]%string.
Definition chat_ws_handler (origin : option string) : Answer unit :=
  match origin with
  | None => Err (403, "WebSocket Origin header required"%string)
  | Some o => if existsb (String.eqb (origin_host o)) LOCAL_HOSTS then Ok tt else Err (403, "WebSocket origin not allowed"%string)
  end.

(** ** Proofs: who gets in *)
Theorem auth_middleware_spec (token : string) (authorization query : option string) :
  auth_middleware token authorization query = true <->
  authorization = Some ("Bearer " ++s token)%string
  \/ exists q pair, query = Some q /\ pair ∈ split_on AMP q /\ pair = ("token=" ++s token)%string.
Proof.
  unfold auth_middleware. rewrite orb_true_iff.
  assert (H : forall s pre : string, match strip_prefix s pre with Some t => String.eqb t token | None => false end = true <-> s = pre ++s token).
  { intros s pre. destruct (strip_prefix s pre) as [t|] eqn:E.
    - apply strip_prefix_spec in E as ->. rewrite String.eqb_eq. split; [by intros ->|]. intros E. by apply (inj (String.append pre)) in E.
    - split; [done|]. intros ->. assert (E' : strip_prefix (pre ++s token) pre = Some token) by (by apply strip_prefix_spec). congruence. }
  f_equiv; [|].
  - destruct authorization as [v|]; cbn [mbind option_bind]; [|done]. rewrite H. split; [by intros ->|by intros [= ->]].
  - destruct query as [q|]; [|split; [done|by intros (? & ? & ? & _)]]. rewrite existsb_exists. split.
    + intros (p & Hp & Hm). exists q, p. rewrite list_elem_of_In. split; [done|]. split; [done|]. by apply H.
    + intros (q' & p & [= <-] & Hp & Hm). exists p. rewrite <-list_elem_of_In. split; [done|]. by apply H.
Qed.
Lemma best_in path rs r : best path rs = Some r -> r ∈ rs.
Proof.
  revert r. induction rs as [|x rs IH]; intros r; cbn; [done|]. destruct (best path rs) as [b|].
  - intros [= <-]. destruct (_ && _); [by left|right; by apply IH].
  - destruct (path_matches _ _); [|done]. intros [= <-]. by left.
Qed.
(** C13. Without the token a request reaches only the health check, the pages and
    the set-up; every other handler runs behind the token. *)
Theorem unauthenticated_reach (token : string) (authorization query : option string) (m : Method) (path : list string) (h : string) :
  dispatch token authorization query m path = Handle h -> auth_middleware token authorization query = true \/ h ∈ PUBLIC.
Proof.
  unfold dispatch. destruct (best path routes) as [r|] eqn:E; [|done]. apply best_in in E. destruct (auth_middleware _ _ _); [by left|]. rewrite andb_true_r.
  destruct (r_protected r) eqn:Ep; [done|]. destruct (List.find _ _) as [[m' h']|] eqn:Ef; [|done]. intros [= ->]. right.
  apply find_some in Ef as [Hf _]. assert (Hc : forallb (fun r => r_protected r || forallb (fun mh => bool_decide (mh.2 ∈ PUBLIC)) (r_methods r)) routes = true) by (vm_compute; reflexivity).
  rewrite forallb_forall in Hc. apply list_elem_of_In in E. specialize (Hc r E). rewrite Ep in Hc. cbn in Hc. rewrite forallb_forall in Hc. specialize (Hc _ Hf).
  by apply bool_decide_eq_true in Hc.
Qed.
(** The origin check lets the two names of the machine through and nothing
    else; the third name of its list, the IPv6 address, never matches. *)
Lemma first_part_free c s : contains_char (first_part c s) c = false.
Proof.
  unfold first_part. pose proof (split_on_elems c s) as H. pose proof (split_on_not_nil c s) as Hn. destruct (split_on c s) as [|x l]; [done|]. cbn. by inversion H.
Qed.
Theorem origin_check_spec (o : string) :
  chat_ws_handler (Some o) = Ok tt <-> origin_host o = "localhost"%string \/ origin_host o = "127.0.0.1"%string.
Proof.
  unfold chat_ws_handler. destruct (existsb _ _) eqn:E.
  - split; [intros _|done]. cbn in E. rewrite !orb_true_iff in E. destruct E as [E|[E|[E|?]]]; [left|right| |done]; try by apply String.eqb_eq.
    exfalso. apply String.eqb_eq in E. unfold origin_host in E. destruct (match strip_prefix o "http://" with Some r => Some r | None => strip_prefix o "https://" end) as [rest|]; [|done].
    assert (H : contains_char (first_part "/" (first_part ":" rest)) ":" = false); [|by rewrite E in H].
    pose proof (first_part_free ":" rest) as H. revert H. generalize (first_part ":" rest). clear. intros s H. unfold first_part.
    induction s as [|c s IH]; [done|]. cbn in H. apply orb_false_iff in H as [H1 H2]. specialize (IH H2). cbn [split_on].
    destruct (Ascii.eqb "/" c); [done|]. pose proof (split_on_not_nil "/" s). destruct (split_on "/" s) as [|x l]; [done|]. cbn in *. by rewrite H1.
  - split; [done|]. intros [H|H]; rewrite H in E; done.
Qed.

(** ** Proofs: the limiter *)
Fixpoint granted (ts : list Z) (l : Limiter) : nat * Limiter :=
  match ts with [] => (0%nat, l) | t :: ts => let '(b, l) := check t l in let '(n, l) := granted ts l in ((if b then 1 else 0) + n, l)%nat end.
Definition limiter_ok (l : Limiter) : Prop := 0 <= remaining l <= l_max l /\ 0 < l_max l.
Lemma check_ok t l : limiter_ok l -> limiter_ok (check t l).2.
Proof. unfold limiter_ok, check. intros [H H0]. destruct (expired _ _ _); cbn; [lia|]. destruct (Z.eqb_spec (remaining l) 0); cbn; lia. Qed.
Lemma granted_in_window ts l : limiter_ok l -> Forall (fun t => expired l (l_window_start l) t = false) ts -> Z.of_nat (granted ts l).1 <= remaining l.
Proof.
  revert l. induction ts as [|t ts IH]; intros l Hok Hf; cbn; [destruct Hok; lia|]. inversion Hf as [|? ? Ht Hts]; subst. unfold check. rewrite Ht.
  destruct (Z.eqb_spec (remaining l) 0) as [E|E].
  - specialize (IH l Hok Hts). destruct (granted ts l) as [n l']. cbn in *. lia.
  - set (l1 := mkLimiter _ _ _ _). assert (H1 : limiter_ok l1) by (destruct Hok; unfold limiter_ok; cbn; lia). specialize (IH l1 H1 Hts).
    destruct (granted ts l1) as [n l']. cbn in *. lia.
Qed.
(** One call at a time: in the window that a call opens at most [l_max] calls
    are let through, that call included. *)
Theorem chat_limit_holds (t : Z) (ts : list Z) (l : Limiter) :
  limiter_ok l -> expired l (l_window_start l) t = true -> Forall (fun u => saturating_sub u t < l_window_secs l) ts ->
  Z.of_nat (granted (t :: ts) l).1 <= l_max l.
Proof.
  intros Hok Ht Hts. cbn. unfold check. rewrite Ht. set (l1 := mkLimiter _ _ _ _).
  assert (H1 : limiter_ok l1) by (destruct Hok; unfold limiter_ok; cbn; lia).
  pose proof (granted_in_window ts l1 H1) as H. destruct (granted ts l1) as [n l']. cbn in *. cut (Z.of_nat n <= l_max l - 1); [lia|]. apply H.
  eapply Forall_impl; [exact Hts|]. intros u Hu. unfold expired. cbn. by apply Z.leb_gt.
Qed.
(** Calls side by side get more: two that both see the old window both refill
    it, so that four calls pass in a window of two. *)
Example racing_refills :
  let old := mkLimiter 0 0 2 60 in
  exists l, rtc checks_step ([Start; Start; Start; Start], old) ([Done true; Done true; Done true; Done true], l) /\ l_window_start l = 100.
Proof.
  cbn zeta. eexists. split.
  - eapply rtc_l; [apply (cs_one [] _ [Start; Start; Start]), (cs_window 100)|].
    eapply rtc_l; [apply (cs_one [_] _ [Start; Start]), (cs_window 100)|].
    eapply rtc_l; [apply (cs_one [] _ [_; Start; Start]), cs_expired; reflexivity|].
    eapply rtc_l; [apply (cs_one [] _ [_; Start; Start]), cs_reset|].
    eapply rtc_l; [apply (cs_one [_; _] _ [Start]), (cs_window 100)|].
    eapply rtc_l; [apply (cs_one [_; _] _ [Start]), cs_in_window; reflexivity|].
    eapply rtc_l; [apply (cs_one [_; _] _ [Start]), cs_take; done|].
    eapply rtc_l; [apply (cs_one [_] _ [_; Start]), cs_expired; reflexivity|].
    eapply rtc_l; [apply (cs_one [_] _ [_; Start]), cs_reset|].
    eapply rtc_l; [apply (cs_one [_; _; _] _ []), (cs_window 100)|].
    eapply rtc_l; [apply (cs_one [_; _; _] _ []), cs_in_window; reflexivity|].
    eapply rtc_l; [apply (cs_one [_; _; _] _ []), cs_take; done|]. apply rtc_refl.
  - reflexivity.
Qed.

(** ** Proofs: connections *)
Definition counted_stream (x : Conn) : Z := match x with SseOpen | WsOpen => 1 | _ => 0 end.
Definition counted_ws (x : Conn) : Z := match x with SseOpen => 0 | _ => 1 end.
Definition total (f : Conn -> Z) (l : list Conn) : Z := foldr (fun x n => f x + n) 0 l.
Lemma total_cons f x l : total f (x :: l) = f x + total f l.
Proof. done. Qed.
Lemma total_app f l1 l2 : total f (l1 ++ l2) = total f l1 + total f l2.
Proof. induction l1 as [|x l IH]; cbn; [done|]. unfold total in *. rewrite IH. lia. Qed.
Definition conns_ok (lc : list Conn * Connections) : Prop :=
  connection_count lc.2 = total counted_stream lc.1 /\ ws_connection_count lc.2 = total counted_ws lc.1 /\ connection_count lc.2 <= MAX_CONNECTIONS.
Lemma conn_step_ok s s' : conn_step s s' -> conns_ok s -> conns_ok s'.
Proof.
  assert (Hsub : forall c c', subscribe c = Some c' -> connection_count c < MAX_CONNECTIONS /\ c' = mkConns (connection_count c + 1) (ws_connection_count c)).
  { intros c c'. unfold subscribe. destruct (Z.ltb_spec (connection_count c) MAX_CONNECTIONS); [|done]. by intros [= <-]. }
  unfold conns_ok. intros Hs (H1 & H2 & H3). destruct Hs as [? ? ? [? ->]%Hsub|?|?|? ? ? ? [? ->]%Hsub|?|?|?];
    cbn [fst snd connection_count ws_connection_count increment decrement drop_stream] in *;
    rewrite ?total_app, ?total_cons in *; cbn [counted_stream counted_ws] in *; lia.
Qed.
(** The two counters tell how many streams and how many WebSockets there are,
    and the streams are at most a hundred.  The total of the status counts an
    open WebSocket twice, as a stream and as a WebSocket. *)
Theorem connections_bounded (l : list Conn) (c : Connections) :
  rtc conn_step ([], no_connections) (l, c) ->
  total counted_stream l <= MAX_CONNECTIONS
  /\ gateway_status_handler c = mkStatus (total counted_stream l) (total counted_ws l) (total counted_stream l + total counted_ws l).
Proof.
  intros H. assert (Hok : conns_ok (l, c)).
  { remember ([], no_connections) as s0 eqn:E0. assert (H0 : conns_ok s0) by (subst; unfold conns_ok; cbn; unfold MAX_CONNECTIONS; lia). clear E0.
    remember (l, c) as s1 eqn:E1. clear E1. induction H as [s|s1 s2 s3 Hs _ IH]; [done|]. apply IH. by eapply conn_step_ok. }
  destruct Hok as (H1 & H2 & H3). cbn [fst snd] in *. unfold gateway_status_handler. rewrite <-H1, <-H2. split; [lia|done].
Qed.

(** ** Events *)
Inductive SseEvent :=
| EvResponse (content thread_id : string) | EvThinking (m : string) (thread : option string) | EvToolStarted (name : string) (thread : option string)
| EvToolCompleted (name : string) (success : bool) (thread : option string) | EvToolResult (name preview : string) (thread : option string)
| EvStreamChunk (content : string) (thread : option string) | EvStatus (m : string) (thread : option string)
| EvJobStarted (job_id title browse_url : string) | EvApprovalNeeded (request_id tool_name description parameters : string)
| EvAuthRequired (extension_name : string) (instructions auth_url setup_url : option string) | EvAuthCompleted (extension_name : string) (success : bool) (m : string)
| EvError (m : string) (thread : option string) | EvHeartbeat
| EvJobMessage (job_id role content : string) | EvJobToolUse (job_id tool_name : string) (input : Json) | EvJobToolResult (job_id tool_name output : string)
| EvJobStatus (job_id m : string) | EvJobResult (job_id status : string) (session_id : option string).
Definition event_type (e : SseEvent) : string :=
  match e with
  | EvResponse _ _ => "response" | EvThinking _ _ => "thinking" | EvToolStarted _ _ => "tool_started" | EvToolCompleted _ _ _ => "tool_completed"
  | EvToolResult _ _ _ => "tool_result" | EvStreamChunk _ _ => "stream_chunk" | EvStatus _ _ => "status" | EvJobStarted _ _ _ => "job_started"
  | EvApprovalNeeded _ _ _ _ => "approval_needed" | EvAuthRequired _ _ _ _ => "auth_required" | EvAuthCompleted _ _ _ => "auth_completed"
  | EvError _ _ => "error" | EvHeartbeat => "heartbeat" | EvJobMessage _ _ _ => "job_message" | EvJobToolUse _ _ _ => "job_tool_use"
  | EvJobToolResult _ _ _ => "job_tool_result" | EvJobStatus _ _ => "job_status" | EvJobResult _ _ _ => "job_result"
  end.
(** [serde] with the tag [type]; absent options are left out. *)
Definition opt_field (k : string) (v : option string) : list (string * Json) := match v with Some s => [(k, JString s)] | None => [] end.
Definition fields (e : SseEvent) : list (string * Json) :=
  match e with
  | EvResponse c t => [("content", JString c); ("thread_id", JString t)]
  | EvThinking m t => ("message", JString m) :: opt_field "thread_id" t
  | EvToolStarted n t => ("name", JString n) :: opt_field "thread_id" t
  | EvToolCompleted n s t => ("name", JString n) :: ("success", JBool s) :: opt_field "thread_id" t
  | EvToolResult n p t => ("name", JString n) :: ("preview", JString p) :: opt_field "thread_id" t
  | EvStreamChunk c t => ("content", JString c) :: opt_field "thread_id" t
  | EvStatus m t => ("message", JString m) :: opt_field "thread_id" t
  | EvJobStarted j t b => [("job_id", JString j); ("title", JString t); ("browse_url", JString b)]
  | EvApprovalNeeded r t d p => [("request_id", JString r); ("tool_name", JString t); ("description", JString d); ("parameters", JString p)]
  | EvAuthRequired n i a s => ("extension_name", JString n) :: opt_field "instructions" i ++ opt_field "auth_url" a ++ opt_field "setup_url" s
  | EvAuthCompleted n s m => [("extension_name", JString n); ("success", JBool s); ("message", JString m)]
  | EvError m t => ("message", JString m) :: opt_field "thread_id" t
  | EvHeartbeat => []
  | EvJobMessage j r c => [("job_id", JString j); ("role", JString r); ("content", JString c)]
  | EvJobToolUse j t i => [("job_id", JString j); ("tool_name", JString t); ("input", i)]
  | EvJobToolResult j t o => [("job_id", JString j); ("tool_name", JString t); ("output", JString o)]
  | EvJobStatus j m => [("job_id", JString j); ("message", JString m)]
  | EvJobResult j s i => ("job_id", JString j) :: ("status", JString s) :: opt_field "session_id" i
  end%string.
Definition event_json (e : SseEvent) : Json := JObject (("type"%string, JString (event_type e)) :: fields e).
Inductive WsServerMessage := WsEvent (kind : string) (data : Json) | WsPong | WsError (m : string).
Definition from_sse_event (e : SseEvent) : WsServerMessage := WsEvent (event_type e) (event_json e).
Inductive WsClientMessage :=
| WsMessage (content : string) (thread_id : option string) | WsApproval (request_id action : string) (thread_id : option string)
| WsAuthToken (extension_name token : string) | WsAuthCancel (extension_name : string) | WsPing.

(** ** The state of the gateway, as far as these handlers use it *)
Record AuthOut := mkAuthOut { ao_status : string; ao_instructions : option string; ao_auth_url : option string; ao_setup_url : option string; ao_awaiting_token : bool }.
Record ActionResponse := mkAction { ar_success : bool; ar_message : string; ar_auth_url : option string; ar_awaiting_token : option bool; ar_instructions : option string }.
Definition action_ok (m : string) : ActionResponse := mkAction true m None None None.
Definition action_fail (m : string) : ActionResponse := mkAction false m None None None.
(** [g_inbox]: what was sent to the agent and whether it still takes messages;
    [None] before [start].  [g_session]: the user's session, when there is a
    session manager.  [g_ext]: the extension manager. *)
Record GState {W : Type} := mkG {
  g_inbox : option (list IncomingMessage * bool); g_limiter : Limiter; g_events : list SseEvent; g_session : option (Session Json); g_ext : option W }.
Arguments GState : clear implicits.
Section Handlers.
Context {W : Type} (auth : string -> option string -> W -> Result AuthOut string * W) (activate : string -> W -> Result (list string) string * W).
Context (uuid_parse : string -> option Uuid) (submission_json : Submission -> Result string string) (json_pretty : Json -> string).
Context (user : string).
Implicit Types g : GState W.
Definition set_inbox q g : GState W := mkG _ q (g_limiter g) (g_events g) (g_session g) (g_ext g).
Definition set_limiter l g : GState W := mkG _ (g_inbox g) l (g_events g) (g_session g) (g_ext g).
Definition broadcast_event (e : SseEvent) g : GState W := mkG _ (g_inbox g) (g_limiter g) (g_events g ++ [e]) (g_session g) (g_ext g).
Definition set_session s g : GState W := mkG _ (g_inbox g) (g_limiter g) (g_events g) s (g_ext g).
Definition set_ext w g : GState W := mkG _ (g_inbox g) (g_limiter g) (g_events g) (g_session g) (Some w).
Definition send (m : IncomingMessage) g : Answer unit * GState W :=
  match g_inbox g with
  | Some (q, true) => (Ok tt, set_inbox (Some (q ++ [m], true)) g)
  | Some (_, false) => (Err (500, "Channel closed"%string), g)
  | None => (Err (503, "Channel not started"%string), g)
  end.
Definition accepted (m : IncomingMessage) (r : Answer unit * GState W) : Answer Uuid * GState W :=
  (match r.1 with Ok _ => Ok (im_id m) | Err e => Err e end, r.2).

Definition chat_send_handler (now : Z) (id : Uuid) (t : DateTime) (content : string) (thread : option string) g : Answer Uuid * GState W :=
  let '(ok, l) := check now (g_limiter g) in
  let g := set_limiter l g in
  if negb ok then (Err (429, "Rate limit exceeded. Try again shortly."%string), g)
  else
    let m := new_incoming id t "gateway" user content in
    let m := match thread with Some th => with_metadata (JObject [("thread_id"%string, JString th)]) (with_thread th m) | None => m end in
    accepted m (send m g).
Definition action_of (action : string) : option (bool * bool) :=
  if String.eqb action "approve" then Some (true, false) else if String.eqb action "always" then Some (true, true)
  else if String.eqb action "deny" then Some (false, false) else None.
(** The message of an approval, for both ways in. *)
Definition approval_message (id : Uuid) (t : DateTime) (content : string) (thread : option string) : IncomingMessage :=
  let m := new_incoming id t "gateway" user content in match thread with Some th => with_thread th m | None => m end.
Definition chat_approval_handler (id : Uuid) (t : DateTime) (request action : string) (thread : option string) g : Answer Uuid * GState W :=
  match action_of action with
  | None => (Err (400, ("Unknown action: " ++s action)%string), g)
  | Some (approved, always) =>
      match uuid_parse request with
      | None => (Err (400, "Invalid request_id (expected UUID)"%string), g)
      | Some rid =>
          match submission_json (ExecApproval rid approved always) with
          | Err e => (Err (500, ("Failed to serialize approval: " ++s e)%string), g)
          | Ok content => let m := approval_message id t content thread in accepted m (send m g)
          end
      end
  end.
Definition clear_auth_mode g : GState W :=
  match g_session g with
  | None => g
  | Some s => set_session (Some (match active_thread_id s with
                                 | Some tid => update_thread tid (fun th => set_auth th None (updated_at th)) s
                                 | None => s
                                 end)) g
  end.
Definition activated (name : string) (r : Result (list string) string) : string :=
  match r with
  | Ok tools => name ++s " authenticated (" ++s pretty (length tools) ++s " tools loaded)"
  | Err e => name ++s " authenticated but activation failed: " ++s e
  end.
Definition is_authenticated (r : AuthOut) : bool := String.eqb (ao_status r) "authenticated".
(** A token for an extension; it goes to the extension manager only. *)
Definition submit_token (name token : string) g : option (Result (bool * AuthOut * string) string * GState W) :=
  match g_ext g with
  | None => None
  | Some w =>
      let '(r, w) := auth name (Some token) w in
      Some (match r with
            | Err e => (Err e, set_ext w g)
            | Ok res =>
                if is_authenticated res then
                  let '(a, w) := activate name w in
                  let m := activated name a in
                  (Ok (true, res, m), broadcast_event (EvAuthCompleted name true m) (clear_auth_mode (set_ext w g)))
                else (Ok (false, res, EmptyString), broadcast_event (EvAuthRequired name (ao_instructions res) (ao_auth_url res) (ao_setup_url res)) (set_ext w g))
            end)
  end.
Definition chat_auth_token_handler (name token : string) g : Answer ActionResponse * GState W :=
  match submit_token name token g with
  | None => (Err (503, "Extension manager not available"%string), g)
  | Some (Err e, g) => (Err (500, e), g)
  | Some (Ok (true, _, m), g) => (Ok (action_ok m), g)
  | Some (Ok (false, res, _), g) => (Ok (action_fail (default "Invalid token"%string (ao_instructions res))), g)
  end.
Definition chat_auth_cancel_handler g : Answer ActionResponse * GState W := (Ok (action_ok "Auth cancelled"), clear_auth_mode g).

(** ** A message on a WebSocket: what is sent back, and the state *)
Definition handle_client_message (id : Uuid) (t : DateTime) (msg : WsClientMessage) g : list WsServerMessage * GState W :=
  match msg with
  | WsMessage content thread =>
      let m := approval_message id t content thread in
      let '(r, g) := send m g in (match r with Ok _ => [] | Err (_, e) => [WsError e] end, g)
  | WsApproval request action thread =>
      match action_of action with
      | None => ([WsError ("Unknown approval action: " ++s action)], g)
      | Some (approved, always) =>
          match uuid_parse request with
          | None => ([WsError "Invalid request_id (expected UUID)"], g)
          | Some rid =>
              match submission_json (ExecApproval rid approved always) with
              | Err e => ([WsError ("Failed to serialize approval: " ++s e)], g)
              | Ok content => ([], (send (approval_message id t content thread) g).2)
              end
          end
      end
  | WsAuthToken name token =>
      match submit_token name token g with
      | None => ([WsError "Extension manager not available"], g)
      | Some (Err e, g) => ([WsError ("Auth failed: " ++s e)], g)
      | Some (Ok _, g) => ([], g)
      end
  | WsAuthCancel _ => ([], clear_auth_mode g)
  | WsPing => ([WsPong], g)
  end.
Definition handle_frame (parsed : Result WsClientMessage string) (id : Uuid) (t : DateTime) g : list WsServerMessage * GState W :=
  match parsed with Ok m => handle_client_message id t m g | Err e => ([WsError ("Invalid message: " ++s e)], g) end.

(** ** The channel *)
Definition gateway_respond (m : IncomingMessage) (r : OutgoingResponse) g : GState W :=
  broadcast_event (EvResponse (or_content r) (default EmptyString (im_thread_id m))) g.
Definition gateway_broadcast (r : OutgoingResponse) g : GState W := broadcast_event (EvResponse (or_content r) EmptyString) g.
Definition status_event (s : StatusUpdate) (meta : Json) : SseEvent :=
  let th := get_str "thread_id" meta in
  match s with
  | Thinking m => EvThinking m th | ToolStarted n => EvToolStarted n th | ToolCompleted n ok => EvToolCompleted n ok th
  | ToolResult n p => EvToolResult n p th | StreamChunk c => EvStreamChunk c th | Status m => EvStatus m th
  | JobStarted j ti b => EvJobStarted j ti b
  | ApprovalNeeded r n d p => EvApprovalNeeded r n d (json_pretty p)
  | AuthRequired n i a s => EvAuthRequired n i a s
  | AuthCompleted n ok m => EvAuthCompleted n ok m
  end.
Definition gateway_status (s : StatusUpdate) (meta : Json) g : GState W := broadcast_event (status_event s meta) g.
Definition gateway_health g : Result unit ChannelError := match g_inbox g with Some _ => Ok tt | None => Err (HealthCheckFailed "gateway") end.
Definition gateway_shutdown g : GState W := set_inbox None g.
End Handlers.

(** ** Proofs: approvals and tokens *)
Section Approvals.
Context {W : Type} (auth : string -> option string -> W -> Result AuthOut string * W) (activate : string -> W -> Result (list string) string * W).
Context (uuid_parse : string -> option Uuid) (submission_json : Submission -> Result string string) (from_json : string -> option Submission).
Context (user : string).
(** What serde prints for a submission begins with a brace, has no white space
    around it and is read back. *)
Definition json_faithful : Prop :=
  forall s, match submission_json s with Ok t => starts_with t "{" = true /\ trim t = t /\ from_json t = Some s | Err _ => True end.
Lemma approval_text_parses t r a w :
  json_faithful -> submission_json (ExecApproval r a w) = Ok t -> parse uuid_parse from_json t = ExecApproval r a w.
Proof.
  intros Hj Ht. pose proof (Hj (ExecApproval r a w)) as H. rewrite Ht in H. destruct H as (Hb & Htr & Hr). unfold parse. rewrite Htr.
  assert (Hs : starts_with t "/" = false).
  { apply not_true_iff_false. intros H. apply starts_with_spec in H as [x ->]. apply starts_with_spec in Hb as [y Hy]. done. }
  apply lower_no_slash in Hs. rewrite simple_command_no_slash by done. rewrite !no_slash_starts by done.
  rewrite no_slash_not_in by (done || by repeat constructor). unfold thread_command, resume_command, json_approval. by rewrite !no_slash_prefix, Hb, Hr by done.
Qed.
Definition inbox (g : GState W) : list IncomingMessage := match g_inbox g with Some (q, _) => q | None => [] end.
(** The new message of a queue, when there is one. *)
Lemma send_inbox m (g : GState W) :
  send m g = (Ok tt, set_inbox (Some (inbox g ++ [m], true)) g) \/ (exists e, send m g = (Err e, g)).
Proof. unfold send, inbox. destruct (g_inbox g) as [[q [|]]|]; [left|right..]; eauto. Qed.
(** The decision of the action word. *)
Definition decision (action : string) : list (bool * bool) := option_list (action_of action).
(** The same approval through the handler and through the socket leaves the
    gateway in the same state, and what the agent reads from the message it
    gets is the decision of the user on the request named, in the thread
    named, whatever the words were; anything else changes nothing. *)
Theorem approval_reaches_agent (id rid : Uuid) (t : DateTime) (request action : string) (thread : option string) (g : GState W) (approved always : bool) :
  json_faithful -> (exists q, g_inbox g = Some (q, true)) -> action_of action = Some (approved, always) -> uuid_parse request = Some rid ->
  (exists text, submission_json (ExecApproval rid approved always) = Ok text) ->
  let r := chat_approval_handler uuid_parse submission_json user id t request action thread g in
  let ws := handle_client_message auth activate uuid_parse submission_json user id t (WsApproval request action thread) g in
  r.1 = Ok id /\ ws = ([], r.2)
  /\ exists m, inbox r.2 = inbox g ++ [m] /\ parse uuid_parse from_json (im_content m) = ExecApproval rid approved always
     /\ im_thread_id m = thread /\ im_user_id m = user /\ im_metadata m = JNull.
Proof.
  intros Hj [q Hq] Ha Hu [text Ht]. cbn zeta. unfold chat_approval_handler, handle_client_message. rewrite Ha, Hu, Ht. unfold accepted, send. rewrite Hq. cbn [fst snd].
  assert (Hm : im_id (approval_message user id t text thread) = id) by (unfold approval_message; by destruct thread).
  split; [by rewrite Hm|]. split; [done|]. eexists. unfold inbox. rewrite Hq. split; [reflexivity|].
  unfold approval_message. destruct thread; cbn; (split; [by apply approval_text_parses|done]).
Qed.
(** The token of an extension goes to the extension manager and nowhere else:
    the inbox of the agent is untouched, no turn of a thread changes, and what
    is broadcast and what is answered depend on the token only through what
    the manager answered. *)
Theorem submitted_token_stays_out (name token token' : string) (g : GState W) :
  match submit_token auth activate name token g with
  | None => g_ext g = None
  | Some (r, g') =>
      g_inbox g' = g_inbox g /\ g_limiter g' = g_limiter g
      /\ (forall s s' tid, g_session g = Some s -> g_session g' = Some s' -> turns <$> threads s' !! tid = turns <$> threads s !! tid)
      /\ ((forall w, auth name (Some token') w = auth name (Some token) w) -> submit_token auth activate name token' g = Some (r, g'))
  end.
Proof.
  unfold submit_token. destruct (g_ext g) as [w|]; [|done]. destruct (auth name (Some token) w) as [[res|e] w'] eqn:Ea.
  2: { cbn. split; [done|]. split; [done|]. split; [intros s s' tid Hs Hs'; congruence|]. intros H. by rewrite H, Ea. }
  destruct (is_authenticated res) eqn:Ei.
  - destruct (activate name w') as [a w''] eqn:Eb. split_and!.
    + cbn. unfold clear_auth_mode. cbn. by destruct (g_session g).
    + cbn. unfold clear_auth_mode. cbn. by destruct (g_session g).
    + intros s s' tid Hs. cbn. unfold clear_auth_mode. cbn. rewrite Hs. cbn. intros [= <-].
      destruct (active_thread_id s) as [a0|]; [|done]. unfold update_thread. cbn. destruct (decide (tid = a0)) as [->|Hne].
      * rewrite lookup_alter_eq. by destruct (threads s !! a0).
      * by rewrite lookup_alter_ne.
    + intros H. by rewrite H, Ea, Ei, Eb.
  - cbn. split; [done|]. split; [done|]. split; [intros s s' tid Hs Hs'; congruence|]. intros H. by rewrite H, Ea, Ei.
Qed.
(** Leaving the auth mode is for the active thread only. *)
Theorem auth_mode_of_others_stays (g : GState W) (s : Session Json) (tid : Uuid) (th : Thread Json) :
  g_session g = Some s -> threads s !! tid = Some th ->
  exists s', g_session (chat_auth_cancel_handler g).2 = Some s'
    /\ pending_auth <$> threads s' !! tid = Some (if bool_decide (active_thread_id s = Some tid) then None else pending_auth th).
Proof.
  intros Hs Ht. cbn. unfold clear_auth_mode. rewrite Hs. eexists. split; [reflexivity|].
  destruct (active_thread_id s) as [a|]; [|by rewrite Ht, bool_decide_false by done]. unfold update_thread. cbn. destruct (decide (tid = a)) as [->|Hne].
  - by rewrite lookup_alter_eq, Ht, bool_decide_true by done.
  - rewrite lookup_alter_ne, Ht, bool_decide_false by congruence. done.
Qed.
(** A message through the socket is not counted by the limiter of the chat and
    carries no thread in its metadata, so that the events of its turn are for
    no thread; the same message through the handler is and does. *)
Theorem socket_messages_differ (now : Z) (id : Uuid) (t : DateTime) (content thread : string) (g : GState W) (st : string) :
  (exists q, g_inbox g = Some (q, true)) -> (check now (g_limiter g)).1 = true ->
  let ws := (handle_client_message auth activate uuid_parse submission_json user id t (WsMessage content (Some thread)) g).2 in
  let rest := (chat_send_handler user now id t content (Some thread) g).2 in
  let ev gs := (fun m => status_event (fun _ => EmptyString) (Thinking st) (im_metadata m)) <$> last (inbox gs) in
  g_limiter ws = g_limiter g /\ g_limiter rest = (check now (g_limiter g)).2
  /\ ev ws = Some (EvThinking st None) /\ ev rest = Some (EvThinking st (Some thread)).
Proof.
  intros [q Hq] Hc. cbn zeta. unfold chat_send_handler. destruct (check now (g_limiter g)) as [ok l] eqn:E. cbn in Hc. subst ok.
  unfold handle_client_message, accepted, send. cbn [set_limiter g_inbox]. rewrite Hq. cbn. rewrite !last_snoc. done.
Qed.
End Approvals.

(** ** Witnesses *)
Lemma unauthenticated_reach_witness :
  dispatch "secret" None None GET (["api"; "health"])%string = Handle "health"
  /\ dispatch "secret" None None GET (["api"; "jobs"; "7"])%string = Unauthorized
  /\ dispatch "secret" (Some "Bearer secret"%string) None GET (["api"; "jobs"; "summary"])%string = Handle "jobs_summary"
  /\ (auth_middleware "secret" None None = true \/ "health"%string ∈ PUBLIC).
Proof.
  split; [vm_compute; reflexivity|]. split; [vm_compute; reflexivity|]. split; [vm_compute; reflexivity|].
  apply (unauthenticated_reach "secret" None None GET (["api"; "health"])%string). vm_compute. reflexivity.
Defined.
Lemma chat_limit_holds_witness :
  granted [100; 101; 102; 103] (mkLimiter 0 0 2 60) = (2%nat, mkLimiter 0 100 2 60)
  /\ Z.of_nat (granted [100; 101; 102; 103] (mkLimiter 0 0 2 60)).1 <= 2.
Proof.
  split; [vm_compute; reflexivity|].
  apply (chat_limit_holds 100 [101; 102; 103] (mkLimiter 0 0 2 60)); [split; cbn; lia|reflexivity|repeat constructor; reflexivity].
Defined.
Lemma connections_bounded_witness :
  total counted_stream [WsOpen; SseOpen] <= MAX_CONNECTIONS
  /\ gateway_status_handler (mkConns 2 1) = mkStatus 2 1 3.
Proof.
  apply (connections_bounded [WsOpen; SseOpen] (mkConns 2 1)).
  eapply rtc_l; [apply cn_sse; reflexivity|]. eapply rtc_l; [apply cn_ws|].
  eapply rtc_l; [apply (cn_ws_open [] [SseOpen]); reflexivity|]. apply rtc_refl.
Defined.
Definition demo_json (s : Submission) : Result string string :=
  match s with ExecApproval r true false => if N.eqb r 7 then Ok "{7}"%string else Err "other"%string | _ => Err "other"%string end.
Definition demo_read (t : string) : option Submission := if String.eqb t "{7}" then Some (ExecApproval 7 true false) else None.
Definition demo_uuid (t : string) : option Uuid := if String.eqb t "7" then Some 7%N else None.
Definition demo_thread : Thread Json := set_auth (new_thread 3 1 50 JNull) (Some (mkPendingAuth "ext")) 50.
Definition demo_session : Session Json := mkSession _ 1 "me" (Some 3%N) {[ 3%N := demo_thread; 4%N := demo_thread ]} 50 50 JNull ∅.
Definition demo_g : GState unit := mkG _ (Some ([], true)) (new_limiter 2 60 100) [] (Some demo_session) (Some tt).
Definition no_auth (n : string) (t : option string) (w : unit) : Result AuthOut string * unit := (Err "no"%string, w).
Definition no_act (n : string) (w : unit) : Result (list string) string * unit := (Err "no"%string, w).
Lemma approval_reaches_agent_witness :
  let r := chat_approval_handler demo_uuid demo_json "me" 9 100 "7" "approve" (Some "t"%string) demo_g in
  let ws := handle_client_message no_auth no_act demo_uuid demo_json "me" 9 100 (WsApproval "7" "approve" (Some "t"%string)) demo_g in
  r.1 = Ok 9%N /\ ws = ([], r.2)
  /\ exists m, inbox r.2 = inbox demo_g ++ [m] /\ parse demo_uuid demo_read (im_content m) = ExecApproval 7 true false
     /\ im_thread_id m = Some "t"%string /\ im_user_id m = "me"%string /\ im_metadata m = JNull.
Proof.
  apply (approval_reaches_agent no_auth no_act demo_uuid demo_json demo_read "me" 9 7 100 "7" "approve" (Some "t"%string) demo_g true false);
    [|by exists []|reflexivity|reflexivity|by eexists].
  intros [|r [|] [|]|   | | | | | | | | | | | | |]; unfold demo_json; try done. destruct (N.eqb_spec r 7) as [->|]; [by split_and!|done].
Defined.
Lemma auth_mode_of_others_stays_witness :
  exists s', g_session (chat_auth_cancel_handler demo_g).2 = Some s' /\ pending_auth <$> threads s' !! 4%N = Some (Some (mkPendingAuth "ext")).
Proof. apply (auth_mode_of_others_stays demo_g demo_session 4%N demo_thread); reflexivity. Defined.
Lemma socket_messages_differ_witness :
  let ws := (handle_client_message no_auth no_act demo_uuid demo_json "me" 9 100 (WsMessage "hi" (Some "t"%string)) demo_g).2 in
  let rest := (chat_send_handler "me" 100 9 100 "hi" (Some "t"%string) demo_g).2 in
  let ev gs := (fun m => status_event (fun _ => EmptyString) (Thinking "s") (im_metadata m)) <$> last (inbox gs) in
  g_limiter ws = g_limiter demo_g /\ g_limiter rest = (check 100 (g_limiter demo_g)).2
  /\ ev ws = Some (EvThinking "s" None) /\ ev rest = Some (EvThinking "s" (Some "t"%string)).
Proof.
  apply (socket_messages_differ no_auth no_act demo_uuid demo_json "me" 100 9 100 "hi" "t" demo_g "s"); [by exists []|reflexivity].
Defined.
