(* ===== verification/GatewayChat.v ===== *)
(** Threads in the web gateway: [chat_history_handler],
    [build_turns_from_db_messages], [chat_threads_handler],
    [chat_new_thread_handler], [chat_delete_thread_handler] and
    [chat_clear_threads_handler] of [src/channels/web/server.rs], over the
    session of the user and the store of conversations.

    The state is the session, [None] without a session manager, and the
    database, [None] without a store.  The task that a new thread starts is
    [persist_new_thread]; it runs after the answer. *)

From S2P Require Import Prelude Strs Json Llm Session SessionManager Conversations Gateway.
#[local] Open Scope claw_scope.

Record ToolCallInfo := mkToolCallInfo { tci_name : string; tci_has_result : bool; tci_has_error : bool }.
Record TurnInfo := mkTurnInfo {
  ti_number : nat; ti_input : string; ti_response : option string; ti_state : string; ti_started : string; ti_completed : option string;
  ti_tool_calls : list ToolCallInfo }.
Record ThreadInfo := mkThreadInfo {
  thi_id : Uuid; thi_state : string; thi_turn_count : Z; thi_created : string; thi_updated : string; thi_title : option string; thi_type : option string }.
Record HistoryResponse := mkHistory { hr_thread : Uuid; hr_turns : list TurnInfo; hr_has_more : bool; hr_oldest : option string }.
Record ThreadListResponse := mkThreadList { tl_assistant : option ThreadInfo; tl_threads : list ThreadInfo; tl_active : option Uuid }.
Record DeleteResponse := mkDeleted { del_thread : Uuid; del_deleted : bool; del_active : option Uuid }.
Record ClearResponse := mkCleared { clr_deleted : nat; clr_assistant : option Uuid }.
Record ChatState := mkChat { c_session : option (Session Json); c_db : option ConvDb }.
Definition turn_state_debug (s : TurnState) : string :=
  match s with TProcessing => "Processing" | TCompleted => "Completed" | TFailed => "Failed" | TInterrupted => "Interrupted" end.
Definition thread_state_debug (s : ThreadState) : string :=
  match s with Idle => "Idle" | Processing => "Processing" | AwaitingApproval => "AwaitingApproval" | ThreadCompleted => "Completed" | Interrupted => "Interrupted" end.
Definition no_manager {A} : Answer A := Err (503, "Session manager not available"%string).
(** [usize as i64]. *)
Definition as_i64 (n : Z) : Z := if n <? 2 ^ 63 then n else n - 2 ^ 64.

Section Chat.
Context (day_text : Z -> string) (parse_rfc3339 parse_naive_frac parse_naive : string -> option DateTime) (to_rfc3339 : DateTime -> string).
Context (asc desc : list MessageRow -> list MessageRow) (by_activity : list Conversation -> list Conversation) (fk : bool).
Context (uuid_parse : string -> option Uuid) (preview : string -> string) (user : string).
Abbreviation page := (list_conversation_messages_paginated day_text parse_rfc3339 parse_naive_frac parse_naive desc).

(** ** History *)
Fixpoint build_turns (n : nat) (ms : list ConversationMessage) : list TurnInfo :=
  match ms with
  | [] => []
  | m :: rest =>
      if String.eqb (cm_role m) "user" then
        match rest with
        | a :: rest' =>
            if String.eqb (cm_role a) "assistant"
            then mkTurnInfo n (cm_content m) (Some (cm_content a)) "Completed" (to_rfc3339 (cm_created_at m)) (Some (to_rfc3339 (cm_created_at a))) []
                 :: build_turns (S n) rest'
            else mkTurnInfo n (cm_content m) None "Failed" (to_rfc3339 (cm_created_at m)) None [] :: build_turns (S n) rest
        | [] => [mkTurnInfo n (cm_content m) None "Failed" (to_rfc3339 (cm_created_at m)) None []]
        end
      else build_turns n rest
  end.
Definition build_turns_from_db_messages (ms : list ConversationMessage) : list TurnInfo := build_turns 0 ms.
Definition tool_call_info (c : TurnToolCall Json) : ToolCallInfo :=
  mkToolCallInfo (ttc_name c) (bool_decide (is_Some (ttc_result c))) (bool_decide (is_Some (ttc_error c))).
Definition turn_info (t : Turn Json) : TurnInfo :=
  mkTurnInfo (turn_number t) (user_input t) (response t) (turn_state_debug (turn_state t)) (to_rfc3339 (turn_started_at t))
    (to_rfc3339 <$> turn_completed_at t) (map tool_call_info (turn_tool_calls t)).
Definition db_history (tid : Uuid) (p : list ConversationMessage * bool) : HistoryResponse :=
  mkHistory tid (build_turns_from_db_messages p.1) p.2 (to_rfc3339 ∘ cm_created_at <$> head p.1).
Definition history_of (sess : Session Json) (db : option ConvDb) (tid : Uuid) (cursor : option DateTime) (limit : Z) : HistoryResponse :=
  match cursor, db with
  | Some c, Some d => db_history tid (page tid (Some c) (as_i64 limit) d)
  | _, _ =>
      match threads sess !! tid with
      | Some {| turns := (_ :: _) as l |} => mkHistory tid (map turn_info l) false None
      | _ => match db with
             | Some d => match page tid None (as_i64 limit) d with
                         | ((_ :: _) as ms, more) => db_history tid (ms, more)
                         | ([], _) => mkHistory tid [] false None
                         end
             | None => mkHistory tid [] false None
             end
      end
  end.
Definition chat_history_handler (thread : option string) (limit : option Z) (before : option string) (st : ChatState) : Answer HistoryResponse :=
  match c_session st with
  | None => no_manager
  | Some sess =>
      match (match before with None => Some None | Some s => Some <$> parse_rfc3339 s end) with
      | None => Err (400, "Invalid 'before' timestamp"%string)
      | Some cursor =>
          match (match thread with
                 | Some t => match uuid_parse t with Some i => Ok i | None => Err (400, "Invalid thread_id"%string) end
                 | None => match active_thread_id sess with Some i => Ok i | None => Err (404, "No active thread"%string) end
                 end) with
          | Err e => Err e
          | Ok tid =>
              if match thread, c_db st with
                 | Some _, Some d => negb (conversation_belongs_to_user tid user d) && negb (bool_decide (is_Some (threads sess !! tid)))
                 | _, _ => false
                 end
              then Err (404, "Thread not found"%string)
              else Ok (history_of sess (c_db st) tid cursor (default 50 limit))
          end
      end
  end.

(** ** The list *)
Definition listed_info (s : ConversationSummary) : ThreadInfo :=
  mkThreadInfo (cs_id s) "Idle" (Z.quot (cs_message_count s) 2 `max` 0) (to_rfc3339 (cs_started_at s)) (to_rfc3339 (cs_last_activity s)) (cs_title s) (cs_thread_type s).
Definition thread_info (type : option string) (t : Thread Json) : ThreadInfo :=
  mkThreadInfo (thread_id t) (thread_state_debug (th_state t)) (Z.of_nat (length (turns t))) (to_rfc3339 (th_created_at t)) (to_rfc3339 (updated_at t)) None type.
Definition chat_threads_handler (fresh : Uuid) (now now2 : DateTime) (st : ChatState) : Answer ThreadListResponse * ChatState :=
  match c_session st with
  | None => (no_manager, st)
  | Some sess =>
      match c_db st with
      | Some d =>
          let '(aid, d) := get_or_create_assistant_conversation day_text fresh now user "gateway" d in
          let infos := map listed_info (list_conversations_with_preview parse_rfc3339 parse_naive_frac parse_naive asc by_activity preview user "gateway" 50 d) in
          let assistant := match last (List.filter (fun i => bool_decide (thi_id i = aid)) infos) with
                           | Some i => i
                           | None => mkThreadInfo aid "Idle" 0 (to_rfc3339 now2) (to_rfc3339 now2) None (Some "assistant"%string)
                           end in
          (Ok (mkThreadList (Some assistant) (List.filter (fun i => negb (bool_decide (thi_id i = aid))) infos) (active_thread_id sess)), mkChat (c_session st) (Some d))
      | None => (Ok (mkThreadList None (map (fun kv => thread_info None kv.2) (map_to_list (threads sess))) (active_thread_id sess)), st)
      end
  end.

(** ** New, delete, clear *)
Definition persist_new_thread (tid : Uuid) (now : DateTime) (db : option ConvDb) : option ConvDb :=
  match db with
  | Some d => Some (update_conversation_metadata_field tid "thread_type" (JString "thread") (ensure_conversation day_text tid now "gateway" user None d))
  | None => None
  end.
Definition chat_new_thread_handler (fresh : Uuid) (now : DateTime) (st : ChatState) : Answer ThreadInfo * ChatState :=
  match c_session st with
  | None => (no_manager, st)
  | Some sess => let '(th, sess) := create_thread fresh now JNull sess in (Ok (thread_info (Some "thread"%string) th), mkChat (Some sess) (c_db st))
  end.
Definition chat_delete_thread_handler (fresh : Uuid) (now : DateTime) (id : string) (st : ChatState) : Answer DeleteResponse * ChatState :=
  match uuid_parse id with
  | None => (Err (400, "Invalid thread ID"%string), st)
  | Some tid =>
      match c_session st with
      | None => (no_manager, st)
      | Some sess =>
          let in_memory := bool_decide (is_Some (threads sess !! tid)) in
          let owned := match c_db st with Some d => conversation_belongs_to_user tid user d || in_memory | None => in_memory end in
          if negb owned then (Err (404, "Thread not found"%string), st)
          else
            let '(deleted, db) := match c_db st with
                                  | Some d => let '(b, d) := delete_conversation_for_user fk tid user d in (b, Some d)
                                  | None => (false, None)
                                  end in
            let '(assistant, db) := match db with
                                    | Some d => if bool_decide (active_thread_id sess = Some tid)
                                                then let '(a, d) := get_or_create_assistant_conversation day_text fresh now user "gateway" d in (Some a, Some d)
                                                else (None, Some d)
                                    | None => (None, None)
                                    end in
            let sess := delete_thread tid (bool_decide (is_Some (c_db st))) assistant sess in
            (Ok (mkDeleted tid (deleted || owned) (active_thread_id sess)), mkChat (Some sess) db)
      end
  end.
Definition chat_clear_threads_handler (fresh : Uuid) (now : DateTime) (st : ChatState) : Answer ClearResponse * ChatState :=
  match c_session st with
  | None => (no_manager, st)
  | Some sess =>
      let '(n, assistant, db) := match c_db st with
                                 | Some d => let '(n, d) := delete_all_conversations_for_user_channel fk user "gateway" d in
                                             let '(a, d) := get_or_create_assistant_conversation day_text fresh now user "gateway" d in (n, Some a, Some d)
                                 | None => (0%nat, None, None)
                                 end in
      (Ok (mkCleared (n `max` size (threads sess)) assistant), mkChat (Some (clear_threads (bool_decide (is_Some (c_db st))) assistant sess)) db)
  end.
End Chat.

(** ** Proofs: turns *)
Section Turns.
Context (to_rfc3339 : DateTime -> string).
Abbreviation turns_of := (build_turns to_rfc3339).
Definition stored_turn (u : ConversationMessage) (a : option ConversationMessage) : list ConversationMessage := u :: option_list a.
Definition shown_turn (n : nat) (u : ConversationMessage) (a : option ConversationMessage) : TurnInfo :=
  mkTurnInfo n (cm_content u) (cm_content <$> a) (match a with Some _ => "Completed" | None => "Failed" end) (to_rfc3339 (cm_created_at u)) (to_rfc3339 ∘ cm_created_at <$> a) [].
Definition turn_roles (ua : ConversationMessage * option ConversationMessage) : Prop :=
  cm_role ua.1 = "user"%string /\ match ua.2 with Some a => cm_role a = "assistant"%string | None => True end.
(** The messages of stored turns, answered or not, read as these turns. *)
Theorem stored_turns_shown (l : list (ConversationMessage * option ConversationMessage)) :
  Forall turn_roles l ->
  build_turns_from_db_messages to_rfc3339 (l ≫= uncurry stored_turn) = imap (fun n ua => shown_turn n ua.1 ua.2) l.
Proof.
  intros Hl. unfold build_turns_from_db_messages.
  assert (H : forall n, turns_of n (l ≫= uncurry stored_turn) = imap (fun i ua => shown_turn (n + i)%nat ua.1 ua.2) l); [|exact (H 0%nat)].
  induction Hl as [|[u a] l [Hu Ha] Hl IH]; intros n; [done|]. cbn [mbind list_bind uncurry stored_turn fst snd] in *.
  assert (E : imap (fun i ua => shown_turn (n + i)%nat ua.1 ua.2) ((u, a) :: l) = shown_turn n u a :: imap (fun i ua => shown_turn (S n + i)%nat ua.1 ua.2) l).
  { rewrite imap_cons. cbn. rewrite Nat.add_0_r. f_equal. apply imap_ext. intros i x _. cbn. f_equal. lia. }
  rewrite E, <-IH. destruct a as [a|]; unfold stored_turn at 1; cbn [option_list app build_turns]; rewrite Hu.
  - cbn. rewrite Ha. done.
  - cbn. destruct Hl as [|[u' a'] l' [Hu' _] _]; [done|]. cbn in *. by rewrite Hu'.
Qed.
Definition row_of (m : ConversationMessage) : string * string := (cm_role m, cm_content m).
Definition dialogue (m : ConversationMessage) : Prop := cm_role m = "user"%string \/ cm_role m = "assistant"%string.
End Turns.

(** ** Proofs: whose threads *)
Section Whose.
Context (day_text : Z -> string) (parse_rfc3339 parse_naive_frac parse_naive : string -> option DateTime) (to_rfc3339 : DateTime -> string).
Context (asc desc : list MessageRow -> list MessageRow) (by_activity : list Conversation -> list Conversation) (fk : bool).
Context `{!Orders mr_created asc desc} (sum_asc : list Conversation -> list Conversation) `{!Orders cv_last sum_asc by_activity}.
Context (uuid_parse : string -> option Uuid) (preview : string -> string) (user : string).
Abbreviation history := (chat_history_handler day_text parse_rfc3339 parse_naive_frac parse_naive to_rfc3339 desc uuid_parse user).
Abbreviation page := (list_conversation_messages_paginated day_text parse_rfc3339 parse_naive_frac parse_naive desc).
Abbreviation threads_handler := (chat_threads_handler day_text parse_rfc3339 parse_naive_frac parse_naive to_rfc3339 asc by_activity preview user).
Definition knows (tid : Uuid) (st : ChatState) : Prop :=
  match c_session st, c_db st with
  | Some sess, Some d => conversation_belongs_to_user tid user d = true \/ is_Some (threads sess !! tid)
  | Some _, None => True
  | None, _ => False
  end.
(** A history asked for by its id is that of a conversation of the user or of
    a thread in the session of the user. *)
Theorem history_own_only (t : string) (limit : option Z) (before : option string) (st : ChatState) :
  match history (Some t) limit before st with
  | Ok h => uuid_parse t = Some (hr_thread h) /\ knows (hr_thread h) st
  | Err e => e.1 = 400 \/ (e = (404, "Thread not found"%string) /\ forall tid, uuid_parse t = Some tid -> ~ knows tid st) \/ (e.1 = 503 /\ c_session st = None)
  end.
Proof.
  unfold chat_history_handler, no_manager, knows. destruct (c_session st) as [sess|]; [|by cbn; tauto]. destruct (match before with None => _ | Some _ => _ end) as [cursor|]; [|by left].
  destruct (uuid_parse t) as [tid|] eqn:E; [|by left]. destruct (c_db st) as [d|] eqn:Ed.
  - destruct (conversation_belongs_to_user tid user d) eqn:Eo; cbn [negb andb].
    + assert (Hh : hr_thread (history_of day_text parse_rfc3339 parse_naive_frac parse_naive to_rfc3339 desc sess (Some d) tid cursor (default 50 limit)) = tid)
        by (unfold history_of; repeat (case_match; try done)). rewrite Hh. tauto.
    + case_bool_decide as Hm; cbn [negb].
      * assert (Hh : hr_thread (history_of day_text parse_rfc3339 parse_naive_frac parse_naive to_rfc3339 desc sess (Some d) tid cursor (default 50 limit)) = tid)
          by (unfold history_of; repeat (case_match; try done)). rewrite Hh. tauto.
      * right. left. split; [done|]. intros tid' [= <-] [?|?]; [congruence|done].
  - assert (Hh : hr_thread (history_of day_text parse_rfc3339 parse_naive_frac parse_naive to_rfc3339 desc sess None tid cursor (default 50 limit)) = tid)
      by (unfold history_of; repeat (case_match; try done)). rewrite Hh. tauto.
Qed.
(** Paging back gets nowhere while all messages of a conversation are of one
    day: the page before the oldest message of a page is that page again. *)
Theorem history_paging_stuck (t : string) (tid : Uuid) (limit : option Z) (cursor : string) (at_ : DateTime) (sess : Session Json) (d : ConvDb) :
  uuid_parse t = Some tid -> parse_rfc3339 cursor = Some at_ -> threads sess !! tid = None ->
  (forall r, r ∈ rows d -> mr_conv r = tid -> exists u, mr_created r = sql_now day_text u /\ u / DAY = at_ / DAY) ->
  (page tid None (as_i64 (default 50 limit)) d).1 <> [] ->
  history (Some t) limit (Some cursor) (mkChat (Some sess) (Some d)) = history (Some t) limit None (mkChat (Some sess) (Some d)).
Proof.
  intros Ht Hc Hs Hr Hne. unfold chat_history_handler. cbn [c_session c_db]. rewrite Ht, Hc. cbn [fmap option_fmap option_map].
  destruct (_ && _); [done|]. f_equal. unfold history_of. rewrite Hs. rewrite page_repeats by done.
  destruct (page tid None _ d) as [[|m ms] more]; [done|]. reflexivity.
Qed.
(** The conversation of another user, once a message of this user has named
    it: the agent loads it into the session of the user without asking whose
    it is, and the gateway, which refused its history before, then shows it. *)
Theorem foreign_history_loaded (show : Uuid -> string) (channel t : string) (tid r : Uuid) (fresh : Uuid) (now : DateTime) (sess : Session Json) (d : ConvDb) (m : SessionManager Json) :
  let stored i := map row_of (list_conversation_messages parse_rfc3339 parse_naive_frac parse_naive asc i d) in
  let m' := maybe_hydrate_thread JNull uuid_parse show stored (fun _ => None) user channel t fresh now m in
  uuid_parse t = Some tid -> sessions m !! user = Some r -> heap m !! r = Some sess -> threads sess !! tid = None ->
  conversation_belongs_to_user tid user d = false -> restore_turns (Value := Json) 0 now (hydrated_messages (stored tid)) <> [] ->
  history (Some t) None None (mkChat (Some sess) (Some d)) = Err (404, "Thread not found"%string)
  /\ exists sess', heap m' !! r = Some sess'
     /\ history (Some t) None None (mkChat (Some sess') (Some d))
        = Ok (mkHistory tid (map (turn_info to_rfc3339) (restore_turns 0 now (hydrated_messages (stored tid)))) false None).
Proof.
  cbn zeta. set (stored := fun i => _). intros Ht Hu Hh Hs Hb Hne. split.
  - unfold chat_history_handler. cbn [c_session c_db]. rewrite Ht, Hb, Hs. done.
  - unfold maybe_hydrate_thread. rewrite Ht. unfold get_or_create_session. rewrite Hu, Hh, Hs.
    destruct (hydrated_messages (stored tid)) as [|m0 ms] eqn:E; [done|]. cbn [set_last_response].
    eexists. split; [unfold register_thread, write_session; cbn [heap]; apply lookup_insert_eq|].
    unfold chat_history_handler. cbn [c_session c_db set_threads threads]. rewrite Ht, Hb, lookup_insert_eq. cbn [negb andb].
    rewrite bool_decide_eq_true_2 by done. cbn [negb]. f_equal. unfold history_of. cbn [set_threads threads]. rewrite lookup_insert_eq.
    unfold restore_from_messages, set_thread. cbn [turns]. destruct (restore_turns 0 now (m0 :: ms)) as [|t0 ts]; [done|]. reflexivity.
Qed.
End Whose.

(** ** Proofs: deleting and listing *)
Section Delete.
Context (day_text : Z -> string) (parse_rfc3339 parse_naive_frac parse_naive : string -> option DateTime) (to_rfc3339 : DateTime -> string).
Context (asc desc : list MessageRow -> list MessageRow) (by_activity : list Conversation -> list Conversation) (fk : bool).
Context (up : list Conversation -> list Conversation) `{!Orders cv_last up by_activity}.
Context (uuid_parse : string -> option Uuid) (preview : string -> string) (user : string).
Abbreviation delete_handler := (chat_delete_thread_handler day_text fk uuid_parse user).
Abbreviation history := (chat_history_handler day_text parse_rfc3339 parse_naive_frac parse_naive to_rfc3339 desc uuid_parse user).
Abbreviation list_threads := (list_conversations_with_preview parse_rfc3339 parse_naive_frac parse_naive asc by_activity preview user "gateway").
Lemma belongs_spec id d : conversation_belongs_to_user id user d = true <-> exists c, c ∈ convs d /\ cv_id c = id /\ cv_user c = user.
Proof.
  unfold conversation_belongs_to_user. rewrite existsb_exists. split.
  - intros (c & Hc%list_elem_of_In & Hb). apply andb_true_iff in Hb as [H1%bool_decide_eq_true H2%String.eqb_eq]. eauto.
  - intros (c & Hc%list_elem_of_In & H1 & H2). exists c. split; [done|]. rewrite andb_true_iff, bool_decide_eq_true, String.eqb_eq. done.
Qed.
Lemma assistant_adds fresh now channel d :
  let '(a, d') := get_or_create_assistant_conversation day_text fresh now user channel d in
  rows d' = rows d /\ (convs d' = convs d \/ exists c, convs d' = convs d ++ [c] /\ cv_id c = fresh).
Proof. unfold get_or_create_assistant_conversation. destruct (List.find _ _); cbn; [by split; [|left]|]. split; [done|]. right. by eexists. Qed.
(** A thread that was deleted is gone from the session and from the store, its
    history is refused, and what is not this user's stays; until a turn of it
    that was still running ends and stores itself: then the conversation is
    there again, as the user's, with that turn. *)
Theorem deleted_thread_gone (fresh : Uuid) (now : DateTime) (t : string) (tid : Uuid) (limit : option Z) (sess : Session Json) (d : ConvDb) (st : TurnStamp) (input : string) (response : option string) :
  uuid_parse t = Some tid -> fresh <> tid -> knows user tid (mkChat (Some sess) (Some d)) ->
  (forall c, c ∈ convs d -> cv_id c = tid -> cv_user c = user) ->
  exists r sess' d', delete_handler fresh now t (mkChat (Some sess) (Some d)) = (Ok r, mkChat (Some sess') (Some d'))
    /\ del_deleted r = true /\ threads sess' = delete tid (threads sess)
    /\ history (Some t) limit None (mkChat (Some sess') (Some d')) = Err (404, "Thread not found"%string)
    /\ (forall c, c ∈ convs d -> cv_id c <> tid -> c ∈ convs d')
    /\ history (Some t) limit None (mkChat (Some sess') (Some (persist_turn day_text fk st tid user input response d')))
       <> Err (404, "Thread not found"%string).
Proof.
  intros Ht Hf Hk Hown. unfold knows in Hk. cbn in Hk.
  assert (Ho : (conversation_belongs_to_user tid user d || bool_decide (is_Some (threads sess !! tid))) = true).
  { apply orb_true_iff. destruct Hk as [->|H]; [by left|right; by apply bool_decide_eq_true]. }
  unfold chat_delete_thread_handler. rewrite Ht. cbn [c_session c_db]. rewrite Ho. cbn [negb].
  pose proof (delete_conversation_spec parse_rfc3339 parse_naive_frac parse_naive fk tid user d) as Hd. destruct (delete_conversation_for_user fk tid user d) as [b d1] eqn:E1.
  destruct Hd as (_ & Hd & _ & _ & _).
  assert (Hgone : forall c, c ∈ convs d1 -> cv_id c <> tid).
  { intros c [Hc Hn]%Hd E. destruct Hn as [?|Hn]; [done|]. by apply Hn, Hown. }
  set (final := if bool_decide (active_thread_id sess = Some tid) then _ else (None, Some d1)).
  assert (Hfin : exists a d', final = (a, Some d') /\ (forall c, c ∈ convs d' -> cv_id c <> tid) /\ forall c, c ∈ convs d1 -> c ∈ convs d').
  { unfold final. destruct (bool_decide (active_thread_id sess = Some tid)); [|by exists None, d1]. pose proof (assistant_adds fresh now "gateway" d1) as Ha.
    destruct (get_or_create_assistant_conversation _ _ _ _ _ _) as [a d']. exists (Some a), d'. destruct Ha as [_ [ -> |(c & -> & Hc)]]; [done|].
    split; [done|]. split; [|intros c' ?; apply elem_of_app; by left]. intros c'. rewrite elem_of_app, list_elem_of_singleton. intros [?| ->]; [by apply Hgone|congruence]. }
  clearbody final. destruct Hfin as (a & d' & -> & Hnot & Hsub). eexists _, _, _. split; [reflexivity|].
  cbn [del_deleted]. rewrite orb_true_r. split; [done|]. split; [done|].
  assert (Hb : conversation_belongs_to_user tid user d' = false).
  { apply not_true_iff_false. rewrite belongs_spec. intros (c & Hc & E & _). by apply (Hnot c). }
  split.
  - unfold chat_history_handler. cbn [c_session c_db delete_thread set_threads threads]. by rewrite Ht, Hb, lookup_delete_eq.
  - split; [intros c Hc Hne; apply Hsub, Hd; split; [done|by left]|].
    assert (Hb' : conversation_belongs_to_user tid user (persist_turn day_text fk st tid user input response d') = true).
    { destruct (persist_turn_spec day_text fk st tid user input response d') as (_ & _ & c & Hc & Hcu). apply belongs_spec. exists c.
      assert (Hnone : find_conv tid d' = None).
      { unfold find_conv. destruct (List.find _ _) as [c'|] eqn:Ef; [|done]. apply find_some in Ef as [Hin He%bool_decide_eq_true]. apply list_elem_of_In in Hin. by apply Hnot in Hin. }
      rewrite Hnone in Hcu. apply find_some in Hc as [Hin He%bool_decide_eq_true]. apply list_elem_of_In in Hin. simplify_eq/=. done. }
    unfold chat_history_handler. cbn [c_session c_db]. by rewrite Ht, Hb'.
Qed.

(** ** Proofs: the list *)
Abbreviation later := (fun a b : Conversation => String.leb (cv_last b) (cv_last a) = true).
(** A sort puts the one that is older than all others last. *)
Lemma oldest_last l c : c ∉ l -> Forall (fun x => String.ltb (cv_last c) (cv_last x) = true) l ->
  exists l', by_activity (l ++ [c]) = l' ++ [c] /\ Permutation l' l.
Proof.
  intros Hc Hl. pose proof (desc_perm (l ++ [c])) as Hp. pose proof (desc_sorted (l ++ [c])) as Hs.
  assert (Hin : c ∈ by_activity (l ++ [c])) by (rewrite Hp; apply elem_of_app; right; by apply list_elem_of_singleton).
  apply list_elem_of_split in Hin as (l1 & l2 & E). rewrite E in *.
  assert (Hp' : Permutation (l1 ++ l2) l).
  { apply (Permutation_app_inv_r [c]). rewrite <-Hp. rewrite <-app_assoc. apply Permutation_app_head. apply Permutation_app_comm. }
  destruct l2 as [|x l2]; [exists l1; split; [done|by rewrite app_nil_r in Hp']|]. exfalso.
  assert (Hx : x ∈ l) by (rewrite <-Hp'; apply elem_of_app; right; by left).
  rewrite Forall_forall in Hl. specialize (Hl x Hx). assert (Htr : Transitive later) by (intros a b e H1 H2; by apply (leb_key_trans cv_last e b a)). apply Sorted_StronglySorted in Hs; [|exact Htr].
  apply StronglySorted_app_1_r, StronglySorted_inv in Hs as [_ Hs]. rewrite Forall_forall in Hs. specialize (Hs x ltac:(by left)). cbn in Hs.
  unfold String.ltb in Hl. unfold String.leb in Hs. rewrite String.compare_antisym in Hs. destruct (String.compare (cv_last c) (cv_last x)); done.
Qed.
(** A new thread is not in the list when fifty others were used on its day:
    its row has the default of the column, which as text is older than every
    time of the day, and the list is cut at fifty.  With fewer it is last. *)
Theorem new_thread_not_listed (tid : Uuid) (now : DateTime) (d : ConvDb) :
  find_conv tid d = None -> Forall (fun c => exists u, cv_last c = fmt_ts day_text u /\ u / DAY = now / DAY) (List.filter (in_channel user "gateway") (convs d)) ->
  match persist_new_thread day_text user tid now (Some d) with
  | Some d' =>
      let shown := list_threads 50 d' in
      let n := length (List.filter (in_channel user "gateway") (convs d)) in
      ((50 <= n)%nat -> Forall (fun s => cs_id s <> tid) shown) /\ ((n < 50)%nat -> cs_id <$> last shown = Some tid)
  | None => False
  end.
Proof.
  intros Hn Hall. cbn [persist_new_thread]. cbn zeta. unfold list_conversations_with_preview.
  set (c := set_metadata (merge_patch EMPTY (JObject [("thread_type"%string, JString "thread")])) (mkConv tid "gateway" user None (sql_now day_text now) (sql_now day_text now) EMPTY)).
  assert (Hid : forall x, x ∈ convs d -> cv_id x <> tid).
  { intros x Hx E. unfold find_conv in Hn. apply list_elem_of_In in Hx. apply (find_none _ _ Hn) in Hx. by apply bool_decide_eq_false in Hx. }
  assert (Hd : convs (update_conversation_metadata_field tid "thread_type" (JString "thread") (ensure_conversation day_text tid now "gateway" user None d)) = convs d ++ [c]).
  { unfold ensure_conversation. rewrite Hn. cbn [convs update_conversation_metadata_field update_conv insert_conv]. rewrite map_app. cbn [map cv_id]. rewrite bool_decide_eq_true_2 by done.
    f_equal. clear -Hid. induction (convs d) as [|x l IH]; [done|]. cbn. rewrite bool_decide_eq_false_2 by (apply Hid; by left). f_equal. apply IH. intros y Hy. apply Hid. by right. }
  rewrite Hd, List.filter_app. cbn [List.filter app]. assert (Hc : in_channel user "gateway" c = true) by (unfold in_channel; cbn; by rewrite !String.eqb_refl). rewrite Hc.
  set (l := List.filter _ (convs d)) in *. assert (Hl : c ∉ l) by (intros [Hin%list_elem_of_In _]%list_elem_of_In%filter_In; by apply Hid in Hin).
  destruct (oldest_last l c Hl) as (l' & -> & Hp).
  { eapply Forall_impl; [exact Hall|]. intros x (u & -> & Hu). by apply default_before_day. }
  assert (Hlen : length l' = length l) by by apply Permutation_length. unfold sql_limit. cbn [Z.ltb Z.compare]. change (Z.to_nat 50) with 50%nat. split.
  - intros H50. rewrite take_app_le by lia. apply Forall_fmap. rewrite Forall_forall. intros x Hx. cbn. apply Hid.
    assert (Hxl : x ∈ l) by (rewrite <-Hp; rewrite <-(take_drop 50 l'); apply elem_of_app; by left).
    apply list_elem_of_In, filter_In in Hxl as [Hxl _]. by apply list_elem_of_In.
  - intros H50. rewrite take_ge by (rewrite length_app; cbn; lia). rewrite map_app. cbn [map]. by rewrite last_snoc.
Qed.
(** Clearing leaves the user no conversation of the gateway but a new one of
    the assistant, and every other conversation as it was. *)
Theorem cleared_threads (fresh : Uuid) (now : DateTime) (sess : Session Json) (d : ConvDb) :
  exists r sess' d', chat_clear_threads_handler day_text fk user fresh now (mkChat (Some sess) (Some d)) = (Ok r, mkChat (Some sess') (Some d'))
    /\ clr_assistant r = Some fresh /\ active_thread_id sess' = Some fresh /\ threads sess' = ∅
    /\ List.filter (in_channel user "gateway") (convs d') = [mkConv fresh "gateway" user None (sql_now day_text now) (sql_now day_text now) ASSISTANT_META]
    /\ List.filter (fun c => negb (in_channel user "gateway" c)) (convs d') = List.filter (fun c => negb (in_channel user "gateway" c)) (convs d).
Proof.
  unfold chat_clear_threads_handler. cbn [c_session c_db]. unfold delete_all_conversations_for_user_channel, get_or_create_assistant_conversation.
  set (rest := List.filter (fun c => negb (in_channel user "gateway" c)) (convs d)).
  assert (Hr : forall x, x ∈ rest -> in_channel user "gateway" x = false) by (intros x [_ Hx%negb_true_iff]%list_elem_of_In%filter_In; done).
  change (convs (delete_convs fk (in_channel user "gateway") d)) with rest.
  assert (Hf : List.find (fun c => in_channel user "gateway" c && is_assistant c) rest = None).
  { destruct (List.find _ rest) as [c|] eqn:E; [|done]. apply find_some in E as [Hc%list_elem_of_In [Hi _]%andb_true_iff]. by rewrite Hr in Hi. }
  rewrite Hf. cbn [create_conversation_with_metadata]. eexists _, _, _. split; [reflexivity|]. cbn [clr_assistant]. split; [done|]. split; [done|]. split; [done|].
  cbn [convs insert_conv]. change (convs (delete_convs fk (in_channel user "gateway") d)) with rest. rewrite !List.filter_app. cbn [List.filter]. unfold in_channel at 2. cbn [cv_user cv_channel].
  unfold in_channel at 3. cbn [cv_user cv_channel]. rewrite !String.eqb_refl. cbn [andb negb]. split.
  - assert (E : List.filter (in_channel user "gateway") rest = []) by (clear -Hr; induction rest as [|x l IH]; [done|]; cbn; rewrite Hr by (by left); apply IH; intros y Hy; apply Hr; by right).
    by rewrite E.
  - rewrite app_nil_r. clear -Hr. induction rest as [|x l IH]; [done|]. cbn. rewrite Hr by (by left). cbn. f_equal. apply IH. intros y Hy. apply Hr. by right.
Qed.
End Delete.

(** ** Witnesses *)
Definition cm (r c : string) (t : Z) : ConversationMessage := mkMessage 1%N r c t.
Lemma stored_turns_shown_witness :
  build_turns_from_db_messages (fun t => pretty t) ([(cm "user" "2+2?" 1, Some (cm "assistant" "4" 2)); (cm "user" "why?" 3, None)] ≫= uncurry stored_turn)
  = [mkTurnInfo 0 "2+2?" (Some "4"%string) "Completed" "1" (Some "2"%string) []; mkTurnInfo 1 "why?" None "Failed" "3" None []]
  /\ Forall turn_roles [(cm "user" "2+2?" 1, Some (cm "assistant" "4" 2)); (cm "user" "why?" 3, None)].
Proof.
  assert (H : Forall turn_roles [(cm "user" "2+2?" 1, Some (cm "assistant" "4" 2)); (cm "user" "why?" 3, None)]) by (repeat constructor).
  split; [|exact H]. rewrite (stored_turns_shown (fun t => pretty t) _ H). reflexivity.
Defined.
Definition demo_id (s : string) : option Uuid := if String.eqb s "5" then Some 5%N else None.
Definition demo_time (s : string) : option DateTime := if String.eqb s "3" then Some (3 * SECOND) else None.
Definition empty_session (u : string) : Session Json := new_session 1 0 JNull u.
Lemma in_two_turns r : r ∈ rows two_turns -> exists t, mr_created r = sql_now demo_day (t * SECOND) /\ (t * SECOND) / DAY = 0.
Proof.
  intros Hr. cbn [rows two_turns] in Hr. repeat (apply elem_of_cons in Hr as [->|Hr]; [eexists; split; [reflexivity|vm_compute; reflexivity]|]). by apply not_elem_of_nil in Hr.
Qed.
Lemma history_paging_stuck_witness :
  let h := chat_history_handler demo_day demo_time no_parse no_parse (fun t => pretty t) (sort_desc mr_created) demo_id "alice" (Some "5"%string) (Some 2) in
  h (Some "3"%string) (mkChat (Some (empty_session "alice")) (Some two_turns)) = h None (mkChat (Some (empty_session "alice")) (Some two_turns)).
Proof.
  apply (history_paging_stuck demo_day demo_time no_parse no_parse (fun t => pretty t) (sort_desc mr_created) demo_id "alice" "5" 5%N (Some 2) "3" (3 * SECOND));
    [reflexivity|reflexivity|reflexivity| |vm_compute; done].
  intros r Hr _. destruct (in_two_turns r Hr) as (t & H1 & H2). exists (t * SECOND). split; [exact H1|]. rewrite H2. vm_compute. reflexivity.
Defined.
Lemma foreign_history_loaded_witness :
  let sm := mkSM (Value := Json) {["mallory"%string := 1%N]} {[1%N := empty_session "mallory"]} ∅ ∅ in
  let h := chat_history_handler demo_day no_parse no_parse no_parse (fun t => pretty t) (sort_desc mr_created) demo_id "mallory" (Some "5"%string) None None in
  h (mkChat (Some (empty_session "mallory")) (Some two_turns)) = Err (404, "Thread not found"%string)
  /\ exists sess' l, h (mkChat (Some sess') (Some two_turns)) = Ok (mkHistory 5%N l false None).
Proof.
  cbn zeta. destruct (foreign_history_loaded demo_day no_parse no_parse no_parse (fun t => pretty t) (sort_asc mr_created) (sort_desc mr_created) demo_id "mallory"
    (fun i => "5"%string) "telegram" "5" 5%N 1%N 2%N 9 (empty_session "mallory") two_turns (mkSM {["mallory"%string := 1%N]} {[1%N := empty_session "mallory"]} ∅ ∅)) as (H1 & s' & _ & H2);
    [reflexivity|reflexivity|reflexivity|reflexivity|vm_compute; reflexivity|vm_compute; done|].
  split; [exact H1|]. eexists s', _. exact H2.
Defined.
Lemma deleted_thread_gone_witness :
  exists r sess' d', chat_delete_thread_handler demo_day true demo_id "alice" 9%N 0 "5" (mkChat (Some (empty_session "alice")) (Some two_turns)) = (Ok r, mkChat (Some sess') (Some d'))
    /\ del_deleted r = true
    /\ chat_history_handler demo_day no_parse no_parse no_parse (fun t => pretty t) (sort_desc mr_created) demo_id "alice" (Some "5"%string) None None (mkChat (Some sess') (Some d')) = Err (404, "Thread not found"%string).
Proof.
  destruct (deleted_thread_gone demo_day no_parse no_parse no_parse (fun t => pretty t) (sort_desc mr_created) true demo_id "alice" 9%N 0 "5" 5%N None
    (empty_session "alice") two_turns (stamp_at 0 0 20) "late" None) as (r & s & d & H1 & H2 & _ & H3 & _); [reflexivity|done|left; reflexivity| |by exists r, s, d].
  intros c Hc _. cbn [convs two_turns] in Hc. apply elem_of_cons in Hc as [->|Hc]; [reflexivity|]. by apply not_elem_of_nil in Hc.
Defined.
Definition used_today : ConvDb := mkConvDb [mkConv 5%N "gateway" "alice" None (sql_now demo_day 0) (fmt_ts demo_day SECOND) EMPTY] [].
Lemma new_thread_not_listed_witness :
  match persist_new_thread demo_day "alice" 6%N (2 * SECOND) (Some used_today) with
  | Some d' => cs_id <$> last (list_conversations_with_preview no_parse no_parse no_parse (sort_asc mr_created) (sort_desc cv_last) (fun s => s) "alice" "gateway" 50 d') = Some 6%N
  | None => False
  end.
Proof.
  assert (Hu : forall c, c ∈ List.filter (in_channel "alice" "gateway") (convs used_today) -> exists u, cv_last c = fmt_ts demo_day u /\ u / DAY = 2 * SECOND / DAY).
  { intros c [Hc%list_elem_of_In _]%list_elem_of_In%filter_In. apply elem_of_cons in Hc as [->|Hc]; [|by apply not_elem_of_nil in Hc].
    exists SECOND. split; [reflexivity|vm_compute; reflexivity]. }
  pose proof (new_thread_not_listed demo_day no_parse no_parse no_parse (sort_asc mr_created) (sort_desc cv_last) (sort_asc cv_last) (fun s => s) "alice" 6%N (2 * SECOND) used_today
    eq_refl (proj2 (Forall_forall _ _) Hu)) as H.
  cbn [persist_new_thread] in *. destruct H as [_ H]. apply H. apply Nat.ltb_lt. reflexivity.
Defined.
