(* ===== verification/SandboxStore.v ===== *)
(** Sandboxed jobs in the libSQL store: [src/db/libsql/sandbox.rs], with the
    columns of [agent_jobs] it uses and the table [job_events].

    A table is the list of its rows in the order of their insertion; times are
    text as in [Conversations].  The table of jobs also holds the jobs that run
    in the process, whose source is another.  Events have the numbers that
    AUTOINCREMENT gives them. *)

From S2P Require Import Prelude Strs Json Conversations.
#[local] Open Scope claw_scope.

Record SandboxJobRecord := mkSb {
  sj_id : Uuid; sj_task : string; sj_status : string; sj_user : string; sj_dir : string; sj_success : option bool; sj_reason : option string;
  sj_created : DateTime; sj_started : option DateTime; sj_completed : option DateTime; sj_grants : string }.
Record SandboxJobSummary := mkSum { su_total : nat; su_creating : nat; su_running : nat; su_completed : nat; su_failed : nat; su_interrupted : nat }.
Definition empty_summary : SandboxJobSummary := mkSum 0 0 0 0 0 0.
Record JobEventRecord := mkEvent { je_id : Z; je_job : Uuid; je_kind : string; je_data : Json; je_created : DateTime }.
Record JobRow := mkJobRow {
  jr_id : Uuid; jr_source : string; jr_title : string; jr_description : string; jr_status : string; jr_user : string; jr_dir : option string; jr_mode : string;
  jr_success : option bool; jr_reason : option string; jr_created : string; jr_started : option string; jr_completed : option string }.
Record EventRow := mkEventRow { er_id : Z; er_job : Uuid; er_kind : string; er_data : Json; er_created : string }.
Record JobDb := mkJobDb { jobs : list JobRow; events : list EventRow; next_event : Z }.
Definition SANDBOX : string := "sandbox".
Definition is_sandbox (r : JobRow) : bool := String.eqb (jr_source r) SANDBOX.
Definition coalesce {A} (new old : option A) : option A := match new with Some x => Some x | None => old end.

Section Store.
Context (day_text : Z -> string) (parse_rfc3339 parse_naive_frac parse_naive : string -> option DateTime).
Context (by_created : list JobRow -> list JobRow).
Abbreviation stamp := (fmt_ts day_text).
Implicit Types db : JobDb.
(** [get_opt_ts]. *)
Definition get_opt_ts (s : option string) : option DateTime :=
  match s with
  | Some t => if is_empty t then None else match parse_timestamp parse_rfc3339 parse_naive_frac parse_naive t with Ok d => Some d | Err _ => None end
  | None => None
  end.
Definition record_of (r : JobRow) : SandboxJobRecord :=
  mkSb (jr_id r) (jr_title r) (jr_status r) (jr_user r) (default EmptyString (jr_dir r)) (jr_success r) (jr_reason r)
    (get_ts parse_rfc3339 parse_naive_frac parse_naive (jr_created r)) (get_opt_ts (jr_started r)) (get_opt_ts (jr_completed r)) (jr_description r).
Definition row_of_job (j : SandboxJobRecord) : JobRow :=
  mkJobRow (sj_id j) SANDBOX (sj_task j) (sj_grants j) (sj_status j) (sj_user j) (Some (sj_dir j)) "worker" (sj_success j) (sj_reason j)
    (stamp (sj_created j)) (stamp <$> sj_started j) (stamp <$> sj_completed j).
Definition set_state (status : string) (ok : option bool) (reason started completed : option string) (r : JobRow) : JobRow :=
  mkJobRow (jr_id r) (jr_source r) (jr_title r) (jr_description r) status (jr_user r) (jr_dir r) (jr_mode r) ok reason (jr_created r) started completed.
Definition set_mode (m : string) (r : JobRow) : JobRow :=
  mkJobRow (jr_id r) (jr_source r) (jr_title r) (jr_description r) (jr_status r) (jr_user r) (jr_dir r) m (jr_success r) (jr_reason r) (jr_created r) (jr_started r) (jr_completed r).
Definition with_jobs db (l : list JobRow) : JobDb := mkJobDb l (events db) (next_event db).
Definition update_rows (p : JobRow -> bool) (f : JobRow -> JobRow) db : JobDb := with_jobs db (map (fun r => if p r then f r else r) (jobs db)).
Definition has_id (id : Uuid) (r : JobRow) : bool := bool_decide (jr_id r = id).
Definition job_row (id : Uuid) db : option JobRow := List.find (fun r => has_id id r && is_sandbox r) (jobs db).

Definition save_sandbox_job (j : SandboxJobRecord) db : JobDb :=
  let new := row_of_job j in
  if existsb (has_id (sj_id j)) (jobs db)
  then update_rows (has_id (sj_id j)) (set_state (jr_status new) (jr_success new) (jr_reason new) (jr_started new) (jr_completed new)) db
  else with_jobs db (jobs db ++ [new]).
Definition get_sandbox_job (id : Uuid) db : option SandboxJobRecord := record_of <$> job_row id db.
Definition list_sandbox_jobs db : list SandboxJobRecord := map record_of (by_created (List.filter is_sandbox (jobs db))).
Definition update_sandbox_job_status (id : Uuid) (status : string) (ok : option bool) (message : option string) (started completed : option DateTime) db : JobDb :=
  update_rows (fun r => has_id id r && is_sandbox r)
    (fun r => set_state status (coalesce ok (jr_success r)) (coalesce message (jr_reason r)) (coalesce (stamp <$> started) (jr_started r))
                (coalesce (stamp <$> completed) (jr_completed r)) r) db.
Definition is_stale (r : JobRow) : bool := is_sandbox r && existsb (String.eqb (jr_status r)) ["running"; "creating"]%string.
Definition cleanup_stale_sandbox_jobs (now : DateTime) db : nat * JobDb :=
  (length (List.filter is_stale (jobs db)),
   update_rows is_stale (fun r => set_state "interrupted" (jr_success r) (Some "Process restarted"%string) (jr_started r) (Some (stamp now)) r) db).
(** The groups of the query, one row for each status that occurs. *)
Definition count_status (rs : list JobRow) (s : string) : nat := length (List.filter (fun r => String.eqb (jr_status r) s) rs).
Definition groups (rs : list JobRow) : list (string * nat) := map (fun s => (s, count_status rs s)) (remove_dups (map jr_status rs)).
Definition add_group (s : SandboxJobSummary) (g : string * nat) : SandboxJobSummary :=
  let '(st, n) := g in
  let s := mkSum (su_total s + n) (su_creating s) (su_running s) (su_completed s) (su_failed s) (su_interrupted s) in
  if String.eqb st "creating" then mkSum (su_total s) (su_creating s + n) (su_running s) (su_completed s) (su_failed s) (su_interrupted s)
  else if String.eqb st "running" then mkSum (su_total s) (su_creating s) (su_running s + n) (su_completed s) (su_failed s) (su_interrupted s)
  else if String.eqb st "completed" then mkSum (su_total s) (su_creating s) (su_running s) (su_completed s + n) (su_failed s) (su_interrupted s)
  else if String.eqb st "failed" then mkSum (su_total s) (su_creating s) (su_running s) (su_completed s) (su_failed s + n) (su_interrupted s)
  else if String.eqb st "interrupted" then mkSum (su_total s) (su_creating s) (su_running s) (su_completed s) (su_failed s) (su_interrupted s + n)
  else s.
Definition summarize (rs : list JobRow) : SandboxJobSummary := foldl add_group empty_summary (groups rs).
Definition sandbox_job_summary db : SandboxJobSummary := summarize (List.filter is_sandbox (jobs db)).
Definition of_user (user : string) (r : JobRow) : bool := is_sandbox r && String.eqb (jr_user r) user.
Definition list_sandbox_jobs_for_user (user : string) db : list SandboxJobRecord := map record_of (by_created (List.filter (of_user user) (jobs db))).
Definition sandbox_job_summary_for_user (user : string) db : SandboxJobSummary := summarize (List.filter (of_user user) (jobs db)).
Definition sandbox_job_belongs_to_user (id : Uuid) (user : string) db : bool := existsb (fun r => has_id id r && of_user user r) (jobs db).
Definition update_sandbox_job_mode (id : Uuid) (m : string) db : JobDb := update_rows (has_id id) (set_mode m) db.
Definition get_sandbox_job_mode (id : Uuid) db : option string := jr_mode <$> List.find (has_id id) (jobs db).
(** [job_id] references the jobs when foreign keys are enforced. *)
Definition save_job_event (fk : bool) (id : Uuid) (kind : string) (data : Json) (now : DateTime) db : Result unit string * JobDb :=
  if fk && negb (existsb (has_id id) (jobs db)) then (Err "FOREIGN KEY constraint failed"%string, db)
  else (Ok tt, mkJobDb (jobs db) (events db ++ [mkEventRow (next_event db) id kind data (sql_now day_text now)]) (next_event db + 1)).
Definition event_of (r : EventRow) : JobEventRecord :=
  mkEvent (er_id r) (er_job r) (er_kind r) (er_data r) (get_ts parse_rfc3339 parse_naive_frac parse_naive (er_created r)).
(** The order by the primary key is the order of insertion. *)
Definition list_job_events (id : Uuid) (limit : option Z) db : list JobEventRecord :=
  let mine := List.filter (fun r => bool_decide (er_job r = id)) (events db) in
  map event_of (match limit with Some n => rev (sql_limit n (rev mine)) | None => mine end).
End Store.

(** ** Proofs *)
Section Facts.
Context (day_text : Z -> string) (parse_rfc3339 parse_naive_frac parse_naive : string -> option DateTime).
Context (by_created down : list JobRow -> list JobRow) `{!Orders jr_created down by_created}.
Abbreviation stamp := (fmt_ts day_text).
Abbreviation get_job := (get_sandbox_job parse_rfc3339 parse_naive_frac parse_naive).
Implicit Types db : JobDb.
(** The text of a time keeps its milliseconds. *)
Definition floor_ms (t : DateTime) : DateTime := t / 1000000 * 1000000.
Definition readable (t : DateTime) : Prop := parse_rfc3339 (stamp t) = Some (floor_ms t).
Lemma readable_ts t : readable t -> get_ts parse_rfc3339 parse_naive_frac parse_naive (stamp t) = floor_ms t.
Proof. intros H. unfold get_ts, parse_timestamp. by rewrite H. Qed.
Lemma stamp_not_empty t : is_empty (stamp t) = false.
Proof. unfold fmt_ts. by destruct (day_text (t / DAY)). Qed.
Lemma readable_opt_ts t : (forall x, t = Some x -> readable x) -> get_opt_ts parse_rfc3339 parse_naive_frac parse_naive (stamp <$> t) = floor_ms <$> t.
Proof. intros H. destruct t as [t|]; [|done]. cbn. rewrite stamp_not_empty. unfold parse_timestamp. by rewrite (H t eq_refl). Qed.
Definition floored (j : SandboxJobRecord) : SandboxJobRecord :=
  mkSb (sj_id j) (sj_task j) (sj_status j) (sj_user j) (sj_dir j) (sj_success j) (sj_reason j) (floor_ms (sj_created j)) (floor_ms <$> sj_started j)
    (floor_ms <$> sj_completed j) (sj_grants j).
Definition job_times (j : SandboxJobRecord) : list DateTime := sj_created j :: option_list (sj_started j) ++ option_list (sj_completed j).
(** A new job is read back as it was saved, to the millisecond, and the others
    are as they were. *)
Lemma find_update_rows p f id db :
  (forall r, p r = true -> jr_id (f r) = jr_id r /\ jr_source (f r) = jr_source r) ->
  job_row id (update_rows p f db) = (fun r => if p r then f r else r) <$> job_row id db.
Proof.
  intros Hf. unfold job_row, update_rows. cbn. induction (jobs db) as [|r l IH]; [done|]. cbn.
  assert (Hk : has_id id (if p r then f r else r) && is_sandbox (if p r then f r else r) = has_id id r && is_sandbox r).
  { destruct (p r) eqn:E; [|done]. destruct (Hf r E) as [E1 E2]. unfold has_id, is_sandbox. by rewrite E1, E2. }
  rewrite Hk. by destruct (has_id id r && is_sandbox r).
Qed.
Lemma job_row_new id j db : existsb (has_id (sj_id j)) (jobs db) = false ->
  job_row id (save_sandbox_job day_text j db) = if bool_decide (sj_id j = id) then Some (row_of_job day_text j) else job_row id db.
Proof.
  intros Hn. unfold save_sandbox_job. rewrite Hn. unfold job_row. cbn. rewrite find_app_one. cbn. unfold has_id at 2, is_sandbox at 2. cbn.
  rewrite andb_true_r. case_bool_decide as E; [|by destruct (List.find _ _)]. destruct (List.find _ _) as [r|] eqn:Ef; [|done].
  exfalso. apply find_some in Ef as [Hin [Hr _]%andb_true_iff]. subst id.
  assert (existsb (has_id (sj_id j)) (jobs db) = true) by (apply existsb_exists; eauto). congruence.
Qed.
(** C27. A job that is saved under a new id is read back as it was, its times cut to
    the millisecond, and no other job changes. *)
Theorem sandbox_job_roundtrip (j : SandboxJobRecord) db :
  existsb (has_id (sj_id j)) (jobs db) = false -> Forall readable (job_times j) ->
  get_job (sj_id j) (save_sandbox_job day_text j db) = Some (floored j)
  /\ forall id, id <> sj_id j -> get_job id (save_sandbox_job day_text j db) = get_job id db.
Proof.
  intros Hn Ht. unfold get_sandbox_job. rewrite job_row_new, bool_decide_eq_true_2 by done. split.
  - cbn. f_equal. unfold record_of, floored, row_of_job. cbn. unfold job_times in Ht. rewrite Forall_cons, Forall_app in Ht. destruct Ht as (H1 & H2 & H3).
    rewrite readable_ts by done. rewrite !readable_opt_ts; [done|..]; intros x E; [rewrite E in H3; by inversion H3|rewrite E in H2; by inversion H2].
  - intros id Hne. rewrite job_row_new, bool_decide_eq_false_2 by done. done.
Qed.
(** What a change of status leaves: the fields it was not given, the other
    jobs, and who they belong to. *)
Lemma status_row id id' status ok message started completed db :
  job_row id' (update_sandbox_job_status day_text id status ok message started completed db)
  = (fun r => if bool_decide (id' = id)
              then set_state status (coalesce ok (jr_success r)) (coalesce message (jr_reason r)) (coalesce (stamp <$> started) (jr_started r))
                     (coalesce (stamp <$> completed) (jr_completed r)) r
              else r) <$> job_row id' db.
Proof.
  unfold update_sandbox_job_status. rewrite find_update_rows by done. destruct (job_row id' db) as [r|] eqn:E; [|done]. cbn. f_equal.
  unfold job_row in E. apply find_some in E as [_ [H1 H2]%andb_true_iff]. rewrite H2, andb_true_r. unfold has_id in *. apply bool_decide_eq_true in H1. subst id'.
  by case_bool_decide.
Qed.
(** After the clean-up at the start no job is left running or being created,
    the others are as they were, and the count is what was changed. *)
Theorem cleanup_spec (now : DateTime) db :
  let '(n, db') := cleanup_stale_sandbox_jobs day_text now db in
  Forall (fun r => is_stale r = false) (jobs db')
  /\ Forall2 (fun r r' => jr_id r' = jr_id r /\ jr_user r' = jr_user r /\ (is_stale r = false -> r' = r) /\ (is_stale r = true -> jr_status r' = "interrupted"%string)) (jobs db) (jobs db')
  /\ n = length (List.filter is_stale (jobs db))
  /\ (cleanup_stale_sandbox_jobs day_text now db').1 = 0%nat.
Proof.
  unfold cleanup_stale_sandbox_jobs, update_rows. cbn [jobs with_jobs fst].
  assert (H : Forall (fun r => is_stale r = false) (map (fun r => if is_stale r then set_state "interrupted" (jr_success r) (Some "Process restarted"%string) (jr_started r) (Some (stamp now)) r else r) (jobs db))).
  { induction (jobs db) as [|r l IH]; [constructor|]. cbn. constructor; [|exact IH]. destruct (is_stale r) eqn:E; [|done]. unfold is_stale. cbn. by rewrite andb_false_r. }
  split; [exact H|]. split; [|split; [done|]].
  - induction (jobs db) as [|r l IH]; [constructor|]. cbn in H |- *. inversion H; subst. constructor; [|by apply IH]. by destruct (is_stale r).
  - generalize dependent (map (fun r => if is_stale r then set_state "interrupted" (jr_success r) (Some "Process restarted"%string) (jr_started r) (Some (stamp now)) r else r) (jobs db)).
    intros l H. induction H as [|r l Hr _ IH]; [done|]. cbn. by rewrite Hr.
Qed.
(** The newest events, in the order they came. *)
Theorem recent_events_suffix (id : Uuid) (n : nat) db :
  let all := list_job_events parse_rfc3339 parse_naive_frac parse_naive id None db in
  list_job_events parse_rfc3339 parse_naive_frac parse_naive id (Some (Z.of_nat n)) db = drop (length all - n) all.
Proof.
  cbn zeta. unfold list_job_events, sql_limit. set (l := List.filter _ _). replace (Z.of_nat n <? 0) with false by (symmetry; apply Z.ltb_ge; lia).
  rewrite Nat2Z.id, length_map.
  assert (E : rev (take n (rev l)) = drop (length l - n) l).
  { rewrite <-(rev_involutive l) at 3. rewrite <-(length_rev l). generalize (rev l). clear. intros l.
    destruct (decide (n <= length l)%nat) as [H|H].
    - rewrite <-(take_drop n l) at 3. rewrite rev_app_distr. rewrite drop_app_ge by (rewrite length_rev, length_drop; lia).
      rewrite length_rev, length_drop. by replace (length l - n - (length l - n))%nat with 0%nat by lia.
    - rewrite take_ge by lia. by replace (length l - n)%nat with 0%nat by lia. }
  rewrite E. change (map (event_of parse_rfc3339 parse_naive_frac parse_naive)) with (fmap (M := list) (event_of parse_rfc3339 parse_naive_frac parse_naive)). by rewrite fmap_drop.
Qed.
End Facts.

(** ** Proofs: the summary *)
Section Summary.
Definition sum_by (f : string -> nat) (l : list string) : nat := foldr (fun s n => (f s + n)%nat) 0%nat l.
Lemma sum_by_add f g l : (sum_by (fun s => f s + g s) l = sum_by f l + sum_by g l)%nat.
Proof. induction l as [|s l IH]; [done|]. cbn. unfold sum_by in IH. rewrite IH. lia. Qed.
Lemma sum_by_ext f g l : (forall s, s ∈ l -> f s = g s) -> sum_by f l = sum_by g l.
Proof. induction l as [|s l IH]; intros H; [done|]. cbn. rewrite H by (by left). f_equal. apply IH. intros; apply H; by right. Qed.
Lemma sum_by_zero l : sum_by (fun _ => 0%nat) l = 0%nat.
Proof. by induction l. Qed.
(** The one that is asked for counts once in a list without repetitions. *)
Lemma sum_by_one k n l : NoDup l -> sum_by (fun s => if String.eqb s k then n else 0%nat) l = if bool_decide (k ∈ l) then n else 0%nat.
Proof.
  induction 1 as [|s l Hs Hl IH]; [done|]. cbn. unfold sum_by in IH. rewrite IH. destruct (String.eqb_spec s k) as [->|Hne].
  - rewrite (bool_decide_eq_true_2 (k ∈ k :: l)) by (by left). rewrite bool_decide_eq_false_2 by done. lia.
  - rewrite (bool_decide_ext (k ∈ s :: l) (k ∈ l)); [done|]. rewrite elem_of_cons. split; [intros [->|?]; done|by right].
Qed.
Lemma count_cons r rs s : count_status (r :: rs) s = ((if String.eqb s (jr_status r) then 1 else 0) + count_status rs s)%nat.
Proof. unfold count_status. cbn. rewrite String.eqb_sym. by destruct (String.eqb s (jr_status r)). Qed.
Lemma counts_total rs l : NoDup l -> (forall r, r ∈ rs -> jr_status r ∈ l) -> sum_by (count_status rs) l = length rs.
Proof.
  intros Hl. induction rs as [|r rs IH]; intros H.
  - apply (sum_by_zero l).
  - rewrite (sum_by_ext _ (fun s => (if String.eqb s (jr_status r) then 1 else 0) + count_status rs s)%nat) by (intros; apply count_cons).
    rewrite sum_by_add, sum_by_one by done. rewrite bool_decide_eq_true_2 by (apply H; by left). rewrite IH; [done|]. intros r' Hr. apply H. by right.
Qed.
Lemma count_absent rs k : k ∉ map jr_status rs -> count_status rs k = 0%nat.
Proof.
  induction rs as [|r rs IH]; [done|]. cbn [map]. rewrite not_elem_of_cons, count_cons. intros [Hne H]. rewrite IH by done.
  by rewrite (proj2 (String.eqb_neq _ _)).
Qed.
Lemma field_fold (field : SandboxJobSummary -> nat) k (f : string -> nat) l a :
  (forall a s n, field (add_group a (s, n)) = field a + (if String.eqb s k then n else 0))%nat ->
  field (foldl add_group a (map (fun s => (s, f s)) l)) = (field a + sum_by (fun s => if String.eqb s k then f s else 0%nat) l)%nat.
Proof. intros H. revert a. induction l as [|s l IH]; intros a; cbn [map foldl sum_by foldr]; [lia|]. rewrite IH, H. unfold sum_by. lia. Qed.
Lemma total_fold (f : string -> nat) l a : su_total (foldl add_group a (map (fun s => (s, f s)) l)) = (su_total a + sum_by f l)%nat.
Proof.
  revert a. induction l as [|s l IH]; intros a; cbn [map foldl sum_by foldr]; [lia|]. rewrite IH.
  assert (E : su_total (add_group a (s, f s)) = (su_total a + f s)%nat) by (unfold add_group; repeat case_match; done). rewrite E. unfold sum_by. lia.
Qed.
Lemma field_spec (field : SandboxJobSummary -> nat) k rs : field empty_summary = 0%nat ->
  (forall a s n, field (add_group a (s, n)) = field a + (if String.eqb s k then n else 0))%nat -> field (summarize rs) = count_status rs k.
Proof.
  intros H0 H. unfold summarize, groups. rewrite (field_fold field k) by done. rewrite H0.
  rewrite (sum_by_ext _ (fun s => if String.eqb s k then count_status rs k else 0%nat)) by (intros s _; destruct (String.eqb_spec s k) as [->|]; done).
  rewrite sum_by_one by apply NoDup_remove_dups. case_bool_decide as Hk; [lia|]. rewrite elem_of_remove_dups in Hk. by rewrite count_absent.
Qed.
(** The summary counts every job once in its total and once in the class of
    its status. *)
Theorem summary_spec (rs : list JobRow) :
  summarize rs = mkSum (length rs) (count_status rs "creating") (count_status rs "running") (count_status rs "completed") (count_status rs "failed") (count_status rs "interrupted").
Proof.
  assert (Ht : su_total (summarize rs) = length rs).
  { unfold summarize, groups. rewrite total_fold. cbn [su_total empty_summary]. rewrite counts_total; [done|apply NoDup_remove_dups|].
    intros r Hr. rewrite elem_of_remove_dups. apply list_elem_of_fmap. by exists r. }
  assert (E : forall s, s = mkSum (su_total s) (su_creating s) (su_running s) (su_completed s) (su_failed s) (su_interrupted s)) by (by intros []).
  rewrite (E (summarize rs)), Ht. clear E Ht.
  assert (Hf : forall (a : SandboxJobSummary) (s : string) n,
    (su_creating (add_group a (s, n)) = su_creating a + (if String.eqb s "creating" then n else 0)
    /\ su_running (add_group a (s, n)) = su_running a + (if String.eqb s "running" then n else 0)
    /\ su_completed (add_group a (s, n)) = su_completed a + (if String.eqb s "completed" then n else 0)
    /\ su_failed (add_group a (s, n)) = su_failed a + (if String.eqb s "failed" then n else 0)
    /\ su_interrupted (add_group a (s, n)) = su_interrupted a + (if String.eqb s "interrupted" then n else 0))%nat).
  { intros a s n. unfold add_group. cbn. 
    repeat match goal with |- context [String.eqb s ?k] => destruct (String.eqb_spec s k); [subst s; cbn; lia|] end. cbn. lia. }
  f_equal; apply field_spec; try done; intros a s n; destruct (Hf a s n) as (H1 & H2 & H3 & H4 & H5); done.
Qed.
End Summary.

(** ** Witnesses *)
Definition demo_job : SandboxJobRecord := mkSb 7 "build it" "creating" "me" "/p/7" None None (3 * SECOND) None None "[]".
Definition demo_rfc (s : string) : option DateTime := if String.eqb s (fmt_ts demo_day (3 * SECOND)) then Some (3 * SECOND) else None.
Lemma sandbox_job_roundtrip_witness :
  get_sandbox_job demo_rfc no_parse no_parse 7 (save_sandbox_job demo_day demo_job (mkJobDb [] [] 1)) = Some demo_job.
Proof.
  destruct (sandbox_job_roundtrip demo_day demo_rfc no_parse no_parse demo_job (mkJobDb [] [] 1)) as [H _]; [reflexivity| |exact H].
  repeat constructor.
Defined.
