(* ===== verification/GatewayJobs.v ===== *)
(** Sandboxed jobs in the web gateway: the handlers of [/api/jobs] and of
    [/projects] in [src/channels/web/server.rs], over the store of
    [SandboxStore], the container manager of [Containers] and the file system
    of [Files].

    The state is the store, the manager and the queues of prompts, each [None]
    when the gateway was built without it. *)

From Stdlib Require Import Ascii.
From S2P Require Import Prelude Strs Json Llm Skills Tool Files Containers OrchestratorApi JobTools Conversations Gateway SandboxStore.
#[local] Open Scope claw_scope.

Record JobInfo := mkJobInfo { ji_id : Uuid; ji_title : string; ji_state : string; ji_user : string; ji_created : string; ji_started : option string }.
Record TransitionInfo := mkTransition { tr_from : string; tr_to : string; tr_time : string; tr_reason : option string }.
Record JobSummaryResponse := mkJobSummary { js_total : nat; js_pending : nat; js_in_progress : nat; js_completed : nat; js_failed : nat; js_stuck : nat }.
Record JobDetailResponse := mkDetail {
  jd_id : Uuid; jd_title : string; jd_state : string; jd_user : string; jd_created : string; jd_started : option string; jd_completed : option string;
  jd_elapsed : option Z; jd_dir : string; jd_browse : string; jd_mode : option string; jd_transitions : list TransitionInfo }.
Inductive JobAnswer :=
| Started (id : Uuid) (mode : string) | CancelledJob (id : Uuid) | Restarted (old new : Uuid) | Queued (id : Uuid).
Record ProjectFileEntry := mkFileEntry { pf_name : string; pf_path : string; pf_dir : bool }.
Record JState {D : Type} := mkJ { j_db : option JobDb; j_jm : option (JobManager D); j_prompts : option (gmap Uuid (list PendingPrompt)) }.
Arguments JState D : clear implicits.
Definition no_database {A} : Answer A := Err (503, "Database not available"%string).
Definition no_sandbox {A} : Answer A := Err (503, "Sandbox not enabled"%string).
Definition bad_job_id {A} : Answer A := Err (400, "Invalid job ID"%string).
Definition job_not_found {A} : Answer A := Err (404, "Job not found"%string).

Definition ui_state (status : string) : string :=
  if String.eqb status "creating" then "pending" else if String.eqb status "running" then "in_progress" else status.
(** [sort_by] is stable. *)
Fixpoint insert_newest (x : JobInfo) (l : list JobInfo) : list JobInfo :=
  match l with [] => [x] | y :: l => if String.ltb (ji_created x) (ji_created y) then y :: insert_newest x l else x :: y :: l end.
Definition newest_first (l : list JobInfo) : list JobInfo := foldr insert_newest [] l.
Definition sanitize_char (c : ascii) : string :=
  if Skills.name_char c then String c EmptyString
  else if (128 <=? Z.of_nat (nat_of_ascii c)) && (Z.of_nat (nat_of_ascii c) <? 192) then EmptyString else "_".
Fixpoint sanitize_chars (s : string) : string := match s with EmptyString => EmptyString | String c s => sanitize_char c ++s sanitize_chars s end.
Definition sanitize_download_name (raw : string) : string := let c := sanitize_chars raw in if is_empty c then "download" else c.

Section Handlers.
Context {D : Type} (docker : DockerOps D) (config : ContainerJobConfig) (linux : bool) (home_dir : option Path) (opencode_model : option string).
Context (io_show : IoError -> string) (uuid_show : Uuid -> string) (uuid_parse : string -> option Uuid) (to_rfc3339 : DateTime -> string).
Context (day_text : Z -> string) (parse_rfc3339 parse_naive_frac parse_naive : string -> option DateTime) (by_created : list JobRow -> list JobRow).
Context (grants_of_json : string -> Result (list CredentialGrant) string) (user : string).
Abbreviation State := (JState D).
Abbreviation create := (create_job docker config linux home_dir opencode_model io_show uuid_show).
Abbreviation job_of := (get_sandbox_job parse_rfc3339 parse_naive_frac parse_naive).
Abbreviation set_status := (update_sandbox_job_status day_text).
Definition set_db (d : JobDb) (st : State) : State := mkJ _ (Some d) (j_jm st) (j_prompts st).
Definition set_jm (m : JobManager D) (st : State) : State := mkJ _ (j_db st) (Some m) (j_prompts st).

Definition job_info (j : SandboxJobRecord) : JobInfo :=
  mkJobInfo (sj_id j) (sj_task j) (ui_state (sj_status j)) (sj_user j) (to_rfc3339 (sj_created j)) (to_rfc3339 <$> sj_started j).
Definition jobs_list_handler (st : State) : Answer (list JobInfo) :=
  match j_db st with
  | None => no_database
  | Some d => Ok (newest_first (map job_info (List.filter (fun j => String.eqb (sj_user j) user)
                (list_sandbox_jobs_for_user parse_rfc3339 parse_naive_frac parse_naive by_created user d))))
  end.
Definition jobs_summary_handler (st : State) : Answer JobSummaryResponse :=
  match j_db st with
  | None => no_database
  | Some d => let s := sandbox_job_summary_for_user user d in
              Ok (mkJobSummary (su_total s) (su_creating s) (su_running s) (su_completed s) (su_failed s + su_interrupted s) 0)
  end.
Definition parse_mode (m : option string) : Answer JobMode :=
  let m := default "worker"%string m in
  if String.eqb m "worker" then Ok Worker else if String.eqb m "claude_code" then Ok ClaudeCode else if String.eqb m "opencode" then Ok OpenCode
  else Err (400, "invalid mode '" ++s m ++s "'")%string.
Definition project_of (id : Uuid) : Path := join (projects_base home_dir) [Normal (uuid_show id)].
Definition container_failed {A} (e : OrchestratorError) : Answer A := Err (500, "Failed to create container: " ++s orchestrator_error_display uuid_show e)%string.
(** The container of a saved job, and the status it gets when it runs. *)
Definition launch_saved (bytes : list Z) (created now : DateTime) (id : Uuid) (task : string) (dir : Path) (md : JobMode) (grants : list CredentialGrant)
    (ok : JobAnswer) (d : JobDb) (m : JobManager D) (st : State) : Answer JobAnswer * State :=
  match create bytes created id task (Some dir) md grants m with
  | (Err e, m) => (container_failed e, set_jm m (set_db d st))
  | (Ok _, m) => (Ok ok, set_jm m (set_db (set_status id "running" None None (Some now) None d) st))
  end.
Definition jobs_create_handler (id : Uuid) (bytes : list Z) (now created : DateTime) (task : string) (mode : option string) (st : State) : Answer JobAnswer * State :=
  let task := trim task in
  if is_empty task then (Err (400, "task is required"%string), st)
  else match j_db st, j_jm st with
  | None, _ => (no_database, st)
  | Some _, None => (no_sandbox, st)
  | Some d, Some m =>
      match parse_mode mode with
      | Err e => (Err e, st)
      | Ok md =>
          let dir := project_of id in
          match create_dir_all (length dir) (fs m) dir with
          | (Err x, e) => (Err (500, "Failed to create project dir: " ++s io_show x)%string, set_jm (with_fs e m) st)
          | (Ok _, e) =>
              let d := save_sandbox_job day_text (mkSb id task "creating" user (path_display dir) None None now None None "[]") d in
              let d := if bool_decide (md = Worker) then d else update_sandbox_job_mode id (job_mode_as_str md) d in
              launch_saved bytes created now id task dir md [] (Started id (job_mode_as_str md)) d (with_fs e m) st
          end
      end
  end.
Definition elapsed (now : DateTime) (j : SandboxJobRecord) : option Z :=
  (fun start => Z.quot (default now (sj_completed j) - start) 1000000000 `max` 0) <$> sj_started j.
Definition transitions (j : SandboxJobRecord) : list TransitionInfo :=
  match sj_started j with Some t => [mkTransition "creating" "running" (to_rfc3339 t) None] | None => [] end
  ++ match sj_completed j with Some t => [mkTransition "running" (sj_status j) (to_rfc3339 t) (sj_reason j)] | None => [] end.
(** A job of the user, and the refusals of the others. *)
Definition own_job {A} (id : string) (st : State) (k : Uuid -> SandboxJobRecord -> JobDb -> Answer A * State) : Answer A * State :=
  match uuid_parse id with
  | None => (bad_job_id, st)
  | Some i =>
      match j_db st with
      | None => (job_not_found, st)
      | Some d => match job_of i d with
                  | None => (job_not_found, st)
                  | Some j => if String.eqb (sj_user j) user then k i j d else (job_not_found, st)
                  end
      end
  end.
Definition jobs_detail_handler (now : DateTime) (id : string) (st : State) : Answer JobDetailResponse :=
  (own_job id st (fun i j d =>
    (Ok (mkDetail (sj_id j) (sj_task j) (ui_state (sj_status j)) (sj_user j) (to_rfc3339 (sj_created j)) (to_rfc3339 <$> sj_started j) (to_rfc3339 <$> sj_completed j)
          (elapsed now j) (sj_dir j) ("/projects/" ++s default (uuid_show (sj_id j)) (file_name (components (sj_dir j))) ++s "/")
          (match get_sandbox_job_mode (sj_id j) d with Some m => if String.eqb m "worker" then None else Some m | None => None end) (transitions j)), st))).1.
Definition jobs_cancel_handler (now : DateTime) (id : string) (st : State) : Answer JobAnswer * State :=
  own_job id st (fun i j d =>
    if String.eqb (sj_status j) "running" || String.eqb (sj_status j) "creating" then
      let st := match j_jm st with Some m => set_jm (stop_job docker i m).2 st | None => st end in
      (Ok (CancelledJob i), set_db (set_status i "failed" (Some false) (Some "Cancelled by user"%string) None (Some now) d) st)
    else (Ok (CancelledJob i), st)).
Definition restart_mode (id : Uuid) (d : JobDb) : JobMode :=
  match get_sandbox_job_mode id d with
  | Some m => if String.eqb m "claude_code" then ClaudeCode else if String.eqb m "opencode" then OpenCode else Worker
  | None => Worker
  end.
Definition stored_grants (j : SandboxJobRecord) : list CredentialGrant := match grants_of_json (sj_grants j) with Ok g => g | Err _ => [] end.
Definition jobs_restart_handler (new : Uuid) (bytes : list Z) (now created : DateTime) (id : string) (st : State) : Answer JobAnswer * State :=
  match j_db st, j_jm st with
  | None, _ => (no_database, st)
  | Some _, None => (no_sandbox, st)
  | Some _, Some m =>
      own_job id st (fun old j d =>
        if negb (String.eqb (sj_status j) "interrupted") && negb (String.eqb (sj_status j) "failed")
        then (Err (409, "Cannot restart job in state '" ++s sj_status j ++s "'")%string, st)
        else
          let d := save_sandbox_job day_text (mkSb new (sj_task j) "creating" (sj_user j) (sj_dir j) None None now None None (sj_grants j)) d in
          launch_saved bytes created now new (sj_task j) (components (sj_dir j)) (restart_mode old d) (stored_grants j) (Restarted old new) d m st)
  end.
Definition jobs_prompt_handler (id : string) (body : Json) (st : State) : Answer JobAnswer * State :=
  match j_prompts st with
  | None => (Err (501, "Claude Code not configured"%string), st)
  | Some q =>
      match uuid_parse id with
      | None => (bad_job_id, st)
      | Some i =>
          if match j_db st with Some d => negb (sandbox_job_belongs_to_user i user d) | None => false end then (job_not_found, st)
          else match get_str "content" body with
               | None => (Err (400, "Missing 'content' field"%string), st)
               | Some c => (Ok (Queued i), mkJ _ (j_db st) (j_jm st) (Some (push_prompt i (mkPrompt c (default false (get_bool "done" body))) q)))
               end
      end
  end.
Definition jobs_events_handler (id : string) (st : State) : Answer (list JobEventRecord) :=
  match j_db st with
  | None => Err (501, "Database not available"%string)
  | Some d =>
      match uuid_parse id with
      | None => bad_job_id
      | Some i => if sandbox_job_belongs_to_user i user d then Ok (list_job_events parse_rfc3339 parse_naive_frac parse_naive i None d) else job_not_found
      end
  end.

(** ** Files.  [e] is the file system the gateway sees. *)
Definition inside (e : Env) (base target : Path) (missing : string) : Answer Path :=
  match canonicalize e target with
  | None => Err (404, missing)
  | Some c => match canonicalize e base with
              | None => Err (404, "Project dir not found"%string)
              | Some b => if path_starts_with c b then Ok c else Err (403, "Forbidden"%string)
              end
  end.
Definition job_file (e : Env) {A} (id : string) (st : State) (k : Uuid -> SandboxJobRecord -> Answer A) : Answer A :=
  match j_db st with None => no_database | Some _ => (own_job id st (fun i j _ => (k i j, st))).1 end.
(** The entries of a directory as the system lists them: name and whether the entry is a directory. *)
Context (read_dir : Env -> Path -> option (list (string * bool))) (archive : Env -> Path -> Answer string).
Definition file_entry (rel : string) (x : string * bool) : ProjectFileEntry :=
  mkFileEntry x.1 (if is_empty rel then x.1 else rel ++s "/" ++s x.1) x.2.
Definition entry_before (a b : ProjectFileEntry) : bool :=
  if Bool.eqb (pf_dir a) (pf_dir b) then negb (String.ltb (pf_name b) (pf_name a)) else pf_dir a.
Fixpoint insert_file (x : ProjectFileEntry) (l : list ProjectFileEntry) : list ProjectFileEntry :=
  match l with [] => [x] | y :: l => if entry_before x y then x :: y :: l else y :: insert_file x l end.
Definition job_files_list_handler (e : Env) (id : string) (path : option string) (st : State) : Answer (list ProjectFileEntry) :=
  job_file e id st (fun i j =>
    let rel := default EmptyString path in
    match inside e (components (sj_dir j)) (join (components (sj_dir j)) (components rel)) "Path not found" with
    | Err x => Err x
    | Ok c => match read_dir e c with
              | None => Err (404, "Cannot read directory"%string)
              | Some xs => Ok (foldr insert_file [] (map (file_entry rel) xs))
              end
    end).
Definition job_files_read_handler (e : Env) (id : string) (path : option string) (st : State) : Answer (string * string) :=
  job_file e id st (fun i j =>
    match path with
    | None => Err (400, "path parameter required"%string)
    | Some p => match inside e (components (sj_dir j)) (join (components (sj_dir j)) (components p)) "File not found" with
                | Err x => Err x
                | Ok c => match read_to_string e c with Ok t => Ok (p, t) | Err _ => Err (404, "Cannot read file"%string) end
                end
    end).
Fixpoint separators_to_underscores (s : string) : string :=
  match s with
  | EmptyString => EmptyString
  | String c s => String (if Ascii.eqb c "/"%char || Ascii.eqb c "\"%char then "_"%char else c) (separators_to_underscores s)
  end.
Definition job_files_download_handler (e : Env) (id : string) (path : option string) (st : State) : Answer (string * string) :=
  job_file e id st (fun i j =>
    let rel := default EmptyString path in
    match inside e (components (sj_dir j)) (join (components (sj_dir j)) (components rel)) "Path not found" with
    | Err x => Err x
    | Ok c => match archive e c with
              | Err x => Err x
              | Ok bytes => Ok (sanitize_download_name (if is_empty rel then "job-" ++s uuid_show i else separators_to_underscores rel) ++s ".tar.gz", bytes)%string
              end
    end).
(** [/projects]: the project is named by the directory, whoever owns the job. *)
Definition bad_project_id (p : string) : bool := contains_char p "/"%char || contains_char p "\"%char || str_contains p ".." || is_empty p.
Definition serve_project_file (e : Env) (project path : string) : Answer string :=
  if bad_project_id project then Err (400, "Invalid project ID"%string)
  else
    let base := join (projects_base home_dir) (components project) in
    match inside e base (join base (components path)) "Not found" with
    | Err (403, _) => Err (403, "Forbidden"%string)
    | Err _ => Err (404, "Not found"%string)
    | Ok c => match read_to_string e c with Ok t => Ok t | Err _ => Err (404, "Not found"%string) end
    end.
Definition project_index_handler (e : Env) (project : string) : Answer string := serve_project_file e project "index.html".
Definition project_file_handler (e : Env) (project path : string) : Answer string := serve_project_file e project path.
Definition project_redirect_handler (project : string) : string := "/projects/" ++s project ++s "/".
End Handlers.

(** ** Proofs *)
Section Facts.
Context {D : Type} (docker : DockerOps D) (config : ContainerJobConfig) (linux : bool) (home_dir : option Path) (opencode_model : option string).
Context (io_show : IoError -> string) (uuid_show : Uuid -> string) (uuid_parse : string -> option Uuid) (to_rfc3339 : DateTime -> string).
Context (day_text : Z -> string) (parse_rfc3339 parse_naive_frac parse_naive : string -> option DateTime) (by_created : list JobRow -> list JobRow).
Context (grants_of_json : string -> Result (list CredentialGrant) string) (user : string).
Context (read_dir : Env -> Path -> option (list (string * bool))) (archive : Env -> Path -> Answer string).
Abbreviation create := (create_job docker config linux home_dir opencode_model io_show uuid_show).
Abbreviation job_of := (get_sandbox_job parse_rfc3339 parse_naive_frac parse_naive).
Abbreviation detail := (jobs_detail_handler uuid_show uuid_parse to_rfc3339 parse_rfc3339 parse_naive_frac parse_naive user).
Abbreviation cancel := (jobs_cancel_handler docker uuid_parse day_text parse_rfc3339 parse_naive_frac parse_naive user).
Abbreviation restart := (jobs_restart_handler docker config linux home_dir opencode_model io_show uuid_show uuid_parse day_text parse_rfc3339 parse_naive_frac parse_naive grants_of_json user).
Abbreviation create_handler := (jobs_create_handler docker config linux home_dir opencode_model io_show uuid_show day_text user).
Abbreviation prompt := (jobs_prompt_handler (D := D) uuid_parse user).
Abbreviation events_of := (jobs_events_handler (D := D) uuid_parse parse_rfc3339 parse_naive_frac parse_naive user).
Abbreviation read_file := (job_files_read_handler (D := D) uuid_parse parse_rfc3339 parse_naive_frac parse_naive user).
Abbreviation list_files := (job_files_list_handler (D := D) uuid_parse parse_rfc3339 parse_naive_frac parse_naive user read_dir).
Abbreviation download := (job_files_download_handler (D := D) uuid_show uuid_parse parse_rfc3339 parse_naive_frac parse_naive user archive).
Lemma belongs_row id d : sandbox_job_belongs_to_user id user d = true -> exists r, r ∈ jobs d /\ has_id id r = true /\ is_sandbox r = true /\ jr_user r = user.
Proof.
  unfold sandbox_job_belongs_to_user. intros (r & Hr%list_elem_of_In & H)%existsb_exists. apply andb_true_iff in H as [H1 [H2 H3%String.eqb_eq]%andb_true_iff]. eauto.
Qed.
(** C14. A job of another user, or none at all: with a store and a manager every
    handler of a single job answers that there is none and changes nothing. *)
Theorem gateway_foreign_jobs_refused (now created : DateTime) (new : Uuid) (bytes : list Z) (id : string) (i : Uuid) (body : Json) (e : Env) (path : option string) (d : JobDb) (m : JobManager D) (q : gmap Uuid (list PendingPrompt)) :
  let st := mkJ _ (Some d) (Some m) (Some q) in
  uuid_parse id = Some i -> (forall r, r ∈ jobs d -> has_id i r = true -> is_sandbox r = true -> jr_user r <> user) ->
  detail now id st = job_not_found /\ cancel now id st = (job_not_found, st) /\ restart new bytes now created id st = (job_not_found, st)
  /\ prompt id body st = (job_not_found, st) /\ events_of id st = job_not_found
  /\ read_file e id path st = job_not_found /\ list_files e id path st = job_not_found /\ download e id path st = job_not_found.
Proof.
  cbn zeta. intros Hi Hr.
  assert (Hb : sandbox_job_belongs_to_user i user d = false).
  { apply not_true_iff_false. intros (r & H1 & H2 & H3 & H4)%belongs_row. by apply (Hr r). }
  assert (Ho : forall A (k : Uuid -> SandboxJobRecord -> JobDb -> Answer A * JState D),
    own_job uuid_parse parse_rfc3339 parse_naive_frac parse_naive user id (mkJ _ (Some d) (Some m) (Some q)) k = (job_not_found, mkJ _ (Some d) (Some m) (Some q))).
  { intros A k. unfold own_job. rewrite Hi. cbn. unfold get_sandbox_job. destruct (job_row i d) as [r|] eqn:E; [|done]. cbn.
    unfold job_row in E. apply find_some in E as [Hin%list_elem_of_In [H1 H2]%andb_true_iff]. by rewrite (proj2 (String.eqb_neq _ _)) by by apply Hr. }
  unfold jobs_detail_handler, jobs_cancel_handler, jobs_restart_handler, jobs_prompt_handler, jobs_events_handler, job_files_read_handler, job_files_list_handler, job_files_download_handler, job_file.
  rewrite !Ho. cbn. by rewrite Hi, Hb.
Qed.
(** Cancelling: a job that runs or is being created is recorded as failed,
    even when its container could not be stopped; any other keeps its state,
    and the answer is the same. *)
Theorem cancel_spec (now : DateTime) (id : string) (i : Uuid) (j : SandboxJobRecord) (d : JobDb) (m : JobManager D) q :
  uuid_parse id = Some i -> job_of i d = Some j -> sj_user j = user ->
  let live := String.eqb (sj_status j) "running" || String.eqb (sj_status j) "creating" in
  exists st', cancel now id (mkJ _ (Some d) (Some m) q) = (Ok (CancelledJob i), st')
    /\ j_prompts st' = q
    /\ (live = false -> st' = mkJ _ (Some d) (Some m) q)
    /\ (live = true -> j_jm st' = Some (stop_job docker i m).2
          /\ exists d' j', j_db st' = Some d' /\ job_of i d' = Some j' /\ sj_status j' = "failed"%string /\ sj_success j' = Some false
             /\ sj_reason j' = Some "Cancelled by user"%string /\ sj_dir j' = sj_dir j /\ sj_user j' = user).
Proof.
  intros Hi Hj Hu. cbn zeta. unfold jobs_cancel_handler, own_job. rewrite Hi. cbn [j_db j_jm]. rewrite Hj, Hu, String.eqb_refl.
  destruct (String.eqb (sj_status j) "running" || String.eqb (sj_status j) "creating"); eexists; (split; [reflexivity|]); (split; [done|]); (split; [done|]); [|done].
  intros _. split; [done|]. eexists. cbn [j_db set_db]. unfold get_sandbox_job in *. destruct (job_row i d) as [r|] eqn:E; [|done]. cbn in Hj. injection Hj as <-.
  eexists. split; [reflexivity|]. rewrite status_row, E. cbn. rewrite bool_decide_eq_true_2 by done. split; [reflexivity|]. by cbn in *.
Qed.
Lemma new_id_free d id i j : existsb (has_id (sj_id j)) (jobs d) = false -> has_id i id = true -> id ∈ jobs d -> sj_id j <> i.
Proof.
  intros H Hi Hin <-. assert (existsb (has_id (sj_id j)) (jobs d) = true); [|congruence]. apply existsb_exists. exists id. by rewrite <-list_elem_of_In.
Qed.
(** A create that cannot start its container leaves the job behind as being
    created, for good: it shows as pending and cannot be restarted. *)
Theorem failed_create_stays_creating (id new : Uuid) (bytes : list Z) (now created : DateTime) (task text : string) (d : JobDb) (m : JobManager D) q (e : OrchestratorError) (m' : JobManager D) (env : Env) u :
  trim task <> EmptyString -> existsb (has_id id) (jobs d) = false -> uuid_parse text = Some id ->
  create_dir_all (length (project_of home_dir uuid_show id)) (fs m) (project_of home_dir uuid_show id) = (Ok u, env) ->
  create bytes created id (trim task) (Some (project_of home_dir uuid_show id)) Worker [] (with_fs env m) = (Err e, m') ->
  exists d', create_handler id bytes now created task None (mkJ _ (Some d) (Some m) q) = (container_failed uuid_show e, mkJ _ (Some d') (Some m') q)
    /\ (exists j, job_of id d' = Some j /\ sj_status j = "creating"%string /\ sj_user j = user)
    /\ restart new bytes now created text (mkJ _ (Some d') (Some m') q) = (Err (409, "Cannot restart job in state 'creating'"%string), mkJ _ (Some d') (Some m') q).
Proof.
  intros Ht Hn Hp Hd Hc. unfold jobs_create_handler. destruct (is_empty (trim task)) eqn:Em; [by destruct (trim task)|]. cbn [j_db j_jm].
  change (parse_mode None) with (Ok (A := JobMode) (E := Z * string) Worker). cbn iota. rewrite Hd. cbn iota. rewrite bool_decide_eq_true_2 by done. unfold launch_saved. rewrite Hc. eexists. split; [reflexivity|].
  set (j := mkSb id (trim task) "creating" user _ None None now None None "[]").
  assert (Hr : job_row id (save_sandbox_job day_text j d) = Some (row_of_job day_text j)) by (rewrite job_row_new, bool_decide_eq_true_2; done).
  unfold get_sandbox_job. rewrite Hr. split; [by eexists|].
  unfold jobs_restart_handler, own_job. cbn [j_db j_jm set_db set_jm]. rewrite Hp. unfold get_sandbox_job. rewrite Hr. cbn. by rewrite String.eqb_refl.
Qed.
Lemma mode_of_status id id' status ok message started completed d :
  get_sandbox_job_mode id (update_sandbox_job_status day_text id' status ok message started completed d) = get_sandbox_job_mode id d.
Proof.
  unfold get_sandbox_job_mode, update_sandbox_job_status, update_rows. cbn. induction (jobs d) as [|r l IH]; [done|]. cbn.
  destruct (has_id id r) eqn:E, (has_id id' r && is_sandbox r); unfold has_id in *; cbn; rewrite E; done.
Qed.
Lemma mode_of_new id j d : existsb (has_id (sj_id j)) (jobs d) = false ->
  get_sandbox_job_mode id (save_sandbox_job day_text j d) = if bool_decide (sj_id j = id) then Some "worker"%string else get_sandbox_job_mode id d.
Proof.
  intros Hn. unfold get_sandbox_job_mode, save_sandbox_job. rewrite Hn. cbn. rewrite find_app_one. unfold has_id at 2. cbn.
  case_bool_decide as E; [|by destruct (List.find _ _)]. subst id. destruct (List.find _ _) as [x|] eqn:Ef; [|done]. exfalso. apply find_some in Ef as [Hin Hx].
  assert (existsb (has_id (sj_id j)) (jobs d) = true) by (apply existsb_exists; eauto). congruence.
Qed.
(** A restart runs a new job in the same directory with the same task and
    the mode of the old one, and does not record that mode: restarting the new
    job runs it as a plain worker. *)
Theorem restart_forgets_mode (new : Uuid) (bytes : list Z) (now created : DateTime) (id : string) (i : Uuid) (j : SandboxJobRecord) (d : JobDb) (m : JobManager D) q token (m' : JobManager D) :
  uuid_parse id = Some i -> job_of i d = Some j -> sj_user j = user -> sj_status j = "failed"%string \/ sj_status j = "interrupted"%string ->
  existsb (has_id new) (jobs d) = false ->
  create bytes created new (sj_task j) (Some (components (sj_dir j))) (restart_mode i d) (stored_grants grants_of_json j) m = (Ok token, m') ->
  exists d', restart new bytes now created id (mkJ _ (Some d) (Some m) q) = (Ok (Restarted i new), mkJ _ (Some d') (Some m') q)
    /\ restart_mode new d' = Worker
    /\ (exists j', job_of new d' = Some j' /\ sj_status j' = "running"%string /\ sj_task j' = sj_task j /\ sj_dir j' = sj_dir j /\ sj_grants j' = sj_grants j)
    /\ job_of i d' = Some j.
Proof.
  intros Hi Hj Hu Hs Hn Hc. unfold jobs_restart_handler, own_job. cbn [j_db j_jm]. rewrite Hi, Hj, Hu, String.eqb_refl.
  assert (E : negb (String.eqb (sj_status j) "interrupted") && negb (String.eqb (sj_status j) "failed") = false) by (destruct Hs as [-> | ->]; done). rewrite E.
  set (r := mkSb new (sj_task j) "creating" user (sj_dir j) None None now None None (sj_grants j)). set (d1 := save_sandbox_job day_text r d).
  assert (Hne : i <> new).
  { intros ->. unfold get_sandbox_job in Hj. destruct (job_row new d) as [x|] eqn:Ex; [|done]. apply find_some in Ex as [Hin [Hx _]%andb_true_iff].
    assert (existsb (has_id new) (jobs d) = true) by (apply existsb_exists; eauto). congruence. }
  assert (Hm : restart_mode i d1 = restart_mode i d) by (unfold restart_mode, d1; by rewrite mode_of_new, bool_decide_eq_false_2 by (cbn; congruence)).
  rewrite Hm. unfold launch_saved. rewrite Hc. eexists. split; [reflexivity|]. split; [|split].
  - unfold restart_mode. rewrite mode_of_status. unfold d1. rewrite mode_of_new, bool_decide_eq_true_2 by done. done.
  - unfold get_sandbox_job, d1. rewrite status_row, job_row_new by done. cbn [sj_id r]. rewrite !bool_decide_eq_true_2 by done. cbn. eexists. split; [reflexivity|]. done.
  - unfold get_sandbox_job, d1 in *. rewrite status_row, job_row_new by done. cbn [sj_id r]. rewrite !bool_decide_eq_false_2 by congruence. by destruct (job_row i d).
Qed.
(** The guard of [/projects] lets the name of the current directory through:
    as a project it is the directory of all projects. *)
Theorem dot_project_serves_all (e : Env) (path text : string) (b loc : Loc) :
  resolve e (join (projects_base home_dir) (components ".")) = Ok b ->
  resolve e (join (join (projects_base home_dir) (components ".")) (components path)) = Ok loc -> b `prefix_of` loc ->
  read_to_string e (phys loc) = Ok text -> serve_project_file home_dir e "." path = Ok text.
Proof.
  intros Hb Hl Hp Hr. unfold serve_project_file. cbn [bad_project_id]. replace (bad_project_id ".") with false by reflexivity. unfold inside, canonicalize.
  rewrite Hl, Hb. unfold path_starts_with. rewrite bool_decide_eq_true_2 by by apply phys_prefix. by rewrite Hr.
Qed.
Lemma insert_newest_perm x l : Permutation (insert_newest x l) (x :: l).
Proof. induction l as [|y l IH]; [done|]. cbn. destruct (String.ltb _ _); [|done]. rewrite IH. apply Permutation_swap. Qed.
(** The list has the sandboxed jobs of the user and no others. *)
Theorem jobs_list_spec (down : list JobRow -> list JobRow) `{!Orders jr_created down by_created} (d : JobDb) (m : option (JobManager D)) q :
  exists l, jobs_list_handler to_rfc3339 parse_rfc3339 parse_naive_frac parse_naive by_created user (mkJ _ (Some d) m q) = Ok l
    /\ Permutation l (map (fun r => job_info to_rfc3339 (record_of parse_rfc3339 parse_naive_frac parse_naive r)) (List.filter (of_user user) (jobs d))).
Proof.
  eexists. split; [reflexivity|]. unfold newest_first.
  assert (Hs : forall l, Permutation (foldr insert_newest [] l) l) by (induction l as [|x l IH]; [done|]; cbn; by rewrite insert_newest_perm, IH).
  rewrite Hs. unfold list_sandbox_jobs_for_user. set (rs := List.filter (of_user user) (jobs d)).
  assert (Hp : Permutation (by_created rs) rs) by apply desc_perm.
  transitivity (map (fun r => job_info to_rfc3339 (record_of parse_rfc3339 parse_naive_frac parse_naive r)) (by_created rs)); [|by apply Permutation_map].
  assert (Hu : forall r, r ∈ by_created rs -> jr_user r = user).
  { intros r Hr. rewrite Hp in Hr. apply list_elem_of_In, filter_In in Hr as [_ [_ H%String.eqb_eq]%andb_true_iff]. done. }
  revert Hu. generalize (by_created rs). intros l Hu. clear Hs Hp. induction l as [|r l IH]; [done|]. cbn [map List.filter].
  assert (E : sj_user (record_of parse_rfc3339 parse_naive_frac parse_naive r) = user) by (apply Hu; by left). rewrite E, String.eqb_refl. cbn [map].
  rewrite IH; [done|]. intros r' Hr. apply Hu. by right.
Qed.
End Facts.

(** ** Witnesses *)
Definition demo_uuid (s : string) : option Uuid := if String.eqb s "p" then Some 7%N else if String.eqb s "8" then Some 8%N else None.
Definition demo_show (i : Uuid) : string := if bool_decide (i = 7%N) then "p" else "8".
Definition demo_row (user status mode : string) : JobRow :=
  mkJobRow 7 SANDBOX "build" "[]" status user (Some (path_display project)) mode None None (fmt_ts demo_day (3 * SECOND)) None None.
Definition demo_db (user status mode : string) : JobDb := mkJobDb [demo_row user status mode] [] 1.
Definition no_grants (s : string) : Result (list CredentialGrant) string := Ok [].
Definition demo_created : SandboxJobRecord := mkSb 7 "build" "failed" "me" (path_display project) None None 0 None None "[]".
Lemma gateway_foreign_jobs_refused_witness :
  let st := mkJ _ (Some (demo_db "alice" "running" "worker")) (Some demo_jobs) (Some ∅) in
  jobs_cancel_handler (demo_docker true) demo_uuid demo_day no_parse no_parse no_parse "me" 5 "p" st = (job_not_found, st)
  /\ jobs_prompt_handler demo_uuid "me" "p" (JObject [("content"%string, JString "hi")]) st = (job_not_found, st).
Proof.
  cbn zeta. destruct (gateway_foreign_jobs_refused (demo_docker true) (default_job_config []) true (Some demo_home) None (fun _ => EmptyString) demo_show demo_uuid (fun t => pretty t)
    demo_day no_parse no_parse no_parse no_grants "me" (fun _ _ => None) (fun _ _ => Err (500, EmptyString)) 5 6 8%N sevens "p" 7%N
    (JObject [("content"%string, JString "hi")]) (mkEnv demo_fs []) None (demo_db "alice" "running" "worker") demo_jobs ∅) as (_ & H1 & _ & H2 & _); [reflexivity| |by split].
  intros r Hr _ _. apply elem_of_cons in Hr as [->|Hr]; [done|by apply not_elem_of_nil in Hr].
Defined.
Lemma cancel_spec_witness :
  exists st', jobs_cancel_handler (demo_docker true) demo_uuid demo_day no_parse no_parse no_parse "me" 5 "p" (mkJ _ (Some (demo_db "me" "completed" "worker")) (Some demo_jobs) None)
    = (Ok (CancelledJob 7), st') /\ st' = mkJ _ (Some (demo_db "me" "completed" "worker")) (Some demo_jobs) None.
Proof.
  destruct (cancel_spec (demo_docker true) demo_uuid demo_day no_parse no_parse no_parse "me" 5 "p" 7%N
    (mkSb 7 "build" "completed" "me" (path_display project) None None 0 None None "[]") (demo_db "me" "completed" "worker") demo_jobs None) as (st' & H1 & _ & H2 & _);
    [reflexivity|vm_compute; reflexivity|reflexivity|]. exists st'. split; [exact H1|by apply H2].
Defined.
(** A job of Claude Code that failed, and what a restart makes of it. *)
Definition restarted_once : JobManager unit :=
  (create_job (demo_docker true) (default_job_config []) true (Some demo_home) None (fun _ => EmptyString) demo_show sevens 6 8%N "build" (Some (components (path_display project))) ClaudeCode [] demo_jobs).2.
Lemma restart_forgets_mode_witness :
  restart_mode 7 (demo_db "me" "failed" "claude_code") = ClaudeCode
  /\ exists d', jobs_restart_handler (demo_docker true) (default_job_config []) true (Some demo_home) None (fun _ => EmptyString) demo_show demo_uuid demo_day no_parse no_parse no_parse
       no_grants "me" 8%N sevens 5 6 "p" (mkJ _ (Some (demo_db "me" "failed" "claude_code")) (Some demo_jobs) None) = (Ok (Restarted 7 8), mkJ _ (Some d') (Some restarted_once) None)
     /\ restart_mode 8 d' = Worker.
Proof.
  split; [reflexivity|].
  destruct (restart_forgets_mode (demo_docker true) (default_job_config []) true (Some demo_home) None (fun _ => EmptyString) demo_show demo_uuid demo_day no_parse no_parse no_parse
    no_grants "me" 8%N sevens 5 6 "p" 7%N demo_created (demo_db "me" "failed" "claude_code") demo_jobs None (generate_token sevens) restarted_once) as (d' & H1 & H2 & _);
    [reflexivity|vm_compute; reflexivity|reflexivity|by left|reflexivity|vm_compute; reflexivity|by exists d'].
Defined.
Lemma failed_create_stays_creating_witness :
  exists d' m', jobs_create_handler (demo_docker false) (default_job_config []) true (Some demo_home) None (fun _ => EmptyString) demo_show demo_day "me" 7%N sevens 5 6 "build" None
      (mkJ _ (Some (mkJobDb [] [] 1)) (Some demo_jobs) None) = (container_failed demo_show (ContainerCreationFailed 7 "failed to start container: no such image"), mkJ _ (Some d') (Some m') None)
    /\ exists j, get_sandbox_job no_parse no_parse no_parse 7 d' = Some j /\ sj_status j = "creating"%string.
Proof.
  destruct (failed_create_stays_creating (demo_docker false) (default_job_config []) true (Some demo_home) None (fun _ => EmptyString) demo_show demo_uuid demo_day no_parse no_parse no_parse
    no_grants "me" 7%N 8%N sevens 5 6 "build" "p" (mkJobDb [] [] 1) demo_jobs None (ContainerCreationFailed 7 "failed to start container: no such image")
    (create_job (demo_docker false) (default_job_config []) true (Some demo_home) None (fun _ => EmptyString) demo_show sevens 6 7%N "build" (Some project) Worker [] demo_jobs).2
    (mkEnv demo_fs []) tt) as (d' & H1 & (j & H2 & H3 & _) & _);
    [done|reflexivity|reflexivity|vm_compute; reflexivity|vm_compute; reflexivity|]. eexists d', _. split; [exact H1|]. by exists j.
Defined.
Definition readme_fs : FS := <[["home"; ".ironclaw"; "projects"; "p"; "a"]%string := File "hello"]> demo_fs.
