(* ===== verification/Settings.v ===== *)
(** The settings of a user: [src/settings.rs].

    The structs are described by a schema, the derived [Serialize] and
    [Deserialize] by two functions over it: [Settings] in its JSON form is a
    value that [conforms] to [settings_ty], and [de] reads any JSON value into
    that form the way the derived code does (missing fields take the default
    of their [serde] attribute, unknown ones are skipped, an alias and its name
    together are a duplicate).  Reading and printing JSON text and doubles
    belong to crates and are arguments. *)

From Stdlib Require Import Ascii.
From S2P Require Import Prelude Strs Json.
#[local] Open Scope claw_scope.

(** Equality of JSON values is decided. *)
#[export] Instance Json_eq_dec : EqDecision Json.
Proof.
  unfold EqDecision, RelDecision. fix go 1. intros a b.
  destruct a as [|x|x|x|x|x], b as [|y|y|y|y|y]; try (right; discriminate); [left; reflexivity|..].
  - destruct (decide (x = y)) as [->|n]; [left; reflexivity|right; congruence].
  - destruct (decide (x = y)) as [->|n]; [left; reflexivity|right; congruence].
  - destruct (decide (x = y)) as [->|n]; [left; reflexivity|right; congruence].
  - assert (D : forall y, Decision (x = y)).
    { clear y. induction x as [|v l IH]; intros [|w r]; [left; reflexivity|right; discriminate|right; discriminate|].
      destruct (go v w) as [->|n]; [|right; congruence]. destruct (IH r) as [->|n]; [left; reflexivity|right; congruence]. }
    destruct (D y) as [->|n]; [left; reflexivity|right; congruence].
  - assert (D : forall y, Decision (x = y)).
    { clear y. induction x as [|[k v] l IH]; intros [|[k' w] r]; [left; reflexivity|right; discriminate|right; discriminate|].
      destruct (decide (k = k')) as [->|n]; [|right; congruence].
      destruct (go v w) as [->|n]; [|right; congruence]. destruct (IH r) as [->|n]; [left; reflexivity|right; congruence]. }
    destruct (D y) as [->|n]; [left; reflexivity|right; congruence].
Defined.

(** ** Numbers as text *)
Definition digit_value (c : ascii) : option Z := if ascii_between 48 57 c then Some (Z.of_nat (nat_of_ascii c) - 48) else None.
Fixpoint digits_value (acc : Z) (s : string) : option Z :=
  match s with EmptyString => Some acc | String c s => match digit_value c with Some d => digits_value (10 * acc + d) s | None => None end end.
Definition digits (s : string) : option Z := if is_empty s then None else digits_value 0 s.
Definition within (lo hi : Z) (n : option Z) : option Z := match n with Some n => if (lo <=? n) && (n <=? hi) then Some n else None | None => None end.
(** A JSON number that is a [u64], or an [i64] below zero. *)
Definition as_u64 (t : string) : option Z := within 0 U64_MAX (digits t).
Definition signed (t : string) : option Z := match strip_prefix t "-" with Some r => Z.opp <$> digits r | None => digits t end.
Definition I64_MAX : Z := 2 ^ 63 - 1.
Definition as_i64 (t : string) : option Z := within (- I64_MAX - 1) I64_MAX (signed t).
(** [str::parse], which takes a plus sign too. *)
Definition unplus (t : string) : string := default t (strip_prefix t "+").
Definition parse_u64 (t : string) : option Z := within 0 U64_MAX (digits (unplus t)).
Definition parse_i64 (t : string) : option Z := within (- I64_MAX - 1) I64_MAX (match strip_prefix t "+" with Some r => digits r | None => signed t end).
Definition parse_bool (t : string) : option bool := if String.eqb t "true" then Some true else if String.eqb t "false" then Some false else None.
Definition num (n : Z) : Json := JNumber (pretty n).
Definition show_bool (b : bool) : string := if b then "true" else "false".

(** Doubles: the text of the double that a JSON number denotes, and
    [parse::<f64>], which gives a text when it is finite. *)
Record F64Text := mkF64Text { f64_text : string -> string; parse_f64 : string -> option (option string) }.

(** ** The schema *)
Inductive Ty :=
| TBool | TUInt (bits : Z) | TI64 | TF64 | TStr | TStrs | TUnit (variants : list string) | TOpt (t : Ty) | TStruct (fs : Fields)
with Fields := FNil | FCons (name : string) (alias : option string) (missing : Json) (t : Ty) (rest : Fields).
Scheme Ty_mut := Induction for Ty Sort Prop with Fields_mut := Induction for Fields Sort Prop.
Fixpoint field_names (fs : Fields) : list string := match fs with FNil => [] | FCons n _ _ _ r => n :: field_names r end.
Fixpoint fields_length (fs : Fields) : nat := match fs with FNil => 0 | FCons _ _ _ _ r => S (fields_length r) end.
Definition all_strings (l : list Json) : bool := forallb (fun j => match j with JString _ => true | _ => false end) l.
Definition named (n : string) (alias : option string) (l : list (string * Json)) : list Json :=
  map snd (List.filter (fun kv => String.eqb kv.1 n || match alias with Some a => String.eqb kv.1 a | None => false end) l).

Section Serde.
Context (F : F64Text).
Fixpoint de (t : Ty) (j : Json) : option Json :=
  match t, j with
  | TBool, JBool b => Some (JBool b)
  | TUInt bits, JNumber s => num <$> within 0 (2 ^ bits - 1) (as_u64 s)
  | TI64, JNumber s => num <$> as_i64 s
  | TF64, JNumber s => Some (JNumber (f64_text F s))
  | TStr, JString s => Some (JString s)
  | TStrs, JArray l => if all_strings l then Some (JArray l) else None
  | TUnit vs, JString s => if existsb (String.eqb s) vs then Some (JString s) else None
  | TUnit vs, JObject [(s, JNull)] => if existsb (String.eqb s) vs then Some (JString s) else None
  | TOpt t, JNull => Some JNull
  | TOpt t, _ => de t j
  | TStruct fs, JObject l => JObject <$> de_fields fs l
  | TStruct fs, JArray l => if (length l <=? fields_length fs)%nat then JObject <$> de_seq fs l else None
  | _, _ => None
  end
with de_fields (fs : Fields) (l : list (string * Json)) : option (list (string * Json)) :=
  match fs with
  | FNil => Some []
  | FCons n a missing t rest =>
      match (match named n a l with [] => Some missing | [v] => de t v | _ => None end), de_fields rest l with
      | Some v, Some r => Some ((n, v) :: r)
      | _, _ => None
      end
  end
with de_seq (fs : Fields) (l : list Json) : option (list (string * Json)) :=
  match fs with
  | FNil => Some []
  | FCons n a missing t rest =>
      match (match l with [] => Some missing | v :: _ => de t v end), de_seq rest (tail l) with
      | Some v, Some r => Some ((n, v) :: r)
      | _, _ => None
      end
  end.
(** The JSON form of a value of the type. *)
Fixpoint conforms (t : Ty) (j : Json) : Prop :=
  match t, j with
  | TBool, JBool _ => True
  | TUInt bits, JNumber s => exists n, s = pretty n /\ 0 <= n < 2 ^ bits /\ n <= U64_MAX
  | TI64, JNumber s => exists n, s = pretty n /\ - I64_MAX - 1 <= n <= I64_MAX
  | TF64, JNumber s => f64_text F s = s
  | TStr, JString _ => True
  | TStrs, JArray l => all_strings l = true
  | TUnit vs, JString s => s ∈ vs
  | TOpt t, JNull => True
  | TOpt t, _ => conforms t j
  | TStruct fs, JObject l => conform fs l
  | _, _ => False
  end
with conform (fs : Fields) (l : list (string * Json)) : Prop :=
  match fs, l with
  | FNil, [] => True
  | FCons n _ _ t rest, (k, v) :: l => k = n /\ conforms t v /\ conform rest l
  | _, _ => False
  end.
End Serde.

(** ** The structs *)
Definition field (n : string) (t : Ty) (missing : Json) (rest : Fields) : Fields := FCons n None missing t rest.
Definition opt_field (n : string) (t : Ty) (rest : Fields) : Fields := FCons n None JNull (TOpt t) rest.
Definition flag (n : string) (d : bool) (rest : Fields) : Fields := FCons n None (JBool d) TBool rest.
Definition uint (n : string) (bits d : Z) (rest : Fields) : Fields := FCons n None (num d) (TUInt bits) rest.
Definition text (n : string) (d : string) (rest : Fields) : Fields := FCons n None (JString d) TStr rest.
Definition EmbeddingsSettings : Fields := (flag "enabled" false (text "provider" "openai" (text "model" "text-embedding-3-small" FNil)))%string.
Definition default_embeddings : Json := JObject [("enabled", JBool false); ("provider", JString "openai"); ("model", JString "text-embedding-3-small")]%string.
Definition TunnelSettings : Fields :=
  (opt_field "public_url" TStr (opt_field "provider" TStr (opt_field "cf_token" TStr (opt_field "ngrok_token" TStr (opt_field "ngrok_domain" TStr
  (flag "ts_funnel" false (opt_field "ts_hostname" TStr (opt_field "custom_command" TStr (opt_field "custom_health_url" TStr (opt_field "custom_url_pattern" TStr FNil))))))))))%string.
Definition default_tunnel : Json :=
  JObject [("public_url", JNull); ("provider", JNull); ("cf_token", JNull); ("ngrok_token", JNull); ("ngrok_domain", JNull); ("ts_funnel", JBool false);
           ("ts_hostname", JNull); ("custom_command", JNull); ("custom_health_url", JNull); ("custom_url_pattern", JNull)]%string.
Definition ChannelSettings : Fields :=
  (flag "http_enabled" false (opt_field "http_port" (TUInt 16) (opt_field "http_host" TStr (opt_field "telegram_owner_id" TI64
  (field "wasm_channels" TStrs (JArray []) (flag "wasm_channels_enabled" true (opt_field "wasm_channels_dir" TStr FNil)))))))%string.
(** [derive(Default)], which does not look at the [serde] attribute. *)
Definition default_channels : Json :=
  JObject [("http_enabled", JBool false); ("http_port", JNull); ("http_host", JNull); ("telegram_owner_id", JNull); ("wasm_channels", JArray []);
           ("wasm_channels_enabled", JBool false); ("wasm_channels_dir", JNull)]%string.
Definition HeartbeatSettings : Fields :=
  (flag "enabled" false (uint "interval_secs" 64 1800 (opt_field "notify_channel" TStr (opt_field "notify_user" TStr FNil))))%string.
Definition default_heartbeat : Json := JObject [("enabled", JBool false); ("interval_secs", num 1800); ("notify_channel", JNull); ("notify_user", JNull)]%string.
Definition AgentSettings : Fields :=
  (text "name" "ironclaw" (uint "max_parallel_jobs" 32 5 (uint "job_timeout_secs" 64 3600 (uint "stuck_threshold_secs" 64 300 (flag "use_planning" true
  (uint "repair_check_interval_secs" 64 60 (uint "max_repair_attempts" 32 3 (uint "session_idle_timeout_secs" 64 (7 * 24 * 3600)
  (flag "enable_piped_tool_execution" true (flag "shadow_workers_enabled" true (uint "shadow_max_predictions" 32 3 (uint "shadow_cache_ttl_secs" 64 900
  (uint "shadow_max_parallel" 32 2 (uint "shadow_min_input_chars" 32 20 (flag "kernel_monitor_enabled" true (uint "kernel_monitor_interval_secs" 64 180
  (field "kernel_slow_threshold_ms" TF64 (JNumber "5000.0") (flag "kernel_auto_approve_patches" false (flag "kernel_auto_deploy_patches" false FNil)))))))))))))))))))%string.
Definition default_agent : Json :=
  JObject [("name", JString "ironclaw"); ("max_parallel_jobs", num 5); ("job_timeout_secs", num 3600); ("stuck_threshold_secs", num 300); ("use_planning", JBool true);
           ("repair_check_interval_secs", num 60); ("max_repair_attempts", num 3); ("session_idle_timeout_secs", num (7 * 24 * 3600)); ("enable_piped_tool_execution", JBool true);
           ("shadow_workers_enabled", JBool true); ("shadow_max_predictions", num 3); ("shadow_cache_ttl_secs", num 900); ("shadow_max_parallel", num 2);
           ("shadow_min_input_chars", num 20); ("kernel_monitor_enabled", JBool true); ("kernel_monitor_interval_secs", num 180); ("kernel_slow_threshold_ms", JNumber "5000.0");
           ("kernel_auto_approve_patches", JBool false); ("kernel_auto_deploy_patches", JBool false)]%string.
Definition WasmSettings : Fields :=
  (flag "enabled" true (opt_field "tools_dir" TStr (uint "default_memory_limit" 64 (10 * 1024 * 1024) (uint "default_timeout_secs" 64 60
  (uint "default_fuel_limit" 64 10000000 (flag "cache_compiled" true (opt_field "cache_dir" TStr FNil)))))))%string.
Definition default_wasm : Json :=
  JObject [("enabled", JBool true); ("tools_dir", JNull); ("default_memory_limit", num (10 * 1024 * 1024)); ("default_timeout_secs", num 60);
           ("default_fuel_limit", num 10000000); ("cache_compiled", JBool true); ("cache_dir", JNull)]%string.
Definition SandboxSettings : Fields :=
  (flag "enabled" true (text "policy" "readonly" (uint "timeout_secs" 64 120 (uint "memory_limit_mb" 64 2048 (uint "cpu_shares" 32 1024
  (text "image" "ghcr.io/titanclaw/sandbox:latest" (flag "auto_pull_image" true (field "extra_allowed_domains" TStrs (JArray []) FNil))))))))%string.
Definition default_sandbox : Json :=
  JObject [("enabled", JBool true); ("policy", JString "readonly"); ("timeout_secs", num 120); ("memory_limit_mb", num 2048); ("cpu_shares", num 1024);
           ("image", JString "ghcr.io/titanclaw/sandbox:latest"); ("auto_pull_image", JBool true); ("extra_allowed_domains", JArray [])]%string.
Definition SafetySettings : Fields := (uint "max_output_length" 64 100000 (flag "injection_check_enabled" true FNil))%string.
Definition default_safety : Json := JObject [("max_output_length", num 100000); ("injection_check_enabled", JBool true)]%string.
Definition BuilderSettings : Fields :=
  (flag "enabled" true (opt_field "build_dir" TStr (uint "max_iterations" 32 20 (uint "timeout_secs" 64 600 (flag "auto_register" true FNil)))))%string.
Definition default_builder : Json :=
  JObject [("enabled", JBool true); ("build_dir", JNull); ("max_iterations", num 20); ("timeout_secs", num 600); ("auto_register", JBool true)]%string.
Definition SwarmSettings : Fields := (flag "enabled" false (uint "listen_port" 16 0 (uint "heartbeat_interval_secs" 64 15 (uint "max_slots" 32 4 FNil))))%string.
Definition default_swarm : Json := JObject [("enabled", JBool false); ("listen_port", num 0); ("heartbeat_interval_secs", num 15); ("max_slots", num 4)]%string.
Definition KeySource : Ty := TUnit ["keychain"; "env"; "none"]%string.
Definition Settings : Fields :=
  FCons "onboard_completed" (Some "setup_completed"%string) (JBool false) TBool
  (opt_field "database_backend" TStr (opt_field "database_url" TStr (opt_field "database_pool_size" (TUInt 64) (opt_field "libsql_path" TStr (opt_field "libsql_url" TStr
  (field "secrets_master_key_source" KeySource (JString "none")
  (opt_field "llm_backend" TStr (opt_field "ollama_base_url" TStr (opt_field "openai_compatible_base_url" TStr (opt_field "selected_model" TStr
  (field "embeddings" (TStruct EmbeddingsSettings) default_embeddings (field "tunnel" (TStruct TunnelSettings) default_tunnel
  (field "channels" (TStruct ChannelSettings) default_channels (field "heartbeat" (TStruct HeartbeatSettings) default_heartbeat
  (opt_field "coding_runtime_default" TStr (opt_field "opencode_model_default" TStr
  (field "agent" (TStruct AgentSettings) default_agent (field "wasm" (TStruct WasmSettings) default_wasm (field "sandbox" (TStruct SandboxSettings) default_sandbox
  (field "safety" (TStruct SafetySettings) default_safety (field "builder" (TStruct BuilderSettings) default_builder
  (field "swarm" (TStruct SwarmSettings) default_swarm FNil))))))))))))))))))))))%string.
Definition settings_ty : Ty := TStruct Settings.
Definition default_settings : Json :=
  JObject [("onboard_completed", JBool false); ("database_backend", JNull); ("database_url", JNull); ("database_pool_size", JNull); ("libsql_path", JNull); ("libsql_url", JNull);
           ("secrets_master_key_source", JString "none"); ("llm_backend", JNull); ("ollama_base_url", JNull); ("openai_compatible_base_url", JNull); ("selected_model", JNull);
           ("embeddings", default_embeddings); ("tunnel", default_tunnel); ("channels", default_channels); ("heartbeat", default_heartbeat);
           ("coding_runtime_default", JNull); ("opencode_model_default", JNull); ("agent", default_agent); ("wasm", default_wasm); ("sandbox", default_sandbox);
           ("safety", default_safety); ("builder", default_builder); ("swarm", default_swarm)]%string.

(** ** Reading and changing one setting *)
Inductive SettingsError :=
| PathNotFound (path : string) | ParentNotObject (path : string) | ExpectedBoolean (path value : string) | ExpectedInteger (path value : string)
| ExpectedNumber (path value : string) | InvalidArray (path : string) | InvalidObject (path : string) | FailedToApply | UnknownSetting (path : string).
Definition DOT : ascii := "."%char.
Section Settings.
Context (F : F64Text) (from_str : string -> option Json) (to_text : Json -> string).
Definition parse_or_string (value : string) : Json := default (JString value) (from_str value).
(** The type of the new value is taken from the old one. *)
Definition infer (path value : string) (existing : option Json) : Result Json SettingsError :=
  match existing with
  | Some (JBool _) => match parse_bool value with Some b => Ok (JBool b) | None => Err (ExpectedBoolean path value) end
  | Some (JNumber t) =>
      if bool_decide (is_Some (as_u64 t)) then match parse_u64 value with Some n => Ok (num n) | None => Err (ExpectedInteger path value) end
      else if bool_decide (is_Some (as_i64 t)) then match parse_i64 value with Some n => Ok (num n) | None => Err (ExpectedInteger path value) end
      else match parse_f64 F value with Some (Some t) => Ok (JNumber t) | Some None => Ok (JString value) | None => Err (ExpectedNumber path value) end
  | Some JNull | None => Ok (parse_or_string value)
  | Some (JArray _) => match from_str value with Some j => Ok j | None => Err (InvalidArray path) end
  | Some (JObject _) => match from_str value with Some j => Ok j | None => Err (InvalidObject path) end
  | Some (JString _) => Ok (JString value)
  end.
Fixpoint change (path : string) (parts : list string) (f : option Json -> Result Json SettingsError) (j : Json) : Result Json SettingsError :=
  match parts with
  | [] => Err (PathNotFound path)
  | [k] => match j with
           | JObject l => match f (assoc_get k l) with Ok v => Ok (JObject (put k v l)) | Err e => Err e end
           | _ => Err (ParentNotObject path)
           end
  | k :: rest => match j with
                 | JObject l => match assoc_get k l with
                                | Some c => match change path rest f c with Ok v => Ok (JObject (put k v l)) | Err e => Err e end
                                | None => Err (PathNotFound path)
                                end
                 | _ => Err (PathNotFound path)
                 end
  end.
Definition set (path value : string) (s : Json) : Result Json SettingsError :=
  match change path (split_on DOT path) (infer path value) s with
  | Ok j => match de F settings_ty j with Some s' => Ok s' | None => Err FailedToApply end
  | Err e => Err e
  end.
Fixpoint json_at (parts : list string) (j : Json) : option Json :=
  match parts with [] => Some j | k :: rest => match json_get k j with Some c => json_at rest c | None => None end end.
Definition show_value (j : Json) : string :=
  match j with JString s => s | JNumber t => t | JBool b => show_bool b | JNull => "null" | _ => to_text j end.
Definition get (path : string) (s : Json) : option string := show_value <$> json_at (split_on DOT path) s.
Definition reset (path : string) (s : Json) : Result Json SettingsError :=
  match get path default_settings with Some v => set path v s | None => Err (UnknownSetting path) end.

(** ** The settings table *)
Definition sub_path (prefix key : string) : string := if is_empty prefix then key else prefix ++s "." ++s key.
Fixpoint collect_settings_json (j : Json) (prefix : string) : list (string * Json) :=
  match j with
  | JObject l => (fix go (l : list (string * Json)) : list (string * Json) :=
                    match l with [] => [] | (k, v) :: l => collect_settings_json v (sub_path prefix k) ++ go l end) l
  | _ => [(prefix, j)]
  end.
Definition to_db_map (s : Json) : list (string * Json) := collect_settings_json s EmptyString.
(** Errors are logged; the entries come in the order of the map. *)
Definition apply_entry (s : Json) (e : string * Json) : Json :=
  match e.2 with
  | JNull => s
  | v => match set e.1 (show_value v) s with Ok s' => s' | Err _ => s end
  end.
Definition from_db_map (m : list (string * Json)) : Json := foldl apply_entry default_settings m.
Fixpoint insert_path (x : string * string) (l : list (string * string)) : list (string * string) :=
  match l with [] => [x] | y :: l => if String.ltb y.1 x.1 then y :: insert_path x l else x :: y :: l end.
Definition list_settings (s : Json) : list (string * string) :=
  foldr insert_path [] (map (fun kv => (kv.1, show_value kv.2)) (to_db_map s)).

(** ** Overlaying the settings of a file *)
Fixpoint merge_non_default (target other defaults : Json) {struct other} : Json :=
  match target, other, defaults with
  | JObject t, JObject o, JObject d =>
      JObject ((fix go (o : list (string * Json)) (t : list (string * Json)) : list (string * Json) :=
        match o with
        | [] => t
        | (k, ov) :: o =>
            let dv := default JNull (assoc_get k d) in
            go o (match assoc_get k t with
                  | Some tv => put k (merge_non_default tv ov dv) t
                  | None => if bool_decide (ov = dv) then t else put k ov t
                  end)
        end) o t)
  | _, _, _ => if bool_decide (other = defaults) then target else other
  end.
Definition merge_from (s other : Json) : Json :=
  match de F settings_ty (merge_non_default s other default_settings) with Some m => m | None => s end.
(** A file that says nothing of a setting leaves it to [serde]. *)
Definition from_file (j : Json) : option Json := de F settings_ty j.
End Settings.

(** ** Proofs: numbers *)
Lemma digits_value_char acc (d : N) s : (d < 10)%N -> digits_value acc (String (pretty_N_char d) s) = digits_value (10 * acc + Z.of_N d) s.
Proof.
  intros H. cbn. assert (E : digit_value (pretty_N_char d) = Some (Z.of_N d)).
  { destruct d as [|[[[[]|[]|]|[[]|[]|]|]|[[[]|[]|]|[[]|[]|]|]|]]; try reflexivity; lia. }
  by rewrite E.
Qed.
Lemma digits_value_go x s : digits_value 0 (pretty_N_go x s) = digits_value (Z.of_N x) s.
Proof.
  revert s. induction (N.lt_wf_0 x) as [x _ IH]; intros s. destruct (decide (x = 0)%N) as [->|Hx]; [by rewrite pretty_N_go_0|].
  rewrite pretty_N_go_step by lia. rewrite IH by (apply N.div_lt; lia). rewrite digits_value_char by (apply N.mod_lt; lia). f_equal.
  rewrite N2Z.inj_div, N2Z.inj_mod. pose proof (Z.div_mod (Z.of_N x) 10). lia.
Qed.
Lemma pretty_N_value x : digits_value 0 (pretty x) = Some (Z.of_N x).
Proof. unfold pretty, pretty_N. case_decide as E; [by subst|]. by rewrite digits_value_go. Qed.
Lemma pretty_N_not_empty (x : N) : is_empty (pretty x) = false.
Proof.
  destruct (pretty x) eqn:E; [|done]. pose proof (pretty_N_value x) as H. rewrite E in H. cbn in H. injection H as H. assert (x = 0%N) as -> by lia. done.
Qed.
Lemma pretty_nonneg (n : Z) : 0 <= n -> pretty n = pretty (Z.to_N n).
Proof. intros H. destruct n; [done|done|lia]. Qed.
Lemma digits_pretty n : 0 <= n -> digits (pretty n) = Some n.
Proof. intros H. rewrite pretty_nonneg by done. unfold digits. rewrite pretty_N_not_empty, pretty_N_value. f_equal. lia. Qed.
Lemma head_digit x : exists c s, pretty (A := N) x = String c s /\ is_Some (digit_value c).
Proof.
  pose proof (pretty_N_value x) as H. pose proof (pretty_N_not_empty x). destruct (pretty x) as [|c s]; [done|]. exists c, s. split; [done|]. cbn in H. by destruct (digit_value c).
Qed.
Lemma no_sign_nonneg n c : 0 <= n -> digit_value c = None -> strip_prefix (pretty n) (String c EmptyString) = None.
Proof.
  intros H Hc. rewrite pretty_nonneg by done. destruct (head_digit (Z.to_N n)) as (d & s & -> & Hd). cbn.
  destruct (Ascii.eqb_spec c d) as [->|E]; [rewrite Hc in Hd; by inversion Hd|done].
Qed.
Lemma within_in lo hi n : lo <= n <= hi -> within lo hi (Some n) = Some n.
Proof. intros H. unfold within. by rewrite (proj2 (andb_true_iff _ _)) by lia. Qed.
Lemma within_some lo hi x n : within lo hi x = Some n -> x = Some n /\ lo <= n <= hi.
Proof. destruct x as [m|]; [|done]. cbn. destruct (_ && _) eqn:E; [|done]. intros [= ->]. apply andb_true_iff in E. split; [done|lia]. Qed.
Lemma as_u64_pretty n : 0 <= n <= U64_MAX -> as_u64 (pretty n) = Some n.
Proof. intros H. unfold as_u64. rewrite digits_pretty by lia. by apply within_in. Qed.
Lemma parse_u64_pretty n : 0 <= n <= U64_MAX -> parse_u64 (pretty n) = Some n.
Proof. intros H. unfold parse_u64, unplus. rewrite no_sign_nonneg by done || lia. cbn [default from_option]. rewrite digits_pretty by lia. by apply within_in. Qed.
Lemma signed_pretty n : signed (pretty n) = Some n.
Proof.
  unfold signed. destruct (decide (0 <= n)) as [H|H]; [by rewrite no_sign_nonneg, digits_pretty|]. destruct n as [|p|p]; [lia|lia|].
  change (pretty (Z.neg p)) with ("-" ++s pretty (N.pos p))%string. rewrite (proj2 (strip_prefix_spec _ _ _) eq_refl).
  unfold digits. rewrite pretty_N_not_empty, pretty_N_value. done.
Qed.
Lemma as_i64_pretty n : - I64_MAX - 1 <= n <= I64_MAX -> as_i64 (pretty n) = Some n.
Proof. intros H. unfold as_i64. rewrite signed_pretty. by apply within_in. Qed.

(** ** Proofs: the derived code *)
Class F64Laws (F : F64Text) : Prop := {
  f64_stable : forall t, f64_text F (f64_text F t) = f64_text F t;
  parse_f64_stable : forall v t, parse_f64 F v = Some (Some t) -> f64_text F t = t;
  parse_f64_text : forall t, f64_text F t = t -> parse_f64 F t = Some (Some t);
  f64_default : f64_text F "5000.0" = "5000.0"%string;
  f64_not_integer : forall t, as_u64 (f64_text F t) = None /\ as_i64 (f64_text F t) = None;
}.
Section De.
Context (F : F64Text) `{!F64Laws F}.
(** Names occur once, and no alias is the name of a field. *)
Fixpoint alias_free (fs : Fields) (names : list string) : Prop :=
  match fs with FNil => True | FCons _ a _ _ r => match a with Some x => x ∉ names | None => True end /\ alias_free r names end.
Fixpoint ty_ok (t : Ty) : Prop :=
  match t with
  | TUInt bits => 0 <= bits <= 64
  | TOpt t => ty_ok t
  | TStruct fs => NoDup (field_names fs) /\ alias_free fs (field_names fs) /\ fields_ok fs
  | _ => True
  end
with fields_ok (fs : Fields) : Prop :=
  match fs with FNil => True | FCons _ _ missing t r => conforms F t missing /\ ty_ok t /\ fields_ok r end.
Lemma conform_keys fs l : conform F fs l -> map fst l = field_names fs.
Proof. revert l. induction fs as [|n a m t r IH]; intros [|[k v] l]; cbn; try done. intros (-> & _ & H). by rewrite IH. Qed.
Lemma pow64 bits : 0 <= bits <= 64 -> 0 < 2 ^ bits <= U64_MAX + 1.
Proof. intros H. split; [apply Z.pow_pos_nonneg; lia|]. assert (2 ^ bits <= 2 ^ 64) by (apply Z.pow_le_mono_r; lia). unfold U64_MAX. lia. Qed.
(** What is read is of the type. *)
Lemma de_conforms : forall t, ty_ok t -> forall j v, de F t j = Some v -> conforms F t v.
Proof.
  apply (Ty_mut (fun t => ty_ok t -> forall j v, de F t j = Some v -> conforms F t v)
    (fun fs => fields_ok fs -> (forall l r, de_fields F fs l = Some r -> conform F fs r) /\ (forall l r, de_seq F fs l = Some r -> conform F fs r))).
  - intros _ [] v; cbn; try done. by intros [= <-].
  - intros bits Hb [] v; cbn; try done. destruct (within _ _ _) as [n|] eqn:E; [|done]. intros [= <-]. apply within_some in E as [E Hr]. apply within_some in E as [_ Hu].
    exists n. split; [done|]. lia.
  - intros _ [] v; cbn; try done. destruct (as_i64 _) as [n|] eqn:E; [|done]. intros [= <-]. apply within_some in E as [_ H]. by exists n.
  - intros _ [] v; cbn; try done. intros [= <-]. apply f64_stable.
  - intros _ [] v; cbn; try done. by intros [= <-].
  - intros _ [] v; cbn; try done. destruct (all_strings l) eqn:E; [|done]. by intros [= <-].
  - intros vs _ j v; cbn. assert (Hin : forall s, existsb (String.eqb s) vs = true -> s ∈ vs).
    { intros s (x & Hx & E%String.eqb_eq)%existsb_exists. subst. by apply list_elem_of_In. }
    repeat case_match; try done; intros [= <-]; by apply Hin.
  - intros t IH Ht j v; cbn. destruct j; [by intros [= <-]|..]; intros H; assert (Hc := IH Ht _ _ H); destruct v; done || exact Hc.
  - intros fs IH (_ & _ & Hok) j v; cbn. destruct (IH Hok) as [H1 H2]. destruct j; try done.
    + destruct (_ <=? _)%nat; [|done]. destruct (de_seq F fs l) eqn:E; [|done]. intros [= <-]. by eapply H2.
    + destruct (de_fields F fs fields) eqn:E; [|done]. intros [= <-]. by eapply H1.
  - intros _. split; intros l r; cbn; by intros [= <-].
  - intros n a m t IHt r IHr (Hm & Ht & Hr). destruct (IHr Hr) as [H1 H2]. split; intros l v; cbn.
    + destruct (match named n a l with [] => _ | _ => _ end) as [x|] eqn:E; [|done]. destruct (de_fields F r l) eqn:E'; [|done]. intros [= <-]. cbn. split; [done|]. split; [|by eapply H1].
      destruct (named n a l) as [|y [|]]; [by injection E as <-|by eapply IHt|done].
    + destruct (match l with [] => _ | _ => _ end) as [x|] eqn:E; [|done]. destruct (de_seq F r _) eqn:E'; [|done]. intros [= <-]. cbn. split; [done|]. split; [|by eapply H2].
      destruct l as [|y l]; [by injection E as <-|by eapply IHt].
Qed.
Lemma named_none n a l : n ∉ map fst l -> match a with Some x => x ∉ map fst l | None => True end -> named n a l = [].
Proof.
  intros Hn Ha. unfold named. induction l as [|[k v] l IH]; [done|]. cbn in *. rewrite not_elem_of_cons in Hn. destruct Hn as [H1 H2].
  rewrite (proj2 (String.eqb_neq k n)) by congruence. destruct a as [x|]; cbn.
  - rewrite not_elem_of_cons in Ha. destruct Ha as [H3 H4]. rewrite (proj2 (String.eqb_neq k x)) by congruence. by apply IH.
  - by apply IH.
Qed.
Lemma named_app n a l1 l2 : named n a (l1 ++ l2) = named n a l1 ++ named n a l2.
Proof. unfold named. by rewrite List.filter_app, map_app. Qed.
Lemma conforms_opt t v : conforms F (TOpt t) v -> v = JNull \/ conforms F t v.
Proof. destruct v; cbn; auto. Qed.
Lemma de_opt t j : j <> JNull -> de F (TOpt t) j = de F t j.
Proof. by destruct j. Qed.
(** A value of the type is read as itself; among other fields too. *)
Lemma conforms_de : forall t, ty_ok t -> forall v, conforms F t v -> de F t v = Some v.
Proof.
  apply (Ty_mut (fun t => ty_ok t -> forall v, conforms F t v -> de F t v = Some v)
    (fun fs => fields_ok fs -> NoDup (field_names fs) -> forall pre l, conform F fs l -> (forall n, n ∈ field_names fs -> n ∉ map fst pre) ->
       alias_free fs (map fst (pre ++ l)) -> de_fields F fs (pre ++ l) = Some l)).
  - by intros _ [].
  - intros bits Hb [] ; cbn; try done. intros (n & -> & Hn & Hu). rewrite as_u64_pretty by lia. by rewrite within_in by lia.
  - intros _ []; cbn; try done. intros (n & -> & Hn). by rewrite as_i64_pretty.
  - intros _ []; cbn; try done. by intros ->.
  - by intros _ [].
  - intros _ []; cbn; try done. by intros ->.
  - intros vs _ []; cbn; try done. intros H. assert (E : existsb (String.eqb s) vs = true) by (apply existsb_exists; exists s; split; [by apply list_elem_of_In|apply String.eqb_refl]). by rewrite E.
  - intros t IH Ht v [->|H]%conforms_opt; [done|]. destruct (decide (v = JNull)) as [->|Hn]; [done|]. rewrite de_opt by done. by apply IH.
  - intros fs IH (Hn & Ha & Hok) v; destruct v; cbn; try done. intros H. pose proof (conform_keys _ _ H) as Hk.
    assert (E : de_fields F fs fields = Some fields); [|by rewrite E]. apply (IH Hok Hn [] fields); [done| |cbn; by rewrite Hk]. intros n _. apply not_elem_of_nil.
  - intros _ _ pre [|]; [done|]. intros [].
  - intros n a m t IHt r IHr (_ & Ht & Hr) Hnd pre [|[k v] l] Hc Hpre Ha; cbn in Hc; [done|]. destruct Hc as (-> & Hv & Hl).
    cbn in Hnd. apply NoDup_cons in Hnd as [Hn Hnd]. cbn in Ha. destruct Ha as [Ha1 Ha2]. pose proof (conform_keys _ _ Hl) as Hk. cbn [de_fields].
    assert (E : named n a (pre ++ (n, v) :: l) = [v]).
    { rewrite named_app. rewrite (named_none n a pre); [|apply Hpre; by left|destruct a; [|done]; rewrite map_app, elem_of_app in Ha1; tauto].
      cbn [app]. change ((n, v) :: l) with ([(n, v)] ++ l). rewrite named_app, (named_none n a l); [|by rewrite Hk|destruct a; [|done]].
      - unfold named. cbn. rewrite String.eqb_refl. done.
      - rewrite map_app, elem_of_app in Ha1. cbn in Ha1. rewrite elem_of_cons in Ha1. tauto. }
    rewrite E, (IHt Ht v Hv). change (pre ++ (n, v) :: l) with (pre ++ [(n, v)] ++ l). rewrite app_assoc. rewrite IHr; [done|done|done|done| |by rewrite <-app_assoc].
    intros n' Hn'. rewrite map_app, elem_of_app. cbn. intros [H|H]; [eapply Hpre; [|exact H]; by right|]. apply list_elem_of_singleton in H. by subst.
Qed.
End De.

(** ** Proofs: one change *)
Section Change.
Context (F : F64Text) `{!F64Laws F}.
Fixpoint field_of (k : string) (fs : Fields) : option Ty :=
  match fs with FNil => None | FCons n _ _ t r => if String.eqb k n then Some t else field_of k r end.
(** An object of a type is a struct, under any number of options. *)
Lemma object_struct t l : ty_ok F t -> conforms F t (JObject l) ->
  exists fs, ty_ok F (TStruct fs) /\ conform F fs l /\ forall x, de F t (JObject x) = JObject <$> de_fields F fs x.
Proof.
  revert l. induction t as [| | | | | | |t IH|fs]; intros l; cbn; try (by intros _ []).
  - intros Ht Hc. destruct (IH l Ht Hc) as (fs & ?). by exists fs.
  - intros Hok Hc. by exists fs.
Qed.
Lemma field_conforms fs l k c : fields_ok F fs -> conform F fs l -> assoc_get k l = Some c -> exists t, field_of k fs = Some t /\ ty_ok F t /\ conforms F t c.
Proof.
  revert l. induction fs as [|n a m t r IH]; intros [|[k' v] l]; cbn; try done. intros (_ & Ht & Hr) (-> & Hv & Hl).
  destruct (String.eqb k n); [intros [= ->]; eauto|by apply IH].
Qed.
Lemma assoc_get_named k a l v : named k a l = [v] -> k ∈ map fst l -> assoc_get k l = Some v.
Proof.
  unfold named. induction l as [|[k' w] l IH]; [done|]. cbn. destruct (String.eqb_spec k' k) as [->|n]; cbn.
  - rewrite String.eqb_refl. by intros [= ->].
  - rewrite (proj2 (String.eqb_neq k k')) by congruence. destruct a as [x|]; [destruct (String.eqb_spec k' x)|]; cbn; intros H [Hk|Hk]%elem_of_cons; try congruence; [|by apply IH..].
    injection H as -> H. exfalso. revert Hk. clear -H. induction l as [|[k' w] l IH]; [by intros ?%elem_of_nil|]. cbn in *. destruct (String.eqb_spec k' k); [done|].
    destruct (String.eqb k' x); [done|]. cbn in H. intros [Hk|Hk]%elem_of_cons; [congruence|by apply IH].
Qed.
Lemma assoc_get_in k l : is_Some (assoc_get k l) <-> k ∈ map fst l.
Proof.
  induction l as [|[k' w] l IH]; cbn; [split; [by intros []|by intros ?%elem_of_nil]|]. rewrite elem_of_cons. destruct (String.eqb_spec k k') as [->|n]; [|rewrite IH; tauto].
  split; [by left|by eexists].
Qed.
Lemma put_keys k v l : k ∈ map fst l -> map fst (put k v l) = map fst l.
Proof.
  induction l as [|[k' w] l IH]; cbn; [by intros ?%elem_of_nil|]. destruct (String.eqb_spec k k') as [->|n]; [done|]. intros [->|H]%elem_of_cons; [done|]. cbn. by rewrite IH.
Qed.
(** What the fields read from a list with every name gives. *)
Lemma named_unique n a l v : NoDup (map fst l) -> assoc_get n l = Some v -> match a with Some x => x ∉ map fst l | None => True end -> named n a l = [v].
Proof.
  induction l as [|[k w] l IH]; [done|]. cbn. intros [Hk Hnd]%NoDup_cons. destruct (String.eqb_spec n k) as [->|Hn].
  - intros [= ->] Ha. change (named k a ([(k, v)] ++ l) = [v]). rewrite named_app, (named_none k a l); [|done|destruct a; [|done]; rewrite elem_of_cons in Ha; tauto].
    unfold named. cbn. by rewrite String.eqb_refl.
  - intros Hv Ha. change (named n a ([(k, w)] ++ l) = [v]). rewrite named_app, (named_none n a [(k, w)]); cbn.
    + apply IH; [done|done|]. destruct a; [|done]. rewrite elem_of_cons in Ha. tauto.
    + intros H%list_elem_of_singleton. congruence.
    + destruct a; [|done]. rewrite elem_of_cons in Ha. intros H%list_elem_of_singleton. tauto.
Qed.
Lemma de_fields_get fs : forall l r k t c, de_fields F fs l = Some r -> NoDup (field_names fs) -> NoDup (map fst l) -> alias_free fs (map fst l) ->
  field_of k fs = Some t -> assoc_get k l = Some c -> exists v, de F t c = Some v /\ assoc_get k r = Some v.
Proof.
  induction fs as [|n a m t r IH]; intros l r' k t' c; cbn; [done|]. destruct (match named n a l with [] => _ | _ => _ end) as [x|] eqn:E; [|done].
  destruct (de_fields F r l) as [r1|] eqn:E1; [|done]. intros [= <-] [Hn Hnd]%NoDup_cons Hl [Ha1 Ha2]. cbn. destruct (String.eqb_spec k n) as [->|Hk].
  - intros [= ->] Hc. rewrite (named_unique n a l c) in E by done. eauto.
  - intros Ht Hc. by eapply IH.
Qed.
Lemma get_de_fields fs : forall l r k, de_fields F fs l = Some r -> assoc_get k r = None <-> field_of k fs = None.
Proof.
  induction fs as [|n a m t r IH]; intros l r' k; cbn; [by intros [= <-]|]. destruct (match named n a l with [] => _ | _ => _ end) as [x|]; [|done].
  destruct (de_fields F r l) as [r1|] eqn:E1; [|done]. intros [= <-]. cbn. destruct (String.eqb k n); [split; discriminate|by eapply IH].
Qed.
Lemma field_of_names k fs : is_Some (field_of k fs) <-> k ∈ field_names fs.
Proof.
  induction fs as [|n a m t r IH]; cbn; [split; [by intros []|by intros ?%elem_of_nil]|]. rewrite elem_of_cons. destruct (String.eqb_spec k n) as [->|Hn]; [|rewrite IH; tauto].
  split; [by left|by eexists].
Qed.
(** Writing a known name changes that field and no other. *)
Lemma put_known fs l r k v : fields_ok F fs -> NoDup (field_names fs) -> alias_free fs (field_names fs) -> conform F fs l -> de_fields F fs (put k v l) = Some r -> k ∈ field_names fs ->
  (exists t v', field_of k fs = Some t /\ de F t v = Some v' /\ assoc_get k r = Some v') /\ forall k', k' <> k -> assoc_get k' r = assoc_get k' l.
Proof.
  intros Hok Hnd Ha Hc Hr Hk. pose proof (conform_keys F _ _ Hc) as Hkeys. assert (Hp : map fst (put k v l) = field_names fs) by (rewrite put_keys; [done|by rewrite Hkeys]).
  assert (Hg : forall k' t c, field_of k' fs = Some t -> assoc_get k' (put k v l) = Some c -> exists w, de F t c = Some w /\ assoc_get k' r = Some w)
    by (intros k' t c Ht' Hc'; eapply de_fields_get; [exact Hr|exact Hnd|by rewrite Hp|by rewrite Hp|exact Ht'|exact Hc']). split.
  - destruct (proj2 (field_of_names k fs) Hk) as [t Ht]. destruct (Hg k t v Ht (assoc_get_put _ _ _)) as (w & H1 & H2). eauto.
  - intros k' Hn. destruct (assoc_get k' l) as [c|] eqn:E.
    + destruct (field_conforms fs l k' c Hok Hc E) as (t & Ht & Hto & Hco). destruct (Hg k' t c Ht) as (w & Hw & ->); [by rewrite assoc_get_put_ne|].
      by rewrite (conforms_de F t Hto c Hco) in Hw.
    + apply (get_de_fields fs _ r k' Hr). destruct (field_of k' fs) eqn:E'; [|done]. assert (H : k' ∈ map fst l) by (rewrite Hkeys; apply field_of_names; by eexists).
      apply assoc_get_in in H as [? H]. by rewrite H in E.
Qed.
Lemma put_new k v l : k ∉ map fst l -> put k v l = l ++ [(k, v)].
Proof.
  induction l as [|[k' w] l IH]; [done|]. cbn. rewrite not_elem_of_cons. intros [H1 H2]. rewrite (proj2 (String.eqb_neq _ _)) by done. by rewrite IH.
Qed.
(** Writing an unknown name changes nothing, unless it is an alias: then the field is there twice. *)
Fixpoint no_alias (k : string) (fs : Fields) : bool :=
  match fs with FNil => true | FCons _ a _ _ r => match a with Some x => negb (String.eqb x k) | None => true end && no_alias k r end.
Lemma skip_unknown fs l k v : k ∉ field_names fs -> no_alias k fs = true -> de_fields F fs (l ++ [(k, v)]) = de_fields F fs l.
Proof.
  induction fs as [|n a m t r IH]; [done|]. cbn. rewrite not_elem_of_cons, andb_true_iff. intros [H1 H2] [H3 H4]. rewrite IH by done.
  rewrite named_app, (named_none n a [(k, v)]); cbn; [by rewrite app_nil_r|intros H%list_elem_of_singleton; congruence|].
  destruct a as [x|]; [|done]. intros ->%list_elem_of_singleton. by rewrite String.eqb_refl in H3.
Qed.
Lemma put_unknown fs l k v : fields_ok F fs -> NoDup (field_names fs) -> alias_free fs (field_names fs) -> conform F fs l -> k ∉ field_names fs -> no_alias k fs = true ->
  de_fields F fs (put k v l) = Some l.
Proof.
  intros Hok Hnd Ha Hc Hk Hna. pose proof (conform_keys F _ _ Hc) as Hkeys. rewrite put_new by (by rewrite Hkeys). rewrite skip_unknown by done.
  assert (H : de F (TStruct fs) (JObject l) = Some (JObject l)) by (by apply conforms_de). cbn in H. by destruct (de_fields F fs l) as [r|]; [injection H as ->|].
Qed.
End Change.

Section Path.
Context (F : F64Text) `{!F64Laws F}.
(** The two paths part at some name: neither is inside the other. *)
Fixpoint diverge (p q : list string) : bool :=
  match p, q with a :: p, b :: q => if String.eqb a b then diverge p q else true | _, _ => false end.
Lemma change_object path k rest f l c j1 : change path (k :: rest) f (JObject l) = Ok j1 -> assoc_get k l = Some c ->
  exists v, j1 = JObject (put k v l) /\ (rest = [] /\ f (Some c) = Ok v \/ rest <> [] /\ change path rest f c = Ok v).
Proof.
  intros H Hc. destruct rest as [|k' rest]; cbn in H; rewrite Hc in H.
  - destruct (f _) as [v|] eqn:E; [|done]. injection H as <-. exists v. tauto.
  - destruct (change path (k' :: rest) f c) as [v|] eqn:E; cbn in E; rewrite E in H; [|done]. injection H as <-. exists v. split; [done|]. by right.
Qed.
Lemma change_known path f : forall parts t j j1 j2, ty_ok F t -> conforms F t j -> change path parts f j = Ok j1 -> de F t j1 = Some j2 -> is_Some (json_at parts j) ->
  (exists t' c v v', json_at parts j = Some c /\ ty_ok F t' /\ conforms F t' c /\ f (Some c) = Ok v /\ de F t' v = Some v' /\ json_at parts j2 = Some v') /\
  forall q, diverge parts q = true -> json_at q j2 = json_at q j.
Proof.
  induction parts as [|k rest IH]; intros t j j1 j2 Ht Hj H1 H2 Hat; [done|]. cbn in Hat. destruct j as [| | | | |l]; try by destruct Hat. cbn [json_get] in Hat.
  destruct (assoc_get k l) as [c|] eqn:Hc; [|by destruct Hat]. destruct (object_struct F t l Ht Hj) as (fs & (Hnd & Ha & Hok) & Hl & Hde).
  destruct (change_object _ _ _ _ _ _ _ H1 Hc) as (v & -> & Hv). rewrite Hde in H2. destruct (de_fields F fs (put k v l)) as [r|] eqn:Hr; [|done]. injection H2 as <-.
  assert (Hk : k ∈ field_names fs) by (rewrite <-(conform_keys F _ _ Hl); apply assoc_get_in; by eexists).
  destruct (put_known F fs l r k v Hok Hnd Ha Hl Hr Hk) as [(t' & v' & Hf & Hd & Hg) Hne]. destruct (field_conforms F fs l k c Hok Hl Hc) as (t'' & Hf' & Ht' & Hco).
  rewrite Hf in Hf'. injection Hf' as <-. destruct Hv as [[-> Hv]|[Hn Hv]].
  - split; [exists t', c, v, v'; cbn; by rewrite Hc, Hg|]. intros [|b q]; cbn; [done|]. destruct (String.eqb_spec k b) as [->|E]; [done|]. intros _. by rewrite Hne by congruence.
  - destruct (IH t' c v v' Ht' Hco Hv Hd Hat) as [(t2 & c2 & w & w' & E1 & E2 & E3 & E4 & E5 & E6) Hq]. split.
    + exists t2, c2, w, w'. cbn. by rewrite Hc, Hg.
    + intros [|b q]; cbn; [done|]. destruct (String.eqb_spec k b) as [->|E]; [rewrite Hc, Hg; apply Hq|]. intros _. by rewrite Hne by congruence.
Qed.
Fixpoint no_aliases (k : string) (t : Ty) : bool :=
  match t with TOpt t => no_aliases k t | TStruct fs => no_alias k fs && no_aliases_in k fs | _ => true end
with no_aliases_in (k : string) (fs : Fields) : bool := match fs with FNil => true | FCons _ _ _ t r => no_aliases k t && no_aliases_in k r end.
Lemma object_aliases k t l : conforms F t (JObject l) -> no_aliases k t = true -> ty_ok F t ->
  exists fs, ty_ok F (TStruct fs) /\ conform F fs l /\ no_alias k fs = true /\ no_aliases_in k fs = true /\ forall x, de F t (JObject x) = JObject <$> de_fields F fs x.
Proof.
  revert l. induction t as [| | | | | | |t IH|fs]; intros l; cbn; try (by intros []).
  - intros Hc Ha Ht. destruct (IH l Hc Ha Ht) as (fs & ?). by exists fs.
  - intros Hc [H1 H2]%andb_true_iff Hok. by exists fs.
Qed.
Lemma aliases_field k k' fs t : field_of k' fs = Some t -> no_aliases_in k fs = true -> no_aliases k t = true.
Proof. induction fs as [|n a m t' r IH]; cbn; [done|]. intros H [H1 H2]%andb_true_iff. destruct (String.eqb k' n); [by injection H as <-|by apply IH]. Qed.
Lemma put_same k v l : assoc_get k l = Some v -> put k v l = l.
Proof.
  induction l as [|[k' w] l IH]; [done|]. cbn. destruct (String.eqb_spec k k') as [->|n]; [by intros [= ->]|]. intros H. by rewrite IH.
Qed.
Lemma de_fields_same fs o o' : NoDup (field_names fs) -> NoDup (map fst o) -> map fst o = map fst o' -> alias_free fs (map fst o) ->
  (forall n t, field_of n fs = Some t -> exists a b, assoc_get n o = Some a /\ assoc_get n o' = Some b /\ de F t a = de F t b) -> de_fields F fs o = de_fields F fs o'.
Proof.
  intros Hnd Hno Hkeys. induction fs as [|n a m t r IH]; [done|]. cbn. apply NoDup_cons in Hnd as [Hn Hnd]. intros [Ha1 Ha2] Hall.
  rewrite IH; [|done|done|].
  - destruct (Hall n t) as (x & y & Hx & Hy & E); [by rewrite String.eqb_refl|]. rewrite (named_unique n a o x) by done. rewrite (named_unique n a o' y); [by rewrite E|by rewrite <-Hkeys|done|by rewrite <-Hkeys].
  - intros n' t' Hf. apply Hall. destruct (String.eqb_spec n' n) as [->|E]; [|done]. exfalso. apply Hn, field_of_names. by eexists.
Qed.
(** A name that the object does not have is written and then skipped. *)
Lemma change_unknown path f k l x : assoc_get k l = None -> f None = Ok x -> forall pre t j, ty_ok F t -> conforms F t j -> no_aliases k t = true ->
  json_at pre j = Some (JObject l) -> exists j1, change path (pre ++ [k]) f j = Ok j1 /\ de F t j1 = Some j.
Proof.
  intros Hk Hx. induction pre as [|b pre IH]; intros t j Ht Hj Hna Hat; cbn in Hat.
  - injection Hat as ->. destruct (object_aliases k t l Hj Hna Ht) as (fs & (Hnd & Ha & Hok) & Hl & Hna1 & _ & Hde). exists (JObject (put k x l)). cbn. rewrite Hk, Hx. split; [done|].
    rewrite Hde, put_unknown; [done|done|done|done|done| |done]. rewrite <-(conform_keys F _ _ Hl). intros H. apply assoc_get_in in H as [? H]. by rewrite H in Hk.
  - destruct j as [| | | | |o]; try done. cbn in Hat. destruct (assoc_get b o) as [c|] eqn:Hc; [|done].
    destruct (object_aliases k t o Hj Hna Ht) as (fs & (Hnd & Ha & Hok) & Hl & _ & Hna2 & Hde). destruct (field_conforms F fs o b c Hok Hl Hc) as (t' & Hf & Ht' & Hco).
    destruct (IH t' c Ht' Hco (aliases_field _ _ _ _ Hf Hna2) Hat) as (j1 & H1 & H2). exists (JObject (put b j1 o)). split.
    + cbn. rewrite Hc. destruct (pre ++ [k]) as [|y ys] eqn:E; [by destruct pre|]. by rewrite H1.
    + rewrite Hde. pose proof (conform_keys F _ _ Hl) as Hkeys. assert (Hin : b ∈ map fst o) by (apply assoc_get_in; by eexists).
      assert (E : de_fields F fs (put b j1 o) = de_fields F fs o).
      { symmetry. apply de_fields_same; [done|by rewrite Hkeys|by rewrite put_keys|by rewrite Hkeys|]. intros n t2 Hn. assert (Hi : n ∈ map fst o) by (rewrite Hkeys; apply field_of_names; by eexists).
        apply assoc_get_in in Hi as [a Hi]. destruct (decide (n = b)) as [->|Hne]; [|exists a, a; by rewrite assoc_get_put_ne].
        exists c, j1. rewrite Hf in Hn. injection Hn as <-. split; [done|]. split; [apply assoc_get_put|]. by rewrite H2, (conforms_de F t' Ht' c Hco). }
      rewrite E. pose proof (conforms_de F (TStruct fs) (conj Hnd (conj Ha Hok)) (JObject o) Hl) as H. cbn in H. exact H.
Qed.
End Path.

(** ** The settings *)
Lemma strings_elem x l : existsb (String.eqb x) l = true -> x ∈ l.
Proof. intros (y & Hy & E%String.eqb_eq)%existsb_exists. subst. by apply list_elem_of_In. Qed.
Lemma strings_not_elem x l : existsb (String.eqb x) l = false -> x ∉ l.
Proof. intros H Hx%list_elem_of_In. assert (E : existsb (String.eqb x) l = true) by (apply existsb_exists; exists x; split; [done|apply String.eqb_refl]). by rewrite E in H. Qed.
Lemma strings_nodup l : bool_decide (NoDup l) = true -> NoDup (A := string) l.
Proof. by rewrite bool_decide_eq_true. Qed.
Ltac a_number m := exists m; split; [reflexivity|unfold U64_MAX, I64_MAX; lia].
Ltac schema_ok := repeat first
  [ match goal with |- NoDup _ => apply strings_nodup; reflexivity end | split | done | apply f64_default | apply strings_elem; reflexivity | apply strings_not_elem; reflexivity
  | match goal with |- exists n : Z, @pretty positive _ ?m = _ /\ _ => a_number (Z.pos m) | |- exists n : Z, pretty ?m = _ /\ _ => a_number m | |- exists n : Z, _ => a_number 0 end | lia ].
Section Theorems.
Context (F : F64Text) `{!F64Laws F} (from_str : string -> option Json) (to_text : Json -> string).
Lemma settings_ok : ty_ok F settings_ty.
Proof. cbn -[U64_MAX]. schema_ok. Qed.
Lemma default_conforms : conforms F settings_ty default_settings.
Proof. cbn -[U64_MAX]. schema_ok. Qed.
Lemma set_result path value s s' : set F from_str path value s = Ok s' -> exists j, change path (split_on DOT path) (infer F from_str path value) s = Ok j /\ de F settings_ty j = Some s'.
Proof. unfold set. destruct (change _ _ _ _) as [j|]; [|done]. destruct (de _ _ j) as [x|] eqn:E; [|done]. intros [= <-]. eauto. Qed.
Lemma set_conforms path value s s' : set F from_str path value s = Ok s' -> conforms F settings_ty s'.
Proof. intros (j & _ & H)%set_result. exact (de_conforms F _ settings_ok _ _ H). Qed.
Lemma apply_entries_conform m : forall s, conforms F settings_ty s -> conforms F settings_ty (foldl (apply_entry F from_str to_text) s m).
Proof.
  induction m as [|[k v] m IH]; intros s Hs; [done|]. apply IH. unfold apply_entry. cbn [fst snd]. destruct v; try done;
    match goal with |- context [set ?a ?b ?c ?d ?e] => destruct (set a b c d e) eqn:E end; done || by eapply set_conforms.
Qed.
Lemma num_stays t x n v : 0 <= n <= U64_MAX -> conforms F t (JNumber x) -> as_u64 x <> None -> de F t (num n) = Some v -> v = num n.
Proof.
  intros Hn Hc Hx. revert v. induction t as [| | | | | | |t IH|]; intros v; cbn; try done.
  - rewrite as_u64_pretty by done. destruct (within _ _ _) as [m|] eqn:E; [|done]. apply within_some in E as [[= <-] _]. by intros [= <-].
  - destruct (as_i64 _) as [m|] eqn:E; [|done]. intros [= <-]. apply within_some in E as [E _]. rewrite signed_pretty in E. by injection E as ->.
  - cbn in Hc. destruct (f64_not_integer x) as [H _]. by rewrite Hc in H.
  - by apply IH.
Qed.
Definition reads_back (path value : string) (c s' : Json) : Prop :=
  match c with
  | JBool _ => exists b, parse_bool value = Some b /\ json_at (split_on DOT path) s' = Some (JBool b)
  | JString _ => json_at (split_on DOT path) s' = Some (JString value)
  | JNumber t => as_u64 t <> None -> exists n, parse_u64 value = Some n /\ json_at (split_on DOT path) s' = Some (num n)
  | _ => True
  end.
Lemma string_stays t x v : de F t (JString x) = Some v -> v = JString x.
Proof.
  revert v. induction t as [| | | | | |vs|t IH|]; intros v; cbn; try done; [by intros [= <-]|destruct (existsb _ _); [by intros [= <-]|done]|by apply IH].
Qed.
Lemma bool_stays t x v : de F t (JBool x) = Some v -> v = JBool x.
Proof. revert v. induction t as [| | | | | | |t IH|]; intros v; cbn; try done; [by intros [= <-]|by apply IH]. Qed.
(** A setting that is set reads back as it was given, by the type the setting
    had (text as it is, a flag or a natural number when the text is one), and no
    setting outside the path changes. *)
Theorem set_reads_back path value s s' c : conforms F settings_ty s -> set F from_str path value s = Ok s' -> json_at (split_on DOT path) s = Some c ->
  reads_back path value c s' /\ forall q, diverge (split_on DOT path) q = true -> json_at q s' = json_at q s.
Proof.
  intros Hs (j & Hj & Hd)%set_result Hc.
  destruct (change_known F path _ _ _ _ _ _ settings_ok Hs Hj Hd (mk_is_Some _ _ Hc)) as [(t & c' & v & v' & Hc' & Ht & Hco & Hv & Hv' & Hat) Hq]. split; [|done].
  rewrite Hc in Hc'. injection Hc' as <-. unfold reads_back. rewrite Hat. destruct c as [|b|x|x| |]; try done; cbn [infer] in Hv.
  - destruct (parse_bool value) as [b'|]; [|done]. injection Hv as <-. apply bool_stays in Hv'. exists b'. by rewrite Hv'.
  - intros Hx. rewrite bool_decide_eq_true_2 in Hv by (by destruct (as_u64 x)). destruct (parse_u64 value) as [n|] eqn:E; [|done]. injection Hv as <-. exists n. split; [done|].
    f_equal. eapply num_stays; [by apply within_some in E as [_ E]|exact Hco|exact Hx|exact Hv'].
  - injection Hv as <-. by rewrite (string_stays _ _ _ Hv').
Qed.

(** [set] says Ok to the name of a setting that does not exist, in a section
    that does, and changes nothing. *)
Theorem unknown_setting_ignored path value s pre k l : conforms F settings_ty s -> split_on DOT path = pre ++ [k] -> json_at pre s = Some (JObject l) -> assoc_get k l = None -> k <> "setup_completed"%string ->
  set F from_str path value s = Ok s.
Proof.
  intros Hs Hp Hl Hk Hn. unfold set. rewrite Hp.
  assert (Ha : no_aliases k settings_ty = true).
  { cbn. destruct (match k with EmptyString => false | _ => _ end) eqn:E; [|done]. exfalso. apply Hn. symmetry. by apply (String.eqb_eq "setup_completed"). }
  destruct (change_unknown F path (infer F from_str path value) k l _ Hk eq_refl pre settings_ty s settings_ok Hs Ha Hl) as (j1 & -> & ->). done.
Qed.
Lemma settings_object s : conforms F settings_ty s -> exists v l, s = JObject (("onboard_completed"%string, v) :: l) /\ assoc_get "setup_completed" l = None.
Proof.
  destruct s as [| | | | |l]; try by intros []. intros H. pose proof (conform_keys F Settings l H) as Hk. destruct l as [|[k v] l]; [done|]. injection Hk as -> Hk.
  exists v, l. split; [done|]. destruct (assoc_get _ l) eqn:E; [|done]. exfalso. assert (Hin : "setup_completed"%string ∈ map fst l) by (apply assoc_get_in; by eexists).
  revert Hin. rewrite Hk. apply strings_not_elem. reflexivity.
Qed.
Lemma put_alias n k x l : named n (Some k) (put k x l) <> [].
Proof.
  induction l as [|[k' w] l IH]; cbn; [unfold named; cbn; by rewrite String.eqb_refl, orb_true_r|]. destruct (String.eqb_spec k k') as [->|Hk]; unfold named; cbn; [by rewrite String.eqb_refl, orb_true_r|].
  destruct (String.eqb k' n || String.eqb k' k); [done|]. exact IH.
Qed.
(** The name that the alias of [onboard_completed] has is refused, whatever the
    value: the field would be there twice. *)
Theorem alias_cannot_be_set value s : conforms F settings_ty s -> set F from_str "setup_completed" value s = Err FailedToApply.
Proof.
  intros (v & l & -> & Hn)%settings_object. unfold set. change (split_on DOT "setup_completed") with ["setup_completed"%string]. cbn [change assoc_get]. cbn -[de put parse_or_string settings_ty]. rewrite Hn.
  cbn [infer]. set (x := parse_or_string _ _). change (put _ x _) with (("onboard_completed"%string, v) :: put "setup_completed" x l).
  assert (E : de F settings_ty (JObject (("onboard_completed"%string, v) :: put "setup_completed" x l)) = None); [|by rewrite E].
  assert (Hnamed : named "onboard_completed" (Some "setup_completed"%string) (("onboard_completed"%string, v) :: put "setup_completed" x l) =
            v :: named "onboard_completed" (Some "setup_completed"%string) (put "setup_completed" x l)) by done.
  assert (Hp : named "onboard_completed" (Some "setup_completed"%string) (put "setup_completed" x l) <> []) by apply put_alias.
  unfold settings_ty, Settings. cbn [de de_fields]. rewrite Hnamed. destruct (named _ _ (put _ _ _)); [by destruct Hp|reflexivity].
Qed.
Lemma change_error path f e : forall parts j c, parts <> [] -> json_at parts j = Some c -> f (Some c) = Err e -> change path parts f j = Err e.
Proof.
  induction parts as [|k rest IH]; intros j c Hp H Hf; [done|]. destruct j as [| | | | |l]; try done. cbn in H. destruct (assoc_get k l) as [d|] eqn:E; [|done].
  destruct rest as [|k' rest]; [injection H as ->; cbn; by rewrite E, Hf|]. assert (R : change path (k' :: rest) f d = Err e) by (by apply (IH d c)).
  cbn [change] in R |- *. by rewrite E, R.
Qed.
(** Resetting an optional setting does not clear it: a text becomes the text
    null, a number is refused. *)
Theorem reset_does_not_clear path s c : conforms F settings_ty s -> json_at (split_on DOT path) default_settings = Some JNull -> json_at (split_on DOT path) s = Some c ->
  match c with
  | JString _ => forall s', reset F from_str to_text path s = Ok s' -> json_at (split_on DOT path) s' = Some (JString "null")
  | JNumber t => as_u64 t <> None -> reset F from_str to_text path s = Err (ExpectedInteger path "null")
  | _ => True
  end.
Proof.
  intros Hs Hd Hc. assert (R : reset F from_str to_text path s = set F from_str path "null" s) by (unfold reset, get; by rewrite Hd). rewrite R. destruct c as [| |t|x| |]; try done.
  - intros Ht. unfold set. rewrite (change_error _ _ (ExpectedInteger path "null") _ _ (JNumber t)); [done|apply split_on_not_nil|done|].
    cbn [infer]. by rewrite bool_decide_eq_true_2 by (by destruct (as_u64 t)).
  - intros s' Hset. destruct (set_result _ _ _ _ Hset) as (j & Hj & Hde).
    destruct (change_known F path _ _ _ _ _ _ settings_ok Hs Hj Hde (mk_is_Some _ _ Hc)) as [(t & c' & v & v' & Hc' & Ht & Hco & Hv & Hv' & Hat) _].
    rewrite Hc in Hc'. injection Hc' as <-. injection Hv as <-. by rewrite Hat, (string_stays _ _ _ Hv').
Qed.
(** An optional text that reads as a JSON number (the numeric id of a user, a
    token of digits) can neither be set nor read back from the settings table. *)
Theorem numeric_text_lost v t : from_str v = Some (JNumber t) ->
  set F from_str "heartbeat.notify_user" v default_settings = Err FailedToApply /\
  from_db_map F from_str to_text [("heartbeat.notify_user"%string, JString v)] = default_settings.
Proof.
  intros Hv. assert (E : set F from_str "heartbeat.notify_user" v default_settings = Err FailedToApply).
  { unfold set. change (split_on DOT "heartbeat.notify_user") with ["heartbeat"; "notify_user"]%string. cbn [change default_settings assoc_get String.eqb Ascii.eqb Bool.eqb default_heartbeat infer parse_or_string].
    unfold parse_or_string. rewrite Hv. reflexivity. }
  split; [done|]. unfold from_db_map. cbn [foldl apply_entry fst snd show_value]. unfold apply_entry. cbn [fst snd show_value]. by rewrite E.
Qed.
(** A settings file with a section [channels] that does not say whether WASM
    channels are on turns them on, over settings that have them off: the field's
    own default is not the one of the struct. *)
Theorem overlay_turns_on_wasm_channels : exists o,
  from_file F (JObject [("channels"%string, JObject [])]) = Some o /\
  json_at ["channels"; "wasm_channels_enabled"]%string default_settings = Some (JBool false) /\
  json_at ["channels"; "wasm_channels_enabled"]%string (merge_from F default_settings o) = Some (JBool true).
Proof.
  eexists. split; [reflexivity|]. split; [reflexivity|]. unfold merge_from.
  match goal with |- context [merge_non_default ?a ?b ?c] => let m := eval vm_compute in (merge_non_default a b c) in replace (merge_non_default a b c) with m by (vm_compute; reflexivity) end.
  cbn -[f64_text]. by rewrite !f64_default.
Qed.
End Theorems.

(** ** Witnesses *)
Definition some_f64 : F64Text :=
  mkF64Text (fun t => if String.eqb t "5000.0" then t else "0.5"%string)
            (fun t => if String.eqb t "5000.0" || String.eqb t "0.5" then Some (Some t) else None).
#[export] Instance some_f64_laws : F64Laws some_f64.
Proof.
  split.
  - intros t. cbn. destruct (String.eqb_spec t "5000.0") as [->|n]; done.
  - intros v t. cbn. destruct (String.eqb_spec v "5000.0") as [->|n]; [by intros [= <-]|]. destruct (String.eqb_spec v "0.5") as [->|n']; [by intros [= <-]|done].
  - intros t. cbn. destruct (String.eqb_spec t "5000.0") as [->|n]; [done|]. intros <-. done.
  - done.
  - intros t. cbn. destruct (String.eqb_spec t "5000.0") as [->|n]; by vm_compute.
Qed.
Definition digits_json (s : string) : option Json := match digits s with Some n => Some (num n) | None => None end.
Definition no_text (j : Json) : string := EmptyString.
Lemma set_reads_back_witness : exists s', set some_f64 digits_json "agent.max_parallel_jobs" "7" default_settings = Ok s' /\
  reads_back "agent.max_parallel_jobs" "7" (num 5) s' /\ json_at ["agent"; "name"]%string s' = Some (JString "ironclaw").
Proof.
  eexists. split; [vm_compute; reflexivity|]. split.
  - eapply (set_reads_back some_f64 digits_json); [apply default_conforms; exact _|vm_compute; reflexivity|vm_compute; reflexivity].
  - vm_compute. reflexivity.
Defined.
Lemma unknown_setting_ignored_witness : set some_f64 digits_json "agent.max_paralel_jobs" "7" default_settings = Ok default_settings.
Proof. eapply (unknown_setting_ignored some_f64 digits_json _ _ _ ["agent"%string]); [apply default_conforms; exact _|reflexivity|reflexivity|reflexivity|done]. Defined.
Lemma alias_cannot_be_set_witness : set some_f64 digits_json "setup_completed" "true" default_settings = Err FailedToApply.
Proof. apply (alias_cannot_be_set some_f64 digits_json). apply default_conforms; exact _. Defined.
Definition with_backend : Json := match set some_f64 digits_json "llm_backend" "ollama" default_settings with Ok s => s | Err _ => JNull end.
Lemma with_backend_conforms : conforms some_f64 settings_ty with_backend.
Proof. apply (set_conforms some_f64 digits_json "llm_backend" "ollama" default_settings). vm_compute. reflexivity. Qed.
Lemma reset_does_not_clear_witness : exists s', reset some_f64 digits_json no_text "llm_backend" with_backend = Ok s' /\ json_at ["llm_backend"%string] s' = Some (JString "null").
Proof.
  eexists. split; [vm_compute; reflexivity|].
  apply (fun H2 H3 => reset_does_not_clear some_f64 digits_json no_text "llm_backend" with_backend (JString "ollama") with_backend_conforms H2 H3); vm_compute; reflexivity.
Defined.
Lemma numeric_text_lost_witness : set some_f64 digits_json "heartbeat.notify_user" "8123456789" default_settings = Err FailedToApply.
Proof. apply (numeric_text_lost some_f64 digits_json no_text _ "8123456789"). vm_compute. reflexivity. Defined.
Lemma overlay_turns_on_wasm_channels_witness : is_Some (from_file some_f64 (JObject [("channels"%string, JObject [])])).
Proof. destruct (overlay_turns_on_wasm_channels some_f64) as (o & H & _). eexists. exact H. Defined.
