(* ===== verification/WasmChannelHost.v ===== *)
(** What a WASM channel may do: [src/channels/wasm/host.rs] (messages, writes,
    the rate of messages), [src/channels/wasm/capabilities.rs], and the host
    functions of [src/channels/wasm/wrapper.rs].

    As in [WasmHost], the guest is arbitrary: a sequence of calls of the host
    functions.  Its HTTP client, the leak detector and the pairing store are
    those of [WasmHost], [LeakDetector] and [Pairing]; the credentials are a
    list in the order of the map's iteration. *)

From S2P Require Import Prelude Strs Json LeakDetector Tool RateLimiter HttpPolicy WasmHost Pairing.
#[local] Open Scope claw_scope.

(** ** Capabilities *)
Definition MIN_POLL_INTERVAL_MS : Z := 30000.
Definition DEFAULT_EMIT_RATE_PER_MINUTE : Z := 100.
Definition DEFAULT_EMIT_RATE_PER_HOUR : Z := 5000.
Record EmitRateLimitConfig := mkEmitRate { messages_per_minute : Z; messages_per_hour : Z }.
Definition default_emit_rate : EmitRateLimitConfig := mkEmitRate DEFAULT_EMIT_RATE_PER_MINUTE DEFAULT_EMIT_RATE_PER_HOUR.
Definition emit_rate_of (c : RateLimitConfig) : EmitRateLimitConfig := mkEmitRate (requests_per_minute c) (requests_per_hour c).
Record ChannelCapabilities := mkCCaps {
  tool_capabilities : Capabilities; allowed_paths : list string; allow_polling : bool; min_poll_interval_ms : Z; workspace_prefix : string;
  emit_rate_limit : EmitRateLimitConfig; max_message_size : Z; callback_timeout : Duration }.
Definition default_ccaps : ChannelCapabilities :=
  mkCCaps no_capabilities [] false MIN_POLL_INTERVAL_MS EmptyString default_emit_rate (64 * 1024) (from_secs 30).
Definition for_channel (name : string) : ChannelCapabilities :=
  mkCCaps no_capabilities [] false MIN_POLL_INTERVAL_MS ("channels/" ++s name ++s "/") default_emit_rate (64 * 1024) (from_secs 30).
Definition with_path (p : string) (c : ChannelCapabilities) : ChannelCapabilities :=
  mkCCaps (tool_capabilities c) (allowed_paths c ++ [p]) (allow_polling c) (min_poll_interval_ms c) (workspace_prefix c) (emit_rate_limit c) (max_message_size c) (callback_timeout c).
Definition with_polling (ms : Z) (c : ChannelCapabilities) : ChannelCapabilities :=
  mkCCaps (tool_capabilities c) (allowed_paths c) true (Z.max ms MIN_POLL_INTERVAL_MS) (workspace_prefix c) (emit_rate_limit c) (max_message_size c) (callback_timeout c).
Definition with_emit_rate_limit (r : EmitRateLimitConfig) (c : ChannelCapabilities) : ChannelCapabilities :=
  mkCCaps (tool_capabilities c) (allowed_paths c) (allow_polling c) (min_poll_interval_ms c) (workspace_prefix c) r (max_message_size c) (callback_timeout c).
Definition with_callback_timeout (t : Duration) (c : ChannelCapabilities) : ChannelCapabilities :=
  mkCCaps (tool_capabilities c) (allowed_paths c) (allow_polling c) (min_poll_interval_ms c) (workspace_prefix c) (emit_rate_limit c) (max_message_size c) t.
Definition with_tool_capabilities (t : Capabilities) (c : ChannelCapabilities) : ChannelCapabilities :=
  mkCCaps t (allowed_paths c) (allow_polling c) (min_poll_interval_ms c) (workspace_prefix c) (emit_rate_limit c) (max_message_size c) (callback_timeout c).
Definition is_path_allowed (p : string) (c : ChannelCapabilities) : bool := existsb (String.eqb p) (allowed_paths c).
Definition validate_poll_interval (ms : Z) (c : ChannelCapabilities) : Result Z string :=
  if allow_polling c then Ok (Z.max ms (min_poll_interval_ms c)) else Err "Polling not allowed for this channel"%string.
Definition prefix_workspace_path (p : string) (c : ChannelCapabilities) : string := if is_empty (workspace_prefix c) then p else workspace_prefix c ++s p.
Definition channel_workspace_path (p : string) (c : ChannelCapabilities) : Result string string :=
  if starts_with p "/" then Err "Absolute paths not allowed"%string
  else if str_contains p ".." then Err "Parent directory references not allowed"%string
  else if contains_char p (chr 0) then Err "Null bytes not allowed"%string
  else Ok (prefix_workspace_path p c).

(** ** The state of one callback *)
Definition MAX_EMITS_PER_EXECUTION : nat := 100.
Definition MAX_MESSAGE_CONTENT_SIZE : nat := 64 * 1024.
Definition TRUNCATED : string := "... (truncated)".
Record EmittedMessage := mkEmitted {
  em_user_id : string; em_user_name : option string; em_content : string; em_thread_id : option string; em_metadata_json : string; em_at : Z }.
Definition new_emitted (user content : string) (now : Z) : EmittedMessage := mkEmitted user None content None "{}" now.
Definition set_content (c : string) (m : EmittedMessage) : EmittedMessage := mkEmitted (em_user_id m) (em_user_name m) c (em_thread_id m) (em_metadata_json m) (em_at m).
Record PendingWrite := mkWrite { pw_path : string; pw_content : string }.
Record ChannelHostState := mkChost {
  base : HostState; ch_name : string; ch_caps : ChannelCapabilities; emitted_messages : list EmittedMessage; pending_writes : list PendingWrite;
  emit_count : Z; emit_enabled : bool; emits_dropped : Z }.
Definition new_chost (name : string) (c : ChannelCapabilities) : ChannelHostState := mkChost (new_host (tool_capabilities c)) name c [] [] 0 true 0.
Definition with_base (b : HostState) (h : ChannelHostState) : ChannelHostState :=
  mkChost b (ch_name h) (ch_caps h) (emitted_messages h) (pending_writes h) (emit_count h) (emit_enabled h) (emits_dropped h).
Definition drop_emit (h : ChannelHostState) : ChannelHostState :=
  mkChost (base h) (ch_name h) (ch_caps h) (emitted_messages h) (pending_writes h) (emit_count h) false (emits_dropped h + 1).
Definition queue_emit (m : EmittedMessage) (h : ChannelHostState) : ChannelHostState :=
  mkChost (base h) (ch_name h) (ch_caps h) (emitted_messages h ++ [m]) (pending_writes h) (wrap 32 (emit_count h + 1)) (emit_enabled h) (emits_dropped h).
(** [None] is a panic: the slice of the content may cut a character in two. *)
Definition emit_message (m : EmittedMessage) (h : ChannelHostState) : option ChannelHostState :=
  if negb (emit_enabled h) then Some (drop_emit h)
  else if (MAX_EMITS_PER_EXECUTION <=? length (emitted_messages h))%nat then Some (drop_emit h)
  else if (MAX_MESSAGE_CONTENT_SIZE <? String.length (em_content m))%nat
  then if is_char_boundary (em_content m) MAX_MESSAGE_CONTENT_SIZE
       then Some (queue_emit (set_content (String.substring 0 MAX_MESSAGE_CONTENT_SIZE (em_content m) ++s TRUNCATED) m) h)
       else None
  else Some (queue_emit m h).
Definition take_emitted_messages (h : ChannelHostState) : list EmittedMessage * ChannelHostState :=
  (emitted_messages h, mkChost (base h) (ch_name h) (ch_caps h) [] (pending_writes h) (emit_count h) (emit_enabled h) (emits_dropped h)).
Definition workspace_write (path content : string) (h : ChannelHostState) : Result unit string * ChannelHostState :=
  match channel_workspace_path path (ch_caps h) with
  | Ok full => (Ok tt, mkChost (base h) (ch_name h) (ch_caps h) (emitted_messages h) (pending_writes h ++ [mkWrite full content]) (emit_count h) (emit_enabled h) (emits_dropped h))
  | Err reason => (Err ("Channel " ++s ch_name h ++s " workspace path escape attempt: " ++s reason), h)
  end.
Definition take_pending_writes (h : ChannelHostState) : list PendingWrite * ChannelHostState :=
  (pending_writes h, mkChost (base h) (ch_name h) (ch_caps h) (emitted_messages h) [] (emit_count h) (emit_enabled h) (emits_dropped h)).
Definition channel_read (path : string) (h : ChannelHostState) : Result (option string) WasmError := read_workspace (prefix_workspace_path path (ch_caps h)) (base h).

(** ** The rate of messages over the callbacks *)
Record RateWindow := mkRateWindow { rw_count : Z; rw_start : Z; rw_duration : Z }.
Definition new_rate_window (d : Z) : RateWindow := mkRateWindow 0 0 d.
Definition window_check (now limit : Z) (w : RateWindow) : bool * RateWindow :=
  let w := if rw_duration w <? Z.max 0 (now - rw_start w) then mkRateWindow 0 now (rw_duration w) else w in
  if limit <=? rw_count w then (false, w) else (true, mkRateWindow (rw_count w + 1) (rw_start w) (rw_duration w)).
Record EmitLimiter := mkEmitLimiter { el_config : EmitRateLimitConfig; el_minute : RateWindow; el_hour : RateWindow }.
Definition new_emit_limiter (c : EmitRateLimitConfig) : EmitLimiter := mkEmitLimiter c (new_rate_window 60000) (new_rate_window 3600000).
Definition limiter_check (now : Z) (l : EmitLimiter) : bool * EmitLimiter :=
  let '(a, m) := window_check now (messages_per_minute (el_config l)) (el_minute l) in
  let '(b, h) := window_check now (messages_per_hour (el_config l)) (el_hour l) in
  (a && b, mkEmitLimiter (el_config l) m h).

(** ** The guest *)
Section Guest.
Context (url_parse : string -> Result Url string) (decode : string -> option string).
Context (result_debug : AllowlistResult -> string) (find_iter : string -> string -> list (nat * nat))
  (ac_find_iter : list string -> string -> list (nat * (nat * nat))) (detector : LeakDetector) (lossy : string -> string)
  (parse_map : string -> option (gmap string string)) (print_map : gmap string string -> string).
Context (send : HttpRequest -> Result HttpResponse string) (parse_meta : string -> option Json.Json) (pairing_error : PairingStoreError -> string).
Abbreviation PairingFiles := (gmap string (ChannelFiles Json.Json)).
Definition as_store (h : ChannelHostState) (creds : list (string * string)) : StoreData := mkStoreData (base h) creds [].
Definition channel_prepare (m u headers_json : string) (body : option string) (timeout : option Z) (creds : list (string * string)) (h : ChannelHostState)
  : Result HttpRequest string * ChannelHostState :=
  let injected_url := inject_credentials (as_store h creds) u in
  match check_http_allowed url_parse decode result_debug injected_url m (base h) with
  | Err e => (Err ("HTTP not allowed: " ++s e), h)
  | Ok _ =>
      let '(r, b) := record_http_request (base h) in
      let h := with_base b h in
      match r with
      | Err e => (Err ("Rate limit exceeded: " ++s e), h)
      | Ok _ =>
          let hs := inject_credentials (as_store h creds) <$> default ∅ (parse_map headers_json) in
          (match scan_http_request find_iter ac_find_iter detector injected_url (map_to_list hs) (lossy <$> body) with
           | Err e => Err ("Potential secret leak blocked: " ++s leak_error_display e)
           | Ok _ => Ok (mkHttpRequest m injected_url hs body (Z.min (default 30000 timeout) 300000))
           end, h)
      end
  end.
Definition channel_http_request (m u headers_json : string) (body : option string) (timeout : option Z) (creds : list (string * string)) (h : ChannelHostState)
  : Result (Z * string * string) string * ChannelHostState * option HttpRequest :=
  match channel_prepare m u headers_json body timeout creds h with
  | (Err e, h) => (Err e, h, None)
  | (Ok rq, h) => (match perform find_iter ac_find_iter detector print_map send (as_store h creds) rq with Ok x => Ok x | Err e => Err (redact_credentials (as_store h creds) e) end, h, Some rq)
  end.
(** The name of the channel in the calls of the pairing store is the guest's. *)
Inductive ChannelCall :=
| CLog (l : LogLevel) (m : string) (now : Z)
| CRead (path : string)
| CWrite (path content : string)
| CHttp (m u headers_json : string) (body : option string) (timeout : option Z)
| CSecretExists (name : string)
| CEmit (m : EmittedMessage)
| CPairUpsert (channel id meta_json : string) (now : Z) (draws : nat -> string) (fallback : string)
| CPairIsAllowed (channel id : string) (username : option string)
| CPairReadAllowFrom (channel : string).
Record Guest := mkGuest { g_host : ChannelHostState; g_pairing : PairingFiles; g_sent : list HttpRequest }.
Definition set_host (h : ChannelHostState) (g : Guest) : Guest := mkGuest h (g_pairing g) (g_sent g).
Definition pairing_meta (meta_json : string) : option Json.Json := if is_empty meta_json then None else parse_meta meta_json.
Definition pairing_upsert (channel i meta_json : string) (now : Z) (draws : nat -> string) (fallback : string) (s : PairingFiles) : Result UpsertResult string * PairingFiles :=
  match upsert_request channel i (pairing_meta meta_json) now draws fallback s with
  | (Ok r, s) => (Ok r, s)
  | (Err e, s) => (Err (pairing_error e), s)
  end.
Definition channel_call (creds : list (string * string)) (c : ChannelCall) (g : Guest) : option Guest :=
  match c with
  | CLog l m now => match log l m now (base (g_host g)) with Some b => Some (set_host (with_base b (g_host g)) g) | None => None end
  | CWrite p t => Some (set_host (workspace_write p t (g_host g)).2 g)
  | CHttp m u hs body t => let '(_, h, rq) := channel_http_request m u hs body t creds (g_host g) in Some (mkGuest h (g_pairing g) (g_sent g ++ option_list rq))
  | CEmit m => match emit_message m (g_host g) with Some h => Some (set_host h g) | None => None end
  | CPairUpsert ch i meta now draws fallback => Some (mkGuest (g_host g) (pairing_upsert ch i meta now draws fallback (g_pairing g)).2 (g_sent g))
  | CRead _ | CSecretExists _ | CPairIsAllowed _ _ _ | CPairReadAllowFrom _ => Some g
  end.
(** The guest, and whether the host has not panicked. *)
Fixpoint channel_guest (creds : list (string * string)) (cs : list ChannelCall) (g : Guest) : bool * Guest :=
  match cs with
  | [] => (true, g)
  | c :: cs => match channel_call creds c g with Some g => channel_guest creds cs g | None => (false, g) end
  end.
End Guest.

(** ** Proofs *)
Section Proofs.
Context (url_parse : string -> Result Url string) (decode : string -> option string).
Context (result_debug : AllowlistResult -> string) (find_iter : string -> string -> list (nat * nat))
  (ac_find_iter : list string -> string -> list (nat * (nat * nat))) (detector : LeakDetector) (lossy : string -> string)
  (parse_map : string -> option (gmap string string)) (print_map : gmap string string -> string).
Context (send : HttpRequest -> Result HttpResponse string) (parse_meta : string -> option Json.Json) (pairing_error : PairingStoreError -> string).
Abbreviation prepare := (channel_prepare url_parse decode result_debug find_iter ac_find_iter detector lossy parse_map).
Abbreviation request := (channel_http_request url_parse decode result_debug find_iter ac_find_iter detector lossy parse_map print_map send).
Abbreviation call := (channel_call url_parse decode result_debug find_iter ac_find_iter detector lossy parse_map print_map send parse_meta pairing_error).
Abbreviation guest := (channel_guest url_parse decode result_debug find_iter ac_find_iter detector lossy parse_map print_map send parse_meta pairing_error).
Section Bounds.
Context (name : string) (caps : ChannelCapabilities).
(** A write below the prefix of the channel, with no way up. *)
Definition write_ok (w : PendingWrite) : Prop :=
  exists p, pw_path w = prefix_workspace_path p caps /\ starts_with p "/" = false /\ str_contains p ".." = false /\ contains_char p (chr 0) = false.
Definition message_ok (m : EmittedMessage) : Prop := (String.length (em_content m) <= MAX_MESSAGE_CONTENT_SIZE + String.length TRUNCATED)%nat.
(** A request that the allowlist of the channel and the leak detector let pass. *)
Definition request_ok (rq : HttpRequest) : Prop :=
  (exists cap, http (tool_capabilities caps) = Some cap /\ validate url_parse decode (new_validator (allowlist cap)) (url rq) (method rq) = HttpPolicy.Allowed)
  /\ is_ok (scan_http_request find_iter ac_find_iter detector (url rq) (map_to_list (request_headers rq)) (lossy <$> request_body rq)) = true /\ timeout_ms rq <= 300000.
Record guest_ok (n : Z) (g : Guest) : Prop := {
  go_caps : ch_caps (g_host g) = caps; go_tool_caps : capabilities (base (g_host g)) = tool_capabilities caps;
  go_count : 0 <= http_request_count (base (g_host g)) <= n;
  go_sent : Z.of_nat (length (g_sent g)) <= Z.min 50 (http_request_count (base (g_host g)));
  go_emits : (length (emitted_messages (g_host g)) <= MAX_EMITS_PER_EXECUTION)%nat;
  go_messages : Forall message_ok (emitted_messages (g_host g)); go_writes : Forall write_ok (pending_writes (g_host g)); go_requests : Forall request_ok (g_sent g) }.
Lemma log_frame l m now h h' : log l m now h = Some h' -> capabilities h' = capabilities h /\ http_request_count h' = http_request_count h.
Proof. unfold log. destruct (negb _); [by intros [= <-]|]. destruct (_ <=? _)%nat; [by intros [= <-]|]. destruct (truncate_message m); by intros [= <-]. Qed.
Lemma emit_frame m h h' : emit_message m h = Some h' ->
  base h' = base h /\ ch_caps h' = ch_caps h /\ pending_writes h' = pending_writes h /\
  (emitted_messages h' = emitted_messages h \/ exists m', emitted_messages h' = emitted_messages h ++ [m'] /\ (length (emitted_messages h) < MAX_EMITS_PER_EXECUTION)%nat /\ message_ok m').
Proof.
  unfold emit_message. destruct (negb _); [intros [= <-]; by auto|]. destruct (Nat.leb_spec MAX_EMITS_PER_EXECUTION (length (emitted_messages h))); [intros [= <-]; by auto|].
  destruct (Nat.ltb_spec MAX_MESSAGE_CONTENT_SIZE (String.length (em_content m))).
  - destruct (is_char_boundary _ _); [|done]. intros [= <-]. split_and!; [done..|]. right. eexists. split; [reflexivity|]. split; [done|]. unfold message_ok. cbn [em_content set_content].
    rewrite append_length_str. pose proof (substring_length_le 0 MAX_MESSAGE_CONTENT_SIZE (em_content m)). lia.
  - intros [= <-]. split_and!; [done..|]. right. exists m. split; [done|]. split; [done|]. unfold message_ok. lia.
Qed.
Lemma write_frame p t h : let h' := (workspace_write p t h).2 in ch_caps h = caps ->
  base h' = base h /\ ch_caps h' = ch_caps h /\ emitted_messages h' = emitted_messages h /\ (pending_writes h' = pending_writes h \/ exists w, pending_writes h' = pending_writes h ++ [w] /\ write_ok w).
Proof.
  cbn zeta. intros Hc. unfold workspace_write, channel_workspace_path. rewrite Hc. destruct (starts_with p "/") eqn:E1; [by auto|]. destruct (str_contains p "..") eqn:E2; [by auto|].
  destruct (contains_char p (chr 0)) eqn:E3; [by auto|]. cbn. split_and!; [done|done|done|]. right. eexists. split; [reflexivity|]. exists p. cbn. done.
Qed.
Lemma request_frame m u hj body t creds h : let '(_, h', rq) := request m u hj body t creds h in
  ch_caps h = caps -> capabilities (base h) = tool_capabilities caps -> 0 <= http_request_count (base h) -> http_request_count (base h) + 1 < 2 ^ 32 ->
  ch_caps h' = caps /\ capabilities (base h') = tool_capabilities caps /\ emitted_messages h' = emitted_messages h /\ pending_writes h' = pending_writes h /\
  http_request_count (base h) <= http_request_count (base h') <= http_request_count (base h) + 1 /\
  forall x, rq = Some x -> request_ok x /\ http_request_count (base h') = http_request_count (base h) + 1 /\ http_request_count (base h') <= 50.
Proof.
  destruct (request m u hj body t creds h) as [[r h'] rq] eqn:E. intros Hc Ht H0 Hn. revert E. unfold channel_http_request, channel_prepare. unfold check_http_allowed. rewrite Ht.
  destruct (http (tool_capabilities caps)) as [cap|] eqn:Ecap; [|by intros [= _ <- <-]; split_and!; done || lia].
  destruct (validate _ _ _ _ _) eqn:Ev; [|by intros [= _ <- <-]; split_and!; done || lia]. unfold record_http_request. rewrite Ht, Ecap.
  rewrite wrap_small by (unfold in_u; lia). destruct (Z.ltb_spec MAX_REQUESTS_PER_EXECUTION (http_request_count (base h) + 1)) as [|H50].
  - intros [= _ <- <-]. cbn. split_and!; done || lia.
  - destruct (scan_http_request _ _ _ _ _ _) as [|] eqn:Es; apply (f_equal is_ok) in Es; cbn [is_ok] in Es; intros [= _ <- <-]; cbn; (split_and!; [done|done|done|done|lia|lia|]); [|done].
    intros x [= <-]. unfold MAX_REQUESTS_PER_EXECUTION in H50. split_and!; [|done|lia]. unfold request_ok. cbn [url method request_headers request_body timeout_ms]. split_and!; [by exists cap|exact Es|lia].
Qed.
Lemma call_ok c creds n g g' : guest_ok n g -> n + 1 < 2 ^ 32 -> call creds c g = Some g' -> guest_ok (n + 1) g'.
Proof.
  intros [H1 H2 H3 H4 H5 H6 H7 H8] Hn. destruct c as [l m now|p|p t|m u hj body t|x|m|ch i meta now draws fb|ch i un|ch]; cbn [channel_call].
  - destruct (log l m now (base (g_host g))) as [b|] eqn:E; [|done]. intros [= <-]. apply log_frame in E as [E1 E2]. constructor; cbn; try done; rewrite ?E1, ?E2; done || lia.
  - intros [= <-]. constructor; done || lia.
  - intros [= <-]. destruct (write_frame p t (g_host g) H1) as (E1 & E2 & E3 & E4). constructor; cbn; rewrite ?E1, ?E2, ?E3; try done; try lia.
    destruct E4 as [->|(w & -> & Hw)]; [done|]. apply Forall_app. by split; [|constructor].
  - pose proof (request_frame m u hj body t creds (g_host g)) as Hf. destruct (request m u hj body t creds (g_host g)) as [[r h'] rq]. intros [= <-].
    destruct (Hf H1 H2 ltac:(lia) ltac:(lia)) as (E1 & E2 & E3 & E4 & E5 & E6). constructor; cbn; rewrite ?E3, ?E4; try done; try lia.
    + destruct rq as [x|]; cbn; [|rewrite app_nil_r; lia]. destruct (E6 x eq_refl) as (_ & ? & ?). rewrite length_app. cbn. lia.
    + destruct rq as [x|]; cbn; [|by rewrite app_nil_r]. apply Forall_app. split; [done|]. constructor; [|done]. by destruct (E6 x eq_refl).
  - intros [= <-]. constructor; done || lia.
  - destruct (emit_message m (g_host g)) as [h|] eqn:E; [|done]. intros [= <-]. apply emit_frame in E as (E1 & E2 & E3 & E4). constructor; cbn; rewrite ?E1, ?E2, ?E3; try done; try lia.
    + destruct E4 as [->|(m' & -> & Hl & _)]; [done|]. rewrite length_app. cbn. lia.
    + destruct E4 as [->|(m' & -> & _ & Hm)]; [done|]. apply Forall_app. by split; [|constructor].
  - intros [= <-]. constructor; cbn; done || lia.
  - intros [= <-]. constructor; done || lia.
  - intros [= <-]. constructor; done || lia.
Qed.
Lemma guest_ok_le n m g : guest_ok n g -> n <= m -> guest_ok m g.
Proof. intros [] H. constructor; done || lia. Qed.
Lemma guest_run_ok cs creds b : forall n g g', guest_ok n g -> n + Z.of_nat (length cs) < 2 ^ 32 -> guest creds cs g = (b, g') -> guest_ok (n + Z.of_nat (length cs)) g'.
Proof.
  induction cs as [|c cs IH]; intros n g g' Hg Hn; cbn [channel_guest length]; [intros [= _ <-]; by rewrite Z.add_0_r|]. cbn [length] in Hn.
  destruct (call creds c g) as [g1|] eqn:E; [|intros [= _ <-]; eapply guest_ok_le; [exact Hg|lia]]. intros H. apply (call_ok c creds n) in E; [|done|lia]. replace (n + Z.of_nat (S (length cs))) with (n + 1 + Z.of_nat (length cs)) by lia.
  eapply IH; [exact E|lia|exact H].
Qed.
Lemma start_ok pairing : guest_ok 0 (mkGuest (new_chost name caps) pairing []).
Proof. constructor; cbn; first [done | lia | constructor]. Qed.
End Bounds.
(** One callback of a channel, whatever the guest does (in fewer than 2^32
    calls): at most a hundred messages of bounded size, at most fifty requests,
    each within the allowlist and passed by the leak detector, and writes only
    below the prefix of the channel. *)
Theorem channel_execution_bounded (creds : list (string * string)) (cs : list ChannelCall) (name : string) (caps : ChannelCapabilities) pairing (b : bool) (g : Guest) :
  Z.of_nat (length cs) < 2 ^ 32 -> guest creds cs (mkGuest (new_chost name caps) pairing []) = (b, g) ->
  (length (emitted_messages (g_host g)) <= 100)%nat /\ Forall message_ok (emitted_messages (g_host g)) /\ (length (g_sent g) <= 50)%nat
  /\ Forall (request_ok caps) (g_sent g) /\ Forall (write_ok caps) (pending_writes (g_host g)).
Proof.
  intros Hn H. destruct (guest_run_ok caps cs creds b 0 _ g (start_ok name caps pairing) ltac:(lia) H) as [_ _ _ H4 H5 H6 H7 H8]. split_and!; [done|done|lia|done|done].
Qed.
(** The channel's requests are not checked against private addresses, as those
    of tools are: a request that only this check refuses to a tool is let
    through. *)
Theorem private_addresses_not_refused (parse_ip : string -> option Ip) (ip_show : Ip -> string) (dns : string -> Result (list Ip) string) (url_encode : string -> string)
    (m u hj : string) (body : option string) (t : option Z) (creds : list (string * string)) (h : ChannelHostState) (rq : HttpRequest) h' :
  prepare m u hj body t creds h = (Ok rq, h') ->
  (WasmHost.prepare_request url_parse decode url_encode result_debug find_iter ac_find_iter detector lossy parse_map parse_ip ip_show dns m u hj body t (as_store h creds)).1
  = match reject_private_ip url_parse parse_ip ip_show dns (url rq) with Ok _ => Ok rq | Err e => Err e end.
Proof.
  unfold channel_prepare, WasmHost.prepare_request. cbn [as_store host_state]. destruct (check_http_allowed _ _ _ _ _ _); [|done].
  destruct (record_http_request (base h)) as [[r|e] b]; [|done].
  destruct (scan_http_request _ _ _ _ _ _) as [v|] eqn:Es; [|done]. intros [= <- _]. cbn [url].
  replace (match extract_host_from_url url_parse (inject_credentials (as_store h creds) u) with Some host => _ | None => _ end)
    with (inject_credentials (as_store h creds) <$> default ∅ (parse_map hj), inject_credentials (as_store h creds) u) by (by destruct (extract_host_from_url _ _)).
  assert (Es' : scan_http_request find_iter ac_find_iter detector (inject_credentials (as_store h creds) u)
    (map_to_list (inject_credentials (as_store h creds) <$> default ∅ (parse_map hj))) (lossy <$> body) = Ok v) by exact Es.
  rewrite Es'. cbn [fst]. by destruct (reject_private_ip _ _ _ _ _).
Qed.
End Proofs.
(** ** The rate *)
Fixpoint window_grants (limit : Z) (ts : list Z) (w : RateWindow) : Z :=
  match ts with [] => 0 | t :: ts => let '(ok, w) := window_check t limit w in (if ok then 1 else 0) + window_grants limit ts w end.
Fixpoint limiter_grants (ts : list Z) (l : EmitLimiter) : Z :=
  match ts with [] => 0 | t :: ts => let '(ok, l) := limiter_check t l in (if ok then 1 else 0) + limiter_grants ts l end.
Lemma limiter_minute ts : forall l, limiter_grants ts l <= window_grants (messages_per_minute (el_config l)) ts (el_minute l).
Proof.
  induction ts as [|t ts IH]; intros l; cbn; [done|]. unfold limiter_check. destruct (window_check t (messages_per_minute _) _) as [a m].
  destruct (window_check t (messages_per_hour _) _) as [b h]. specialize (IH (mkEmitLimiter (el_config l) m h)). cbn [el_config el_minute] in IH. destruct a, b; cbn; lia.
Qed.
Lemma grants_one_window limit w ts : rw_count w <= Z.max 0 limit -> Forall (fun t => t - rw_start w <= rw_duration w) ts -> 0 <= rw_duration w -> window_grants limit ts w <= Z.max 0 limit - rw_count w.
Proof.
  revert w. induction ts as [|t ts IH]; intros w Hc Hts Hd; cbn; [lia|]. inversion Hts as [|? ? Ht Hr]; subst. unfold window_check.
  destruct (Z.ltb_spec (rw_duration w) (Z.max 0 (t - rw_start w))); [lia|]. destruct (Z.leb_spec limit (rw_count w)); [by apply IH|].
  specialize (IH (mkRateWindow (rw_count w + 1) (rw_start w) (rw_duration w))). cbn in IH. specialize (IH ltac:(lia) Hr Hd). lia.
Qed.
Lemma grants_two_windows limit w a ts : rw_count w <= Z.max 0 limit -> Forall (fun t => a <= t <= a + rw_duration w) ts -> 0 <= rw_duration w -> window_grants limit ts w <= 2 * Z.max 0 limit - rw_count w.
Proof.
  revert w. induction ts as [|t ts IH]; intros w Hc Hts Hd; cbn; [lia|]. inversion Hts as [|? ? Ht Hr]; subst. unfold window_check.
  destruct (Z.ltb_spec (rw_duration w) (Z.max 0 (t - rw_start w))).
  - cbn [rw_count]. assert (Hw : forall c, Forall (fun x => x - rw_start (mkRateWindow c t (rw_duration w)) <= rw_duration (mkRateWindow c t (rw_duration w))) ts)
      by (intros c; eapply Forall_impl; [exact Hr|]; cbn; lia).
    destruct (Z.leb_spec limit 0); cbn [rw_count rw_start rw_duration].
    + pose proof (grants_one_window limit (mkRateWindow 0 t (rw_duration w)) ts ltac:(cbn; lia) (Hw 0) Hd) as H1. cbn [rw_count] in H1. lia.
    + pose proof (grants_one_window limit (mkRateWindow (0 + 1) t (rw_duration w)) ts ltac:(cbn; lia) (Hw (0 + 1)) Hd) as H1. cbn [rw_count] in H1. lia.
  - destruct (Z.leb_spec limit (rw_count w)); [by apply IH|].
    specialize (IH (mkRateWindow (rw_count w + 1) (rw_start w) (rw_duration w))). cbn in IH. specialize (IH ltac:(lia) Hr Hd). lia.
Qed.
(** Over all callbacks: in any minute at most twice the messages a minute may
    have (the windows are fixed, so two of them can meet in it), whatever the
    clock does within it. *)
Theorem emit_rate_bounded (l : EmitLimiter) (a : Z) (ts : list Z) :
  rw_duration (el_minute l) = 60000 -> 0 <= rw_count (el_minute l) <= messages_per_minute (el_config l) -> Forall (fun t => a <= t <= a + 60000) ts ->
  limiter_grants ts l <= 2 * messages_per_minute (el_config l).
Proof.
  intros Hd Hc Hts. pose proof (limiter_minute ts l).
  assert (window_grants (messages_per_minute (el_config l)) ts (el_minute l) <= 2 * Z.max 0 (messages_per_minute (el_config l)) - rw_count (el_minute l)); [|lia].
  apply (grants_two_windows _ _ a); rewrite ?Hd; done || lia.
Qed.

(** ** Witnesses *)
Module Demo.
Definition hub : HttpCapability := new_http_capability [pattern_host "api.github.com"].
Definition hub_caps : ChannelCapabilities := with_tool_capabilities (with_http hub no_capabilities) (for_channel "hub").
Definition url_of (u : string) : Result Url string := Ok (mkUrl "https" EmptyString None (Some "api.github.com"%string) "/user").
Definition nothing (re s : string) : list (nat * nat) := [].
Definition address : Ip := V4 10 0 0 1.
Abbreviation run cs := (channel_guest url_of Some (fun _ => EmptyString) nothing (fun _ _ => []) (new_detector (fun _ => false)) (fun s => s) (fun _ => Some ∅) (fun _ => EmptyString)
    (fun _ => Ok (mkHttpResponse 200 ∅ None (Ok "{}"%string))) (fun _ => None) (fun _ => EmptyString) [] cs (mkGuest (new_chost "hub" hub_caps) ∅ [])).
Definition calls : list ChannelCall :=
  [CEmit (new_emitted "alice" "hello" 0); CHttp "GET" "https://api.github.com/user" "{}" None None; CWrite "state.json" "{}"; CWrite "../other/state.json" "{}"].
End Demo.
Lemma hub_run : exists b g, Demo.run Demo.calls = (b, g) /\ b = true /\ map em_content (emitted_messages (g_host g)) = ["hello"%string] /\ map pw_path (pending_writes (g_host g)) = ["channels/hub/state.json"%string].
Proof.
  assert (H : let '(b, g) := Demo.run Demo.calls in (b, map em_content (emitted_messages (g_host g)), map pw_path (pending_writes (g_host g))) = (true, ["hello"], ["channels/hub/state.json"])%string) by (vm_compute; reflexivity).
  destruct (Demo.run Demo.calls) as [b g]. injection H as H0 H1 H2. by exists b, g.
Qed.
Lemma channel_execution_bounded_witness : exists b g, Demo.run Demo.calls = (b, g) /\ Forall (write_ok Demo.hub_caps) (pending_writes (g_host g)).
Proof.
  destruct hub_run as (b & g & H & _). exists b, g. split; [exact H|].
  assert (Hn : Z.of_nat (length Demo.calls) < 2 ^ 32) by (cbn; lia).
  destruct (channel_execution_bounded Demo.url_of Some (fun _ => EmptyString) Demo.nothing (fun _ _ => []) (new_detector (fun _ => false)) (fun s => s) (fun _ => Some ∅) (fun _ => EmptyString)
    (fun _ => Ok (mkHttpResponse 200 ∅ None (Ok "{}"%string))) (fun _ => None) (fun _ => EmptyString) [] Demo.calls "hub" Demo.hub_caps ∅ b g Hn H) as (_ & _ & _ & _ & Hw).
  exact Hw.
Defined.
Abbreviation demo_prepare :=
  (channel_prepare Demo.url_of Some (fun _ => EmptyString) Demo.nothing (fun _ _ => []) (new_detector (fun _ => false)) (fun s => s) (fun _ => Some ∅)
    "GET" "https://api.github.com/user" "{}" None None [] (new_chost "hub" Demo.hub_caps)).
Lemma demo_prepared : exists rq h', demo_prepare = (Ok rq, h').
Proof.
  assert (H : is_ok demo_prepare.1 = true) by (vm_compute; reflexivity). destruct demo_prepare as [[rq|] h']; [by eauto|done].
Qed.
(** A host of the allowlist that resolves to 10.0.0.1. *)
Lemma private_addresses_not_refused_witness : exists rq h', demo_prepare = (Ok rq, h') /\ exists e,
  (WasmHost.prepare_request Demo.url_of Some (fun s => s) (fun _ => EmptyString) Demo.nothing (fun _ _ => []) (new_detector (fun _ => false)) (fun s => s) (fun _ => Some ∅)
    (fun _ => None) (fun _ => EmptyString) (fun _ => Ok [Demo.address]) "GET" "https://api.github.com/user" "{}" None None (as_store (new_chost "hub" Demo.hub_caps) [])).1 = Err e.
Proof.
  destruct demo_prepared as (rq & h' & E). exists rq, h'. split; [exact E|].
  rewrite (private_addresses_not_refused Demo.url_of Some (fun _ => EmptyString) Demo.nothing (fun _ _ => []) (new_detector (fun _ => false)) (fun s => s) (fun _ => Some ∅)
    (fun _ => None) (fun _ => EmptyString) (fun _ => Ok [Demo.address]) (fun s => s) "GET" "https://api.github.com/user" "{}" None None [] (new_chost "hub" Demo.hub_caps) rq h' E).
  eexists. reflexivity.
Defined.
Lemma emit_rate_bounded_witness : limiter_grants [70000; 70001; 70002] (new_emit_limiter (mkEmitRate 1 100)) <= 2.
Proof. apply (emit_rate_bounded (new_emit_limiter (mkEmitRate 1 100)) 70000); [reflexivity|cbn; lia|repeat constructor; lia]. Defined.
