(* ===== verification/WasmChannels.v ===== *)
(** WASM channels: [WasmChannel] of [src/channels/wasm/wrapper.rs] and the
    webhook router, [src/channels/wasm/router.rs].

    A callback runs the guest of [WasmChannelHost] on a fresh state; what the
    guest does and how it ends (a value, its own error, a trap, the timeout) is
    an argument of the operation, its [Run].  The stream of messages to the
    agent holds what was sent; [accepts i] says whether the receiver is still
    there for the [i]-th message of a batch.  The typing indicator is a task;
    the two critical sections around it are separate steps.  The waiting
    responses of [respond] are left out: nothing registers one. *)

From S2P Require Import Prelude Strs Json LeakDetector Tool RateLimiter HttpPolicy WasmHost Pairing Channels WasmChannelHost.
#[local] Open Scope claw_scope.

Inductive WasmChannelError :=
| WCallbackFailed (name reason : string) | WTrapped (name reason : string) | WTimeout (name callback : string) | WPanicked (name reason : string)
| WEmitRateLimited (name : string) | WFuelExhausted (name : string) (limit : Z) | WConfig (m : string).
Definition wasm_error_display (e : WasmChannelError) : string :=
  match e with
  | WCallbackFailed n r => "Channel " ++s n ++s " callback failed: " ++s r
  | WTrapped n r => "Channel " ++s n ++s " WASM execution trapped: " ++s r
  | WTimeout n c => "Channel " ++s n ++s " callback '" ++s c ++s "' timed out"
  | WPanicked n r => "Channel " ++s n ++s " execution panicked: " ++s r
  | WEmitRateLimited n => "Channel " ++s n ++s " emit rate limited"
  | WFuelExhausted n l => "Channel " ++s n ++s " exhausted fuel limit (" ++s pretty l ++s ")"
  | WConfig m => "Configuration error: " ++s m
  end.
Record RegisteredEndpoint := mkEndpoint { ep_channel : string; ep_path : string; ep_methods : list string; ep_require_secret : bool }.
Record EndpointConfig := mkEpConfig { ec_path : string; ec_methods : list string; ec_require_secret : bool }.
Record PollConfig := mkPoll { poll_interval_ms : Z; poll_enabled : bool }.
Record ChannelConfig := mkChannelConfig { cc_display_name : string; cc_endpoints : list EndpointConfig; cc_poll : option PollConfig }.
Record ChannelHttpResponse := mkChannelResponse { cr_status : Z; cr_headers : gmap string string; cr_body : string }.
Definition response_ok : ChannelHttpResponse := mkChannelResponse 200 ∅ EmptyString.
Definition response_error (status : Z) (m : string) : ChannelHttpResponse := mkChannelResponse status ∅ m.

(** ** The channel *)
Record WasmChannel := mkWasmChannel {
  wc_name : string; wc_description : string; wc_has_module : bool; wc_fuel : Z; wc_caps : ChannelCapabilities;
  wc_config_json : string; wc_config : option ChannelConfig; wc_stream : option (list IncomingMessage); wc_limiter : EmitLimiter;
  wc_poll : option Z; wc_endpoints : list RegisteredEndpoint; wc_credentials : gmap string string }.
Definition new_channel (name description : string) (has_module : bool) (fuel : Z) (caps : ChannelCapabilities) (config_json : string) : WasmChannel :=
  mkWasmChannel name description has_module fuel caps config_json None None (new_emit_limiter (emit_rate_limit caps)) None [] ∅.
Definition set_config_json (j : string) (c : WasmChannel) : WasmChannel :=
  mkWasmChannel (wc_name c) (wc_description c) (wc_has_module c) (wc_fuel c) (wc_caps c) j (wc_config c) (wc_stream c) (wc_limiter c) (wc_poll c) (wc_endpoints c) (wc_credentials c).
Definition set_credential (n v : string) (c : WasmChannel) : WasmChannel :=
  mkWasmChannel (wc_name c) (wc_description c) (wc_has_module c) (wc_fuel c) (wc_caps c) (wc_config_json c) (wc_config c) (wc_stream c) (wc_limiter c) (wc_poll c) (wc_endpoints c) (<[n := v]> (wc_credentials c)).
Definition set_stream (s : option (list IncomingMessage)) (l : EmitLimiter) (c : WasmChannel) : WasmChannel :=
  mkWasmChannel (wc_name c) (wc_description c) (wc_has_module c) (wc_fuel c) (wc_caps c) (wc_config_json c) (wc_config c) s l (wc_poll c) (wc_endpoints c) (wc_credentials c).
Definition set_started (cfg : ChannelConfig) (eps : list RegisteredEndpoint) (c : WasmChannel) : WasmChannel :=
  mkWasmChannel (wc_name c) (wc_description c) (wc_has_module c) (wc_fuel c) (wc_caps c) (wc_config_json c) (Some cfg) (wc_stream c) (wc_limiter c) (wc_poll c) eps (wc_credentials c).
Definition set_poll (p : option Z) (c : WasmChannel) : WasmChannel :=
  mkWasmChannel (wc_name c) (wc_description c) (wc_has_module c) (wc_fuel c) (wc_caps c) (wc_config_json c) (wc_config c) (wc_stream c) (wc_limiter c) p (wc_endpoints c) (wc_credentials c).

(** How a callback ends, after the calls of the guest. *)
Inductive Ending (A : Type) := Returned (a : A) | Refused (reason : string) | Trap (error : string) | TimedOut.
Arguments Returned {A} a.
Arguments Refused {A} reason.
Arguments Trap {A} error.
Arguments TimedOut {A}.
Record Run (A : Type) := mkRun { run_calls : list ChannelCall; run_ending : Ending A }.
Arguments mkRun {A} run_calls run_ending.
Arguments run_calls {A} r.
Arguments run_ending {A} r.

Section WasmChannels.
Context (url_parse : string -> Result Url string) (decode : string -> option string).
Context (result_debug : AllowlistResult -> string) (find_iter : string -> string -> list (nat * nat))
  (ac_find_iter : list string -> string -> list (nat * (nat * nat))) (detector : LeakDetector) (lossy : string -> string)
  (parse_map : string -> option (gmap string string)) (print_map : gmap string string -> string).
Context (send : HttpRequest -> Result HttpResponse string) (parse_meta : string -> option Json.Json) (pairing_error : PairingStoreError -> string).
Context (parse_config : string -> option (gmap string Json.Json)) (print_config : gmap string Json.Json -> string) (panic_text : string).
Abbreviation PairingFiles := (gmap string (ChannelFiles Json.Json)).
Abbreviation guest := (channel_guest url_parse decode result_debug find_iter ac_find_iter detector lossy parse_map print_map send parse_meta pairing_error).
(** What a callback has changed outside the channel. *)
Record Outside := mkOutside { o_pairing : PairingFiles; o_sent : list HttpRequest }.
Definition update_config (updates : gmap string Json.Json) (c : WasmChannel) : WasmChannel :=
  set_config_json (print_config (updates ∪ default ∅ (parse_config (wc_config_json c)))) c.
Definition map_wasm_error (e name : string) (fuel : Z) : WasmChannelError :=
  if str_contains e "out of fuel" then WFuelExhausted name fuel
  else if str_contains e "unreachable" then WTrapped name "unreachable code executed"
  else WTrapped name e.
(** A fresh instance: the guest, then the value and the state it leaves. *)
Definition execute {A} (callback : string) (r : Run A) (c : WasmChannel) (o : Outside) : Result (A * ChannelHostState) WasmChannelError * Outside :=
  match guest (map_to_list (wc_credentials c)) (run_calls r) (mkGuest (new_chost (wc_name c) (wc_caps c)) (o_pairing o) (o_sent o)) with
  | (false, g) => (Err (WPanicked (wc_name c) panic_text), mkOutside (g_pairing g) (g_sent g))
  | (true, g) =>
      (match run_ending r with
       | Returned a => Ok (a, g_host g)
       | Refused reason => Err (WCallbackFailed (wc_name c) reason)
       | Trap e => Err (map_wasm_error e (wc_name c) (wc_fuel c))
       | TimedOut => Err (WTimeout (wc_name c) callback)
       end, mkOutside (g_pairing g) (g_sent g))
  end.

(** ** Messages to the agent *)
Record Stamp := mkStamp { st_id : Uuid; st_now : DateTime; st_clock : Z }.
Definition incoming (name : string) (s : Stamp) (e : EmittedMessage) : IncomingMessage :=
  let m := new_incoming (st_id s) (st_now s) name (em_user_id e) (em_content e) in
  let m := match em_user_name e with Some n => with_user_name n m | None => m end in
  let m := match em_thread_id e with Some t => with_thread t m | None => m end in
  match parse_meta (em_metadata_json e) with Some j => with_metadata j m | None => m end.
Fixpoint dispatch (name : string) (accepts : nat -> bool) (stamps : nat -> Stamp) (i : nat) (es : list EmittedMessage) (l : EmitLimiter) (sent : list IncomingMessage)
  : Result unit WasmChannelError * EmitLimiter * list IncomingMessage :=
  match es with
  | [] => (Ok tt, l, sent)
  | e :: es =>
      match limiter_check (st_clock (stamps i)) l with
      | (false, l) => (Err (WEmitRateLimited name), l, sent)
      | (true, l) => if accepts i then dispatch name accepts stamps (S i) es l (sent ++ [incoming name (stamps i) e]) else (Ok tt, l, sent)
      end
  end.
Definition process_emitted_messages (accepts : nat -> bool) (stamps : nat -> Stamp) (es : list EmittedMessage) (c : WasmChannel) : Result unit WasmChannelError * WasmChannel :=
  match es, wc_stream c with
  | [], _ | _, None => (Ok tt, c)
  | _, Some sent => let '(r, l, sent) := dispatch (wc_name c) accepts stamps 0 es (wc_limiter c) sent in (r, set_stream (Some sent) l c)
  end.

(** ** Callbacks *)
Definition call_on_start (r : Run ChannelConfig) (c : WasmChannel) (o : Outside) : Result ChannelConfig WasmChannelError * Outside :=
  if negb (wc_has_module c) then (Ok (mkChannelConfig (wc_description c) [] None), o)
  else match execute "on_start" r c o with (Ok (cfg, _), o) => (Ok cfg, o) | (Err e, o) => (Err e, o) end.
(** The callback, then the messages it left. *)
Definition call_emitting {A} (callback : string) (accepts : nat -> bool) (stamps : nat -> Stamp) (r : Run A) (c : WasmChannel) (o : Outside) : Result A WasmChannelError * WasmChannel * Outside :=
  match execute callback r c o with
  | (Err e, o) => (Err e, c, o)
  | (Ok (a, h), o) =>
      let '(q, c) := process_emitted_messages accepts stamps (take_emitted_messages h).1 c in
      (match q with Ok _ => Ok a | Err e => Err e end, c, o)
  end.
Definition call_on_http_request (accepts : nat -> bool) (stamps : nat -> Stamp) (r : Run ChannelHttpResponse) (c : WasmChannel) (o : Outside) : Result ChannelHttpResponse WasmChannelError * WasmChannel * Outside :=
  if negb (wc_has_module c) then (Ok response_ok, c, o) else call_emitting "on_http_request" accepts stamps r c o.
Definition call_on_poll (accepts : nat -> bool) (stamps : nat -> Stamp) (r : Run unit) (c : WasmChannel) (o : Outside) : Result unit WasmChannelError * WasmChannel * Outside :=
  if negb (wc_has_module c) then (Ok tt, c, o) else call_emitting "on_poll" accepts stamps r c o.
(** A tick of the polling task; its errors are logged. *)
Definition poll_tick (accepts : nat -> bool) (stamps : nat -> Stamp) (r : Run unit) (c : WasmChannel) (o : Outside) : WasmChannel * Outside :=
  match wc_poll c with
  | None => (c, o)
  | Some _ => let '(_, c, o) := call_on_poll accepts stamps r c o in (c, o)
  end.
Definition call_on_respond (r : Run unit) (c : WasmChannel) (o : Outside) : Result unit WasmChannelError * Outside :=
  if negb (wc_has_module c) then (Ok tt, o)
  else match execute "on_respond" r c o with (Ok _, o) => (Ok tt, o) | (Err e, o) => (Err e, o) end.
Definition call_on_status (r : Run unit) (c : WasmChannel) (o : Outside) : Result unit WasmChannelError * Outside :=
  if negb (wc_has_module c) then (Ok tt, o)
  else match execute "on_status" r c o with (Ok _, o) => (Ok tt, o) | (Err e, o) => (Err e, o) end.

(** ** The channel trait *)
Definition allowed_endpoints (cfg : ChannelConfig) (c : WasmChannel) : list RegisteredEndpoint :=
  map (fun e => mkEndpoint (wc_name c) (ec_path e) (ec_methods e) (ec_require_secret e)) (List.filter (fun e => is_path_allowed (ec_path e) (wc_caps c)) (cc_endpoints cfg)).
Definition start (r : Run ChannelConfig) (c : WasmChannel) (o : Outside) : Result unit ChannelError * WasmChannel * Outside :=
  let c := set_stream (Some []) (wc_limiter c) c in
  match call_on_start r c o with
  | (Err e, o) => (Err (StartupFailed (wc_name c) (wasm_error_display e)), c, o)
  | (Ok cfg, o) =>
      let c := set_started cfg (allowed_endpoints cfg c) c in
      match cc_poll cfg with
      | Some p =>
          if poll_enabled p
          then match validate_poll_interval (poll_interval_ms p) (wc_caps c) with
               | Ok ms => (Ok tt, set_poll (Some ms) c, o)
               | Err e => (Err (StartupFailed (wc_name c) e), c, o)
               end
          else (Ok tt, c, o)
      | None => (Ok tt, c, o)
      end
  end.
Definition respond (r : Run unit) (c : WasmChannel) (o : Outside) : Result unit ChannelError * Outside :=
  match call_on_respond r c o with
  | (Ok _, o) => (Ok tt, o)
  | (Err e, o) => (Err (SendFailed (wc_name c) (wasm_error_display e)), o)
  end.
Definition health_check (c : WasmChannel) : Result unit ChannelError := if bool_decide (is_Some (wc_stream c)) then Ok tt else Err (HealthCheckFailed (wc_name c)).
Definition shutdown (c : WasmChannel) : WasmChannel := set_poll None (set_stream None (wc_limiter c) c).
(** What [on_status] is told. *)
Inductive StatusType := SThinking | SDone | SInterrupted | SToolStarted | SToolCompleted.
Definition status_to_wit (s : StatusUpdate) : StatusType * string :=
  match s with
  | Thinking m => (SThinking, m)
  | ToolStarted n => (SToolStarted, n)
  | ToolCompleted n ok => (SToolCompleted, n ++s ": " ++s (if ok then "ok" else "failed")%string)
  | ToolResult n p => (SToolCompleted, n ++s ": " ++s p)
  | StreamChunk m => (SThinking, m)
  | Status m => (if String.eqb m "Done" then SDone else if String.eqb m "Interrupted" then SInterrupted else SThinking, m)
  | ApprovalNeeded r t d _ => (SThinking, "Approval needed [" ++s r ++s "]: " ++s t ++s " - " ++s d)
  | JobStarted j t _ => (SThinking, "Job started: " ++s t ++s " (" ++s j ++s ")")
  | AuthRequired n _ _ _ => (SThinking, "Auth required: " ++s n)
  | AuthCompleted n ok _ => (SThinking, "Auth " ++s (if ok then "completed" else "failed") ++s ": " ++s n)%string
  end.

(** ** The typing task *)
Record Typing := mkTyping { t_slot : option nat; t_running : gset nat; t_next : nat }.
Definition no_typing : Typing := mkTyping None ∅ 0.
Definition cancel_typing_task (t : Typing) : Typing :=
  match t_slot t with Some n => mkTyping None (t_running t ∖ {[n]}) (t_next t) | None => t end.
Definition spawn_typing (t : Typing) : Typing := mkTyping (Some (t_next t)) ({[t_next t]} ∪ t_running t) (S (t_next t)).
Definition handle_status_update (s : StatusUpdate) (t : Typing) : Typing :=
  match s with
  | Thinking _ => spawn_typing (cancel_typing_task t)
  | StreamChunk _ => t
  | _ => cancel_typing_task t
  end.
(** The same in steps: the callback runs between the two locks. *)
Inductive TypingPc := TCancel (s : StatusUpdate) | TSpawn | TEnd.
Definition typing_step (pc : TypingPc) (t : Typing) : TypingPc * Typing :=
  match pc with
  | TCancel (Thinking _) => (TSpawn, cancel_typing_task t)
  | TCancel (StreamChunk _) => (TEnd, t)
  | TCancel _ => (TEnd, cancel_typing_task t)
  | TSpawn => (TEnd, spawn_typing t)
  | TEnd => (TEnd, t)
  end.

(** ** The router *)
Record WasmRouter := mkRouter { r_channels : gset string; r_paths : gmap string string; r_secrets : gmap string string; r_headers : gmap string string }.
Definition new_router : WasmRouter := mkRouter ∅ ∅ ∅ ∅.
Definition X_WEBHOOK_SECRET : string := "X-Webhook-Secret".
Definition router_register (name : string) (endpoints : list RegisteredEndpoint) (secret header : option string) (r : WasmRouter) : WasmRouter :=
  mkRouter ({[name]} ∪ r_channels r) (foldl (fun m e => <[ep_path e := name]> m) (r_paths r) endpoints)
    (match secret with Some s => <[name := s]> (r_secrets r) | None => r_secrets r end)
    (match header with Some h => <[name := h]> (r_headers r) | None => r_headers r end).
Definition router_unregister (name : string) (r : WasmRouter) : WasmRouter :=
  mkRouter (r_channels r ∖ {[name]}) (filter (fun kv => kv.2 <> name) (r_paths r)) (delete name (r_secrets r)) (delete name (r_headers r)).
Definition get_secret_header (name : string) (r : WasmRouter) : string := default X_WEBHOOK_SECRET (r_headers r !! name).
Definition get_channel_for_path (path : string) (r : WasmRouter) : option string :=
  match r_paths r !! path with Some name => if bool_decide (name ∈ r_channels r) then Some name else None | None => None end.
Definition requires_secret (name : string) (r : WasmRouter) : bool := bool_decide (is_Some (r_secrets r !! name)).
Definition validate_secret (name provided : string) (r : WasmRouter) : bool :=
  match r_secrets r !! name with Some expected => String.eqb expected provided | None => true end.
(** [header] is the value of a header by its name, in any case, if it is text. *)
Definition provided_secret (name : string) (query : gmap string string) (header : string -> option string) (r : WasmRouter) : option string :=
  match query !! "secret"%string with
  | Some s => Some s
  | None => match header (get_secret_header name r) with
            | Some s => Some s
            | None => if String.eqb (get_secret_header name r) X_WEBHOOK_SECRET then None else header X_WEBHOOK_SECRET
            end
  end.
Inductive WebhookAnswer := NoChannel (path : string) | BadSecret | NoSecret | Answered (status : Z) (body : Json.Json) | CallbackError (details : string).
Context (from_slice : string -> option Json.Json).
Definition valid_status (s : Z) : Z := if (100 <=? s) && (s <=? 999) then s else 500.
(** [channel name secret_validated] is the callback of the channel of that name. *)
Definition webhook_handler (channel : string -> bool -> Result ChannelHttpResponse WasmChannelError) (path : string) (query : gmap string string) (header : string -> option string) (r : WasmRouter) : WebhookAnswer :=
  match get_channel_for_path ("/webhook/" ++s path) r with
  | None => NoChannel ("/webhook/" ++s path)
  | Some name =>
      let called := match channel name (requires_secret name r) with
                    | Ok a => Answered (valid_status (cr_status a)) (default (JObject [("raw"%string, JString (lossy (cr_body a)))]) (from_slice (cr_body a)))
                    | Err e => CallbackError (wasm_error_display e)
                    end in
      if requires_secret name r
      then match provided_secret name query header r with
           | Some s => if validate_secret name s r then called else BadSecret
           | None => NoSecret
           end
      else called
  end.
(** The callback of a browser after it has signed in: nothing is exchanged. *)
Definition oauth_callback_handler (params : gmap string string) : Z * string :=
  if is_empty (default EmptyString (params !! "code"%string)) then (400, "Error: " ++s default "unknown"%string (params !! "error"%string))%string
  else (200, "Connected!"%string).
End WasmChannels.

(** ** Proofs: the router *)
(** A path belongs to the channel that registered it last. *)
Theorem path_taken_over name other methods path secret header endpoint (r : WasmRouter) :
  ep_path endpoint = path -> get_channel_for_path path (router_register other [endpoint] secret header (router_register name [mkEndpoint name path methods true] secret header r)) = Some other.
Proof.
  intros <-. unfold get_channel_for_path, router_register. cbn [r_paths r_channels foldl]. rewrite lookup_insert_eq. by rewrite bool_decide_eq_true_2 by set_solver.
Qed.
Theorem unregistered_gone name path (r : WasmRouter) :
  get_channel_for_path path (router_unregister name r) = match get_channel_for_path path r with Some n => if String.eqb n name then None else Some n | None => None end
  /\ r_secrets (router_unregister name r) !! name = None.
Proof.
  split; [|apply lookup_delete_eq]. unfold get_channel_for_path, router_unregister. cbn [r_paths r_channels]. destruct (r_paths r !! path) as [n|] eqn:E.
  - destruct (String.eqb_spec n name) as [->|Hn].
    + rewrite (proj2 (map_lookup_filter_None _ _ _)); [|right; intros x Hx; rewrite E in Hx; injection Hx as <-; cbn; tauto].
      by destruct (bool_decide _); [rewrite String.eqb_refl|].
    + rewrite (proj2 (map_lookup_filter_Some _ _ _ _)) by done. rewrite (bool_decide_ext (n ∈ r_channels r ∖ {[name]}) (n ∈ r_channels r)) by set_solver.
      destruct (bool_decide _); [|done]. by rewrite (proj2 (String.eqb_neq _ _)).
  - rewrite (proj2 (map_lookup_filter_None _ _ _)); [done|by left].
Qed.
Section RouterProofs.
Context (lossy : string -> string) (from_slice : string -> option Json.Json).
Abbreviation handler := (webhook_handler lossy from_slice).
(** The channel of a path with a secret is called only by a request that has
    the secret, in the query or a header, and is told that it was checked. *)
Theorem webhook_needs_secret channel path query header (r : WasmRouter) name expected :
  get_channel_for_path ("/webhook/" ++s path) r = Some name -> r_secrets r !! name = Some expected ->
  (provided_secret name query header r = Some expected /\ forall other, other name true = channel name true -> handler channel path query header r = handler other path query header r)
  \/ (forall other, handler other path query header r = handler channel path query header r) /\ (handler channel path query header r = BadSecret \/ handler channel path query header r = NoSecret).
Proof.
  intros Hp Hs. unfold webhook_handler. rewrite Hp. assert (Hr : requires_secret name r = true) by (unfold requires_secret; rewrite Hs; by apply bool_decide_eq_true_2).
  rewrite Hr. destruct (provided_secret name query header r) as [s|]; [|right; by auto]. unfold validate_secret. rewrite Hs.
  destruct (String.eqb_spec expected s) as [->|]; [|right; by auto]. left. split; [done|]. intros other ->. done.
Qed.
(** Whether an endpoint asks for a secret, and for which methods it is, plays no
    part: a channel without a stored secret answers every request to its paths. *)
Theorem endpoint_without_secret_open channel path query header name endpoints hdr methods (r : WasmRouter) :
  r_secrets r !! name = None ->
  let r' := router_register name (endpoints ++ [mkEndpoint name ("/webhook/" ++s path) methods true]) None hdr r in
  handler channel path query header r' =
    match channel name false with
    | Ok a => Answered (valid_status (cr_status a)) (default (JObject [("raw"%string, JString (lossy (cr_body a)))]) (from_slice (cr_body a)))
    | Err e => CallbackError (wasm_error_display e)
    end.
Proof.
  intros Hs. cbn zeta. unfold webhook_handler, get_channel_for_path, router_register. cbn [r_paths r_channels]. rewrite foldl_app. cbn [foldl ep_path]. rewrite lookup_insert_eq.
  rewrite bool_decide_eq_true_2 by set_solver. unfold requires_secret. cbn [r_secrets]. rewrite Hs. by rewrite bool_decide_eq_false_2 by by intros [].
Qed.
End RouterProofs.

(** ** Proofs: the typing task *)
(** One at a time, the updates leave at most the task that the slot holds. *)
Definition typing_ok (t : Typing) : Prop := t_running t = match t_slot t with Some n => {[n]} | None => ∅ end.
Lemma cancel_ok t : typing_ok t -> t_slot (cancel_typing_task t) = None /\ t_running (cancel_typing_task t) = ∅.
Proof. unfold typing_ok, cancel_typing_task. destruct t as [[n|] r k]; cbn; intros ->; split; done || set_solver. Qed.
Theorem typing_one_at_a_time (l : list StatusUpdate) : typing_ok (foldl (fun t s => handle_status_update s t) no_typing l).
Proof.
  assert (H : forall t, typing_ok t -> typing_ok (foldl (fun t s => handle_status_update s t) t l)); [|by apply H].
  induction l as [|s l IH]; intros t Ht; [done|]. apply IH. destruct (cancel_ok t Ht) as [H1 H2].
  destruct s; cbn; try (unfold typing_ok; by rewrite H1, H2); [|done]. unfold typing_ok, spawn_typing. cbn. rewrite H2. set_solver.
Qed.
(** Two updates side by side leave a task that no later update ends: the chat
    shows typing for ever. *)
Theorem typing_task_leaks (m1 m2 : string) (l : list StatusUpdate) :
  let '(p1, t) := typing_step (TCancel (Thinking m1)) no_typing in
  let '(p2, t) := typing_step (TCancel (Thinking m2)) t in
  let '(_, t) := typing_step p1 t in
  let '(_, t) := typing_step p2 t in
  0%nat ∈ t_running (foldl (fun t s => handle_status_update s t) t l).
Proof.
  cbn. match goal with |- context [foldl _ ?t l] => assert (H : 0%nat ∈ t_running t /\ t_slot t <> Some 0%nat /\ (0 < t_next t)%nat) by (cbn; split_and!; [set_solver|done|lia]); revert H; generalize t end.
  induction l as [|s l IH]; intros t (H1 & H2 & H3); [done|]. cbn [foldl]. apply IH.
  assert (Hc : 0%nat ∈ t_running (cancel_typing_task t) /\ t_slot (cancel_typing_task t) <> Some 0%nat /\ (0 < t_next (cancel_typing_task t))%nat).
  { unfold cancel_typing_task. destruct (t_slot t) as [n|] eqn:E; cbn; [|by rewrite E]. split_and!; [|done|done]. apply elem_of_difference. split; [done|]. intros E2%elem_of_singleton. by subst n. }
  destruct s; cbn; try exact Hc; [|done]. destruct Hc as (C1 & C2 & C3). split_and!; [set_solver|intros [= E]; lia|lia].
Qed.

(** ** Proofs: callbacks *)
Section ChannelProofs.
Context (url_parse : string -> Result Url string) (decode : string -> option string).
Context (result_debug : AllowlistResult -> string) (find_iter : string -> string -> list (nat * nat))
  (ac_find_iter : list string -> string -> list (nat * (nat * nat))) (detector : LeakDetector) (lossy : string -> string)
  (parse_map : string -> option (gmap string string)) (print_map : gmap string string -> string).
Context (send : HttpRequest -> Result HttpResponse string) (parse_meta : string -> option Json.Json) (pairing_error : PairingStoreError -> string) (panic_text : string).
Abbreviation call := (channel_call url_parse decode result_debug find_iter ac_find_iter detector lossy parse_map print_map send parse_meta pairing_error).
Abbreviation guest := (channel_guest url_parse decode result_debug find_iter ac_find_iter detector lossy parse_map print_map send parse_meta pairing_error).
Abbreviation exec := (execute url_parse decode result_debug find_iter ac_find_iter detector lossy parse_map print_map send parse_meta pairing_error panic_text).
Abbreviation emitting := (call_emitting url_parse decode result_debug find_iter ac_find_iter detector lossy parse_map print_map send parse_meta pairing_error panic_text).
Abbreviation http_callback := (call_on_http_request url_parse decode result_debug find_iter ac_find_iter detector lossy parse_map print_map send parse_meta pairing_error panic_text).
Abbreviation poll_callback := (call_on_poll url_parse decode result_debug find_iter ac_find_iter detector lossy parse_map print_map send parse_meta pairing_error panic_text).
Abbreviation start_channel := (WasmChannels.start url_parse decode result_debug find_iter ac_find_iter detector lossy parse_map print_map send parse_meta pairing_error panic_text).
Abbreviation to_agent name := (dispatch parse_meta name).
(** What reaches the agent of a batch: its messages in order up to the first one
    that the limiter refuses or that finds the stream closed. *)
Theorem dispatch_spec name accepts stamps es : forall i l sent,
  let '(r, _, sent') := to_agent name accepts stamps i es l sent in
  exists k, (k <= length es)%nat /\ sent' = sent ++ imap (fun j e => incoming parse_meta name (stamps (i + j)%nat) e) (take k es)
    /\ match r with
       | Ok _ => k = length es \/ accepts (i + k)%nat = false
       | Err e => e = WEmitRateLimited name /\ (k < length es)%nat
       end.
Proof.
  induction es as [|e es IH]; intros i l sent; cbn [dispatch]; [exists 0%nat; cbn; rewrite app_nil_r; auto|].
  destruct (limiter_check (st_clock (stamps i)) l) as [[] l1].
  - destruct (accepts i) eqn:Ea.
    + specialize (IH (S i) l1 (sent ++ [incoming parse_meta name (stamps i) e])). destruct (to_agent name accepts stamps (S i) es l1 _) as [[r l2] sent'].
      destruct IH as (k & Hk & -> & Hr). exists (S k). split; [cbn; lia|]. split.
      * cbn [take imap]. rewrite <-app_assoc. cbn. rewrite Nat.add_0_r. do 2 f_equal. apply imap_ext. intros j x _. cbn. do 2 f_equal. lia.
      * replace (i + S k)%nat with (S i + k)%nat by lia. destruct r; cbn [length]; [|destruct Hr; split; [done|lia]]. destruct Hr as [->|]; auto.
    + exists 0%nat. cbn [take imap]. rewrite app_nil_r, Nat.add_0_r. split_and!; [lia|done|by right].
  - exists 0%nat. cbn [take imap length]. rewrite app_nil_r. split_and!; [lia|done|done|lia].
Qed.
(** A callback that has answered and whose messages have partly been delivered
    still fails when a later message is over the rate: who called the webhook is
    told of an error, and the messages that were delivered come again when the
    call is repeated. *)
Theorem rate_limit_fails_answered_callback {A} callback accepts stamps (r : Run A) (c : WasmChannel) o a h o' e1 e2 sent l1 l2 :
  exec callback r c o = (Ok (a, h), o') -> emitted_messages h = [e1; e2] -> wc_stream c = Some sent -> accepts 0%nat = true ->
  limiter_check (st_clock (stamps 0%nat)) (wc_limiter c) = (true, l1) -> limiter_check (st_clock (stamps 1%nat)) l1 = (false, l2) ->
  emitting callback accepts stamps r c o = (Err (WEmitRateLimited (wc_name c)), set_stream (Some (sent ++ [incoming parse_meta (wc_name c) (stamps 0%nat) e1])) l2 c, o').
Proof.
  intros He Hm Hs Ha H1 H2. unfold call_emitting. rewrite He. unfold take_emitted_messages. cbn [fst]. rewrite Hm. unfold process_emitted_messages. rewrite Hs. cbn [dispatch].
  by rewrite H1, Ha, H2.
Qed.
(** ** Writes of the guest are dropped *)
Definition same_but_writes (h1 h2 : ChannelHostState) : Prop :=
  base h1 = base h2 /\ ch_name h1 = ch_name h2 /\ ch_caps h1 = ch_caps h2 /\ emitted_messages h1 = emitted_messages h2
  /\ emit_count h1 = emit_count h2 /\ emit_enabled h1 = emit_enabled h2 /\ emits_dropped h1 = emits_dropped h2.
Definition is_write (c : ChannelCall) : bool := match c with CWrite _ _ => true | _ => false end.
Definition same_guest (g1 g2 : Guest) : Prop := same_but_writes (g_host g1) (g_host g2) /\ g_pairing g1 = g_pairing g2 /\ g_sent g1 = g_sent g2.
Lemma call_write creds c g : is_write c = true -> exists g', call creds c g = Some g' /\ same_guest g' g.
Proof.
  destruct c; try done. intros _. eexists. split; [reflexivity|]. unfold same_guest, same_but_writes. cbn. unfold workspace_write. destruct (channel_workspace_path _ _); cbn; by split_and!.
Qed.
Lemma rebuild h : h = mkChost (base h) (ch_name h) (ch_caps h) (emitted_messages h) (pending_writes h) (emit_count h) (emit_enabled h) (emits_dropped h).
Proof. by destruct h. Qed.
Lemma call_same creds c g1 g2 : is_write c = false -> same_guest g1 g2 ->
  match call creds c g1, call creds c g2 with Some g1', Some g2' => same_guest g1' g2' | None, None => True | _, _ => False end.
Proof.
  destruct g1 as [[b n cp em w1 ec ee ed] p1 s1], g2 as [[b' n' cp' em' w2 ec' ee' ed'] p2 s2]. unfold same_guest, same_but_writes. cbn.
  intros Hw ((-> & -> & -> & -> & -> & -> & ->) & -> & ->). destruct c as [l m now|p|p t|m u hj body t|x|m|ch i meta now draws fb|ch i un|ch]; try done; cbn -[MAX_MESSAGE_CONTENT_SIZE emit_message].
  - destruct (log l m now b'); [|done]. cbn. by split_and!.
  - unfold channel_http_request, channel_prepare. cbn. destruct (check_http_allowed _ _ _ _ _ _); [|by split_and!]. destruct (record_http_request b') as [[] ?]; [|by split_and!].
    cbn. destruct (scan_http_request _ _ _ _ _ _); by split_and!.
  - unfold emit_message. cbn [emit_enabled emitted_messages em_content]. destruct (negb ee'); [by split_and!|]. destruct (_ <=? _)%nat; [by split_and!|]. destruct (_ <? _)%nat; [|by split_and!].
    destruct (is_char_boundary _ _); [by split_and!|done].
Qed.
Lemma same_trans g1 g2 g3 : same_guest g1 g2 -> same_guest g2 g3 -> same_guest g1 g3.
Proof. unfold same_guest, same_but_writes. intuition congruence. Qed.
Lemma same_sym g1 g2 : same_guest g1 g2 -> same_guest g2 g1.
Proof. unfold same_guest, same_but_writes. intuition congruence. Qed.
Lemma guest_same creds cs : forall g1 g2, same_guest g1 g2 ->
  let '(b1, g1') := guest creds cs g1 in let '(b2, g2') := guest creds (List.filter (fun c => negb (is_write c)) cs) g2 in b1 = b2 /\ same_guest g1' g2'.
Proof.
  induction cs as [|c cs IH]; intros g1 g2 Hg; [done|]. cbn [channel_guest List.filter]. destruct (is_write c) eqn:Ew; cbn [negb].
  - destruct (call_write creds c g1 Ew) as (g' & -> & Hs). apply IH. eapply same_trans; [exact Hs|exact Hg].
  - cbn [channel_guest]. pose proof (call_same creds c g1 g2 Ew Hg) as H. destruct (call creds c g1) as [g1'|], (call creds c g2) as [g2'|]; try done. by apply IH.
Qed.
Definition without_writes {A} (r : Run A) : Run A := mkRun (List.filter (fun c => negb (is_write c)) (run_calls r)) (run_ending r).
Lemma emitting_without_writes {A} callback accepts stamps (r : Run A) c o : emitting callback accepts stamps r c o = emitting callback accepts stamps (without_writes r) c o.
Proof.
  unfold call_emitting, execute, without_writes. cbn [run_calls run_ending].
  pose proof (guest_same (map_to_list (wc_credentials c)) (run_calls r) (mkGuest (new_chost (wc_name c) (wc_caps c)) (o_pairing o) (o_sent o)) _ ltac:(by repeat split)) as H.
  destruct (guest _ (run_calls r) _) as [b1 g1], (guest _ (List.filter _ _) _) as [b2 g2]. destruct H as [-> ((E1 & E2 & E3 & E4 & E5 & E6 & E7) & -> & ->)].
  destruct b2; [|done]. destruct (run_ending r); try done. unfold take_emitted_messages. cbn [fst]. by rewrite E4.
Qed.
(** The workspace writes of a guest are collected and thrown away: a channel
    keeps nothing from one callback to the next. *)
Theorem workspace_writes_lost accepts stamps r p c o :
  http_callback accepts stamps r c o = http_callback accepts stamps (without_writes r) c o /\ poll_callback accepts stamps p c o = poll_callback accepts stamps (without_writes p) c o.
Proof. unfold call_on_http_request, call_on_poll. destruct (negb (wc_has_module c)); [done|]. split; apply emitting_without_writes. Qed.
(** ** Starting *)
(** A start that succeeds polls no faster than the capabilities say and has only
    endpoints they allow; one that is refused for its polling leaves a channel
    that calls itself healthy. *)
Theorem start_spec (r : Run ChannelConfig) (c : WasmChannel) (o : Outside) :
  let '(res, c', _) := start_channel r c o in
  health_check c' = Ok tt /\ wc_stream c' = Some [] /\
  match res with
  | Ok _ => Forall (fun e => is_path_allowed (ep_path e) (wc_caps c) = true /\ ep_channel e = wc_name c) (wc_endpoints c')
            /\ (wc_poll c' = wc_poll c \/ allow_polling (wc_caps c) = true /\ exists ms, wc_poll c' = Some ms /\ min_poll_interval_ms (wc_caps c) <= ms)
  | Err e => exists reason, e = StartupFailed (wc_name c) reason
  end.
Proof.
  unfold WasmChannels.start. destruct (call_on_start _ _ _ _ _ _ _ _ _ _ _ _ _ r _ o) as [[cfg|e] o']; [|split_and!; [done|done|by eexists]].
  set (c1 := set_started cfg _ _).
  assert (H1 : wc_stream c1 = Some [] /\ wc_name c1 = wc_name c /\ wc_caps c1 = wc_caps c /\ wc_poll c1 = wc_poll c) by done. destruct H1 as (E1 & E2 & E3 & E4).
  assert (He : Forall (fun e => is_path_allowed (ep_path e) (wc_caps c) = true /\ ep_channel e = wc_name c) (wc_endpoints c1)).
  { cbn [wc_endpoints c1 set_started]. unfold allowed_endpoints. rewrite Forall_map, Forall_forall. intros e Hin%list_elem_of_In. apply filter_In in Hin as [_ Hin]. by split. }
  assert (Hh : health_check c1 = Ok tt) by done.
  destruct (cc_poll cfg) as [p|]; [|split_and!; [done|done|done|by left]]. destruct (poll_enabled p); [|split_and!; [done|done|done|by left]].
  unfold validate_poll_interval. rewrite E3. destruct (allow_polling (wc_caps c)) eqn:Ea; [|split_and!; [done|done|rewrite E2; by eexists]].
  split_and!; [done|done|done|]. right. split; [done|]. eexists. split; [reflexivity|]. lia.
Qed.
End ChannelProofs.

(** ** Witnesses *)
Module RouterDemo.
Definition router : WasmRouter := router_register "telegram" [mkEndpoint "telegram" "/webhook/telegram" ["POST"%string] true] (Some "s3cret"%string) None new_router.
Definition answer (name : string) (checked : bool) : Result ChannelHttpResponse WasmChannelError := if checked then Ok response_ok else Err (WTimeout name "on_http_request").
End RouterDemo.
Lemma webhook_needs_secret_witness :
  webhook_handler (fun s => s) (fun _ => None) RouterDemo.answer "telegram" ∅ (fun _ => Some "guess"%string) RouterDemo.router = BadSecret.
Proof.
  destruct (webhook_needs_secret (fun s => s) (fun _ => None) RouterDemo.answer "telegram" ∅ (fun _ => Some "guess"%string) RouterDemo.router "telegram" "s3cret") as [[H _]|[_ [H|H]]];
    [reflexivity|reflexivity|discriminate H|exact H|discriminate H].
Defined.
Lemma endpoint_without_secret_open_witness :
  webhook_handler (fun s => s) (fun _ => None) RouterDemo.answer "slack" ∅ (fun _ => None) (router_register "slack" [mkEndpoint "slack" "/webhook/slack" ["POST"%string] true] None None new_router)
  = CallbackError "Channel slack callback 'on_http_request' timed out".
Proof. exact (endpoint_without_secret_open (fun s => s) (fun _ => None) RouterDemo.answer "slack" ∅ (fun _ => None) "slack" [] None ["POST"%string] new_router eq_refl). Defined.
Lemma path_taken_over_witness : exists r, get_channel_for_path "/webhook/slack" r = Some "evil"%string.
Proof.
  eexists. apply (path_taken_over "slack" "evil" ["POST"%string] "/webhook/slack" None None (mkEndpoint "evil" "/webhook/slack" [] false) new_router). reflexivity.
Defined.
Module ChannelDemo.
Definition caps : ChannelCapabilities := with_emit_rate_limit (mkEmitRate 1 100) (for_channel "hub").
Definition channel : WasmChannel := set_stream (Some []) (new_emit_limiter (mkEmitRate 1 100)) (new_channel "hub" "Hub" true 1000 caps "{}").
Definition two : Run ChannelHttpResponse := mkRun [CEmit (new_emitted "alice" "one" 0); CEmit (new_emitted "alice" "two" 0)] (Returned response_ok).
Definition stamps (i : nat) : Stamp := mkStamp (N.of_nat i) 0 70000.
Abbreviation exec := (execute Demo.url_of Some (fun _ => EmptyString) Demo.nothing (fun _ _ => []) (new_detector (fun _ => false)) (fun s => s) (fun _ => Some ∅) (fun _ => EmptyString)
    (fun _ => Ok (mkHttpResponse 200 ∅ None (Ok "{}"%string))) (fun _ => None) (fun _ => EmptyString) "panicked").
End ChannelDemo.
Lemma two_emitted : exists h o', ChannelDemo.exec "on_http_request" ChannelDemo.two ChannelDemo.channel (mkOutside ∅ []) = (Ok (response_ok, h), o')
  /\ emitted_messages h = [new_emitted "alice" "one" 0; new_emitted "alice" "two" 0].
Proof.
  assert (H : match ChannelDemo.exec "on_http_request" ChannelDemo.two ChannelDemo.channel (mkOutside ∅ []) with (Ok (a, h), _) => (cr_status a, cr_body a, map_to_list (cr_headers a), emitted_messages h) | (Err _, _) => (0, EmptyString, [], []) end
    = (200, EmptyString, [], [new_emitted "alice" "one" 0; new_emitted "alice" "two" 0])) by (vm_compute; reflexivity).
  destruct (ChannelDemo.exec _ _ _ _) as [[[[st hs b] h]|e] o']; [|done]. injection H as -> -> Hh Hm. exists h, o'. split; [|done].
  apply map_to_list_empty_iff in Hh. cbn in Hh. by subst hs.
Qed.
Lemma rate_limit_fails_answered_callback_witness : exists h o', ChannelDemo.exec "on_http_request" ChannelDemo.two ChannelDemo.channel (mkOutside ∅ []) = (Ok (response_ok, h), o')
  /\ exists c', (call_emitting Demo.url_of Some (fun _ => EmptyString) Demo.nothing (fun _ _ => []) (new_detector (fun _ => false)) (fun s => s) (fun _ => Some ∅) (fun _ => EmptyString)
    (fun _ => Ok (mkHttpResponse 200 ∅ None (Ok "{}"%string))) (fun _ => None) (fun _ => EmptyString) "panicked" "on_http_request" (fun _ => true) ChannelDemo.stamps ChannelDemo.two ChannelDemo.channel (mkOutside ∅ []))
    = (Err (WEmitRateLimited "hub"), c', o').
Proof.
  destruct two_emitted as (h & o' & H & Hm). exists h, o'. split; [exact H|]. eexists.
  eapply (rate_limit_fails_answered_callback Demo.url_of Some (fun _ => EmptyString) Demo.nothing (fun _ _ => []) (new_detector (fun _ => false)) (fun s => s) (fun _ => Some ∅) (fun _ => EmptyString)
    (fun _ => Ok (mkHttpResponse 200 ∅ None (Ok "{}"%string))) (fun _ => None) (fun _ => EmptyString) "panicked" "on_http_request" (fun _ => true) ChannelDemo.stamps ChannelDemo.two ChannelDemo.channel);
    [exact H|exact Hm|reflexivity|reflexivity|reflexivity|reflexivity].
Defined.
