(* ===== verification/OpenAiCompat.v ===== *)
(** The OpenAI-compatible endpoint: [src/channels/web/openai_compat.rs].

    The handlers of [/v1/chat/completions] and [/v1/models] over any provider
    and the gateway's rate limiter.  A streamed answer is the list of events
    that a client that stays connected receives.  Reading and writing JSON text
    are parameters, as are ids and times. *)

From Stdlib Require Import Ascii.
From S2P Require Import Prelude Strs Json Llm Gateway.
#[local] Open Scope claw_scope.

Record OpenAiToolCall := mkOaCall { oc_id : string; oc_type : string; oc_name : string; oc_arguments : string }.
Record OpenAiMessage := mkOaMessage {
  om_role : string; om_content : option string; om_name : option string; om_tool_call_id : option string; om_tool_calls : option (list OpenAiToolCall) }.
Record OpenAiTool := mkOaTool { ot_type : string; ot_name : string; ot_description : option string; ot_parameters : option Json }.
Record OpenAiChatRequest := mkOaRequest {
  oq_model : string; oq_messages : list OpenAiMessage; oq_temperature : option Z; oq_max_tokens : option Z; oq_stream : option bool;
  oq_tools : option (list OpenAiTool); oq_tool_choice : option Json; oq_stop : option Json }.
Record OpenAiUsage := mkUsage { prompt_tokens : Z; completion_tokens : Z; total_tokens : Z }.
Record OpenAiChatResponse := mkOaResponse { or_id : string; or_created : Z; or_model : string; or_message : OpenAiMessage; or_finish_reason : string; or_usage : OpenAiUsage }.
Record OpenAiToolCallDelta := mkDelta { dc_index : Z; dc_id : string; dc_name : string; dc_arguments : string }.
Record OpenAiDelta := mkOaDelta { de_role : option string; de_content : option string; de_tool_calls : option (list OpenAiToolCallDelta); de_finish : option string }.
Record OpenAiChatChunk := mkOaChunk { ch_id : string; ch_created : Z; ch_model : string; ch_delta : OpenAiDelta }.
Inductive StreamEvent := EChunk (c : OpenAiChatChunk) | EDone.
Record OpenAiError := mkOaError { oe_status : Z; oe_message : string; oe_type : string; oe_param : option string; oe_code : option string }.
Definition openai_error (status : Z) (m ty : string) : OpenAiError := mkOaError status m ty None None.

(** ** Conversions *)
Definition parse_role (s : string) : Result Role string :=
  if String.eqb s "system" then Ok System else if String.eqb s "user" then Ok User else if String.eqb s "assistant" then Ok Assistant else if String.eqb s "tool" then Ok Tool
  else Err ("Unknown role: '" ++s s ++s "'")%string.
Definition finish_reason_str (r : FinishReason) : string :=
  match r with Stop => "stop" | Length => "length" | ToolUse => "tool_calls" | ContentFilter => "content_filter" | UnknownReason => "stop" end.
Definition normalize_tool_choice (v : Json) : option string :=
  match v with
  | JString s => Some s
  | JObject _ => match json_get "function" v with Some _ => Some "required"%string | None => get_str "type" v end
  | _ => None
  end.
Definition parse_stop (v : Json) : option (list string) :=
  match v with
  | JString s => Some [s]
  | JArray l => match omap as_str l with [] => None | strs => Some strs end
  | _ => None
  end.
(** [split_inclusive(char::is_whitespace)]. *)
Fixpoint split_inclusive (s : string) : list string :=
  match s with
  | EmptyString => []
  | String c s =>
      if is_whitespace c then String c EmptyString :: split_inclusive s
      else match split_inclusive s with [] => [String c EmptyString] | w :: ws => String c w :: ws end
  end.
(** The pieces of a streamed text: words up to at least 20 bytes. *)
Fixpoint pieces (buf : string) (words : list string) : list string :=
  match words with
  | [] => if is_empty buf then [] else [buf]
  | w :: words => let buf := buf ++s w in if (20 <=? String.length buf)%nat then buf :: pieces EmptyString words else pieces buf words
  end.

Section OpenAi.
Context (from_str : string -> option Json) (to_text : Json -> string) (error_display : LlmError -> string).
Definition convert_call (c : OpenAiToolCall) : ToolCall Json := mkToolCall _ (oc_id c) (oc_name c) (default (JObject []) (from_str (oc_arguments c))).
Definition at_index (i : nat) (e : string) : string := "messages[" ++s pretty i ++s "]: " ++s e.
Definition convert_message (i : nat) (m : OpenAiMessage) : Result (ChatMessage Json) string :=
  match parse_role (om_role m) with
  | Err e => Err (at_index i e)
  | Ok Tool =>
      match om_tool_call_id m with
      | None => Err (at_index i "tool message requires 'tool_call_id'")
      | Some id => match om_name m with
                   | None => Err (at_index i "tool message requires 'name'")
                   | Some n => Ok (msg_tool_result id n (default EmptyString (om_content m)))
                   end
      end
  | Ok Assistant =>
      match om_tool_calls m with
      | Some tcs => Ok (msg_assistant_with_tool_calls (om_content m) (map convert_call tcs))
      | None => Ok (msg_assistant (default EmptyString (om_content m)))
      end
  | Ok r => Ok (mkMessage _ r (default EmptyString (om_content m)) None (om_name m) None)
  end.
Fixpoint convert_from (i : nat) (ms : list OpenAiMessage) : Result (list (ChatMessage Json)) string :=
  match ms with
  | [] => Ok []
  | m :: ms => let? x := convert_message i m in let? xs := convert_from (S i) ms in Ok (x :: xs)
  end.
Definition convert_messages (ms : list OpenAiMessage) : Result (list (ChatMessage Json)) string := convert_from 0 ms.
Definition no_parameters : Json := JObject [("type", JString "object"); ("properties", JObject [])]%string.
Definition convert_tools (ts : list OpenAiTool) : list (ToolDefinition Json) :=
  map (fun t => mkToolDef _ (ot_name t) (default EmptyString (ot_description t)) (default no_parameters (ot_parameters t))) (List.filter (fun t => String.eqb (ot_type t) "function") ts).
Definition convert_tool_calls_to_openai (cs : list (ToolCall Json)) : list OpenAiToolCall :=
  map (fun c => mkOaCall (tc_id c) "function" (tc_name c) (to_text (tc_arguments c))) cs.
Definition map_llm_error (e : LlmError) : OpenAiError :=
  let '(status, ty, code) := match e with
    | AuthFailed _ | SessionExpired _ => (401, "authentication_error", "auth_error")
    | RateLimited _ _ => (429, "rate_limit_error", "rate_limit")
    | ContextLengthExceeded _ _ => (400, "invalid_request_error", "context_length_exceeded")
    | ModelNotAvailable _ _ => (404, "invalid_request_error", "model_not_found")
    | _ => (500, "server_error", "internal_error")
    end%string in
  mkOaError status (error_display e) ty None (Some code).

(** ** Requests to the provider *)
Definition has_tools (q : OpenAiChatRequest) : bool := match oq_tools q with Some (_ :: _) => true | _ => false end.
Definition tool_request (q : OpenAiChatRequest) (ms : list (ChatMessage Json)) : ToolCompletionRequest Json :=
  mkToolRequest _ ms (convert_tools (default [] (oq_tools q))) (oq_max_tokens q) (oq_temperature q) (oq_tool_choice q ≫= normalize_tool_choice) ∅.
Definition plain_request (q : OpenAiChatRequest) (ms : list (ChatMessage Json)) : CompletionRequest Json :=
  mkRequest _ ms (oq_max_tokens q) (oq_temperature q) (oq_stop q ≫= parse_stop) ∅.
(** [u32] addition, as a release build does it. *)
Definition add_tokens (a b : Z) : Z := wrap 32 (a + b).
Definition assistant (content : option string) (calls : option (list OpenAiToolCall)) : OpenAiMessage := mkOaMessage "assistant" content None None calls.
Definition tool_response (id : string) (created : Z) (model : string) (r : ToolCompletionResponse Json) : OpenAiChatResponse :=
  mkOaResponse id created model
    (assistant (tresp_content r) (match tresp_tool_calls r with [] => None | cs => Some (convert_tool_calls_to_openai cs) end))
    (finish_reason_str (tresp_finish_reason r)) (mkUsage (tresp_input_tokens r) (tresp_output_tokens r) (add_tokens (tresp_input_tokens r) (tresp_output_tokens r))).
Definition plain_response (id : string) (created : Z) (model : string) (r : CompletionResponse) : OpenAiChatResponse :=
  mkOaResponse id created model (assistant (Some (resp_content r)) None) (finish_reason_str (resp_finish_reason r))
    (mkUsage (resp_input_tokens r) (resp_output_tokens r) (add_tokens (resp_input_tokens r) (resp_output_tokens r))).

(** ** Streams *)
Definition role_delta : OpenAiDelta := mkOaDelta (Some "assistant"%string) None None None.
Definition content_delta (c : string) : OpenAiDelta := mkOaDelta None (Some c) None None.
Fixpoint call_deltas (i : Z) (cs : list (ToolCall Json)) : list OpenAiToolCallDelta :=
  match cs with [] => [] | c :: cs => mkDelta (wrap 32 i) (tc_id c) (tc_name c) (to_text (tc_arguments c)) :: call_deltas (i + 1) cs end.
Definition finish_delta (r : FinishReason) : OpenAiDelta := mkOaDelta None None None (Some (finish_reason_str r)).
Definition content_deltas (c : string) : list OpenAiDelta := map content_delta (pieces EmptyString (split_inclusive c)).
Definition tool_deltas (r : ToolCompletionResponse Json) : list OpenAiDelta :=
  role_delta :: (match tresp_content r with Some c => content_deltas c | None => [] end)
  ++ (match tresp_tool_calls r with [] => [] | cs => [mkOaDelta None None (Some (call_deltas 0 cs)) None] end) ++ [finish_delta (tresp_finish_reason r)].
Definition plain_deltas (r : CompletionResponse) : list OpenAiDelta := role_delta :: content_deltas (resp_content r) ++ [finish_delta (resp_finish_reason r)].
Definition stream_of (id : string) (created : Z) (model : string) (ds : list OpenAiDelta) : list StreamEvent := map (fun d => EChunk (mkOaChunk id created model d)) ds ++ [EDone].

(** ** The handlers *)
Inductive ChatAnswer := Whole (r : OpenAiChatResponse) | Streamed (es : list StreamEvent).
Section Provider.
Context {Decimal P : Type} `{!LlmProvider Json Decimal P}.
Definition bad_messages (e : string) : OpenAiError := openai_error 400 e "invalid_request_error".
Definition wrong_model (asked active : string) : OpenAiError :=
  mkOaError 404 ("Model '" ++s asked ++s "' not found. The active model is '" ++s active ++s "'.") "invalid_request_error" (Some "model"%string) (Some "model_not_found"%string).
Definition answer_whole (id : string) (created : Z) (q : OpenAiChatRequest) (ms : list (ChatMessage Json)) (p : P) (t : Instant) : Result ChatAnswer OpenAiError * P :=
  let model := active_model_name p in
  if has_tools q
  then let '(r, p, _) := complete_with_tools (tool_request q ms) p t in (match r with Ok r => Ok (Whole (tool_response id created model r)) | Err e => Err (map_llm_error e) end, p)
  else let '(r, p, _) := complete (plain_request q ms) p t in (match r with Ok r => Ok (Whole (plain_response id created model r)) | Err e => Err (map_llm_error e) end, p).
Definition handle_streaming (id : string) (created : Z) (q : OpenAiChatRequest) (ms : list (ChatMessage Json)) (p : P) (t : Instant) : Result ChatAnswer OpenAiError * P :=
  let model := active_model_name p in
  if has_tools q
  then let '(r, p, _) := complete_with_tools (tool_request q ms) p t in (match r with Ok r => Ok (Streamed (stream_of id created model (tool_deltas r))) | Err e => Err (map_llm_error e) end, p)
  else let '(r, p, _) := complete (plain_request q ms) p t in (match r with Ok r => Ok (Streamed (stream_of id created model (plain_deltas r))) | Err e => Err (map_llm_error e) end, p).
Definition chat_completions_handler (id : string) (created now : Z) (t : Instant) (q : OpenAiChatRequest) (l : Limiter) (p : option P) : Result ChatAnswer OpenAiError * Limiter * option P :=
  match check now l with
  | (false, l) => (Err (openai_error 429 "Rate limit exceeded. Please try again later." "rate_limit_error"), l, p)
  | (true, l) =>
      match p with
      | None => (Err (openai_error 503 "LLM provider not configured" "server_error"), l, p)
      | Some p =>
          match oq_messages q with
          | [] => (Err (openai_error 400 "messages must not be empty" "invalid_request_error"), l, Some p)
          | _ =>
              if negb (String.eqb (oq_model q) (active_model_name p)) then (Err (wrong_model (oq_model q) (active_model_name p)), l, Some p)
              else match convert_messages (oq_messages q) with
                   | Err e => (Err (bad_messages e), l, Some p)
                   | Ok ms => let '(r, p) := (if default false (oq_stream q) then handle_streaming else answer_whole) id created q ms p t in (r, l, Some p)
                   end
          end
      end
  end.
Definition model_entry (created : Z) (name : string) : Json :=
  JObject [("id", JString name); ("object", JString "model"); ("created", JNumber (pretty created)); ("owned_by", JString "ironclaw")]%string.
Definition models_handler (created : Z) (t : Instant) (p : option P) : Result Json OpenAiError * option P :=
  match p with
  | None => (Err (openai_error 503 "LLM provider not configured" "server_error"), None)
  | Some p =>
      let '(r, p', _) := list_models p t in
      (match r with
       | Err e => Err (map_llm_error e)
       | Ok names => Ok (JObject [("object", JString "list"); ("data", JArray (map (model_entry created) (match names with [] => [active_model_name p] | _ => names end)))]%string)
       end, Some p')
  end.
End Provider.
End OpenAi.

(** ** Proofs *)
Fixpoint concat_str (l : list string) : string := match l with [] => EmptyString | x :: l => x ++s concat_str l end.
Lemma split_inclusive_concat s : concat_str (split_inclusive s) = s.
Proof.
  induction s as [|c s IH]; [done|]. cbn [split_inclusive]. destruct (is_whitespace c); [cbn; by rewrite IH|].
  destruct (split_inclusive s) as [|w ws]; cbn in *; rewrite <-IH; done.
Qed.
Lemma pieces_concat words : forall buf, concat_str (pieces buf words) = buf ++s concat_str words.
Proof.
  induction words as [|w words IH]; intros buf; cbn [pieces concat_str].
  - rewrite append_nil_r_str. destruct buf; [done|]. cbn. by rewrite append_nil_r_str.
  - destruct (20 <=? _)%nat; cbn [concat_str]; rewrite IH, ?append_assoc_str; done.
Qed.
(** The pieces of a text put together are the text; all but the last have 20 bytes or more. *)
Lemma pieces_long words : forall buf, exists l last, pieces buf words = l ++ last /\ Forall (fun p => (20 <= String.length p)%nat) l /\ (length last <= 1)%nat /\ Forall (fun p => p <> EmptyString) last.
Proof.
  induction words as [|w words IH]; intros buf; cbn [pieces].
  - exists [], (if is_empty buf then [] else [buf]). destruct buf; cbn; split_and!; repeat constructor; done || lia.
  - destruct (Nat.leb_spec 20 (String.length (buf ++s w))); [|apply IH]. destruct (IH EmptyString) as (l & last & -> & H1 & H2 & H3). exists ((buf ++s w) :: l), last. by split_and!; [|constructor|..].
Qed.
Lemma omap_head {A B} (f : A -> option B) x l : omap f (x :: l) = match f x with Some y => y :: omap f l | None => omap f l end.
Proof. done. Qed.
(** What a client makes of a stream. *)
Definition deltas_of (es : list StreamEvent) : list OpenAiDelta := omap (fun e => match e with EChunk c => Some (ch_delta c) | EDone => None end) es.
Definition streamed_content (es : list StreamEvent) : string := concat_str (omap de_content (deltas_of es)).
Definition streamed_calls (es : list StreamEvent) : list OpenAiToolCallDelta := mjoin (omap de_tool_calls (deltas_of es)).
Definition streamed_finish (es : list StreamEvent) : list string := omap de_finish (deltas_of es).
Definition call_of_delta (d : OpenAiToolCallDelta) : OpenAiToolCall := mkOaCall (dc_id d) "function" (dc_name d) (dc_arguments d).
Section Facts.
Context (from_str : string -> option Json) (to_text : Json -> string) (error_display : LlmError -> string).
Context {Decimal P : Type} `{!LlmProvider Json Decimal P}.
Lemma deltas_stream id created model ds : deltas_of (stream_of id created model ds) = ds.
Proof. unfold deltas_of, stream_of. rewrite omap_app. cbn. rewrite app_nil_r. induction ds as [|d ds IH]; [done|]. cbn. by rewrite IH. Qed.
Lemma content_deltas_content c : concat_str (omap de_content (content_deltas c)) = c.
Proof.
  unfold content_deltas. transitivity (concat_str (pieces EmptyString (split_inclusive c))); [|by rewrite pieces_concat, split_inclusive_concat]. f_equal. induction (pieces _ _) as [|x l IH]; [done|]. cbn. by rewrite IH.
Qed.
Lemma content_deltas_calls c : omap de_tool_calls (content_deltas c) = [] /\ omap de_finish (content_deltas c) = [].
Proof. unfold content_deltas. induction (pieces _ _) as [|x l [IH1 IH2]]; [done|]. by cbn. Qed.
Lemma concat_str_app a b : concat_str (a ++ b) = concat_str a ++s concat_str b.
Proof. induction a as [|x a IH]; [done|]. cbn. by rewrite IH, append_assoc_str. Qed.
Lemma call_deltas_calls cs : forall i, map call_of_delta (call_deltas to_text i cs) = convert_tool_calls_to_openai to_text cs.
Proof. induction cs as [|c cs IH]; intros i; [done|]. cbn. by rewrite IH. Qed.
Lemma and_swap4 (A B C D : Prop) : D -> A /\ B /\ C -> A /\ B /\ C /\ D.
Proof. tauto. Qed.
Lemma tool_deltas_say id created model (r : ToolCompletionResponse Json) : let m := tool_response to_text id created model r in let ds := tool_deltas to_text r in
  concat_str (omap de_content ds) = default EmptyString (om_content (or_message m))
  /\ map call_of_delta (mjoin (omap de_tool_calls ds)) = default [] (om_tool_calls (or_message m)) /\ omap de_finish ds = [or_finish_reason m].
Proof.
  cbn zeta. unfold tool_deltas. rewrite !omap_head, !omap_app. cbn [de_content de_tool_calls de_finish role_delta tool_response or_message or_finish_reason assistant om_content om_tool_calls].
  destruct (tresp_content r) as [c|]; [destruct (content_deltas_calls c) as [-> ->]|]; destruct (tresp_tool_calls r) as [|x l] eqn:El; cbn -[content_deltas call_deltas convert_tool_calls_to_openai];
    rewrite ?concat_str_app, ?content_deltas_content, ?append_nil_r_str, ?app_nil_r, ?call_deltas_calls; done.
Qed.
Lemma plain_deltas_say id created model (r : CompletionResponse) : let m := plain_response id created model r in let ds := plain_deltas r in
  concat_str (omap de_content ds) = default EmptyString (om_content (or_message m))
  /\ map call_of_delta (mjoin (omap de_tool_calls ds)) = default [] (om_tool_calls (or_message m)) /\ omap de_finish ds = [or_finish_reason m].
Proof.
  cbn zeta. unfold plain_deltas. rewrite !omap_head, !omap_app. cbn [de_content de_tool_calls de_finish role_delta plain_response or_message or_finish_reason assistant om_content om_tool_calls].
  destruct (content_deltas_calls (resp_content r)) as [-> ->]. cbn -[content_deltas]. rewrite concat_str_app, content_deltas_content. cbn. by rewrite append_nil_r_str.
Qed.
(** C29. Streaming asks the provider the same and, put together, gives the answer
    that would have been given whole: the content, the tool calls in order and
    one finish reason; a provider that fails gives the same error. *)
Theorem stream_equals_whole (id : string) (created : Z) (q : OpenAiChatRequest) (ms : list (ChatMessage Json)) (p : P) (t : Instant) :
  match answer_whole to_text error_display id created q ms p t, handle_streaming to_text error_display id created q ms p t with
  | (Ok (Whole r), p1), (Ok (Streamed es), p2) =>
      p1 = p2 /\ streamed_content es = default EmptyString (om_content (or_message r))
      /\ map call_of_delta (streamed_calls es) = default [] (om_tool_calls (or_message r))
      /\ streamed_finish es = [or_finish_reason r]
      /\ Forall (fun e => match e with EChunk c => ch_id c = or_id r /\ ch_created c = or_created r /\ ch_model c = or_model r | EDone => True end) es
  | (Err e1, p1), (Err e2, p2) => e1 = e2 /\ p1 = p2
  | _, _ => False
  end.
Proof.
  assert (Hall : forall id created model ds, Forall (fun e => match e with EChunk c => ch_id c = id /\ ch_created c = created /\ ch_model c = model | EDone => True end) (stream_of id created model ds)).
  { intros i c m ds. unfold stream_of. apply Forall_app. split; [|by repeat constructor]. rewrite Forall_map. apply Forall_true. by intros d. }
  unfold answer_whole, handle_streaming. destruct (has_tools q).
  - destruct (complete_with_tools _ p t) as [[[r|e] p'] t']; [|done]. split; [done|]. apply and_swap4; [apply Hall|].
    unfold streamed_content, streamed_calls, streamed_finish. rewrite deltas_stream. apply tool_deltas_say.
  - destruct (complete _ p t) as [[[r|e] p'] t']; [|done]. split; [done|]. apply and_swap4; [apply Hall|].
    unfold streamed_content, streamed_calls, streamed_finish. rewrite deltas_stream. apply plain_deltas_say.
Qed.
(** Tool calls survive the way to the client and back. *)
Theorem tool_calls_roundtrip (cs : list (ToolCall Json)) : (forall c, c ∈ cs -> from_str (to_text (tc_arguments c)) = Some (tc_arguments c)) ->
  map (convert_call from_str) (convert_tool_calls_to_openai to_text cs) = cs.
Proof.
  unfold convert_tool_calls_to_openai. intros H. induction cs as [|[i n a] cs IH]; [done|]. cbn [map]. f_equal; [|apply IH; intros c Hc; apply H; by right].
  unfold convert_call. cbn. specialize (H _ (list_elem_of_here _ _)). cbn in H. by rewrite H.
Qed.
(** The messages are converted one by one; the first that cannot be is named. *)
Theorem convert_messages_spec (ms : list OpenAiMessage) :
  match convert_messages from_str ms with
  | Ok xs => length xs = length ms /\ forall i m x, ms !! i = Some m -> xs !! i = Some x -> convert_message from_str i m = Ok x
  | Err e => exists i m, ms !! i = Some m /\ convert_message from_str i m = Err e /\ forall j y, (j < i)%nat -> ms !! j = Some y -> is_ok (convert_message from_str j y) = true
  end.
Proof.
  unfold convert_messages. assert (G : forall k, match convert_from from_str k ms with
    | Ok xs => length xs = length ms /\ forall i m x, ms !! i = Some m -> xs !! i = Some x -> convert_message from_str (k + i) m = Ok x
    | Err e => exists i m, ms !! i = Some m /\ convert_message from_str (k + i) m = Err e /\ forall j y, (j < i)%nat -> ms !! j = Some y -> is_ok (convert_message from_str (k + j) y) = true
    end); [|exact (G 0%nat)].
  induction ms as [|m ms IH]; intros k; cbn [convert_from]; [by split|]. destruct (convert_message from_str k m) as [x|e] eqn:E; cbv beta iota.
  - specialize (IH (S k)). destruct (convert_from from_str (S k) ms) as [xs|e]; cbv beta iota.
    + destruct IH as [H1 H2]. split; [cbn; lia|]. intros [|i] m' x'; cbn; [intros [= <-] [= <-]; by rewrite Nat.add_0_r|]. intros Hm Hx. replace (k + S i)%nat with (S k + i)%nat by lia. by apply H2.
    + destruct IH as (i & m' & H1 & H2 & H3). exists (S i), m'. replace (k + S i)%nat with (S k + i)%nat by lia. split_and!; [done|done|].
      intros [|j] y Hj; cbn; [intros [= <-]; by rewrite Nat.add_0_r, E|]. intros Hy. replace (k + S j)%nat with (S k + j)%nat by lia. apply H3; [lia|done].
  - exists 0%nat, m. rewrite Nat.add_0_r. split_and!; [done|done|]. intros j y Hj. lia.
Qed.
(** A request that is refused does not reach the provider: over the rate, for
    another model than the active one, without messages or with a bad one. *)
Theorem refused_request_calls_nothing (id : string) (created now : Z) (t : Instant) (q : OpenAiChatRequest) (l : Limiter) (p : P) :
  (check now l).1 = false \/ oq_messages q = [] \/ oq_model q <> active_model_name p \/ is_ok (convert_messages from_str (oq_messages q)) = false ->
  let '(r, _, p') := chat_completions_handler from_str to_text error_display id created now t q l (Some p) in is_ok r = false /\ p' = Some p.
Proof.
  intros H. unfold chat_completions_handler. destruct (check now l) as [[] l']; [|done]. destruct (oq_messages q) as [|m ms] eqn:Em; [done|].
  destruct (String.eqb_spec (oq_model q) (active_model_name p)) as [E|]; [|done]. cbn [negb]. destruct (convert_messages from_str (m :: ms)) eqn:Ec; [|done].
  destruct H as [H|[H|[H|H]]]; done.
Qed.
(** With tools the stop sequences of a request are forgotten. *)
Theorem stop_ignored_with_tools (id : string) (created : Z) (q : OpenAiChatRequest) (stop : option Json) (ms : list (ChatMessage Json)) (p : P) (t : Instant) :
  has_tools q = true ->
  let q' := mkOaRequest (oq_model q) (oq_messages q) (oq_temperature q) (oq_max_tokens q) (oq_stream q) (oq_tools q) (oq_tool_choice q) stop in
  answer_whole to_text error_display id created q' ms p t = answer_whole to_text error_display id created q ms p t.
Proof.
  intros H. cbn zeta. unfold answer_whole. assert (E : forall s, has_tools (mkOaRequest (oq_model q) (oq_messages q) (oq_temperature q) (oq_max_tokens q) (oq_stream q) (oq_tools q) (oq_tool_choice q) s) = has_tools q) by done.
  by rewrite E, H.
Qed.
End Facts.

(** ** Witnesses *)
#[local] Instance chatty_provider : LlmProvider Json Z unit :=
  fixed_provider "chatty" 0 (fun _ p t => (Ok (mkResponse "hi" 1 1 Stop None), p, t)).
Definition demo_from (s : string) : option Json := if String.eqb s "{}" then Some (JObject []) else None.
Definition demo_to (v : Json) : string := match v with JObject [] => "{}"%string | _ => "?"%string end.
Definition demo_err (e : LlmError) : string := "failed".
Definition demo_ask (model : string) (tools : option (list OpenAiTool)) : OpenAiChatRequest :=
  mkOaRequest model [mkOaMessage "user" (Some "hello"%string) None None None] None None None tools None None.
Lemma tool_calls_roundtrip_witness :
  map (convert_call demo_from) (convert_tool_calls_to_openai demo_to [mkToolCall Json "c1" "time" (JObject [])]) = [mkToolCall Json "c1" "time" (JObject [])].
Proof. apply (tool_calls_roundtrip demo_from demo_to). intros c Hc. apply list_elem_of_singleton in Hc. by subst c. Defined.
Lemma refused_request_calls_nothing_witness :
  let '(r, _, p') := chat_completions_handler demo_from demo_to demo_err "id" 0 0 0 (demo_ask "other" None) (mkLimiter 30 0 30 60) (Some tt) in is_ok r = false /\ p' = Some tt.
Proof. apply (refused_request_calls_nothing demo_from demo_to demo_err "id" 0 0 0 (demo_ask "other" None) (mkLimiter 30 0 30 60) tt). right. right. left. done. Defined.
Lemma stop_ignored_with_tools_witness :
  let q := demo_ask "chatty" (Some [mkOaTool "function" "time" None None]) in
  let q' := mkOaRequest (oq_model q) (oq_messages q) (oq_temperature q) (oq_max_tokens q) (oq_stream q) (oq_tools q) (oq_tool_choice q) (Some (JString "END")) in
  answer_whole demo_to demo_err "id" 0 q' [] tt 0 = answer_whole demo_to demo_err "id" 0 q [] tt 0.
Proof. exact (stop_ignored_with_tools demo_to demo_err "id" 0 (demo_ask "chatty" (Some [mkOaTool "function" "time" None None])) (Some (JString "END")) [] tt 0 eq_refl). Defined.
