(* ===== verification/RigAdapter.v ===== *)
(** The adapter between the provider trait and a rig-core model:
    [src/llm/rig_adapter.rs].

    A rig-core model is a pair of functions from a request, its state and the
    time.  Its messages are the ones that the adapter builds: a user text, an
    assistant message with its contents, and the result of a tool.  A list
    stands for [OneOrMany]; [many] refuses the empty one. *)

From Stdlib Require Import Ascii.
From S2P Require Import Prelude Strs Json Llm CostGuard Dispatcher.
#[local] Open Scope claw_scope.

(** ** The schemas of strict mode *)
Definition COMBINATORS : list string := ["anyOf"; "oneOf"; "allOf"]%string.
Definition SUBSCHEMAS : list string := ["items"; "not"; "if"; "then"; "else"]%string.
Definition member (k : string) (l : list string) : bool := existsb (String.eqb k) l.
Definition contains_key (k : string) (fs : list (string * Json)) : bool := match assoc_get k fs with Some _ => true | None => false end.
(** An explicit object schema, or one with properties. *)
Definition is_object_schema (fs : list (string * Json)) : bool :=
  match assoc_get "type" fs with Some (JString t) => String.eqb t "object" | _ => false end || contains_key "properties" fs.
Definition current_required (fs : list (string * Json)) : list string :=
  match assoc_get "required" fs with Some (JArray l) => omap as_str l | _ => [] end.
Definition string_leb (a b : string) : Prop := String.leb a b = true.
#[export] Instance string_leb_dec a b : Decision (string_leb a b) := bool_eq_dec _ _.
Definition all_keys (fs : list (string * Json)) : list string :=
  match assoc_get "properties" fs with Some (JObject ps) => merge_sort string_leb (map fst ps) | _ => [] end.
Definition null_type : Json := JObject [("type", JString "null")]%string.
Definition make_nullable (schema : Json) : Json :=
  match schema with
  | JObject fs =>
      match assoc_get "type" fs with
      | Some (JString t) => if String.eqb t "null" then schema else JObject (put "type" (JArray [JString t; JString "null"]) fs)
      | Some (JArray arr) =>
          if existsb (fun v => bool_decide (as_str v = Some "null"%string)) arr then schema else JObject (put "type" (JArray (arr ++ [JString "null"])) fs)
      | Some _ => schema
      | None => JObject [("anyOf"%string, JArray [schema; null_type])]
      end
  | _ => schema
  end.
(** What is set on an object schema when its parts are done. *)
Definition close_object (fs : list (string * Json)) : list (string * Json) :=
  let fs := if negb (contains_key "type" fs) && contains_key "properties" fs then put "type" (JString "object") fs else fs in
  let fs := put "additionalProperties" (JBool false) fs in
  let fs := if contains_key "properties" fs then fs else put "properties" (JObject []) fs in
  put "required" (JArray (map JString (all_keys fs))) fs.
Definition nullable_unless (required : list string) (k : string) (p : Json) : Json := if member k required then p else make_nullable p.
Fixpoint normalize_schema_recursive (schema : Json) : Json :=
  match schema with
  | JObject fs =>
      let object := is_object_schema fs in
      let required := current_required fs in
      let fs' := map (fun kv => match kv with (k, x) => (k,
        if member k COMBINATORS then match x with JArray l => JArray (map normalize_schema_recursive l) | _ => x end
        else if member k SUBSCHEMAS then normalize_schema_recursive x
        else if String.eqb k "properties" then
          match x with
          | JObject ps => JObject (map (fun kp => match kp with (pk, p) => (pk, nullable_unless required pk (normalize_schema_recursive p)) end) ps)
          | _ => x
          end
        else x) end) fs in
      JObject (if object then close_object fs' else fs')
  | _ => schema
  end.
Definition normalize_schema_strict (schema : Json) : Json := normalize_schema_recursive schema.

(** ** Messages *)
Record RigToolCall := mkRigCall { rc_id : string; rc_call_id : option string; rc_name : string; rc_arguments : Json }.
Inductive AssistantContent := AText (text : string) | AToolCall (c : RigToolCall) | AOther.
Inductive RigMessage :=
| RigUser (text : string)
| RigAssistant (contents : list AssistantContent)
| RigToolResult (id : string) (call_id : option string) (text : string).
Definition many {A} (l : list A) : Result (list A) string := match l with [] => Err "Cannot create OneOrMany with an empty vector." | _ => Ok l end.
Definition normalized_tool_call_id (raw : option string) (seed : nat) : string :=
  match raw with
  | Some id => let id := trim id in if is_empty id then "generated_tool_call_" ++s pretty seed else id
  | None => "generated_tool_call_" ++s pretty seed
  end.
Definition rig_call (seed : nat) (tc : ToolCall Json) : RigToolCall :=
  let id := normalized_tool_call_id (Some (tc_id tc)) seed in mkRigCall id (Some id) (tc_name tc) (tc_arguments tc).
Definition assistant_contents (seed : nat) (c : string) (tcs : list (ToolCall Json)) : list AssistantContent :=
  (if is_empty c then [] else [AText c]) ++ imap (fun idx tc => AToolCall (rig_call (seed + idx) tc)) tcs.
Definition convert_one (n : nat) (m : ChatMessage Json) : option RigMessage :=
  match role m with
  | System => None
  | User => Some (RigUser (content m))
  | Assistant =>
      match tool_calls m with
      | Some tcs => match many (assistant_contents n (content m) tcs) with Ok cs => Some (RigAssistant cs) | Err _ => Some (RigAssistant [AText (content m)]) end
      | None => Some (RigAssistant [AText (content m)])
      end
  | Tool => let id := normalized_tool_call_id (tool_call_id m) n in Some (RigToolResult id (Some id) (content m))
  end.
Definition add_preamble (p : option string) (c : string) : option string :=
  match p with Some p => Some (p ++s String (chr 10) EmptyString ++s c) | None => Some c end.
Fixpoint convert_from (preamble : option string) (history : list RigMessage) (ms : list (ChatMessage Json)) : option string * list RigMessage :=
  match ms with
  | [] => (preamble, history)
  | m :: ms =>
      match convert_one (length history) m with
      | None => convert_from (add_preamble preamble (content m)) history ms
      | Some r => convert_from preamble (history ++ [r]) ms
      end
  end.
Definition convert_messages (ms : list (ChatMessage Json)) : option string * list RigMessage := convert_from None [] ms.
Definition convert_tools (ts : list (ToolDefinition Json)) : list (ToolDefinition Json) :=
  map (fun t => mkToolDef _ (td_name t) (td_description t) (normalize_schema_strict (td_parameters t))) ts.
Inductive RigToolChoice := ChooseAuto | ChooseRequired | ChooseNone.
Definition convert_tool_choice (choice : option string) : option RigToolChoice :=
  match to_lowercase <$> choice with
  | Some c => if String.eqb c "auto" then Some ChooseAuto else if String.eqb c "required" then Some ChooseRequired else if String.eqb c "none" then Some ChooseNone else None
  | None => None
  end.

(** ** Requests and answers.  The temperature keeps the 32-bit pattern: an
    [f32] is an [f64] exactly. *)
Record RigRequest := mkRigRequest {
  rq_preamble : option string; rq_history : list RigMessage; rq_tools : list (ToolDefinition Json); rq_tool_choice : option RigToolChoice;
  rq_temperature : option Z; rq_max_tokens : option Z }.
Record RigUsage := mkRigUsage { ru_input : Z; ru_output : Z }.
Record RigResponse := mkRigResponse { rr_choice : list AssistantContent; rr_usage : RigUsage }.
Inductive StreamItem :=
| IText (text : string) | IToolCall (c : RigToolCall) (internal_call_id : string)
| IName (id internal_call_id name : string) | IDelta (id internal_call_id delta : string)
| IFinal (usage : option RigUsage) | IOther | IError (e : string).
Definition saturate_u32 (v : Z) : Z := Z.min v U32_MAX.
Definition build_rig_request (preamble : option string) (history : list RigMessage) (tools : list (ToolDefinition Json)) (choice : option RigToolChoice)
    (temperature max_tokens : option Z) : Result RigRequest LlmError :=
  let history := match history with [] => [RigUser "Hello"] | _ => history end in
  match many history with
  | Ok h => Ok (mkRigRequest preamble h tools choice temperature max_tokens)
  | Err e => Err (RequestFailed "rig" ("Failed to build chat history: " ++s e))
  end.
Definition iron_call (c : RigToolCall) : ToolCall Json := mkToolCall _ (rc_id c) (rc_name c) (rc_arguments c).
Fixpoint concat_text (l : list string) : string := match l with [] => EmptyString | x :: l => x ++s concat_text l end.
Definition text_part (c : AssistantContent) : option string := match c with AText t => if is_empty t then None else Some t | _ => None end.
Definition call_part (c : AssistantContent) : option (ToolCall Json) := match c with AToolCall c => Some (iron_call c) | _ => None end.
Definition finish_of (calls : list (ToolCall Json)) : FinishReason := match calls with [] => Stop | _ => ToolUse end.
Definition extract_response (choice : list AssistantContent) : option string * list (ToolCall Json) * FinishReason :=
  let calls := omap call_part choice in
  (match omap text_part choice with [] => None | parts => Some (concat_text parts) end, calls, finish_of calls).

(** What the loop over a stream has so far, with the chunks it passed on. *)
Record StreamAcc := mkAcc { sa_text : string; sa_calls : list (ToolCall Json); sa_input : Z; sa_output : Z; sa_chunks : list string }.
Definition no_acc : StreamAcc := mkAcc EmptyString [] 0 0 [].
Definition add_text (t : string) (a : StreamAcc) : StreamAcc := mkAcc (sa_text a ++s t) (sa_calls a) (sa_input a) (sa_output a) (sa_chunks a ++ [t]).
Definition add_usage (u : option RigUsage) (a : StreamAcc) : StreamAcc :=
  match u with Some u => mkAcc (sa_text a) (sa_calls a) (saturate_u32 (ru_input u)) (saturate_u32 (ru_output u)) (sa_chunks a) | None => a end.

Section Adapter.
Context {M : Type} (completion : RigRequest -> M -> Instant -> Result RigResponse string * M * Instant)
  (stream : RigRequest -> M -> Instant -> Result (list StreamItem) string * M * Instant) (event_text : ToolStreamEvent -> string).
Record RigAdapter := mkAdapter { ra_model : M; ra_model_name : string; ra_input_cost : Z; ra_output_cost : Z }.
Definition new_adapter (m : M) (name : string) : RigAdapter := let '(i, o) := default default_cost (model_cost name) in mkAdapter m name i o.
Definition set_rig_model (a : RigAdapter) (m : M) : RigAdapter := mkAdapter m (ra_model_name a) (ra_input_cost a) (ra_output_cost a).
Definition rig_failed (a : RigAdapter) (e : string) : LlmError := RequestFailed (ra_model_name a) e.
Definition plain_request (r : CompletionRequest Json) : Result RigRequest LlmError :=
  let '(p, h) := convert_messages (req_messages r) in build_rig_request p h [] None (req_temperature r) (req_max_tokens r).
Definition tool_request (r : ToolCompletionRequest Json) : Result RigRequest LlmError :=
  let '(p, h) := convert_messages (treq_messages r) in
  build_rig_request p h (convert_tools (treq_tools r)) (convert_tool_choice (treq_tool_choice r)) (treq_temperature r) (treq_max_tokens r).
Definition ask {A} (q : Result RigRequest LlmError) (answer : RigResponse -> A) (a : RigAdapter) (t : Instant) : Outcome A RigAdapter :=
  match q with
  | Err e => (Err e, a, t)
  | Ok q => let '(r, m, t) := completion q (ra_model a) t in
            (match r with Ok r => Ok (answer r) | Err e => Err (rig_failed a e) end, set_rig_model a m, t)
  end.
Definition plain_answer (r : RigResponse) : CompletionResponse :=
  let '(text, _, finish) := extract_response (rr_choice r) in
  mkResponse (default EmptyString text) (saturate_u32 (ru_input (rr_usage r))) (saturate_u32 (ru_output (rr_usage r))) finish None.
Definition tool_answer (r : RigResponse) : ToolCompletionResponse Json :=
  let '(text, calls, finish) := extract_response (rr_choice r) in
  mkToolResponse _ text calls (saturate_u32 (ru_input (rr_usage r))) (saturate_u32 (ru_output (rr_usage r))) finish None.
Definition rig_complete (r : CompletionRequest Json) : RigAdapter -> Instant -> Outcome CompletionResponse RigAdapter := ask (plain_request r) plain_answer.
Definition rig_complete_with_tools (r : ToolCompletionRequest Json) : RigAdapter -> Instant -> Outcome (ToolCompletionResponse Json) RigAdapter := ask (tool_request r) tool_answer.

(** ** Streaming *)
Definition event_chunk (ev : ToolStreamEvent) : string := TOOL_STREAM_EVENT_PREFIX ++s event_text ev.
Definition add_chunk (ev : ToolStreamEvent) (a : StreamAcc) : StreamAcc := mkAcc (sa_text a) (sa_calls a) (sa_input a) (sa_output a) (sa_chunks a ++ [event_chunk ev]).
Definition add_call (c : RigToolCall) (a : StreamAcc) : StreamAcc := mkAcc (sa_text a) (sa_calls a ++ [iron_call c]) (sa_input a) (sa_output a) (sa_chunks a).
Definition plain_item (i : StreamItem) (a : StreamAcc) : Result StreamAcc string :=
  match i with IText t => Ok (add_text t a) | IFinal u => Ok (add_usage u a) | IError e => Err e | _ => Ok a end.
Definition tool_item (i : StreamItem) (a : StreamAcc) : Result StreamAcc string :=
  match i with
  | IText t => Ok (add_text t a)
  | IToolCall c internal => Ok (add_call c (add_chunk (SToolCall (rc_id c) internal (rc_name c) (rc_arguments c)) a))
  | IName id internal name => Ok (add_chunk (SToolCallDelta id internal "name" name) a)
  | IDelta id internal d => Ok (add_chunk (SToolCallDelta id internal "delta" d) a)
  | IFinal u => Ok (add_usage u a)
  | IError e => Err e
  | IOther => Ok a
  end.
(** The loop: what it ends with and the chunks passed on until then. *)
Fixpoint run_stream (step : StreamItem -> StreamAcc -> Result StreamAcc string) (items : list StreamItem) (a : StreamAcc) : Result StreamAcc string * list string :=
  match items with
  | [] => (Ok a, sa_chunks a)
  | i :: items => match step i a with Ok a => run_stream step items a | Err e => (Err e, sa_chunks a) end
  end.
Definition ask_stream {A} (q : Result RigRequest LlmError) (step : StreamItem -> StreamAcc -> Result StreamAcc string) (answer : StreamAcc -> A)
    (a : RigAdapter) (t : Instant) : Outcome A RigAdapter * list string :=
  match q with
  | Err e => ((Err e, a, t), [])
  | Ok q =>
      let '(r, m, t) := stream q (ra_model a) t in
      match r with
      | Err e => ((Err (rig_failed a e), set_rig_model a m, t), [])
      | Ok items => let '(r, chunks) := run_stream step items no_acc in
                    ((match r with Ok acc => Ok (answer acc) | Err e => Err (rig_failed a e) end, set_rig_model a m, t), chunks)
      end
  end.
Definition plain_streamed (acc : StreamAcc) : CompletionResponse := mkResponse (sa_text acc) (sa_input acc) (sa_output acc) Stop None.
Definition tool_streamed (acc : StreamAcc) : ToolCompletionResponse Json :=
  mkToolResponse _ (if is_empty (sa_text acc) then None else Some (sa_text acc)) (sa_calls acc) (sa_input acc) (sa_output acc) (finish_of (sa_calls acc)) None.
Definition rig_complete_streaming (r : CompletionRequest Json) : RigAdapter -> Instant -> Outcome CompletionResponse RigAdapter * list string :=
  ask_stream (plain_request r) plain_item plain_streamed.
Definition rig_complete_with_tools_streaming (r : ToolCompletionRequest Json) : RigAdapter -> Instant -> Outcome (ToolCompletionResponse Json) RigAdapter * list string :=
  ask_stream (tool_request r) tool_item tool_streamed.
Definition rig_set_model (model : string) (a : RigAdapter) : Result unit LlmError * RigAdapter :=
  (Err (rig_failed a "Runtime model switching not supported for rig-core providers. Restart with a different model configured."), a).
#[export] Instance rig_provider `{!DecimalOps Z} : LlmProvider Json Z RigAdapter := {|
  model_name := ra_model_name;
  cost_per_token := fun a => (ra_input_cost a, ra_output_cost a);
  complete := rig_complete;
  complete_with_tools := rig_complete_with_tools;
  list_models := default_list_models;
  model_metadata := default_model_metadata ra_model_name;
  active_model_name := ra_model_name;
  set_model := rig_set_model;
  seed_response_chain := default_seed_response_chain;
  get_response_chain_id := default_get_response_chain_id;
  calculate_cost := default_calculate_cost (fun a => (ra_input_cost a, ra_output_cost a));
|}.
End Adapter.

(** ** What strict mode asks of a schema *)
Fixpoint lists_strings (l : list Json) (ks : list string) : bool :=
  match l, ks with [], [] => true | JString s :: l, k :: ks => String.eqb s k && lists_strings l ks | _, _ => false end.
Definition closed_object (fs : list (string * Json)) : bool :=
  match assoc_get "additionalProperties" fs with Some (JBool false) => true | _ => false end
  && contains_key "type" fs && contains_key "properties" fs
  && match assoc_get "required" fs with Some (JArray r) => lists_strings r (all_keys fs) | _ => false end.
Fixpoint strict (schema : Json) : bool :=
  match schema with
  | JObject fs =>
      (negb (is_object_schema fs) || closed_object fs)
      && forallb (fun kv => match kv with (k, x) =>
           if member k COMBINATORS then match x with JArray l => forallb strict l | _ => true end
           else if member k SUBSCHEMAS then strict x
           else if String.eqb k "properties" then match x with JObject ps => forallb (fun kp => match kp with (_, p) => strict p end) ps | _ => true end
           else true end) fs
  | _ => true
  end.
(** The maps of [serde_json] have each key once. *)
Fixpoint unique_keys (v : Json) : bool :=
  match v with
  | JObject fs => bool_decide (NoDup (map fst fs)) && forallb (fun kv => match kv with (_, x) => unique_keys x end) fs
  | JArray l => forallb unique_keys l
  | _ => true
  end.

(** ** Proofs about schemas *)
Definition norm_field (required : list string) (kv : string * Json) : string * Json :=
  match kv with (k, x) => (k,
    if member k COMBINATORS then match x with JArray l => JArray (map normalize_schema_recursive l) | _ => x end
    else if member k SUBSCHEMAS then normalize_schema_recursive x
    else if String.eqb k "properties" then
      match x with JObject ps => JObject (map (fun kp => match kp with (pk, p) => (pk, nullable_unless required pk (normalize_schema_recursive p)) end) ps) | _ => x end
    else x) end.
Definition strict_field (kv : string * Json) : bool :=
  match kv with (k, x) =>
    if member k COMBINATORS then match x with JArray l => forallb strict l | _ => true end
    else if member k SUBSCHEMAS then strict x
    else if String.eqb k "properties" then match x with JObject ps => forallb (fun kp => match kp with (_, p) => strict p end) ps | _ => true end
    else true end.
Lemma normalize_object fs : normalize_schema_recursive (JObject fs)
  = JObject (if is_object_schema fs then close_object (map (norm_field (current_required fs)) fs) else map (norm_field (current_required fs)) fs).
Proof. done. Qed.
Lemma strict_object fs : strict (JObject fs) = (negb (is_object_schema fs) || closed_object fs) && forallb strict_field fs.
Proof. done. Qed.
(** Induction that reaches the parts of the fields. *)
Definition inner (R : Json -> Prop) (v : Json) : Prop := match v with JArray l => Forall R l | JObject fs => Forall (fun kv => R kv.2) fs | _ => True end.
Lemma json_deep_ind (R : Json -> Prop) :
  (forall v, inner R v -> match v with JObject _ => True | _ => R v end) -> (forall fs, Forall (fun kv => R kv.2 /\ inner R kv.2) fs -> R (JObject fs)) -> forall v, R v.
Proof.
  intros Hb Ho v. cut (R v /\ inner R v); [by intros []|]. revert v. apply json_ind'; [exact (conj (Hb JNull I) I)|intros b; exact (conj (Hb (JBool b) I) I)|intros x; exact (conj (Hb (JNumber x) I) I)|intros x; exact (conj (Hb (JString x) I) I)|..].
  - intros l H. assert (inner R (JArray l)) as Hi by (eapply Forall_impl; [exact H|by intros ? []]). split; [exact (Hb (JArray l) Hi)|done].
  - intros fs H. split; [by apply Ho|]. eapply Forall_impl; [exact H|by intros ? []].
Qed.
Lemma forallb_put (f : string * Json -> bool) k v l : f (k, v) = true -> forallb f l = true -> forallb f (put k v l) = true.
Proof. intros Hk. induction l as [|[k' v'] l IH]; cbn; [by rewrite Hk|]. intros [H1 H2]%andb_prop. destruct (String.eqb k k'); cbn; [by rewrite Hk|]. by rewrite H1, IH. Qed.
Lemma contains_put k v l k' : contains_key k' (put k v l) = String.eqb k' k || contains_key k' l.
Proof.
  unfold contains_key. destruct (String.eqb_spec k' k) as [->|n]; [by rewrite assoc_get_put|]. by rewrite assoc_get_put_ne.
Qed.
Lemma put_field_same k v l : assoc_get k l = Some v -> put k v l = l.
Proof. induction l as [|[k' w] l IH]; cbn; [done|]. destruct (String.eqb_spec k k') as [->|n]; [by intros [= ->]|]. intros H. by rewrite IH. Qed.
Lemma lists_strings_spec l ks : lists_strings l ks = true <-> l = map JString ks.
Proof.
  revert ks. induction l as [|[| | |s| |] l IH]; intros [|k ks]; cbn; try (split; done). rewrite andb_true_iff, String.eqb_eq, IH. split; [by intros [-> ->]|by intros [= -> ->]].
Qed.
Lemma closed_close fs : is_object_schema fs = true -> closed_object (close_object fs) = true.
Proof.
  intros H. unfold closed_object, close_object.
  set (f1 := if negb (contains_key "type" fs) && contains_key "properties" fs then put "type" (JString "object") fs else fs).
  assert (Ht : contains_key "type" f1 = true).
  { subst f1. destruct (contains_key "type" fs) eqn:E; [done|]. unfold is_object_schema in H. unfold contains_key in E at 1. destruct (assoc_get "type" fs); [done|]. cbn in H. rewrite H. cbn. by rewrite contains_put. }
  set (f2 := put "additionalProperties" (JBool false) f1). set (f3 := if contains_key "properties" f2 then f2 else put "properties" (JObject []) f2).
  assert (H3 : contains_key "type" f3 = true /\ assoc_get "additionalProperties" f3 = Some (JBool false) /\ contains_key "properties" f3 = true).
  { subst f3. destruct (contains_key "properties" f2) eqn:E; (split_and!; [|try by rewrite ?assoc_get_put_ne; subst f2; rewrite ?assoc_get_put|try done; by rewrite contains_put]); subst f2; by rewrite !contains_put, Ht. }
  destruct H3 as (A & B & C). rewrite !contains_put, A, C, assoc_get_put, !assoc_get_put_ne, B by done. cbn. apply lists_strings_spec.
  unfold all_keys. by rewrite assoc_get_put_ne.
Qed.
Lemma strict_null : strict null_type = true.
Proof. done. Qed.
Lemma strict_retyped v fs : match v with JArray _ => True | _ => False end -> strict (JObject fs) = true -> strict (JObject (put "type" v fs)) = true.
Proof.
  intros Hv. rewrite !strict_object. intros [H1 H2]%andb_prop. rewrite forallb_put, andb_true_r by done. apply orb_true_iff. unfold is_object_schema in *. rewrite assoc_get_put, contains_put. cbn.
  destruct v; [done..| |done]. cbn. destruct (contains_key "properties" fs) eqn:Ep; [|by left]. right. rewrite orb_true_r in H1. cbn in H1.
  unfold closed_object, all_keys in *. rewrite !contains_put, !assoc_get_put_ne by done. cbn. rewrite Ep. apply andb_prop in H1 as [[[-> _]%andb_prop _]%andb_prop ->]. done.
Qed.
Lemma strict_make_nullable p : strict p = true -> strict (make_nullable p) = true.
Proof.
  destruct p as [| | | | |fs]; try done. intros H. cbn [make_nullable]. destruct (assoc_get "type" fs) as [[| | |t|arr|]|] eqn:E; try done.
  - destruct (String.eqb t "null"); [done|]. by apply strict_retyped.
  - destruct (existsb _ arr); [done|]. by apply strict_retyped.
  - rewrite strict_object. cbn -[strict]. by rewrite H.
Qed.
Lemma strict_norm_field required kv : strict (normalize_schema_recursive kv.2) = true -> inner (fun v => strict (normalize_schema_recursive v) = true) kv.2 -> strict_field (norm_field required kv) = true.
Proof.
  destruct kv as [k x]. cbn [snd]. intros H Hi. unfold norm_field, strict_field. destruct (member k COMBINATORS).
  { destruct x; try done. apply forallb_forall. intros y Hy. apply in_map_iff in Hy as (z & <- & Hz). cbn in Hi. rewrite Forall_forall in Hi. apply Hi. by apply list_elem_of_In. }
  destruct (member k SUBSCHEMAS); [done|]. destruct (String.eqb k "properties"); [|done]. destruct x as [| | | | |ps]; try done.
  apply forallb_forall. intros y Hy. apply in_map_iff in Hy as ([pk p] & <- & Hz). cbn in Hi. rewrite Forall_forall in Hi. specialize (Hi _ (proj2 (list_elem_of_In _ _) Hz)). cbn in Hi.
  unfold nullable_unless. destruct (member pk required); [done|]. by apply strict_make_nullable.
Qed.
Lemma assoc_norm required fs k : assoc_get k (map (norm_field required) fs) = (fun x => (norm_field required (k, x)).2) <$> assoc_get k fs.
Proof. induction fs as [|[k' x] fs IH]; [done|]. cbn [map norm_field assoc_get]. destruct (String.eqb_spec k k') as [->|n]; [done|exact IH]. Qed.
Lemma is_object_norm required fs : is_object_schema (map (norm_field required) fs) = is_object_schema fs.
Proof. unfold is_object_schema, contains_key. rewrite !assoc_norm. destruct (assoc_get "type" fs), (assoc_get "properties" fs); done. Qed.
Lemma forallb_close f fs : forallb f fs = true ->
  (forall v, f ("type", v)%string = true) -> (forall v, f ("additionalProperties", v)%string = true) -> (forall v, f ("required", v)%string = true) -> f ("properties"%string, JObject []) = true -> forallb f (close_object fs) = true.
Proof. intros H H1 H2 H3 H4. unfold close_object. repeat (case_match || apply forallb_put); done. Qed.
Lemma normalize_is_strict schema : strict (normalize_schema_recursive schema) = true.
Proof.
  revert schema. apply json_deep_ind; [by intros []|]. intros fs H. rewrite normalize_object.
  assert (Hf : forallb strict_field (map (norm_field (current_required fs)) fs) = true).
  { apply forallb_forall. intros y Hy. apply in_map_iff in Hy as (kv & <- & Hz). rewrite Forall_forall in H. destruct (H _ (proj2 (list_elem_of_In _ _) Hz)). by apply strict_norm_field. }
  destruct (is_object_schema fs) eqn:E; rewrite strict_object.
  - rewrite closed_close, orb_true_r by by rewrite is_object_norm. by apply forallb_close.
  - by rewrite is_object_norm, E, Hf.
Qed.

(** *** A strict schema is left alone *)
Lemma strings_required r ks : lists_strings r ks = true -> omap as_str r = ks.
Proof. intros ->%lists_strings_spec. induction ks as [|k ks IH]; [done|]. cbn. by rewrite IH. Qed.
Lemma assoc_get_elem k v fs : assoc_get k fs = Some v -> (k, v) ∈ fs.
Proof. induction fs as [|[k' w] fs IH]; cbn; [done|]. destruct (String.eqb_spec k k') as [->|n]; [intros [= ->]; by left|]. intros H. right. by apply IH. Qed.
Lemma in_assoc_get k v fs : NoDup (map fst fs) -> (k, v) ∈ fs -> assoc_get k fs = Some v.
Proof.
  induction fs as [|[k' w] fs IH]; cbn; [by intros _ ?%elem_of_nil|]. intros [Hn Hd]%NoDup_cons [[= -> ->]|H]%elem_of_cons; [by rewrite String.eqb_refl|].
  destruct (String.eqb_spec k k') as [->|n]; [|by apply IH]. destruct Hn. apply list_elem_of_In, (in_map fst _ _ (proj1 (list_elem_of_In _ _) H)).
Qed.
Lemma member_spec k l : member k l = true <-> k ∈ l.
Proof. unfold member. rewrite existsb_exists. split; [intros (x & H & ->%String.eqb_eq); by apply list_elem_of_In|]. intros H. exists k. split; [by apply list_elem_of_In|apply String.eqb_refl]. Qed.
Lemma map_same {A} (f : A -> A) l : (forall x, x ∈ l -> f x = x) -> map f l = l.
Proof. induction l as [|x l IH]; intros H; [done|]. cbn. rewrite H by left. f_equal. apply IH. intros y Hy. apply H. by right. Qed.
Lemma forallb_elem {A} (f : A -> bool) l x : forallb f l = true -> x ∈ l -> f x = true.
Proof. intros H Hx. rewrite forallb_forall in H. apply H. by apply list_elem_of_In. Qed.
Lemma keys_in_all k p fs ps : assoc_get "properties" fs = Some (JObject ps) -> (k, p) ∈ ps -> k ∈ all_keys fs.
Proof. intros E H. unfold all_keys. rewrite E, merge_sort_Permutation. apply list_elem_of_In, (in_map fst ps (k, p)). by apply list_elem_of_In. Qed.
Definition unchanged (v : Json) : Prop := unique_keys v = true -> strict v = true -> normalize_schema_recursive v = v.
Lemma norm_field_same fs kv : kv ∈ fs -> NoDup (map fst fs) -> (is_object_schema fs = true -> closed_object fs = true) ->
  unique_keys kv.2 = true -> strict_field kv = true -> unchanged kv.2 -> inner unchanged kv.2 -> norm_field (current_required fs) kv = kv.
Proof.
  destruct kv as [k x]. cbn [snd]. intros Hin Hd Hc Hu Hs H Hi. unfold strict_field in Hs. unfold norm_field. f_equal. destruct (member k COMBINATORS).
  { destruct x as [| | | |l|]; try done. f_equal. apply map_same. intros y Hy. cbn in Hi, Hu. rewrite Forall_forall in Hi. apply Hi; [done|by apply (forallb_elem _ l)..]. }
  destruct (member k SUBSCHEMAS); [by apply H|]. destruct (String.eqb_spec k "properties") as [->|]; [|done]. destruct x as [| | | | |ps]; try done.
  f_equal. apply map_same. intros [pk p] Hp. f_equal. apply (in_assoc_get _ _ _ Hd) in Hin.
  assert (Ho : is_object_schema fs = true) by (unfold is_object_schema, contains_key; rewrite Hin; apply orb_true_r).
  specialize (Hc Ho). unfold closed_object in Hc. apply andb_prop in Hc as [_ Hr]. unfold nullable_unless, current_required.
  destruct (assoc_get "required" fs) as [[| | | |r|]|]; try done. rewrite (strings_required _ _ Hr), (proj2 (member_spec _ _) (keys_in_all _ _ _ _ Hin Hp)).
  cbn in Hi. rewrite Forall_forall in Hi. apply (Hi (pk, p) Hp); [|by apply (forallb_elem _ ps (pk, p) Hs)]. cbn in Hu. apply andb_prop in Hu as [_ Hu]. exact (forallb_elem _ ps (pk, p) Hu Hp).
Qed.
Lemma close_same fs : closed_object fs = true -> close_object fs = fs.
Proof.
  unfold closed_object. intros [[[Ha Ht]%andb_prop Hp]%andb_prop Hr]%andb_prop. unfold close_object. rewrite Ht. cbn [negb andb].
  rewrite (put_field_same "additionalProperties") by (destruct (assoc_get "additionalProperties" fs) as [[|[]| | | |]|]; done). rewrite Hp. apply put_field_same.
  destruct (assoc_get "required" fs) as [[| | | |r|]|]; try done. by apply lists_strings_spec in Hr as ->.
Qed.
Lemma strict_unchanged v : unchanged v.
Proof.
  revert v. apply json_deep_ind; [by intros []|]. intros fs H Hu Hs. rewrite strict_object in Hs. apply andb_prop in Hs as [Hc Hs]. cbn in Hu. apply andb_prop in Hu as [Hd%bool_decide_eq_true Hu].
  rewrite normalize_object, map_same.
  - f_equal. destruct (is_object_schema fs); [|done]. by apply close_same.
  - intros kv Hk. rewrite Forall_forall in H. destruct (H kv Hk) as [H1 H2]. apply norm_field_same; try done; [intros Ho; by rewrite Ho in Hc| |by apply (forallb_elem _ fs)].
    pose proof (forallb_elem _ fs kv Hu Hk) as G. by destruct kv.
Qed.
Lemma put_fields_keys k v l : map fst (put k v l) = if contains_key k l then map fst l else map fst l ++ [k].
Proof.
  unfold contains_key. induction l as [|[k' w] l IH]; cbn; [done|]. destruct (String.eqb_spec k k') as [->|n]; cbn; [done|]. rewrite IH. by destruct (assoc_get k l).
Qed.
Lemma unique_put k v fs : unique_keys (JObject fs) = true -> unique_keys v = true -> unique_keys (JObject (put k v fs)) = true.
Proof.
  cbn. intros [Hd%bool_decide_eq_true H]%andb_prop Hv. rewrite forallb_put, andb_true_r by done. apply bool_decide_eq_true. rewrite put_fields_keys. destruct (contains_key k fs) eqn:E; [done|].
  apply NoDup_app. split_and!; [done| |apply NoDup_singleton]. intros x Hx ->%list_elem_of_singleton. apply list_elem_of_In, in_map_iff in Hx as ([k' w] & Heq & Hin). cbn in Heq. subst k'.
  unfold contains_key in E. by rewrite (in_assoc_get k w fs Hd) in E by by apply list_elem_of_In.
Qed.
Lemma unique_make_nullable p : unique_keys p = true -> unique_keys (make_nullable p) = true.
Proof.
  destruct p as [| | | | |fs]; try done. intros H. cbn [make_nullable]. destruct (assoc_get "type" fs) as [[| | |t|arr|]|] eqn:E; try done.
  - destruct (String.eqb t "null"); [done|]. by apply unique_put.
  - destruct (existsb _ arr); [done|]. apply unique_put; [done|]. cbn. rewrite forallb_app. cbn. rewrite andb_true_r.
    cbn in H. apply andb_prop in H as [_ H]. exact (forallb_elem _ fs _ H (assoc_get_elem _ _ _ E)).
  - cbn. cbn in H. rewrite H. done.
Qed.
Lemma unique_fields (fs : list (string * Json)) (f : string * Json -> string * Json) :
  (forall kv, (f kv).1 = kv.1) -> NoDup (map fst fs) -> (forall kv, kv ∈ fs -> unique_keys (f kv).2 = true) -> unique_keys (JObject (map f fs)) = true.
Proof.
  intros Hk Hd H. cbn. apply andb_true_iff. split.
  - apply bool_decide_eq_true. rewrite map_map. erewrite map_ext; [exact Hd|exact Hk].
  - apply forallb_forall. intros y Hy. apply in_map_iff in Hy as (z & <- & Hz). pose proof (H z (proj2 (list_elem_of_In _ _) Hz)). by destruct (f z).
Qed.
Lemma unique_norm_field required kv : unique_keys kv.2 = true -> unique_keys (normalize_schema_recursive kv.2) = true ->
  inner (fun v => unique_keys v = true -> unique_keys (normalize_schema_recursive v) = true) kv.2 -> unique_keys (norm_field required kv).2 = true.
Proof.
  destruct kv as [k x]. cbn [snd]. intros Hu H Hi. unfold norm_field. cbn [snd]. destruct (member k COMBINATORS).
  { destruct x as [| | | |l|]; try done. cbn in *. apply forallb_forall. intros y Hy. apply in_map_iff in Hy as (z & <- & Hz). rewrite Forall_forall in Hi. rewrite forallb_forall in Hu. apply Hi; [by apply list_elem_of_In|by apply Hu]. }
  destruct (member k SUBSCHEMAS); [done|]. destruct (String.eqb k "properties"); [|done]. destruct x as [| | | | |ps]; try done.
  cbn in Hu. apply andb_prop in Hu as [Hd%bool_decide_eq_true Hu]. apply unique_fields; [by intros []|done|]. intros [pk p] Hp. cbn in Hi. rewrite Forall_forall in Hi. specialize (Hi _ Hp (forallb_elem _ ps (pk, p) Hu Hp)). cbn in Hi.
  cbn [snd]. unfold nullable_unless. destruct (member pk required); [done|]. by apply unique_make_nullable.
Qed.
Lemma unique_strings l : forallb unique_keys (map JString l) = true.
Proof. by induction l. Qed.
Lemma unique_close fs : unique_keys (JObject fs) = true -> unique_keys (JObject (close_object fs)) = true.
Proof. intros H. unfold close_object. repeat (case_match || apply unique_put); try done; apply unique_strings. Qed.
Lemma unique_normalize v : unique_keys v = true -> unique_keys (normalize_schema_recursive v) = true.
Proof.
  revert v. apply (json_deep_ind (fun v => unique_keys v = true -> unique_keys (normalize_schema_recursive v) = true)); [intros [| | | |l|] _; cbn beta iota; first [exact I|exact (fun H => H)]|]. intros fs H Hu. rewrite normalize_object. assert (G : unique_keys (JObject (map (norm_field (current_required fs)) fs)) = true).
  { cbn in Hu. apply andb_prop in Hu as [Hd%bool_decide_eq_true Hu]. apply unique_fields; [by intros []|done|]. intros kv Hk. rewrite Forall_forall in H. destruct (H kv Hk) as [H1 H2].
    pose proof (forallb_elem _ fs kv Hu Hk) as G. destruct kv as [k x]. apply unique_norm_field; [done|by apply H1|done]. }
  destruct (is_object_schema fs); [by apply unique_close|done].
Qed.
(** Whatever the schema, the normalised one is strict in every part that is
    reached: each object is closed, names its type and requires exactly its
    properties.  Strict schemas are left alone, so normalising twice is
    normalising once. *)
Theorem normalize_schema_is_strict (schema : Json) : unique_keys schema = true ->
  strict (normalize_schema_strict schema) = true /\ normalize_schema_strict (normalize_schema_strict schema) = normalize_schema_strict schema
  /\ (strict schema = true -> normalize_schema_strict schema = schema).
Proof.
  intros Hu. split_and!; [apply normalize_is_strict| |by apply strict_unchanged]. apply strict_unchanged; [by apply unique_normalize|apply normalize_is_strict].
Qed.
Lemma assoc_props required ps k : assoc_get k (map (fun kp => match kp with (pk, p) => (pk, nullable_unless required pk (normalize_schema_recursive p)) end) ps)
  = (fun p => nullable_unless required k (normalize_schema_recursive p)) <$> assoc_get k ps.
Proof. induction ps as [|[k' x] ps IH]; [done|]. cbn [map assoc_get]. destruct (String.eqb_spec k k') as [->|n]; [done|exact IH]. Qed.
Lemma close_properties fs ps : assoc_get "properties" fs = Some ps -> assoc_get "properties" (close_object fs) = Some ps.
Proof.
  intros H. unfold close_object. set (f1 := if negb (contains_key "type" fs) && _ then put "type" _ fs else fs).
  assert (H1 : assoc_get "properties" f1 = Some ps) by (subst f1; case_match; rewrite ?assoc_get_put_ne by done; done).
  assert (H2 : assoc_get "properties" (put "additionalProperties" (JBool false) f1) = Some ps) by by rewrite assoc_get_put_ne.
  rewrite assoc_get_put_ne by done. unfold contains_key. by rewrite H2.
Qed.
(** The properties stay, each normalised; those that were optional may be null. *)
Theorem normalize_keeps_properties (fs ps : list (string * Json)) : assoc_get "properties" fs = Some (JObject ps) ->
  exists fs' ps', normalize_schema_strict (JObject fs) = JObject fs' /\ assoc_get "properties" fs' = Some (JObject ps') /\ map fst ps' = map fst ps
    /\ forall k p, assoc_get k ps = Some p ->
         assoc_get k ps' = Some (if member k (current_required fs) then normalize_schema_strict p else make_nullable (normalize_schema_strict p)).
Proof.
  intros H. assert (Ho : is_object_schema fs = true) by (unfold is_object_schema, contains_key; rewrite H; apply orb_true_r).
  unfold normalize_schema_strict. rewrite normalize_object, Ho. eexists _, _. split; [done|]. split.
  - apply close_properties. rewrite assoc_norm, H. done.
  - split; [rewrite map_map; apply map_ext; by intros []|]. intros k p Hp. rewrite assoc_props, Hp. done.
Qed.
(** An object that takes any key becomes one that takes none: the credentials
    of [create_job], and the schema of a WASM tool. *)
Theorem free_form_object_closed (fs : list (string * Json)) : assoc_get "type" fs = Some (JString "object") -> assoc_get "properties" fs = None \/ assoc_get "properties" fs = Some (JObject []) ->
  let s := normalize_schema_strict (JObject fs) in
  json_get "additionalProperties" s = Some (JBool false) /\ json_get "properties" s = Some (JObject []) /\ json_get "required" s = Some (JArray []).
Proof.
  intros Ht Hp. cbn zeta. unfold normalize_schema_strict. rewrite normalize_object. assert (Ho : is_object_schema fs = true) by (unfold is_object_schema; by rewrite Ht).
  rewrite Ho. pose proof (closed_close _ (eq_trans (is_object_norm (current_required fs) fs) Ho)) as Hc. set (g := map (norm_field (current_required fs)) fs) in *.
  assert (Hg : assoc_get "properties" (close_object g) = Some (JObject [])).
  { assert (Gp : assoc_get "properties" g = assoc_get "properties" fs) by (subst g; rewrite assoc_norm; destruct Hp as [-> | ->]; done).
    destruct Hp as [Hp|Hp]; rewrite Hp in Gp; [|by apply close_properties].
    unfold close_object. assert (Gt : contains_key "type" g = true) by (unfold contains_key; subst g; rewrite assoc_norm, Ht; done). rewrite Gt. cbn [negb andb].
    rewrite assoc_get_put_ne by done. rewrite contains_put. unfold contains_key. rewrite Gp. cbn. by rewrite assoc_get_put. }
  unfold closed_object in Hc. apply andb_prop in Hc as [[[Ha _]%andb_prop _]%andb_prop Hr]. cbn. split_and!; [|done|].
  - by destruct (assoc_get "additionalProperties" _) as [[|[]| | | |]|].
  - unfold all_keys in Hr. rewrite Hg in Hr. destruct (assoc_get "required" _) as [[| | | |r|]|]; try done. apply lists_strings_spec in Hr as ->. done.
Qed.
(** An optional property with an enumeration may be null by its type and not by
    its enumeration. *)
Theorem optional_enum_refuses_null (fs : list (string * Json)) (t : string) (values : list Json) :
  assoc_get "type" fs = Some (JString t) -> t <> "null"%string -> assoc_get "enum" fs = Some (JArray values) ->
  let s := make_nullable (JObject fs) in json_get "type" s = Some (JArray [JString t; JString "null"]) /\ json_get "enum" s = Some (JArray values).
Proof.
  intros Ht Hn He. cbn zeta. cbn [make_nullable]. rewrite Ht, (proj2 (String.eqb_neq _ _) Hn). cbn [json_get]. by rewrite assoc_get_put, assoc_get_put_ne.
Qed.

(** ** Messages *)
Definition call_ids (h : list RigMessage) : list string :=
  flat_map (fun r => match r with RigAssistant cs => omap (fun c => match c with AToolCall c => Some (rc_id c) | _ => None end) cs | _ => [] end) h.
Definition result_ids (h : list RigMessage) : list string := omap (fun r => match r with RigToolResult id _ _ => Some id | _ => None end) h.
Definition asked_ids (m : ChatMessage Json) : list string := match role m with Assistant => map tc_id (default [] (tool_calls m)) | _ => [] end.
Definition answered_ids (m : ChatMessage Json) : option string := match role m with Tool => tool_call_id m | _ => None end.
Definition named (id : string) : Prop := trim id <> EmptyString.
Definition all_named (m : ChatMessage Json) : Prop := Forall named (asked_ids m) /\ (role m = Tool -> exists id, tool_call_id m = Some id /\ named id).
Lemma normalized_named id n : named id -> normalized_tool_call_id (Some id) n = trim id.
Proof. unfold named, normalized_tool_call_id. intros H. by destruct (trim id). Qed.
Lemma rig_call_id n tc : rc_id (rig_call n tc) = normalized_tool_call_id (Some (tc_id tc)) n.
Proof. done. Qed.
Lemma assistant_ids n c tcs : Forall named (map tc_id tcs) ->
  omap (fun c => match c with AToolCall c => Some (rc_id c) | _ => None end) (assistant_contents n c tcs) = map trim (map tc_id tcs).
Proof.
  intros H. unfold assistant_contents. rewrite omap_app. transitivity ([] ++ map trim (map tc_id tcs)); [|done]. f_equal; [by destruct (is_empty c)|].
  revert n H. induction tcs as [|tc tcs IH]; intros n H; [done|]. cbn in H. apply Forall_cons in H as [H1 H2]. cbn -[rig_call trim]. rewrite rig_call_id, normalized_named by done. f_equal.
  rewrite <-(IH (S n) H2). f_equal. apply imap_ext. intros i x _. cbn. by rewrite Nat.add_succ_r.
Qed.
Lemma many_nonempty {A} (l : list A) : l <> [] -> many l = Ok l.
Proof. by destruct l. Qed.
(** The ids after one message. *)
Lemma one_ids n m r : all_named m -> convert_one n m = Some r -> call_ids [r] = map trim (asked_ids m) /\ result_ids [r] = map trim (option_list (answered_ids m)).
Proof.
  intros [Ha Hr]. unfold convert_one, asked_ids, answered_ids in *. destruct (role m); [done|by intros [= <-]| |].
  - destruct (tool_calls m) as [tcs|]; [|by intros [= <-]]. cbn [default] in *. destruct tcs as [|tc tcs].
    { destruct (is_empty (content m)) eqn:E; unfold assistant_contents; rewrite E; cbn; by intros [= <-]. }
    rewrite many_nonempty by (unfold assistant_contents; destruct (is_empty (content m)); done). intros [= <-]. split; [|done].
    unfold call_ids. cbn [flat_map]. rewrite app_nil_r. by apply assistant_ids.
  - destruct (Hr eq_refl) as (id & Hid & Hn). rewrite Hid, normalized_named by done. by intros [= <-].
Qed.
Lemma convert_from_ids ms : forall p h, Forall all_named ms ->
  call_ids (convert_from p h ms).2 = call_ids h ++ map trim (flat_map asked_ids ms) /\ result_ids (convert_from p h ms).2 = result_ids h ++ map trim (omap answered_ids ms).
Proof.
  induction ms as [|m ms IH]; intros p h H; cbn [convert_from]; [by rewrite !app_nil_r|]. apply Forall_cons in H as [H1 H2]. destruct (convert_one (length h) m) as [r|] eqn:E.
  - destruct (IH p (h ++ [r]) H2) as [-> ->]. destruct (one_ids _ _ _ H1 E) as [C R]. unfold call_ids in *. unfold result_ids in *. rewrite flat_map_app, omap_app, C, R. cbn [flat_map]. rewrite map_app, <-!app_assoc.
    split; [done|]. f_equal. cbn. by destruct (answered_ids m).
  - destruct (IH (add_preamble p (content m)) h H2) as [-> ->]. unfold convert_one in E. unfold asked_ids, answered_ids. cbn. destruct (role m); [done|done| |done]. destruct (tool_calls m) as [tcs|]; [|done]. by destruct (many _).
Qed.
(** When every call is named, the history asks for the calls and gives the
    results of the conversation, in order and with the same ids: a result
    answers the same call as before. *)
Theorem tool_ids_kept (ms : list (ChatMessage Json)) : Forall all_named ms ->
  let h := (convert_messages ms).2 in call_ids h = map trim (flat_map asked_ids ms) /\ result_ids h = map trim (omap answered_ids ms).
Proof. intros H. by apply (convert_from_ids ms None []). Qed.
Lemma pretty_neq (n : nat) : pretty n <> pretty (S n).
Proof. intros H%(inj pretty). lia. Qed.
Lemma append_inj (p a b : string) : p ++s a = p ++s b -> a = b.
Proof. induction p as [|c p IH]; [done|]. cbn. intros [= H]. by apply IH. Qed.
(** Made-up ids do not match: a call without an id and the result that follows
    it get different ones. *)
Theorem made_up_ids_differ (p : option string) (h : list RigMessage) (c : option string) (tc : ToolCall Json) (id name result : string) :
  trim (tc_id tc) = EmptyString -> trim id = EmptyString ->
  let h' := (convert_from p h [msg_assistant_with_tool_calls c [tc]; msg_tool_result id name result]).2 in
  exists a b, call_ids h' = call_ids h ++ [a] /\ result_ids h' = result_ids h ++ [b] /\ a <> b.
Proof.
  intros H1 H2. cbn zeta. exists ("generated_tool_call_" ++s pretty (length h)), ("generated_tool_call_" ++s pretty (S (length h))).
  assert (E1 : convert_one (length h) (msg_assistant_with_tool_calls c [tc]) = Some (RigAssistant ((if is_empty (default EmptyString c) then [] else [AText (default EmptyString c)]) ++ [AToolCall (rig_call (length h) tc)]))).
  { unfold convert_one, msg_assistant_with_tool_calls. cbn [role tool_calls content]. unfold assistant_contents. cbn [imap]. rewrite Nat.add_0_r, many_nonempty; [done|]. by destruct (is_empty _). }
  cbn [convert_from]. rewrite E1. cbn [convert_one msg_tool_result role tool_call_id content]. unfold call_ids, result_ids. cbn [snd]. rewrite !flat_map_app, !omap_app. cbn [flat_map]. rewrite !app_nil_r, length_app. cbn [length]. rewrite Nat.add_1_r.
  split_and!.
  - f_equal. rewrite omap_app. destruct (is_empty _); cbn; unfold rig_call, normalized_tool_call_id; rewrite H1; done.
  - cbn. unfold normalized_tool_call_id. rewrite H2. done.
  - intros H%append_inj. by apply pretty_neq in H.
Qed.
(** The system messages, a line each, are the preamble; every other message is
    one message of the history. *)
Theorem rig_messages_spec (ms : list (ChatMessage Json)) :
  let '(p, h) := convert_messages ms in
  p = match map content (filter (fun m => role m = System) ms) with [] => None | s :: ss => Some (foldl (fun p s => p ++s String (chr 10) EmptyString ++s s) s ss) end
  /\ length h = length (filter (fun m => role m <> System) ms).
Proof.
  assert (G : forall ms p h, (convert_from p h ms).1 = foldl add_preamble p (map content (filter (fun m => role m = System) ms))
                             /\ length (convert_from p h ms).2 = (length h + length (filter (fun m => role m <> System) ms))%nat).
  { clear ms. induction ms as [|m ms IH]; intros p h; [cbn; split; [done|lia]|]. cbn [convert_from]. rewrite !filter_cons. unfold convert_one.
    destruct (role m) eqn:E; repeat (first [rewrite decide_True by congruence|rewrite decide_False by congruence]); cbn [map foldl length].
    - apply IH.
    - destruct (IH p (h ++ [RigUser (content m)])) as [-> ->]. rewrite length_app. cbn. split; [done|lia].
    - destruct (tool_calls m) as [tcs|]; [destruct (many _)|]; match goal with |- context [h ++ [?r]] => destruct (IH p (h ++ [r])) as [-> ->] end; rewrite length_app; cbn; (split; [done|lia]).
    - match goal with |- context [h ++ [?r]] => destruct (IH p (h ++ [r])) as [-> ->] end. rewrite length_app. cbn. split; [done|lia]. }
  unfold convert_messages. specialize (G ms None []). destruct (convert_from None [] ms) as [p h]. destruct G as [G1 G2]. cbn [fst snd length] in G1, G2. subst p. split; [|exact G2].
  destruct (map content _) as [|s ss]; [done|]. cbn. revert s. induction ss as [|s' ss IH]; intros s; [done|]. cbn. apply IH.
Qed.

(** ** Answers *)
(** A response as a stream: its contents in order and the usage at the end. *)
Definition item_of (internal : string) (c : AssistantContent) : StreamItem :=
  match c with AText t => IText t | AToolCall c => IToolCall c internal | AOther => IOther end.
Definition items_of (internal : string) (r : RigResponse) : list StreamItem := map (item_of internal) (rr_choice r) ++ [IFinal (Some (rr_usage r))].
Lemma concat_text_app a b : concat_text (a ++ b) = concat_text a ++s concat_text b.
Proof. induction a as [|x a IH]; [done|]. cbn. by rewrite IH, append_assoc_str. Qed.
Lemma concat_parts_empty cs : concat_text (omap text_part cs) = EmptyString <-> omap text_part cs = [].
Proof.
  split; [|by intros ->]. induction cs as [|[t|c|] cs IH]; [done| |exact IH|exact IH]. cbn. destruct (is_empty t) eqn:E; [exact IH|]. by destruct t.
Qed.
Section Answers.
Context {M : Type} (completion : RigRequest -> M -> Instant -> Result RigResponse string * M * Instant)
  (stream : RigRequest -> M -> Instant -> Result (list StreamItem) string * M * Instant) (event_text : ToolStreamEvent -> string).
Lemma run_stream_app step xs ys : forall a, (run_stream step (xs ++ ys) a) = match run_stream step xs a with (Ok a, _) => run_stream step ys a | (Err e, cs) => (Err e, cs) end.
Proof. induction xs as [|x xs IH]; intros a; [done|]. cbn. destruct (step x a); [apply IH|done]. Qed.
Lemma content_append t cs : concat_text (omap text_part (AText t :: cs)) = t ++s concat_text (omap text_part cs).
Proof. cbn. by destruct t. Qed.
Lemma run_tool_items internal cs : forall a, exists a', fst (run_stream (tool_item event_text) (map (item_of internal) cs) a) = Ok a'
  /\ sa_text a' = sa_text a ++s concat_text (omap text_part cs) /\ sa_calls a' = sa_calls a ++ omap call_part cs.
Proof.
  induction cs as [|c cs IH]; intros a; [exists a; cbn; by rewrite append_nil_r_str, app_nil_r|]. destruct c as [t|c|]; cbn [map item_of run_stream tool_item].
  - destruct (IH (add_text t a)) as (a' & H1 & H2 & H3). exists a'. rewrite content_append, H2, H3. cbn. rewrite append_assoc_str. done.
  - destruct (IH (add_call c (add_chunk event_text (SToolCall (rc_id c) internal (rc_name c) (rc_arguments c)) a))) as (a' & H1 & H2 & H3). exists a'. rewrite H2, H3. cbn. rewrite <-app_assoc. done.
  - destruct (IH a) as (a' & H1 & H2 & H3). by exists a'.
Qed.
Lemma run_plain_items internal cs : forall a, exists a', fst (run_stream plain_item (map (item_of internal) cs) a) = Ok a' /\ sa_text a' = sa_text a ++s concat_text (omap text_part cs).
Proof.
  induction cs as [|c cs IH]; intros a; [exists a; cbn; by rewrite append_nil_r_str|]. destruct c as [t|c|]; cbn [map item_of run_stream plain_item].
  - destruct (IH (add_text t a)) as (a' & H1 & H2). exists a'. rewrite content_append, H2. cbn. rewrite append_assoc_str. done.
  - destruct (IH a) as (a' & H1 & H2). by exists a'.
  - destruct (IH a) as (a' & H1 & H2). by exists a'.
Qed.
Lemma tool_stream_answer internal r : exists acc chunks, run_stream (tool_item event_text) (items_of internal r) no_acc = (Ok acc, chunks) /\ tool_streamed acc = tool_answer r.
Proof.
  destruct (run_tool_items internal (rr_choice r) no_acc) as (a & H1 & H2 & H3). unfold items_of. rewrite run_stream_app. destruct (run_stream _ _ no_acc) as [q cs]. cbn in H1. subst q. cbn [run_stream tool_item].
  eexists _, _. split; [done|]. unfold tool_streamed, tool_answer, extract_response. cbn [add_usage sa_text sa_calls sa_input sa_output]. rewrite H2, H3. cbn [no_acc sa_text sa_calls String.append app].
  f_equal. pose proof (concat_parts_empty (rr_choice r)) as [He _]. destruct (omap text_part (rr_choice r)) as [|p ps] eqn:E; [done|]. destruct (concat_text (p :: ps)) eqn:E2; [|done]. by specialize (He eq_refl).
Qed.
Lemma plain_stream_answer internal r : exists acc chunks, run_stream plain_item (items_of internal r) no_acc = (Ok acc, chunks)
  /\ plain_streamed acc = mkResponse (resp_content (plain_answer r)) (resp_input_tokens (plain_answer r)) (resp_output_tokens (plain_answer r)) Stop None.
Proof.
  destruct (run_plain_items internal (rr_choice r) no_acc) as (a & H1 & H2). unfold items_of. rewrite run_stream_app. destruct (run_stream _ _ no_acc) as [q cs]. cbn in H1. subst q. cbn [run_stream plain_item].
  eexists _, _. split; [done|]. unfold plain_streamed, plain_answer, extract_response. cbn [add_usage sa_text sa_input sa_output resp_content resp_input_tokens resp_output_tokens]. rewrite H2. cbn [no_acc sa_text String.append].
  f_equal. by destruct (omap text_part (rr_choice r)).
Qed.
(** A model whose stream says what its completion says. *)
Definition streams_its_answer (internal : string) : Prop := forall q m t,
  stream q m t = let '(r, m, t) := completion q m t in (match r with Ok r => Ok (items_of internal r) | Err e => Err e end, m, t).
(** With such a model the streaming calls give what the plain ones give: the
    same answer, the same errors and the same state.  Only a call without tools
    calls every finish a stop. *)
Theorem streaming_same_answer (internal : string) (a : RigAdapter (M:=M)) (t : Instant) : streams_its_answer internal ->
  (forall r, fst (rig_complete_with_tools_streaming stream event_text r a t) = rig_complete_with_tools completion r a t)
  /\ (forall r, fst (rig_complete_streaming stream r a t) = let '(x, a', t') := rig_complete completion r a t in
        (match x with Ok x => Ok (mkResponse (resp_content x) (resp_input_tokens x) (resp_output_tokens x) Stop None) | Err e => Err e end, a', t')).
Proof.
  intros H. split; intros r.
  - unfold rig_complete_with_tools_streaming, rig_complete_with_tools, ask_stream, ask. destruct (tool_request r) as [q|e]; [|done]. rewrite H. destruct (completion q _ t) as [[[x|e] m] t']; [|done].
    destruct (tool_stream_answer internal x) as (acc & cs & -> & E). cbn. by rewrite E.
  - unfold rig_complete_streaming, rig_complete, ask_stream, ask. destruct (plain_request r) as [q|e]; [|done]. rewrite H. destruct (completion q _ t) as [[[x|e] m] t']; [|done].
    destruct (plain_stream_answer internal x) as (acc & cs & -> & E). cbn. by rewrite E.
Qed.
(** The token counts fit in 32 bits, and the reason of the finish is read from
    the tool calls alone: an answer cut at the token limit says that it
    stopped.  The stop sequences of a request are never sent. *)
Theorem tool_answer_spec (r : RigResponse) : 0 <= ru_input (rr_usage r) -> 0 <= ru_output (rr_usage r) ->
  let x := tool_answer r in
  0 <= tresp_input_tokens x <= U32_MAX /\ 0 <= tresp_output_tokens x <= U32_MAX
  /\ tresp_finish_reason x = (if bool_decide (tresp_tool_calls x = []) then Stop else ToolUse)
  /\ forall ms mt temp stop md, plain_request (mkRequest Json ms mt temp stop md) = plain_request (mkRequest Json ms mt temp None md).
Proof.
  intros Hi Ho. assert (0 <= U32_MAX) by done. unfold tool_answer, extract_response, saturate_u32. cbn [tresp_input_tokens tresp_output_tokens tresp_finish_reason tresp_tool_calls].
  split_and!; [lia|lia|lia|lia|by destruct (omap call_part _)|done].
Qed.
(** A model that writes the prefix of events into its text is believed: the
    dispatcher reads the piece as the call of a tool. *)
Theorem text_read_as_event (from_text : string -> option ToolStreamEvent) (ev : ToolStreamEvent) : from_text (event_text ev) = Some ev ->
  let '(r, chunks) := run_stream (tool_item event_text) [IText (event_chunk event_text ev)] no_acc in
  omap (parse_tool_stream_event from_text) chunks = [ev] /\ sa_calls <$> (match r with Ok a => Some a | Err _ => None end) = Some [].
Proof.
  intros H. cbn [run_stream tool_item]. split; [|done]. cbn -[event_chunk parse_tool_stream_event]. unfold event_chunk, parse_tool_stream_event. by rewrite (proj2 (strip_prefix_spec _ _ _) eq_refl); cbn; rewrite H.
Qed.
(** A stream that breaks off fails the call after its pieces have been shown. *)
Theorem broken_stream_shown (items : list StreamItem) (e : string) (a : StreamAcc) : run_stream (tool_item event_text) items no_acc = (Ok a, sa_chunks a) ->
  run_stream (tool_item event_text) (items ++ [IError e]) no_acc = (Err e, sa_chunks a).
Proof. intros H. by rewrite run_stream_app, H. Qed.
End Answers.

(** ** Witnesses *)
Definition credentials_schema : list (string * Json) := [("type", JString "object"); ("additionalProperties", JObject [("type", JString "string")])]%string.
Definition mode_schema : list (string * Json) := [("type", JString "string"); ("enum", JArray [JString "worker"; JString "opencode"])]%string.
Definition job_schema : list (string * Json) :=
  [("type", JString "object"); ("properties", JObject [("title", JObject [("type", JString "string")]); ("mode", JObject mode_schema); ("credentials", JObject credentials_schema)]);
   ("required", JArray [JString "title"])]%string.
Lemma normalize_schema_is_strict_witness :
  strict (normalize_schema_strict (JObject job_schema)) = true /\ normalize_schema_strict (normalize_schema_strict (JObject job_schema)) = normalize_schema_strict (JObject job_schema)
  /\ (strict (JObject job_schema) = true -> normalize_schema_strict (JObject job_schema) = JObject job_schema).
Proof. apply (normalize_schema_is_strict (JObject job_schema)). reflexivity. Defined.
Lemma normalize_keeps_properties_witness : exists fs' ps', normalize_schema_strict (JObject job_schema) = JObject fs' /\ assoc_get "properties" fs' = Some (JObject ps')
  /\ map fst ps' = ["title"; "mode"; "credentials"]%string /\ forall k p, assoc_get k [("title", JObject [("type", JString "string")]); ("mode", JObject mode_schema); ("credentials", JObject credentials_schema)]%string = Some p ->
     assoc_get k ps' = Some (if member k (current_required job_schema) then normalize_schema_strict p else make_nullable (normalize_schema_strict p)).
Proof. exact (normalize_keeps_properties job_schema [("title", JObject [("type", JString "string")]); ("mode", JObject mode_schema); ("credentials", JObject credentials_schema)]%string eq_refl). Defined.
Lemma free_form_object_closed_witness : let s := normalize_schema_strict (JObject credentials_schema) in
  json_get "additionalProperties" s = Some (JBool false) /\ json_get "properties" s = Some (JObject []) /\ json_get "required" s = Some (JArray []).
Proof. exact (free_form_object_closed credentials_schema eq_refl (or_introl eq_refl)). Defined.
Lemma optional_enum_refuses_null_witness : let s := make_nullable (JObject mode_schema) in
  json_get "type" s = Some (JArray [JString "string"; JString "null"]) /\ json_get "enum" s = Some (JArray [JString "worker"; JString "opencode"]).
Proof. apply (optional_enum_refuses_null mode_schema "string" [JString "worker"; JString "opencode"]); [reflexivity|discriminate|reflexivity]. Defined.
Abbreviation demo_talk := [msg_user "what time is it"; msg_assistant_with_tool_calls None [mkToolCall Json "c1" "time" (JObject [])]; msg_tool_result "c1" "time" "noon"].
Lemma tool_ids_kept_witness : let h := (convert_messages demo_talk).2 in call_ids h = map trim (flat_map asked_ids demo_talk) /\ result_ids h = map trim (omap answered_ids demo_talk).
Proof. apply (tool_ids_kept demo_talk). repeat constructor; try discriminate. intros _. exists "c1"%string. split; [reflexivity|discriminate]. Defined.
Lemma made_up_ids_differ_witness : let h' := (convert_from None [] [msg_assistant_with_tool_calls None [mkToolCall Json "" "time" (JObject [])]; msg_tool_result " " "time" "noon"]).2 in
  exists a b, call_ids h' = [a] /\ result_ids h' = [b] /\ a <> b.
Proof. exact (made_up_ids_differ None [] None (mkToolCall Json "" "time" (JObject [])) " " "time" "noon" eq_refl eq_refl). Defined.
Definition demo_reply : RigResponse := mkRigResponse [AText "let me see"; AToolCall (mkRigCall "c1" None "time" (JObject []))] (mkRigUsage 12 5).
Definition demo_completion (q : RigRequest) (m : unit) (t : Instant) : Result RigResponse string * unit * Instant := (Ok demo_reply, m, t + 1).
Definition demo_stream (q : RigRequest) (m : unit) (t : Instant) : Result (list StreamItem) string * unit * Instant := (Ok (items_of "i1" demo_reply), m, t + 1).
Definition demo_event_text (ev : ToolStreamEvent) : string := match ev with SToolCall id _ _ _ => id | SToolCallDelta id _ _ _ => id end.
Lemma streaming_same_answer_witness : let a := new_adapter tt "gpt-4o" in
  (forall r, fst (rig_complete_with_tools_streaming demo_stream demo_event_text r a 0) = rig_complete_with_tools demo_completion r a 0)
  /\ (forall r, fst (rig_complete_streaming demo_stream r a 0) = let '(x, a', t') := rig_complete demo_completion r a 0 in
        (match x with Ok x => Ok (mkResponse (resp_content x) (resp_input_tokens x) (resp_output_tokens x) Stop None) | Err e => Err e end, a', t')).
Proof. exact (streaming_same_answer demo_completion demo_stream demo_event_text "i1" (new_adapter tt "gpt-4o") 0 (fun q m t => eq_refl)). Defined.
Lemma tool_answer_spec_witness : let x := tool_answer demo_reply in
  0 <= tresp_input_tokens x <= U32_MAX /\ 0 <= tresp_output_tokens x <= U32_MAX /\ tresp_finish_reason x = (if bool_decide (tresp_tool_calls x = []) then Stop else ToolUse)
  /\ forall ms mt temp stop md, plain_request (mkRequest Json ms mt temp stop md) = plain_request (mkRequest Json ms mt temp None md).
Proof. apply (tool_answer_spec demo_reply); discriminate. Defined.
