(* ===== verification/McpAuth.v ===== *)
(** OAuth for MCP servers: [src/tools/mcp/auth.rs] and the callback of
    [src/cli/oauth_defaults.rs].

    The network, the store of secrets and JSON text are a record of operations
    on a world.  The requests that were sent and the pages that were opened are
    logged beside it. *)

From Stdlib Require Import Ascii.
From S2P Require Import Prelude Strs Json Extensions Secrets.
#[local] Open Scope claw_scope.

(** ** The network and the secrets *)
Inductive HttpBody := NoBody | JsonBody (v : Json) | FormBody (fields : list (string * string)).
Record HttpRequest := mkHttp { hq_url : string; hq_headers : list (string * string); hq_body : HttpBody }.
(** Header names are in lower case; a chunk that cannot be read is an error. *)
Record HttpAnswer := mkHttpAnswer { ha_status : Z; ha_headers : list (string * string); ha_chunks : list (Result string string) }.
Record NetOps {W : Type} := mkNet {
  http : HttpRequest -> W -> Result HttpAnswer string * W;
  sec_get : string -> string -> W -> Result string SecretError;
  sec_exists : string -> string -> W -> Result bool SecretError;
  sec_create : string -> CreateSecretParams -> W -> Result unit SecretError * W;
  (** Text and JSON of bytes, the reason why a value is refused, the text of a status. *)
  lossy : string -> string;
  json_of : string -> Result Json string;
  refused : Json -> string;
  status_display : Z -> string;
}.
Arguments NetOps W : clear implicits.
Class NetLaws {W : Type} (ops : NetOps W) : Prop := {
  created_reads_back : forall u p w w', sec_create ops u p w = (Ok tt, w') -> p_expires_at p = None -> sec_get ops u (p_name p) w' = Ok (p_value p);
  create_keeps_others : forall u p w u' n, (u', n) <> (u, p_name p) -> sec_get ops u' n (sec_create ops u p w).2 = sec_get ops u' n w;
  create_failed : forall u p w e w', sec_create ops u p w = (Err e, w') -> forall u' n, sec_get ops u' n w' = sec_get ops u' n w;
  http_keeps_secrets : forall q w u n, sec_get ops u n (http ops q w).2 = sec_get ops u n w;
}.
(** The world with the logs. *)
Record Net {W : Type} := mkWorld { net : W; sent : list HttpRequest; opened : list string }.
Arguments Net W : clear implicits.

Inductive AuthError :=
| NotSupported | AuthDiscovery (m : string) | AuthorizationDenied | TokenExchangeFailed (m : string) | RefreshFailed (m : string)
| NoToken | AuthTimeout | PortUnavailable | AuthHttp (m : string) | AuthSecrets (m : string).

(** ** Values read from JSON, as serde derives them *)
Definition must {A} (k : string) (dec : Json -> option A) (v : Json) : option A := json_get k v ≫= dec.
Definition maybe {A} (k : string) (dec : Json -> option A) (v : Json) : option (option A) :=
  match json_get k v with None | Some JNull => Some None | Some x => Some <$> dec x end.
Definition or_default {A} (k : string) (d : A) (dec : Json -> option A) (v : Json) : option A :=
  match json_get k v with None => Some d | Some x => dec x end.
Definition as_bool (v : Json) : option bool := match v with JBool b => Some b | _ => None end.
Definition as_list {A} (dec : Json -> option A) (v : Json) : option (list A) := match v with JArray l => mapM dec l | _ => None end.
Definition as_object (v : Json) : option Json := match v with JObject _ => Some v | _ => None end.

Record ProtectedResourceMetadata := mkResource { resource : string; authorization_servers : list string; resource_scopes : list string }.
Definition protected_resource_of (v : Json) : option ProtectedResourceMetadata :=
  r ← must "resource" as_str v; a ← or_default "authorization_servers" [] (as_list as_str) v; s ← or_default "scopes_supported" [] (as_list as_str) v;
  Some (mkResource r a s).
Record AuthorizationServerMetadata := mkAuthMeta {
  issuer : string; authorization_endpoint : string; token_endpoint : string; registration_endpoint : option string; response_types_supported : list string;
  grant_types_supported : list string; code_challenge_methods_supported : list string; scopes_supported : list string }.
Definition auth_meta_of (v : Json) : option AuthorizationServerMetadata :=
  i ← must "issuer" as_str v; a ← must "authorization_endpoint" as_str v; t ← must "token_endpoint" as_str v; r ← maybe "registration_endpoint" as_str v;
  rt ← or_default "response_types_supported" [] (as_list as_str) v; gt ← or_default "grant_types_supported" [] (as_list as_str) v;
  cm ← or_default "code_challenge_methods_supported" [] (as_list as_str) v; s ← or_default "scopes_supported" [] (as_list as_str) v;
  Some (mkAuthMeta i a t r rt gt cm s).
Record AccessToken := mkToken { access_token : string; token_type : string; expires_in : option Json; refresh_token : option string; scope : option string }.
(** A [u64] keeps its JSON number, which the code does not look at. *)
Definition as_number (v : Json) : option Json := match v with JNumber _ => Some v | _ => None end.
Definition token_of (v : Json) : option AccessToken :=
  a ← must "access_token" as_str v; t ← must "token_type" as_str v; e ← maybe "expires_in" as_number v; r ← maybe "refresh_token" as_str v; s ← maybe "scope" as_str v;
  Some (mkToken a t e r s).
Definition registration_request (redirect_uri : string) : Json :=
  JObject [("client_name", JString "IronClaw"); ("redirect_uris", JArray [JString redirect_uri]); ("grant_types", JArray [JString "authorization_code"; JString "refresh_token"]);
           ("response_types", JArray [JString "code"]); ("token_endpoint_auth_method", JString "none")]%string.
Definition registered_client (v : Json) : option string :=
  c ← must "client_id" as_str v; _ ← maybe "client_secret" as_str v; _ ← maybe "client_secret_expires_at" as_number v;
  _ ← maybe "registration_access_token" as_str v; _ ← maybe "registration_client_uri" as_str v; Some c.

Record PkceChallenge := mkPkce { verifier : string; challenge : string }.

Section Auth.
Context {W : Type} (ops : NetOps W) (origin_of : string -> Result string string) (url_encode : string -> string) (url_decode : string -> option string)
  (b64url sha256 : string -> string).
Definition generate (verifier_bytes : string) : PkceChallenge := let v := b64url verifier_bytes in mkPkce v (b64url (sha256 v)).
Definition fetch (q : HttpRequest) (s : Net W) : Result HttpAnswer string * Net W := let '(r, w) := http ops q (net s) in (r, mkWorld W w (sent s ++ [q]) (opened s)).
Definition set_net (s : Net W) (w : W) : Net W := mkWorld W w (sent s) (opened s).
Definition success (a : HttpAnswer) : bool := (200 <=? ha_status a) && (ha_status a <? 300).
Fixpoint body_bytes (cs : list (Result string string)) : Result string string :=
  match cs with [] => Ok EmptyString | Ok c :: cs => let? r := body_bytes cs in Ok (c ++s r) | Err e :: _ => Err e end.
Definition body_text (a : HttpAnswer) : string := match body_bytes (ha_chunks a) with Ok b => lossy ops b | Err _ => EmptyString end.
Definition body_json {A} (dec : Json -> option A) (a : HttpAnswer) : Result A string :=
  let? b := body_bytes (ha_chunks a) in let? v := json_of ops b in ok_or (dec v) (refused ops v).
Definition http_reason (a : HttpAnswer) : string := "HTTP " ++s status_display ops (ha_status a) ++s " - " ++s body_text a.

Definition read_json {A} (dec : Json -> option A) (wrap : string -> AuthError) (prefix : string) (a : HttpAnswer) : Result A AuthError :=
  match body_json dec a with Ok x => Ok x | Err e => Err (wrap (prefix ++s e)) end.
Definition discover_protected_resource (url : string) (s : Net W) : Result ProtectedResourceMetadata AuthError * Net W :=
  match origin_of url with
  | Err e => (Err (AuthDiscovery ("Invalid server URL: " ++s e)), s)
  | Ok origin =>
      let '(r, s) := fetch (mkHttp (origin ++s "/.well-known/oauth-protected-resource") [] NoBody) s in
      (match r with
       | Err e => Err (AuthDiscovery e)
       | Ok a => if success a then read_json protected_resource_of AuthDiscovery "Invalid metadata: " a else Err NotSupported
       end, s)
  end.
Fixpoint trim_slashes (s : string) : string :=
  match s with
  | EmptyString => EmptyString
  | String c r => match trim_slashes r with EmptyString => if Ascii.eqb c (chr 47) then EmptyString else String c EmptyString | r' => String c r' end
  end.
Definition discover_authorization_server (url : string) (s : Net W) : Result AuthorizationServerMetadata AuthError * Net W :=
  let '(r, s) := fetch (mkHttp (trim_slashes url ++s "/.well-known/oauth-authorization-server") [] NoBody) s in
  (match r with
   | Err e => Err (AuthDiscovery e)
   | Ok a => if success a then read_json auth_meta_of AuthDiscovery "Invalid metadata: " a else Err (AuthDiscovery ("HTTP " ++s status_display ops (ha_status a)))
   end, s).
Definition discover_full_oauth_metadata (url : string) (s : Net W) : Result AuthorizationServerMetadata AuthError * Net W :=
  match discover_protected_resource url s with
  | (Err e, s) => (Err e, s)
  | (Ok m, s) => match authorization_servers m with
                 | [] => (Err (AuthDiscovery "No authorization servers listed"), s)
                 | u :: _ => discover_authorization_server u s
                 end
  end.
Definition discover_oauth_endpoints (c : McpServerConfig) (s : Net W) : Result (string * string) AuthError * Net W :=
  match oauth c with
  | None => (Err NotSupported, s)
  | Some o =>
      match authorization_url o, token_url o with
      | Some a, Some t => (Ok (a, t), s)
      | _, _ => let '(r, s) := discover_full_oauth_metadata (server_url c) s in
                (match r with Ok m => Ok (authorization_endpoint m, token_endpoint m) | Err e => Err e end, s)
      end
  end.
Definition register_client (endpoint redirect_uri : string) (s : Net W) : Result string AuthError * Net W :=
  let '(r, s) := fetch (mkHttp endpoint [] (JsonBody (registration_request redirect_uri))) s in
  (match r with
   | Err e => Err (AuthDiscovery ("DCR request failed: " ++s e))
   | Ok a => if success a then read_json registered_client AuthDiscovery "Invalid DCR response: " a else Err (AuthDiscovery ("DCR failed: " ++s http_reason a))
   end, s).

(** ** The browser and the callback *)
Definition join_space (l : list string) : string := match l with [] => EmptyString | x :: l => foldl (fun a b => a ++s " " ++s b) x l end.
Definition build_authorization_url (base id redirect : string) (ss : list string) (pkce : option PkceChallenge) (extra : gmap string string) : string :=
  let url := base ++s "?client_id=" ++s url_encode id ++s "&response_type=code&redirect_uri=" ++s url_encode redirect in
  let url := match ss with [] => url | _ => url ++s "&scope=" ++s url_encode (join_space ss) end in
  let url := match pkce with Some p => url ++s "&code_challenge=" ++s challenge p ++s "&code_challenge_method=S256" | None => url end in
  foldl (fun u kv => u ++s "&" ++s url_encode kv.1 ++s "=" ++s url_encode kv.2) url (map_to_list extra).
(** [splitn(2, '=')] when there are two parts. *)
Fixpoint split_eq (s : string) : option (string * string) :=
  match s with
  | EmptyString => None
  | String c r => if Ascii.eqb c (chr 61) then Some (EmptyString, r) else match split_eq r with Some (a, b) => Some (String c a, b) | None => None end
  end.
Fixpoint find_param (name : string) (ps : list string) : option string :=
  match ps with
  | [] => None
  | p :: ps => match split_eq p with
               | Some (k, v) => if String.eqb k name then Some (default v (url_decode v)) else find_param name ps
               | None => find_param name ps
               end
  end.
(** What the listener does with the first line of a request. *)
Definition callback_line (path_prefix name line : string) : option (Result string AuthError) :=
  match split_whitespace line !! 1%nat with
  | None => None
  | Some path =>
      if negb (starts_with path path_prefix) then None
      else match split_on (chr 63) path !! 1%nat with
           | None => None
           | Some query => if str_contains query "error=" then Some (Err AuthorizationDenied) else Ok <$> find_param name (split_on (chr 38) query)
           end
  end.
(** The lines that come in before the time is over. *)
Fixpoint wait_for_callback (path_prefix name : string) (lines : list (Result string string)) : Result string AuthError :=
  match lines with
  | [] => Err AuthTimeout
  | Err e :: _ => Err (AuthHttp e)
  | Ok l :: ls => match callback_line path_prefix name l with Some r => r | None => wait_for_callback path_prefix name ls end
  end.
Definition wait_for_authorization_callback : list (Result string string) -> Result string AuthError := wait_for_callback "/callback" "code".

(** ** Tokens *)
Definition exchange_code_for_token (token_url id code redirect : string) (pkce : option PkceChallenge) (s : Net W) : Result AccessToken AuthError * Net W :=
  let fields := [("grant_type", "authorization_code"); ("code", code); ("redirect_uri", redirect); ("client_id", id)]%string
                ++ match pkce with Some p => [("code_verifier"%string, verifier p)] | None => [] end in
  let '(r, s) := fetch (mkHttp token_url [] (FormBody fields)) s in
  (match r with
   | Err e => Err (TokenExchangeFailed e)
   | Ok a => if success a then read_json token_of TokenExchangeFailed "Invalid response: " a else Err (TokenExchangeFailed (http_reason a))
   end, s).
Definition store_one (user name value provider : string) (s : Net W) : Result unit AuthError * Net W :=
  let '(r, w) := sec_create ops user (params_with_provider (new_params name value) ("mcp:" ++s provider)) (net s) in
  (match r with Ok _ => Ok tt | Err e => Err (AuthSecrets (secret_error_display e)) end, set_net s w).
Definition store_tokens (user : string) (c : McpServerConfig) (t : AccessToken) (s : Net W) : Result unit AuthError * Net W :=
  match store_one user (token_secret_name c) (access_token t) (server_name c) s with
  | (Err e, s) => (Err e, s)
  | (Ok _, s) => match refresh_token t with Some r => store_one user (refresh_token_secret_name c) r (server_name c) s | None => (Ok tt, s) end
  end.
Definition store_client_id (user : string) (c : McpServerConfig) (id : string) (s : Net W) : Result unit AuthError * Net W :=
  store_one user (client_id_secret_name c) id (server_name c) s.
Definition get_client_id (c : McpServerConfig) (user : string) (s : Net W) : Result string AuthError :=
  match oauth c with
  | Some o => Ok (client_id o)
  | None => match sec_get ops user (client_id_secret_name c) (net s) with
            | Ok id => Ok id
            | Err (SecretNotFound _) => Err (RefreshFailed "No client ID found. Please re-authenticate.")
            | Err e => Err (AuthSecrets (secret_error_display e))
            end
  end.
Definition get_access_token (c : McpServerConfig) (user : string) (s : Net W) : Result (option string) AuthError :=
  match sec_get ops user (token_secret_name c) (net s) with
  | Ok t => Ok (Some t)
  | Err (SecretNotFound _) => Ok None
  | Err e => Err (AuthSecrets (secret_error_display e))
  end.
Definition is_authenticated (c : McpServerConfig) (user : string) (s : Net W) : bool :=
  match sec_exists ops user (token_secret_name c) (net s) with Ok b => b | Err _ => false end.
Definition refresh_endpoint (c : McpServerConfig) (s : Net W) : Result string AuthError * Net W :=
  match oauth c ≫= token_url with
  | Some u => (Ok u, s)
  | None => let '(r, s) := discover_full_oauth_metadata (server_url c) s in (match r with Ok m => Ok (token_endpoint m) | Err e => Err e end, s)
  end.
Definition refresh_fields (id token : string) : list (string * string) := [("grant_type", "refresh_token"); ("refresh_token", token); ("client_id", id)]%string.
Definition refresh_access_token (c : McpServerConfig) (user : string) (s : Net W) : Result AccessToken AuthError * Net W :=
  match get_client_id c user s with
  | Err e => (Err e, s)
  | Ok id =>
      match sec_get ops user (refresh_token_secret_name c) (net s) with
      | Err e => (Err (RefreshFailed ("No refresh token: " ++s secret_error_display e)), s)
      | Ok old =>
          match refresh_endpoint c s with
          | (Err e, s) => (Err e, s)
          | (Ok url, s) =>
              match fetch (mkHttp url [] (FormBody (refresh_fields id old))) s with
              | (Err e, s) => (Err (RefreshFailed e), s)
              | (Ok a, s) =>
                  if negb (success a) then (Err (RefreshFailed (http_reason a)), s)
                  else match read_json token_of RefreshFailed "Invalid response: " a with
                       | Err e => (Err e, s)
                       | Ok t => let '(r, s) := store_tokens user c t s in (match r with Ok _ => Ok t | Err e => Err e end, s)
                       end
              end
          end
      end
  end.

(** ** The flow *)
Record FlowPlan := mkPlan { pl_client : string; pl_auth_url : string; pl_token_url : string; pl_pkce : bool; pl_scopes : list string; pl_extra : gmap string string }.
Definition plan_flow (c : McpServerConfig) (redirect : string) (s : Net W) : Result FlowPlan AuthError * Net W :=
  match oauth c with
  | Some o => let '(r, s) := discover_oauth_endpoints c s in
              (match r with Ok (a, t) => Ok (mkPlan (client_id o) a t (use_pkce o) (scopes o) (extra_params o)) | Err e => Err e end, s)
  | None =>
      match discover_full_oauth_metadata (server_url c) s with
      | (Err e, s) => (Err e, s)
      | (Ok m, s) =>
          match registration_endpoint m with
          | None => (Err NotSupported, s)
          | Some ep => let '(r, s) := register_client ep redirect s in
                       (match r with Ok id => Ok (mkPlan id (authorization_endpoint m) (token_endpoint m) true (scopes_supported m) ∅) | Err e => Err e end, s)
          end
      end
  end.
Definition OAUTH_CALLBACK_PORT : Z := 9876.
Definition redirect_uri : string := "http://localhost:" ++s pretty OAUTH_CALLBACK_PORT ++s "/callback".
Definition open_page (url : string) (s : Net W) : Net W := mkWorld W (net s) (sent s) (opened s ++ [url]).
Definition authorize_mcp_server (c : McpServerConfig) (user random : string) (port_free : bool) (lines : list (Result string string)) (s : Net W)
    : Result AccessToken AuthError * Net W :=
  if negb port_free then (Err PortUnavailable, s)
  else match plan_flow c redirect_uri s with
       | (Err e, s) => (Err e, s)
       | (Ok p, s) =>
           let pkce := if pl_pkce p then Some (generate random) else None in
           let s := open_page (build_authorization_url (pl_auth_url p) (pl_client p) redirect_uri (pl_scopes p) pkce (pl_extra p)) s in
           match wait_for_authorization_callback lines with
           | Err e => (Err e, s)
           | Ok code =>
               match exchange_code_for_token (pl_token_url p) (pl_client p) code redirect_uri pkce s with
               | (Err e, s) => (Err e, s)
               | (Ok t, s) =>
                   match store_tokens user c t s with
                   | (Err e, s) => (Err e, s)
                   | (Ok _, s) =>
                       match oauth c with
                       | Some _ => (Ok t, s)
                       | None => let '(r, s) := store_client_id user c (pl_client p) s in (match r with Ok _ => Ok t | Err e => Err e end, s)
                       end
                   end
               end
           end
       end.
End Auth.

(** ** Proofs *)
Lemma append_inj_l (p a b : string) : p ++s a = p ++s b -> a = b.
Proof. induction p as [|c p IH]; [done|]. cbn. intros [= H]. by apply IH. Qed.
Lemma token_names_differ c : token_secret_name c <> refresh_token_secret_name c /\ token_secret_name c <> client_id_secret_name c /\ refresh_token_secret_name c <> client_id_secret_name c.
Proof. unfold token_secret_name, refresh_token_secret_name, client_id_secret_name. split_and!; intros H%append_inj_l%append_inj_l; discriminate. Qed.
(** A request that carries nothing. *)
Definition asking (q : HttpRequest) : Prop := hq_body q = NoBody /\ hq_headers q = [].
Section Facts.
Context {W : Type} (ops : NetOps W) `{!NetLaws ops} (origin_of : string -> Result string string) (url_encode : string -> string) (url_decode : string -> option string)
  (b64url sha256 : string -> string).
Definition same_secrets (w w' : W) : Prop := forall u n, sec_get ops u n w' = sec_get ops u n w.
Lemma fetch_spec q s : let '(r, s') := fetch ops q s in sent s' = sent s ++ [q] /\ opened s' = opened s /\ same_secrets (net s) (net s').
Proof. unfold fetch. pose proof (fun u n => http_keeps_secrets q (net s) u n) as H. destruct (http ops q (net s)) as [r w]. by split_and!. Qed.
(** A step of discovery: requests without a body, and no secret is touched. *)
Definition only_asks (s s' : Net W) : Prop := (exists qs, sent s' = sent s ++ qs /\ Forall asking qs /\ (length qs <= 2)%nat) /\ opened s' = opened s /\ same_secrets (net s) (net s').
Lemma resource_asks url s : (exists qs, sent (discover_protected_resource ops origin_of url s).2 = sent s ++ qs /\ Forall asking qs /\ (length qs <= 1)%nat)
  /\ opened (discover_protected_resource ops origin_of url s).2 = opened s /\ same_secrets (net s) (net (discover_protected_resource ops origin_of url s).2).
Proof.
  unfold discover_protected_resource. destruct (origin_of url) as [o|e]; [|cbn; split; [exists []; by rewrite app_nil_r; split_and!; [|constructor|cbn; lia]|done]].
  match goal with |- context [fetch ops ?q s] => pose proof (fetch_spec q s) as F; destruct (fetch ops q s) as [r s1]; destruct F as (F1 & F2 & F3); cbn [snd]; split; [exists [q]; split_and!; [done|by repeat constructor|done]|done] end.
Qed.
Lemma metadata_asks url s : only_asks s (discover_full_oauth_metadata ops origin_of url s).2.
Proof.
  unfold discover_full_oauth_metadata, only_asks. pose proof (resource_asks url s) as ((qs & H1 & H2 & H3) & Ho & Hs). destruct (discover_protected_resource ops origin_of url s) as [[m|e] s1]; cbn [snd] in *; [|split; [exists qs; split_and!; [done|done|lia]|done]].
  destruct (authorization_servers m) as [|u us]; cbn [snd]; [split; [exists qs; split_and!; [done|done|lia]|done]|]. unfold discover_authorization_server.
  match goal with |- context [fetch ops ?q s1] => pose proof (fetch_spec q s1) as F; destruct (fetch ops q s1) as [r s2]; destruct F as (F1 & F2 & F3); cbn [snd];
    split; [exists (qs ++ [q]); split_and!; [by rewrite F1, H1, <-app_assoc|apply Forall_app; by repeat constructor|rewrite length_app; cbn; lia]|split; [by rewrite F2|]] end.
  intros x n. by rewrite F3, Hs.
Qed.
Lemma endpoint_asks c s : only_asks s (refresh_endpoint ops origin_of c s).2 /\ (forall u, oauth c ≫= token_url = Some u -> refresh_endpoint ops origin_of c s = (Ok u, s)).
Proof.
  unfold refresh_endpoint. destruct (oauth c ≫= token_url) as [u|]; cbn [snd].
  - split; [|by intros ? [= <-]]. split; [exists []; rewrite app_nil_r; split_and!; [done|constructor|cbn; lia]|done].
  - split; [|done]. pose proof (metadata_asks (server_url c) s) as M. by destruct (discover_full_oauth_metadata ops origin_of (server_url c) s) as [[m|e] s1].
Qed.
Lemma store_one_spec u n v pr s r s' : store_one ops u n v pr s = (r, s') -> sent s' = sent s /\ opened s' = opened s
  /\ (forall u' n', (u', n') <> (u, n) -> sec_get ops u' n' (net s') = sec_get ops u' n' (net s)) /\ (r = Ok tt -> sec_get ops u n (net s') = Ok v).
Proof.
  unfold store_one. set (p := params_with_provider _ _). pose proof (fun u' n' => create_keeps_others u p (net s) u' n') as K. destruct (sec_create ops u p (net s)) as [[[]|e] w] eqn:E; intros [= <- <-]; split_and!; try done.
  intros _. cbn [net set_net]. exact (created_reads_back u p (net s) w E eq_refl).
Qed.
Lemma store_tokens_spec u c t s r s' : store_tokens ops u c t s = (r, s') -> sent s' = sent s /\ opened s' = opened s
  /\ (forall u' n', (u', n') <> (u, token_secret_name c) -> (u', n') <> (u, refresh_token_secret_name c) -> sec_get ops u' n' (net s') = sec_get ops u' n' (net s))
  /\ (r = Ok tt -> sec_get ops u (token_secret_name c) (net s') = Ok (access_token t)
        /\ sec_get ops u (refresh_token_secret_name c) (net s') = match refresh_token t with Some x => Ok x | None => sec_get ops u (refresh_token_secret_name c) (net s) end).
Proof.
  unfold store_tokens. destruct (store_one ops u (token_secret_name c) _ _ s) as [r1 s1] eqn:E1. apply store_one_spec in E1 as (A1 & A2 & A3 & A4). pose proof (token_names_differ c) as (N & _ & _).
  destruct r1 as [[]|e]; [|intros [= <- <-]; split_and!; [done|done|intros; by apply A3|done]]. specialize (A4 eq_refl). destruct (refresh_token t) as [x|].
  - intros E2. apply store_one_spec in E2 as (B1 & B2 & B3 & B4). split_and!; [by rewrite B1|by rewrite B2|intros; rewrite B3 by done; by apply A3|]. intros ->. split; [|by apply B4]. rewrite B3; [done|]. intros H. exact (N (f_equal snd H)).
  - intros [= <- <-]. split_and!; [done|done|intros; by apply A3|]. intros _. split; [done|]. apply A3. intros H. exact (N (eq_sym (f_equal snd H))).
Qed.
(** A refresh that succeeds leaves the new tokens where the next call reads
    them, and every other secret as it was: those of other users, of other
    servers and the id of the client. *)
Theorem refresh_updates_tokens (c : McpServerConfig) (user : string) (s s' : Net W) (t : AccessToken) : refresh_access_token ops origin_of c user s = (Ok t, s') ->
  get_access_token ops c user s' = Ok (Some (access_token t))
  /\ sec_get ops user (refresh_token_secret_name c) (net s') = match refresh_token t with Some x => Ok x | None => sec_get ops user (refresh_token_secret_name c) (net s) end
  /\ forall u n, (u, n) <> (user, token_secret_name c) -> (u, n) <> (user, refresh_token_secret_name c) -> sec_get ops u n (net s') = sec_get ops u n (net s).
Proof.
  unfold refresh_access_token. destruct (get_client_id ops c user s) as [id|]; [|done]. destruct (sec_get ops user (refresh_token_secret_name c) (net s)) as [old|] eqn:Eo; [|done].
  pose proof (endpoint_asks c s) as ((_ & _ & S1) & _). destruct (refresh_endpoint ops origin_of c s) as [[url|e] s1]; cbn [snd] in S1; [|done].
  match goal with |- context [fetch ops ?q s1] => pose proof (fetch_spec q s1) as F; destruct (fetch ops q s1) as [[a|e] s2]; destruct F as (_ & _ & S2) end; [|done].
  destruct (success a); [|done]. cbn [negb]. destruct (read_json ops token_of RefreshFailed _ a) as [t'|]; [|done]. destruct (store_tokens ops user c t' s2) as [r s3] eqn:Et. apply store_tokens_spec in Et as (_ & _ & H3 & H4).
  destruct r as [[]|e]; [|done]. intros [= <- <-]. destruct (H4 eq_refl) as [G1 G2]. split_and!.
  - unfold get_access_token. by rewrite G1.
  - rewrite G2, S2, S1, Eo. done.
  - intros u n A B. rewrite H3 by done. by rewrite S2, S1.
Qed.
(** What a refresh sends: questions to find the endpoint, then the refresh token
    to it and to no other address; with a configured endpoint nothing else. *)
Theorem refresh_sends (c : McpServerConfig) (user : string) (s : Net W) :
  let s' := (refresh_access_token ops origin_of c user s).2 in
  exists asks posts, sent s' = sent s ++ asks ++ posts /\ Forall asking asks /\ (length asks <= 2)%nat /\ (length posts <= 1)%nat
    /\ (forall q, q ∈ posts -> exists id old, sec_get ops user (refresh_token_secret_name c) (net s) = Ok old /\ hq_body q = FormBody (refresh_fields id old) /\ hq_headers q = [])
    /\ (forall u, oauth c ≫= token_url = Some u -> asks = [] /\ Forall (fun q => hq_url q = u) posts).
Proof.
  cbn zeta. unfold refresh_access_token. assert (N : exists asks posts, sent s = sent s ++ asks ++ posts /\ Forall asking asks /\ (length asks <= 2)%nat /\ (length posts <= 1)%nat
    /\ (forall q, q ∈ posts -> exists id old, sec_get ops user (refresh_token_secret_name c) (net s) = Ok old /\ hq_body q = FormBody (refresh_fields id old) /\ hq_headers q = [])
    /\ (forall u, oauth c ≫= token_url = Some u -> asks = [] /\ Forall (fun q => hq_url q = u) posts)).
  { exists [], []. rewrite app_nil_r. split_and!; [done|constructor|cbn; lia|cbn; lia|by intros q ?%elem_of_nil|by split]. }
  destruct (get_client_id ops c user s) as [id|]; [|exact N]. destruct (sec_get ops user (refresh_token_secret_name c) (net s)) as [old|] eqn:Eo; [|exact N]. clear N.
  pose proof (endpoint_asks c s) as (((qs & A1 & A2 & A3) & _ & _) & Hu). destruct (refresh_endpoint ops origin_of c s) as [r1 s1] eqn:Er. cbn [snd] in *.
  assert (Hq : forall u, oauth c ≫= token_url = Some u -> r1 = Ok u /\ qs = []).
  { intros u H. specialize (Hu u H). injection Hu as -> ->. split; [done|]. rewrite <-(app_nil_r (sent s)) in A1 at 1. by apply app_inv_head in A1. }
  destruct r1 as [url|e]; [|exists qs, []; rewrite app_nil_r; split_and!; [done..|cbn; lia|by intros q ?%elem_of_nil|intros u H; by destruct (Hq u H)]].
  match goal with |- context [fetch ops ?q s1] => pose proof (fetch_spec q s1) as F; destruct (fetch ops q s1) as [r2 s2]; set (rq := q) in *; destruct F as (F1 & _ & _) end.
  assert (G : forall s' : Net W, sent s' = sent s2 -> exists asks posts, sent s' = sent s ++ asks ++ posts /\ Forall asking asks /\ (length asks <= 2)%nat /\ (length posts <= 1)%nat
    /\ (forall q, q ∈ posts -> exists id old', Ok (E:=SecretError) old = Ok old' /\ hq_body q = FormBody (refresh_fields id old') /\ hq_headers q = [])
    /\ (forall u, oauth c ≫= token_url = Some u -> asks = [] /\ Forall (fun q => hq_url q = u) posts)).
  { intros s' Es. exists qs, [rq]. rewrite Es, F1, A1, <-app_assoc. split_and!; [done..|cbn; lia| |].
    - intros q ->%list_elem_of_singleton. by exists id, old.
    - intros u H. destruct (Hq u H) as [[= ->] ->]. split; [done|]. by repeat constructor. }
  destruct r2 as [a|e]; [|by apply G]. destruct (success a); cbn [negb]; [|by apply G]. destruct (read_json ops token_of RefreshFailed _ a) as [t'|]; [|by apply G].
  destruct (store_tokens ops user c t' s2) as [r s3] eqn:Et. apply store_tokens_spec in Et as (H1 & _). by apply G.
Qed.
End Facts.

(** ** PKCE *)
Section Pkce.
Context {W : Type} (ops : NetOps W) `{!NetLaws ops} (origin_of : string -> Result string string) (url_encode : string -> string) (url_decode : string -> option string)
  (b64url sha256 : string -> string).
Lemma extended_url l : forall url, exists rest, foldl (fun u (kv : string * string) => u ++s "&" ++s url_encode kv.1 ++s "=" ++s url_encode kv.2) url l = url ++s rest.
Proof.
  induction l as [|kv l IH]; intros url; [exists EmptyString; by rewrite append_nil_r_str|]. cbn [foldl]. destruct (IH (url ++s "&" ++s url_encode kv.1 ++s "=" ++s url_encode kv.2)) as [rest ->]. eexists. rewrite append_assoc_str. reflexivity.
Qed.
Lemma regroup (u x y z r : string) : (u ++s x ++s y ++s z) ++s r = u ++s x ++s y ++s z ++s r.
Proof. by rewrite !append_assoc_str. Qed.
Lemma url_has_challenge base id redirect ss p extra : exists a rest,
  build_authorization_url url_encode base id redirect ss (Some p) extra = a ++s "&code_challenge=" ++s challenge p ++s "&code_challenge_method=S256" ++s rest.
Proof.
  unfold build_authorization_url. cbv beta zeta. match goal with |- exists a rest, foldl _ (?u ++s _) ?l = _ => generalize u as v, l as kvs; intros v kvs end.
  match goal with |- exists a rest, foldl _ ?w _ = _ => destruct (extended_url kvs w) as [rest ->] end. exists v, rest. apply regroup.
Qed.
Lemma exchange_sends tu id code redirect pkce s : sent (exchange_code_for_token ops tu id code redirect pkce s).2
  = sent s ++ [mkHttp tu [] (FormBody ([("grant_type", "authorization_code"); ("code", code); ("redirect_uri", redirect); ("client_id", id)]%string ++ match pkce with Some p => [("code_verifier"%string, verifier p)] | None => [] end))]
  /\ opened (exchange_code_for_token ops tu id code redirect pkce s).2 = opened s.
Proof.
  unfold exchange_code_for_token. match goal with |- context [fetch ops ?q s] => pose proof (fetch_spec ops q s) as F; destruct (fetch ops q s) as [r s1]; destruct F as (F1 & F2 & _) end. by cbn [snd].
Qed.
Lemma plan_quiet c redirect s : opened (plan_flow ops origin_of c redirect s).2 = opened s /\ match plan_flow ops origin_of c redirect s with (Ok p, _) => pl_pkce p = match oauth c with Some o => use_pkce o | None => true end | _ => True end.
Proof.
  unfold plan_flow. destruct (oauth c) as [o|] eqn:Eo.
  - unfold discover_oauth_endpoints. rewrite Eo. pose proof (metadata_asks ops origin_of (server_url c) s) as (_ & M & _). destruct (authorization_url o); [destruct (token_url o); [done|]|];
      destruct (discover_full_oauth_metadata ops origin_of (server_url c) s) as [[m|e] s1]; done.
  - pose proof (metadata_asks ops origin_of (server_url c) s) as (_ & M & _). destruct (discover_full_oauth_metadata ops origin_of (server_url c) s) as [[m|e] s1]; cbn [snd] in *; [|done].
    destruct (registration_endpoint m) as [ep|]; [|done]. unfold register_client. match goal with |- context [fetch ops ?q s1] => pose proof (fetch_spec ops q s1) as F; destruct (fetch ops q s1) as [[a|e] s2]; destruct F as (_ & F2 & _) end; cbn [snd]; [|by rewrite F2].
    destruct (success a); [|by rewrite F2]. destruct (read_json ops registered_client _ _ a); by rewrite F2.
Qed.
(** A flow that ends in tokens opened one page.  When PKCE is used, as it
    always is without a configured client, the page carries the hash of the
    verifier that the last request, the exchange of the code, reveals. *)
Theorem flow_uses_pkce (c : McpServerConfig) (user random : string) (free : bool) (lines : list (Result string string)) (s s' : Net W) (t : AccessToken) :
  authorize_mcp_server ops origin_of url_encode url_decode b64url sha256 c user random free lines s = (Ok t, s') ->
  match oauth c with Some o => use_pkce o | None => true end = true ->
  let v := b64url random in
  exists url a rest token_url fields before,
    opened s' = opened s ++ [url] /\ url = a ++s "&code_challenge=" ++s b64url (sha256 v) ++s "&code_challenge_method=S256" ++s rest
    /\ sent s' = before ++ [mkHttp token_url [] (FormBody fields)] /\ ("code_verifier"%string, v) ∈ fields.
Proof.
  intros H Hp. cbn zeta. unfold authorize_mcp_server in H. destruct free; [|done]. cbn [negb] in H. pose proof (plan_quiet c redirect_uri s) as [Q1 Q2].
  destruct (plan_flow ops origin_of c redirect_uri s) as [[p|e] s1]; [|done]. cbn [snd] in Q1. rewrite Q2, Hp in H. set (pk := generate b64url sha256 random) in *.
  destruct (wait_for_authorization_callback url_decode lines) as [code|]; [|done].
  match type of H with context [open_page ?u s1] => set (url := u) in *; set (s2 := open_page url s1) in * end.
  pose proof (exchange_sends (pl_token_url p) (pl_client p) code redirect_uri (Some pk) s2) as [X1 X2].
  destruct (exchange_code_for_token ops (pl_token_url p) (pl_client p) code redirect_uri (Some pk) s2) as [[t'|e] s3]; [|done]. cbn [snd] in *.
  destruct (store_tokens ops user c t' s3) as [r4 s4] eqn:E4. apply store_tokens_spec in E4 as (B1 & B2 & _); [|done]. destruct r4; [|done].
  assert (G : sent s' = sent s3 /\ opened s' = opened s3).
  { destruct (oauth c); [by injection H as <- <-|]. destruct (store_client_id ops user c (pl_client p) s4) as [r5 s5] eqn:E5. apply store_one_spec in E5 as (C1 & C2 & _); [|done].
    destruct r5; [|done]. injection H as <- <-. by rewrite C1, C2. }
  destruct G as [G1 G2]. destruct (url_has_challenge (pl_auth_url p) (pl_client p) redirect_uri (pl_scopes p) pk (pl_extra p)) as (pre & rest & Eu).
  exists url, pre, rest, (pl_token_url p). eexists _, (sent s2). split_and!.
  - rewrite G2, X2. cbn. by rewrite Q1.
  - exact Eu.
  - rewrite G1, X1. reflexivity.
  - apply elem_of_app. right. apply list_elem_of_singleton. reflexivity.
Qed.
End Pkce.
(** The page has no state of its own to come back with: whoever can open a
    local address ends the flow with a code of its choice, or denies it. *)
Lemma any_code_is_taken decode lines : wait_for_authorization_callback decode (Ok "GET /callback?code=theirs&state=other HTTP/1.1"%string :: lines) = Ok (default "theirs"%string (decode "theirs"%string))
  /\ wait_for_authorization_callback decode (Ok "GET /callback?code=mirror=1 HTTP/1.1"%string :: lines) = Ok (default "mirror=1"%string (decode "mirror=1"%string))
  /\ wait_for_authorization_callback decode (Ok "GET /callback?code=terror=1 HTTP/1.1"%string :: lines) = Err AuthorizationDenied.
Proof. done. Qed.

(** ** A small world: secrets in a map, every request answered with tokens *)
Abbreviation Vault := (gmap (string * string) string).
Definition demo_tokens : Json := JObject [("access_token", JString "new"); ("token_type", JString "Bearer"); ("refresh_token", JString "next")]%string.
Definition demo_net : NetOps Vault := {|
  http := fun _ w => (Ok (mkHttpAnswer 200 [] [Ok "tokens"%string]), w);
  sec_get := fun u n w => ok_or (w !! (u, n)) (SecretNotFound n);
  sec_exists := fun u n w => Ok (bool_decide (is_Some (w !! (u, n))));
  sec_create := fun u p w => (Ok tt, <[(u, p_name p) := p_value p]> w);
  lossy := fun s => s; json_of := fun _ => Ok demo_tokens; refused := fun _ => "refused"%string; status_display := fun n => pretty n |}.
#[export] Instance demo_net_laws : NetLaws demo_net.
Proof.
  split; cbn.
  - intros u p w w' [= <-] _. by rewrite lookup_insert_eq.
  - intros u p w u' n H. rewrite lookup_insert_ne; [done|congruence].
  - done.
  - done.
Qed.
Definition demo_server : McpServerConfig := mkServer "notes" "https://notes.example/mcp" (Some (mkOAuth "client" (Some "https://id.example/auth"%string) (Some "https://id.example/token"%string) [] true ∅)) true None.
Definition demo_vault : Net Vault := mkWorld _ (<[("ann", "mcp_notes_refresh_token")%string := "old"%string]> ∅) [] [].
Lemma refresh_updates_tokens_witness : let s' := (refresh_access_token demo_net Ok demo_server "ann" demo_vault).2 in
  get_access_token demo_net demo_server "ann" s' = Ok (Some "new"%string) /\ sec_get demo_net "ann" "mcp_notes_refresh_token" (net s') = Ok "next"%string
  /\ forall u n, (u, n) <> ("ann", token_secret_name demo_server)%string -> (u, n) <> ("ann", refresh_token_secret_name demo_server)%string -> sec_get demo_net u n (net s') = sec_get demo_net u n (net demo_vault).
Proof. exact (refresh_updates_tokens demo_net Ok demo_server "ann" demo_vault (refresh_access_token demo_net Ok demo_server "ann" demo_vault).2 (mkToken "new" "Bearer" None (Some "next"%string) None) eq_refl). Defined.
Definition demo_lines : list (Result string string) := [Ok "GET /favicon.ico HTTP/1.1"%string; Ok "GET /callback?code=c7 HTTP/1.1"%string].
Abbreviation demo_flow := (authorize_mcp_server demo_net Ok (fun s => s) Some (fun s => s) (fun s => s) demo_server "ann" "random" true demo_lines demo_vault).
Lemma flow_uses_pkce_witness : exists url a rest token_url fields before,
  opened demo_flow.2 = [url] /\ url = a ++s "&code_challenge=random&code_challenge_method=S256" ++s rest
  /\ sent demo_flow.2 = before ++ [mkHttp token_url [] (FormBody fields)] /\ ("code_verifier", "random")%string ∈ fields.
Proof.
  exact (flow_uses_pkce demo_net Ok (fun s => s) Some (fun s => s) (fun s => s) demo_server "ann" "random" true demo_lines demo_vault demo_flow.2
    (mkToken "new" "Bearer" None (Some "next"%string) None) eq_refl eq_refl).
Defined.
