(* ===== verification/McpClient.v ===== *)
(** The client of MCP servers: [src/tools/mcp/protocol.rs],
    [src/tools/mcp/session.rs] and [src/tools/mcp/client.rs].

    Values are read from JSON as serde derives it, except that a struct written
    as an array is refused and a key that is there twice counts once.  The
    sessions are shared by all clients and handed from call to call with the
    world of [McpAuth]; the clock is an argument. *)

From Stdlib Require Import Ascii.
From S2P Require Import Prelude Strs Json Registry Extensions Secrets Tool Safety McpAuth.
#[local] Open Scope claw_scope.

(** ** The protocol *)
Definition PROTOCOL_VERSION : string := "2024-11-05".
Definition default_input_schema : Json := JObject [("type", JString "object"); ("properties", JObject [])]%string.
Inductive ExecutionTimeHint := Fast | Medium | Slow.
Record McpToolAnnotations := mkAnnotations { destructive_hint : bool; side_effects_hint : bool; read_only_hint : bool; execution_time_hint : option ExecutionTimeHint }.
Record McpTool := mkMcp { mt_name : string; mt_description : string; input_schema : Json; annotations : option McpToolAnnotations }.
Definition hint_of (v : Json) : option ExecutionTimeHint :=
  s ← as_str v; if String.eqb s "fast" then Some Fast else if String.eqb s "medium" then Some Medium else if String.eqb s "slow" then Some Slow else None.
Definition annotations_of (v : Json) : option McpToolAnnotations :=
  v ← as_object v; d ← or_default "destructive_hint" false as_bool v; s ← or_default "side_effects_hint" false as_bool v; r ← or_default "read_only_hint" false as_bool v;
  e ← maybe "execution_time_hint" hint_of v; Some (mkAnnotations d s r e).
(** Under one name or the other, and not under both. *)
Definition schema_field (v : Json) : option Json :=
  match json_get "inputSchema" v, json_get "input_schema" v with Some _, Some _ => None | Some x, None => Some x | None, Some x => Some x | None, None => Some default_input_schema end.
Definition tool_of (v : Json) : option McpTool :=
  n ← must "name" as_str v; d ← or_default "description" EmptyString as_str v; i ← schema_field v; a ← maybe "annotations" annotations_of v; Some (mkMcp n d i a).
Definition requires_approval (t : McpTool) : bool := match annotations t with Some a => destructive_hint a | None => false end.
Record McpRequest := mkMcpRequest { rq_id : Z; rq_method : string; rq_params : option Json }.
Definition request_json (q : McpRequest) : Json :=
  JObject ([("jsonrpc", JString "2.0"); ("id", JNumber (pretty (rq_id q))); ("method", JString (rq_method q))]%string ++ match rq_params q with Some p => [("params"%string, p)] | None => [] end).
Definition initialize_request (id : Z) : McpRequest :=
  mkMcpRequest id "initialize" (Some (JObject [("protocolVersion", JString PROTOCOL_VERSION);
    ("capabilities", JObject [("roots", JObject [("listChanged", JBool false)]); ("sampling", JObject [])]);
    ("clientInfo", JObject [("name", JString "ironclaw"); ("version", JString "1.0.0")])]%string)).
Definition initialized_notification : McpRequest := mkMcpRequest 0 "notifications/initialized" None.
Definition list_tools_request (id : Z) : McpRequest := mkMcpRequest id "tools/list" None.
Definition call_tool_request (id : Z) (name : string) (arguments : Json) : McpRequest :=
  mkMcpRequest id "tools/call" (Some (JObject [("name", JString name); ("arguments", arguments)]%string)).
Definition as_i32 (v : Json) : option Z :=
  n ← match v with JNumber (String c t) => if Ascii.eqb c (chr 45) then Z.opp <$> as_u64 (JNumber t) else as_u64 v | _ => None end;
  if (- 2 ^ 31 <=? n) && (n <? 2 ^ 31) then Some n else None.
Record McpError := mkMcpError { me_code : Z; me_message : string; me_data : option Json }.
Record McpResponse := mkMcpResponse { rs_id : Z; rs_result : option Json; rs_error : option McpError }.
Definition error_of (v : Json) : option McpError :=
  v ← as_object v; c ← must "code" as_i32 v; m ← must "message" as_str v; d ← maybe "data" Some v; Some (mkMcpError c m d).
Definition response_of (v : Json) : option McpResponse :=
  _ ← must "jsonrpc" as_str v; i ← must "id" as_u64 v; r ← maybe "result" Some v; e ← maybe "error" error_of v; Some (mkMcpResponse i r e).
Record ServerInfo := mkServerInfo { si_name : string; si_version : option string }.
Record ServerCapabilities := mkCapabilities { cap_tools : option bool; cap_resources : option (bool * bool); cap_prompts : option bool; cap_logging : option Json }.
Definition no_capabilities : ServerCapabilities := mkCapabilities None None None None.
Record InitializeResult := mkInitialize { protocol_version : option string; capabilities : ServerCapabilities; server_info : option ServerInfo; instructions : option string }.
Definition default_initialize : InitializeResult := mkInitialize None no_capabilities None None.
Definition changed_of (v : Json) : option bool := v ← as_object v; or_default "listChanged" false as_bool v.
Definition resources_of (v : Json) : option (bool * bool) := v ← as_object v; s ← or_default "subscribe" false as_bool v; l ← or_default "listChanged" false as_bool v; Some (s, l).
Definition capabilities_of (v : Json) : option ServerCapabilities :=
  v ← as_object v; t ← maybe "tools" changed_of v; r ← maybe "resources" resources_of v; p ← maybe "prompts" changed_of v; l ← maybe "logging" Some v; Some (mkCapabilities t r p l).
Definition server_info_of (v : Json) : option ServerInfo := v ← as_object v; n ← must "name" as_str v; x ← maybe "version" as_str v; Some (mkServerInfo n x).
Definition initialize_of (v : Json) : option InitializeResult :=
  v ← as_object v; p ← maybe "protocolVersion" as_str v; c ← or_default "capabilities" no_capabilities capabilities_of v; s ← maybe "serverInfo" server_info_of v;
  i ← maybe "instructions" as_str v; Some (mkInitialize p c s i).
Definition tool_list_of (v : Json) : option (list McpTool) := must "tools" (as_list tool_of) v.
Inductive ContentBlock := CText (text : string) | CImage (data mime_type : string) | CResource (uri : string) (mime_type text : option string).
Definition as_text (b : ContentBlock) : option string := match b with CText t => Some t | _ => None end.
Definition block_of (v : Json) : option ContentBlock :=
  ty ← must "type" as_str v;
  if String.eqb ty "text" then t ← must "text" as_str v; Some (CText t)
  else if String.eqb ty "image" then d ← must "data" as_str v; m ← must "mime_type" as_str v; Some (CImage d m)
  else if String.eqb ty "resource" then u ← must "uri" as_str v; m ← maybe "mime_type" as_str v; t ← maybe "text" as_str v; Some (CResource u m t)
  else None.
Record CallToolResult := mkCallResult { cr_content : list ContentBlock; is_error : bool }.
Definition call_result_of (v : Json) : option CallToolResult := c ← must "content" (as_list block_of) v; e ← or_default "is_error" false as_bool v; Some (mkCallResult c e).

(** ** Sessions *)
Record McpSession := mkSession { session_id : option string; last_activity : Instant; session_url : string; initialized : bool }.
Definition new_session (url : string) (now : Instant) : McpSession := mkSession None now url false.
Definition session_update_id (id : option string) (now : Instant) (s : McpSession) : McpSession :=
  mkSession (match id with Some _ => id | None => session_id s end) now (session_url s) (initialized s).
Definition session_mark (now : Instant) (s : McpSession) : McpSession := mkSession (session_id s) now (session_url s) true.
Definition session_touch (now : Instant) (s : McpSession) : McpSession := mkSession (session_id s) now (session_url s) (initialized s).
(** Whole seconds of an idle time that saturates at zero. *)
Definition is_stale (max_idle : Z) (now : Instant) (s : McpSession) : bool := max_idle <? Z.max 0 (now - last_activity s) / 1000000000.
Record McpSessionManager := mkSessions { sessions : gmap string McpSession; max_idle_secs : Z }.
Definition new_manager : McpSessionManager := mkSessions ∅ 1800.
Definition with_idle_timeout (n : Z) : McpSessionManager := mkSessions ∅ n.
Definition set_sessions (m : McpSessionManager) (s : gmap string McpSession) : McpSessionManager := mkSessions s (max_idle_secs m).
Definition get_or_create (name url : string) (now : Instant) (m : McpSessionManager) : McpSession * McpSessionManager :=
  let fresh := let s := new_session url now in (s, set_sessions m (<[name := s]> (sessions m))) in
  match sessions m !! name with
  | Some s => if is_stale (max_idle_secs m) now s then fresh else (s, m)
  | None => fresh
  end.
Definition get_session_id (name : string) (m : McpSessionManager) : option string := sessions m !! name ≫= session_id.
Definition on_session (f : McpSession -> McpSession) (name : string) (m : McpSessionManager) : McpSessionManager := set_sessions m (alter f name (sessions m)).
Definition update_session_id (name : string) (id : option string) (now : Instant) : McpSessionManager -> McpSessionManager := on_session (session_update_id id now) name.
Definition mark_initialized (name : string) (now : Instant) : McpSessionManager -> McpSessionManager := on_session (session_mark now) name.
Definition touch (name : string) (now : Instant) : McpSessionManager -> McpSessionManager := on_session (session_touch now) name.
Definition is_initialized (name : string) (m : McpSessionManager) : bool := match sessions m !! name with Some s => initialized s | None => false end.
Definition terminate (name : string) (m : McpSessionManager) : McpSessionManager := set_sessions m (delete name (sessions m)).
Definition active_servers (m : McpSessionManager) : gset string := dom (sessions m).
Definition cleanup_stale (now : Instant) (m : McpSessionManager) : Z * McpSessionManager :=
  let kept := filter (fun kv : string * McpSession => is_stale (max_idle_secs m) now kv.2 = false) (sessions m) in
  (Z.of_nat (size (sessions m)) - Z.of_nat (size kept), set_sessions m kept).

(** ** The client *)
Record McpClient := mkClient {
  mc_url : string; mc_name : string; mc_next_id : Z; tools_cache : option (list McpTool); managed : bool; with_secrets : bool; mc_user : string; mc_config : option McpServerConfig }.
(** The host of a URL. *)
Definition extract_server_name (host_str : string -> option string) (url : string) : string := replace_str "." "_" (default "unknown"%string (host_str url)).
Definition new_with_name (name url : string) : McpClient := mkClient url name 1 None false false "default" None.
Definition new_client (host_str : string -> option string) (url : string) : McpClient := new_with_name (extract_server_name host_str url) url.
Definition new_authenticated (c : McpServerConfig) (user : string) : McpClient := mkClient (server_url c) (server_name c) 1 None true true user (Some c).
Definition clone_client (c : McpClient) : McpClient := mkClient (mc_url c) (mc_name c) (mc_next_id c) None (managed c) (with_secrets c) (mc_user c) (mc_config c).
Definition set_next_id (c : McpClient) (n : Z) : McpClient := mkClient (mc_url c) (mc_name c) n (tools_cache c) (managed c) (with_secrets c) (mc_user c) (mc_config c).
Definition set_cache (c : McpClient) (ts : option (list McpTool)) : McpClient := mkClient (mc_url c) (mc_name c) (mc_next_id c) ts (managed c) (with_secrets c) (mc_user c) (mc_config c).
(** The client with what it shares with the others. *)
Record McpState {W : Type} := mkState { client : McpClient; manager : McpSessionManager; world : Net W }.
Arguments McpState W : clear implicits.
(** [HeaderValue::to_str]: visible ASCII and the tab. *)
Definition visible (s : string) : option string := if forallb (fun c => ascii_between 32 126 c || Ascii.eqb c (chr 9)) (String.list_ascii_of_string s) then Some s else None.
Definition get_header (k : string) (a : HttpAnswer) : option string := ((fun kv => kv.2) <$> List.find (fun kv => String.eqb kv.1 k) (ha_headers a)) ≫= visible.
Definition next_id_of (n : Z) : Z := wrapping_add 64 n 1.
Definition with_client {W} (s : McpState W) (c : McpClient) : McpState W := mkState W c (manager s) (world s).
Definition with_manager {W} (s : McpState W) (m : McpSessionManager) : McpState W := mkState W (client s) m (world s).
Definition with_world {W} (s : McpState W) (n : Net W) : McpState W := mkState W (client s) (manager s) n.

Section Client.
Context {W : Type} (ops : NetOps W) (origin_of : string -> Result string string) (now : Instant).
Abbreviation St := (McpState W).
Abbreviation Run A := (St -> Result A ExecError * St).
Definition and_then {A B} (m : Run A) (k : A -> Run B) : Run B := fun s => match m s with (Ok a, s) => k a s | (Err e, s) => (Err e, s) end.
Definition done_with {A} (a : A) : Run A := fun s => (Ok a, s).
Definition fail_with {A} (e : ExecError) : Run A := fun s => (Err e, s).
Definition update (f : St -> St) : Run unit := fun s => (Ok tt, f s).
Definition lift {A} (r : Result A ExecError) : Run A := fun s => (r, s).
Definition next_request_id : Run Z := fun s => (Ok (mc_next_id (client s)), with_client s (set_next_id (client s) (next_id_of (mc_next_id (client s))))).
Definition client_access_token (s : St) : Result (option string) ExecError :=
  if negb (with_secrets (client s)) then Ok None
  else match mc_config (client s) with
       | None => Ok None
       | Some c => match sec_get ops (mc_user (client s)) (token_secret_name c) (net (world s)) with
                   | Ok t => Ok (Some t)
                   | Err (SecretNotFound _) => Ok None
                   | Err e => Err (ExternalService ("Failed to get access token: " ++s secret_error_display e))
                   end
       end.
Definition auth_headers (token : option string) : list (string * string) := match token with Some t => [("authorization"%string, "Bearer " ++s t)] | None => [] end.
Definition session_headers (s : St) : list (string * string) :=
  if managed (client s) then match get_session_id (mc_name (client s)) (manager s) with Some i => [("mcp-session-id"%string, i)] | None => [] end else [].
Definition server_request (q : McpRequest) (token : option string) (s : St) : HttpRequest :=
  mkHttp (mc_url (client s)) ([("accept", "application/json, text/event-stream"); ("content-type", "application/json")]%string ++ auth_headers token ++ session_headers s) (JsonBody (request_json q)).
Definition needs_auth (s : St) : ExecError := let n := mc_name (client s) in ExternalService ("MCP server '" ++s n ++s "' requires authentication. Run: ironclaw mcp auth " ++s n).

(** *** Reading an answer *)
Definition parse_message (line : string) : option McpResponse := match json_of ops line with Ok v => response_of v | Err _ => None end.
Fixpoint find_data (ls : list string) : option McpResponse :=
  match ls with
  | [] => None
  | l :: ls => match strip_prefix l "data: " ≫= parse_message with Some r => Some r | None => find_data ls end
  end.
Fixpoint read_events (buffer : string) (chunks : list (Result string string)) : Result McpResponse ExecError :=
  match chunks with
  | [] => Err (ExternalService ("No valid data in SSE response: " ++s buffer))
  | Err e :: _ => Err (ExternalService ("Failed to read SSE chunk: " ++s e))
  | Ok c :: cs => let buffer := buffer ++s lossy ops c in match find_data (lines buffer) with Some r => Ok r | None => read_events buffer cs end
  end.
Definition read_answer (a : HttpAnswer) : Result McpResponse ExecError :=
  if negb (success a) then Err (ExternalService ("MCP server returned status: " ++s status_display ops (ha_status a) ++s " - " ++s body_text ops a))
  else if str_contains (default EmptyString (get_header "content-type" a)) "text/event-stream" then read_events EmptyString (ha_chunks a)
  else match body_json ops response_of a with Ok r => Ok r | Err e => Err (ExternalService ("Failed to parse MCP response: " ++s e)) end.
Definition keep_session (a : HttpAnswer) (s : St) : St :=
  match get_header "mcp-session-id" a with
  | Some i => if managed (client s) then with_manager s (update_session_id (mc_name (client s)) (Some i) now (manager s)) else s
  | None => s
  end.
Definition parse_response (a : HttpAnswer) : Run McpResponse := fun s => (read_answer a, keep_session a s).

(** *** Requests *)
Fixpoint send_attempts (attempts : list nat) (q : McpRequest) : Run McpResponse :=
  match attempts with
  | [] => fail_with (ExternalService "MCP request failed after retry")
  | attempt :: attempts => fun s =>
      match client_access_token s with
      | Err e => (Err e, s)
      | Ok token =>
          let '(r, n) := fetch ops (server_request q token s) (world s) in
          let s := with_world s n in
          match r with
          | Err e => (Err (ExternalService ("MCP request failed: " ++s e)), s)
          | Ok a =>
              if negb (ha_status a =? 401) then parse_response a s
              else match attempt, with_secrets (client s), mc_config (client s) with
                   | O, true, Some c =>
                       let '(r, n) := refresh_access_token ops origin_of c (mc_user (client s)) (world s) in
                       let s := with_world s n in
                       match r with Ok _ => send_attempts attempts q s | Err _ => (Err (needs_auth s), s) end
                   | _, _, _ => (Err (needs_auth s), s)
                   end
          end
      end
  end.
Definition send_request : McpRequest -> Run McpResponse := send_attempts [0%nat; 1%nat].
Definition coded (e : McpError) : string := me_message e ++s " (code " ++s pretty (me_code e) ++s ")".
Definition no_result (what : string) (r : McpResponse) : Result Json ExecError := ok_or (rs_result r) (ExternalService what).
Definition decode_result {A} (dec : Json -> option A) (what : string) (v : Json) : Result A ExecError := ok_or (dec v) (ExternalService (what ++s refused ops v)).
Definition initialize : Run InitializeResult := fun s =>
  if managed (client s) && is_initialized (mc_name (client s)) (manager s) then (Ok default_initialize, s)
  else
    let s := if managed (client s) then with_manager s (get_or_create (mc_name (client s)) (mc_url (client s)) now (manager s)).2 else s in
    and_then next_request_id (fun id => and_then (send_request (initialize_request id)) (fun r =>
      match rs_error r with
      | Some e => fail_with (ExternalService ("MCP initialization error: " ++s coded e))
      | None =>
          and_then (lift (let? v := no_result "No result in initialize response" r in decode_result initialize_of "Invalid initialize result: " v)) (fun x =>
          and_then (update (fun s => if managed (client s) then with_manager s (mark_initialized (mc_name (client s)) now (manager s)) else s)) (fun _ =>
          fun s => (Ok x, (send_request initialized_notification s).2)))
      end)) s.
Definition ensure_initialized : Run unit := fun s => if managed (client s) then and_then initialize (fun _ => done_with tt) s else (Ok tt, s).
Definition client_list_tools : Run (list McpTool) := fun s =>
  match tools_cache (client s) with
  | Some ts => (Ok ts, s)
  | None =>
      and_then ensure_initialized (fun _ => and_then next_request_id (fun id => and_then (send_request (list_tools_request id)) (fun r =>
        match rs_error r with
        | Some e => fail_with (ExternalService ("MCP error: " ++s coded e))
        | None =>
            and_then (lift (let? v := no_result "No result in MCP response" r in decode_result tool_list_of "Invalid tools list: " v)) (fun ts =>
            and_then (update (fun s => with_client s (set_cache (client s) (Some ts)))) (fun _ => done_with ts))
        end))) s
  end.
Definition call_tool (name : string) (arguments : Json) : Run CallToolResult :=
  and_then ensure_initialized (fun _ => and_then next_request_id (fun id => and_then (send_request (call_tool_request id name arguments)) (fun r =>
    match rs_error r with
    | Some e => fail_with (ExecutionFailed ("MCP tool error: " ++s coded e))
    | None => lift (let? v := no_result "No result in MCP response" r in decode_result call_result_of "Invalid tool result: " v)
    end))).
Definition clear_cache (s : St) : St := with_client s (set_cache (client s) None).
Definition test_connection : Run unit := and_then initialize (fun _ => and_then client_list_tools (fun _ => done_with tt)).

(** ** The tools of a server *)
Record McpToolWrapper := mkWrapper { wr_tool : McpTool; prefixed_name : string }.
(** The wrappers share one clone of the client. *)
Definition mcp_create_tools : Run (list McpToolWrapper * McpClient) :=
  and_then client_list_tools (fun ts => fun s => (Ok (map (fun t => mkWrapper t (mc_name (client s) ++s "_" ++s mt_name t)) ts, clone_client (client s)), s)).
#[export] Instance mcp_tool : Registry.Tool McpToolWrapper := {|
  tool_name := prefixed_name; tool_description := fun w => mt_description (wr_tool w); parameters_schema := fun w => input_schema (wr_tool w); tool_domain := fun _ => Orchestrator |}.
Definition wrapper_requires_sanitization (w : McpToolWrapper) : bool := true.
Definition wrapper_requires_approval (w : McpToolWrapper) : bool := requires_approval (wr_tool w).
Fixpoint join_blocks (l : list string) : string :=
  match l with [] => EmptyString | [x] => x | x :: l => x ++s String (chr 10) EmptyString ++s join_blocks l end.
Definition wrapper_execute (w : McpToolWrapper) (params : Json) : Run string :=
  and_then (call_tool (mt_name (wr_tool w)) params) (fun r =>
    let content := join_blocks (omap as_text (cr_content r)) in if is_error r then fail_with (ExecutionFailed content) else done_with content).
End Client.

(** ** Proofs *)
Create HintDb mcp.
Section Facts.
Context {W : Type} (ops : NetOps W) `{!NetLaws ops} (origin_of : string -> Result string string) (now : Instant).
Abbreviation St := (McpState W).
Abbreviation Run A := (St -> Result A ExecError * St).
(** The requests of a run: the access token goes to the server of the client only. *)
Definition carries_token (q : HttpRequest) : Prop := exists v, ("authorization"%string, v) ∈ hq_headers q.
Definition discreet (url : string) (qs : list HttpRequest) : Prop := Forall (fun q => carries_token q -> hq_url q = url) qs.
Record Sends (s s' : St) : Prop := {
  same_url : mc_url (client s') = mc_url (client s);
  sends_more : exists qs, sent (world s') = sent (world s) ++ qs /\ discreet (mc_url (client s)) qs }.
#[local] Instance sends_refl : Reflexive Sends.
Proof. intros s. split; [done|]. exists []. by rewrite app_nil_r; split; [|constructor]. Qed.
#[local] Instance sends_trans : Transitive Sends.
Proof.
  intros s1 s2 s3 [U1 (q1 & E1 & D1)] [U2 (q2 & E2 & D2)]. split; [congruence|]. exists (q1 ++ q2). rewrite E2, E1, <-app_assoc. split; [done|]. apply Forall_app. split; [done|]. by rewrite <-U1.
Qed.
Definition safe {A} (m : Run A) : Prop := forall s, Sends s (m s).2.
Lemma safe_and_then {A B} (m : Run A) (k : A -> Run B) : safe m -> (forall a, safe (k a)) -> safe (and_then m k).
Proof. intros Hm Hk s. unfold and_then. specialize (Hm s). destruct (m s) as [[a|e] s1]; [|done]. etransitivity; [exact Hm|apply Hk]. Qed.
Lemma safe_quiet {A} (m : Run A) : (forall s, mc_url (client (m s).2) = mc_url (client s) /\ world (m s).2 = world s) -> safe m.
Proof. intros H s. destruct (H s) as [H1 H2]. split; [done|]. exists []. rewrite H2, app_nil_r. by split; [|constructor]. Qed.
Lemma keep_session_quiet a (s : St) : mc_url (client (keep_session now a s)) = mc_url (client s) /\ world (keep_session now a s) = world s.
Proof. unfold keep_session. destruct (get_header _ a); [|done]. by destruct (managed (client s)). Qed.
Lemma sends_fetch q (s : St) : (carries_token q -> hq_url q = mc_url (client s)) -> Sends s (with_world s (fetch ops q (world s)).2).
Proof. intros H. split; [done|]. pose proof (fetch_spec ops q (world s)) as F. destruct (fetch ops q (world s)) as [r n]. destruct F as (F & _). exists [q]. cbn. split; [done|by repeat constructor]. Qed.
Lemma sends_refresh c u (s : St) : Sends s (with_world s (refresh_access_token ops origin_of c u (world s)).2).
Proof.
  split; [done|]. destruct (refresh_sends ops origin_of c u (world s)) as (asks & posts & E & A & _ & _ & P & _). exists (asks ++ posts). cbn. split; [done|]. apply Forall_app. split.
  - eapply Forall_impl; [exact A|]. intros q [_ H] [v Hv]. rewrite H in Hv. by apply elem_of_nil in Hv.
  - apply Forall_forall. intros q Hq [v Hv]. destruct (P q Hq) as (_ & _ & _ & _ & H). rewrite H in Hv. by apply elem_of_nil in Hv.
Qed.
Lemma safe_attempts attempts q : safe (send_attempts ops origin_of now attempts q).
Proof.
  induction attempts as [|n l IH]; intros s; [reflexivity|]. cbn [send_attempts]. destruct (client_access_token ops s) as [token|e]; [|reflexivity].
  pose proof (sends_fetch (server_request q token s) s (fun _ => eq_refl)) as F. destruct (fetch ops (server_request q token s) (world s)) as [[a|e] n1]; cbn [snd] in F; [|exact F].
  destruct (negb (ha_status a =? 401)).
  { etransitivity; [exact F|]. unfold parse_response. destruct (keep_session_quiet a (with_world s n1)) as [K1 K2]. split; [done|]. exists []. cbn [snd]. rewrite K2, app_nil_r. by split; [|constructor]. }
  destruct n; [|exact F]. destruct (with_secrets (client (with_world s n1))); [|exact F]. destruct (mc_config (client (with_world s n1))) as [c|]; [|exact F].
  pose proof (sends_refresh c (mc_user (client (with_world s n1))) (with_world s n1)) as R. destruct (refresh_access_token ops origin_of c _ (world (with_world s n1))) as [[t|e] n2]; cbn [snd] in R; (etransitivity; [exact F|]); [|exact R].
  etransitivity; [exact R|]. apply IH.
Qed.
Lemma safe_next_id : safe next_request_id.
Proof. by apply safe_quiet. Qed.
Lemma safe_lift {A} (r : Result A ExecError) : safe (lift r).
Proof. by apply safe_quiet. Qed.
Lemma safe_fail {A} (e : ExecError) : safe (fail_with (A:=A) e).
Proof. by apply safe_quiet. Qed.
Lemma safe_done {A} (a : A) : safe (done_with a).
Proof. by apply safe_quiet. Qed.
#[local] Hint Resolve safe_and_then safe_attempts safe_next_id safe_lift safe_fail safe_done : mcp.
Lemma safe_initialize : safe (initialize ops origin_of now).
Proof.
  intros s. unfold initialize. destruct (managed (client s) && _); [reflexivity|]. set (s1 := if managed (client s) then _ else s).
  assert (S1 : Sends s s1) by (subst s1; destruct (managed (client s)); [split; [done|]; exists []; by rewrite app_nil_r; split; [|constructor]|reflexivity]).
  etransitivity; [exact S1|]. revert s1 S1. cut (forall s1 : St, Sends s1 ((and_then next_request_id (fun id => and_then (send_request ops origin_of now (initialize_request id)) (fun r =>
      match rs_error r with
      | Some e => fail_with (ExternalService ("MCP initialization error: " ++s coded e))
      | None =>
          and_then (lift (let? v := no_result "No result in initialize response" r in decode_result ops initialize_of "Invalid initialize result: " v)) (fun x =>
          and_then (update (fun s => if managed (client s) then with_manager s (mark_initialized (mc_name (client s)) now (manager s)) else s)) (fun _ =>
          fun s => (Ok x, (send_request ops origin_of now initialized_notification s).2)))
      end))) s1).2); [by intros H s1 _; apply H|].
  apply safe_and_then; [auto with mcp|intros id]. apply safe_and_then; [apply safe_attempts|intros r]. destruct (rs_error r); [auto with mcp|]. apply safe_and_then; [auto with mcp|intros x].
  apply safe_and_then; [apply safe_quiet; intros s1; unfold update; cbn; by destruct (managed (client s1))|intros _ s1]. apply (safe_attempts [0%nat; 1%nat] initialized_notification s1).
Qed.
Lemma safe_ensure : safe (ensure_initialized ops origin_of now).
Proof. intros s. unfold ensure_initialized. destruct (managed (client s)); [|reflexivity]. apply safe_and_then; [apply safe_initialize|auto with mcp]. Qed.
(** A request is sent twice at most, and between the two the tokens are
    refreshed once: five requests in all.  Both carry the same message. *)
Lemma attempts_bounded q l : forall s, exists qs, sent (world (send_attempts ops origin_of now l q s).2) = sent (world s) ++ qs
  /\ (length qs <= length l + 3 * length (List.filter (Nat.eqb 0) l))%nat /\ (length (List.filter (fun r => match hq_body r with JsonBody _ => true | _ => false end) qs) <= length l)%nat
  /\ Forall (fun r => match hq_body r with JsonBody v => v = request_json q | _ => True end) qs.
Proof.
  induction l as [|n l IH]; intros s; [exists []; cbn; rewrite app_nil_r; split_and!; [done|lia|lia|constructor]|]. cbn [send_attempts].
  assert (N : forall s' : St, sent (world s') = sent (world s) ->
    exists qs, sent (world s') = sent (world s) ++ qs /\ (length qs <= length (n :: l) + 3 * length (List.filter (Nat.eqb 0) (n :: l)))%nat
      /\ (length (List.filter (fun r => match hq_body r with JsonBody _ => true | _ => false end) qs) <= length (n :: l))%nat /\ Forall (fun r => match hq_body r with JsonBody v => v = request_json q | _ => True end) qs).
  { intros s' E. exists []. rewrite app_nil_r. split_and!; [done|cbn; lia|cbn; lia|constructor]. }
  destruct (client_access_token ops s) as [token|e]; [|by apply N]. clear N. set (rq := server_request q token s). pose proof (fetch_spec ops rq (world s)) as F. destruct (fetch ops rq (world s)) as [r n1]. destruct F as (F & _).
  assert (O : forall s' : St, sent (world s') = sent n1 ->
    exists qs, sent (world s') = sent (world s) ++ qs /\ (length qs <= length (n :: l) + 3 * length (List.filter (Nat.eqb 0) (n :: l)))%nat
      /\ (length (List.filter (fun r => match hq_body r with JsonBody _ => true | _ => false end) qs) <= length (n :: l))%nat /\ Forall (fun r => match hq_body r with JsonBody v => v = request_json q | _ => True end) qs).
  { intros s' E. exists [rq]. rewrite E, F. split_and!; [done|cbn; lia|cbn; lia|by repeat constructor]. }
  destruct r as [a|e]; [|by apply O]. destruct (negb (ha_status a =? 401)); [unfold parse_response; cbn [snd]; apply O; by rewrite (proj2 (keep_session_quiet a (with_world s n1)))|].
  destruct n; [|by apply O]. destruct (with_secrets (client (with_world s n1))); [|by apply O]. destruct (mc_config (client (with_world s n1))) as [c|]; [|by apply O]. clear O.
  pose proof (refresh_sends ops origin_of c (mc_user (client (with_world s n1))) (world (with_world s n1))) as (asks & posts & E & A & La & Lp & P & _).
  assert (B : List.filter (fun r => match hq_body r with JsonBody _ => true | _ => false end) (asks ++ posts) = [] /\ Forall (fun r => match hq_body r with JsonBody v => v = request_json q | _ => True end) (asks ++ posts)).
  { assert (H : forall r, r ∈ asks ++ posts -> match hq_body r with JsonBody _ => False | _ => True end).
    { intros r [Hr|Hr]%elem_of_app; [rewrite Forall_forall in A; by destruct (A r Hr) as [-> _]|]. by destruct (P r Hr) as (? & ? & _ & -> & _). }
    split; [|apply Forall_forall; intros r Hr; specialize (H r Hr); by destruct (hq_body r)]. clear - H. induction (asks ++ posts) as [|r rs IH]; [done|]. cbn. pose proof (H r ltac:(by left)) as Hr. destruct (hq_body r); [|done|]; apply IH; intros r' ?; apply H; by right. }
  assert (Ef : length (List.filter (Nat.eqb 0) (0%nat :: l)) = S (length (List.filter (Nat.eqb 0) l))) by done.
  destruct B as [B1 B2]. destruct (refresh_access_token ops origin_of c _ (world (with_world s n1))) as [[t|e] n2]; cbn [snd] in E.
  - destruct (IH (with_world (with_world s n1) n2)) as (qs & E2 & L1 & L2 & D). exists (rq :: (asks ++ posts) ++ qs). cbn [world with_world] in *. rewrite E2, E, F, <-!app_assoc. split; [done|]. split_and!.
    + rewrite Ef. cbn [length]. rewrite !length_app. lia.
    + cbn [List.filter hq_body rq server_request]. rewrite (app_assoc asks posts qs), List.filter_app, B1. cbn [app length]. lia.
    + constructor; [done|]. rewrite (app_assoc asks posts qs). by apply Forall_app.
  - exists (rq :: asks ++ posts). cbn [snd world with_world] in *. rewrite E, F, <-!app_assoc. split; [done|]. split_and!.
    + rewrite Ef. cbn [length]. rewrite !length_app. lia.
    + cbn [List.filter hq_body rq server_request]. rewrite B1. cbn [length]. lia.
    + by constructor.
Qed.
Theorem request_bounded (q : McpRequest) (s : St) : exists qs, sent (world (send_request ops origin_of now q s).2) = sent (world s) ++ qs /\ (length qs <= 5)%nat
  /\ (length (List.filter (fun r => match hq_body r with JsonBody _ => true | _ => false end) qs) <= 2)%nat /\ Forall (fun r => match hq_body r with JsonBody v => v = request_json q | _ => True end) qs.
Proof. exact (attempts_bounded q [0%nat; 1%nat] s). Qed.
(** After a refusal with 401 and a refresh that succeeds the request is sent
    again with the new token; a second refusal ends it. *)
Theorem retried_with_new_token (q : McpRequest) (s : St) (c : McpServerConfig) (token : option string) (a : HttpAnswer) (n n2 : Net W) (t : AccessToken) :
  with_secrets (client s) = true -> mc_config (client s) = Some c -> client_access_token ops s = Ok token ->
  fetch ops (server_request q token s) (world s) = (Ok a, n) -> ha_status a = 401 -> refresh_access_token ops origin_of c (mc_user (client s)) n = (Ok t, n2) ->
  let s2 := with_world s n2 in
  let again := server_request q (Some (access_token t)) s2 in
  send_request ops origin_of now q s = match fetch ops again n2 with
    | (Ok a2, n3) => if ha_status a2 =? 401 then (Err (needs_auth s), with_world s n3) else parse_response ops now a2 (with_world s n3)
    | (Err e, n3) => (Err (ExternalService ("MCP request failed: " ++s e)), with_world s n3)
    end.
Proof.
  intros Hs Hc Ht Hf Ha Hr. cbn zeta. unfold send_request. cbn [send_attempts]. rewrite Ht, Hf, Ha. cbn [negb Z.eqb Pos.eqb].
  change (client (with_world s n)) with (client s). change (world (with_world s n)) with n. rewrite Hs, Hc, Hr. change (with_world (with_world s n) n2) with (with_world s n2).
  destruct (refresh_updates_tokens ops origin_of c (mc_user (client s)) n n2 t Hr) as (G & _).
  assert (E : client_access_token ops (with_world s n2) = Ok (Some (access_token t))).
  { unfold client_access_token. change (client (with_world s n2)) with (client s). rewrite Hs, Hc. cbn [negb]. unfold get_access_token in G. change (net (world (with_world s n2))) with (net n2). destruct (sec_get ops _ _ (net n2)) as [x|e]; [by injection G as ->|]. by destruct e. }
  rewrite E. change (world (with_world s n2)) with n2. destruct (fetch ops _ n2) as [[a2|e] n3]; [|done]. by destruct (ha_status a2 =? 401).
Qed.
(** A session that was initialised is never renewed: however long ago it was
    used, and with an id that the server has forgotten, it is taken as it is. *)
Theorem stale_session_kept (s : St) (x : McpSession) : managed (client s) = true -> sessions (manager s) !! mc_name (client s) = Some x -> initialized x = true ->
  initialize ops origin_of now s = (Ok default_initialize, s) /\ ensure_initialized ops origin_of now s = (Ok tt, s) /\ forall q token, session_id x = Some q -> ("mcp-session-id"%string, q) ∈ hq_headers (server_request (list_tools_request 1) token s).
Proof.
  intros Hm Hx Hi. assert (E : initialize ops origin_of now s = (Ok default_initialize, s)) by (unfold initialize, is_initialized; by rewrite Hm, Hx, Hi).
  split_and!; [done|unfold ensure_initialized, and_then; by rewrite Hm, E|]. intros q token Hq. unfold server_request. cbn [hq_headers]. apply elem_of_app. right. apply elem_of_app. right. unfold session_headers, get_session_id. rewrite Hm, Hx. cbn. rewrite Hq. by left.
Qed.
(** The list of tools is asked for once. *)
Theorem tools_asked_once (s s' : St) (ts : list McpTool) : client_list_tools ops origin_of now s = (Ok ts, s') ->
  client_list_tools ops origin_of now s' = (Ok ts, s') /\ tools_cache (client (clear_cache s')) = None /\ tools_cache (clone_client (client s')) = None.
Proof.
  intros H. split; [|done]. assert (E : tools_cache (client s') = Some ts); [|unfold client_list_tools; by rewrite E].
  unfold client_list_tools in H. destruct (tools_cache (client s)) as [ts'|] eqn:Et; [by injection H as -> ->|]. unfold and_then in H. destruct (ensure_initialized ops origin_of now s) as [[[]|e] s1]; [|done].
  unfold next_request_id in H. destruct (send_request ops origin_of now _ _) as [[r|e] s2]; [|done]. destruct (rs_error r); [done|]. unfold lift, update, done_with in H. destruct (let? v := _ in _) as [ts'|e]; [|done]. by injection H as -> <-.
Qed.
(** The id of an answer is not compared with the id of the request. *)
Theorem answer_id_unchecked (q : McpRequest) (s : St) (a : HttpAnswer) (n : Net W) (r : McpResponse) : with_secrets (client s) = false ->
  fetch ops (server_request q None s) (world s) = (Ok a, n) -> ha_status a = 200 -> read_answer ops a = Ok r -> (send_request ops origin_of now q s).1 = Ok r.
Proof.
  intros Hs Hf Ha Hr. unfold send_request. cbn [send_attempts]. unfold client_access_token. rewrite Hs. cbn [negb]. rewrite Hf, Ha. exact Hr.
Qed.
End Facts.
(** Hints and errors are read under the names that Rust gives them; the names of
    the protocol are [destructiveHint] and [isError], which are passed over: a
    tool that calls itself destructive needs no approval, and a result that is
    an error is a success. *)
Theorem protocol_names_passed_over (fields : list (string * Json)) (content : list ContentBlock) :
  assoc_get "destructive_hint" fields = None -> assoc_get "is_error" fields = None ->
  (forall v t, json_get "annotations" v = Some (JObject fields) -> tool_of v = Some t -> requires_approval t = false)
  /\ (must "content" (as_list block_of) (JObject fields) = Some content -> call_result_of (JObject fields) = Some (mkCallResult content false)).
Proof.
  intros Hd He. split.
  - intros v t Ha. unfold tool_of. destruct (must "name" as_str v); [|done]. cbn [mbind option_bind]. destruct (or_default "description" _ as_str v); [|done]. cbn [mbind option_bind]. destruct (schema_field v); [|done]. cbn [mbind option_bind].
    unfold maybe at 1. rewrite Ha. unfold annotations_of. cbn [as_object mbind option_bind].
    assert (E : or_default "destructive_hint" false as_bool (JObject fields) = Some false) by (unfold or_default; cbn [json_get]; by rewrite Hd). rewrite E. cbn [mbind option_bind].
    destruct (or_default "side_effects_hint" _ _ _); [|done]. cbn [mbind option_bind]. destruct (or_default "read_only_hint" _ _ _); [|done]. cbn [mbind option_bind]. destruct (maybe "execution_time_hint" _ _); [|done]. by intros [= <-].
  - intros Hc. unfold call_result_of. rewrite Hc. cbn [mbind option_bind]. unfold or_default. cbn [json_get]. by rewrite He.
Qed.
(** A session that is asked for is there and fresh; one that is still fresh is
    the one that was there, and the others stay. *)
Theorem get_or_create_spec (name url : string) (now : Instant) (m : McpSessionManager) : 0 <= max_idle_secs m ->
  let '(x, m') := get_or_create name url now m in
  sessions m' !! name = Some x /\ is_stale (max_idle_secs m) now x = false /\ (forall n, n <> name -> sessions m' !! n = sessions m !! n)
  /\ (forall y, sessions m !! name = Some y -> is_stale (max_idle_secs m) now y = false -> x = y /\ m' = m).
Proof.
  intros Hm. assert (F : is_stale (max_idle_secs m) now (new_session url now) = false) by (unfold is_stale; cbn [last_activity new_session]; rewrite Z.sub_diag; apply Z.ltb_ge; exact Hm).
  unfold get_or_create. destruct (sessions m !! name) as [y|] eqn:E; [destruct (is_stale (max_idle_secs m) now y) eqn:Es|]; cbn [sessions set_sessions].
  - rewrite lookup_insert_eq. split_and!; [done|done|intros n Hn; by rewrite lookup_insert_ne|]. intros y' [= <-] H. congruence.
  - split_and!; [done|done|done|]. by intros y' [= <-].
  - rewrite lookup_insert_eq. split_and!; [done|done|intros n Hn; by rewrite lookup_insert_ne|done].
Qed.
Theorem cleanup_stale_spec (now : Instant) (m : McpSessionManager) : let '(k, m') := cleanup_stale now m in
  (forall n x, sessions m' !! n = Some x <-> sessions m !! n = Some x /\ is_stale (max_idle_secs m) now x = false)
  /\ k = Z.of_nat (size (sessions m)) - Z.of_nat (size (sessions m')) /\ 0 <= k.
Proof.
  unfold cleanup_stale. cbn [sessions set_sessions]. split_and!; [|done|].
  - intros n x. by rewrite map_lookup_filter_Some.
  - pose proof (map_subseteq_size _ _ (map_filter_subseteq (fun kv : string * McpSession => is_stale (max_idle_secs m) now kv.2 = false) (sessions m))). lia.
Qed.

(** ** Witnesses *)
Definition demo_state (c : McpClient) : McpState Vault := mkState Vault c new_manager (mkWorld Vault (<[("ann", "mcp_notes_access_token")%string := "tok"%string]> (net demo_vault)) [] []).
Definition denied_net : NetOps Vault := {|
  http := fun q w => (Ok (mkHttpAnswer (match hq_body q with JsonBody _ => 401 | _ => 200 end) [] [Ok "tokens"%string]), w);
  sec_get := sec_get demo_net; sec_exists := sec_exists demo_net; sec_create := sec_create demo_net; lossy := lossy demo_net; json_of := json_of demo_net; refused := refused demo_net; status_display := status_display demo_net |}.
#[export] Instance denied_net_laws : NetLaws denied_net.
Proof. split; cbn; [exact created_reads_back|exact create_keeps_others|done|done]. Qed.
Definition demo_start : McpState Vault := demo_state (new_authenticated demo_server "ann").
Definition demo_first : Net Vault := (fetch denied_net (server_request (list_tools_request 1) (Some "tok"%string) demo_start) (world demo_start)).2.
Lemma retried_with_new_token_witness :
  let s2 := with_world demo_start (refresh_access_token denied_net Ok demo_server "ann" demo_first).2 in
  let again := server_request (list_tools_request 1) (Some "new"%string) s2 in
  send_request denied_net Ok 0 (list_tools_request 1) demo_start = match fetch denied_net again (world s2) with
    | (Ok a2, n3) => if ha_status a2 =? 401 then (Err (needs_auth demo_start), with_world demo_start n3) else parse_response denied_net 0 a2 (with_world demo_start n3)
    | (Err e, n3) => (Err (ExternalService ("MCP request failed: " ++s e)), with_world demo_start n3)
    end.
Proof.
  exact (retried_with_new_token denied_net Ok 0 (list_tools_request 1) demo_start demo_server (Some "tok"%string) (mkHttpAnswer 401 [] [Ok "tokens"%string]) demo_first
    (refresh_access_token denied_net Ok demo_server "ann" demo_first).2 (mkToken "new" "Bearer" None (Some "next"%string) None) eq_refl eq_refl eq_refl eq_refl eq_refl eq_refl).
Defined.
Definition old_session : McpSession := mkSession (Some "s1"%string) 0 "https://notes.example/mcp" true.
Definition demo_idle : McpState Vault := with_manager demo_start (mkSessions {[ "notes"%string := old_session ]} 1800).
Lemma stale_session_kept_witness : initialize denied_net Ok (from_secs 86400) demo_idle = (Ok default_initialize, demo_idle) /\ ensure_initialized denied_net Ok (from_secs 86400) demo_idle = (Ok tt, demo_idle)
  /\ forall q token, session_id old_session = Some q -> ("mcp-session-id"%string, q) ∈ hq_headers (server_request (list_tools_request 1) token demo_idle).
Proof. exact (stale_session_kept denied_net Ok (from_secs 86400) demo_idle old_session eq_refl eq_refl eq_refl). Defined.
Lemma protocol_names_passed_over_witness : let fields := [("destructiveHint", JBool true); ("isError", JBool true); ("content", JArray [])]%string in
  (forall v t, json_get "annotations" v = Some (JObject fields) -> tool_of v = Some t -> requires_approval t = false)
  /\ (must "content" (as_list block_of) (JObject fields) = Some [] -> call_result_of (JObject fields) = Some (mkCallResult [] false)).
Proof. exact (protocol_names_passed_over [("destructiveHint", JBool true); ("isError", JBool true); ("content", JArray [])]%string [] eq_refl eq_refl). Defined.
Lemma get_or_create_spec_witness : let '(x, m') := get_or_create "notes" "https://notes.example/mcp" 5 (mkSessions {[ "notes"%string := old_session ]} 1800) in
  sessions m' !! "notes"%string = Some x /\ is_stale 1800 5 x = false /\ (forall n, n <> "notes"%string -> sessions m' !! n = ({[ "notes"%string := old_session ]} : gmap string McpSession) !! n)
  /\ (forall y, ({[ "notes"%string := old_session ]} : gmap string McpSession) !! "notes"%string = Some y -> is_stale 1800 5 y = false -> x = y /\ m' = mkSessions {[ "notes"%string := old_session ]} 1800).
Proof. exact (get_or_create_spec "notes" "https://notes.example/mcp" 5 (mkSessions {[ "notes"%string := old_session ]} 1800) ltac:(discriminate)). Defined.
Lemma request_bounded_witness : exists qs, sent (world (send_request denied_net Ok 0 (list_tools_request 1) demo_start).2) = [] ++ qs /\ (length qs <= 5)%nat
  /\ (length (List.filter (fun r => match hq_body r with JsonBody _ => true | _ => false end) qs) <= 2)%nat
  /\ Forall (fun r => match hq_body r with JsonBody v => v = request_json (list_tools_request 1) | _ => True end) qs.
Proof. exact (request_bounded denied_net Ok 0 (list_tools_request 1) demo_start). Defined.
(** The demo sends the request twice and refreshes in between. *)
Example demo_retry : length (sent (world (send_request denied_net Ok 0 (list_tools_request 1) demo_start).2)) = 3%nat.
Proof. reflexivity. Qed.
