(* ===== verification/ContainerWorker.v ===== *)
(** The worker inside a container: [src/worker/api.rs] (the client of the
    orchestrator's API), [src/worker/proxy_llm.rs] and
    [src/worker/runtime.rs].

    The connection to the orchestrator is an argument; every request that was
    sent is logged.  The provider of the worker's model sends its calls through
    the same connection.  The runtime is written in a monad as the worker of a
    job is: a step returns, fails, or is cut off by the timeout around the loop,
    which is tested when a tool or a call has suspended. *)

From Stdlib Require Import Ascii.
From S2P Require Import Worker Routines.
From S2P Require Import Prelude Strs Json CostGuard Dispatcher Reasoning Safety Tool Files OrchestratorApi Llm.
#[local] Open Scope claw_scope.

Inductive WorkerError :=
| ConnectionFailed (url reason : string) | LlmProxyFailed (reason : string) | SecretResolveFailed (secret reason : string)
| OrchestratorRejected (job reason : string) | WorkerExecutionFailed (reason : string) | MissingToken.
Definition worker_error_display (e : WorkerError) : string :=
  match e with
  | ConnectionFailed u r => "Failed to connect to orchestrator at " ++s u ++s ": " ++s r
  | LlmProxyFailed r => "LLM proxy request failed: " ++s r
  | SecretResolveFailed n r => "Secret resolution failed for " ++s n ++s ": " ++s r
  | OrchestratorRejected j r => "Orchestrator returned error for job " ++s j ++s ": " ++s r
  | WorkerExecutionFailed r => "Worker execution failed: " ++s r
  | MissingToken => "Missing worker token (IRONCLAW_WORKER_TOKEN not set)"
  end.

(** ** Bodies, as serde writes them *)
Definition role_json (r : Role) : Json := JString (match r with System => "system" | User => "user" | Assistant => "assistant" | Llm.Tool => "tool" end).
Definition message_json (m : ChatMessage Json) : Json :=
  JObject ([("role", role_json (role m)); ("content", JString (content m))]%string
    ++ match tool_call_id m with Some i => [("tool_call_id"%string, JString i)] | None => [] end
    ++ match msg_name m with Some n => [("name"%string, JString n)] | None => [] end
    ++ match tool_calls m with Some cs => [("tool_calls"%string, JArray (map tool_call_json cs))] | None => [] end).
Definition tool_definition_json (d : ToolDefinition Json) : Json :=
  JObject [("name", JString (td_name d)); ("description", JString (td_description d)); ("parameters", td_parameters d)]%string.
Definition or_null {A} (f : A -> Json) (o : option A) : Json := match o with Some x => f x | None => JNull end.
Section Bodies.
Context (f32_text : Z -> string).
Definition completion_body (r : CompletionRequest Json) : Json :=
  JObject [("messages", JArray (map message_json (req_messages r))); ("max_tokens", or_null jint (req_max_tokens r)); ("temperature", or_null (fun t => JNumber (f32_text t)) (req_temperature r));
           ("stop_sequences", or_null (fun l => JArray (map JString l)) (req_stop_sequences r))]%string.
Definition tool_completion_body (r : ToolCompletionRequest Json) : Json :=
  JObject [("messages", JArray (map message_json (treq_messages r))); ("tools", JArray (map tool_definition_json (treq_tools r))); ("max_tokens", or_null jint (treq_max_tokens r));
           ("temperature", or_null (fun t => JNumber (f32_text t)) (treq_temperature r)); ("tool_choice", or_null JString (treq_tool_choice r))]%string.
End Bodies.
Definition status_body (u : StatusUpdate) : Json := JObject [("state", JString (su_state u)); ("message", or_null JString (su_message u)); ("iteration", jint (su_iteration u))]%string.
Definition report_body (r : CompletionReport) : Json := JObject [("success", JBool (rp_success r)); ("message", or_null JString (rp_message r)); ("iterations", jint (rp_iterations r))]%string.
Definition event_body (p : JobEventPayload) : Json := JObject [("event_type", JString (event_type p)); ("data", data p)]%string.

(** ** Answers, as serde reads them *)
Definition opt_str (k : string) (v : Json) : option (option string) :=
  match json_get k v with None | Some JNull => Some None | Some (JString s) => Some (Some s) | Some _ => None end.
Definition as_u32 (v : Json) : option Z := n ← as_u64 v; if n <? 2 ^ 32 then Some n else None.
Definition get_u32 (k : string) (v : Json) : option Z := json_get k v ≫= as_u32.
Definition list_of {A} (f : Json -> option A) (k : string) (v : Json) : option (list A) := match json_get k v with Some (JArray l) => mapM f l | _ => None end.
Record JobDescription := mkJobDescription { jd_title : string; jd_description : string; jd_project_dir : option string }.
Definition job_of (v : Json) : option JobDescription := t ← get_str "title" v; d ← get_str "description" v; p ← opt_str "project_dir" v; Some (mkJobDescription t d p).
Definition parse_finish_reason (s : string) : FinishReason :=
  if String.eqb s "stop" then Stop else if String.eqb s "length" then Length else if String.eqb s "tool_use" || String.eqb s "tool_calls" then ToolUse
  else if String.eqb s "content_filter" then ContentFilter else UnknownReason.
Definition completion_of (v : Json) : option CompletionResponse :=
  c ← get_str "content" v; i ← get_u32 "input_tokens" v; o ← get_u32 "output_tokens" v; f ← get_str "finish_reason" v; Some (mkResponse c i o (parse_finish_reason f) None).
Definition call_of (v : Json) : option (ToolCall Json) := i ← get_str "id" v; n ← get_str "name" v; a ← json_get "arguments" v; Some (mkToolCall Json i n a).
Definition tool_completion_of (v : Json) : option (ToolCompletionResponse Json) :=
  c ← opt_str "content" v; cs ← list_of call_of "tool_calls" v; i ← get_u32 "input_tokens" v; o ← get_u32 "output_tokens" v; f ← get_str "finish_reason" v;
  Some (mkToolResponse Json c cs i o (parse_finish_reason f) None).
Definition prompt_of (v : Json) : option PendingPrompt :=
  c ← get_str "content" v; d ← match json_get "done" v with None => Some false | Some x => Tool.as_bool x end; Some (mkPrompt c d).
Definition credential_of (v : Json) : option (string * string) := e ← get_str "env_var" v; x ← get_str "value" v; Some (e, x).
Definition credentials_of (v : Json) : option (list (string * string)) := match v with JArray l => mapM credential_of l | _ => None end.

(** ** The client *)
Record WorkerRequest := mkWRequest { wq_method : Method; wq_url : string; wq_bearer : string; wq_body : option Json }.
Record WorkerClient := mkWClient { orchestrator_url : string; wc_job : string; wc_token : string }.
Record Wire {W : Type} := mkWire {
  wire_send : WorkerRequest -> W -> Result (Z * string) string * W;
  wire_json : string -> Result Json string;
  wire_refused : Json -> string;
  wire_status : Z -> string;
  wire_lossy : string -> string;
}.
Arguments Wire W : clear implicits.
Record CState {W : Type} := mkCState { cs_world : W; cs_log : list WorkerRequest }.
Arguments CState W : clear implicits.
Definition PREFIX_END : ascii := chr 47.
Fixpoint trim_end_slashes (s : string) : string :=
  match s with
  | EmptyString => EmptyString
  | String c r => match trim_end_slashes r with EmptyString => if Ascii.eqb c PREFIX_END then EmptyString else String c EmptyString | r' => String c r' end
  end.
Definition new_wclient (url job token : string) : WorkerClient := mkWClient (trim_end_slashes url) job token.
Definition from_env (env_token : option string) (url job : string) : Result WorkerClient WorkerError :=
  match env_token with Some t => Ok (new_wclient url job t) | None => Err MissingToken end.

Section Client.
Context {W : Type} (wire : Wire W) (f32_text : Z -> string) (c : WorkerClient).
Definition worker_url (path : string) : string := orchestrator_url c ++s "/worker/" ++s wc_job c ++s "/" ++s path.
Definition wsend (m : Method) (path : string) (body : option Json) (s : CState W) : Result (Z * string) string * CState W :=
  let q := mkWRequest m (worker_url path) (wc_token c) body in
  let '(r, w) := wire_send wire q (cs_world s) in (r, mkCState W w (cs_log s ++ [q])).
Definition wsuccess (status : Z) : bool := (200 <=? status) && (status <? 300).
Definition decode_body {A} (dec : Json -> option A) (b : string) : Result A string :=
  match wire_json wire b with Err e => Err e | Ok v => match dec v with Some x => Ok x | None => Err (wire_refused wire v) end end.
Definition connection_failed (e : string) : WorkerError := ConnectionFailed (orchestrator_url c) e.
Definition get_json {A} (dec : Json -> option A) (path context : string) (s : CState W) : Result A WorkerError * CState W :=
  let '(r, s) := wsend GET path None s in
  (match r with
   | Err e => Err (connection_failed e)
   | Ok (st, b) =>
       if negb (wsuccess st) then Err (OrchestratorRejected (wc_job c) (context ++s " returned " ++s wire_status wire st))
       else match decode_body dec b with Ok x => Ok x | Err e => Err (LlmProxyFailed (context ++s ": failed to parse response: " ++s e)) end
   end, s).
Definition post_json {A} (dec : Json -> option A) (path : string) (body : Json) (context : string) (s : CState W) : Result A WorkerError * CState W :=
  let '(r, s) := wsend POST path (Some body) s in
  (match r with
   | Err e => Err (LlmProxyFailed (context ++s ": " ++s e))
   | Ok (st, b) =>
       if negb (wsuccess st) then Err (LlmProxyFailed (context ++s ": orchestrator returned " ++s wire_status wire st ++s ": " ++s wire_lossy wire b))
       else match decode_body dec b with Ok x => Ok x | Err e => Err (LlmProxyFailed (context ++s ": failed to parse response: " ++s e)) end
   end, s).
Definition fetch_job : CState W -> Result JobDescription WorkerError * CState W := get_json job_of "job" "GET /job".
Definition proxy_complete (r : CompletionRequest Json) : CState W -> Result CompletionResponse WorkerError * CState W :=
  post_json completion_of "llm/complete" (completion_body f32_text r) "LLM complete".
Definition proxy_complete_with_tools (r : ToolCompletionRequest Json) : CState W -> Result (ToolCompletionResponse Json) WorkerError * CState W :=
  post_json tool_completion_of "llm/complete_with_tools" (tool_completion_body f32_text r) "LLM tool complete".
(** A refusal is only noted. *)
Definition send_status (u : StatusUpdate) (s : CState W) : Result unit WorkerError * CState W :=
  let '(r, s) := wsend POST "status" (Some (status_body u)) s in (match r with Ok _ => Ok tt | Err e => Err (connection_failed e) end, s).
Definition post_event (p : JobEventPayload) (s : CState W) : CState W := (wsend POST "event" (Some (event_body p)) s).2.
Definition poll_prompt (s : CState W) : Result (option PendingPrompt) WorkerError * CState W :=
  let '(r, s) := wsend GET "prompt" None s in
  (match r with
   | Err e => Err (connection_failed e)
   | Ok (st, b) =>
       if st =? 204 then Ok None
       else if negb (wsuccess st) then Err (OrchestratorRejected (wc_job c) ("prompt endpoint returned " ++s wire_status wire st))
       else match decode_body prompt_of b with Ok x => Ok (Some x) | Err e => Err (LlmProxyFailed ("failed to parse prompt response: " ++s e)) end
   end, s).
Definition fetch_credentials (s : CState W) : Result (list (string * string)) WorkerError * CState W :=
  let '(r, s) := wsend GET "credentials" None s in
  (match r with
   | Err e => Err (connection_failed e)
   | Ok (st, b) =>
       if (st =? 204) || (st =? 404) then Ok []
       else if negb (wsuccess st) then Err (SecretResolveFailed "(all)" ("credentials endpoint returned " ++s wire_status wire st))
       else match decode_body credentials_of b with Ok x => Ok x | Err e => Err (SecretResolveFailed "(all)" ("failed to parse credentials response: " ++s e)) end
   end, s).
Definition send_complete (r : CompletionReport) (s : CState W) : Result unit WorkerError * CState W :=
  let '(x, s) := post_json Some "complete" (report_body r) "report complete" s in (match x with Ok _ => Ok tt | Err e => Err e end, s).

(** The proxied provider; its calls end at the time the world shows. *)
Context (clock : W -> Instant).
Definition through_proxy {A} (call : CState W -> Result A WorkerError * CState W) (s : CState W) : Outcome A (CState W) :=
  let '(r, s) := call s in (match r with Ok x => Ok x | Err e => Err (RequestFailed "proxy" (worker_error_display e)) end, s, clock (cs_world s)).
Definition proxy_provider : LlmProvider Json Z (CState W) := {|
  model_name := fun _ => "proxied"%string;
  cost_per_token := fun _ => (0, 0);
  complete := fun r s _ => through_proxy (proxy_complete r) s;
  complete_with_tools := fun r s _ => through_proxy (proxy_complete_with_tools r) s;
  list_models := default_list_models;
  model_metadata := default_model_metadata (fun _ => "proxied"%string);
  active_model_name := fun _ => "proxied"%string;
  set_model := default_set_model;
  seed_response_chain := default_seed_response_chain;
  get_response_chain_id := default_get_response_chain_id;
  calculate_cost := fun _ _ _ => 0;
|}.
End Client.

(** ** The runtime *)
Record WorkerConfig := mkWConfig { wf_max_iterations : nat; wf_timeout : Duration }.
Definition default_wconfig : WorkerConfig := mkWConfig 50 (from_secs 600).
(** A tool of the container: [None] is its own timeout.  It gets the granted
    credentials for the processes it starts. *)
Record ContainerTool {W : Type} := mkCTool { ct_execute : Json -> gmap string string -> W -> option (Result Json string) * W }.
Arguments ContainerTool W : clear implicits.
Record RuntimeDeps {W : Type} := mkRuntime {
  rt_get_tool : string -> W -> option (ContainerTool W);
  rt_tool_definitions : W -> list (ToolDefinition Json);
  rt_expired : W -> bool;
  rt_validator : Validator;
  rt_sanitize : string -> string -> string * bool;
  rt_from_str : string -> option Json;
  rt_to_string : Json -> string;
  rt_to_string_pretty : Json -> Result string string;
  rt_llm_display : LlmError -> string;
}.
Arguments RuntimeDeps W : clear implicits.
Definition cut (s : string) (max : nat) : string :=
  if (String.length s <=? max)%nat then s else String.substring 0 (floor_char_boundary s max) s ++s "...".
Definition is_transient_llm_error (msg : string) : bool :=
  let lower := to_lowercase msg in existsb (str_contains lower) ["502"; "503"; "504"; "bad gateway"; "gateway timeout"; "temporarily unavailable"]%string.

Inductive RStep (A : Type) := Val (a : A) | Fails (e : WorkerError) | Expired.
Arguments Val {A}. Arguments Fails {A}. Arguments Expired {A}.
Section Runtime.
Context {W : Type} (wire : Wire W) (f32_text : Z -> string) (c : WorkerClient) (clock : W -> Instant) (E : RuntimeDeps W) (extra_env : gmap string string).
Definition R (A : Type) : Type := CState W -> RStep A * CState W.
Definition rret {A} (a : A) : R A := fun s => (Val a, s).
Definition rfail {A} (e : WorkerError) : R A := fun s => (Fails e, s).
Definition rbind {A B} (m : R A) (k : A -> R B) : R B :=
  fun s => match m s with (Val a, s) => k a s | (Fails e, s) => (Fails e, s) | (Expired, s) => (Expired, s) end.
Notation "'let!' x '<-' m ';' k" := (rbind m (fun x => k)) (at level 10, x pattern, k at level 200).
(** A call that suspends. *)
Definition suspend {A} (f : CState W -> A * CState W) : R A :=
  fun s => let '(a, s) := f s in (if rt_expired E (cs_world s) then Expired else Val a, s).
Definition event (ty : string) (d : Json) : R unit := suspend (fun s => (tt, post_event wire c (mkEventPayload ty d) s)).
Definition reading {A} (f : W -> A) : R A := fun s => (Val (f (cs_world s)), s).

Definition run_tool (name : string) (params : Json) : R (Result string string) :=
  let! tool <- reading (rt_get_tool E name);
  match tool with
  | None => rret (Err ("tool '" ++s name ++s "' not found"))
  | Some tool =>
      let v := validate_tool_params (rt_validator E) params in
      if negb (is_valid v) then rret (Err ("invalid parameters: " ++s validation_details v))
      else
        let! r <- suspend (fun s => let '(r, w) := ct_execute tool params extra_env (cs_world s) in (r, mkCState W w (cs_log s)));
        rret (match r with
              | Some (Ok v) => match rt_to_string_pretty E v with Ok t => Ok t | Err e => Err ("serialization error: " ++s e) end
              | Some (Err e) => Err e
              | None => Err "tool execution timed out"
              end)%string
  end.
(** The message of a result; a result never ends the job. *)
Definition tool_message (sel : ToolSelection) (r : Result string string) : ChatMessage Json :=
  msg_tool_result (sel_tool_call_id sel) (sel_tool_name sel)
    (match r with
     | Ok output => let '(t, modified) := rt_sanitize E (sel_tool_name sel) output in wrap_for_llm (sel_tool_name sel) t modified
     | Err e => "Error: " ++s e
     end).
Definition shown_output (r : Result string string) : string := match r with Ok o => cut o 2000 | Err e => "Error: " ++s cut e 500 end.
Definition run_one (sel : ToolSelection) (st : ReasoningContext * string) : R (ReasoningContext * string) :=
  let '(rc, last) := st in
  let! _ <- event "tool_use" (JObject [("tool_name", JString (sel_tool_name sel)); ("input", JString (cut (rt_to_string E (parameters sel)) 500))]%string);
  let! r <- run_tool (sel_tool_name sel) (parameters sel);
  let! _ <- event "tool_result" (JObject [("tool_name", JString (sel_tool_name sel)); ("output", JString (shown_output r)); ("success", JBool (is_ok r))]%string);
  rret (with_message (tool_message sel r) rc, match r with Ok o => o | Err _ => last end).
Fixpoint run_all (sels : list ToolSelection) (st : ReasoningContext * string) : R (ReasoningContext * string) :=
  match sels with [] => rret st | sel :: sels => let! st <- run_one sel st; run_all sels st end.

Definition think {A} (f : CState W -> Instant -> Outcome A (CState W)) : R (Result A LlmError) :=
  suspend (fun s => let '(r, s, _) := f s (clock (cs_world s)) in (r, s)).
(** Three attempts at most; only an error that looks like one of a gateway is tried again. *)
Fixpoint with_retry {A} (more : nat) (what : string) (f : CState W -> Instant -> Outcome A (CState W)) : R A :=
  let! r <- think f;
  match r with
  | Ok a => rret a
  | Err e =>
      let msg := rt_llm_display E e in
      match more with
      | S more => if is_transient_llm_error msg then let! _ <- suspend (fun s => (tt, s)); with_retry more what f
                  else rfail (WorkerExecutionFailed (what ++s " failed: " ++s msg))
      | O => rfail (WorkerExecutionFailed (what ++s " failed: " ++s msg))
      end
  end.
#[local] Existing Instance proxy_provider.
Definition provider : LlmProvider Json Z (CState W) := proxy_provider wire f32_text c clock.
Definition select_with_retry (rc : ReasoningContext) : R (list ToolSelection) := with_retry 2 "tool selection" (select_tools (LlmProvider0:=provider) rc).
Definition respond_with_retry (rc : ReasoningContext) : R RespondOutput :=
  with_retry 2 "respond_with_tools" (respond_with_tools (LlmProvider0:=provider) (rt_from_str E) new_reasoning rc).
Definition said (who text : string) : Json := JObject [("role", JString who); ("content", JString (cut text 2000))]%string.
Definition poll_and_inject_prompt (rc : ReasoningContext) : R ReasoningContext :=
  let! p <- suspend (poll_prompt wire c);
  match p with
  | Ok (Some p) => let! _ <- event "message" (said "user" (prompt_content p)); rret (with_message (msg_user (prompt_content p)) rc)
  | _ => rret rc
  end.
Definition refresh (rc : ReasoningContext) : R ReasoningContext := let! ts <- reading (rt_tool_definitions E); rret (with_tools ts rc).
(** One iteration: the output of the job, or what the next one starts from. *)
Definition iteration_body (i : nat) (rc : ReasoningContext) (last : string) : R (string + ReasoningContext * string) :=
  let! _ <- (if (i mod 5 =? 1)%nat
             then suspend (fun s => (tt, (send_status wire c (mkStatus "in_progress" (Some ("Iteration " ++s pretty i)) (Z.of_nat i)) s).2))
             else rret tt);
  let! rc <- poll_and_inject_prompt rc;
  let! rc <- refresh rc;
  let! sels <- select_with_retry rc;
  match sels with
  | [] =>
      let! o <- respond_with_retry rc;
      match rr_result o with
      | Text response =>
          let! _ <- event "message" (said "assistant" response);
          if Worker.llm_signals_completion response then rret (inl (if is_empty last then response else last))
          else rret (inr (with_message (msg_assistant response) rc, last))
      | ToolCalls calls text =>
          let! _ <- match text with Some t => event "message" (said "assistant" t) | None => rret tt end;
          let! st <- run_all (map (selection_of EmptyString) calls) (with_message (msg_assistant_with_tool_calls text calls) rc, last);
          rret (inr st)
      end
  | _ => let! st <- run_all sels (rc, last); rret (inr st)
  end.
Fixpoint iterations (more i : nat) (max : nat) (rc : ReasoningContext) (last : string) : R string :=
  match more with
  | O => rfail (WorkerExecutionFailed ("max iterations (" ++s pretty max ++s ") exceeded; refine the task scope, increase max iterations, or switch runtime mode"))
  | S more =>
      let! r <- iteration_body i rc last;
      match r with
      | inl out => rret out
      | inr (rc, last) => let! _ <- suspend (fun s => (tt, s)); iterations more (S i) max rc last
      end
  end.
Definition container_loop (max : nat) (rc : ReasoningContext) : R string := let! rc <- refresh rc; iterations max 1 max rc EmptyString.
End Runtime.

Section Run.
Context {W : Type} (wire : Wire W) (f32_text : Z -> string) (c : WorkerClient) (clock : W -> Instant) (E : RuntimeDeps W) (config : WorkerConfig).
Definition env_of (creds : list (string * string)) : gmap string string := foldl (fun m kv => <[kv.1 := kv.2]> m) ∅ creds.
Definition container_prompt (j : JobDescription) : string := String.concat NL
  [ "You are an autonomous agent running inside a Docker container."; ""; "Job: " ++s jd_title j; "Description: " ++s jd_description j; "";
    "You have tools for shell commands, file operations, and code editing."; "Work independently to complete this job. Report when done." ]%string.
Definition container_context (j : JobDescription) : ReasoningContext := with_message (msg_system (container_prompt j)) (with_job (jd_description j) new_rcontext).
Definition result_data (ok : bool) (message : string) : Json := JObject [("success", JBool ok); ("message", JString message)]%string.
Definition finish (ok : bool) (shown message : string) (s : CState W) : Result unit WorkerError * CState W :=
  send_complete wire c (mkReport ok (Some message) 0) (post_event wire c (mkEventPayload "result" (result_data ok shown)) s).
Definition run_container (s : CState W) : Result unit WorkerError * CState W :=
  match fetch_job wire c s with
  | (Err e, s) => (Err e, s)
  | (Ok job, s) =>
      match fetch_credentials wire c s with
      | (Err e, s) => (Err e, s)
      | (Ok creds, s) =>
          match send_status wire c (mkStatus "in_progress" (Some "Worker started, beginning execution"%string) 0) s with
          | (Err e, s) => (Err e, s)
          | (Ok _, s) =>
              match container_loop wire f32_text c clock E (env_of creds) (wf_max_iterations config) (container_context job) s with
              | (Val output, s) => finish true (cut output 2000) output s
              | (Fails e, s) => let m := "Execution failed: " ++s worker_error_display e in finish false m m s
              | (Expired, s) => finish false "Execution timed out" "Execution timed out" s
              end
          end
      end
  end.
End Run.

(** ** Both ends of the wire *)
Lemma u32_of_jint n : in_u 32 n -> as_u32 (jint n) = Some n.
Proof. intros H. unfold as_u32. change (jint n) with (jnat n). rewrite as_u64_jnat by done. cbn [mbind option_bind]. destruct H as [H1 H2]. by rewrite (proj2 (Z.ltb_lt _ _) H2). Qed.
Lemma finish_reason_survives r : parse_finish_reason (format_finish_reason r) = r.
Proof. by destruct r. Qed.
Lemma calls_survive cs : mapM call_of (tool_call_json <$> cs) = Some cs.
Proof. induction cs as [|[i n a] cs IH]; [done|]. cbn. cbn in IH. by rewrite IH. Qed.
Lemma credentials_survive cs : mapM credential_of (credential_json <$> cs) = Some cs.
Proof. induction cs as [|[e v] cs IH]; [done|]. cbn. cbn in IH. by rewrite IH. Qed.
(** What the orchestrator writes the worker reads back: both kinds of answers of
    the model, the job, the credentials and the prompts. *)
Theorem answers_survive_the_wire (content : string) (text : option string) (calls : list (ToolCall Json)) (i o : Z) (r : FinishReason) (title description : string) (dir : option string)
    (creds : list (string * string)) (p : PendingPrompt) : in_u 32 i -> in_u 32 o ->
  completion_of (proxy_response (JString content) [] i o r) = Some (mkResponse content i o r None)
  /\ tool_completion_of (proxy_response (jopt text) [("tool_calls"%string, JArray (tool_call_json <$> calls))] i o r) = Some (mkToolResponse Json text calls i o r None)
  /\ job_of (OrchestratorApi.job_description title description dir) = Some (mkJobDescription title description dir)
  /\ credentials_of (JArray (credential_json <$> creds)) = Some creds
  /\ prompt_of (JObject [("content", JString (prompt_content p)); ("done", JBool (prompt_done p))]%string) = Some p.
Proof.
  intros Hi Ho. split_and!.
  - unfold completion_of, get_u32, get_str. cbn -[as_u32 jint format_finish_reason]. rewrite !u32_of_jint by done. cbn -[format_finish_reason]. by rewrite finish_reason_survives.
  - unfold tool_completion_of, get_u32, get_str, opt_str, list_of. cbn -[as_u32 jint format_finish_reason mapM]. rewrite !u32_of_jint by done. rewrite calls_survive. destruct text; cbn -[format_finish_reason]; by rewrite finish_reason_survives.
  - by destruct dir.
  - apply credentials_survive.
  - by destruct p.
Qed.
(** The result that the worker posts has no status: the page shows the job as
    unknown, whether it succeeded or not. *)
Theorem result_status_unknown (job_id : string) (ok : bool) (message : string) :
  sse_event job_id (mkEventPayload "result" (result_data ok message)) = JobResult job_id "unknown" None.
Proof. done. Qed.

(** ** What a run sends *)
Section Facts.
Context {W : Type} (wire : Wire W) (f32_text : Z -> string) (c : WorkerClient) (clock : W -> Instant) (E : RuntimeDeps W).
Definition is_report (q : WorkerRequest) : bool := String.eqb (wq_url q) (worker_url c "complete").
Definition is_model_call (q : WorkerRequest) : bool := String.eqb (wq_url q) (worker_url c "llm/complete") || String.eqb (wq_url q) (worker_url c "llm/complete_with_tools").
Definition model_calls (qs : list WorkerRequest) : nat := length (List.filter is_model_call qs).
(** A request of the running job: it carries the token and is not the report. *)
Definition working (q : WorkerRequest) : Prop := is_report q = false /\ wq_bearer q = wc_token c.
Definition Adds (n : nat) (s s' : CState W) : Prop := exists qs, cs_log s' = cs_log s ++ qs /\ Forall working qs /\ (model_calls qs <= n)%nat.
Lemma adds_refl n s : Adds n s s.
Proof. exists []. rewrite app_nil_r. split_and!; [done|constructor|cbn; lia]. Qed.
Lemma adds_same n (s s' : CState W) : cs_log s' = cs_log s -> Adds n s s'.
Proof. intros H. exists []. rewrite app_nil_r. split_and!; [done|constructor|cbn; lia]. Qed.
Lemma adds_trans n m s1 s2 s3 : Adds n s1 s2 -> Adds m s2 s3 -> Adds (n + m) s1 s3.
Proof.
  intros (q1 & E1 & W1 & C1) (q2 & E2 & W2 & C2). exists (q1 ++ q2). rewrite E2, E1, <-app_assoc. split_and!; [done|by apply Forall_app|]. unfold model_calls in *. rewrite List.filter_app, length_app. lia.
Qed.
Lemma adds_more n m s s' : (n <= m)%nat -> Adds n s s' -> Adds m s s'.
Proof. intros H (qs & ? & ? & ?). exists qs. split_and!; [done|done|lia]. Qed.
Lemma url_inj p q : worker_url c p = worker_url c q -> p = q.
Proof.
  unfold worker_url. assert (I : forall a b d : string, a ++s b = a ++s d -> b = d) by (induction a as [|x a IH]; [done|]; intros b d [= H]; by apply IH).
  intros H%I%I%I%I. done.
Qed.
Lemma url_eqb p q : String.eqb (worker_url c p) (worker_url c q) = String.eqb p q.
Proof. destruct (String.eqb_spec p q) as [->|n]; [apply String.eqb_refl|]. apply String.eqb_neq. intros H%url_inj. done. Qed.
Lemma sent_working m p b s : p <> "complete"%string -> Adds (if String.eqb p "llm/complete" || String.eqb p "llm/complete_with_tools" then 1 else 0) s (wsend wire c m p b s).2.
Proof.
  intros Hp. unfold wsend. destruct (wire_send wire _ (cs_world s)) as [r w]. cbn [snd]. eexists [_]. split; [done|]. split.
  - constructor; [|constructor]. split; [|done]. unfold is_report. cbn [wq_url]. rewrite url_eqb. by apply String.eqb_neq.
  - unfold model_calls. cbn [List.filter]. unfold is_model_call at 1. cbn [wq_url]. rewrite !url_eqb. destruct (_ || _); cbn; lia.
Qed.
Definition spends {A} (n : nat) (m : R A) : Prop := forall s : CState W, Adds n s (m s).2.
Lemma spends_bind {A B} n k (m : R A) (f : A -> R B) : spends n m -> (forall a, spends k (f a)) -> spends (n + k) (rbind m f).
Proof.
  intros Hm Hf s. unfold rbind. specialize (Hm s). destruct (m s) as [[a|e|] s1]; cbn [snd] in *; [|eapply adds_more; [|exact Hm]; lia..]. eapply adds_trans; [exact Hm|apply Hf].
Qed.
Lemma spends_then {A B} n (m : R A) (f : A -> R B) : spends 0 m -> (forall a, spends n (f a)) -> spends n (rbind m f).
Proof. intros Hm Hf. by apply (spends_bind 0 n). Qed.
Lemma spends_more {A} n k (m : R A) : (n <= k)%nat -> spends n m -> spends k m.
Proof. intros H Hm s. eapply adds_more; [exact H|apply Hm]. Qed.
Lemma spends_ret {A} n (a : A) : spends n (rret a).
Proof. intros s. apply adds_refl. Qed.
Lemma spends_fail {A} n (e : WorkerError) : spends n (rfail (A:=A) e).
Proof. intros s. apply adds_refl. Qed.
Lemma spends_reading {A} n (f : W -> A) : spends n (reading f).
Proof. intros s. apply adds_refl. Qed.
Lemma spends_suspend {A} n (f : CState W -> A * CState W) : (forall s, Adds n s (f s).2) -> spends n (suspend E f).
Proof. intros H s. unfold suspend. specialize (H s). by destruct (f s) as [a s1]. Qed.
Lemma spends_event ty d : spends 0 (event wire c E ty d).
Proof. apply spends_suspend. intros s. by apply (sent_working POST "event"). Qed.
Lemma spends_tool env name params : spends 0 (run_tool E env name params).
Proof.
  apply spends_then; [apply spends_reading|intros [tool|]; [|apply spends_ret]]. cbv zeta. destruct (negb (is_valid (validate_tool_params (rt_validator E) params))); [apply spends_ret|]. apply spends_then; [|intros r; apply spends_ret].
  apply spends_suspend. intros s. destruct (ct_execute tool params env (cs_world s)) as [r w]. by apply adds_same.
Qed.
Lemma spends_one env sel st : spends 0 (run_one wire c E env sel st).
Proof.
  destruct st as [rc last]. apply spends_then; [apply spends_event|intros _]. apply spends_then; [apply spends_tool|intros r]. apply spends_then; [apply spends_event|intros _]. apply spends_ret.
Qed.
Lemma spends_all env sels : forall st, spends 0 (run_all wire c E env sels st).
Proof. induction sels as [|sel sels IH]; intros st; [apply spends_ret|]. apply spends_then; [apply spends_one|exact IH]. Qed.
Lemma post_json_adds {A} (dec : Json -> option A) p b ctx s : p <> "complete"%string -> Adds 1 s (post_json wire c dec p b ctx s).2.
Proof.
  intros Hp. unfold post_json. pose proof (sent_working POST p (Some b) s Hp) as H. destruct (wsend wire c POST p (Some b) s) as [r s1]. cbn [snd] in *. eapply adds_more; [|exact H]. destruct (_ || _); lia.
Qed.
Definition one_call {A} (f : CState W -> Instant -> Outcome A (CState W)) : Prop := forall s t, Adds 1 s (f s t).1.2.
Lemma complete_one r : one_call (complete (LlmProvider:=provider wire f32_text c clock) r).
Proof.
  intros s t. cbn. unfold through_proxy, proxy_complete. pose proof (post_json_adds completion_of "llm/complete" (completion_body f32_text r) "LLM complete" s ltac:(done)) as H. by destruct (post_json _ _ _ _ _ _ s) as [x s1].
Qed.
Lemma complete_tools_one r : one_call (complete_with_tools (LlmProvider:=provider wire f32_text c clock) r).
Proof.
  intros s t. cbn. unfold through_proxy, proxy_complete_with_tools. pose proof (post_json_adds tool_completion_of "llm/complete_with_tools" (tool_completion_body f32_text r) "LLM tool complete" s ltac:(done)) as H. by destruct (post_json _ _ _ _ _ _ s) as [x s1].
Qed.
Lemma select_one rc : one_call (select_tools (LlmProvider0:=provider wire f32_text c clock) rc).
Proof.
  intros s t. unfold select_tools. destruct (available_tools rc); [apply adds_refl|]. pose proof (complete_tools_one (select_request rc) s t) as H. by destruct (complete_with_tools (select_request rc) s t) as [[x s1] t1].
Qed.
Lemma respond_one rc : one_call (respond_with_tools (LlmProvider0:=provider wire f32_text c clock) (rt_from_str E) new_reasoning rc).
Proof.
  intros s t. unfold respond_with_tools. destruct (available_tools rc).
  - pose proof (complete_one (text_request new_reasoning rc) s t) as H. by destruct (complete (text_request new_reasoning rc) s t) as [[x s1] t1].
  - pose proof (complete_tools_one (Reasoning.tool_request new_reasoning rc) s t) as H. by destruct (complete_with_tools (Reasoning.tool_request new_reasoning rc) s t) as [[x s1] t1].
Qed.
Lemma spends_retry {A} (f : CState W -> Instant -> Outcome A (CState W)) what n : one_call f -> spends (S n) (with_retry clock E n what f).
Proof.
  intros Hf. induction n as [|n IH]; cbn [with_retry].
  - apply (spends_bind 1 0); [apply spends_suspend; intros s; specialize (Hf s (clock (cs_world s))); by destruct (f s _) as [[r s1] t1]|]. intros [a|e]; [apply spends_ret|apply spends_fail].
  - apply (spends_bind 1 (S n)); [apply spends_suspend; intros s; specialize (Hf s (clock (cs_world s))); by destruct (f s _) as [[r s1] t1]|]. intros [a|e]; [apply spends_ret|].
    destruct (is_transient_llm_error _); [|apply spends_fail]. apply spends_then; [apply spends_suspend; intros s; apply adds_refl|intros _; exact IH].
Qed.
Lemma spends_poll rc : spends 0 (poll_and_inject_prompt wire c E rc).
Proof.
  apply spends_then.
  - apply spends_suspend. intros s. unfold poll_prompt. pose proof (sent_working GET "prompt" None s ltac:(done)) as H. by destruct (wsend wire c GET "prompt" None s) as [r s1].
  - intros [[p|]|e]; [|apply spends_ret..]. apply spends_then; [apply spends_event|intros _; apply spends_ret].
Qed.
Lemma spends_iteration env i rc last : spends 6 (iteration_body wire f32_text c clock E env i rc last).
Proof.
  apply spends_then.
  { destruct (i mod 5 =? 1)%nat; [|apply spends_ret]. apply spends_suspend. intros s. cbn [snd]. unfold send_status. match goal with |- context [wsend wire c POST "status" ?b s] => pose proof (sent_working POST "status" b s ltac:(done)) as H; destruct (wsend wire c POST "status" b s) as [r s1] end. exact H. }
  intros _. apply spends_then; [apply spends_poll|intros rc1]. apply spends_then; [apply spends_then; [apply spends_reading|intros ts; apply spends_ret]|intros rc2].
  apply (spends_bind 3 3); [apply spends_retry, select_one|intros [|sel sels]].
  - apply (spends_bind 3 0); [apply spends_retry, respond_one|intros o]. destruct (rr_result o) as [text|calls text].
    + apply spends_then; [apply spends_event|intros _]. destruct (Worker.llm_signals_completion text); apply spends_ret.
    + apply spends_then; [destruct text; [apply spends_event|apply spends_ret]|intros _]. apply spends_then; [apply spends_all|intros st; apply spends_ret].
  - apply (spends_more 0); [lia|]. apply spends_then; [apply spends_all|intros st; apply spends_ret].
Qed.
Lemma spends_iterations env max n : forall i rc last, spends (6 * n) (iterations wire f32_text c clock E env n i max rc last).
Proof.
  induction n as [|n IH]; intros i rc last; cbn [iterations]; [apply spends_fail|]. apply (spends_more (6 + 6 * n)); [lia|]. apply spends_bind; [apply spends_iteration|intros [out|[rc' last']]; [apply spends_ret|]].
  apply spends_then; [apply spends_suspend; intros s; apply adds_refl|intros _; apply IH].
Qed.
Lemma spends_loop env max rc : spends (6 * max) (container_loop wire f32_text c clock E env max rc).
Proof. apply spends_then; [apply spends_then; [apply spends_reading|intros ts; apply spends_ret]|intros rc'; apply spends_iterations]. Qed.
Lemma report_sent r s : exists q, cs_log (send_complete wire c r s).2 = cs_log s ++ [q] /\ is_report q = true /\ wq_bearer q = wc_token c /\ wq_body q = Some (report_body r) /\ is_model_call q = false.
Proof.
  unfold send_complete, post_json, wsend. destruct (wire_send wire _ (cs_world s)) as [x w]. eexists. split; [done|]. unfold is_report, is_model_call. cbn [wq_url wq_bearer wq_body]. rewrite !url_eqb. done.
Qed.
Lemma event_adds p s : Adds 0 s (post_event wire c p s).
Proof. by apply (sent_working POST "event"). Qed.
Lemma get_adds {A} (dec : Json -> option A) p ctx s : p <> "complete"%string -> String.eqb p "llm/complete" || String.eqb p "llm/complete_with_tools" = false -> Adds 0 s (get_json wire c dec p ctx s).2.
Proof. intros H1 H2. unfold get_json. pose proof (sent_working GET p None s H1) as H. rewrite H2 in H. by destruct (wsend wire c GET p None s) as [r s1]. Qed.
Lemma credentials_adds s : Adds 0 s (fetch_credentials wire c s).2.
Proof. unfold fetch_credentials. pose proof (sent_working GET "credentials" None s ltac:(done)) as H. by destruct (wsend wire c GET "credentials" None s) as [r s1]. Qed.
Lemma status_adds u s : Adds 0 s (send_status wire c u s).2.
Proof. unfold send_status. pose proof (sent_working POST "status" (Some (status_body u)) s ltac:(done)) as H. by destruct (wsend wire c POST "status" (Some (status_body u)) s) as [r s1]. Qed.
(** A job that cannot be fetched is not reported: the orchestrator keeps it running. *)
Theorem failed_start_unreported (config : WorkerConfig) (s : CState W) : is_ok (fetch_job wire c s).1 = false ->
  let '(r, s') := run_container wire f32_text c clock E config s in is_ok r = false /\ exists q, cs_log s' = cs_log s ++ [q] /\ is_report q = false.
Proof.
  intros H. unfold run_container. destruct (fetch_job wire c s) as [[job|e] s1] eqn:Ef; [done|]. split; [done|].
  unfold fetch_job, get_json, wsend in Ef. destruct (wire_send wire _ (cs_world s)) as [r w]. injection Ef as _ <-. eexists. split; [done|]. unfold is_report. cbn [wq_url]. by rewrite url_eqb.
Qed.
(** Selected tools leave nothing but their results in the conversation, one
    each and in order: no message of the assistant asks for them. *)
Theorem selected_results_only (env : gmap string string) (sels : list ToolSelection) : forall (rc rc' : ReasoningContext) (last last' : string) (s s' : CState W),
  run_all wire c E env sels (rc, last) s = (Val (rc', last'), s') ->
  exists rs, length rs = length sels /\ rc_messages rc' = rc_messages rc ++ zip_with (tool_message E) sels rs.
Proof.
  induction sels as [|sel sels IH]; intros rc rc' last last' s s'; cbn [run_all].
  - intros [= <- <- <-]. exists []. by rewrite app_nil_r.
  - unfold rbind at 1. unfold run_one, rbind at 1. destruct (event wire c E "tool_use" _ s) as [[[]|e|] s1]; [|done..]. unfold rbind at 1. destruct (run_tool E env _ _ s1) as [[r|e|] s2]; [|done..].
    unfold rbind at 1. destruct (event wire c E "tool_result" _ s2) as [[[]|e|] s3]; [|done..]. unfold rret. intros H. apply IH in H as (rs & L & Hm). exists (r :: rs). split; [cbn; lia|]. rewrite Hm. cbn. by rewrite <-app_assoc.
Qed.
(** The events of a tool carry its output as it is; only the conversation gets the cleaned one. *)
Theorem raw_output_posted (env : gmap string string) (sel : ToolSelection) (rc rc' : ReasoningContext) (last last' : string) (s s' : CState W) :
  run_one wire c E env sel (rc, last) s = (Val (rc', last'), s') ->
  exists r q before, cs_log s' = cs_log s ++ before ++ [q] /\ rc_messages rc' = rc_messages rc ++ [tool_message E sel r]
    /\ wq_body q = Some (event_body (mkEventPayload "tool_result" (JObject [("tool_name", JString (sel_tool_name sel)); ("output", JString (shown_output r)); ("success", JBool (is_ok r))]%string))).
Proof.
  unfold run_one, rbind at 1. pose proof (spends_event "tool_use" (JObject [("tool_name", JString (sel_tool_name sel)); ("input", JString (cut (rt_to_string E (parameters sel)) 500))]%string) s) as (q1 & E1 & _).
  destruct (event wire c E "tool_use" _ s) as [[[]|e|] s1]; [|done..]. unfold rbind at 1. pose proof (spends_tool env (sel_tool_name sel) (parameters sel) s1) as (q2 & E2 & _). destruct (run_tool E env _ _ s1) as [[r|e|] s2]; [|done..].
  unfold rbind, event at 1, suspend, post_event, wsend. destruct (wire_send wire _ (cs_world s2)) as [x w]. cbn [snd cs_world]. destruct (rt_expired E w); [done|]. unfold rret. intros [= <- _ <-]. cbn [snd] in *.
  eexists r, _, (q1 ++ q2). cbn [cs_log]. rewrite E2, E1, <-!app_assoc. done.
Qed.
End Facts.

(** ** Witnesses: an orchestrator that gives the job, no credentials and a model
    that says it is done. *)
Definition demo_wclient : WorkerClient := new_wclient "http://host:50051/" "j1" "tok".
Definition demo_wire : Wire unit := mkWire unit
  (fun q w => (if String.eqb (wq_url q) "http://host:50051/worker/j1/prompt" || String.eqb (wq_url q) "http://host:50051/worker/j1/credentials" then Ok (204, EmptyString) else Ok (200, wq_url q), w))
  (fun b => Ok (if String.eqb b "http://host:50051/worker/j1/job" then OrchestratorApi.job_description "tidy" "tidy up" None
                else if String.eqb b "http://host:50051/worker/j1/llm/complete" then proxy_response (JString "The job is complete.") [] 5 4 Stop else JNull))
  (fun _ => "refused"%string) pretty (fun b => b).
Definition demo_runtime : RuntimeDeps unit :=
  mkRuntime unit (fun _ _ => None) (fun _ => []) (fun _ => false) (mkValidator 100 1 []) (fun _ o => (o, false)) (fun _ => None) (fun _ => "{}"%string) (fun _ => Ok "{}"%string) (fun _ => "error"%string).
Definition demo_cstate : CState unit := mkCState unit tt [].
Lemma answers_survive_the_wire_witness :
  completion_of (proxy_response (JString "hi") [] 5 4 Stop) = Some (mkResponse "hi" 5 4 Stop None)
  /\ tool_completion_of (proxy_response (jopt None) [("tool_calls"%string, JArray (tool_call_json <$> [mkToolCall Json "c1" "time" JNull]))] 5 4 Stop) = Some (mkToolResponse Json None [mkToolCall Json "c1" "time" JNull] 5 4 Stop None)
  /\ job_of (OrchestratorApi.job_description "tidy" "tidy up" None) = Some (mkJobDescription "tidy" "tidy up" None)
  /\ credentials_of (JArray (credential_json <$> [("KEY", "v")%string])) = Some [("KEY", "v")%string]
  /\ prompt_of (JObject [("content", JString "more"); ("done", JBool false)]%string) = Some (mkPrompt "more" false).
Proof. apply (answers_survive_the_wire "hi" None [mkToolCall Json "c1" "time" JNull] 5 4 Stop "tidy" "tidy up" None [("KEY", "v")%string] (mkPrompt "more" false)); split; lia. Defined.
(** The run of the demo: the job, the credentials, two statuses, a prompt, the
    model, the message, the result and the report. *)
Example demo_container_run : let '(r, s') := run_container demo_wire (fun _ => "0"%string) demo_wclient (fun _ => 0) demo_runtime default_wconfig demo_cstate in
  r = Ok tt /\ length (cs_log s') = 9%nat /\ model_calls demo_wclient (cs_log s') = 1%nat.
Proof. vm_compute. done. Qed.
Lemma failed_start_unreported_witness : let down := mkWire unit (fun q w => (Err "refused"%string, w)) (fun _ => Ok JNull) (fun _ => "refused"%string) pretty (fun b => b) in
  let '(r, s') := run_container down (fun _ => "0"%string) demo_wclient (fun _ => 0) demo_runtime default_wconfig demo_cstate in is_ok r = false /\ exists q, cs_log s' = [] ++ [q] /\ is_report demo_wclient q = false.
Proof.
  exact (failed_start_unreported (mkWire unit (fun q w => (Err "refused"%string, w)) (fun _ => Ok JNull) (fun _ => "refused"%string) pretty (fun b => b)) (fun _ => "0"%string) demo_wclient (fun _ => 0) demo_runtime default_wconfig demo_cstate eq_refl).
Defined.
